(* ===== verification/_CoqProject ===== *)
-Q . S2P
Prelude.v
GoStd.v
GoJson.v
Bolt.v
StoreTypes.v
StoreOps.v
StoreRep.v
StoreSpec.v
StoreClose.v
StoreRun.v
StoreStats.v
StoreProps.v
StoreExport.v
ExportSpec.v
ExportProps.v
Sync.v
SyncSpec.v
SyncProps.v
Context.v
ContextSpec.v
Manager.v
ManagerSpec.v
ManagerProps.v
Workflow.v
Steps.v
WorkflowSpec.v
WorkflowProps.v
ConfigDoc.v
ConfigPatch.v
ConfigApply.v
ConfigDiff.v
ConfigSpec.v
ConfigFrame.v
ConfigEnvSpec.v
ConfigDiffSpec.v
ConfigProps.v
ActionLog.v
ActionLogProps.v
Persist.v
PersistProps.v
GoText.v
Capability.v
ConsoleHttp.v
ConsoleTypes.v
ConsoleDeploy.v
ConsoleLease.v
ConsoleSecrets.v
ConsoleAccount.v
ConsoleSpec.v
ConsoleProps.v
Adapters.v
ProviderAdapter.v
ConsoleAdapter.v
AdapterProps.v
WorkflowParams.v
WorkflowReport.v
WorkflowReportProps.v
WorkflowCommand.v
WorkflowCommandProps.v
MonitorCache.v
Consensus.v
KeyringMgr.v
StoreCommands.v
Bootstrap.v
BootstrapProps.v
McpArgs.v
McpTools.v
McpProps.v
Gateway.v
GatewayProps.v
ContextCommands.v
ContextCommandsProps.v
Services.v
Startup.v
StartupProps.v
Faucet.v
MonitorUI.v
MonitorUIProps.v
ConsensusStream.v
ConsensusStreamProps.v
