(* ===== verification/Prelude.v ===== *)
(** * akt: a verification of the unified Akash CLI

    ** The program

    akt drives deployments on the Akash network. A context (internal/context) names a
    network, a keyring and a data directory; the first run of akt creates one in a
    wizard (internal/bootstrap). Before a command runs, the startup hook
    (internal/cli/root.go) selects the context, checks what it allows
    (internal/capability), fills in transaction defaults and opens the keyring as far
    as the command needs (internal/keyring). Each context has a deployment store
    (internal/store, internal/store/bbolt), an embedded database that mirrors what the
    user owns on chain and adds local notes, and an action log (internal/actionlog).
    The sync engine (internal/sync) keeps the store in step with the chain. Deploying,
    updating and closing are workflows (internal/workflow): lists of steps that an
    engine interprets over a transport (internal/transport), whose adapters
    (internal/workflow/adapters) carry the steps onto the chain and the provider
    gateway (internal/provider) or the Console API (internal/console); deployment
    configurations are edited by patches (internal/deploymentconfig). The same
    operations are offered to programs by an MCP server (internal/mcp), and a monitor
    (internal/monitor) shows consensus, providers and governance of the network.

    ** The files

    - Prelude, GoStd, GoJson, GoText: Go errors, results and panics, integer widths, the
      pieces of strings, strconv, sort, encoding/binary, encoding/base64 and
      encoding/json the code uses.
    - Bolt: go.etcd.io/bbolt as an interface ([BoltOps]) with the laws its
      documentation gives ([BoltLaws], and [BoltHealthy] for a disk that does not
      fail), and an in-memory implementation of both ([MemBolt]).
    - StoreTypes (store.go: records, filters, keys, JSON), StoreOps (bbolt/store.go:
      every operation of [BoltStore]). StoreRep states the abstract store, finite maps
      of records, and what it means that a database represents one; StoreSpec,
      StoreClose, StoreRun and StoreStats prove the operations against it; StoreProps
      has the properties. StoreExport (bbolt/export.go, bbolt/migrate.go), ExportSpec,
      ExportProps. StoreCommands (cli/store): the commands and their properties.
    - Sync (engine.go, reconcile.go, querier.go, provider/metadata.go): the engine is
      written against the [Store] class; SyncSpec states its laws ([StoreLaws]),
      discharges them for [BoltStore] and proves the handlers from the laws alone;
      SyncProps has the properties.
    - Context (types.go, defaults.go, config.go, credentials.go), Manager (manager.go:
      every operation), ContextSpec (paths, files, trimming), ManagerSpec (the
      invariant), ManagerProps. Services: the watcher of the configuration
      (context/watcher.go) and the event service (internal/events), as step relations.
      ContextCommands, ContextCommandsProps (cli/context, cli/network). KeyringMgr
      (internal/keyring). Bootstrap, BootstrapProps (internal/bootstrap). Capability
      (capability.go, cli/gating.go). Startup, StartupProps (the hook of cli/root.go,
      client context and fee flags). Faucet (cli/faucet.go).
    - Workflow (types.go, template.go, params.go, loader.go, engine.go), Steps
      (steps/*.go: every executor; transport.go and deposit.go), WorkflowSpec (the
      contract of an executor, [ExecutorLaws], kept by every built-in one; the engine's
      loop over it), WorkflowProps. Adapters (chain.go, msgs.go, deployment_inputs.go,
      metadata.go), ProviderAdapter, ConsoleAdapter, AdapterProps. WorkflowParams,
      WorkflowReport, WorkflowCommand and their Props (cli/workflow/commands.go): the
      commands made from workflows. Persist, PersistProps (cli/workflow/persist.go,
      bbolt/open.go): what a run leaves in the store.
    - ConfigDoc, ConfigPatch, ConfigApply, ConfigDiff (internal/deploymentconfig), with
      ConfigSpec, ConfigFrame, ConfigEnvSpec, ConfigDiffSpec and ConfigProps.
    - ActionLog, ActionLogProps (internal/actionlog, internal/workflow/actionlog.go).
    - ConsoleHttp, ConsoleTypes, ConsoleDeploy, ConsoleLease, ConsoleSecrets,
      ConsoleAccount (internal/console), ConsoleSpec (what a call sends and logs),
      ConsoleProps. Gateway, GatewayProps (provider/boundary.go, provider/gateway.go).
    - McpArgs (arguments and schemas), McpTools (every tool and the server), McpProps.
    - MonitorCache (monitor/cache), Consensus (monitor/consensus), ConsensusStream
      (monitor/rpc/websocket.go, the validators, commits and names of
      monitor/rpc/client.go, and the task group of monitor/ui/runtime_tasks.go),
      ConsensusStreamProps, MonitorUI (monitor/ui/model.go: state, messages, keys,
      commands, and the running program as a step relation), MonitorUIProps.

    State is passed explicitly: the database for the store, the configuration and the
    files for the manager, the world for workflows, the model for the monitor. Errors
    are values that keep their format, arguments and wrapped error; a Go panic is the
    value [Panic]. [uint64] and [int64] are [N] and [Z] with their ranges and
    wrap-around written out where the code can leave them.

    ** What the theorems show

    - The store implements finite maps: every operation takes the abstract step or
      fails and changes nothing, never panics, and succeeds when the abstract step is
      enabled and versions have room; record versions grow; closing a deployment closes
      exactly its leases; lists and statistics are exact; every database reached from a
      fresh one is well formed. What an export writes imports to the same records;
      validation accepts exactly the valid envelopes; the dry run agrees with the
      import; an import command changes one store, in one piece, and only when told to.
    - The sync engine: reconciliation and events lose no record and no local-only
      field, a full reconciliation leaves exactly the reported chain fields and counts,
      pagination ends against a node with finitely many keys and never returns a
      prefix; the reconnection delay overflows from attempt 34 on.
    - Contexts: whatever system calls fail, the configuration in memory has unique
      names and no dangling reference; an operation that reports success is durable;
      renaming and deleting touch the files of one context; the watcher catches up with
      the file; the wizard leaves what it found or a configuration that works; a
      keyring is the one its current configuration names. A failed write loses the
      configuration file, and a context named [..] owns the whole root.
    - Commands: one that runs has what it requires and no more of the keyring than it
      declares; the fee of a transaction has one source and the floor of the network;
      the faucet is asked once and never on the live network; the log command shows
      transactions settled; gating and help agree.
    - Workflows: a run executes steps in order and stops at the first failure that is
      not tolerated; retries are bounded; a wait returns and its result meets the
      condition; the message of a transaction and the manifest of the provider come
      from one document; a deployment that was created is recorded and named whatever
      fails later; parameters are checked exactly against their types; the wait for
      readiness ends. What a run writes to the store refines the plan of the run.
    - Patches edit what they name and nothing else; a derived patch is of two documents
      that agree elsewhere; applying it gives the requested document.
    - The Console client sends a mutation once, reports success only when the peer
      confirmed it and keeps the key out of the log and secrets out of errors; so does
      the gateway client, within its limits.
    - The action log: what was logged is read back; losing is confined to rotation and
      failed writes.
    - The MCP server makes no write without consent, and its handlers see arguments
      that satisfy their schema.
    - The monitor: its background loops never die nor double; checks of providers do
      not overlap; the cache is the map its events give; a connection delivers exactly
      the votes cast, whatever the order of the messages, and the history on the screen
      records them per block. Requests for the proposer pile up, and a malformed
      message of a greater height rewinds the stream.

    ** Bounds, fuel and parameters

    Recursion is structural except where a loop has no bound of its own. [walk_pages]
    (Sync) takes the number of page requests; a node that answers with at most K keys
    needs K + 1, since a repeated key is an error. [lease_pages] (ProviderAdapter)
    needs one more than the distinct keys, [fetch_pages] (ConsensusStream) one more than
    the full pages of a hundred; out of fuel is a value of its own there ([None]: still asking).
    [poll] (Steps) and [waitForDeploymentReadiness] take the polls left before the
    deadline and one more. [nodeValue] (ConfigDoc) takes the 65 levels after which the
    code refuses a document, which also stops at 100000 nodes. [trim_left] and
    [Fields] take the length of the text, of which every round removes a byte. Bounds
    of the code are kept: three attempts of a request, a hundred pages and 10000
    records of a listing, fifteen pauses of two seconds in a 30 s window, fifty blocks
    of history, a hundred oracle events, ten checks at a time.

    Parameters stand for code outside the repository: bbolt, yaml.v3 ([Yaml] and its
    laws), the bech32 codec, the chain SDK's types, messages and coin parsers, the SDL
    library, Viper (folded into what a configuration file parses to), text/template,
    go-jose, float64 conversions, the lexer of encoding/json, time formats, Cobra
    (reduced to a tree of names, flags and annotations), the Bubbles widgets, net/url,
    fsnotify, the event bus, the order in which Go ranges over a map, sorting of equal
    elements, the answers of nodes, providers, the Console and GitHub, the host with
    its key stores and terminals, the clock and the outcome of system calls.

    ** What is not modelled

    Rendering: internal/output, the views of the monitor (monitor/ui/view.go), the
    shell and views of the TUI (internal/tui, internal/ui, internal/glyphs). Read-only
    queries that decode and print: the marketplace and usage lists of the Console, the
    oracle, BME, governance and provider queries of monitor/rpc. The command trees over
    the Cosmos SDK (internal/cli/chain) and the Console, provider, keys and SDL trees,
    which parse flags and call the SDK or the modelled clients. Wrappers of
    third-party code: internal/client (but for the context it builds), internal/codec,
    the gRPC provider client and the verification of attestations. Process entry and developer tools (cmd, tools). *)

From stdpp Require Import sorting base gmap strings pretty option numbers list.

(** ** Go errors and results

    An [error] built by [fmt.Errorf] keeps its format and its rendered arguments;
    [Wrapf] is the form with a [%w], which also keeps the wrapped error; [Sentinel] is an error value compared by identity ([errors.New]
    and the exported error variables of libraries); [Joined] is [errors.Join] of two
    errors that are not nil. *)
Inductive error : Type :=
| Errorf (format : string) (args : list string)
| Wrapf (format : string) (args : list string) (wrapped : error)
| Sentinel (name : string)
| Joined (e1 e2 : error).

#[global] Instance error_eq_dec : EqDecision error.
Proof. solve_decision. Defined.

(** [errors.Is(err, target)] for a sentinel target: walk the tree of wrapped errors. *)
Fixpoint errors_is (e : error) (target : string) : bool :=
  match e with
  | Sentinel n => bool_decide (n = target)
  | Wrapf _ _ w => errors_is w target
  | Errorf _ _ => false
  | Joined e1 e2 => errors_is e1 target || errors_is e2 target
  end.

(** What a Go call that returns [(T, error)] can do: return a value, return an
    error, or panic (a nil dereference, an out-of-range argument). *)
Inductive result (A : Type) : Type :=
| Ok (a : A)
| Err (e : error)
| Panic.
Arguments Ok {A} a.
Arguments Err {A} e.
Arguments Panic {A}.

#[global] Instance result_ret : MRet result := λ A a, Ok a.
#[global] Instance result_bind : MBind result := λ A B f r,
  match r with Ok a => f a | Err e => Err e | Panic => Panic end.
#[global] Instance result_fmap : FMap result := λ A B f r,
  match r with Ok a => Ok (f a) | Err e => Err e | Panic => Panic end.
#[global] Instance result_eq_dec {A} `{EqDecision A} : EqDecision (result A).
Proof. solve_decision. Defined.

(** [if err != nil { return fmt.Errorf(... %w, err) }]. *)
Definition map_err {A} (f : error → error) (r : result A) : result A :=
  match r with Err e => Err (f e) | _ => r end.

(** [return fmt.Errorf(format, args...)]. *)
Definition failf {A} (format : string) (args : list string) : result A :=
  Err (Errorf format args).

Definition is_ok {A} (r : result A) : bool :=
  match r with Ok _ => true | _ => false end.

Lemma bind_ok {A B} (f : A → result B) (r : result A) b :
  (r ≫= f) = Ok b → ∃ a, r = Ok a ∧ f a = Ok b.
Proof. destruct r; simpl; naive_solver. Qed.

Lemma map_err_ok {A} f (r : result A) a : map_err f r = Ok a ↔ r = Ok a.
Proof. destruct r; naive_solver. Qed.

Lemma map_err_panic {A} f (r : result A) : map_err f r = Panic ↔ r = Panic.
Proof. destruct r; naive_solver. Qed.

(** The loop [for _, x := range l { if err := f(x); err != nil { return err } }]
    over an explicit state. *)
Fixpoint foldR {S A} (f : S → A → result S) (s : S) (l : list A) : result S :=
  match l with
  | [] => Ok s
  | x :: l => s' ← f s x; foldR f s' l
  end.

Lemma foldR_app {S A} (f : S → A → result S) s l1 l2 :
  foldR f s (l1 ++ l2) = (s' ← foldR f s l1; foldR f s' l2).
Proof. revert s. induction l1 as [|x l1 IH]; intros s; simpl; [done|]. destruct (f s x); simpl; auto. Qed.

(** Invariant rule for [foldR]. *)
Lemma foldR_inv {S A} (f : S → A → result S) (I : S → Prop) l s s' :
  (∀ s x s', x ∈ l → I s → f s x = Ok s' → I s') →
  I s → foldR f s l = Ok s' → I s'.
Proof.
  revert s. induction l as [|x l IH]; intros s Hf HI Hr; simpl in *.
  { by simplify_eq. }
  apply bind_ok in Hr as (s1 & H1 & H2).
  apply (IH s1); [|eapply Hf; eauto; set_solver|done].
  intros ????; eapply Hf; set_solver.
Qed.

(** Progress rule: when every step succeeds from an invariant state, so does the loop. *)
Lemma foldR_total {S A} (f : S → A → result S) (I : S → Prop) l s :
  (∀ s x, x ∈ l → I s → ∃ s', f s x = Ok s' ∧ I s') →
  I s → ∃ s', foldR f s l = Ok s' ∧ I s'.
Proof.
  revert s. induction l as [|x l IH]; intros s Hf HI; simpl; [eauto|].
  destruct (Hf s x) as (s1 & -> & HI1); [set_solver|done|]. simpl.
  apply IH; [|done]. intros; apply Hf; set_solver.
Qed.

Lemma foldR_no_panic {S A} (f : S → A → result S) (I : S → Prop) l s :
  (∀ s x, x ∈ l → I s → f s x ≠ Panic) →
  (∀ s x s', x ∈ l → I s → f s x = Ok s' → I s') →
  I s → foldR f s l ≠ Panic.
Proof.
  revert s. induction l as [|x l IH]; intros s Hf Hi HI; simpl; [done|].
  destruct (f s x) as [s1| |] eqn:E; simpl; [|done|by apply Hf in E; [|set_solver|]].
  apply IH; [intros; apply Hf; set_solver|intros ????; apply Hi; set_solver|].
  eapply Hi; eauto. set_solver.
Qed.

(** ** Contexts

    A [context.Context] is observed through [ctx.Err()]. [None] is never
    cancelled; [Some n] lets the next [n] polls through and reports the
    cancellation from then on, which is what the package documents: once
    non-nil, [Err] keeps returning the same error. *)
Abbreviation goctx := (option nat).
Definition ctx_canceled : error := Sentinel "context canceled".

Definition ctx_Err (c : goctx) : result goctx :=
  match c with
  | None => Ok None
  | Some O => Err ctx_canceled
  | Some (S n) => Ok (Some n)
  end.

(** ** Machine integers *)
Definition u64_max : N := 18446744073709551615.
Definition u32_max : N := 4294967295.
Definition i64_min : Z := -9223372036854775808.
Definition i64_max : Z := 9223372036854775807.

Definition in_u64 (n : N) : bool := (n <=? u64_max)%N.
Definition in_u32 (n : N) : bool := (n <=? u32_max)%N.
Definition in_i64 (z : Z) : bool := ((i64_min <=? z) && (z <=? i64_max))%Z.

(** Two's-complement wrap-around of [int64] arithmetic. *)
Definition wrap_i64 (z : Z) : Z := ((z + 2 ^ 63) mod 2 ^ 64 - 2 ^ 63)%Z.

Lemma wrap_i64_id z : in_i64 z = true → wrap_i64 z = z.
Proof. unfold in_i64, wrap_i64, i64_min, i64_max. intros. rewrite Z.mod_small; lia. Qed.

Lemma wrap_i64_range z : in_i64 (wrap_i64 z) = true.
Proof.
  unfold in_i64, wrap_i64, i64_min, i64_max.
  pose proof (Z.mod_pos_bound (z + 2 ^ 63) (2 ^ 64)). lia.
Qed.
