(* ===== verification/GoStd.v ===== *)
(** * The parts of the Go standard library the modelled code uses

    Byte strings ([strings], [sort]), decimal integers ([strconv]), the UTF-8
    coercion and the base64 text that [encoding/json] applies to strings and
    byte slices, and big-endian words ([encoding/binary]). Go strings are byte
    sequences, so they are [string]s of [ascii] bytes here. *)

From Stdlib Require Import Ascii.
From stdpp Require Import sorting base gmap strings pretty option numbers list.
From S2P Require Import Prelude.

(** ** Strings as lists of bytes *)
Fixpoint bytes_of (s : string) : list ascii :=
  match s with EmptyString => [] | String c s => c :: bytes_of s end.

Fixpoint of_bytes (l : list ascii) : string :=
  match l with [] => EmptyString | c :: l => String c (of_bytes l) end.

Lemma of_bytes_of s : of_bytes (bytes_of s) = s.
Proof. induction s; by f_equal/=. Qed.

Lemma bytes_of_of l : bytes_of (of_bytes l) = l.
Proof. induction l; by f_equal/=. Qed.

#[global] Instance bytes_of_inj : Inj (=) (=) bytes_of.
Proof. intros s t H. by rewrite <- (of_bytes_of s), <- (of_bytes_of t), H. Qed.

Lemma bytes_of_app s t : bytes_of (s +:+ t) = bytes_of s ++ bytes_of t.
Proof.
  induction s as [|c s IH]; [done|].
  change (String c s +:+ t) with (String c (s +:+ t)). simpl. by rewrite IH.
Qed.

Lemma bytes_of_cons c s : bytes_of (String c s) = c :: bytes_of s.
Proof. done. Qed.

(** [strings.Contains(s, string(c))] for a single byte. *)
Definition has_byte (c : ascii) (s : string) : bool := bool_decide (c ∈ bytes_of s).

(** [strings.SplitN(s, sep, 2)] for a one-byte separator: [None] when the
    separator does not occur (the result has one part). *)
Fixpoint split2 (sep : ascii) (s : string) : option (string * string) :=
  match s with
  | EmptyString => None
  | String c s =>
      if bool_decide (c = sep) then Some (EmptyString, s)
      else match split2 sep s with
           | Some (l, r) => Some (String c l, r)
           | None => None
           end
  end.

Lemma split2_spec sep s l r :
  split2 sep s = Some (l, r) ↔
  bytes_of s = bytes_of l ++ sep :: bytes_of r ∧ has_byte sep l = false.
Proof.
  unfold has_byte. revert l r. induction s as [|c s IH]; intros l r; simpl.
  { split; [done|]. intros [H _]. by destruct l. }
  case_bool_decide as Hc.
  - subst. split.
    + intros [= <- <-]. split; [done|]. apply bool_decide_eq_false. set_solver.
    + intros [H Hl]. destruct l as [|c' l]; simpl in *; simplify_eq/=; [done|].
      apply bool_decide_eq_false in Hl. clear IH. set_solver.
  - split.
    + destruct (split2 sep s) as [[l' r']|]; [|done]. intros [= <- <-].
      destruct (proj1 (IH l' r') eq_refl) as [-> H]. split; [done|]. simpl.
      apply bool_decide_eq_false in H. apply bool_decide_eq_false. set_solver.
    + intros [H Hl]. destruct l as [|c' l]; simpl in *; simplify_eq/=.
      assert (split2 sep s = Some (l, r)) as ->; [|done].
      apply IH. split; [done|]. apply bool_decide_eq_false in Hl.
      apply bool_decide_eq_false. set_solver.
Qed.

(** [sort.Strings]. *)
Definition sort_strings (l : list string) : list string := merge_sort String.le l.

Lemma sort_strings_perm l : sort_strings l ≡ₚ l.
Proof. apply merge_sort_Permutation. Qed.

Lemma sort_strings_sorted l : StronglySorted String.le (sort_strings l).
Proof. apply (StronglySorted_merge_sort String.le). Qed.

Lemma sort_strings_elem x l : x ∈ sort_strings l ↔ x ∈ l.
Proof. by rewrite sort_strings_perm. Qed.

(** Two sorted enumerations of the same strings agree: the persisted order does
    not depend on the iteration order of the map it came from. *)
Lemma sort_strings_canonical l l' : l ≡ₚ l' → sort_strings l = sort_strings l'.
Proof.
  intros H. apply (StronglySorted_unique String.le); try apply sort_strings_sorted.
  by rewrite !sort_strings_perm.
Qed.

(** ** Pivots: splitting a concatenation at a byte one side does not contain *)
Lemma app_pivot_l {A} (x : A) l1 l2 k1 k2 :
  x ∉ l1 → x ∉ k1 → l1 ++ x :: l2 = k1 ++ x :: k2 → l1 = k1 ∧ l2 = k2.
Proof.
  revert k1. induction l1 as [|a l1 IH]; intros [|b k1] Hl Hk E; simplify_eq/=; try set_solver.
  destruct (IH k1); set_solver.
Qed.

Lemma app_pivot_r {A} (x : A) l1 l2 k1 k2 :
  x ∉ l2 → x ∉ k2 → l1 ++ x :: l2 = k1 ++ x :: k2 → l1 = k1 ∧ l2 = k2.
Proof.
  intros Hl Hk E. apply (f_equal reverse) in E.
  rewrite !reverse_app, !reverse_cons, <- !app_assoc in E. simpl in E.
  apply app_pivot_l in E as [E1 E2]; [|by rewrite elem_of_reverse..].
  by apply (inj reverse) in E1; apply (inj reverse) in E2.
Qed.

(** ** strconv *)
Definition FormatUint (n : N) : string := pretty n.
Definition FormatInt (z : Z) : string := pretty z.

Definition ErrSyntax : error := Sentinel "strconv.ErrSyntax".
Definition ErrRange : error := Sentinel "strconv.ErrRange".

Definition digit_val (c : ascii) : option N := N.of_nat <$> Ascii.is_nat c.

(** The digit loop of [strconv.ParseUint(s, 10, bits)]: [max] is the largest
    value of the width; a value that leaves it is a range error at once. *)
Fixpoint parse_digits (max n : N) (s : string) : result N :=
  match s with
  | EmptyString => Ok n
  | String c s =>
      match digit_val c with
      | None => Err ErrSyntax
      | Some d => if (n * 10 + d <=? max)%N then parse_digits max (n * 10 + d) s
                  else Err ErrRange
      end
  end.

Definition ParseUint (max : N) (s : string) : result N :=
  match s with EmptyString => Err ErrSyntax | _ => parse_digits max 0 s end.

(** [strconv.ParseInt(s, 10, 64)]: an optional sign, then the magnitude as an
    unsigned number checked against the signed range. *)
Definition ParseInt64 (s : string) : result Z :=
  let '(neg, s') := match s with
                    | String "+" r => (false, r)
                    | String "-" r => (true, r)
                    | _ => (false, s)
                    end%char in
  un ← ParseUint u64_max s';
  if negb neg && (9223372036854775808 <=? un)%N then Err ErrRange
  else if neg && (9223372036854775808 <? un)%N then Err ErrRange
  else Ok (if neg then - Z.of_N un else Z.of_N un)%Z.

Lemma digit_val_char x : (x < 10)%N → digit_val (pretty_N_char x) = Some x.
Proof.
  intros H. assert (x = 0 ∨ x = 1 ∨ x = 2 ∨ x = 3 ∨ x = 4 ∨ x = 5 ∨ x = 6 ∨ x = 7 ∨ x = 8 ∨ x = 9)%N
    as [->|[->|[->|[->|[->|[->|[->|[->|[->| ->]]]]]]]]] by lia; done.
Qed.

Lemma parse_digits_go max x s :
  (x ≤ max)%N → parse_digits max 0 (pretty_N_go x s) = parse_digits max x s.
Proof.
  revert s. induction (N.lt_wf_0 x) as [x _ IH]; intros s Hmax.
  destruct (decide (x = 0)%N) as [->|Hx]; [done|].
  rewrite pretty_N_go_step by lia.
  pose proof (N.div_mod x 10 ltac:(done)). pose proof (N.mod_lt x 10 ltac:(done)).
  assert (x `div` 10 < x)%N by (apply N.div_lt; lia).
  rewrite IH by lia. simpl.
  rewrite digit_val_char by lia.
  replace (x `div` 10 * 10 + x `mod` 10)%N with x by lia.
  by rewrite (proj2 (N.leb_le _ _)).
Qed.

Lemma pretty_N_nonempty n : FormatUint n ≠ EmptyString.
Proof.
  unfold FormatUint, pretty, pretty_N. case_decide; [done|].
  assert (∀ x s, (0 < x)%N ∨ s ≠ EmptyString → pretty_N_go x s ≠ EmptyString) as Hgo; [|apply Hgo; lia].
  intros x. induction (N.lt_wf_0 x) as [x _ IH]; intros s Hs.
  destruct (decide (x = 0)%N) as [->|Hx]; [naive_solver lia|].
  rewrite pretty_N_go_step by lia. apply IH; [by apply N.div_lt; lia|by right].
Qed.

Lemma ParseUint_bound max s n : ParseUint max s = Ok n → (n ≤ max)%N.
Proof.
  assert (∀ s m, (m ≤ max)%N → parse_digits max m s = Ok n → (n ≤ max)%N) as Hgo.
  { clear s. intros s. induction s as [|c s IH]; intros m Hm; cbn [parse_digits]; [by intros [= ->]|].
    destruct (digit_val c) as [d|]; [|done]. destruct (N.leb_spec (m * 10 + d) max); [by apply IH|done]. }
  destruct s; [done|]. apply Hgo. lia.
Qed.

(** Printing and parsing an unsigned number of the width round-trips. *)
Lemma ParseUint_FormatUint max n : (n ≤ max)%N → ParseUint max (FormatUint n) = Ok n.
Proof.
  intros Hn. unfold ParseUint. destruct (FormatUint n) as [|c s] eqn:E.
  { by destruct (pretty_N_nonempty n). }
  rewrite <- E. clear E c s. unfold FormatUint, pretty, pretty_N. case_decide as H0.
  { subst. by destruct max. }
  by rewrite parse_digits_go.
Qed.

Lemma pretty_digits n : Forall (λ c, is_Some (digit_val c)) (bytes_of (FormatUint n)).
Proof.
  unfold FormatUint, pretty, pretty_N. case_decide; [repeat constructor; eauto|].
  assert (∀ x s, Forall (λ c, is_Some (digit_val c)) (bytes_of s) →
    Forall (λ c, is_Some (digit_val c)) (bytes_of (pretty_N_go x s))) as Hgo; [|by apply Hgo; constructor].
  intros x. induction (N.lt_wf_0 x) as [x _ IH]; intros s Hs.
  destruct (decide (x = 0)%N) as [->|Hx]; [done|].
  rewrite pretty_N_go_step by lia. apply IH; [by apply N.div_lt; lia|].
  rewrite bytes_of_cons. constructor; [|done].
  rewrite digit_val_char; [eauto|]. by apply N.mod_lt.
Qed.

Lemma FormatUint_no_byte c n : digit_val c = None → c ∉ bytes_of (FormatUint n).
Proof.
  intros Hc Hin. pose proof (pretty_digits n) as HF. rewrite Forall_forall in HF.
  destruct (HF _ Hin). congruence.
Qed.

#[global] Instance FormatUint_inj : Inj (=) (=) FormatUint.
Proof. intros ?? H. unfold FormatUint in H. by apply (inj pretty) in H. Qed.

(** A signed 64-bit number round-trips as well. *)
Lemma ParseInt64_FormatInt z : in_i64 z = true → ParseInt64 (FormatInt z) = Ok z.
Proof.
  unfold in_i64, i64_min, i64_max. intros Hz. unfold FormatInt.
  destruct (decide (0 ≤ z)%Z) as [Hpos|Hneg].
  - assert (pretty z = FormatUint (Z.to_N z)) as ->.
    { destruct z; try done. }
    unfold ParseInt64.
    pose proof (pretty_digits (Z.to_N z)) as HF. pose proof (pretty_N_nonempty (Z.to_N z)) as Hne.
    assert (match FormatUint (Z.to_N z) with
            | String "+" r => (false, r) | String "-" r => (true, r)
            | _ => (false, FormatUint (Z.to_N z)) end%char = (false, FormatUint (Z.to_N z))) as ->.
    { destruct (FormatUint (Z.to_N z)) as [|c s]; [done|].
      rewrite bytes_of_cons in HF. apply Forall_cons in HF as [[d Hd] _].
      destruct c as [[] [] [] [] [] [] [] []]; try done. }
    rewrite ParseUint_FormatUint by (unfold u64_max; lia). simpl.
    rewrite (proj2 (N.leb_gt _ _)) by lia. simpl. f_equal. lia.
  - assert (pretty z = String "-"%char (FormatUint (Z.to_N (- z)))) as ->.
    { destruct z; try done; lia. }
    unfold ParseInt64. rewrite ParseUint_FormatUint by (unfold u64_max; lia). simpl.
    rewrite (proj2 (N.ltb_ge _ _)) by lia. simpl. f_equal. lia.
Qed.

(** ** encoding/binary *)

(** [binary.BigEndian.PutUint64] into a fresh 8-byte buffer. *)
Definition be64 (n : N) : string :=
  of_bytes ((λ i, ascii_of_N (N.shiftr n i `mod` 256)) <$> [56; 48; 40; 32; 24; 16; 8; 0]%N).

(** [binary.BigEndian.Uint64]: the first eight bytes, [None] where Go panics. *)
Definition Uint64 (s : string) : option N :=
  if (8 <=? length (bytes_of s))%nat
  then Some (foldl (λ acc c, (acc * 256 + N_of_ascii c)%N) 0%N (take 8 (bytes_of s)))
  else None.

Lemma be64_length n : length (bytes_of (be64 n)) = 8.
Proof. done. Qed.

Lemma shiftr_byte_step n j k : (j = k + 8)%N →
  (N.shiftr n j * 256 + N.shiftr n k `mod` 256 = N.shiftr n k)%N.
Proof.
  intros ->. rewrite <- (N.shiftr_shiftr n k 8), (N.shiftr_div_pow2 _ 8).
  change (2 ^ 8)%N with 256%N. pose proof (N.div_mod (N.shiftr n k) 256). lia.
Qed.

Lemma Uint64_be64 n : in_u64 n = true → Uint64 (be64 n) = Some n.
Proof.
  unfold in_u64, u64_max. intros Hn%N.leb_le. unfold Uint64, be64. rewrite bytes_of_of.
  cbn [fmap list_fmap length Nat.leb take foldl]. f_equal. rewrite !N_ascii_embedding by (apply N.mod_lt; done).
  assert (N.shiftr n 56 `mod` 256 = N.shiftr n 56)%N as ->.
  { apply N.mod_small. rewrite N.shiftr_div_pow2. apply N.Div0.div_lt_upper_bound.
    change (2 ^ 56 * 256)%N with 18446744073709551616%N. lia. }
  rewrite N.mul_0_l, N.add_0_l, (shiftr_byte_step n 56 48), (shiftr_byte_step n 48 40),
    (shiftr_byte_step n 40 32), (shiftr_byte_step n 32 24), (shiftr_byte_step n 24 16),
    (shiftr_byte_step n 16 8), (shiftr_byte_step n 8 0) by done.
  apply N.shiftr_0_r.
Qed.

(** ** UTF-8, as [encoding/json] writes strings

    A Go string is any byte sequence; [json.Marshal] replaces every byte that
    does not start a well-formed rune by U+FFFD. *)
Definition byte_in (lo hi : N) (c : ascii) : bool :=
  ((lo <=? N_of_ascii c) && (N_of_ascii c <=? hi))%N.
Abbreviation cont_byte := (byte_in 128 191).

Definition utf8_2 (c1 c2 : ascii) : bool := byte_in 194 223 c1 && cont_byte c2.
Definition utf8_3 (c1 c2 c3 : ascii) : bool :=
  ((byte_in 224 224 c1 && byte_in 160 191 c2)
   || (byte_in 225 236 c1 && cont_byte c2)
   || (byte_in 237 237 c1 && byte_in 128 159 c2)
   || (byte_in 238 239 c1 && cont_byte c2)) && cont_byte c3.
Definition utf8_4 (c1 c2 c3 c4 : ascii) : bool :=
  ((byte_in 240 240 c1 && byte_in 144 191 c2)
   || (byte_in 241 243 c1 && cont_byte c2)
   || (byte_in 244 244 c1 && byte_in 128 143 c2)) && cont_byte c3 && cont_byte c4.

(** U+FFFD, the replacement rune. *)
Definition rune_error : list ascii :=
  [ascii_of_N 239; ascii_of_N 191; ascii_of_N 189].

Fixpoint utf8_coerce (l : list ascii) : list ascii :=
  match l with
  | [] => []
  | c1 :: t1 =>
      if byte_in 0 127 c1 then c1 :: utf8_coerce t1 else
      match t1 with
      | c2 :: t2 =>
          if utf8_2 c1 c2 then c1 :: c2 :: utf8_coerce t2 else
          match t2 with
          | c3 :: t3 =>
              if utf8_3 c1 c2 c3 then c1 :: c2 :: c3 :: utf8_coerce t3 else
              match t3 with
              | c4 :: t4 =>
                  if utf8_4 c1 c2 c3 c4 then c1 :: c2 :: c3 :: c4 :: utf8_coerce t4
                  else rune_error ++ utf8_coerce t1
              | [] => rune_error ++ utf8_coerce t1
              end
          | [] => rune_error ++ utf8_coerce t1
          end
      | [] => rune_error ++ utf8_coerce t1
      end
  end.

Definition json_coerce (s : string) : string := of_bytes (utf8_coerce (bytes_of s)).

(** The strings [json.Marshal] keeps as they are: the well-formed UTF-8 ones. *)
Definition utf8_ok (s : string) : bool := bool_decide (json_coerce s = s).

Lemma utf8_ok_coerce s : utf8_ok s = true → json_coerce s = s.
Proof. unfold utf8_ok. by intros ?%bool_decide_eq_true. Qed.

Lemma utf8_coerce_ascii l :
  forallb (byte_in 0 127) l = true → utf8_coerce l = l.
Proof.
  induction l as [|c l IH]; [done|]. simpl. intros [Hc Hl]%andb_prop.
  rewrite Hc. by rewrite IH.
Qed.

(** Decimal numbers are ASCII. *)
Lemma FormatUint_utf8 n : utf8_ok (FormatUint n) = true.
Proof.
  unfold utf8_ok, json_coerce. apply bool_decide_eq_true.
  rewrite utf8_coerce_ascii; [apply of_bytes_of|].
  apply forallb_forall. intros c Hc. pose proof (pretty_digits n) as HF.
  rewrite Forall_forall in HF. apply list_elem_of_In in Hc. destruct (HF _ Hc) as [d Hd].
  by destruct c as [[] [] [] [] [] [] [] []].
Qed.

(** ** base64.StdEncoding, as [encoding/json] writes [[]byte] *)
Definition b64_alphabet : list ascii :=
  bytes_of "ABCDEFGHIJKLMNOPQRSTUVWXYZabcdefghijklmnopqrstuvwxyz0123456789+/".
Definition b64_char (n : N) : ascii := default "A"%char (b64_alphabet !! N.to_nat n).

Fixpoint index_of (c : ascii) (l : list ascii) : option N :=
  match l with
  | [] => None
  | x :: l => if bool_decide (x = c) then Some 0%N else N.succ <$> index_of c l
  end.
Definition b64_val (c : ascii) : option N := index_of c b64_alphabet.

Abbreviation bN := N_of_ascii.
Abbreviation Nb := ascii_of_N.

Fixpoint b64_encode (l : list ascii) : list ascii :=
  match l with
  | [] => []
  | [a] => [b64_char (bN a `div` 4); b64_char (bN a `mod` 4 * 16); "="; "="]%char%N
  | [a; b] =>
      [b64_char (bN a `div` 4); b64_char (bN a `mod` 4 * 16 + bN b `div` 16);
       b64_char (bN b `mod` 16 * 4); "="]%char%N
  | a :: b :: c :: l =>
      b64_char (bN a `div` 4)%N :: b64_char (bN a `mod` 4 * 16 + bN b `div` 16)%N
      :: b64_char (bN b `mod` 16 * 4 + bN c `div` 64)%N :: b64_char (bN c `mod` 64)%N
      :: b64_encode l
  end.

Definition b64_is_pad (c : ascii) : bool := bool_decide (c = "="%char).

(** The decoder after line breaks have been dropped: quanta of four, padding
    only in the last one; the unused low bits of a padded quantum are ignored
    (the encoding is not strict). *)
Fixpoint b64_decode_go (l : list ascii) : option (list ascii) :=
  match l with
  | [] => Some []
  | c1 :: c2 :: c3 :: c4 :: l =>
      v1 ← b64_val c1; v2 ← b64_val c2;
      if b64_is_pad c3 && b64_is_pad c4 then
        guard (l = []);; Some [Nb (v1 * 4 + v2 `div` 16)]
      else
        v3 ← b64_val c3;
        if b64_is_pad c4 then
          guard (l = []);; Some [Nb (v1 * 4 + v2 `div` 16); Nb (v2 `mod` 16 * 16 + v3 `div` 4)]
        else
          v4 ← b64_val c4;
          r ← b64_decode_go l;
          Some (Nb (v1 * 4 + v2 `div` 16) :: Nb (v2 `mod` 16 * 16 + v3 `div` 4)
                :: Nb (v3 `mod` 4 * 64 + v4) :: r)
  | _ => None
  end%N.

Definition is_newline (c : ascii) : bool := bool_decide (N_of_ascii c = 10 ∨ N_of_ascii c = 13)%N.

Definition b64_decode (l : list ascii) : option (list ascii) :=
  b64_decode_go (filter (λ c, is_newline c = false) l).

Definition nth_b64_ok (n : N) : bool :=
  bool_decide (b64_val (b64_char n) = Some n) && negb (b64_is_pad (b64_char n))
  && negb (is_newline (b64_char n)) && byte_in 0 127 (b64_char n).

Lemma b64_table : forallb nth_b64_ok (N.of_nat <$> seq 0 64) = true.
Proof. vm_compute. reflexivity. Qed.

Lemma b64_char_ok n : (n < 64)%N →
  b64_val (b64_char n) = Some n ∧ b64_is_pad (b64_char n) = false ∧
  is_newline (b64_char n) = false ∧ byte_in 0 127 (b64_char n) = true.
Proof.
  intros Hn. pose proof b64_table as HT. rewrite forallb_forall in HT.
  specialize (HT n). unfold nth_b64_ok in HT.
  rewrite !andb_true_iff, !negb_true_iff, bool_decide_eq_true in HT.
  assert (In n (N.of_nat <$> seq 0 64)) as Hin; [|naive_solver].
  apply list_elem_of_In, list_elem_of_fmap. exists (N.to_nat n).
  split; [lia|]. apply elem_of_seq. lia.
Qed.

Lemma bN_bound c : (bN c < 256)%N.
Proof. by destruct c as [[] [] [] [] [] [] [] []]. Qed.

Lemma Nb_bN c : Nb (bN c) = c.
Proof. apply ascii_N_embedding. Qed.

(** The bit arithmetic of one quantum. *)
Lemma quantum_bounds (a b c : N) : (a < 256 → b < 256 → c < 256 →
  a `div` 4 < 64 ∧ a `mod` 4 * 16 < 64 ∧ a `mod` 4 * 16 + b `div` 16 < 64 ∧
  b `mod` 16 * 4 < 64 ∧ b `mod` 16 * 4 + c `div` 64 < 64 ∧ c `mod` 64 < 64)%N.
Proof. zify. Z.to_euclidean_division_equations. lia. Qed.

Lemma quantum_1 (a b : N) : (a < 256 → b < 256 →
  a `div` 4 * 4 + (a `mod` 4 * 16 + b `div` 16) `div` 16 = a)%N.
Proof. zify. Z.to_euclidean_division_equations. lia. Qed.

Lemma quantum_1' (a : N) : (a < 256 → a `div` 4 * 4 + (a `mod` 4 * 16) `div` 16 = a)%N.
Proof. zify. Z.to_euclidean_division_equations. lia. Qed.

Lemma quantum_2 (a b c : N) : (a < 256 → b < 256 → c < 256 →
  (a `mod` 4 * 16 + b `div` 16) `mod` 16 * 16 + (b `mod` 16 * 4 + c `div` 64) `div` 4 = b)%N.
Proof. zify. Z.to_euclidean_division_equations. lia. Qed.

Lemma quantum_2' (a b : N) : (a < 256 → b < 256 →
  (a `mod` 4 * 16 + b `div` 16) `mod` 16 * 16 + (b `mod` 16 * 4) `div` 4 = b)%N.
Proof. zify. Z.to_euclidean_division_equations. lia. Qed.

Lemma quantum_3 (b c : N) : (b < 256 → c < 256 →
  (b `mod` 16 * 4 + c `div` 64) `mod` 4 * 64 + c `mod` 64 = c)%N.
Proof. zify. Z.to_euclidean_division_equations. lia. Qed.

(** Induction three bytes at a time. *)
Lemma list_ind3 {A} (P : list A → Prop) :
  P [] → (∀ a, P [a]) → (∀ a b, P [a; b]) → (∀ a b c l, P l → P (a :: b :: c :: l)) → ∀ l, P l.
Proof. intros H0 H1 H2 H3. fix IH 1. intros [|a [|b [|c l]]]; [done|apply H1|apply H2|apply H3, IH]. Qed.

Ltac b64_char_facts n :=
  let H1 := fresh in let H2 := fresh in let H3 := fresh in
  destruct (b64_char_ok n) as (H1 & H2 & H3 & _); [lia|];
  rewrite ?H1, ?H2, ?H3.

Lemma b64_no_newline l : filter (λ c, is_newline c = false) (b64_encode l) = b64_encode l.
Proof.
  induction l as [|a|a b|a b c l IH] using list_ind3; [done|..].
  all: try (pose proof (bN_bound a)); try (pose proof (bN_bound b)); try (pose proof (bN_bound c)).
  - destruct (quantum_bounds (bN a) 0 0) as (?&?&?&?&?&?); [done..|].
    simpl. rewrite !filter_cons_True; [done|done|done|..]; by apply b64_char_ok.
  - destruct (quantum_bounds (bN a) (bN b) 0) as (?&?&?&?&?&?); [done..|].
    simpl. rewrite !filter_cons_True; [done|done|..]; by apply b64_char_ok.
  - destruct (quantum_bounds (bN a) (bN b) (bN c)) as (?&?&?&?&?&?); [done..|].
    simpl. rewrite !filter_cons_True, IH; [done|..]; by apply b64_char_ok.
Qed.

Lemma b64_roundtrip l : b64_decode (b64_encode l) = Some l.
Proof.
  unfold b64_decode. rewrite b64_no_newline.
  induction l as [|a|a b|a b c l IH] using list_ind3; [done|..].
  all: try (pose proof (bN_bound a)); try (pose proof (bN_bound b)); try (pose proof (bN_bound c)).
  - destruct (quantum_bounds (bN a) 0 0) as (?&?&?&?&?&?); [done..|]. cbn [b64_encode b64_decode_go].
    b64_char_facts (bN a `div` 4)%N. b64_char_facts (bN a `mod` 4 * 16)%N.
    cbn -[N.div N.modulo]. by rewrite quantum_1', Nb_bN by done.
  - destruct (quantum_bounds (bN a) (bN b) 0) as (?&?&?&?&?&?); [done..|]. cbn [b64_encode b64_decode_go].
    b64_char_facts (bN a `div` 4)%N. b64_char_facts (bN a `mod` 4 * 16 + bN b `div` 16)%N.
    b64_char_facts (bN b `mod` 16 * 4)%N.
    cbn -[N.div N.modulo]. by rewrite quantum_1, quantum_2', !Nb_bN by done.
  - destruct (quantum_bounds (bN a) (bN b) (bN c)) as (?&?&?&?&?&?); [done..|]. cbn [b64_encode b64_decode_go].
    b64_char_facts (bN a `div` 4)%N. b64_char_facts (bN a `mod` 4 * 16 + bN b `div` 16)%N.
    b64_char_facts (bN b `mod` 16 * 4 + bN c `div` 64)%N. b64_char_facts (bN c `mod` 64)%N.
    cbn -[N.div N.modulo b64_decode_go]. rewrite IH.
    cbn -[N.div N.modulo b64_decode_go]. by rewrite quantum_1, quantum_2, quantum_3, !Nb_bN by done.
Qed.

Lemma b64_ascii l : forallb (byte_in 0 127) (b64_encode l) = true.
Proof.
  induction l as [|a|a b|a b c l IH] using list_ind3; [done|..].
  all: try (pose proof (bN_bound a)); try (pose proof (bN_bound b)); try (pose proof (bN_bound c)).
  - destruct (quantum_bounds (bN a) 0 0) as (?&?&?&?&?&?); [done..|].
    cbn [b64_encode forallb]. by rewrite !(λ n H, proj2 (proj2 (proj2 (b64_char_ok n H)))) by done.
  - destruct (quantum_bounds (bN a) (bN b) 0) as (?&?&?&?&?&?); [done..|].
    cbn [b64_encode forallb]. by rewrite !(λ n H, proj2 (proj2 (proj2 (b64_char_ok n H)))) by done.
  - destruct (quantum_bounds (bN a) (bN b) (bN c)) as (?&?&?&?&?&?); [done..|].
    cbn [b64_encode forallb]. by rewrite !(λ n H, proj2 (proj2 (proj2 (b64_char_ok n H)))) by done.
Qed.

(** [strings.Join]. *)
Fixpoint strings_Join (l : list string) (sep : string) : string :=
  match l with
  | [] => EmptyString
  | [s] => s
  | s :: l => s +:+ sep +:+ strings_Join l sep
  end.
