(* ===== verification/GoJson.v ===== *)
(** * encoding/json, at the level of syntax trees

    The store keeps its records as JSON text. A byte slice is [Text j] when it
    is one JSON document, identified with its syntax tree, and [Raw s] when it
    is not (a corrupted row, or the 8-byte schema version). Numbers keep their
    literal, so [1.0] and [1e3] are told apart from [1] the way [strconv] tells
    them apart. Rendering a tree is modelled ([json_text]); lexing is not, a
    document is identified with its tree. What [json.Marshal] and
    [json.Unmarshal] do between Go values and trees is modelled, except that a
    second member of the same name that holds an array starts from an empty
    slice here, where Go reuses the elements of the first. *)

From Stdlib Require Import Ascii.
From stdpp Require Import sorting base gmap strings pretty option numbers list.
From S2P Require Import Prelude GoStd.

Inductive json : Type :=
| JNull
| JBool (b : bool)
| JNum (literal : string)
| JStr (s : string)
| JArr (l : list json)
| JObj (l : list (string * json)).

Inductive bytes : Type :=
| Raw (s : string)
| Text (j : json).

(** [len(b) == 0]; a JSON text is never empty. *)
Definition bytes_empty (b : bytes) : bool :=
  match b with Raw EmptyString => true | _ => false end.

(** ** Rendering

    [json.Marshal] ([ind = None]) and an encoder with two-space indentation
    ([ind = Some depth]). Strings escape quotes, backslashes, control characters,
    the HTML characters and U+2028/U+2029. *)
Definition hex_digit (n : N) : ascii :=
  ascii_of_N (if (n <? 10)%N then 48 + n else 87 + n).

Definition u00 (c : ascii) : list ascii :=
  ["\"; "u"; "0"; "0"; hex_digit (N.shiftr (N_of_ascii c) 4); hex_digit (N.land (N_of_ascii c) 15)]%char.

Definition quote_byte (c : ascii) : list ascii :=
  let n := N_of_ascii c in
  if (n =? 34)%N || (n =? 92)%N then ["\"%char; c]
  else if (n =? 8)%N then ["\"; "b"]%char
  else if (n =? 9)%N then ["\"; "t"]%char
  else if (n =? 10)%N then ["\"; "n"]%char
  else if (n =? 12)%N then ["\"; "f"]%char
  else if (n =? 13)%N then ["\"; "r"]%char
  else if (n <? 32)%N || (n =? 38)%N || (n =? 60)%N || (n =? 62)%N then u00 c
  else [c].

Fixpoint quote_bytes (l : list ascii) : list ascii :=
  match l with
  | [] => []
  | c1 :: t1 =>
      match t1 with
      | c2 :: c3 :: t3 =>
          if (N_of_ascii c1 =? 226)%N && (N_of_ascii c2 =? 128)%N
             && ((N_of_ascii c3 =? 168)%N || (N_of_ascii c3 =? 169)%N)
          then ["\"; "u"; "2"; "0"; "2"]%char ++ hex_digit (N_of_ascii c3 - 160) :: quote_bytes t3
          else quote_byte c1 ++ quote_bytes t1
      | _ => quote_byte c1 ++ quote_bytes t1
      end
  end.

Definition json_quote (s : string) : string :=
  of_bytes (ascii_of_N 34 :: quote_bytes (bytes_of s) ++ [ascii_of_N 34]).

Definition new_line (ind : option nat) : string :=
  match ind with
  | None => EmptyString
  | Some d => of_bytes (ascii_of_N 10 :: repeat (ascii_of_N 32) (2 * d))
  end.

Fixpoint json_text (ind : option nat) (j : json) : string :=
  match j with
  | JNull => "null"
  | JBool b => if b then "true" else "false"
  | JNum lit => lit
  | JStr s => json_quote s
  | JArr [] => "[]"
  | JArr l =>
      "[" +:+ new_line (S <$> ind)
      +:+ strings_Join (List.map (json_text (S <$> ind)) l) ("," +:+ new_line (S <$> ind))
      +:+ new_line ind +:+ "]"
  | JObj [] => "{}"
  | JObj l =>
      "{" +:+ new_line (S <$> ind)
      +:+ strings_Join
            (List.map (λ kv, match kv with
                             | (k, v) => json_quote k +:+ match ind with None => ":" | Some _ => ": " end
                                         +:+ json_text (S <$> ind) v
                             end) l)
            ("," +:+ new_line (S <$> ind))
      +:+ new_line ind +:+ "}"
  end.

(** The bytes of a stored value: rows are written by [json.Marshal]. *)
Definition raw_bytes (b : bytes) : string :=
  match b with Raw s => s | Text j => json_text None j end.

Definition byte_len (s : string) : N := N.of_nat (length (bytes_of s)).

Definition ErrJSON : error := Sentinel "encoding/json error".

(** ** Decoding into an existing value

    [json.Unmarshal(data, &v)] updates [v]: object members overwrite the fields
    they name, absent members leave their fields alone and [null] leaves
    everything but pointers, maps and slices alone. A decoder therefore maps a
    tree and the current value to the new value; [None] is a decoding error. *)
Abbreviation decoder A := (json → A → option A).

Definition dec_string : decoder string := λ j s,
  match j with JNull => Some s | JStr t => Some t | _ => None end.

Definition dec_bool : decoder bool := λ j b,
  match j with JNull => Some b | JBool c => Some c | _ => None end.

Definition dec_uint (max : N) : decoder N := λ j n,
  match j with
  | JNull => Some n
  | JNum lit => match ParseUint max lit with Ok v => Some v | _ => None end
  | _ => None
  end.

Definition dec_int64 : decoder Z := λ j z,
  match j with
  | JNull => Some z
  | JNum lit => match ParseInt64 lit with Ok v => Some v | _ => None end
  | _ => None
  end.

(** Slices: [None] is the nil slice. *)
Definition dec_slice {A} (zero : A) (dec : decoder A) : decoder (option (list A)) := λ j _,
  match j with
  | JNull => Some None
  | JArr l => Some <$> mapM (λ j, dec j zero) l
  | _ => None
  end.

(** [[]byte]: base64 text, or an array of numbers. *)
Definition dec_bytes : decoder (option string) := λ j _,
  match j with
  | JNull => Some None
  | JStr s => (λ l, Some (of_bytes l)) <$> b64_decode (bytes_of s)
  | JArr l => (λ ns, Some (of_bytes (ascii_of_N <$> ns))) <$> mapM (λ j, dec_uint 255 j 0%N) l
  | _ => None
  end.

(** [map[string]string]: [None] is the nil map; members are added to what is there. *)
Definition dec_map : decoder (option (gmap string string)) := λ j old,
  match j with
  | JNull => Some None
  | JObj kvs =>
      vs ← mapM (λ kv, (λ v, (kv.1, v)) <$> dec_string kv.2 EmptyString) kvs;
      Some (Some (foldl (λ m kv, <[kv.1 := kv.2]> m) (default ∅ old) vs))
  | _ => None
  end.

(** Pointers: [null] is nil, anything else decodes into the pointed-to value,
    allocated when it was nil. *)
Definition dec_ptr {A} (zero : A) (dec : decoder A) : decoder (option A) := λ j old,
  match j with
  | JNull => Some None
  | _ => Some <$> dec j (default zero old)
  end.

(** ** Structs

    A member name selects the field with exactly that name, else the first one
    equal under case folding; beside the ASCII letters only U+017F and U+212A
    fold into ASCII (to S and K). *)
Definition upper_byte (c : ascii) : ascii :=
  if byte_in 97 122 c then ascii_of_N (N_of_ascii c - 32) else c.

Fixpoint fold_name (l : list ascii) : list ascii :=
  match l with
  | [] => []
  | c1 :: t1 =>
      match t1 with
      | c2 :: t2 =>
          if bool_decide (N_of_ascii c1 = 197 ∧ N_of_ascii c2 = 191)%N then "S"%char :: fold_name t2
          else match t2 with
               | c3 :: t3 =>
                   if bool_decide (N_of_ascii c1 = 226 ∧ N_of_ascii c2 = 132 ∧ N_of_ascii c3 = 170)%N
                   then "K"%char :: fold_name t3
                   else upper_byte c1 :: fold_name t1
               | [] => upper_byte c1 :: fold_name t1
               end
      | [] => [upper_byte c1]
      end
  end.

Definition name_folds_to (a b : string) : bool :=
  bool_decide (fold_name (bytes_of a) = fold_name (bytes_of b)).

Abbreviation fields A := (list (string * decoder A)).

Fixpoint find_by {A} (eqb : string → string → bool) (k : string) (fs : fields A) : option (decoder A) :=
  match fs with
  | [] => None
  | (n, d) :: fs => if eqb n k then Some d else find_by eqb k fs
  end.

Definition find_field {A} (k : string) (fs : fields A) : option (decoder A) :=
  match find_by String.eqb k fs with
  | Some d => Some d
  | None => find_by name_folds_to k fs
  end.

Fixpoint dec_members {A} (strict : bool) (fs : fields A) (kvs : list (string * json)) (a : A) : option A :=
  match kvs with
  | [] => Some a
  | (k, v) :: kvs =>
      match find_field k fs with
      | Some d => a' ← d v a; dec_members strict fs kvs a'
      | None => if strict then None else dec_members strict fs kvs a
      end
  end.

(** [strict] is [Decoder.DisallowUnknownFields]. *)
Definition dec_struct {A} (strict : bool) (fs : fields A) : decoder A := λ j a,
  match j with
  | JNull => Some a
  | JObj kvs => dec_members strict fs kvs a
  | _ => None
  end.

(** A field of a struct: its getter, setter and decoder. *)
Definition field {A B} (get : A → B) (set : B → A → A) (dec : decoder B) : decoder A := λ j a,
  b ← dec j (get a); Some (set b a).

(** ** Encoding *)
Definition enc_string (s : string) : json := JStr (json_coerce s).
Definition enc_uint (n : N) : json := JNum (FormatUint n).
Definition enc_int (z : Z) : json := JNum (FormatInt z).
Definition enc_bool (b : bool) : json := JBool b.
Definition enc_slice {A} (enc : A → json) (l : option (list A)) : json :=
  match l with None => JNull | Some l => JArr (enc <$> l) end.
Definition enc_bytes (b : option string) : json :=
  match b with None => JNull | Some s => JStr (of_bytes (b64_encode (bytes_of s))) end.

(** Map members are written in the byte order of their keys. *)
Definition key_le {A} (p q : string * A) : Prop := String.le p.1 q.1.
#[global] Instance key_le_dec {A} : RelDecision (@key_le A).
Proof. intros p q. unfold key_le. apply _. Defined.

Definition sorted_members {A} (m : gmap string A) : list (string * A) :=
  merge_sort key_le (map_to_list m).

Definition enc_map (m : option (gmap string string)) : json :=
  match m with
  | None => JNull
  | Some m => JObj ((λ kv, (json_coerce kv.1, enc_string kv.2)) <$> sorted_members m)
  end.

Definition enc_ptr {A} (enc : A → json) (o : option A) : json :=
  match o with None => JNull | Some a => enc a end.

(** ** Round trips of the primitive codecs *)
Lemma dec_enc_string s old : utf8_ok s = true → dec_string (enc_string s) old = Some s.
Proof. intros H. simpl. by rewrite (utf8_ok_coerce _ H). Qed.

Lemma dec_enc_uint max n old : (n <=? max)%N = true → dec_uint max (enc_uint n) old = Some n.
Proof. intros H%N.leb_le. simpl. by rewrite ParseUint_FormatUint. Qed.

Lemma dec_enc_int z old : in_i64 z = true → dec_int64 (enc_int z) old = Some z.
Proof. intros H. simpl. by rewrite ParseInt64_FormatInt. Qed.

Lemma dec_enc_bool b old : dec_bool (enc_bool b) old = Some b.
Proof. done. Qed.

Lemma dec_enc_bytes b old : dec_bytes (enc_bytes b) old = Some b.
Proof. destruct b as [s|]; [|done]. simpl. rewrite bytes_of_of, b64_roundtrip. simpl. by rewrite of_bytes_of. Qed.

Lemma mapM_dec_enc {A} (P : A → Prop) (enc : A → json) (dec : json → option A) l :
  (∀ a, P a → dec (enc a) = Some a) → Forall P l → mapM dec (enc <$> l) = Some l.
Proof.
  intros Hd HF. apply mapM_Some_2, Forall2_fmap_l, Forall_Forall2_diag.
  eapply Forall_impl; [exact HF|]. exact Hd.
Qed.

Lemma dec_enc_slice {A} (P : A → Prop) zero enc (dec : decoder A) l old :
  (∀ a, P a → dec (enc a) zero = Some a) → (∀ x, l = Some x → Forall P x) →
  dec_slice zero dec (enc_slice enc l) old = Some l.
Proof.
  intros Hd Hl. destruct l as [l|]; [|done]. simpl.
  by rewrite (mapM_dec_enc P enc (λ j, dec j zero)) by naive_solver.
Qed.

Lemma sorted_members_perm {A} (m : gmap string A) : sorted_members m ≡ₚ map_to_list m.
Proof. apply merge_sort_Permutation. Qed.

Lemma sorted_members_elem {A} (m : gmap string A) k a :
  (k, a) ∈ sorted_members m ↔ m !! k = Some a.
Proof. rewrite sorted_members_perm. apply elem_of_map_to_list. Qed.

Lemma foldl_insert_list_to_map {A} (l : list (string * A)) (m : gmap string A) :
  foldl (λ m kv, <[kv.1 := kv.2]> m) m l = list_to_map (reverse l) ∪ m.
Proof.
  revert m. induction l as [|[k a] l IH]; intros m; cbn [foldl].
  { rewrite reverse_nil. simpl. by rewrite (left_id_L ∅ (∪)). }
  rewrite IH, reverse_cons, list_to_map_app. simpl.
  rewrite <- map_union_assoc, <- insert_union_l. by rewrite map_empty_union.
Qed.

Lemma foldl_insert_sorted {A} (m : gmap string A) :
  foldl (λ m kv, <[kv.1 := kv.2]> m) ∅ (sorted_members m) = m.
Proof.
  rewrite foldl_insert_list_to_map, map_union_empty.
  rewrite <- (list_to_map_to_list m) at 2. apply list_to_map_proper.
  - rewrite reverse_Permutation, sorted_members_perm. apply NoDup_fst_map_to_list.
  - by rewrite reverse_Permutation, sorted_members_perm.
Qed.

(** The maps JSON keeps: well-formed UTF-8 keys and values. *)
Definition map_utf8 (m : gmap string string) : Prop :=
  map_Forall (λ k v, utf8_ok k = true ∧ utf8_ok v = true) m.
#[global] Instance map_utf8_dec m : Decision (map_utf8 m).
Proof. unfold map_utf8. apply _. Defined.

Lemma dec_enc_map m old : (∀ x, m = Some x → map_utf8 x) → default ∅ old = ∅ →
  dec_map (enc_map m) old = Some m.
Proof.
  intros Hm Hold. destruct m as [m|]; [|done]. simpl. specialize (Hm m eq_refl).
  assert (∀ l, Forall (λ kv, utf8_ok kv.1 = true ∧ utf8_ok kv.2 = true) l →
    mapM (λ kv : string * json, (λ v, (kv.1, v)) <$> dec_string kv.2 EmptyString)
      ((λ kv, (json_coerce kv.1, enc_string kv.2)) <$> l) = Some l) as HM.
  { intros l HF. apply mapM_Some_2, Forall2_fmap_l, Forall_Forall2_diag.
    eapply Forall_impl; [exact HF|]. intros [k v] [Hk Hv]; simpl in *.
    by rewrite (utf8_ok_coerce _ Hk), (utf8_ok_coerce _ Hv). }
  rewrite HM; simpl.
  - by rewrite Hold, foldl_insert_sorted.
  - apply Forall_forall. intros [k v] Hkv. apply sorted_members_elem in Hkv. by apply Hm.
Qed.
