(* ===== verification/Bolt.v ===== *)
(** * The bbolt database, as an interface

    bbolt is a third-party package: its operations are parameters ([BoltOps])
    and what its documentation promises is a class of laws ([BoltLaws]) stated
    over an abstract view of a transaction, a map from bucket names to buckets.
    The store is verified against the laws; [MemBolt] is an in-memory
    implementation that satisfies them, so they are not vacuous and every
    definition over them can be run. *)

From Stdlib Require Import Ascii.
From stdpp Require Import sorting base gmap strings pretty option numbers list.
From S2P Require Import Prelude GoStd GoJson.

Abbreviation bucket := (gmap string bytes).
Abbreviation buckets := (gmap string bucket).

(** A transaction and the database state it started from are the same type: a
    transaction is a private copy until it commits. *)
Class BoltOps (Tx : Type) := {
  tx_bucket : Tx → string → bool;                       (* tx.Bucket(name) != nil *)
  tx_get : Tx → string → string → option bytes;         (* Bucket.Get, nil = None *)
  tx_put : Tx → string → string → bytes → result Tx;    (* Bucket.Put *)
  tx_delete : Tx → string → string → result Tx;         (* Bucket.Delete *)
  tx_foreach : Tx → string → list (string * bytes);     (* the pairs ForEach visits, in order *)
  tx_create : Tx → string → result Tx;                  (* tx.CreateBucket *)
  tx_create_if_absent : Tx → string → result Tx;        (* tx.CreateBucketIfNotExists *)
  tx_delete_bucket : Tx → string → result Tx;           (* tx.DeleteBucket *)
  tx_commit : Tx → option error;                        (* the error of tx.Commit *)
  value_fits : bytes → bool;                            (* within MaxValueSize *)
}.

(** bbolt's [MaxKeySize]; a blank key is refused too. *)
Definition key_fits (k : string) : bool :=
  negb (bool_decide (k = EmptyString)) && (length (bytes_of k) <=? 32768)%nat.

(** Key order is strict: keys are unique. *)
Definition key_lt {A} (p q : string * A) : Prop := String.le p.1 q.1 ∧ p.1 ≠ q.1.
Definition keys_sorted {A} (l : list (string * A)) : Prop := StronglySorted key_lt l.

Class BoltLaws (Tx : Type) `{BoltOps Tx} := {
  view : Tx → buckets;
  law_bucket t n : tx_bucket t n = bool_decide (is_Some (view t !! n));
  law_get t n k : tx_get t n k = view t !! n ≫= lookup k;
  law_foreach t n b : view t !! n = Some b → tx_foreach t n ≡ₚ map_to_list b;
  law_foreach_sorted t n : keys_sorted (tx_foreach t n);
  law_put t n b k v : view t !! n = Some b → key_fits k = true → value_fits v = true →
    ∃ t', tx_put t n k v = Ok t' ∧ view t' = <[n := <[k := v]> b]> (view t);
  law_put_inv t n b k v t' : view t !! n = Some b → tx_put t n k v = Ok t' →
    key_fits k = true ∧ view t' = <[n := <[k := v]> b]> (view t);
  law_put_panic t n k v : tx_put t n k v ≠ Panic;
  law_delete t n b k : view t !! n = Some b →
    ∃ t', tx_delete t n k = Ok t' ∧ view t' = <[n := delete k b]> (view t);
  law_create t n : view t !! n = None → n ≠ EmptyString →
    ∃ t', tx_create t n = Ok t' ∧ view t' = <[n := ∅]> (view t);
  law_create_if_absent t n : n ≠ EmptyString →
    ∃ t', tx_create_if_absent t n = Ok t' ∧
          view t' = match view t !! n with Some _ => view t | None => <[n := ∅]> (view t) end;
  law_delete_bucket t n : is_Some (view t !! n) →
    ∃ t', tx_delete_bucket t n = Ok t' ∧ view t' = delete n (view t);
}.

Section ops.
Context {Tx : Type} `{BoltOps Tx}.

(** [tx.Bucket(name).Get(key)] and friends: a method call on the nil bucket of
    a missing name dereferences nil. *)
Definition bucket_get (t : Tx) (n k : string) : result (option bytes) :=
  if tx_bucket t n then Ok (tx_get t n k) else Panic.

Definition bucket_put (t : Tx) (n k : string) (v : bytes) : result Tx :=
  if tx_bucket t n then tx_put t n k v else Panic.

Definition bucket_delete (t : Tx) (n k : string) : result Tx :=
  if tx_bucket t n then tx_delete t n k else Panic.

Definition bucket_pairs (t : Tx) (n : string) : result (list (string * bytes)) :=
  if tx_bucket t n then Ok (tx_foreach t n) else Panic.

(** [db.Update(f)]: commit when [f] returns nil, else (an error, a panic, a
    failed commit) roll the whole transaction back. *)
Definition db_Update (db : Tx) (f : Tx → result Tx) : Tx * result unit :=
  match f db with
  | Ok t' => match tx_commit t' with None => (t', Ok tt) | Some e => (db, Err e) end
  | Err e => (db, Err e)
  | Panic => (db, Panic)
  end.
End ops.

(** A transaction that does not succeed leaves the database as it was. *)
Lemma db_Update_atomic {Tx} `{BoltOps Tx} (db db' : Tx) f r :
  db_Update db f = (db', r) → r ≠ Ok tt → db' = db.
Proof. unfold db_Update. repeat case_match; naive_solver. Qed.

Lemma db_Update_ok {Tx} `{BoltOps Tx} (db db' : Tx) f :
  db_Update db f = (db', Ok tt) ↔ f db = Ok db' ∧ tx_commit db' = None.
Proof. unfold db_Update. repeat case_match; naive_solver. Qed.

Lemma db_Update_panic {Tx} `{BoltOps Tx} (db : Tx) f : f db ≠ Panic → (db_Update db f).2 ≠ Panic.
Proof. unfold db_Update. repeat case_match; naive_solver. Qed.

(** ** Enumerations in key order are unique *)
Lemma sorted_members_sorted {A} (m : gmap string A) : keys_sorted (sorted_members m).
Proof.
  unfold keys_sorted, sorted_members.
  assert (StronglySorted key_le (merge_sort key_le (map_to_list m))) as HS.
  { apply StronglySorted_merge_sort.
    - intros p q r. unfold key_le. apply (transitivity (R := String.le)).
    - intros p q. unfold key_le. apply (total String.le). }
  assert (NoDup (merge_sort key_le (map_to_list m)).*1) as HN.
  { rewrite merge_sort_Permutation. apply NoDup_fst_map_to_list. }
  induction HS as [|p l HS IH HF]; [constructor|].
  apply NoDup_cons in HN as [HN1 HN2]. constructor; [by apply IH|].
  rewrite Forall_forall in HF |- *. intros q Hq. split; [by apply HF|].
  intros E. apply HN1. rewrite E. by apply list_elem_of_fmap_2.
Qed.

Lemma keys_sorted_unique {A} (l k : list (string * A)) :
  keys_sorted l → keys_sorted k → l ≡ₚ k → l = k.
Proof.
  intros Hl Hk. apply (StronglySorted_unique_strong key_lt); [|done..].
  intros p q _ _ [Hle Hne] [Hle' _]. destruct Hne. by apply (anti_symm String.le).
Qed.

Lemma sorted_members_fmap {A B} (f : A → B) (m : gmap string A) :
  sorted_members (f <$> m) = prod_map id f <$> sorted_members m.
Proof.
  apply keys_sorted_unique.
  - apply sorted_members_sorted.
  - apply StronglySorted_fmap with key_lt; [|apply sorted_members_sorted]. by intros [] [].
  - rewrite sorted_members_perm, map_to_list_fmap, sorted_members_perm. done.
Qed.

(** ** Consequences of the laws, in the form the store uses *)
Section laws.
Context {Tx : Type} `{BoltLaws Tx}.
Implicit Types (t : Tx).

Lemma bucket_get_view t n b k : view t !! n = Some b → bucket_get t n k = Ok (b !! k).
Proof.
  intros Hb. unfold bucket_get. rewrite law_bucket, law_get, Hb.
  by rewrite bool_decide_eq_true_2.
Qed.

Lemma bucket_pairs_view t n b : view t !! n = Some b → bucket_pairs t n = Ok (tx_foreach t n).
Proof. intros Hb. unfold bucket_pairs. rewrite law_bucket, Hb. by rewrite bool_decide_eq_true_2. Qed.

Lemma bucket_put_ok t n b k v : view t !! n = Some b → key_fits k = true → value_fits v = true →
  ∃ t', bucket_put t n k v = Ok t' ∧ view t' = <[n := <[k := v]> b]> (view t).
Proof.
  intros Hb Hk Hv. unfold bucket_put. rewrite law_bucket, Hb.
  rewrite bool_decide_eq_true_2 by done. by apply law_put.
Qed.

Lemma bucket_put_inv t n k v t' : bucket_put t n k v = Ok t' →
  ∃ b, view t !! n = Some b ∧ key_fits k = true ∧ view t' = <[n := <[k := v]> b]> (view t).
Proof.
  unfold bucket_put. rewrite law_bucket. case_bool_decide as Hb; [|done].
  destruct Hb as [b Hb]. intros Hp. exists b. split; [done|]. by apply law_put_inv.
Qed.

Lemma bucket_put_no_panic t n b k v : view t !! n = Some b → bucket_put t n k v ≠ Panic.
Proof.
  intros Hb. unfold bucket_put. rewrite law_bucket, Hb.
  rewrite bool_decide_eq_true_2 by done. apply law_put_panic.
Qed.

Lemma bucket_delete_view t n b k : view t !! n = Some b →
  ∃ t', bucket_delete t n k = Ok t' ∧ view t' = <[n := delete k b]> (view t).
Proof.
  intros Hb. unfold bucket_delete. rewrite law_bucket, Hb.
  rewrite bool_decide_eq_true_2 by done. by apply law_delete.
Qed.

Lemma foreach_sorted_members t n b : view t !! n = Some b → tx_foreach t n = sorted_members b.
Proof.
  intros Hb. apply keys_sorted_unique; [apply law_foreach_sorted|apply sorted_members_sorted|].
  by rewrite (law_foreach t n b Hb), sorted_members_perm.
Qed.

Lemma foreach_elem t n b k v : view t !! n = Some b → (k, v) ∈ tx_foreach t n ↔ b !! k = Some v.
Proof. intros Hb. rewrite (law_foreach t n b Hb). apply elem_of_map_to_list. Qed.

Lemma foreach_NoDup t n b : view t !! n = Some b → NoDup (tx_foreach t n).*1.
Proof. intros Hb. rewrite (law_foreach t n b Hb). apply NoDup_fst_map_to_list. Qed.
End laws.

(** A database that has room: values are within bbolt's limit and commits
    reach the disk. The success theorems need it, the safety theorems do not. *)
Class BoltHealthy (Tx : Type) `{BoltOps Tx} : Prop := {
  healthy_value v : value_fits v = true;
  healthy_commit t : tx_commit t = None;
}.

Lemma db_Update_healthy {Tx} `{BoltHealthy Tx} (db t : Tx) f :
  f db = Ok t → db_Update db f = (t, Ok tt).
Proof. unfold db_Update. intros ->. by rewrite healthy_commit. Qed.

(** ** The in-memory implementation *)
Module MemBolt.
Definition sorted_pairs (b : bucket) : list (string * bytes) := sorted_members b.

Definition on_bucket (m : buckets) (n : string) (f : bucket → bucket) : result buckets :=
  match m !! n with Some b => Ok (<[n := f b]> m) | None => Err (Sentinel "bucket not found") end.

#[global] Instance ops : BoltOps buckets := {|
  tx_bucket m n := bool_decide (is_Some (m !! n));
  tx_get m n k := m !! n ≫= lookup k;
  tx_put m n k v :=
    if key_fits k then on_bucket m n <[k := v]> else Err (Sentinel "invalid key");
  tx_delete m n k := on_bucket m n (delete k);
  tx_foreach m n := sorted_pairs (default ∅ (m !! n));
  tx_create m n :=
    if bool_decide (is_Some (m !! n)) then Err (Sentinel "bucket already exists")
    else Ok (<[n := ∅]> m);
  tx_create_if_absent m n := Ok (match m !! n with Some _ => m | None => <[n := ∅]> m end);
  tx_delete_bucket m n :=
    if bool_decide (is_Some (m !! n)) then Ok (delete n m) else Err (Sentinel "bucket not found");
  tx_commit _ := None;
  value_fits _ := true;
|}.

#[global] Instance laws : BoltLaws buckets.
Proof.
  refine {| view := id |}; simpl; try done.
  - intros t n b Hb. unfold id in Hb. rewrite Hb. apply sorted_members_perm.
  - intros t n. apply sorted_members_sorted.
  - unfold id, on_bucket. intros t n b k v Hb Hk _. rewrite Hk, Hb. eauto.
  - unfold id, on_bucket. intros t n b k v t' Hb. rewrite Hb. case_match; naive_solver.
  - unfold on_bucket. intros t n k v. repeat case_match; done.
  - unfold id, on_bucket. intros t n b k Hb. rewrite Hb. eauto.
  - unfold id. intros t n Hn _. rewrite Hn. simpl. eauto.
  - unfold id. eauto.
  - unfold id. intros t n Hn. rewrite bool_decide_eq_true_2 by done. eauto.
Defined.

#[global] Instance healthy : BoltHealthy buckets.
Proof. by split. Qed.
End MemBolt.
