(* ===== verification/StoreTypes.v ===== *)
(** * The records of the deployment store (internal/store/store.go)

    The records, filters and keys of package [store], and the JSON codec that
    their struct tags give them. [uint64] and [uint32] fields are [N], [int64]
    fields are [Z]; nil slices and maps are [None]. The [_ok] predicates are what
    the Go types guarantee by construction (integer widths) and what JSON keeps
    (well-formed UTF-8); for such records the codec round-trips. *)

From Stdlib Require Import Ascii.
From stdpp Require Import sorting base gmap strings pretty option numbers list.
From S2P Require Import Prelude GoStd GoJson.

(** [ExportFormat]; other values of the Go [int] are unsupported formats. *)
Inductive ExportFormat : Type := FormatYAML | FormatJSON | FormatOther (n : Z).

(** ** DeploymentRecord

    A locally tracked deployment. *)
Record DeploymentRecord : Type := MkDeployment {
  d_Owner : string;
  d_DSeq : N;
  d_State : string;
  d_Version : option string;
  d_SDLHash : string;
  d_SDLPath : string;
  d_Deposit : string;
  d_EscrowBalance : string;
  d_Transferred : string;
  d_CreatedAt : Z;
  d_UpdatedAt : Z;
  d_ClosedAt : Z;
  d_CreatedHeight : Z;
  d_Labels : option (gmap string string);
  d_Notes : string;
  d_Tags : option (list string);
  d_RecordVersion : N;
}.

#[global] Instance DeploymentRecord_eq_dec : EqDecision DeploymentRecord.
Proof. solve_decision. Defined.

Definition zero_deployment : DeploymentRecord :=
  MkDeployment EmptyString 0%N EmptyString None EmptyString EmptyString EmptyString EmptyString EmptyString 0%Z 0%Z 0%Z 0%Z None EmptyString None 0%N.

Definition set_d_Owner (v : string) (r : DeploymentRecord) : DeploymentRecord :=
  let 'MkDeployment _ x1 x2 x3 x4 x5 x6 x7 x8 x9 x10 x11 x12 x13 x14 x15 x16 := r in
  MkDeployment v x1 x2 x3 x4 x5 x6 x7 x8 x9 x10 x11 x12 x13 x14 x15 x16.
Definition set_d_DSeq (v : N) (r : DeploymentRecord) : DeploymentRecord :=
  let 'MkDeployment x0 _ x2 x3 x4 x5 x6 x7 x8 x9 x10 x11 x12 x13 x14 x15 x16 := r in
  MkDeployment x0 v x2 x3 x4 x5 x6 x7 x8 x9 x10 x11 x12 x13 x14 x15 x16.
Definition set_d_State (v : string) (r : DeploymentRecord) : DeploymentRecord :=
  let 'MkDeployment x0 x1 _ x3 x4 x5 x6 x7 x8 x9 x10 x11 x12 x13 x14 x15 x16 := r in
  MkDeployment x0 x1 v x3 x4 x5 x6 x7 x8 x9 x10 x11 x12 x13 x14 x15 x16.
Definition set_d_Version (v : option string) (r : DeploymentRecord) : DeploymentRecord :=
  let 'MkDeployment x0 x1 x2 _ x4 x5 x6 x7 x8 x9 x10 x11 x12 x13 x14 x15 x16 := r in
  MkDeployment x0 x1 x2 v x4 x5 x6 x7 x8 x9 x10 x11 x12 x13 x14 x15 x16.
Definition set_d_SDLHash (v : string) (r : DeploymentRecord) : DeploymentRecord :=
  let 'MkDeployment x0 x1 x2 x3 _ x5 x6 x7 x8 x9 x10 x11 x12 x13 x14 x15 x16 := r in
  MkDeployment x0 x1 x2 x3 v x5 x6 x7 x8 x9 x10 x11 x12 x13 x14 x15 x16.
Definition set_d_SDLPath (v : string) (r : DeploymentRecord) : DeploymentRecord :=
  let 'MkDeployment x0 x1 x2 x3 x4 _ x6 x7 x8 x9 x10 x11 x12 x13 x14 x15 x16 := r in
  MkDeployment x0 x1 x2 x3 x4 v x6 x7 x8 x9 x10 x11 x12 x13 x14 x15 x16.
Definition set_d_Deposit (v : string) (r : DeploymentRecord) : DeploymentRecord :=
  let 'MkDeployment x0 x1 x2 x3 x4 x5 _ x7 x8 x9 x10 x11 x12 x13 x14 x15 x16 := r in
  MkDeployment x0 x1 x2 x3 x4 x5 v x7 x8 x9 x10 x11 x12 x13 x14 x15 x16.
Definition set_d_EscrowBalance (v : string) (r : DeploymentRecord) : DeploymentRecord :=
  let 'MkDeployment x0 x1 x2 x3 x4 x5 x6 _ x8 x9 x10 x11 x12 x13 x14 x15 x16 := r in
  MkDeployment x0 x1 x2 x3 x4 x5 x6 v x8 x9 x10 x11 x12 x13 x14 x15 x16.
Definition set_d_Transferred (v : string) (r : DeploymentRecord) : DeploymentRecord :=
  let 'MkDeployment x0 x1 x2 x3 x4 x5 x6 x7 _ x9 x10 x11 x12 x13 x14 x15 x16 := r in
  MkDeployment x0 x1 x2 x3 x4 x5 x6 x7 v x9 x10 x11 x12 x13 x14 x15 x16.
Definition set_d_CreatedAt (v : Z) (r : DeploymentRecord) : DeploymentRecord :=
  let 'MkDeployment x0 x1 x2 x3 x4 x5 x6 x7 x8 _ x10 x11 x12 x13 x14 x15 x16 := r in
  MkDeployment x0 x1 x2 x3 x4 x5 x6 x7 x8 v x10 x11 x12 x13 x14 x15 x16.
Definition set_d_UpdatedAt (v : Z) (r : DeploymentRecord) : DeploymentRecord :=
  let 'MkDeployment x0 x1 x2 x3 x4 x5 x6 x7 x8 x9 _ x11 x12 x13 x14 x15 x16 := r in
  MkDeployment x0 x1 x2 x3 x4 x5 x6 x7 x8 x9 v x11 x12 x13 x14 x15 x16.
Definition set_d_ClosedAt (v : Z) (r : DeploymentRecord) : DeploymentRecord :=
  let 'MkDeployment x0 x1 x2 x3 x4 x5 x6 x7 x8 x9 x10 _ x12 x13 x14 x15 x16 := r in
  MkDeployment x0 x1 x2 x3 x4 x5 x6 x7 x8 x9 x10 v x12 x13 x14 x15 x16.
Definition set_d_CreatedHeight (v : Z) (r : DeploymentRecord) : DeploymentRecord :=
  let 'MkDeployment x0 x1 x2 x3 x4 x5 x6 x7 x8 x9 x10 x11 _ x13 x14 x15 x16 := r in
  MkDeployment x0 x1 x2 x3 x4 x5 x6 x7 x8 x9 x10 x11 v x13 x14 x15 x16.
Definition set_d_Labels (v : option (gmap string string)) (r : DeploymentRecord) : DeploymentRecord :=
  let 'MkDeployment x0 x1 x2 x3 x4 x5 x6 x7 x8 x9 x10 x11 x12 _ x14 x15 x16 := r in
  MkDeployment x0 x1 x2 x3 x4 x5 x6 x7 x8 x9 x10 x11 x12 v x14 x15 x16.
Definition set_d_Notes (v : string) (r : DeploymentRecord) : DeploymentRecord :=
  let 'MkDeployment x0 x1 x2 x3 x4 x5 x6 x7 x8 x9 x10 x11 x12 x13 _ x15 x16 := r in
  MkDeployment x0 x1 x2 x3 x4 x5 x6 x7 x8 x9 x10 x11 x12 x13 v x15 x16.
Definition set_d_Tags (v : option (list string)) (r : DeploymentRecord) : DeploymentRecord :=
  let 'MkDeployment x0 x1 x2 x3 x4 x5 x6 x7 x8 x9 x10 x11 x12 x13 x14 _ x16 := r in
  MkDeployment x0 x1 x2 x3 x4 x5 x6 x7 x8 x9 x10 x11 x12 x13 x14 v x16.
Definition set_d_RecordVersion (v : N) (r : DeploymentRecord) : DeploymentRecord :=
  let 'MkDeployment x0 x1 x2 x3 x4 x5 x6 x7 x8 x9 x10 x11 x12 x13 x14 x15 _ := r in
  MkDeployment x0 x1 x2 x3 x4 x5 x6 x7 x8 x9 x10 x11 x12 x13 x14 x15 v.

(** ** LeaseID

    The identity of a lease. *)
Record LeaseID : Type := MkLeaseID {
  lid_Owner : string;
  lid_DSeq : N;
  lid_GSeq : N;
  lid_OSeq : N;
  lid_Provider : string;
}.

#[global] Instance LeaseID_eq_dec : EqDecision LeaseID.
Proof. solve_decision. Defined.

Definition zero_lease_id : LeaseID :=
  MkLeaseID EmptyString 0%N 0%N 0%N EmptyString.

Definition set_lid_Owner (v : string) (r : LeaseID) : LeaseID :=
  let 'MkLeaseID _ x1 x2 x3 x4 := r in MkLeaseID v x1 x2 x3 x4.
Definition set_lid_DSeq (v : N) (r : LeaseID) : LeaseID :=
  let 'MkLeaseID x0 _ x2 x3 x4 := r in MkLeaseID x0 v x2 x3 x4.
Definition set_lid_GSeq (v : N) (r : LeaseID) : LeaseID :=
  let 'MkLeaseID x0 x1 _ x3 x4 := r in MkLeaseID x0 x1 v x3 x4.
Definition set_lid_OSeq (v : N) (r : LeaseID) : LeaseID :=
  let 'MkLeaseID x0 x1 x2 _ x4 := r in MkLeaseID x0 x1 x2 v x4.
Definition set_lid_Provider (v : string) (r : LeaseID) : LeaseID :=
  let 'MkLeaseID x0 x1 x2 x3 _ := r in MkLeaseID x0 x1 x2 x3 v.

(** ** LeaseEndpoint

    A service endpoint exposed by a lease. *)
Record LeaseEndpoint : Type := MkEndpoint {
  ep_Service : string;
  ep_ExternalPort : N;
  ep_URI : string;
}.

#[global] Instance LeaseEndpoint_eq_dec : EqDecision LeaseEndpoint.
Proof. solve_decision. Defined.

Definition zero_endpoint : LeaseEndpoint :=
  MkEndpoint EmptyString 0%N EmptyString.

Definition set_ep_Service (v : string) (r : LeaseEndpoint) : LeaseEndpoint :=
  let 'MkEndpoint _ x1 x2 := r in MkEndpoint v x1 x2.
Definition set_ep_ExternalPort (v : N) (r : LeaseEndpoint) : LeaseEndpoint :=
  let 'MkEndpoint x0 _ x2 := r in MkEndpoint x0 v x2.
Definition set_ep_URI (v : string) (r : LeaseEndpoint) : LeaseEndpoint :=
  let 'MkEndpoint x0 x1 _ := r in MkEndpoint x0 x1 v.

(** ** LeaseRecord

    A locally tracked lease. *)
Record LeaseRecord : Type := MkLease {
  l_ID : LeaseID;
  l_State : string;
  l_Price : string;
  l_ProviderURI : string;
  l_Endpoints : option (list LeaseEndpoint);
  l_CreatedAt : Z;
  l_ClosedAt : Z;
  l_RecordVersion : N;
}.

#[global] Instance LeaseRecord_eq_dec : EqDecision LeaseRecord.
Proof. solve_decision. Defined.

Definition zero_lease : LeaseRecord :=
  MkLease zero_lease_id EmptyString EmptyString EmptyString None 0%Z 0%Z 0%N.

Definition set_l_ID (v : LeaseID) (r : LeaseRecord) : LeaseRecord :=
  let 'MkLease _ x1 x2 x3 x4 x5 x6 x7 := r in MkLease v x1 x2 x3 x4 x5 x6 x7.
Definition set_l_State (v : string) (r : LeaseRecord) : LeaseRecord :=
  let 'MkLease x0 _ x2 x3 x4 x5 x6 x7 := r in MkLease x0 v x2 x3 x4 x5 x6 x7.
Definition set_l_Price (v : string) (r : LeaseRecord) : LeaseRecord :=
  let 'MkLease x0 x1 _ x3 x4 x5 x6 x7 := r in MkLease x0 x1 v x3 x4 x5 x6 x7.
Definition set_l_ProviderURI (v : string) (r : LeaseRecord) : LeaseRecord :=
  let 'MkLease x0 x1 x2 _ x4 x5 x6 x7 := r in MkLease x0 x1 x2 v x4 x5 x6 x7.
Definition set_l_Endpoints (v : option (list LeaseEndpoint)) (r : LeaseRecord) : LeaseRecord :=
  let 'MkLease x0 x1 x2 x3 _ x5 x6 x7 := r in MkLease x0 x1 x2 x3 v x5 x6 x7.
Definition set_l_CreatedAt (v : Z) (r : LeaseRecord) : LeaseRecord :=
  let 'MkLease x0 x1 x2 x3 x4 _ x6 x7 := r in MkLease x0 x1 x2 x3 x4 v x6 x7.
Definition set_l_ClosedAt (v : Z) (r : LeaseRecord) : LeaseRecord :=
  let 'MkLease x0 x1 x2 x3 x4 x5 _ x7 := r in MkLease x0 x1 x2 x3 x4 x5 v x7.
Definition set_l_RecordVersion (v : N) (r : LeaseRecord) : LeaseRecord :=
  let 'MkLease x0 x1 x2 x3 x4 x5 x6 _ := r in MkLease x0 x1 x2 x3 x4 x5 x6 v.

(** ** BidID

    The identity of a bid. *)
Record BidID : Type := MkBidID {
  bid_Owner : string;
  bid_DSeq : N;
  bid_GSeq : N;
  bid_OSeq : N;
  bid_Provider : string;
}.

#[global] Instance BidID_eq_dec : EqDecision BidID.
Proof. solve_decision. Defined.

Definition zero_bid_id : BidID :=
  MkBidID EmptyString 0%N 0%N 0%N EmptyString.

Definition set_bid_Owner (v : string) (r : BidID) : BidID :=
  let 'MkBidID _ x1 x2 x3 x4 := r in MkBidID v x1 x2 x3 x4.
Definition set_bid_DSeq (v : N) (r : BidID) : BidID :=
  let 'MkBidID x0 _ x2 x3 x4 := r in MkBidID x0 v x2 x3 x4.
Definition set_bid_GSeq (v : N) (r : BidID) : BidID :=
  let 'MkBidID x0 x1 _ x3 x4 := r in MkBidID x0 x1 v x3 x4.
Definition set_bid_OSeq (v : N) (r : BidID) : BidID :=
  let 'MkBidID x0 x1 x2 _ x4 := r in MkBidID x0 x1 x2 v x4.
Definition set_bid_Provider (v : string) (r : BidID) : BidID :=
  let 'MkBidID x0 x1 x2 x3 _ := r in MkBidID x0 x1 x2 x3 v.

(** ** BidRecord

    A locally tracked bid. *)
Record BidRecord : Type := MkBid {
  b_ID : BidID;
  b_State : string;
  b_Price : string;
  b_ProviderAttributes : option (gmap string string);
  b_ProviderAudited : bool;
  b_CreatedAt : Z;
  b_RecordVersion : N;
}.

#[global] Instance BidRecord_eq_dec : EqDecision BidRecord.
Proof. solve_decision. Defined.

Definition zero_bid : BidRecord :=
  MkBid zero_bid_id EmptyString EmptyString None false 0%Z 0%N.

Definition set_b_ID (v : BidID) (r : BidRecord) : BidRecord :=
  let 'MkBid _ x1 x2 x3 x4 x5 x6 := r in MkBid v x1 x2 x3 x4 x5 x6.
Definition set_b_State (v : string) (r : BidRecord) : BidRecord :=
  let 'MkBid x0 _ x2 x3 x4 x5 x6 := r in MkBid x0 v x2 x3 x4 x5 x6.
Definition set_b_Price (v : string) (r : BidRecord) : BidRecord :=
  let 'MkBid x0 x1 _ x3 x4 x5 x6 := r in MkBid x0 x1 v x3 x4 x5 x6.
Definition set_b_ProviderAttributes (v : option (gmap string string)) (r : BidRecord) : BidRecord :=
  let 'MkBid x0 x1 x2 _ x4 x5 x6 := r in MkBid x0 x1 x2 v x4 x5 x6.
Definition set_b_ProviderAudited (v : bool) (r : BidRecord) : BidRecord :=
  let 'MkBid x0 x1 x2 x3 _ x5 x6 := r in MkBid x0 x1 x2 x3 v x5 x6.
Definition set_b_CreatedAt (v : Z) (r : BidRecord) : BidRecord :=
  let 'MkBid x0 x1 x2 x3 x4 _ x6 := r in MkBid x0 x1 x2 x3 x4 v x6.
Definition set_b_RecordVersion (v : N) (r : BidRecord) : BidRecord :=
  let 'MkBid x0 x1 x2 x3 x4 x5 _ := r in MkBid x0 x1 x2 x3 x4 x5 v.

(** ** SyncState

    The sync engine's progress. *)
Record SyncState : Type := MkSync {
  ss_LastBlockHeight : Z;
  ss_LastSyncTime : Z;
  ss_TrackedAccounts : option (list string);
  ss_SchemaVersion : N;
}.

#[global] Instance SyncState_eq_dec : EqDecision SyncState.
Proof. solve_decision. Defined.

Definition zero_sync_state : SyncState :=
  MkSync 0%Z 0%Z None 0%N.

Definition set_ss_LastBlockHeight (v : Z) (r : SyncState) : SyncState :=
  let 'MkSync _ x1 x2 x3 := r in MkSync v x1 x2 x3.
Definition set_ss_LastSyncTime (v : Z) (r : SyncState) : SyncState :=
  let 'MkSync x0 _ x2 x3 := r in MkSync x0 v x2 x3.
Definition set_ss_TrackedAccounts (v : option (list string)) (r : SyncState) : SyncState :=
  let 'MkSync x0 x1 _ x3 := r in MkSync x0 x1 v x3.
Definition set_ss_SchemaVersion (v : N) (r : SyncState) : SyncState :=
  let 'MkSync x0 x1 x2 _ := r in MkSync x0 x1 x2 v.

(** ** Filters and statistics *)
Record DeploymentFilter : Type := MkDeploymentFilter {
  df_Owner : string;
  df_State : string;
  df_Tags : list string;
  df_Label : string;
}.

Record LeaseFilter : Type := MkLeaseFilter {
  lf_Owner : string;
  lf_DSeq : N;
  lf_Provider : string;
  lf_State : string;
}.

Record BidFilter : Type := MkBidFilter {
  bf_Owner : string;
  bf_DSeq : N;
  bf_Provider : string;
  bf_State : string;
}.

Definition no_deployment_filter : DeploymentFilter := MkDeploymentFilter EmptyString EmptyString [] EmptyString.
Definition no_lease_filter : LeaseFilter := MkLeaseFilter EmptyString 0 EmptyString EmptyString.
Definition no_bid_filter : BidFilter := MkBidFilter EmptyString 0 EmptyString EmptyString.

(** Counters are Go [int64]s, incremented once per row. *)
Record StoreStats : Type := MkStats {
  st_Deployments : Z;
  st_ActiveDeployments : Z;
  st_ClosedDeployments : Z;
  st_Leases : Z;
  st_ActiveLeases : Z;
  st_ClosedLeases : Z;
  st_InsufficientFundsLeases : Z;
  st_Bids : Z;
  st_OpenBids : Z;
  st_MatchedBids : Z;
  st_ClosedBids : Z;
  st_LostBids : Z;
}.

(** ** Codecs *)
Definition map_ok (m : option (gmap string string)) : bool :=
  match m with None => true | Some m => bool_decide (map_utf8 m) end.
Definition slice_ok {A} (ok : A → bool) (l : option (list A)) : bool :=
  match l with None => true | Some l => forallb ok l end.

Lemma slice_ok_Forall {A} (ok : A → bool) l x :
  slice_ok ok l = true → l = Some x → Forall (λ a, ok a = true) x.
Proof. intros H ->. simpl in H. rewrite forallb_forall in H. apply Forall_forall. intros. by apply H, list_elem_of_In. Qed.

Lemma map_ok_utf8 m x : map_ok m = true → m = Some x → map_utf8 x.
Proof. intros H ->. simpl in H. by apply bool_decide_eq_true in H. Qed.

Lemma dec_members_step {A B} strict (fs : fields A) k v kvs (get : A → B) set dec a r :
  find_field k fs = Some (field get set dec) → dec v (get a) = Some (get r) →
  dec_members strict fs ((k, v) :: kvs) a = dec_members strict fs kvs (set (get r) a).
Proof. intros Hf Hd. simpl. rewrite Hf. unfold field. by rewrite Hd. Qed.

Lemma dec_enc_u64 n old : in_u64 n = true → dec_uint u64_max (enc_uint n) old = Some n.
Proof. apply dec_enc_uint. Qed.

Lemma dec_enc_u32 n old : in_u32 n = true → dec_uint u32_max (enc_uint n) old = Some n.
Proof. apply dec_enc_uint. Qed.

Create HintDb codec.
#[export] Hint Resolve dec_enc_string dec_enc_u64 dec_enc_u32 dec_enc_int dec_enc_bool dec_enc_bytes dec_enc_map : codec.
#[export] Hint Resolve map_ok_utf8 : codec.
#[export] Hint Extern 1 (default ∅ _ = ∅) => assumption : codec.

(** Decoding what was encoded, one member at a time. *)
Ltac codec_member r :=
  erewrite (dec_members_step _ _ _ _ _ _ _ _ _ r);
  [ | reflexivity
    | first
      [ solve [eauto with codec]
      | eapply dec_enc_slice; [|intros; eapply slice_ok_Forall; eassumption]; cbv beta; solve [eauto with codec] ] ].

Ltac codec_roundtrip ok dec enc r old :=
  unfold ok; intros;
  repeat match goal with H : _ && _ = true |- _ => apply andb_prop in H as [? ?] end;
  unfold dec, enc, dec_struct; destruct old; repeat codec_member r;
  destruct r; reflexivity.

Definition deployment_fields (strict : bool) : fields DeploymentRecord := [
  ("owner", field d_Owner set_d_Owner dec_string);
  ("dseq", field d_DSeq set_d_DSeq (dec_uint u64_max));
  ("state", field d_State set_d_State dec_string);
  ("version", field d_Version set_d_Version dec_bytes);
  ("sdl_hash", field d_SDLHash set_d_SDLHash dec_string);
  ("sdl_path", field d_SDLPath set_d_SDLPath dec_string);
  ("deposit", field d_Deposit set_d_Deposit dec_string);
  ("escrow_balance", field d_EscrowBalance set_d_EscrowBalance dec_string);
  ("transferred", field d_Transferred set_d_Transferred dec_string);
  ("created_at", field d_CreatedAt set_d_CreatedAt dec_int64);
  ("updated_at", field d_UpdatedAt set_d_UpdatedAt dec_int64);
  ("closed_at", field d_ClosedAt set_d_ClosedAt dec_int64);
  ("created_height", field d_CreatedHeight set_d_CreatedHeight dec_int64);
  ("labels", field d_Labels set_d_Labels dec_map);
  ("notes", field d_Notes set_d_Notes dec_string);
  ("tags", field d_Tags set_d_Tags (dec_slice EmptyString dec_string));
  ("record_version", field d_RecordVersion set_d_RecordVersion (dec_uint u64_max))
].
Definition dec_deployment (strict : bool) : decoder DeploymentRecord := dec_struct strict (deployment_fields strict).

Definition enc_deployment (r : DeploymentRecord) : json := JObj [
  ("owner", enc_string (d_Owner r));
  ("dseq", enc_uint (d_DSeq r));
  ("state", enc_string (d_State r));
  ("version", enc_bytes (d_Version r));
  ("sdl_hash", enc_string (d_SDLHash r));
  ("sdl_path", enc_string (d_SDLPath r));
  ("deposit", enc_string (d_Deposit r));
  ("escrow_balance", enc_string (d_EscrowBalance r));
  ("transferred", enc_string (d_Transferred r));
  ("created_at", enc_int (d_CreatedAt r));
  ("updated_at", enc_int (d_UpdatedAt r));
  ("closed_at", enc_int (d_ClosedAt r));
  ("created_height", enc_int (d_CreatedHeight r));
  ("labels", enc_map (d_Labels r));
  ("notes", enc_string (d_Notes r));
  ("tags", enc_slice enc_string (d_Tags r));
  ("record_version", enc_uint (d_RecordVersion r))
].

Definition deployment_ok (r : DeploymentRecord) : bool :=
  utf8_ok (d_Owner r) && in_u64 (d_DSeq r) && utf8_ok (d_State r)
  && utf8_ok (d_SDLHash r) && utf8_ok (d_SDLPath r) && utf8_ok (d_Deposit r)
  && utf8_ok (d_EscrowBalance r) && utf8_ok (d_Transferred r) && in_i64 (d_CreatedAt r)
  && in_i64 (d_UpdatedAt r) && in_i64 (d_ClosedAt r) && in_i64 (d_CreatedHeight r)
  && map_ok (d_Labels r) && utf8_ok (d_Notes r) && slice_ok utf8_ok (d_Tags r)
  && in_u64 (d_RecordVersion r).

Lemma dec_enc_deployment strict r old :
  deployment_ok r = true → default ∅ (d_Labels old) = ∅ → dec_deployment strict (enc_deployment r) old = Some r.
Proof. codec_roundtrip deployment_ok dec_deployment enc_deployment r old. Qed.

Definition lease_id_fields (strict : bool) : fields LeaseID := [
  ("owner", field lid_Owner set_lid_Owner dec_string);
  ("dseq", field lid_DSeq set_lid_DSeq (dec_uint u64_max));
  ("gseq", field lid_GSeq set_lid_GSeq (dec_uint u32_max));
  ("oseq", field lid_OSeq set_lid_OSeq (dec_uint u32_max));
  ("provider", field lid_Provider set_lid_Provider dec_string)
].
Definition dec_lease_id (strict : bool) : decoder LeaseID := dec_struct strict (lease_id_fields strict).

Definition enc_lease_id (r : LeaseID) : json := JObj [
  ("owner", enc_string (lid_Owner r));
  ("dseq", enc_uint (lid_DSeq r));
  ("gseq", enc_uint (lid_GSeq r));
  ("oseq", enc_uint (lid_OSeq r));
  ("provider", enc_string (lid_Provider r))
].

Definition lease_id_ok (r : LeaseID) : bool :=
  utf8_ok (lid_Owner r) && in_u64 (lid_DSeq r) && in_u32 (lid_GSeq r)
  && in_u32 (lid_OSeq r) && utf8_ok (lid_Provider r).

Lemma dec_enc_lease_id strict r old :
  lease_id_ok r = true → dec_lease_id strict (enc_lease_id r) old = Some r.
Proof. codec_roundtrip lease_id_ok dec_lease_id enc_lease_id r old. Qed.

#[export] Hint Resolve dec_enc_lease_id : codec.

Definition endpoint_fields (strict : bool) : fields LeaseEndpoint := [
  ("service", field ep_Service set_ep_Service dec_string);
  ("external_port", field ep_ExternalPort set_ep_ExternalPort (dec_uint u32_max));
  ("uri", field ep_URI set_ep_URI dec_string)
].
Definition dec_endpoint (strict : bool) : decoder LeaseEndpoint := dec_struct strict (endpoint_fields strict).

Definition enc_endpoint (r : LeaseEndpoint) : json := JObj [
  ("service", enc_string (ep_Service r));
  ("external_port", enc_uint (ep_ExternalPort r));
  ("uri", enc_string (ep_URI r))
].

Definition endpoint_ok (r : LeaseEndpoint) : bool :=
  utf8_ok (ep_Service r) && in_u32 (ep_ExternalPort r) && utf8_ok (ep_URI r).

Lemma dec_enc_endpoint strict r old :
  endpoint_ok r = true → dec_endpoint strict (enc_endpoint r) old = Some r.
Proof. codec_roundtrip endpoint_ok dec_endpoint enc_endpoint r old. Qed.

#[export] Hint Resolve dec_enc_endpoint : codec.

Definition lease_fields (strict : bool) : fields LeaseRecord := [
  ("id", field l_ID set_l_ID (dec_lease_id strict));
  ("state", field l_State set_l_State dec_string);
  ("price", field l_Price set_l_Price dec_string);
  ("provider_uri", field l_ProviderURI set_l_ProviderURI dec_string);
  ("endpoints", field l_Endpoints set_l_Endpoints (dec_slice zero_endpoint (dec_endpoint strict)));
  ("created_at", field l_CreatedAt set_l_CreatedAt dec_int64);
  ("closed_at", field l_ClosedAt set_l_ClosedAt dec_int64);
  ("record_version", field l_RecordVersion set_l_RecordVersion (dec_uint u64_max))
].
Definition dec_lease (strict : bool) : decoder LeaseRecord := dec_struct strict (lease_fields strict).

Definition enc_lease (r : LeaseRecord) : json := JObj [
  ("id", enc_lease_id (l_ID r));
  ("state", enc_string (l_State r));
  ("price", enc_string (l_Price r));
  ("provider_uri", enc_string (l_ProviderURI r));
  ("endpoints", enc_slice enc_endpoint (l_Endpoints r));
  ("created_at", enc_int (l_CreatedAt r));
  ("closed_at", enc_int (l_ClosedAt r));
  ("record_version", enc_uint (l_RecordVersion r))
].

Definition lease_ok (r : LeaseRecord) : bool :=
  lease_id_ok (l_ID r) && utf8_ok (l_State r) && utf8_ok (l_Price r)
  && utf8_ok (l_ProviderURI r) && slice_ok endpoint_ok (l_Endpoints r) && in_i64 (l_CreatedAt r)
  && in_i64 (l_ClosedAt r) && in_u64 (l_RecordVersion r).

Lemma dec_enc_lease strict r old :
  lease_ok r = true → dec_lease strict (enc_lease r) old = Some r.
Proof. codec_roundtrip lease_ok dec_lease enc_lease r old. Qed.

Definition bid_id_fields (strict : bool) : fields BidID := [
  ("owner", field bid_Owner set_bid_Owner dec_string);
  ("dseq", field bid_DSeq set_bid_DSeq (dec_uint u64_max));
  ("gseq", field bid_GSeq set_bid_GSeq (dec_uint u32_max));
  ("oseq", field bid_OSeq set_bid_OSeq (dec_uint u32_max));
  ("provider", field bid_Provider set_bid_Provider dec_string)
].
Definition dec_bid_id (strict : bool) : decoder BidID := dec_struct strict (bid_id_fields strict).

Definition enc_bid_id (r : BidID) : json := JObj [
  ("owner", enc_string (bid_Owner r));
  ("dseq", enc_uint (bid_DSeq r));
  ("gseq", enc_uint (bid_GSeq r));
  ("oseq", enc_uint (bid_OSeq r));
  ("provider", enc_string (bid_Provider r))
].

Definition bid_id_ok (r : BidID) : bool :=
  utf8_ok (bid_Owner r) && in_u64 (bid_DSeq r) && in_u32 (bid_GSeq r)
  && in_u32 (bid_OSeq r) && utf8_ok (bid_Provider r).

Lemma dec_enc_bid_id strict r old :
  bid_id_ok r = true → dec_bid_id strict (enc_bid_id r) old = Some r.
Proof. codec_roundtrip bid_id_ok dec_bid_id enc_bid_id r old. Qed.

#[export] Hint Resolve dec_enc_bid_id : codec.

Definition bid_fields (strict : bool) : fields BidRecord := [
  ("id", field b_ID set_b_ID (dec_bid_id strict));
  ("state", field b_State set_b_State dec_string);
  ("price", field b_Price set_b_Price dec_string);
  ("provider_attributes", field b_ProviderAttributes set_b_ProviderAttributes dec_map);
  ("provider_audited", field b_ProviderAudited set_b_ProviderAudited dec_bool);
  ("created_at", field b_CreatedAt set_b_CreatedAt dec_int64);
  ("record_version", field b_RecordVersion set_b_RecordVersion (dec_uint u64_max))
].
Definition dec_bid (strict : bool) : decoder BidRecord := dec_struct strict (bid_fields strict).

Definition enc_bid (r : BidRecord) : json := JObj [
  ("id", enc_bid_id (b_ID r));
  ("state", enc_string (b_State r));
  ("price", enc_string (b_Price r));
  ("provider_attributes", enc_map (b_ProviderAttributes r));
  ("provider_audited", enc_bool (b_ProviderAudited r));
  ("created_at", enc_int (b_CreatedAt r));
  ("record_version", enc_uint (b_RecordVersion r))
].

Definition bid_ok (r : BidRecord) : bool :=
  bid_id_ok (b_ID r) && utf8_ok (b_State r) && utf8_ok (b_Price r)
  && map_ok (b_ProviderAttributes r) && in_i64 (b_CreatedAt r) && in_u64 (b_RecordVersion r).

Lemma dec_enc_bid strict r old :
  bid_ok r = true → default ∅ (b_ProviderAttributes old) = ∅ → dec_bid strict (enc_bid r) old = Some r.
Proof. codec_roundtrip bid_ok dec_bid enc_bid r old. Qed.

Definition sync_state_fields (strict : bool) : fields SyncState := [
  ("last_block_height", field ss_LastBlockHeight set_ss_LastBlockHeight dec_int64);
  ("last_sync_time", field ss_LastSyncTime set_ss_LastSyncTime dec_int64);
  ("tracked_accounts", field ss_TrackedAccounts set_ss_TrackedAccounts (dec_slice EmptyString dec_string));
  ("schema_version", field ss_SchemaVersion set_ss_SchemaVersion (dec_uint u64_max))
].
Definition dec_sync_state (strict : bool) : decoder SyncState := dec_struct strict (sync_state_fields strict).

Definition enc_sync_state (r : SyncState) : json := JObj [
  ("last_block_height", enc_int (ss_LastBlockHeight r));
  ("last_sync_time", enc_int (ss_LastSyncTime r));
  ("tracked_accounts", enc_slice enc_string (ss_TrackedAccounts r));
  ("schema_version", enc_uint (ss_SchemaVersion r))
].

Definition sync_state_ok (r : SyncState) : bool :=
  in_i64 (ss_LastBlockHeight r) && in_i64 (ss_LastSyncTime r) && slice_ok utf8_ok (ss_TrackedAccounts r)
  && in_u64 (ss_SchemaVersion r).

Lemma dec_enc_sync_state strict r old :
  sync_state_ok r = true → dec_sync_state strict (enc_sync_state r) old = Some r.
Proof. codec_roundtrip sync_state_ok dec_sync_state enc_sync_state r old. Qed.

(** ** Bucket keys *)
Definition DeploymentKey (owner : string) (dseq : N) : string :=
  owner +:+ ":" +:+ FormatUint dseq.

Definition LeaseKey (id : LeaseID) : string :=
  strings_Join [lid_Owner id; FormatUint (lid_DSeq id); FormatUint (lid_GSeq id);
                FormatUint (lid_OSeq id); lid_Provider id] ":".

Definition BidKey (id : BidID) : string :=
  strings_Join [bid_Owner id; FormatUint (bid_DSeq id); FormatUint (bid_GSeq id);
                FormatUint (bid_OSeq id); bid_Provider id] ":".

Lemma bytes_of_colon s t : bytes_of (s +:+ ":" +:+ t) = bytes_of s ++ ":"%char :: bytes_of t.
Proof. by rewrite !bytes_of_app. Qed.

Lemma FormatUint_no_colon n : ":"%char ∉ bytes_of (FormatUint n).
Proof. by apply FormatUint_no_byte. Qed.

(** A deployment key determines its owner and sequence number, whatever bytes
    the owner has: the number after the last colon has none. *)
Lemma DeploymentKey_inj_pair o1 o2 d1 d2 :
  DeploymentKey o1 d1 = DeploymentKey o2 d2 → o1 = o2 ∧ d1 = d2.
Proof.
  unfold DeploymentKey. intros E%(f_equal bytes_of).
  rewrite !bytes_of_colon in E.
  apply app_pivot_r in E as [E1 E2]; [|apply FormatUint_no_colon..].
  apply (inj bytes_of) in E1, E2. by apply (inj FormatUint) in E2.
Qed.

(** The five-part keys determine their parts when the owner has no colon, which
    bech32 addresses never do: the colons after it then delimit the numbers, and
    what follows the last of them is the provider. *)
Lemma five_part_key_inj o1 a1 b1 c1 p1 o2 a2 b2 c2 p2 :
  has_byte ":" o1 = false → has_byte ":" o2 = false →
  strings_Join [o1; FormatUint a1; FormatUint b1; FormatUint c1; p1] ":" =
  strings_Join [o2; FormatUint a2; FormatUint b2; FormatUint c2; p2] ":" →
  o1 = o2 ∧ a1 = a2 ∧ b1 = b2 ∧ c1 = c2 ∧ p1 = p2.
Proof.
  unfold has_byte. rewrite !bool_decide_eq_false. intros H1 H2 E%(f_equal bytes_of).
  cbn [strings_Join] in E. rewrite !bytes_of_colon in E.
  apply app_pivot_l in E as [E1 E]; [|done..].
  do 3 (apply app_pivot_l in E as [? E]; [|apply FormatUint_no_colon..]).
  by repeat match goal with
  | H : bytes_of _ = bytes_of _ |- _ => apply (inj bytes_of) in H
  | H : FormatUint _ = FormatUint _ |- _ => apply (inj FormatUint) in H
  end.
Qed.

Lemma LeaseKey_inj i j :
  has_byte ":" (lid_Owner i) = false → has_byte ":" (lid_Owner j) = false →
  LeaseKey i = LeaseKey j → i = j.
Proof.
  destruct i, j; unfold LeaseKey; simpl. intros Hi Hj E.
  apply five_part_key_inj in E; [|done..]. naive_solver.
Qed.

Lemma BidKey_inj i j :
  has_byte ":" (bid_Owner i) = false → has_byte ":" (bid_Owner j) = false →
  BidKey i = BidKey j → i = j.
Proof.
  destruct i, j; unfold BidKey; simpl. intros Hi Hj E.
  apply five_part_key_inj in E; [|done..]. naive_solver.
Qed.
