(* ===== verification/StoreOps.v ===== *)
(** * The bbolt store (internal/store/bbolt/store.go)

    Every operation of [BoltStore], over the database interface of [Bolt]: the
    state is the database, an update returns the new database and the outcome of
    the transaction. Opening, record versions, CRUD for deployments, leases and
    bids, the transactional close, the sync state, the schema version, the
    statistics and the filters. *)

From Stdlib Require Import Ascii.
From stdpp Require Import sorting base gmap strings pretty option numbers list.
From S2P Require Import Prelude GoStd GoJson Bolt StoreTypes.

Definition bucketDeployments : string := "deployments".
Definition bucketLeases : string := "leases".
Definition bucketBids : string := "bids".
Definition bucketSync : string := "sync".
Definition bucketMeta : string := "meta".
Definition keySyncState : string := "state".
Definition keySchemaVersion : string := "schema_version".
Definition currentSchemaVersion : N := 1.

(** [json.Unmarshal(data, &v)]. *)
Definition Unmarshal {A} (dec : decoder A) (data : bytes) (v : A) : result A :=
  match data with
  | Text j => match dec j v with Some v' => Ok v' | None => Err ErrJSON end
  | Raw _ => Err ErrJSON
  end.

(** ** Record versions *)

(** [recordVersionEnvelope]: the one member of a stored record that is read to
    advance its version. *)
Definition dec_version_envelope : decoder N :=
  dec_struct false [("record_version", field (λ n, n) (λ v _, v) (dec_uint u64_max))].

Definition nextRecordVersion (existing : option bytes) (incoming : N) : result N :=
  if match existing with None => true | Some b => bytes_empty b end
  then if (incoming =? 0)%N then Ok 1%N else Ok incoming
  else
    stored ← map_err (Wrapf "decode stored record revision: %w" [])
               (Unmarshal dec_version_envelope (default (Raw EmptyString) existing) 0%N);
    if (stored <? incoming)%N then Ok incoming
    else if (stored =? u64_max)%N
    then failf "record revision cannot advance beyond %d" [FormatUint stored]
    else Ok (stored + 1)%N.

(** ** Filters *)
Definition matchDeployment (d : DeploymentRecord) (f : DeploymentFilter) : bool :=
  if negb (bool_decide (df_Owner f = EmptyString)) && negb (bool_decide (d_Owner d = df_Owner f)) then false
  else if negb (bool_decide (df_State f = EmptyString)) && negb (bool_decide (d_State d = df_State f)) then false
  else if negb (forallb (λ tag, existsb (λ dt, bool_decide (dt = tag)) (default [] (d_Tags d))) (df_Tags f)) then false
  else if bool_decide (df_Label f = EmptyString) then true
  else match split2 "=" (df_Label f) with
       | Some (k, v) =>
           match d_Labels d with
           | None => false
           | Some labels => bool_decide (default EmptyString (labels !! k) = v)
           end
       | None => true
       end.

Definition matchLease (l : LeaseRecord) (f : LeaseFilter) : bool :=
  if negb (bool_decide (lf_Owner f = EmptyString)) && negb (bool_decide (lid_Owner (l_ID l) = lf_Owner f)) then false
  else if negb (lf_DSeq f =? 0)%N && negb (lid_DSeq (l_ID l) =? lf_DSeq f)%N then false
  else if negb (bool_decide (lf_Provider f = EmptyString)) && negb (bool_decide (lid_Provider (l_ID l) = lf_Provider f)) then false
  else if negb (bool_decide (lf_State f = EmptyString)) && negb (bool_decide (l_State l = lf_State f)) then false
  else true.

Definition matchBid (b : BidRecord) (f : BidFilter) : bool :=
  if negb (bool_decide (bf_Owner f = EmptyString)) && negb (bool_decide (bid_Owner (b_ID b) = bf_Owner f)) then false
  else if negb (bf_DSeq f =? 0)%N && negb (bid_DSeq (b_ID b) =? bf_DSeq f)%N then false
  else if negb (bool_decide (bf_Provider f = EmptyString)) && negb (bool_decide (bid_Provider (b_ID b) = bf_Provider f)) then false
  else if negb (bool_decide (bf_State f = EmptyString)) && negb (bool_decide (b_State b = bf_State f)) then false
  else true.

(** ** Statistics: one counter update per row *)
Definition count_deployment (s : StoreStats) (d : DeploymentRecord) : StoreStats :=
  let 'MkStats n a c l la lc li b bo bm bc bl := s in
  if bool_decide (d_State d = "active") then MkStats (n + 1) (a + 1) c l la lc li b bo bm bc bl
  else if bool_decide (d_State d = "closed") then MkStats (n + 1) a (c + 1) l la lc li b bo bm bc bl
  else MkStats (n + 1) a c l la lc li b bo bm bc bl.

Definition count_lease (s : StoreStats) (r : LeaseRecord) : StoreStats :=
  let 'MkStats n a c l la lc li b bo bm bc bl := s in
  if bool_decide (l_State r = "active") then MkStats n a c (l + 1) (la + 1) lc li b bo bm bc bl
  else if bool_decide (l_State r = "closed") then MkStats n a c (l + 1) la (lc + 1) li b bo bm bc bl
  else if bool_decide (l_State r = "insufficient_funds") then MkStats n a c (l + 1) la lc (li + 1) b bo bm bc bl
  else MkStats n a c (l + 1) la lc li b bo bm bc bl.

Definition count_bid (s : StoreStats) (r : BidRecord) : StoreStats :=
  let 'MkStats n a c l la lc li b bo bm bc bl := s in
  if bool_decide (b_State r = "open") then MkStats n a c l la lc li (b + 1) (bo + 1) bm bc bl
  else if bool_decide (b_State r = "matched") then MkStats n a c l la lc li (b + 1) bo (bm + 1) bc bl
  else if bool_decide (b_State r = "closed") then MkStats n a c l la lc li (b + 1) bo bm (bc + 1) bl
  else if bool_decide (b_State r = "lost") then MkStats n a c l la lc li (b + 1) bo bm bc (bl + 1)
  else MkStats n a c l la lc li (b + 1) bo bm bc bl.

(** The rows of a scan that decode; the others are skipped. *)
Definition readable {R} (dec : decoder R) (zero : R) (kv : string * bytes) : option R :=
  match Unmarshal dec kv.2 zero with Ok r => Some r | _ => None end.

Section store.
Context {Tx : Type} `{BoltOps Tx}.

(** ** Open *)
Definition open_tx (tx : Tx) : result Tx :=
  tx ← foldR (λ tx name, map_err (Wrapf "create bucket %s: %w" [name]) (tx_create_if_absent tx name))
         tx [bucketDeployments; bucketLeases; bucketBids; bucketSync; bucketMeta];
  schema ← bucket_get tx bucketMeta keySchemaVersion;
  match schema with
  | None => map_err (Wrapf "set schema_version: %w" [])
              (bucket_put tx bucketMeta keySchemaVersion (Raw (be64 currentSchemaVersion)))
  | Some _ => Ok tx
  end.

(** [Open] on a database file that bbolt could open; the database is closed
    again when the initialisation fails. *)
Definition Open (db : Tx) : Tx * result unit := db_Update db open_tx.

(** ** Deployments *)
Definition putDeploymentTxWithMarshal (tx : Tx) (d : option DeploymentRecord)
    (marshal : DeploymentRecord → result bytes) : result Tx :=
  match d with
  | None => failf "deployment record is nil" []
  | Some d =>
      let key := DeploymentKey (d_Owner d) (d_DSeq d) in
      existing ← bucket_get tx bucketDeployments key;
      version ← map_err (Wrapf "version deployment: %w" []) (nextRecordVersion existing (d_RecordVersion d));
      data ← map_err (Wrapf "marshal deployment: %w" []) (marshal (set_d_RecordVersion version d));
      bucket_put tx bucketDeployments key data
  end.

Definition putDeploymentTx (tx : Tx) (d : option DeploymentRecord) : result Tx :=
  putDeploymentTxWithMarshal tx d (λ r, Ok (Text (enc_deployment r))).

Definition PutDeployment (db : Tx) (d : option DeploymentRecord) : Tx * result unit :=
  db_Update db (λ tx, putDeploymentTx tx d).

Definition GetDeployment (db : Tx) (owner : string) (dseq : N) : result (option DeploymentRecord) :=
  data ← bucket_get db bucketDeployments (DeploymentKey owner dseq);
  match data with
  | None => Ok None
  | Some data =>
      rec ← map_err (Wrapf "unmarshal deployment: %w" []) (Unmarshal (dec_deployment false) data zero_deployment);
      Ok (Some rec)
  end.

Definition ListDeployments (db : Tx) (filter : DeploymentFilter) : result (list DeploymentRecord) :=
  pairs ← bucket_pairs db bucketDeployments;
  Ok (List.filter (λ d, matchDeployment d filter) (omap (readable (dec_deployment false) zero_deployment) pairs)).

Definition DeleteDeployment (db : Tx) (owner : string) (dseq : N) : Tx * result unit :=
  db_Update db (λ tx, bucket_delete tx bucketDeployments (DeploymentKey owner dseq)).

(** ** Leases *)
Definition putLeaseTxWithMarshal (tx : Tx) (l : option LeaseRecord)
    (marshal : LeaseRecord → result bytes) : result Tx :=
  match l with
  | None => failf "lease record is nil" []
  | Some l =>
      let key := LeaseKey (l_ID l) in
      existing ← bucket_get tx bucketLeases key;
      version ← map_err (Wrapf "version lease: %w" []) (nextRecordVersion existing (l_RecordVersion l));
      data ← map_err (Wrapf "marshal lease: %w" []) (marshal (set_l_RecordVersion version l));
      bucket_put tx bucketLeases key data
  end.

Definition putLeaseTx (tx : Tx) (l : option LeaseRecord) : result Tx :=
  putLeaseTxWithMarshal tx l (λ r, Ok (Text (enc_lease r))).

Definition PutLease (db : Tx) (l : option LeaseRecord) : Tx * result unit :=
  db_Update db (λ tx, putLeaseTx tx l).

Definition GetLease (db : Tx) (id : LeaseID) : result (option LeaseRecord) :=
  data ← bucket_get db bucketLeases (LeaseKey id);
  match data with
  | None => Ok None
  | Some data =>
      rec ← map_err (Wrapf "unmarshal lease: %w" []) (Unmarshal (dec_lease false) data zero_lease);
      Ok (Some rec)
  end.

Definition ListLeases (db : Tx) (filter : LeaseFilter) : result (list LeaseRecord) :=
  pairs ← bucket_pairs db bucketLeases;
  Ok (List.filter (λ l, matchLease l filter) (omap (readable (dec_lease false) zero_lease) pairs)).

Definition DeleteLease (db : Tx) (id : LeaseID) : Tx * result unit :=
  db_Update db (λ tx, bucket_delete tx bucketLeases (LeaseKey id)).

(** ** Bids *)
Definition putBidTxWithMarshal (tx : Tx) (b : option BidRecord)
    (marshal : BidRecord → result bytes) : result Tx :=
  match b with
  | None => failf "bid record is nil" []
  | Some b =>
      let key := BidKey (b_ID b) in
      existing ← bucket_get tx bucketBids key;
      version ← map_err (Wrapf "version bid: %w" []) (nextRecordVersion existing (b_RecordVersion b));
      data ← map_err (Wrapf "marshal bid: %w" []) (marshal (set_b_RecordVersion version b));
      bucket_put tx bucketBids key data
  end.

Definition putBidTx (tx : Tx) (b : option BidRecord) : result Tx :=
  putBidTxWithMarshal tx b (λ r, Ok (Text (enc_bid r))).

Definition PutBid (db : Tx) (b : option BidRecord) : Tx * result unit :=
  db_Update db (λ tx, putBidTx tx b).

Definition GetBid (db : Tx) (id : BidID) : result (option BidRecord) :=
  data ← bucket_get db bucketBids (BidKey id);
  match data with
  | None => Ok None
  | Some data =>
      rec ← map_err (Wrapf "unmarshal bid: %w" []) (Unmarshal (dec_bid false) data zero_bid);
      Ok (Some rec)
  end.

Definition ListBids (db : Tx) (filter : BidFilter) : result (list BidRecord) :=
  pairs ← bucket_pairs db bucketBids;
  Ok (List.filter (λ b, matchBid b filter) (omap (readable (dec_bid false) zero_bid) pairs)).

(** ** MarkDeploymentClosed *)
Definition close_deployment (closedAt : Z) (record : DeploymentRecord) : DeploymentRecord :=
  let record := if negb (bool_decide (d_State record = "closed")) || (d_ClosedAt record =? 0)%Z
                then set_d_ClosedAt closedAt record else record in
  set_d_UpdatedAt closedAt (set_d_State "closed" record).

Definition close_lease (closedAt : Z) (lease : LeaseRecord) : LeaseRecord :=
  let lease := if negb (bool_decide (l_State lease = "closed")) || (l_ClosedAt lease =? 0)%Z
               then set_l_ClosedAt closedAt lease else lease in
  set_l_State "closed" lease.

(** The scan over the lease bucket: the closed versions of the leases of the
    deployment; an unreadable row fails the whole transaction here. *)
Definition collect_lease (owner : string) (dseq : N) (closedAt : Z)
    (updates : list LeaseRecord) (kv : string * bytes) : result (list LeaseRecord) :=
  lease ← map_err (Wrapf "unmarshal lease %s: %w" [kv.1]) (Unmarshal (dec_lease false) kv.2 zero_lease);
  if negb (bool_decide (lid_Owner (l_ID lease) = owner)) || negb (lid_DSeq (l_ID lease) =? dseq)%N
  then Ok updates
  else Ok (updates ++ [close_lease closedAt lease]).

Definition mark_closed_tx (owner : string) (dseq : N) (closedAt : Z) (tx : Tx) : result Tx :=
  data ← bucket_get tx bucketDeployments (DeploymentKey owner dseq);
  let record := set_d_CreatedAt closedAt (set_d_DSeq dseq (set_d_Owner owner zero_deployment)) in
  record ← match data with
           | None => Ok record
           | Some data => map_err (Wrapf "unmarshal deployment: %w" []) (Unmarshal (dec_deployment false) data record)
           end;
  tx ← map_err (Wrapf "store deployment: %w" []) (putDeploymentTx tx (Some (close_deployment closedAt record)));
  pairs ← bucket_pairs tx bucketLeases;
  updates ← foldR (collect_lease owner dseq closedAt) [] pairs;
  foldR (λ tx l, map_err (Wrapf "store lease %s: %w" [LeaseKey (l_ID l)]) (putLeaseTx tx (Some l))) tx updates.

Definition MarkDeploymentClosed (db : Tx) (owner : string) (dseq : N) (closedAt : Z) : Tx * result unit :=
  if bool_decide (owner = EmptyString) || (dseq =? 0)%N
  then (db, failf "close local deployment: owner and dseq are required" [])
  else db_Update db (mark_closed_tx owner dseq closedAt).

(** ** Sync state *)
Definition GetSyncState (db : Tx) : result (option SyncState) :=
  data ← bucket_get db bucketSync keySyncState;
  match data with
  | None => Ok None
  | Some data =>
      st ← map_err (Wrapf "unmarshal sync state: %w" []) (Unmarshal (dec_sync_state false) data zero_sync_state);
      Ok (Some st)
  end.

Definition putSyncStateTxWithMarshal (tx : Tx) (st : option SyncState)
    (marshal : SyncState → result bytes) : result Tx :=
  match st with
  | None => failf "sync state is nil" []
  | Some st =>
      data ← map_err (Wrapf "marshal sync state: %w" []) (marshal st);
      bucket_put tx bucketSync keySyncState data
  end.

Definition putSyncStateTx (tx : Tx) (st : option SyncState) : result Tx :=
  putSyncStateTxWithMarshal tx st (λ s, Ok (Text (enc_sync_state s))).

Definition PutSyncState (db : Tx) (st : option SyncState) : Tx * result unit :=
  db_Update db (λ tx, putSyncStateTx tx st).

(** ** Schema version: 0 when the metadata is missing or shorter than 8 bytes *)
Definition schema_bytes (data : option bytes) : N :=
  match data with
  | Some data => default 0%N (Uint64 (raw_bytes data))
  | None => 0%N
  end.

Definition SchemaVersion (db : Tx) : result N :=
  data ← bucket_get db bucketMeta keySchemaVersion;
  Ok (schema_bytes data).

(** ** Stats *)
Definition zero_stats : StoreStats := MkStats 0 0 0 0 0 0 0 0 0 0 0 0.

Definition Stats (db : Tx) : result StoreStats :=
  deps ← bucket_pairs db bucketDeployments;
  let stats := foldl count_deployment zero_stats (omap (readable (dec_deployment false) zero_deployment) deps) in
  leases ← bucket_pairs db bucketLeases;
  let stats := foldl count_lease stats (omap (readable (dec_lease false) zero_lease) leases) in
  bids ← bucket_pairs db bucketBids;
  Ok (foldl count_bid stats (omap (readable (dec_bid false) zero_bid) bids)).
End store.
