(* ===== verification/StoreRep.v ===== *)
(** * What the store promises: the abstract store and its representation

    The three record families go through the same code path, so what is common
    is proved once over a class of records ([StoreRecord]) and instantiated
    three times; that the modelled functions are the instances is by
    computation. An abstract store ([astore]) is a finite map of records per
    family, the optional sync state and the schema version; [store_rep] says
    that a database represents it. *)

From Stdlib Require Import Ascii.
From stdpp Require Import sorting base gmap strings pretty option numbers list.
From S2P Require Import Prelude GoStd GoJson Bolt StoreTypes StoreOps.

(** ** Record families *)
Class StoreRecord (R : Type) := {
  sr_name : string;
  sr_bucket : string;
  sr_key : R → string;
  sr_version : R → N;
  sr_set_version : N → R → R;
  sr_enc : R → json;
  sr_dec : decoder R;
  sr_zero : R;
  sr_ok : R → bool;
}.

Arguments sr_name R {_}.
Arguments sr_bucket R {_}.

Class StoreRecordLaws (R : Type) `{StoreRecord R} : Prop := {
  sr_roundtrip r : sr_ok r = true → sr_dec (sr_enc r) sr_zero = Some r;
  sr_version_dec r : sr_ok r = true → dec_version_envelope (sr_enc r) 0%N = Some (sr_version r);
  sr_set_same r : sr_set_version (sr_version r) r = r;
  sr_version_set v r : sr_version (sr_set_version v r) = v;
  sr_key_set v r : sr_key (sr_set_version v r) = sr_key r;
  sr_ok_version r : sr_ok r = true → in_u64 (sr_version r) = true;
  sr_ok_set v r : in_u64 v = true → sr_ok r = true → sr_ok (sr_set_version v r) = true;
}.

#[global] Instance deployment_family : StoreRecord DeploymentRecord := {|
  sr_name := "deployment"; sr_bucket := bucketDeployments;
  sr_key := λ d, DeploymentKey (d_Owner d) (d_DSeq d);
  sr_version := d_RecordVersion; sr_set_version := set_d_RecordVersion;
  sr_enc := enc_deployment; sr_dec := dec_deployment false; sr_zero := zero_deployment;
  sr_ok := deployment_ok |}.

#[global] Instance lease_family : StoreRecord LeaseRecord := {|
  sr_name := "lease"; sr_bucket := bucketLeases;
  sr_key := λ l, LeaseKey (l_ID l);
  sr_version := l_RecordVersion; sr_set_version := set_l_RecordVersion;
  sr_enc := enc_lease; sr_dec := dec_lease false; sr_zero := zero_lease;
  sr_ok := lease_ok |}.

#[global] Instance bid_family : StoreRecord BidRecord := {|
  sr_name := "bid"; sr_bucket := bucketBids;
  sr_key := λ b, BidKey (b_ID b);
  sr_version := b_RecordVersion; sr_set_version := set_b_RecordVersion;
  sr_enc := enc_bid; sr_dec := dec_bid false; sr_zero := zero_bid;
  sr_ok := bid_ok |}.

Ltac split_andb :=
  repeat match goal with
  | H : _ && _ = true |- _ => apply andb_prop in H as [? ?]
  | |- _ && _ = true => apply andb_true_intro; split
  end.

(** Only the version member of a stored record reaches the envelope. *)
Lemma version_envelope_of kvs n :
  in_u64 n = true → Forall (λ kv : string * json, find_field (A := N) kv.1
      [("record_version", field (λ n, n) (λ v _, v) (dec_uint u64_max))] = None) kvs →
  dec_version_envelope (JObj (kvs ++ [("record_version", enc_uint n)])) 0%N = Some n.
Proof.
  intros Hn HF. unfold dec_version_envelope, dec_struct.
  induction HF as [|[k v] kvs Hk _ IH]; cbn [app].
  - rewrite (dec_members_step _ _ _ _ _ (λ n, n) (λ v _, v) (dec_uint u64_max) _ n);
      [done|reflexivity|by apply dec_enc_u64].
  - cbn [dec_members]. simpl in Hk. by rewrite Hk.
Qed.

(** The members of an encoded record before its version. *)
Definition members_before_version (j : json) : list (string * json) :=
  match j with JObj l => take (length l - 1) l | _ => [] end.

Ltac family_laws roundtrip ok enc :=
  split;
  [ intros r Hr; by apply roundtrip
  | intros r Hr; simpl in Hr; unfold ok in Hr; split_andb;
    apply (version_envelope_of (members_before_version (enc r))); [done|by repeat constructor]
  | by intros []
  | by intros v []
  | by intros v []
  | intros r Hr; simpl in Hr; unfold ok in Hr; by split_andb
  | intros v [] Hv Hr; simpl in *; unfold ok in *; simpl in *; by split_andb ].

#[global] Instance deployment_laws : StoreRecordLaws DeploymentRecord.
Proof. family_laws dec_enc_deployment deployment_ok enc_deployment. Qed.

#[global] Instance lease_laws : StoreRecordLaws LeaseRecord.
Proof. family_laws dec_enc_lease lease_ok enc_lease. Qed.

#[global] Instance bid_laws : StoreRecordLaws BidRecord.
Proof. family_laws dec_enc_bid bid_ok enc_bid. Qed.

(** ** The common code path *)
Definition next_version (old : option N) (incoming : N) : option N :=
  match old with
  | None => Some (if (incoming =? 0)%N then 1%N else incoming)
  | Some v => if (v <? incoming)%N then Some incoming
              else if (v =? u64_max)%N then None else Some (v + 1)%N
  end.

Section generic.
Context {Tx : Type} `{BoltOps Tx}.
Context {R : Type} `{StoreRecord R}.

Definition put_record (tx : Tx) (o : option R) : result Tx :=
  match o with
  | None => failf (sr_name R +:+ " record is nil") []
  | Some r =>
      existing ← bucket_get tx (sr_bucket R) (sr_key r);
      version ← map_err (Wrapf ("version " +:+ sr_name R +:+ ": %w") [])
                  (nextRecordVersion existing (sr_version r));
      data ← map_err (Wrapf ("marshal " +:+ sr_name R +:+ ": %w") [])
               (Ok (Text (sr_enc (sr_set_version version r))));
      bucket_put tx (sr_bucket R) (sr_key r) data
  end.

Definition get_record (tx : Tx) (key : string) : result (option R) :=
  data ← bucket_get tx (sr_bucket R) key;
  match data with
  | None => Ok None
  | Some data =>
      rec ← map_err (Wrapf ("unmarshal " +:+ sr_name R +:+ ": %w") []) (Unmarshal sr_dec data sr_zero);
      Ok (Some rec)
  end.

Definition list_records (tx : Tx) : result (list R) :=
  pairs ← bucket_pairs tx (sr_bucket R);
  Ok (omap (M := list) (readable sr_dec sr_zero) pairs).
End generic.

Section instances.
Context {Tx : Type} `{BoltOps Tx} (tx : Tx).

Lemma putDeploymentTx_generic o : putDeploymentTx tx o = put_record tx o.
Proof. by destruct o. Qed.
Lemma putLeaseTx_generic o : putLeaseTx tx o = put_record tx o.
Proof. by destruct o. Qed.
Lemma putBidTx_generic o : putBidTx tx o = put_record tx o.
Proof. by destruct o. Qed.
Lemma GetDeployment_generic owner dseq : GetDeployment tx owner dseq = get_record tx (DeploymentKey owner dseq).
Proof. done. Qed.
Lemma GetLease_generic id : GetLease tx id = get_record tx (LeaseKey id).
Proof. done. Qed.
Lemma GetBid_generic id : GetBid tx id = get_record tx (BidKey id).
Proof. done. Qed.
Lemma ListDeployments_generic f :
  ListDeployments tx f = List.filter (λ d, matchDeployment d f) <$> list_records tx.
Proof. unfold ListDeployments, list_records. simpl. by destruct (bucket_pairs _ _). Qed.
Lemma ListLeases_generic f : ListLeases tx f = List.filter (λ l, matchLease l f) <$> list_records tx.
Proof. unfold ListLeases, list_records. simpl. by destruct (bucket_pairs _ _). Qed.
Lemma ListBids_generic f : ListBids tx f = List.filter (λ b, matchBid b f) <$> list_records tx.
Proof. unfold ListBids, list_records. simpl. by destruct (bucket_pairs _ _). Qed.
End instances.

(** A bucket that holds exactly the records of [m], each under its own key. *)
Definition encoded {R} `{StoreRecord R} (m : gmap string R) : bucket := (λ r, Text (sr_enc r)) <$> m.

Definition family_wf {R} `{StoreRecord R} (m : gmap string R) : Prop :=
  map_Forall (λ k r, sr_ok r = true ∧ sr_key r = k ∧ (1 ≤ sr_version r)%N ∧ key_fits k = true) m.

Section family.
Context {Tx : Type} `{BoltLaws Tx}.
Context {R : Type} `{StoreRecordLaws R}.
Implicit Types (m : gmap string R) (r : R) (t : Tx).

Lemma Unmarshal_record r : sr_ok r = true → Unmarshal sr_dec (Text (sr_enc r)) sr_zero = Ok r.
Proof. intros Hr. simpl. by rewrite sr_roundtrip. Qed.

Lemma nextRecordVersion_spec m k incoming : family_wf m →
  match next_version (sr_version <$> m !! k) incoming with
  | Some v => nextRecordVersion (encoded m !! k) incoming = Ok v
  | None => ∃ e, nextRecordVersion (encoded m !! k) incoming = Err e
  end.
Proof.
  intros Hwf. unfold encoded. rewrite lookup_fmap. destruct (m !! k) as [r|] eqn:Hr; simpl.
  - destruct (Hwf k r Hr) as (Hok & _ & _). unfold nextRecordVersion.
    cbn [bytes_empty default]. unfold Unmarshal. simpl. rewrite sr_version_dec by done. simpl.
    repeat case_match; simplify_eq; eauto.
  - unfold nextRecordVersion. by destruct (incoming =? 0)%N.
Qed.

Lemma next_version_bounds old incoming v :
  (∀ o, old = Some o → in_u64 o = true) → in_u64 incoming = true →
  next_version old incoming = Some v →
  in_u64 v = true ∧ (1 ≤ v)%N ∧ (∀ o, old = Some o → (o < v)%N) ∧ (incoming ≤ v)%N.
Proof.
  unfold next_version, in_u64, u64_max. intros Ho Hi.
  destruct old as [o|]; [specialize (Ho o eq_refl)|]; repeat case_match; intros [= <-];
    rewrite ?N.leb_le, ?N.ltb_lt, ?N.ltb_ge, ?N.eqb_eq, ?N.eqb_neq in *;
    repeat split; intros; simplify_eq; lia.
Qed.

Lemma family_wf_insert m r v : family_wf m → sr_ok r = true → key_fits (sr_key r) = true →
  next_version (sr_version <$> m !! sr_key r) (sr_version r) = Some v →
  family_wf (<[sr_key r := sr_set_version v r]> m).
Proof.
  intros Hwf Hr Hfit Hv. apply next_version_bounds in Hv as (Hv & Hv1 & _).
  - intros k r' [[<- <-]|[_ Hr']]%lookup_insert_Some; [|by apply Hwf].
    rewrite sr_key_set, sr_version_set. eauto using sr_ok_set.
  - intros o Ho. destruct (m !! sr_key r) as [r0|] eqn:E; simplify_eq/=.
    apply sr_ok_version. by eapply Hwf.
  - by apply sr_ok_version.
Qed.

Lemma encoded_insert m k r : encoded (<[k := r]> m) = <[k := Text (sr_enc r)]> (encoded m).
Proof. unfold encoded. by rewrite fmap_insert. Qed.

(** Storing a record: succeeds when the version can advance and bbolt accepts
    the pair, and then replaces exactly that record. *)
Lemma put_record_ok t m r v :
  view t !! (sr_bucket R) = Some (encoded m) → family_wf m →
  next_version (sr_version <$> m !! sr_key r) (sr_version r) = Some v →
  key_fits (sr_key r) = true → value_fits (Text (sr_enc (sr_set_version v r))) = true →
  ∃ t', put_record t (Some r) = Ok t' ∧
        view t' = <[sr_bucket R := encoded (<[sr_key r := sr_set_version v r]> m)]> (view t).
Proof.
  intros Hb Hwf Hv Hk Hf. unfold put_record. rewrite (bucket_get_view _ _ _ _ Hb). simpl.
  pose proof (nextRecordVersion_spec m (sr_key r) (sr_version r) Hwf) as Hn. rewrite Hv in Hn.
  rewrite Hn. simpl. rewrite encoded_insert. by apply bucket_put_ok.
Qed.

Lemma put_record_inv t t' m r :
  view t !! (sr_bucket R) = Some (encoded m) → family_wf m →
  put_record t (Some r) = Ok t' →
  ∃ v, next_version (sr_version <$> m !! sr_key r) (sr_version r) = Some v ∧ key_fits (sr_key r) = true ∧
       view t' = <[sr_bucket R := encoded (<[sr_key r := sr_set_version v r]> m)]> (view t).
Proof.
  intros Hb Hwf. unfold put_record. rewrite (bucket_get_view _ _ _ _ Hb). simpl.
  pose proof (nextRecordVersion_spec m (sr_key r) (sr_version r) Hwf) as Hn.
  destruct (next_version _ _) as [v|]; [|by destruct Hn as [e ->]].
  rewrite Hn. simpl. intros (b & Hb' & Hk & Hv)%bucket_put_inv. exists v. split_and!; [done..|].
  rewrite Hb in Hb'. simplify_eq. by rewrite encoded_insert.
Qed.

Lemma put_record_no_panic t m o :
  view t !! (sr_bucket R) = Some (encoded m) → family_wf m → put_record t o ≠ Panic.
Proof.
  intros Hb Hwf. destruct o as [r|]; [|done]. unfold put_record.
  rewrite (bucket_get_view _ _ _ _ Hb). simpl.
  pose proof (nextRecordVersion_spec m (sr_key r) (sr_version r) Hwf) as Hn.
  destruct (next_version _ _) as [v|]; [|by destruct Hn as [e ->]].
  rewrite Hn. simpl. by eapply bucket_put_no_panic.
Qed.

Lemma get_record_view t m k : view t !! (sr_bucket R) = Some (encoded m) → family_wf m →
  get_record t k = Ok (m !! k).
Proof.
  intros Hb Hwf. unfold get_record. rewrite (bucket_get_view _ _ _ _ Hb). simpl.
  unfold encoded. rewrite lookup_fmap. destruct (m !! k) as [r|] eqn:Hr; [|done].
  cbn [fmap option_fmap option_map]. rewrite Unmarshal_record; [done|]. by eapply Hwf.
Qed.

(** A scan returns the records in the order of their keys. *)
Definition in_key_order m : list R := (sorted_members m).*2.

Lemma omap_readable (l : list (string * R)) : Forall (λ kr, sr_ok kr.2 = true) l →
  omap (readable sr_dec sr_zero) (prod_map id (λ r, Text (sr_enc r)) <$> l) = l.*2.
Proof.
  induction 1 as [|[k r] l Hr _ IH]; [done|]. csimpl. unfold readable at 1. simpl in Hr.
  cbn [prod_map snd]. by rewrite Unmarshal_record, IH by done.
Qed.

Lemma scan_records t m : view t !! sr_bucket R = Some (encoded m) → family_wf m →
  omap (readable sr_dec sr_zero) (tx_foreach t (sr_bucket R)) = in_key_order m.
Proof.
  intros Hb Hwf. rewrite (foreach_sorted_members _ _ _ Hb). unfold encoded.
  rewrite sorted_members_fmap. apply omap_readable, Forall_forall.
  intros [k r] Hr. apply sorted_members_elem in Hr. by apply Hwf in Hr as (? & _).
Qed.

Lemma list_records_view t m : view t !! sr_bucket R = Some (encoded m) → family_wf m →
  list_records t = Ok (in_key_order m).
Proof.
  intros Hb Hwf. unfold list_records. rewrite (bucket_pairs_view _ _ _ Hb). simpl.
  by rewrite (scan_records t m).
Qed.

Lemma in_key_order_elem m r : r ∈ in_key_order m ↔ ∃ k, m !! k = Some r.
Proof.
  unfold in_key_order. rewrite list_elem_of_fmap. split.
  - intros ([k r'] & -> & Hin). exists k. by apply sorted_members_elem.
  - intros [k Hk]. exists (k, r). by rewrite sorted_members_elem.
Qed.

(** Storing a sequence of records on finite maps, and what the loops of the
    store that put one record after the other do. *)
Fixpoint aputs m (l : list R) : option (gmap string R) :=
  match l with
  | [] => Some m
  | r :: l => v ← next_version (sr_version <$> m !! sr_key r) (sr_version r);
              aputs (<[sr_key r := sr_set_version v r]> m) l
  end.

Lemma put_records_inv (g : R → error → error) l t t' m :
  view t !! sr_bucket R = Some (encoded m) → family_wf m → Forall (λ r, sr_ok r = true) l →
  foldR (λ t r, map_err (g r) (put_record t (Some r))) t l = Ok t' →
  ∃ m', aputs m l = Some m' ∧ family_wf m' ∧ view t' = <[sr_bucket R := encoded m']> (view t).
Proof.
  intros Hb Hwf HF. revert t m Hb Hwf. induction HF as [|r l Hr _ IH]; intros t m Hb Hwf.
  { intros [= ->]. exists m. split_and!; [done..|]. by rewrite insert_id. }
  cbn [foldR]. intros (t1 & Hp%map_err_ok & Hf)%bind_ok.
  apply (put_record_inv _ _ m) in Hp as (v & Hv & Hk & Hview); [|done..].
  destruct (IH t1 (<[sr_key r := sr_set_version v r]> m)) as (m' & Hm' & Hwf' & Hv').
  - rewrite Hview. by rewrite lookup_insert_eq.
  - by apply family_wf_insert.
  - done.
  - exists m'. cbn [aputs]. rewrite Hv. split_and!; [done..|].
    by rewrite Hv', Hview, insert_insert_eq.
Qed.

Lemma put_records_ok (g : R → error → error) l t m m' :
  view t !! sr_bucket R = Some (encoded m) → family_wf m → Forall (λ r, sr_ok r = true) l →
  (∀ r v, r ∈ l → key_fits (sr_key r) = true ∧ value_fits (Text (sr_enc (sr_set_version v r))) = true) →
  aputs m l = Some m' →
  ∃ t', foldR (λ t r, map_err (g r) (put_record t (Some r))) t l = Ok t'.
Proof.
  intros Hb Hwf HF. revert t m Hb Hwf. induction HF as [|r l Hr _ IH]; intros t m Hb Hwf Hfit; [by eauto|].
  cbn [aputs foldR]. intros (v & Hv & Hp)%bind_Some.
  destruct (put_record_ok t m r v) as (t1 & Ht1 & Hview); [done..| | |].
  { apply (Hfit r v). set_solver. }
  { apply (Hfit r v). set_solver. }
  rewrite Ht1. simpl. apply (IH t1 (<[sr_key r := sr_set_version v r]> m)).
  - rewrite Hview. by rewrite lookup_insert_eq.
  - by apply family_wf_insert; [..|apply (Hfit r v); set_solver|].
  - intros ???. apply Hfit. set_solver.
  - done.
Qed.

Lemma put_records_no_panic (g : R → error → error) l t m :
  view t !! sr_bucket R = Some (encoded m) → family_wf m → Forall (λ r, sr_ok r = true) l →
  foldR (λ t r, map_err (g r) (put_record t (Some r))) t l ≠ Panic.
Proof.
  intros Hb Hwf HF. apply (foldR_no_panic _ (λ t, ∃ m, view t !! sr_bucket R = Some (encoded m) ∧ family_wf m)); [..|by eauto].
  - intros s r _ (m0 & Hb0 & Hwf0). rewrite map_err_panic. by eapply put_record_no_panic.
  - intros s r s' Hr (m0 & Hb0 & Hwf0) Hp%map_err_ok. rewrite Forall_forall in HF.
    apply (put_record_inv _ _ m0) in Hp as (v & Hv & Hk & Hview); [|done..].
    eexists. rewrite Hview, lookup_insert_eq. split; [done|]. apply family_wf_insert; eauto.
Qed.

Lemma aputs_frame l m m' k : aputs m l = Some m' → k ∉ sr_key <$> l → m' !! k = m !! k.
Proof.
  revert m. induction l as [|r l IH]; intros m; cbn [aputs]; [by intros [= ->]|].
  intros (v & _ & Hp)%bind_Some Hk. rewrite (IH _ Hp) by set_solver.
  apply lookup_insert_ne. set_solver.
Qed.

Lemma aputs_total l m : NoDup (sr_key <$> l) →
  (∀ r, r ∈ l → is_Some (next_version (sr_version <$> m !! sr_key r) (sr_version r))) →
  is_Some (aputs m l).
Proof.
  revert m. induction l as [|r l IH]; intros m; cbn [aputs]; [by eauto|].
  csimpl. intros [Hn HN]%NoDup_cons Hv. destruct (Hv r) as [v ->]; [set_solver|]. simpl.
  apply IH; [done|]. intros r' Hr'. rewrite lookup_insert_ne; [apply Hv; set_solver|].
  intros E. apply Hn. rewrite E. by apply list_elem_of_fmap_2.
Qed.

Lemma aputs_lookup l m m' r : aputs m l = Some m' → NoDup (sr_key <$> l) → r ∈ l →
  ∃ v, next_version (sr_version <$> m !! sr_key r) (sr_version r) = Some v ∧
       m' !! sr_key r = Some (sr_set_version v r).
Proof.
  revert m. induction l as [|r0 l IH]; intros m; cbn [aputs]; [set_solver|].
  intros (v & Hv & Hp)%bind_Some HN. csimpl in HN. apply NoDup_cons in HN as [Hn HN].
  intros [->|Hin]%elem_of_cons.
  - exists v. split; [done|]. rewrite (aputs_frame _ _ _ _ Hp Hn). by rewrite lookup_insert_eq.
  - destruct (IH _ Hp HN Hin) as (v' & Hv' & Hl). exists v'. split; [|done].
    rewrite lookup_insert_ne in Hv'; [done|]. intros E. apply Hn. rewrite E.
    by apply list_elem_of_fmap_2.
Qed.

(** The records of a well-formed family have distinct keys. *)
Lemma in_key_order_keys m : family_wf m → sr_key <$> in_key_order m = (sorted_members m).*1.
Proof.
  intros Hwf. unfold in_key_order.
  assert (Forall (λ kr, sr_key kr.2 = kr.1) (sorted_members m)) as HF.
  { apply Forall_forall. intros [k r] Hin. apply sorted_members_elem in Hin. by apply Hwf in Hin as (_ & ? & _). }
  induction HF as [|[k r] l Hk _ IH]; [done|]. csimpl. simpl in Hk. by rewrite Hk, IH.
Qed.

Lemma in_key_order_NoDup_keys m : family_wf m → NoDup (sr_key <$> in_key_order m).
Proof.
  intros Hwf. rewrite in_key_order_keys by done. rewrite sorted_members_perm.
  apply NoDup_fst_map_to_list.
Qed.
End family.

(** Storing the records of a well-formed family into an empty bucket, in key
    order, makes that family again: their versions are positive, so they are kept. *)
Lemma aputs_restore {R} `{StoreRecordLaws R} (m : gmap string R) : family_wf m → aputs ∅ (in_key_order m) = Some m.
Proof.
  intros Hwf. pose proof (in_key_order_NoDup_keys m Hwf) as HN.
  assert (∀ r, r ∈ in_key_order m → next_version (sr_version <$> (∅ : gmap string R) !! sr_key r) (sr_version r) = Some (sr_version r)) as Hv.
  { intros r [k Hk]%in_key_order_elem. destruct (Hwf k r Hk) as (_ & _ & Hpos & _). rewrite lookup_empty. simpl.
    by destruct (N.eqb_spec (sr_version r) 0) as [E|]; [rewrite E in Hpos|]. }
  destruct (aputs_total (in_key_order m) ∅ HN) as [m' Hm']; [by eauto|]. rewrite Hm'. f_equal.
  apply map_eq. intros k. destruct (m !! k) as [r|] eqn:Hk.
  - assert (r ∈ in_key_order m) as Hin by (apply in_key_order_elem; eauto).
    destruct (aputs_lookup _ _ _ _ Hm' HN Hin) as (v & Hv' & Hl). rewrite (Hv r Hin) in Hv'. simplify_eq.
    destruct (Hwf k r Hk) as (_ & <- & _). by rewrite Hl, sr_set_same.
  - rewrite (aputs_frame _ _ _ k Hm'), lookup_empty; [done|].
    intros (r & -> & [k' Hk']%in_key_order_elem)%list_elem_of_fmap.
    destruct (Hwf k' r Hk') as (_ & E & _). by rewrite E, Hk' in Hk.
Qed.

(** ** The abstract store *)
Record astore : Type := MkAStore {
  a_deps : gmap string DeploymentRecord;
  a_leases : gmap string LeaseRecord;
  a_bids : gmap string BidRecord;
  a_sync : option SyncState;
  a_schema : N;
}.

Definition empty_astore : astore := MkAStore ∅ ∅ ∅ None currentSchemaVersion.

Definition with_deps (m : gmap string DeploymentRecord) (A : astore) : astore :=
  MkAStore m (a_leases A) (a_bids A) (a_sync A) (a_schema A).
Definition with_leases (m : gmap string LeaseRecord) (A : astore) : astore :=
  MkAStore (a_deps A) m (a_bids A) (a_sync A) (a_schema A).
Definition with_bids (m : gmap string BidRecord) (A : astore) : astore :=
  MkAStore (a_deps A) (a_leases A) m (a_sync A) (a_schema A).
Definition with_sync (s : option SyncState) (A : astore) : astore :=
  MkAStore (a_deps A) (a_leases A) (a_bids A) s (a_schema A).

Record astore_wf (A : astore) : Prop := {
  wf_deps : family_wf (a_deps A);
  wf_leases : family_wf (a_leases A);
  wf_bids : family_wf (a_bids A);
  wf_sync : ∀ s, a_sync A = Some s → sync_state_ok s = true;
  wf_schema : in_u64 (a_schema A) = true;
}.

Definition sync_bucket (s : option SyncState) : bucket :=
  match s with None => ∅ | Some s => {[ keySyncState := Text (enc_sync_state s) ]} end.

Definition meta_bucket (v : N) : bucket := {[ keySchemaVersion := Raw (be64 v) ]}.

(** The buckets of a store: exactly the five that [Open] creates. *)
Definition buckets_of (A : astore) : buckets :=
  <[bucketDeployments := encoded (a_deps A)]> (
  <[bucketLeases := encoded (a_leases A)]> (
  <[bucketBids := encoded (a_bids A)]> (
  <[bucketSync := sync_bucket (a_sync A)]> (
  {[bucketMeta := meta_bucket (a_schema A)]})))).

(** The representation relation. *)
Record store_rep {Tx} `{BoltLaws Tx} (t : Tx) (A : astore) : Prop := {
  rep_view : view t = buckets_of A;
  rep_wf : astore_wf A;
}.
