(* ===== verification/StoreSpec.v ===== *)
(** * The bbolt store implements the abstract store

    For every operation of [StoreOps]: run on a database that represents an
    abstract store, it behaves as the corresponding operation on finite maps
    and leaves a database that represents the new abstract store. *)

From Stdlib Require Import Ascii.
From stdpp Require Import sorting base gmap strings pretty option numbers list.
From S2P Require Import Prelude GoStd GoJson Bolt StoreTypes StoreOps StoreRep.

(** ** Bucket look-ups and updates of a represented store *)
Section buckets.
Implicit Types (A : astore).

Lemma buckets_deps A : buckets_of A !! sr_bucket DeploymentRecord = Some (encoded (a_deps A)).
Proof. reflexivity. Qed.
Lemma buckets_leases A : buckets_of A !! sr_bucket LeaseRecord = Some (encoded (a_leases A)).
Proof. reflexivity. Qed.
Lemma buckets_bids A : buckets_of A !! sr_bucket BidRecord = Some (encoded (a_bids A)).
Proof. reflexivity. Qed.
Lemma buckets_sync A : buckets_of A !! bucketSync = Some (sync_bucket (a_sync A)).
Proof. reflexivity. Qed.
Lemma buckets_meta A : buckets_of A !! bucketMeta = Some (meta_bucket (a_schema A)).
Proof. reflexivity. Qed.
End buckets.

Section updates.
Implicit Types (A : astore).

Lemma buckets_with_deps A m :
  <[sr_bucket DeploymentRecord := encoded m]> (buckets_of A) = buckets_of (with_deps m A).
Proof. reflexivity. Qed.
Lemma buckets_with_leases A m :
  <[sr_bucket LeaseRecord := encoded m]> (buckets_of A) = buckets_of (with_leases m A).
Proof. reflexivity. Qed.
Lemma buckets_with_bids A m :
  <[sr_bucket BidRecord := encoded m]> (buckets_of A) = buckets_of (with_bids m A).
Proof. reflexivity. Qed.
Lemma buckets_with_sync A s :
  <[bucketSync := {[ keySyncState := Text (enc_sync_state s) ]}]> (buckets_of A) = buckets_of (with_sync (Some s) A).
Proof. reflexivity. Qed.
End updates.

Create HintDb astore.
Lemma wf_with_deps A m : astore_wf A → family_wf m → astore_wf (with_deps m A).
Proof. by intros []. Qed.
Lemma wf_with_leases A m : astore_wf A → family_wf m → astore_wf (with_leases m A).
Proof. by intros []. Qed.
Lemma wf_with_bids A m : astore_wf A → family_wf m → astore_wf (with_bids m A).
Proof. by intros []. Qed.
Lemma wf_with_sync A s : astore_wf A → sync_state_ok s = true → astore_wf (with_sync (Some s) A).
Proof. intros [] ?. split; simpl; naive_solver. Qed.
#[export] Hint Resolve wf_with_deps wf_with_leases wf_with_bids wf_with_sync : astore.
#[export] Hint Resolve wf_deps wf_leases wf_bids rep_wf family_wf_insert : astore.

Section ops.
Context {Tx : Type} `{BoltLaws Tx}.
Implicit Types (t db : Tx) (A : astore) (d : DeploymentRecord) (l : LeaseRecord) (b : BidRecord).

Lemma rep_deps t A : store_rep t A → view t !! sr_bucket DeploymentRecord = Some (encoded (a_deps A)).
Proof. intros [-> _]. apply buckets_deps. Qed.
Lemma rep_leases t A : store_rep t A → view t !! sr_bucket LeaseRecord = Some (encoded (a_leases A)).
Proof. intros [-> _]. apply buckets_leases. Qed.
Lemma rep_bids t A : store_rep t A → view t !! sr_bucket BidRecord = Some (encoded (a_bids A)).
Proof. intros [-> _]. apply buckets_bids. Qed.
Lemma rep_sync t A : store_rep t A → view t !! bucketSync = Some (sync_bucket (a_sync A)).
Proof. intros [-> _]. apply buckets_sync. Qed.
Lemma rep_meta t A : store_rep t A → view t !! bucketMeta = Some (meta_bucket (a_schema A)).
Proof. intros [-> _]. apply buckets_meta. Qed.

Lemma rep_wf_deps t A : store_rep t A → family_wf (a_deps A).
Proof. by intros [_ []]. Qed.
Lemma rep_wf_leases t A : store_rep t A → family_wf (a_leases A).
Proof. by intros [_ []]. Qed.
Lemma rep_wf_bids t A : store_rep t A → family_wf (a_bids A).
Proof. by intros [_ []]. Qed.
Lemma rep_wf_schema t A : store_rep t A → in_u64 (a_schema A) = true.
Proof. by intros [_ []]. Qed.
Lemma rep_wf_sync t A s : store_rep t A → a_sync A = Some s → sync_state_ok s = true.
Proof. intros [_ []]; eauto. Qed.
Local Hint Resolve rep_deps rep_leases rep_bids rep_wf rep_wf_deps rep_wf_leases rep_wf_bids
  rep_wf_schema rep_wf_sync : core.

(** ** Reads *)
Lemma GetDeployment_rep db A owner dseq : store_rep db A →
  GetDeployment db owner dseq = Ok (a_deps A !! DeploymentKey owner dseq).
Proof. intros Hr. rewrite GetDeployment_generic. rewrite (get_record_view db (a_deps A)); eauto. Qed.

Lemma GetLease_rep db A id : store_rep db A → GetLease db id = Ok (a_leases A !! LeaseKey id).
Proof. intros Hr. rewrite GetLease_generic. rewrite (get_record_view db (a_leases A)); eauto. Qed.

Lemma GetBid_rep db A id : store_rep db A → GetBid db id = Ok (a_bids A !! BidKey id).
Proof. intros Hr. rewrite GetBid_generic. rewrite (get_record_view db (a_bids A)); eauto. Qed.

Lemma ListDeployments_rep db A f : store_rep db A →
  ListDeployments db f = Ok (List.filter (λ d, matchDeployment d f) (in_key_order (a_deps A))).
Proof.
  intros Hr. rewrite ListDeployments_generic, (list_records_view db (a_deps A)); eauto.
Qed.

Lemma ListLeases_rep db A f : store_rep db A →
  ListLeases db f = Ok (List.filter (λ l, matchLease l f) (in_key_order (a_leases A))).
Proof.
  intros Hr. rewrite ListLeases_generic, (list_records_view db (a_leases A)); eauto.
Qed.

Lemma ListBids_rep db A f : store_rep db A →
  ListBids db f = Ok (List.filter (λ b, matchBid b f) (in_key_order (a_bids A))).
Proof.
  intros Hr. rewrite ListBids_generic, (list_records_view db (a_bids A)); eauto.
Qed.

Lemma GetSyncState_rep db A : store_rep db A → GetSyncState db = Ok (a_sync A).
Proof.
  intros Hr. unfold GetSyncState. rewrite (bucket_get_view _ _ _ _ (rep_sync _ _ Hr)). simpl.
  destruct (a_sync A) as [s|] eqn:E; simpl; [|done].
  assert (sync_state_ok s = true) as Hok by eauto.
  change ({[keySyncState := _]} !! keySyncState) with (Some (Text (enc_sync_state s))).
  cbn [Unmarshal]. by rewrite dec_enc_sync_state.
Qed.

Lemma SchemaVersion_rep db A : store_rep db A → SchemaVersion db = Ok (a_schema A).
Proof.
  intros Hr. unfold SchemaVersion. rewrite (bucket_get_view _ _ _ _ (rep_meta _ _ Hr)). simpl.
  change (meta_bucket (a_schema A) !! keySchemaVersion) with (Some (Raw (be64 (a_schema A)))).
  unfold schema_bytes. cbn [raw_bytes]. rewrite Uint64_be64; eauto.
Qed.

(** ** Single-record writes inside a transaction *)
Lemma putDeploymentTx_rep t t' A d : store_rep t A → deployment_ok d = true →
  putDeploymentTx t (Some d) = Ok t' →
  ∃ v, next_version (d_RecordVersion <$> a_deps A !! DeploymentKey (d_Owner d) (d_DSeq d)) (d_RecordVersion d) = Some v ∧
       store_rep t' (with_deps (<[DeploymentKey (d_Owner d) (d_DSeq d) := set_d_RecordVersion v d]> (a_deps A)) A).
Proof.
  intros Hr Hd. rewrite putDeploymentTx_generic.
  intros (v & Hv & Hk & Hview)%(put_record_inv _ _ (a_deps A)); eauto.
  exists v. split; [done|]. split.
  - rewrite Hview, (rep_view _ _ Hr). apply buckets_with_deps.
  - apply wf_with_deps; [eauto|]. exact (family_wf_insert (a_deps A) d v (rep_wf_deps _ _ Hr) Hd Hk Hv).
Qed.

Lemma putLeaseTx_rep t t' A l : store_rep t A → lease_ok l = true →
  putLeaseTx t (Some l) = Ok t' →
  ∃ v, next_version (l_RecordVersion <$> a_leases A !! LeaseKey (l_ID l)) (l_RecordVersion l) = Some v ∧
       store_rep t' (with_leases (<[LeaseKey (l_ID l) := set_l_RecordVersion v l]> (a_leases A)) A).
Proof.
  intros Hr Hd. rewrite putLeaseTx_generic.
  intros (v & Hv & Hk & Hview)%(put_record_inv _ _ (a_leases A)); eauto.
  exists v. split; [done|]. split.
  - rewrite Hview, (rep_view _ _ Hr). apply buckets_with_leases.
  - apply wf_with_leases; [eauto|]. exact (family_wf_insert (a_leases A) l v (rep_wf_leases _ _ Hr) Hd Hk Hv).
Qed.

Lemma putBidTx_rep t t' A b : store_rep t A → bid_ok b = true →
  putBidTx t (Some b) = Ok t' →
  ∃ v, next_version (b_RecordVersion <$> a_bids A !! BidKey (b_ID b)) (b_RecordVersion b) = Some v ∧
       store_rep t' (with_bids (<[BidKey (b_ID b) := set_b_RecordVersion v b]> (a_bids A)) A).
Proof.
  intros Hr Hd. rewrite putBidTx_generic.
  intros (v & Hv & Hk & Hview)%(put_record_inv _ _ (a_bids A)); eauto.
  exists v. split; [done|]. split.
  - rewrite Hview, (rep_view _ _ Hr). apply buckets_with_bids.
  - apply wf_with_bids; [eauto|]. exact (family_wf_insert (a_bids A) b v (rep_wf_bids _ _ Hr) Hd Hk Hv).
Qed.

Lemma putSyncStateTx_rep t t' A s : store_rep t A → sync_state_ok s = true →
  putSyncStateTx t (Some s) = Ok t' → store_rep t' (with_sync (Some s) A).
Proof.
  intros Hr Hs. unfold putSyncStateTx, putSyncStateTxWithMarshal. simpl.
  intros (bk & Hb & _ & Hview)%bucket_put_inv. split; [|by apply wf_with_sync; eauto].
  rewrite (rep_sync _ _ Hr) in Hb. simplify_eq.
  rewrite Hview, (rep_view _ _ Hr), <- buckets_with_sync. f_equal.
  unfold sync_bucket. destruct (a_sync A); [|done]. by rewrite insert_singleton_eq.
Qed.
End ops.
