(* ===== verification/StoreClose.v ===== *)
(** * MarkDeploymentClosed closes a deployment and its leases in one transaction

    The scan that collects the leases, the writes that follow it, and what both do
    to the abstract store. *)

From Stdlib Require Import Ascii.
From stdpp Require Import sorting base gmap strings pretty option numbers list.
From S2P Require Import Prelude GoStd GoJson Bolt StoreTypes StoreOps StoreRep StoreSpec.

(** The leases of a deployment. *)
Definition lease_of (owner : string) (dseq : N) (l : LeaseRecord) : bool :=
  bool_decide (lid_Owner (l_ID l) = owner) && (lid_DSeq (l_ID l) =? dseq)%N.

(** What closing does to each lease of the store. *)
Definition closed_lease (owner : string) (dseq : N) (closedAt : Z) (l : LeaseRecord) : LeaseRecord :=
  if lease_of owner dseq l
  then set_l_RecordVersion (l_RecordVersion l + 1) (close_lease closedAt l) else l.

(** The record that is closed: the stored one, or a new one. *)
Definition closing_record (A : astore) (owner : string) (dseq : N) (closedAt : Z) : DeploymentRecord :=
  default (set_d_CreatedAt closedAt (set_d_DSeq dseq (set_d_Owner owner zero_deployment)))
    (a_deps A !! DeploymentKey owner dseq).

Lemma close_lease_id at_ l : l_ID (close_lease at_ l) = l_ID l.
Proof. unfold close_lease. destruct l, (negb _ || _); done. Qed.

Lemma close_lease_version at_ l : l_RecordVersion (close_lease at_ l) = l_RecordVersion l.
Proof. unfold close_lease. destruct l, (negb _ || _); done. Qed.

Lemma close_lease_ok at_ l : in_i64 at_ = true → lease_ok l = true → lease_ok (close_lease at_ l) = true.
Proof.
  intros Ha. unfold close_lease. destruct l, (negb _ || _); unfold lease_ok;
    cbn -[utf8_ok in_u64 in_i64 lease_id_ok slice_ok andb]; intros Hl; split_andb; done.
Qed.

Lemma close_deployment_key at_ d : d_Owner (close_deployment at_ d) = d_Owner d ∧ d_DSeq (close_deployment at_ d) = d_DSeq d.
Proof. unfold close_deployment. destruct d, (negb _ || _); done. Qed.

Lemma close_deployment_version at_ d : d_RecordVersion (close_deployment at_ d) = d_RecordVersion d.
Proof. unfold close_deployment. destruct d, (negb _ || _); done. Qed.

Lemma close_deployment_ok at_ d :
  in_i64 at_ = true → deployment_ok d = true → deployment_ok (close_deployment at_ d) = true.
Proof.
  intros Ha. unfold close_deployment. destruct d, (negb _ || _); unfold deployment_ok;
    cbn -[utf8_ok in_u64 in_i64 map_ok slice_ok andb]; intros Hl; split_andb; done.
Qed.

Lemma fresh_record_ok owner dseq at_ :
  utf8_ok owner = true → in_u64 dseq = true → in_i64 at_ = true →
  deployment_ok (set_d_CreatedAt at_ (set_d_DSeq dseq (set_d_Owner owner zero_deployment))) = true.
Proof. intros. unfold deployment_ok. cbn -[utf8_ok in_u64 in_i64 andb]. by split_andb. Qed.

Lemma next_version_same v : (v < u64_max)%N → next_version (Some v) v = Some (v + 1)%N.
Proof.
  intros Hv. unfold next_version. rewrite N.ltb_irrefl.
  by rewrite (proj2 (N.eqb_neq _ _)) by (intros ->; by apply N.lt_irrefl in Hv).
Qed.

(** Rewriting a stored record without choosing a version advances it by one,
    unless it is saturated. *)
Lemma next_version_same_inv v w : in_u64 v = true → next_version (Some v) v = Some w → (v < u64_max)%N ∧ w = (v + 1)%N.
Proof.
  unfold next_version, in_u64. rewrite N.ltb_irrefl, N.leb_le. destruct (N.eqb_spec v u64_max) as [|Hne]; [done|].
  intros Hv [= <-]. split; [|done]. lia.
Qed.

(** The scan collects the closed form of the leases of the deployment, in key order. *)
Lemma collect_leases owner dseq at_ (l : list (string * LeaseRecord)) acc :
  Forall (λ kr, lease_ok kr.2 = true) l →
  foldR (collect_lease owner dseq at_) acc (prod_map id (λ r, Text (enc_lease r)) <$> l) =
  Ok (acc ++ (close_lease at_ <$> List.filter (lease_of owner dseq) l.*2)).
Proof.
  intros HF. revert acc. induction HF as [|[k r] l Hr _ IH]; intros acc; [by csimpl; rewrite app_nil_r|].
  simpl in Hr. pose proof (Unmarshal_record r Hr) as HU.
  rewrite fmap_cons. cbn [foldR]. unfold collect_lease at 2. cbn [prod_map fst snd].
  change (Unmarshal (dec_lease false) (Text (enc_lease r)) zero_lease = Ok r) in HU.
  rewrite HU. cbn [map_err mbind result_bind]. csimpl.
  rewrite <- negb_andb. fold (lease_of owner dseq r).
  destruct (lease_of owner dseq r); cbn [negb mbind result_bind]; rewrite IH; [|done].
  by rewrite <- app_assoc.
Qed.

Lemma NoDup_keys_filter (f : LeaseRecord → bool) l :
  NoDup (sr_key <$> l) → NoDup (sr_key <$> List.filter f l).
Proof.
  induction l as [|x l IH]; [done|]. csimpl. intros [Hx Hl]%NoDup_cons.
  destruct (f x); csimpl; [|by apply IH]. apply NoDup_cons. split; [|by apply IH].
  rewrite list_elem_of_fmap in Hx |- *. intros (y & E & Hy). apply Hx. exists y. split; [done|].
  apply list_elem_of_In. apply list_elem_of_In in Hy. by apply filter_In in Hy as [? _].
Qed.

Lemma close_keys at_ (l : list LeaseRecord) : sr_key <$> (close_lease at_ <$> l) = sr_key <$> l.
Proof. rewrite <- list_fmap_compose. apply list_fmap_ext. intros i x _. simpl. by rewrite close_lease_id. Qed.

(** The closed leases, put back one by one, make exactly [closed_lease <$> m]. *)
Lemma aputs_closed owner dseq at_ (m m' : gmap string LeaseRecord) : family_wf m →
  aputs m (close_lease at_ <$> List.filter (lease_of owner dseq) (in_key_order m)) = Some m' →
  m' = closed_lease owner dseq at_ <$> m.
Proof.
  intros Hwf Hp. set (us := close_lease at_ <$> _) in *.
  assert (NoDup (sr_key <$> us)) as HN.
  { unfold us. rewrite close_keys. apply NoDup_keys_filter. by apply in_key_order_NoDup_keys. }
  assert (∀ l, l ∈ us ↔ ∃ k l0, m !! k = Some l0 ∧ lease_of owner dseq l0 = true ∧ l = close_lease at_ l0) as Hus.
  { intros l. unfold us. rewrite list_elem_of_fmap. setoid_rewrite list_elem_of_In.
    setoid_rewrite filter_In. setoid_rewrite <- list_elem_of_In. setoid_rewrite in_key_order_elem. naive_solver. }
  apply map_eq. intros k. rewrite lookup_fmap. destruct (m !! k) as [l|] eqn:Hk.
  - destruct (Hwf k l Hk) as (_ & Hkey & _). simpl. unfold closed_lease.
    destruct (lease_of owner dseq l) eqn:E.
    + assert (close_lease at_ l ∈ us) as Hin by (apply Hus; eauto).
      destruct (aputs_lookup _ _ _ _ Hp HN Hin) as (v & Hv & Hl). simpl in *.
      rewrite close_lease_id, close_lease_version, Hkey in *. rewrite Hl. do 2 f_equal.
      rewrite Hk in Hv. simpl in Hv. rewrite N.ltb_irrefl in Hv. by case_match; simplify_eq.
    + rewrite (aputs_frame _ _ _ _ Hp); [done|]. rewrite list_elem_of_fmap.
      intros (l' & -> & Hin). apply Hus in Hin as (k' & l0 & Hk' & E' & ->). simpl in *.
      rewrite close_lease_id in Hk. destruct (Hwf k' l0 Hk') as (_ & Hkey' & _). simpl in Hkey'.
      rewrite Hkey', Hk' in Hk. congruence.
  - simpl. rewrite (aputs_frame _ _ _ _ Hp); [done|]. rewrite list_elem_of_fmap.
    intros (l' & -> & Hin). apply Hus in Hin as (k' & l0 & Hk' & E' & ->). simpl in *.
    rewrite close_lease_id in Hk. destruct (Hwf k' l0 Hk') as (_ & Hkey' & _). simpl in Hkey'. congruence.
Qed.

Section close.
Context {Tx : Type} `{BoltLaws Tx}.
Implicit Types (t db : Tx) (A : astore).
Variables (owner : string) (dseq : N) (closedAt : Z).
Hypotheses (Howner : utf8_ok owner = true) (Hdseq : in_u64 dseq = true) (Hat : in_i64 closedAt = true).

Definition closed_deps A (v : N) : gmap string DeploymentRecord :=
  <[DeploymentKey owner dseq :=
      set_d_RecordVersion v (close_deployment closedAt (closing_record A owner dseq closedAt))]> (a_deps A).

Definition closed_store A (v : N) : astore :=
  with_leases (closed_lease owner dseq closedAt <$> a_leases A) (with_deps (closed_deps A v) A).

Lemma closing_record_facts t A : store_rep t A →
  deployment_ok (closing_record A owner dseq closedAt) = true ∧
  DeploymentKey (d_Owner (closing_record A owner dseq closedAt)) (d_DSeq (closing_record A owner dseq closedAt))
  = DeploymentKey owner dseq.
Proof using Howner Hdseq Hat.
  intros Hr. unfold closing_record. destruct (a_deps A !! _) as [d|] eqn:E; cbn [default from_option id].
  - destruct (rep_wf_deps _ _ Hr _ _ E) as (Hok & Hk & _). by rewrite <- Hk.
  - split; [by apply fresh_record_ok|done].
Qed.

(** Reading the stored deployment over the fresh record yields the stored one. *)
Lemma mark_closed_read t A : store_rep t A →
  (data ← bucket_get t bucketDeployments (DeploymentKey owner dseq);
   match data with
   | None => Ok (set_d_CreatedAt closedAt (set_d_DSeq dseq (set_d_Owner owner zero_deployment)))
   | Some data => map_err (Wrapf "unmarshal deployment: %w" [])
       (Unmarshal (dec_deployment false) data (set_d_CreatedAt closedAt (set_d_DSeq dseq (set_d_Owner owner zero_deployment))))
   end) = Ok (closing_record A owner dseq closedAt).
Proof using.
  intros Hr. rewrite (bucket_get_view _ _ _ _ (rep_deps _ _ Hr)). cbn [mbind result_bind].
  unfold encoded, closing_record. rewrite lookup_fmap.
  destruct (a_deps A !! _) as [d|] eqn:E; [|done]. cbn [fmap option_fmap option_map default from_option id].
  destruct (rep_wf_deps _ _ Hr _ _ E) as (Hok & _). unfold Unmarshal.
  change (sr_enc d) with (enc_deployment d). by rewrite dec_enc_deployment.
Qed.

Definition lease_updates A : list LeaseRecord :=
  close_lease closedAt <$> List.filter (lease_of owner dseq) (in_key_order (a_leases A)).

Lemma lease_updates_ok t A : store_rep t A → Forall (λ r, sr_ok r = true) (lease_updates A).
Proof using Hat.
  intros Hr. unfold lease_updates. apply Forall_forall. intros l (l0 & -> & Hin)%list_elem_of_fmap.
  apply list_elem_of_In, filter_In in Hin as [Hin%list_elem_of_In _].
  apply in_key_order_elem in Hin as [k Hk].
  destruct (rep_wf_leases _ _ Hr _ _ Hk) as (Hok & _). by apply close_lease_ok.
Qed.

Lemma mark_closed_scan t A : store_rep t A →
  (pairs ← bucket_pairs t bucketLeases; foldR (collect_lease owner dseq closedAt) [] pairs)
  = Ok (lease_updates A).
Proof using.
  intros Hr. change bucketLeases with (sr_bucket LeaseRecord).
  rewrite (bucket_pairs_view _ _ _ (rep_leases _ _ Hr)). cbn [mbind result_bind].
  rewrite (foreach_sorted_members _ _ _ (rep_leases _ _ Hr)). unfold encoded.
  rewrite sorted_members_fmap. rewrite collect_leases; [done|].
  apply Forall_forall. intros [k r] Hk. apply sorted_members_elem in Hk.
  by destruct (rep_wf_leases _ _ Hr _ _ Hk) as (Hok & _).
Qed.

(** The transaction in terms of its three stages. *)
Lemma mark_closed_tx_stages t A : store_rep t A →
  mark_closed_tx owner dseq closedAt t =
  (t1 ← map_err (Wrapf "store deployment: %w" [])
          (putDeploymentTx t (Some (close_deployment closedAt (closing_record A owner dseq closedAt))));
   updates ← (pairs ← bucket_pairs t1 bucketLeases; foldR (collect_lease owner dseq closedAt) [] pairs);
   foldR (λ t l, map_err (Wrapf "store lease %s: %w" [LeaseKey (l_ID l)]) (putLeaseTx t (Some l))) t1 updates).
Proof using.
  intros Hr. pose proof (mark_closed_read t A Hr) as HR. unfold mark_closed_tx.
  destruct (bucket_get t bucketDeployments _) as [data| |]; cbn [mbind result_bind] in *; [|done..].
  rewrite HR. cbn [mbind result_bind].
  destruct (map_err _ (putDeploymentTx _ _)) as [t1| |]; cbn [mbind result_bind]; [|done..].
  by destruct (bucket_pairs t1 bucketLeases).
Qed.

Lemma put_leases_generic us t :
  foldR (λ t l, map_err (Wrapf "store lease %s: %w" [LeaseKey (l_ID l)]) (putLeaseTx t (Some l))) t us =
  foldR (λ t l, map_err (Wrapf "store lease %s: %w" [LeaseKey (l_ID l)]) (put_record t (Some l))) t us.
Proof using. done. Qed.

Lemma mark_closed_tx_rep t t' A : store_rep t A → mark_closed_tx owner dseq closedAt t = Ok t' →
  ∃ v, next_version (d_RecordVersion <$> a_deps A !! DeploymentKey owner dseq)
         (d_RecordVersion (closing_record A owner dseq closedAt)) = Some v ∧
       store_rep t' (closed_store A v).
Proof using Howner Hdseq Hat.
  intros Hr. rewrite (mark_closed_tx_stages t A Hr).
  intros (t1 & Hp%map_err_ok & (us & Hus & Hf)%bind_ok)%bind_ok.
  destruct (closing_record_facts t A Hr) as [Hok Hkey].
  destruct (close_deployment_key closedAt (closing_record A owner dseq closedAt)) as [Ho Hd].
  apply (putDeploymentTx_rep _ _ A) in Hp as (v & Hv & Hr1); [|done|by apply close_deployment_ok].
  rewrite Ho, Hd, Hkey in Hv, Hr1. rewrite close_deployment_version in Hv. exists v. split; [done|].
  rewrite (mark_closed_scan _ _ Hr1) in Hus. simplify_eq.
  rewrite put_leases_generic in Hf.
  apply (put_records_inv (λ l, Wrapf "store lease %s: %w" [LeaseKey (l_ID l)]) _ _ _ (a_leases A)) in Hf
    as (m' & Hm' & Hwf' & Hview); [|apply (rep_leases _ _ Hr1)|apply (rep_wf_leases _ _ Hr)|apply (lease_updates_ok _ _ Hr1)].
  apply aputs_closed in Hm' as ->; [|apply (rep_wf_leases _ _ Hr)]. split.
  - rewrite Hview, (rep_view _ _ Hr1). apply buckets_with_leases.
  - apply wf_with_leases; [by apply (rep_wf _ _ Hr1)|done].
Qed.

Lemma lease_updates_keys t A : store_rep t A → NoDup (sr_key <$> lease_updates A).
Proof using.
  intros Hr. unfold lease_updates. rewrite close_keys.
  apply NoDup_keys_filter, in_key_order_NoDup_keys, (rep_wf_leases _ _ Hr).
Qed.

Lemma lease_updates_elem A l : l ∈ lease_updates A ↔
  ∃ k l0, a_leases A !! k = Some l0 ∧ lease_of owner dseq l0 = true ∧ l = close_lease closedAt l0.
Proof using.
  unfold lease_updates. rewrite list_elem_of_fmap. setoid_rewrite list_elem_of_In.
  setoid_rewrite filter_In. setoid_rewrite <- list_elem_of_In. setoid_rewrite in_key_order_elem. naive_solver.
Qed.

(** Every version involved can still advance. *)
Definition can_close A : Prop :=
  (∀ d, a_deps A !! DeploymentKey owner dseq = Some d → (d_RecordVersion d < u64_max)%N) ∧
  (∀ k l, a_leases A !! k = Some l → lease_of owner dseq l = true → (l_RecordVersion l < u64_max)%N).

Lemma lease_updates_total t A : store_rep t A → can_close A → is_Some (aputs (a_leases A) (lease_updates A)).
Proof using.
  intros Hr [_ Hc]. apply aputs_total; [by eapply lease_updates_keys|].
  intros l (k & l0 & Hk & Hof & ->)%lease_updates_elem. simpl.
  rewrite close_lease_id, close_lease_version.
  destruct (rep_wf_leases _ _ Hr _ _ Hk) as (_ & Hkey & _). simpl in Hkey. rewrite Hkey, Hk.
  eexists. apply next_version_same. by eapply Hc.
Qed.

Lemma closing_version A : can_close A →
  ∃ v, next_version (d_RecordVersion <$> a_deps A !! DeploymentKey owner dseq)
         (d_RecordVersion (closing_record A owner dseq closedAt)) = Some v.
Proof using.
  intros [Hc _]. unfold closing_record. destruct (a_deps A !! _) as [d|] eqn:E; [|by eauto].
  eexists. apply next_version_same. by apply Hc.
Qed.

Lemma mark_closed_tx_total `{!BoltHealthy Tx} t A : store_rep t A → can_close A →
  key_fits (DeploymentKey owner dseq) = true → ∃ t', mark_closed_tx owner dseq closedAt t = Ok t'.
Proof using Howner Hdseq Hat.
  intros Hr Hc Hfit. rewrite (mark_closed_tx_stages t A Hr).
  destruct (closing_record_facts t A Hr) as [Hok Hkey]. destruct (closing_version A Hc) as [v Hv].
  set (r := close_deployment closedAt (closing_record A owner dseq closedAt)).
  assert (sr_key r = DeploymentKey owner dseq) as Hkr.
  { simpl. unfold r. destruct (close_deployment_key closedAt (closing_record A owner dseq closedAt)) as [-> ->]. done. }
  destruct (put_record_ok t (a_deps A) r v) as (t1 & Ht1 & Hview);
    [apply (rep_deps _ _ Hr)|apply (rep_wf_deps _ _ Hr)| |by rewrite Hkr|apply healthy_value|].
  { rewrite Hkr. simpl. unfold r. by rewrite close_deployment_version. }
  change (putDeploymentTx t (Some r) = Ok t1) in Ht1. rewrite Ht1. cbn [map_err mbind result_bind].
  apply (putDeploymentTx_rep _ _ A) in Ht1 as (v' & _ & Hr1); [|done|by apply close_deployment_ok].
  rewrite (mark_closed_scan _ _ Hr1). cbn [mbind result_bind].
  destruct (lease_updates_total t A Hr Hc) as [m' Hm'].
  rewrite put_leases_generic.
  apply (put_records_ok (λ l, Wrapf "store lease %s: %w" [LeaseKey (l_ID l)]) _ _ (a_leases A) m');
    [apply (rep_leases _ _ Hr1)|apply (rep_wf_leases _ _ Hr)|apply (lease_updates_ok _ _ Hr1)| |done].
  intros l v0 (k & l0 & Hk & _ & ->)%lease_updates_elem. split; [|apply healthy_value]. simpl.
  rewrite close_lease_id. by destruct (rep_wf_leases _ _ Hr _ _ Hk) as (_ & <- & _ & ?).
Qed.
End close.
