(* ===== verification/StoreRun.v ===== *)
(** * Histories of the store

    The mutating operations of [BoltStore] as one step function, the abstract
    step relation they implement, and what holds of every history: opening,
    deleting, no panics, the invariant of reachable databases. *)

From Stdlib Require Import Ascii.
From stdpp Require Import sorting base gmap strings pretty option numbers list.
From S2P Require Import Prelude GoStd GoJson Bolt StoreTypes StoreOps StoreRep StoreSpec StoreClose.

(** ** Operations *)
Inductive op : Type :=
| OpPutDeployment (d : option DeploymentRecord)
| OpPutLease (l : option LeaseRecord)
| OpPutBid (b : option BidRecord)
| OpDeleteDeployment (owner : string) (dseq : N)
| OpDeleteLease (id : LeaseID)
| OpMarkDeploymentClosed (owner : string) (dseq : N) (closedAt : Z)
| OpPutSyncState (s : option SyncState).

Definition run_op {Tx} `{BoltOps Tx} (db : Tx) (o : op) : Tx * result unit :=
  match o with
  | OpPutDeployment d => PutDeployment db d
  | OpPutLease l => PutLease db l
  | OpPutBid b => PutBid db b
  | OpDeleteDeployment owner dseq => DeleteDeployment db owner dseq
  | OpDeleteLease id => DeleteLease db id
  | OpMarkDeploymentClosed owner dseq at_ => MarkDeploymentClosed db owner dseq at_
  | OpPutSyncState s => PutSyncState db s
  end.

Definition run_ops {Tx} `{BoltOps Tx} (db : Tx) (l : list op) : Tx :=
  foldl (λ db o, (run_op db o).1) db l.

(** The arguments are values of their Go types, with well-formed UTF-8. *)
Definition op_ok (o : op) : bool :=
  match o with
  | OpPutDeployment d => from_option deployment_ok true d
  | OpPutLease l => from_option lease_ok true l
  | OpPutBid b => from_option bid_ok true b
  | OpMarkDeploymentClosed owner dseq at_ => utf8_ok owner && in_u64 dseq && in_i64 at_
  | OpPutSyncState s => from_option sync_state_ok true s
  | _ => true
  end.

(** ** The abstract step: what a successful operation does to the finite maps *)
Inductive astep (A : astore) : op → astore → Prop :=
| astep_deployment d v :
    next_version (d_RecordVersion <$> a_deps A !! DeploymentKey (d_Owner d) (d_DSeq d)) (d_RecordVersion d) = Some v →
    astep A (OpPutDeployment (Some d))
      (with_deps (<[DeploymentKey (d_Owner d) (d_DSeq d) := set_d_RecordVersion v d]> (a_deps A)) A)
| astep_lease l v :
    next_version (l_RecordVersion <$> a_leases A !! LeaseKey (l_ID l)) (l_RecordVersion l) = Some v →
    astep A (OpPutLease (Some l))
      (with_leases (<[LeaseKey (l_ID l) := set_l_RecordVersion v l]> (a_leases A)) A)
| astep_bid b v :
    next_version (b_RecordVersion <$> a_bids A !! BidKey (b_ID b)) (b_RecordVersion b) = Some v →
    astep A (OpPutBid (Some b))
      (with_bids (<[BidKey (b_ID b) := set_b_RecordVersion v b]> (a_bids A)) A)
| astep_delete_deployment owner dseq :
    astep A (OpDeleteDeployment owner dseq) (with_deps (delete (DeploymentKey owner dseq) (a_deps A)) A)
| astep_delete_lease id :
    astep A (OpDeleteLease id) (with_leases (delete (LeaseKey id) (a_leases A)) A)
| astep_close owner dseq at_ v :
    owner ≠ EmptyString → dseq ≠ 0%N → can_close owner dseq A →
    next_version (d_RecordVersion <$> a_deps A !! DeploymentKey owner dseq)
      (d_RecordVersion (closing_record A owner dseq at_)) = Some v →
    astep A (OpMarkDeploymentClosed owner dseq at_) (closed_store owner dseq at_ A v)
| astep_sync s :
    astep A (OpPutSyncState (Some s)) (with_sync (Some s) A).

(** ** Deleting *)
Lemma family_wf_delete {R} `{StoreRecord R} (m : gmap string R) k : family_wf m → family_wf (delete k m).
Proof. intros Hwf k' r [_ Hr]%lookup_delete_Some. by apply Hwf. Qed.

Section run.
Context {Tx : Type} `{BoltLaws Tx}.
Implicit Types (t db : Tx) (A : astore).

Lemma delete_deployment_rep db A owner dseq : store_rep db A →
  ∃ t, bucket_delete db bucketDeployments (DeploymentKey owner dseq) = Ok t ∧
       store_rep t (with_deps (delete (DeploymentKey owner dseq) (a_deps A)) A).
Proof.
  intros Hr. destruct (bucket_delete_view db _ _ (DeploymentKey owner dseq) (rep_deps _ _ Hr)) as (t & Ht & Hv).
  exists t. split; [done|]. split; [|apply wf_with_deps, family_wf_delete, (rep_wf_deps _ _ Hr); apply (rep_wf _ _ Hr)].
  rewrite Hv, (rep_view _ _ Hr), <- buckets_with_deps. unfold encoded. by rewrite fmap_delete.
Qed.

Lemma delete_lease_rep db A id : store_rep db A →
  ∃ t, bucket_delete db bucketLeases (LeaseKey id) = Ok t ∧
       store_rep t (with_leases (delete (LeaseKey id) (a_leases A)) A).
Proof.
  intros Hr. destruct (bucket_delete_view db _ _ (LeaseKey id) (rep_leases _ _ Hr)) as (t & Ht & Hv).
  exists t. split; [done|]. split; [|apply wf_with_leases, family_wf_delete, (rep_wf_leases _ _ Hr); apply (rep_wf _ _ Hr)].
  rewrite Hv, (rep_view _ _ Hr), <- buckets_with_leases. unfold encoded. by rewrite fmap_delete.
Qed.

(** The guard of [MarkDeploymentClosed] and the transaction behind it. *)
Lemma MarkDeploymentClosed_ok db db' owner dseq at_ :
  MarkDeploymentClosed db owner dseq at_ = (db', Ok tt) →
  owner ≠ EmptyString ∧ dseq ≠ 0%N ∧ mark_closed_tx owner dseq at_ db = Ok db' ∧ tx_commit db' = None.
Proof.
  unfold MarkDeploymentClosed. case_bool_decide; [done|]. cbn [orb].
  destruct (N.eqb_spec dseq 0); [done|]. intros [Ht Hc]%db_Update_ok. done.
Qed.

(** A close that went through could have: its versions could advance. *)
Lemma mark_closed_can_close t t' A owner dseq at_ : store_rep t A → utf8_ok owner = true →
  in_u64 dseq = true → in_i64 at_ = true →
  mark_closed_tx owner dseq at_ t = Ok t' → can_close owner dseq A.
Proof.
  intros Hr Ho Hd Ha. rewrite (mark_closed_tx_stages owner dseq at_ t A Hr).
  intros (t1 & Hp%map_err_ok & (us & Hus & Hf)%bind_ok)%bind_ok.
  apply (putDeploymentTx_rep _ _ A) in Hp as (v & Hv & Hr1); [|done|apply close_deployment_ok; [done|]; by eapply closing_record_facts].
  rewrite (mark_closed_scan _ _ _ _ _ Hr1) in Hus. simplify_eq. rewrite put_leases_generic in Hf.
  apply (put_records_inv (λ l, Wrapf "store lease %s: %w" [LeaseKey (l_ID l)]) _ _ _ (a_leases A)) in Hf
    as (m' & Hm' & _); [|apply (rep_leases _ _ Hr1)|apply (rep_wf_leases _ _ Hr)|by apply (lease_updates_ok _ _ _ Ha _ _ Hr1)].
  destruct (close_deployment_key at_ (closing_record A owner dseq at_)) as [Ho' Hd'].
  destruct (closing_record_facts owner dseq at_ Ho Hd Ha t A Hr) as [_ Hkey].
  split.
  - intros d E. rewrite Ho', Hd', Hkey, close_deployment_version, E in Hv. unfold closing_record in Hv.
    rewrite E in Hv. apply next_version_same_inv in Hv as [? _]; [done|].
    destruct (rep_wf_deps _ _ Hr _ _ E) as [Hok _]. exact (sr_ok_version d Hok).
  - intros k l Hk Hof. assert (close_lease at_ l ∈ lease_updates owner dseq at_ A) as Hin
      by (apply lease_updates_elem; eauto).
    destruct (aputs_lookup _ _ _ _ Hm' (lease_updates_keys _ _ _ _ _ Hr) Hin) as (v' & Hv' & _).
    simpl in Hv'. rewrite close_lease_id, close_lease_version in Hv'.
    destruct (rep_wf_leases _ _ Hr _ _ Hk) as (_ & Hkl & _). simpl in Hkl. rewrite Hkl, Hk in Hv'.
    apply next_version_same_inv in Hv' as [? _]; [done|].
    destruct (rep_wf_leases _ _ Hr _ _ Hk) as [Hok _]. exact (sr_ok_version l Hok).
Qed.

(** ** No operation panics on a represented store *)
Lemma mark_closed_no_panic t A owner dseq at_ : store_rep t A → utf8_ok owner = true →
  in_u64 dseq = true → in_i64 at_ = true → mark_closed_tx owner dseq at_ t ≠ Panic.
Proof.
  intros Hr Ho Hd Ha. rewrite (mark_closed_tx_stages owner dseq at_ t A Hr).
  destruct (putDeploymentTx t _) as [t1| |] eqn:Hp; cbn [map_err mbind result_bind]; [|done|].
  - apply (putDeploymentTx_rep _ _ A) in Hp as (v & Hv & Hr1);
      [|done|apply close_deployment_ok; [done|]; by eapply closing_record_facts].
    rewrite (mark_closed_scan _ _ _ _ _ Hr1). cbn [mbind result_bind]. rewrite put_leases_generic.
    apply (put_records_no_panic (λ l, Wrapf "store lease %s: %w" [LeaseKey (l_ID l)]) _ _ (a_leases A));
      [apply (rep_leases _ _ Hr1)|apply (rep_wf_leases _ _ Hr)|by apply (lease_updates_ok _ _ _ Ha _ _ Hr1)].
  - rewrite putDeploymentTx_generic in Hp. by apply (put_record_no_panic t (a_deps A)) in Hp;
      [|apply (rep_deps _ _ Hr)|apply (rep_wf_deps _ _ Hr)].
Qed.

Lemma run_op_no_panic db A o : store_rep db A → op_ok o = true → (run_op db o).2 ≠ Panic.
Proof.
  intros Hr Ho. destruct o as [d|l|b|owner dseq|id|owner dseq at_|s]; cbn [run_op];
    [| | | | |unfold MarkDeploymentClosed; destruct (_ || _); [done|]|]; apply db_Update_panic.
  - rewrite putDeploymentTx_generic. eapply put_record_no_panic; [apply (rep_deps _ _ Hr)|apply (rep_wf_deps _ _ Hr)].
  - rewrite putLeaseTx_generic. eapply put_record_no_panic; [apply (rep_leases _ _ Hr)|apply (rep_wf_leases _ _ Hr)].
  - rewrite putBidTx_generic. eapply put_record_no_panic; [apply (rep_bids _ _ Hr)|apply (rep_wf_bids _ _ Hr)].
  - by destruct (delete_deployment_rep db A owner dseq Hr) as (t & -> & _).
  - by destruct (delete_lease_rep db A id Hr) as (t & -> & _).
  - simpl in Ho. split_andb. by eapply mark_closed_no_panic.
  - destruct s as [s|]; [|done]. simpl. eapply bucket_put_no_panic, (rep_sync _ _ Hr).
Qed.

(** ** Simulation: a successful operation is an abstract step *)
Lemma run_op_sim db db' A o : store_rep db A → op_ok o = true →
  run_op db o = (db', Ok tt) → ∃ A', astep A o A' ∧ store_rep db' A'.
Proof.
  intros Hr Ho. destruct o as [[d|]|[l|]|[b|]|owner dseq|id|owner dseq at_|[s|]]; cbn [run_op];
    intros Hc; try (unfold PutDeployment, PutLease, PutBid, DeleteDeployment, DeleteLease, PutSyncState in Hc;
                    apply db_Update_ok in Hc as [Hp _]); simpl in Ho; try done.
  - apply (putDeploymentTx_rep _ _ A) in Hp as (v & Hv & Hr'); [|done..]. eauto using astep.
  - apply (putLeaseTx_rep _ _ A) in Hp as (v & Hv & Hr'); [|done..]. eauto using astep.
  - apply (putBidTx_rep _ _ A) in Hp as (v & Hv & Hr'); [|done..]. eauto using astep.
  - destruct (delete_deployment_rep db A owner dseq Hr) as (t & Ht & Hr'). rewrite Ht in Hp. simplify_eq.
    eauto using astep.
  - destruct (delete_lease_rep db A id Hr) as (t & Ht & Hr'). rewrite Ht in Hp. simplify_eq. eauto using astep.
  - apply MarkDeploymentClosed_ok in Hc as (Hne & Hnz & Ht & _). simpl in Ho. split_andb.
    destruct (mark_closed_tx_rep owner dseq at_ ltac:(done) ltac:(done) ltac:(done) db db' A Hr Ht) as (v & Hv & Hr').
    assert (can_close owner dseq A) by by eapply mark_closed_can_close. eauto using astep.
  - apply (putSyncStateTx_rep _ _ A) in Hp; eauto using astep.
Qed.

(** The key an operation writes to. *)
Definition op_key (o : op) : option string :=
  match o with
  | OpPutDeployment (Some d) => Some (DeploymentKey (d_Owner d) (d_DSeq d))
  | OpPutLease (Some l) => Some (LeaseKey (l_ID l))
  | OpPutBid (Some b) => Some (BidKey (b_ID b))
  | OpMarkDeploymentClosed owner dseq _ => Some (DeploymentKey owner dseq)
  | _ => None
  end.

Lemma put_healthy {R} `{StoreRecordLaws R} `{!BoltHealthy Tx} db (m : gmap string R) r v f :
  f db = put_record db (Some r) → view db !! sr_bucket R = Some (encoded m) → family_wf m →
  next_version (sr_version <$> m !! sr_key r) (sr_version r) = Some v → key_fits (sr_key r) = true →
  ∃ db', db_Update db f = (db', Ok tt).
Proof.
  intros Hf Hb Hwf Hv Hk.
  destruct (put_record_ok db m r v Hb Hwf Hv Hk (healthy_value _)) as (t & Ht & _).
  exists t. apply db_Update_healthy. by rewrite Hf.
Qed.

(** Progress: an abstract step can be taken, on a database that has room. *)
Lemma run_op_progress `{!BoltHealthy Tx} db A A' o : store_rep db A → op_ok o = true → astep A o A' →
  (∀ k, op_key o = Some k → key_fits k = true) → ∃ db', run_op db o = (db', Ok tt).
Proof.
  intros Hr Ho Hs Hk. destruct Hs as [d v Hv|l v Hv|b v Hv|owner dseq|id|owner dseq at_ v Hne Hnz Hc Hv|s]; cbn [run_op].
  - apply (put_healthy db (a_deps A) d v); [apply putDeploymentTx_generic|eauto using rep_deps, rep_wf_deps..|by apply Hk].
  - apply (put_healthy db (a_leases A) l v); [apply putLeaseTx_generic|eauto using rep_leases, rep_wf_leases..|by apply Hk].
  - apply (put_healthy db (a_bids A) b v); [apply putBidTx_generic|eauto using rep_bids, rep_wf_bids..|by apply Hk].
  - destruct (delete_deployment_rep db A owner dseq Hr) as (t & Ht & _). exists t. by apply db_Update_healthy.
  - destruct (delete_lease_rep db A id Hr) as (t & Ht & _). exists t. by apply db_Update_healthy.
  - simpl in Ho. split_andb. unfold MarkDeploymentClosed.
    rewrite (bool_decide_eq_false_2 _ Hne), (proj2 (N.eqb_neq _ _) Hnz). cbn [orb].
    destruct (mark_closed_tx_total owner dseq at_ ltac:(done) ltac:(done) ltac:(done) db A Hr Hc) as (t & Ht); [by apply Hk|].
    exists t. by apply db_Update_healthy.
  - destruct (bucket_put_ok db bucketSync _ keySyncState (Text (enc_sync_state s)) (rep_sync _ _ Hr)) as (t & Ht & _);
      [done|apply healthy_value|]. exists t. by apply db_Update_healthy.
Qed.

(** A failed operation changes nothing. *)
Lemma run_op_atomic db db' o r : run_op db o = (db', r) → r ≠ Ok tt → db' = db.
Proof.
  destruct o; cbn [run_op]; try apply db_Update_atomic.
  unfold MarkDeploymentClosed. destruct (_ || _); [by intros [= <- _]|apply db_Update_atomic].
Qed.

Lemma run_op_rep db A o : store_rep db A → op_ok o = true →
  ∃ A', store_rep (run_op db o).1 A' ∧ (A' = A ∨ astep A o A').
Proof.
  intros Hr Ho. destruct (run_op db o) as [db' r] eqn:E. destruct (decide (r = Ok tt)) as [->|Hne].
  - destruct (run_op_sim _ _ _ _ Hr Ho E) as (A' & Hs & Hr'). eauto.
  - rewrite (run_op_atomic _ _ _ _ E Hne). eauto.
Qed.

(** ** Opening *)
Lemma create_buckets t l : Forall (λ n, n ≠ EmptyString) l →
  ∃ t', foldR (λ tx name, map_err (Wrapf "create bucket %s: %w" [name]) (tx_create_if_absent tx name)) t l = Ok t' ∧
    view t' = foldl (λ m n, match m !! n with Some _ => m | None => <[n := ∅]> m end) (view t) l.
Proof.
  intros HF. revert t. induction HF as [|n l Hn _ IH]; intros t; [by eauto|]. cbn [foldR foldl].
  destruct (law_create_if_absent t n Hn) as (t1 & -> & Hv1). cbn [map_err mbind result_bind].
  destruct (IH t1) as (t' & -> & Hv'). rewrite Hv1 in Hv'. eauto.
Qed.

Lemma open_buckets t : ∃ t',
  foldR (λ tx name, map_err (Wrapf "create bucket %s: %w" [name]) (tx_create_if_absent tx name))
    t [bucketDeployments; bucketLeases; bucketBids; bucketSync; bucketMeta] = Ok t' ∧
  view t' = foldl (λ m n, match m !! n with Some _ => m | None => <[n := ∅]> m end) (view t)
              [bucketDeployments; bucketLeases; bucketBids; bucketSync; bucketMeta].
Proof. apply create_buckets. by repeat constructor. Qed.

Lemma open_existing db A : store_rep db A → ∃ t, open_tx db = Ok t ∧ store_rep t A.
Proof.
  intros Hr. unfold open_tx. destruct (open_buckets db) as (t & -> & Hv). rewrite (rep_view _ _ Hr) in Hv.
  change (view t = buckets_of A) in Hv. exists t. cbn [mbind result_bind].
  rewrite (bucket_get_view _ _ (meta_bucket (a_schema A))) by by rewrite Hv.
  split; [done|]. split; [done|apply (rep_wf _ _ Hr)].
Qed.

Lemma astore_wf_empty : astore_wf empty_astore.
Proof. by split. Qed.

Lemma open_fresh `{!BoltHealthy Tx} db : view db = ∅ → ∃ t, open_tx db = Ok t ∧ store_rep t empty_astore.
Proof.
  intros Hdb. unfold open_tx. destruct (open_buckets db) as (t & -> & Hv). rewrite Hdb in Hv.
  cbn [mbind result_bind]. rewrite (bucket_get_view _ _ ∅) by by rewrite Hv.
  destruct (bucket_put_ok t bucketMeta ∅ keySchemaVersion (Raw (be64 currentSchemaVersion))) as (t' & -> & Hv');
    [by rewrite Hv|done|apply healthy_value|].
  exists t'. split; [done|]. split; [|apply astore_wf_empty]. rewrite Hv', Hv. reflexivity.
Qed.

(** ** Histories *)
Lemma run_ops_rep db A l : store_rep db A → Forall (λ o, op_ok o = true) l →
  ∃ A', store_rep (run_ops db l) A'.
Proof.
  intros Hr HF. revert db A Hr. induction HF as [|o l Ho _ IH]; intros db A Hr; [by eauto|].
  destruct (run_op_rep db A o Hr Ho) as (A' & Hr' & _). by eapply IH.
Qed.
End run.

(** ** Versions along a history *)

(** [m'] follows [m] without deletions: every record is still there and, if it
    is not the same, has a larger version. *)
Definition versions_advance {R} `{StoreRecord R} (m m' : gmap string R) : Prop :=
  ∀ k r, m !! k = Some r → ∃ r', m' !! k = Some r' ∧ (r' = r ∨ (sr_version r < sr_version r')%N).

#[global] Instance versions_advance_refl {R} `{StoreRecord R} : Reflexive (@versions_advance R _).
Proof. intros m k r. eauto. Qed.

#[global] Instance versions_advance_trans {R} `{StoreRecord R} : Transitive (@versions_advance R _).
Proof.
  intros m1 m2 m3 H12 H23 k r Hr. destruct (H12 k r Hr) as (r2 & Hr2 & D2).
  destruct (H23 k r2 Hr2) as (r3 & Hr3 & D3). exists r3. split; [done|].
  destruct D2 as [->|], D3 as [->|]; auto. right. by etrans.
Qed.

Lemma versions_advance_insert {R} `{StoreRecordLaws R} (m : gmap string R) r v : family_wf m → sr_ok r = true →
  next_version (sr_version <$> m !! sr_key r) (sr_version r) = Some v →
  versions_advance m (<[sr_key r := sr_set_version v r]> m).
Proof.
  intros Hwf Hr Hv k r0 Hr0. destruct (decide (k = sr_key r)) as [->|Hne].
  - rewrite lookup_insert_eq. eexists. split; [done|]. right. rewrite sr_version_set.
    apply next_version_bounds in Hv as (_ & _ & Hlt & _); [apply Hlt; by rewrite Hr0| |by apply sr_ok_version].
    intros o Ho. rewrite Hr0 in Ho. simplify_eq/=. apply sr_ok_version. by eapply Hwf.
  - rewrite lookup_insert_ne by done. eauto.
Qed.

Lemma versions_advance_closed owner dseq at_ (m : gmap string LeaseRecord) :
  versions_advance m (closed_lease owner dseq at_ <$> m).
Proof.
  intros k l Hl. rewrite lookup_fmap, Hl. eexists. split; [done|]. unfold closed_lease.
  destruct (lease_of owner dseq l); [right|by left].
  change (l_RecordVersion l < l_RecordVersion (set_l_RecordVersion (l_RecordVersion l + 1) (close_lease at_ l)))%N.
  destruct (close_lease at_ l). simpl. lia.
Qed.

Definition is_delete (o : op) : bool :=
  match o with OpDeleteDeployment _ _ | OpDeleteLease _ => true | _ => false end.

Lemma astep_versions A A' o : astore_wf A → op_ok o = true → is_delete o = false → astep A o A' →
  versions_advance (a_deps A) (a_deps A') ∧ versions_advance (a_leases A) (a_leases A') ∧
  versions_advance (a_bids A) (a_bids A').
Proof.
  intros Hwf Ho Hd Hs. destruct Hs as [d v Hv|l v Hv|b v Hv|owner dseq|id|owner dseq at_ v Hne Hnz Hc Hv|s]; try done.
  - split_and!; [|done..]. exact (versions_advance_insert (a_deps A) d v (wf_deps _ Hwf) Ho Hv).
  - split_and!; [done| |done]. exact (versions_advance_insert (a_leases A) l v (wf_leases _ Hwf) Ho Hv).
  - split_and!; [done..|]. exact (versions_advance_insert (a_bids A) b v (wf_bids _ Hwf) Ho Hv).
  - split_and!; [|apply versions_advance_closed|done].
    intros k r Hr. simpl. destruct (decide (k = DeploymentKey owner dseq)) as [->|Hk].
    + unfold closed_deps. rewrite lookup_insert_eq. eexists. split; [done|]. right.
      unfold closing_record in Hv. rewrite Hr in Hv.
      apply next_version_same_inv in Hv as [_ ->]; [destruct (close_deployment at_ _); simpl; lia|].
      destruct (wf_deps _ Hwf _ _ Hr) as [Hok _]. exact (sr_ok_version r Hok).
    + unfold closed_deps. rewrite lookup_insert_ne by done. eauto.
Qed.

Lemma run_ops_versions {Tx} `{BoltLaws Tx} (db : Tx) A l : store_rep db A →
  Forall (λ o, op_ok o = true ∧ is_delete o = false) l →
  ∃ A', store_rep (run_ops db l) A' ∧ versions_advance (a_deps A) (a_deps A') ∧
        versions_advance (a_leases A) (a_leases A') ∧ versions_advance (a_bids A) (a_bids A').
Proof.
  intros Hr HF. revert db A Hr. induction HF as [|o l [Ho Hd] _ IH]; intros db A Hr.
  { exists A. by split_and!. }
  destruct (run_op_rep db A o Hr Ho) as (A1 & Hr1 & Hs).
  destruct (IH _ A1 Hr1) as (A' & Hr' & V1 & V2 & V3). exists A'. split; [done|].
  destruct Hs as [->|Hs]; [done|].
  apply astep_versions in Hs as (W1 & W2 & W3); [|apply (rep_wf _ _ Hr)|done..].
  split_and!; by etrans.
Qed.
