(* ===== verification/StoreStats.v ===== *)
(** * Store statistics are row counts

    Every counter that [Stats] returns is the number of rows the matching list
    operation returns for the corresponding state filter. *)

From Stdlib Require Import Ascii.
From stdpp Require Import sorting base gmap strings pretty option numbers list.
From S2P Require Import Prelude GoStd GoJson Bolt StoreTypes StoreOps StoreRep StoreSpec.

(** The rows in state [st]; the empty state selects all of them, as in the filters. *)
Definition rows_in {R} (state : R → string) (st : string) (l : list R) : Z :=
  Z.of_nat (length (List.filter (λ r, bool_decide (st = EmptyString) || bool_decide (state r = st)) l)).

Lemma rows_in_cons {R} (state : R → string) st r l :
  rows_in state st (r :: l) =
  ((if bool_decide (st = EmptyString) || bool_decide (state r = st) then 1 else 0) + rows_in state st l)%Z.
Proof. unfold rows_in. cbn [List.filter]. destruct (_ || _); cbn [length]; lia. Qed.

Lemma by_state_deployment st l :
  List.filter (λ d, matchDeployment d (MkDeploymentFilter EmptyString st [] EmptyString)) l =
  List.filter (λ d, bool_decide (st = EmptyString) || bool_decide (d_State d = st)) l.
Proof.
  apply filter_ext. intros d. unfold matchDeployment.
  cbn [df_Owner df_State df_Tags df_Label forallb negb]. rewrite !(bool_decide_eq_true_2 (EmptyString = EmptyString)) by done.
  cbn [negb andb]. by destruct (bool_decide (st = EmptyString)), (bool_decide (d_State d = st)).
Qed.

Lemma by_state_lease st l :
  List.filter (λ r, matchLease r (MkLeaseFilter EmptyString 0 EmptyString st)) l =
  List.filter (λ r, bool_decide (st = EmptyString) || bool_decide (l_State r = st)) l.
Proof.
  apply filter_ext. intros d. unfold matchLease.
  cbn [lf_Owner lf_DSeq lf_Provider lf_State]. rewrite !(bool_decide_eq_true_2 (EmptyString = EmptyString)) by done.
  cbn [negb andb N.eqb]. by destruct (bool_decide (st = EmptyString)), (bool_decide (l_State d = st)).
Qed.

Lemma by_state_bid st l :
  List.filter (λ r, matchBid r (MkBidFilter EmptyString 0 EmptyString st)) l =
  List.filter (λ r, bool_decide (st = EmptyString) || bool_decide (b_State r = st)) l.
Proof.
  apply filter_ext. intros d. unfold matchBid.
  cbn [bf_Owner bf_DSeq bf_Provider bf_State]. rewrite !(bool_decide_eq_true_2 (EmptyString = EmptyString)) by done.
  cbn [negb andb N.eqb]. by destruct (bool_decide (st = EmptyString)), (bool_decide (b_State d = st)).
Qed.


Lemma foldl_count_deployments l n a c x y z w u b o m p :
  foldl count_deployment (MkStats n a c x y z w u b o m p) l =
  MkStats (n + rows_in d_State EmptyString l) (a + rows_in d_State "active" l) (c + rows_in d_State "closed" l)
    x y z w u b o m p.
Proof.
  revert n a c. induction l as [|r l IH]; intros n a c; [unfold rows_in; cbn; f_equal; lia|].
  cbn [foldl]. unfold count_deployment at 2. rewrite !rows_in_cons.
  rewrite (bool_decide_eq_true_2 (EmptyString = EmptyString)) by done.
  rewrite (bool_decide_eq_false_2 ("active" = EmptyString)), (bool_decide_eq_false_2 ("closed" = EmptyString)) by done.
  cbn [orb]. do 2 (case_bool_decide as E; [rewrite IH; f_equal; repeat case_bool_decide; try congruence; lia|clear E]).
  rewrite IH. f_equal; lia.
Qed.

Lemma foldl_count_leases l n a c x y z w u b o m p :
  foldl count_lease (MkStats n a c x y z w u b o m p) l =
  MkStats n a c (x + rows_in l_State EmptyString l) (y + rows_in l_State "active" l) (z + rows_in l_State "closed" l)
    (w + rows_in l_State "insufficient_funds" l) u b o m p.
Proof.
  revert x y z w. induction l as [|r l IH]; intros x y z w; [unfold rows_in; cbn; f_equal; lia|].
  cbn [foldl]. unfold count_lease at 2. rewrite !rows_in_cons.
  rewrite (bool_decide_eq_true_2 (EmptyString = EmptyString)) by done.
  rewrite (bool_decide_eq_false_2 ("active" = EmptyString)), (bool_decide_eq_false_2 ("closed" = EmptyString)),
    (bool_decide_eq_false_2 ("insufficient_funds" = EmptyString)) by done.
  cbn [orb]. do 3 (case_bool_decide as E; [rewrite IH; f_equal; repeat case_bool_decide; try congruence; lia|clear E]).
  rewrite IH. f_equal; lia.
Qed.

Lemma foldl_count_bids l n a c x y z w u b o m p :
  foldl count_bid (MkStats n a c x y z w u b o m p) l =
  MkStats n a c x y z w (u + rows_in b_State EmptyString l) (b + rows_in b_State "open" l)
    (o + rows_in b_State "matched" l) (m + rows_in b_State "closed" l) (p + rows_in b_State "lost" l).
Proof.
  revert u b o m p. induction l as [|r l IH]; intros u b o m p; [unfold rows_in; cbn; f_equal; lia|].
  cbn [foldl]. unfold count_bid at 2. rewrite !rows_in_cons.
  rewrite (bool_decide_eq_true_2 (EmptyString = EmptyString)) by done.
  rewrite (bool_decide_eq_false_2 ("open" = EmptyString)), (bool_decide_eq_false_2 ("matched" = EmptyString)),
    (bool_decide_eq_false_2 ("closed" = EmptyString)), (bool_decide_eq_false_2 ("lost" = EmptyString)) by done.
  cbn [orb]. do 4 (case_bool_decide as E; [rewrite IH; f_equal; repeat case_bool_decide; try congruence; lia|clear E]).
  rewrite IH. f_equal; lia.
Qed.

Section stats.
Context {Tx : Type} `{BoltLaws Tx}.
Implicit Types (db : Tx) (A : astore).

Definition stats_of A : StoreStats :=
  let ds := in_key_order (a_deps A) in
  let ls := in_key_order (a_leases A) in
  let bs := in_key_order (a_bids A) in
  MkStats (rows_in d_State EmptyString ds) (rows_in d_State "active" ds) (rows_in d_State "closed" ds)
    (rows_in l_State EmptyString ls) (rows_in l_State "active" ls) (rows_in l_State "closed" ls)
    (rows_in l_State "insufficient_funds" ls)
    (rows_in b_State EmptyString bs) (rows_in b_State "open" bs) (rows_in b_State "matched" bs)
    (rows_in b_State "closed" bs) (rows_in b_State "lost" bs).

Lemma Stats_rep db A : store_rep db A → Stats db = Ok (stats_of A).
Proof.
  intros Hr. unfold Stats, zero_stats.
  rewrite (bucket_pairs_view _ bucketDeployments _ (rep_deps _ _ Hr)),
    (bucket_pairs_view _ bucketLeases _ (rep_leases _ _ Hr)), (bucket_pairs_view _ bucketBids _ (rep_bids _ _ Hr)).
  cbn [mbind result_bind].
  pose proof (scan_records db _ (rep_deps _ _ Hr) (rep_wf_deps _ _ Hr)) as Hd.
  pose proof (scan_records db _ (rep_leases _ _ Hr) (rep_wf_leases _ _ Hr)) as Hl.
  pose proof (scan_records db _ (rep_bids _ _ Hr) (rep_wf_bids _ _ Hr)) as Hb.
  cbn [sr_dec sr_zero sr_bucket deployment_family lease_family bid_family] in Hd, Hl, Hb.
  rewrite Hd, Hl, Hb, foldl_count_deployments, foldl_count_leases, foldl_count_bids.
  by rewrite !Z.add_0_l.
Qed.
End stats.
