(* ===== verification/StoreProps.v ===== *)
(** * Properties of the deployment store

    The properties of [BoltStore] as a user of its interface sees them, each
    stated on the modelled operations, with a concrete instance on the in-memory
    database. *)

From Stdlib Require Import Ascii.
From stdpp Require Import sorting base gmap strings pretty option numbers list.
From S2P Require Import Prelude GoStd GoJson Bolt StoreTypes StoreOps StoreRep StoreSpec StoreClose StoreRun StoreStats.

(** ** A concrete store *)
Definition demo_deployment : DeploymentRecord :=
  set_d_State "active" (set_d_DSeq 7 (set_d_Owner "akash1owner" zero_deployment)).
Definition demo_lease (provider : string) : LeaseRecord :=
  set_l_State "active" (set_l_ID (MkLeaseID "akash1owner" 7 1 1 provider) zero_lease).
Definition demo_bid : BidRecord :=
  set_b_State "open" (set_b_ID (MkBidID "akash1owner" 7 1 1 "akash1prov") zero_bid).

Definition demo_astore : astore :=
  MkAStore {[ "akash1owner:7" := set_d_RecordVersion 1 demo_deployment ]}
    {[ "akash1owner:7:1:1:akash1prov" := set_l_RecordVersion 3 (demo_lease "akash1prov") ]}
    {[ "akash1owner:7:1:1:akash1prov" := set_b_RecordVersion 1 demo_bid ]} None 1.

Definition demo_db : buckets := buckets_of demo_astore.

#[global] Instance family_wf_dec {R} `{StoreRecord R} (m : gmap string R) : Decision (family_wf m).
Proof. unfold family_wf. apply _. Defined.

Lemma demo_rep : store_rep demo_db demo_astore.
Proof.
  split; [reflexivity|]. split; [apply (bool_decide_unpack _); vm_compute; exact I..|by intros s|reflexivity].
Qed.

(** ** Lists of a well-formed family *)
Section lists.
Context {R : Type} `{StoreRecordLaws R}.

Lemma list_member_iff (m : gmap string R) (p : R → bool) r : family_wf m →
  r ∈ List.filter p (in_key_order m) ↔ m !! sr_key r = Some r ∧ p r = true.
Proof.
  intros Hwf. rewrite list_elem_of_In, filter_In, <- list_elem_of_In, in_key_order_elem. split.
  - intros [[k Hk] Hp]. destruct (Hwf k r Hk) as (_ & E & _). by rewrite E.
  - naive_solver.
Qed.

Lemma sorted_by_key (l : list (string * R)) : keys_sorted l → Forall (λ kr, sr_key kr.2 = kr.1) l →
  StronglySorted (λ r s, key_lt (sr_key r, r) (sr_key s, s)) l.*2.
Proof.
  induction 1 as [|[k r] l _ IH HF]; [constructor|]. intros [Hk Hl]%Forall_cons. csimpl. constructor; [by apply IH|].
  rewrite Forall_forall in HF, Hl. apply Forall_forall. intros s ([k' s'] & -> & Hin)%list_elem_of_fmap.
  specialize (HF _ Hin). specialize (Hl _ Hin). simpl in *. unfold key_lt in *. simpl in *. by rewrite Hk, Hl.
Qed.

Lemma StronglySorted_filter (Q : R → R → Prop) (p : R → bool) l :
  StronglySorted Q l → StronglySorted Q (List.filter p l).
Proof.
  induction 1 as [|r l _ IH HF]; [constructor|]. cbn [List.filter]. destruct (p r); [|done]. constructor; [done|].
  rewrite Forall_forall in HF |- *. intros s Hs. apply HF. rewrite list_elem_of_In in Hs |- *. by apply filter_In in Hs as [? _].
Qed.

Lemma list_sorted (m : gmap string R) (p : R → bool) : family_wf m →
  StronglySorted (λ r s, key_lt (sr_key r, r) (sr_key s, s)) (List.filter p (in_key_order m)).
Proof.
  intros Hwf. apply StronglySorted_filter, sorted_by_key; [apply sorted_members_sorted|].
  apply Forall_forall. intros [k r] Hin. apply sorted_members_elem in Hin. by apply Hwf in Hin as (_ & ? & _).
Qed.
End lists.

(** The version step on arbitrary stored bytes. *)
Lemma version_envelope_u64 b s : Unmarshal dec_version_envelope b 0%N = Ok s → in_u64 s = true.
Proof.
  destruct b as [|j]; [done|]. unfold Unmarshal. destruct (dec_version_envelope j 0%N) as [s'|] eqn:E; [|done].
  intros [= ->]. unfold dec_version_envelope, dec_struct in E. destruct j as [| | | | |kvs]; try done.
  { by injection E as <-. }
  assert (in_u64 0 = true) as H0 by done. revert E H0. generalize 0%N as a.
  induction kvs as [|[k v] kvs IH]; intros a; [by intros [= ->]|]. cbn [dec_members].
  destruct (find_field k _) as [d|] eqn:Ef; [|by apply IH].
  assert (d = field (λ n, n) (λ v _, v) (dec_uint u64_max)) as ->.
  { unfold find_field in Ef. cbn [find_by] in Ef. repeat case_match; by simplify_eq. }
  intros (a' & Ha & Hm)%bind_Some Hin. apply (IH a' Hm). unfold field in Ha.
  apply bind_Some in Ha as (n & Hn & [= <-]). destruct v; try done; simpl in Hn; [by simplify_eq|].
  destruct (ParseUint u64_max literal) as [w| |] eqn:Ep; simplify_eq. by apply N.leb_le, (ParseUint_bound _ _ _ Ep).
Qed.

Lemma nextRecordVersion_cases existing incoming : in_u64 incoming = true →
  match nextRecordVersion existing incoming with
  | Ok v => (1 ≤ v ≤ u64_max)%N ∧ (incoming ≤ v)%N ∧
      (∀ b s, existing = Some b → Unmarshal dec_version_envelope b 0%N = Ok s → (s < v)%N)
  | Err _ => ∃ b, existing = Some b ∧ bytes_empty b = false ∧
      (is_ok (Unmarshal dec_version_envelope b 0%N) = false ∨ Unmarshal dec_version_envelope b 0%N = Ok u64_max)
  | Panic => False
  end.
Proof.
  intros Hi%N.leb_le. assert (1 ≤ u64_max)%N by done. unfold nextRecordVersion.
  assert (∀ b s, bytes_empty b = true → Unmarshal dec_version_envelope b 0%N ≠ Ok s) as He by by intros [[]|].
  destruct existing as [b|]; [destruct (bytes_empty b) eqn:Eb|].
  - destruct (N.eqb_spec incoming 0); split_and!; try lia; intros b' s [= <-] Hs; by apply He in Hs.
  - cbn [default from_option id]. destruct (Unmarshal dec_version_envelope b 0%N) as [s|e|] eqn:Eu; cbn [map_err mbind result_bind].
    + pose proof (version_envelope_u64 _ _ Eu) as Hs%N.leb_le.
      destruct (N.ltb_spec s incoming); [split_and!; try lia; intros b' s' [= <-]; rewrite Eu; intros [= <-]; done|].
      destruct (N.eqb_spec s u64_max) as [->|]; [by exists b; eauto|]. split_and!; try lia.
      intros b' s' [= <-]. rewrite Eu. intros [= <-]. lia.
    + exists b. rewrite Eu. eauto.
    + by destruct b as [|j]; simpl in Eu; [|destruct (dec_version_envelope j 0)].
  - destruct (N.eqb_spec incoming 0); split_and!; try lia; by intros.
Qed.

Section frame.
Context {Tx : Type} `{BoltLaws Tx}.
Implicit Types (db : Tx) (A : astore).

(** Two databases that agree on everything but one family. *)
Definition same_deployments db db' : Prop := ∀ o n, GetDeployment db' o n = GetDeployment db o n.
Definition same_leases db db' : Prop := ∀ id, GetLease db' id = GetLease db id.
Definition same_bids db db' : Prop := ∀ id, GetBid db' id = GetBid db id.
Definition same_sync db db' : Prop := GetSyncState db' = GetSyncState db ∧ SchemaVersion db' = SchemaVersion db.

Lemma same_deployments_rep db db' A A' : store_rep db A → store_rep db' A' → a_deps A' = a_deps A → same_deployments db db'.
Proof. intros Hr Hr' E o n. by rewrite (GetDeployment_rep _ _ _ _ Hr), (GetDeployment_rep _ _ _ _ Hr'), E. Qed.
Lemma same_leases_rep db db' A A' : store_rep db A → store_rep db' A' → a_leases A' = a_leases A → same_leases db db'.
Proof. intros Hr Hr' E id. by rewrite (GetLease_rep _ _ _ Hr), (GetLease_rep _ _ _ Hr'), E. Qed.
Lemma same_bids_rep db db' A A' : store_rep db A → store_rep db' A' → a_bids A' = a_bids A → same_bids db db'.
Proof. intros Hr Hr' E id. by rewrite (GetBid_rep _ _ _ Hr), (GetBid_rep _ _ _ Hr'), E. Qed.
Lemma same_sync_rep db db' A A' : store_rep db A → store_rep db' A' →
  a_sync A' = a_sync A → a_schema A' = a_schema A → same_sync db db'.
Proof.
  intros Hr Hr' E E'. unfold same_sync. rewrite (GetSyncState_rep _ _ Hr), (GetSyncState_rep _ _ Hr'), E.
  by rewrite (SchemaVersion_rep _ _ Hr), (SchemaVersion_rep _ _ Hr'), E'.
Qed.

(** A single-record write on the maps, read back. *)
Lemma put_version_facts {R} `{StoreRecordLaws R} (m : gmap string R) r v : family_wf m → sr_ok r = true →
  next_version (sr_version <$> m !! sr_key r) (sr_version r) = Some v →
  (1 ≤ v ≤ u64_max)%N ∧ (sr_version r ≤ v)%N ∧ ∀ r0, m !! sr_key r = Some r0 → (sr_version r0 < v)%N.
Proof.
  intros Hwf Hr Hv. apply next_version_bounds in Hv as (Hb & Hpos & Hlt & Hle); [| |by apply sr_ok_version].
  - apply N.leb_le in Hb. split_and!; [done..|]. intros r0 Hr0. apply Hlt. by rewrite Hr0.
  - intros o. destruct (m !! sr_key r) as [r0|] eqn:E; intros; simplify_eq/=. apply sr_ok_version. by eapply Hwf.
Qed.
End frame.

Ltac each_row Hin :=
  repeat (apply elem_of_cons in Hin as [[= -> ->]|Hin]; [done|]); by apply elem_of_nil in Hin.

Section props.
Context {Tx : Type} `{BoltLaws Tx}.
Implicit Types (db : Tx) (A : astore).

(** C1: Refinement. Any mutating operation of the store, on a database that
    represents an abstract store, either succeeds and then takes exactly the
    abstract step of that operation, or returns an error, leaves the database
    as it was and does not panic. *)
Theorem store_refines db db' A o r : store_rep db A → op_ok o = true → run_op db o = (db', r) →
  (r = Ok tt ∧ ∃ A', astep A o A' ∧ store_rep db' A') ∨ (∃ e, r = Err e ∧ db' = db).
Proof.
  intros Hr Ho E. destruct r as [[]|e|].
  - left. split; [done|]. by eapply run_op_sim.
  - right. exists e. split; [done|]. by eapply run_op_atomic.
  - pose proof (run_op_no_panic db A o Hr Ho) as Hp. by rewrite E in Hp.
Qed.

(** Progress. On a database with room, an operation whose abstract step is
    enabled (the record versions involved can advance, a close names an owner
    and a sequence number) and whose key bbolt accepts succeeds and takes it. *)
Theorem store_progress `{!BoltHealthy Tx} db A A' o : store_rep db A → op_ok o = true → astep A o A' →
  (∀ k, op_key o = Some k → key_fits k = true) →
  ∃ db', run_op db o = (db', Ok tt) ∧ ∃ A'', astep A o A'' ∧ store_rep db' A''.
Proof.
  intros Hr Ho Hs Hk. destruct (run_op_progress db A A' o Hr Ho Hs Hk) as [db' E].
  exists db'. split; [done|]. by eapply run_op_sim.
Qed.

(** C37: Invariant. Whatever sequence of operations runs on a freshly opened
    database, failed ones included, the database still represents a store:
    the five buckets are there, each record decodes, sits under its own key
    and has a version of at least 1, and the schema version is readable. *)
Theorem reachable_store `{!BoltHealthy Tx} db l : view db = ∅ → Forall (λ o, op_ok o = true) l →
  ∃ db0 A, Open db = (db0, Ok tt) ∧ store_rep (run_ops db0 l) A.
Proof.
  intros Hdb HF. destruct (open_fresh db Hdb) as (t & Ht & Hr). exists t.
  destruct (run_ops_rep t _ l Hr HF) as [A HA]. exists A. split; [|done].
  by apply db_Update_healthy.
Qed.

(** Versions along a history. No history without deletions loses a
    deployment, and one that reads back differently has a larger record version. *)
Theorem deployment_versions_advance db A l owner dseq d : store_rep db A →
  Forall (λ o, op_ok o = true ∧ is_delete o = false) l →
  GetDeployment db owner dseq = Ok (Some d) →
  ∃ d', GetDeployment (run_ops db l) owner dseq = Ok (Some d') ∧
        (d' = d ∨ (d_RecordVersion d < d_RecordVersion d')%N).
Proof.
  intros Hr HF Hg. destruct (run_ops_versions db A l Hr HF) as (A' & Hr' & Hv & _).
  rewrite (GetDeployment_rep _ _ _ _ Hr) in Hg. rewrite (GetDeployment_rep _ _ _ _ Hr').
  simplify_eq. destruct (Hv _ _ Hg) as (d' & -> & D). eauto.
Qed.

(** Put then get, deployments. After a successful put, the get returns the
    record with a version that is within uint64, at least 1, at least the
    incoming one and larger than the stored one; every other deployment and
    every lease, bid, sync state and schema version reads back as before. *)
Theorem PutDeployment_get db db' A d : store_rep db A → deployment_ok d = true →
  PutDeployment db (Some d) = (db', Ok tt) →
  ∃ v, GetDeployment db' (d_Owner d) (d_DSeq d) = Ok (Some (set_d_RecordVersion v d)) ∧
    (1 ≤ v ≤ u64_max)%N ∧ (d_RecordVersion d ≤ v)%N ∧
    (∀ d0, GetDeployment db (d_Owner d) (d_DSeq d) = Ok (Some d0) → (d_RecordVersion d0 < v)%N) ∧
    (∀ o n, (o, n) ≠ (d_Owner d, d_DSeq d) → GetDeployment db' o n = GetDeployment db o n) ∧
    same_leases db db' ∧ same_bids db db' ∧ same_sync db db'.
Proof.
  unfold PutDeployment. intros Hr Hok [Hp _]%db_Update_ok.
  apply (putDeploymentTx_rep _ _ A) in Hp as (v & Hv & Hr'); [|done..].
  destruct (put_version_facts (a_deps A) d v (rep_wf_deps _ _ Hr) Hok Hv) as (V1 & V2 & V3).
  exists v. rewrite (GetDeployment_rep _ _ _ _ Hr'). cbn [a_deps with_deps]. rewrite lookup_insert_eq.
  split_and!; [done|apply V1..|done| | | | |].
  - intros d0. rewrite (GetDeployment_rep _ _ _ _ Hr). intros [= E]. by apply V3.
  - intros o n Hne. rewrite (GetDeployment_rep _ _ _ _ Hr), (GetDeployment_rep _ _ _ _ Hr'). cbn [a_deps with_deps].
    rewrite lookup_insert_ne; [done|]. intros [<- <-]%DeploymentKey_inj_pair. done.
  - by eapply same_leases_rep.
  - by eapply same_bids_rep.
  - by eapply same_sync_rep.
Qed.

(** Put then get, leases: as for deployments, for every other lease whose
    owner, like a bech32 address, has no colon. *)
Theorem PutLease_get db db' A l : store_rep db A → lease_ok l = true →
  has_byte ":" (lid_Owner (l_ID l)) = false → PutLease db (Some l) = (db', Ok tt) →
  ∃ v, GetLease db' (l_ID l) = Ok (Some (set_l_RecordVersion v l)) ∧
    (1 ≤ v ≤ u64_max)%N ∧ (l_RecordVersion l ≤ v)%N ∧
    (∀ l0, GetLease db (l_ID l) = Ok (Some l0) → (l_RecordVersion l0 < v)%N) ∧
    (∀ id, id ≠ l_ID l → has_byte ":" (lid_Owner id) = false → GetLease db' id = GetLease db id) ∧
    same_deployments db db' ∧ same_bids db db' ∧ same_sync db db'.
Proof.
  unfold PutLease. intros Hr Hok Hcol [Hp _]%db_Update_ok.
  apply (putLeaseTx_rep _ _ A) in Hp as (v & Hv & Hr'); [|done..].
  destruct (put_version_facts (a_leases A) l v (rep_wf_leases _ _ Hr) Hok Hv) as (V1 & V2 & V3).
  exists v. rewrite (GetLease_rep _ _ _ Hr'). cbn [a_leases with_leases]. rewrite lookup_insert_eq.
  split_and!; [done|apply V1..|done| | | | |].
  - intros l0. rewrite (GetLease_rep _ _ _ Hr). intros [= E]. by apply V3.
  - intros id Hne Hc. rewrite (GetLease_rep _ _ _ Hr), (GetLease_rep _ _ _ Hr'). cbn [a_leases with_leases].
    rewrite lookup_insert_ne; [done|]. intros E%LeaseKey_inj; congruence.
  - by eapply same_deployments_rep.
  - by eapply same_bids_rep.
  - by eapply same_sync_rep.
Qed.

(** Put then get, bids: likewise. *)
Theorem PutBid_get db db' A b : store_rep db A → bid_ok b = true →
  has_byte ":" (bid_Owner (b_ID b)) = false → PutBid db (Some b) = (db', Ok tt) →
  ∃ v, GetBid db' (b_ID b) = Ok (Some (set_b_RecordVersion v b)) ∧
    (1 ≤ v ≤ u64_max)%N ∧ (b_RecordVersion b ≤ v)%N ∧
    (∀ b0, GetBid db (b_ID b) = Ok (Some b0) → (b_RecordVersion b0 < v)%N) ∧
    (∀ id, id ≠ b_ID b → has_byte ":" (bid_Owner id) = false → GetBid db' id = GetBid db id) ∧
    same_deployments db db' ∧ same_leases db db' ∧ same_sync db db'.
Proof.
  unfold PutBid. intros Hr Hok Hcol [Hp _]%db_Update_ok.
  apply (putBidTx_rep _ _ A) in Hp as (v & Hv & Hr'); [|done..].
  destruct (put_version_facts (a_bids A) b v (rep_wf_bids _ _ Hr) Hok Hv) as (V1 & V2 & V3).
  exists v. rewrite (GetBid_rep _ _ _ Hr'). cbn [a_bids with_bids]. rewrite lookup_insert_eq.
  split_and!; [done|apply V1..|done| | | | |].
  - intros b0. rewrite (GetBid_rep _ _ _ Hr). intros [= E]. by apply V3.
  - intros id Hne Hc. rewrite (GetBid_rep _ _ _ Hr), (GetBid_rep _ _ _ Hr'). cbn [a_bids with_bids].
    rewrite lookup_insert_ne; [done|]. intros E%BidKey_inj; congruence.
  - by eapply same_deployments_rep.
  - by eapply same_leases_rep.
  - by eapply same_sync_rep.
Qed.


(** Closing twice. Closing a deployment that was closed before keeps the
    time it was first closed at, in the deployment and in its leases. *)
Theorem close_keeps_first_time at1 at2 d l : at1 ≠ 0%Z →
  d_ClosedAt (close_deployment at2 (close_deployment at1 d)) = d_ClosedAt (close_deployment at1 d) ∧
  d_State (close_deployment at2 (close_deployment at1 d)) = "closed" ∧
  d_UpdatedAt (close_deployment at2 (close_deployment at1 d)) = at2 ∧
  close_lease at2 (close_lease at1 l) = close_lease at1 l.
Proof.
  intros Hat. unfold close_deployment, close_lease.
  destruct d as [? ? ds ? ? ? ? ? ? ? ? dc ? ? ? ? ?], l as [? ls ? ? ? ? lc ?]; cbn [d_State l_State d_ClosedAt l_ClosedAt].
  destruct (bool_decide (ds = "closed")) eqn:Ed, (Z.eqb_spec dc 0), (bool_decide (ls = "closed")) eqn:El, (Z.eqb_spec lc 0);
    cbn; split_and!; try done;
    repeat match goal with |- context [(?z =? 0)%Z] => destruct (Z.eqb_spec z 0); try done end.
Qed.

(** Listing deployments. The list holds exactly the stored deployments that
    match the filter, each once, in the byte order of their keys. *)
Theorem ListDeployments_exact db A f : store_rep db A →
  ∃ l, ListDeployments db f = Ok l ∧
    (∀ d, d ∈ l ↔ GetDeployment db (d_Owner d) (d_DSeq d) = Ok (Some d) ∧ matchDeployment d f = true) ∧
    StronglySorted (λ d e, key_lt (DeploymentKey (d_Owner d) (d_DSeq d), d) (DeploymentKey (d_Owner e) (d_DSeq e), e)) l.
Proof.
  intros Hr. eexists. split; [by apply ListDeployments_rep|]. split.
  - intros d. rewrite (GetDeployment_rep _ _ _ _ Hr).
    rewrite (list_member_iff (a_deps A) (λ d, matchDeployment d f) d (rep_wf_deps _ _ Hr)). cbn [sr_key deployment_family lease_family]. split; [intros [-> ?]|intros [[= ?] ?]]; done.
  - exact (list_sorted (a_deps A) (λ d, matchDeployment d f) (rep_wf_deps _ _ Hr)).
Qed.

(** Listing leases: likewise. *)
Theorem ListLeases_exact db A f : store_rep db A →
  ∃ l, ListLeases db f = Ok l ∧
    (∀ r, r ∈ l ↔ GetLease db (l_ID r) = Ok (Some r) ∧ matchLease r f = true) ∧
    StronglySorted (λ r s, key_lt (LeaseKey (l_ID r), r) (LeaseKey (l_ID s), s)) l.
Proof.
  intros Hr. eexists. split; [by apply ListLeases_rep|]. split.
  - intros r. rewrite (GetLease_rep _ _ _ Hr).
    rewrite (list_member_iff (a_leases A) (λ d, matchLease d f) r (rep_wf_leases _ _ Hr)). cbn [sr_key deployment_family lease_family]. split; [intros [-> ?]|intros [[= ?] ?]]; done.
  - exact (list_sorted (a_leases A) (λ d, matchLease d f) (rep_wf_leases _ _ Hr)).
Qed.

(** Statistics. Each counter of [Stats] is the length of the list that the
    corresponding state filter returns. *)
Theorem Stats_counts db A : store_rep db A → ∃ s, Stats db = Ok s ∧
  (∀ st n, (st, n) ∈ [("", st_Deployments s); ("active", st_ActiveDeployments s); ("closed", st_ClosedDeployments s)] →
     (λ l, Z.of_nat (length l)) <$> ListDeployments db (MkDeploymentFilter "" st [] "") = Ok n) ∧
  (∀ st n, (st, n) ∈ [("", st_Leases s); ("active", st_ActiveLeases s); ("closed", st_ClosedLeases s);
                      ("insufficient_funds", st_InsufficientFundsLeases s)] →
     (λ l, Z.of_nat (length l)) <$> ListLeases db (MkLeaseFilter "" 0 "" st) = Ok n) ∧
  (∀ st n, (st, n) ∈ [("", st_Bids s); ("open", st_OpenBids s); ("matched", st_MatchedBids s);
                      ("closed", st_ClosedBids s); ("lost", st_LostBids s)] →
     (λ l, Z.of_nat (length l)) <$> ListBids db (MkBidFilter "" 0 "" st) = Ok n).
Proof.
  intros Hr. exists (stats_of A). split; [by apply Stats_rep|]. split_and!; intros st n Hin.
  - rewrite (ListDeployments_rep _ _ _ Hr), by_state_deployment. each_row Hin.
  - rewrite (ListLeases_rep _ _ _ Hr), by_state_lease. each_row Hin.
  - rewrite (ListBids_rep _ _ _ Hr), by_state_bid. each_row Hin.
Qed.

(** Re-opening. Opening a database that already is a store, whatever schema
    version it has, succeeds on a database with room and changes nothing. *)
Theorem Open_existing `{!BoltHealthy Tx} db A : store_rep db A →
  ∃ db', Open db = (db', Ok tt) ∧ view db' = view db ∧ store_rep db' A.
Proof.
  intros Hr. destruct (open_existing db A Hr) as (t & Ht & Hr'). exists t.
  split; [by apply db_Update_healthy|]. by rewrite (rep_view _ _ Hr), (rep_view _ _ Hr').
Qed.
End props.

(** Record versions on any stored bytes. A returned version is positive and
    within uint64, at least the incoming one and larger than the version the
    stored row carries; the call fails exactly when the stored row is non-empty
    and either does not decode or is at the largest uint64 with no larger
    version incoming. *)
Theorem nextRecordVersion_spec_bytes existing incoming : in_u64 incoming = true →
  match nextRecordVersion existing incoming with
  | Ok v => (1 ≤ v ≤ u64_max)%N ∧ (incoming ≤ v)%N ∧
      (∀ b s, existing = Some b → Unmarshal dec_version_envelope b 0%N = Ok s → (s < v)%N)
  | Err _ => ∃ b, existing = Some b ∧ bytes_empty b = false ∧
      (is_ok (Unmarshal dec_version_envelope b 0%N) = false ∨ Unmarshal dec_version_envelope b 0%N = Ok u64_max)
  | Panic => False
  end.
Proof. apply nextRecordVersion_cases. Qed.

(** ** The properties at concrete inputs *)
Lemma store_refines_witness :
  (∃ e, run_op demo_db (OpMarkDeploymentClosed "" 7 5) = (demo_db, Err e)) ∧
  ∃ A', astep demo_astore (OpPutDeployment (Some demo_deployment)) A' ∧
        store_rep (run_op demo_db (OpPutDeployment (Some demo_deployment))).1 A'.
Proof.
  split.
  - destruct (store_refines demo_db (run_op demo_db (OpMarkDeploymentClosed "" 7 5)).1 demo_astore
                (OpMarkDeploymentClosed "" 7 5) _ demo_rep eq_refl (surjective_pairing _)) as [[E _]|(e & E & _)].
    + vm_compute in E. discriminate.
    + eexists. reflexivity.
  - destruct (store_refines demo_db _ demo_astore (OpPutDeployment (Some demo_deployment)) _ demo_rep
                eq_refl (surjective_pairing _)) as [[_ E]|(e & E & _)]; [exact E|].
    vm_compute in E. discriminate.
Defined.

Lemma store_progress_witness :
  ∃ db', run_op demo_db (OpDeleteLease (MkLeaseID "akash1owner" 7 1 1 "akash1prov")) = (db', Ok tt) ∧
    ∃ A, astep demo_astore (OpDeleteLease (MkLeaseID "akash1owner" 7 1 1 "akash1prov")) A ∧ store_rep db' A.
Proof.
  eapply (store_progress demo_db demo_astore); [exact demo_rep|reflexivity|apply astep_delete_lease|discriminate].
Defined.

(** The outcome of a run decides the pair. *)
Lemma outcome_ok {A} (p : A * result unit) : p.2 = Ok tt → p = (p.1, Ok tt).
Proof. destruct p. simpl. by intros ->. Qed.

Definition demo_history : list op :=
  [OpPutDeployment (Some demo_deployment); OpPutLease (Some (demo_lease "akash1prov"));
   OpMarkDeploymentClosed "akash1owner" 7 1700000000; OpPutBid None].

Lemma reachable_store_witness :
  ∃ db0 A, Open ∅ = (db0, Ok tt) ∧ store_rep (run_ops db0 demo_history) A.
Proof. apply (reachable_store ∅ demo_history); [reflexivity|]. repeat constructor. Defined.

Lemma deployment_versions_advance_witness :
  ∃ d', GetDeployment (run_ops demo_db demo_history) "akash1owner" 7 = Ok (Some d') ∧
    (d' = set_d_RecordVersion 1 demo_deployment ∨ (1 < d_RecordVersion d')%N).
Proof.
  apply (deployment_versions_advance demo_db demo_astore demo_history "akash1owner" 7
    (set_d_RecordVersion 1 demo_deployment) demo_rep); [by repeat constructor|]. vm_compute. reflexivity.
Defined.

Lemma PutDeployment_get_witness :
  ∃ v, GetDeployment (PutDeployment demo_db (Some demo_deployment)).1 "akash1owner" 7
       = Ok (Some (set_d_RecordVersion v demo_deployment)) ∧ (1 < v)%N.
Proof.
  destruct (PutDeployment_get demo_db (PutDeployment demo_db (Some demo_deployment)).1 demo_astore demo_deployment demo_rep)
    as (v & Hg & _ & _ & Hlt & _); [reflexivity|apply outcome_ok; vm_compute; reflexivity|].
  exists v. split; [exact Hg|]. apply (Hlt (set_d_RecordVersion 1 demo_deployment)). vm_compute. reflexivity.
Defined.

Lemma PutLease_get_witness :
  ∃ v, GetLease (PutLease demo_db (Some (demo_lease "akash1prov"))).1 (MkLeaseID "akash1owner" 7 1 1 "akash1prov")
       = Ok (Some (set_l_RecordVersion v (demo_lease "akash1prov"))) ∧ (3 < v)%N.
Proof.
  destruct (PutLease_get demo_db (PutLease demo_db (Some (demo_lease "akash1prov"))).1 demo_astore (demo_lease "akash1prov") demo_rep)
    as (v & Hg & _ & _ & Hlt & _); [reflexivity|reflexivity|apply outcome_ok; vm_compute; reflexivity|].
  exists v. split; [exact Hg|]. apply (Hlt (set_l_RecordVersion 3 (demo_lease "akash1prov"))). vm_compute. reflexivity.
Defined.

Lemma PutBid_get_witness :
  ∃ v, GetBid (PutBid demo_db (Some demo_bid)).1 (MkBidID "akash1owner" 7 1 1 "akash1prov")
       = Ok (Some (set_b_RecordVersion v demo_bid)) ∧ (1 ≤ v)%N.
Proof.
  destruct (PutBid_get demo_db (PutBid demo_db (Some demo_bid)).1 demo_astore demo_bid demo_rep)
    as (v & Hg & Hv & _); [reflexivity|reflexivity|apply outcome_ok; vm_compute; reflexivity|].
  exists v. split; [exact Hg|]. apply Hv.
Defined.


Lemma close_keeps_first_time_witness :
  d_ClosedAt (close_deployment 900 (close_deployment 500 demo_deployment)) = 500%Z.
Proof.
  destruct (close_keeps_first_time 500 900 demo_deployment (demo_lease "p")) as (E & _); [discriminate|].
  rewrite E. reflexivity.
Defined.

Lemma ListDeployments_exact_witness :
  ∃ l, ListDeployments demo_db (MkDeploymentFilter "akash1owner" "active" [] "") = Ok l ∧
       set_d_RecordVersion 1 demo_deployment ∈ l.
Proof.
  destruct (ListDeployments_exact demo_db demo_astore (MkDeploymentFilter "akash1owner" "active" [] "") demo_rep)
    as (l & Hl & Hm & _).
  exists l. split; [exact Hl|]. apply Hm. split; vm_compute; reflexivity.
Defined.

Lemma ListLeases_exact_witness :
  ∃ l, ListLeases demo_db (MkLeaseFilter "" 7 "" "") = Ok l ∧ set_l_RecordVersion 3 (demo_lease "akash1prov") ∈ l.
Proof.
  destruct (ListLeases_exact demo_db demo_astore (MkLeaseFilter "" 7 "" "") demo_rep) as (l & Hl & Hm & _).
  exists l. split; [exact Hl|]. apply Hm. split; vm_compute; reflexivity.
Defined.

Lemma Stats_counts_witness :
  ∃ s, Stats demo_db = Ok s ∧
    (λ l, Z.of_nat (length l)) <$> ListDeployments demo_db (MkDeploymentFilter "" "active" [] "") = Ok (st_ActiveDeployments s).
Proof.
  destruct (Stats_counts demo_db demo_astore demo_rep) as (s & Hs & Hd & _). exists s. split; [exact Hs|].
  apply Hd. right. left.
Defined.

Lemma Open_existing_witness : ∃ db', Open demo_db = (db', Ok tt) ∧ view db' = view demo_db ∧ store_rep db' demo_astore.
Proof. apply (Open_existing demo_db demo_astore demo_rep). Defined.

Lemma nextRecordVersion_spec_bytes_witness :
  match nextRecordVersion (Some (Text (JObj [("record_version", JNum "4")]))) 2 with
  | Ok v => (1 ≤ v ≤ u64_max)%N
  | _ => False
  end.
Proof. destruct (nextRecordVersion_spec_bytes (Some (Text (JObj [("record_version", JNum "4")]))) 2 eq_refl) as (Hv & _). exact Hv. Defined.
