(* ===== verification/StoreExport.v ===== *)
(** * Export, import and migrations (internal/store/bbolt/export.go, migrate.go)

    The export envelope with its JSON codec, its validation, the snapshot reader
    and writer of [Export], the decoder and transaction of [Import], the two dry
    runs, and the schema migrations. yaml.v3 and the bech32 address codec are
    third-party packages: their functions are parameters. *)

From Stdlib Require Import Ascii.
From stdpp Require Import sorting base gmap strings pretty option numbers list.
From S2P Require Import Prelude GoStd GoJson Bolt StoreTypes StoreOps.

(** ** The envelope; slices of pointers, nil slices are [None] *)
Record ExportEnvelope : Type := MkEnvelope {
  e_Version : Z;
  e_Context : string;
  e_SchemaVersion : N;
  e_ExportedAt : string;
  e_SyncState : option SyncState;
  e_Deployments : option (list (option DeploymentRecord));
  e_Leases : option (list (option LeaseRecord));
  e_Bids : option (list (option BidRecord));
}.

Definition zero_envelope : ExportEnvelope :=
  MkEnvelope 0 EmptyString 0 EmptyString None None None None.

Definition set_e_Version (v : Z) (e : ExportEnvelope) : ExportEnvelope :=
  let 'MkEnvelope _ b c d s x y z := e in MkEnvelope v b c d s x y z.
Definition set_e_Context (v : string) (e : ExportEnvelope) : ExportEnvelope :=
  let 'MkEnvelope a _ c d s x y z := e in MkEnvelope a v c d s x y z.
Definition set_e_SchemaVersion (v : N) (e : ExportEnvelope) : ExportEnvelope :=
  let 'MkEnvelope a b _ d s x y z := e in MkEnvelope a b v d s x y z.
Definition set_e_ExportedAt (v : string) (e : ExportEnvelope) : ExportEnvelope :=
  let 'MkEnvelope a b c _ s x y z := e in MkEnvelope a b c v s x y z.
Definition set_e_SyncState (v : option SyncState) (e : ExportEnvelope) : ExportEnvelope :=
  let 'MkEnvelope a b c d _ x y z := e in MkEnvelope a b c d v x y z.
Definition set_e_Deployments (v : option (list (option DeploymentRecord))) (e : ExportEnvelope) : ExportEnvelope :=
  let 'MkEnvelope a b c d s _ y z := e in MkEnvelope a b c d s v y z.
Definition set_e_Leases (v : option (list (option LeaseRecord))) (e : ExportEnvelope) : ExportEnvelope :=
  let 'MkEnvelope a b c d s x _ z := e in MkEnvelope a b c d s x v z.
Definition set_e_Bids (v : option (list (option BidRecord))) (e : ExportEnvelope) : ExportEnvelope :=
  let 'MkEnvelope a b c d s x y _ := e in MkEnvelope a b c d s x y v.

Definition initializeCollections (e : ExportEnvelope) : ExportEnvelope :=
  let 'MkEnvelope a b c d s x y z := e in
  MkEnvelope a b c d s (Some (default [] x)) (Some (default [] y)) (Some (default [] z)).

Definition envelope_fields (strict : bool) : fields ExportEnvelope := [
  ("version", field e_Version set_e_Version dec_int64);
  ("context", field e_Context set_e_Context dec_string);
  ("schema_version", field e_SchemaVersion set_e_SchemaVersion (dec_uint u64_max));
  ("exported_at", field e_ExportedAt set_e_ExportedAt dec_string);
  ("sync_state", field e_SyncState set_e_SyncState (dec_ptr zero_sync_state (dec_sync_state strict)));
  ("deployments", field e_Deployments set_e_Deployments (dec_slice None (dec_ptr zero_deployment (dec_deployment strict))));
  ("leases", field e_Leases set_e_Leases (dec_slice None (dec_ptr zero_lease (dec_lease strict))));
  ("bids", field e_Bids set_e_Bids (dec_slice None (dec_ptr zero_bid (dec_bid strict))))
].
Definition dec_envelope (strict : bool) : decoder ExportEnvelope := dec_struct strict (envelope_fields strict).

(** [ExportEnvelope.MarshalJSON]. *)
Definition enc_envelope (e : ExportEnvelope) : json :=
  let e := initializeCollections e in JObj [
  ("version", enc_int (e_Version e));
  ("context", enc_string (e_Context e));
  ("schema_version", enc_uint (e_SchemaVersion e));
  ("exported_at", enc_string (e_ExportedAt e));
  ("sync_state", enc_ptr enc_sync_state (e_SyncState e));
  ("deployments", enc_slice (enc_ptr enc_deployment) (e_Deployments e));
  ("leases", enc_slice (enc_ptr enc_lease) (e_Leases e));
  ("bids", enc_slice (enc_ptr enc_bid) (e_Bids e))
].

Definition exportEnvelopeVersion : Z := 1.
Definition maxEncodedEnvelopeBytes : N := 67108864.

(** ** Addresses: cosmos-sdk's bech32 codec is a parameter *)
Class Bech32 := {
  StringToBytes : string → result string;
  BytesToString : string → result string;
}.

Definition validateImportAccountAddress `{Bech32} (value : string) : result unit :=
  decoded ← map_err (Wrapf "invalid akash bech32 address: %w" []) (StringToBytes value);
  if negb (byte_len decoded =? 20)%N
  then failf "invalid akash account address length %d (want 20)" [FormatUint (byte_len decoded)]
  else
    canonical ← map_err (Wrapf "re-encode akash address: %w" []) (BytesToString decoded);
    if negb (bool_decide (canonical = value))
    then failf "address is not canonical (want %s)" [canonical]
    else Ok tt.

(** ** Validation of an envelope

    Each loop carries its index and the keys seen so far. *)
Section validate.
Context `{Bech32}.

Definition check_deployment (st : nat * list string) (o : option DeploymentRecord) : result (nat * list string) :=
  let '(i, seen) := st in
  let idx := FormatUint (N.of_nat i) in
  match o with
  | None => failf "deployment %d is null" [idx]
  | Some d =>
      if (d_DSeq d =? 0)%N then failf "deployment %d has invalid identity: dseq is required" [idx]
      else
        _ ← map_err (Wrapf "deployment %d has invalid identity: owner: %w" [idx]) (validateImportAccountAddress (d_Owner d));
        if negb (bool_decide (d_State d ∈ ["active"; "closed"])) then failf "deployment %d has invalid state %q" [idx; d_State d]
        else if (d_CreatedAt d <? 0)%Z || (d_UpdatedAt d <? 0)%Z || (d_ClosedAt d <? 0)%Z || (d_CreatedHeight d <? 0)%Z
        then failf "deployment %d has negative timestamp or height" [idx]
        else
          let key := DeploymentKey (d_Owner d) (d_DSeq d) in
          if bool_decide (key ∈ seen) then failf "deployment %d duplicates %s" [idx; key]
          else Ok (S i, key :: seen)
  end.

Definition check_lease (st : nat * list string) (o : option LeaseRecord) : result (nat * list string) :=
  let '(i, seen) := st in
  let idx := FormatUint (N.of_nat i) in
  match o with
  | None => failf "lease %d is null" [idx]
  | Some l =>
      if (lid_DSeq (l_ID l) =? 0)%N || (lid_GSeq (l_ID l) =? 0)%N || (lid_OSeq (l_ID l) =? 0)%N
      then failf "lease %d has invalid identity: dseq, gseq, and oseq are required" [idx]
      else
        _ ← map_err (Wrapf "lease %d has invalid identity: owner: %w" [idx]) (validateImportAccountAddress (lid_Owner (l_ID l)));
        _ ← map_err (Wrapf "lease %d has invalid identity: provider: %w" [idx]) (validateImportAccountAddress (lid_Provider (l_ID l)));
        if negb (bool_decide (l_State l ∈ ["active"; "closed"; "insufficient_funds"]))
        then failf "lease %d has invalid state %q" [idx; l_State l]
        else if (l_CreatedAt l <? 0)%Z || (l_ClosedAt l <? 0)%Z then failf "lease %d has negative timestamp" [idx]
        else
          let key := LeaseKey (l_ID l) in
          if bool_decide (key ∈ seen) then failf "lease %d duplicates %s" [idx; key]
          else Ok (S i, key :: seen)
  end.

Definition check_bid (st : nat * list string) (o : option BidRecord) : result (nat * list string) :=
  let '(i, seen) := st in
  let idx := FormatUint (N.of_nat i) in
  match o with
  | None => failf "bid %d is null" [idx]
  | Some b =>
      if (bid_DSeq (b_ID b) =? 0)%N || (bid_GSeq (b_ID b) =? 0)%N || (bid_OSeq (b_ID b) =? 0)%N
      then failf "bid %d has invalid identity: dseq, gseq, and oseq are required" [idx]
      else
        _ ← map_err (Wrapf "bid %d has invalid identity: owner: %w" [idx]) (validateImportAccountAddress (bid_Owner (b_ID b)));
        _ ← map_err (Wrapf "bid %d has invalid identity: provider: %w" [idx]) (validateImportAccountAddress (bid_Provider (b_ID b)));
        if negb (bool_decide (b_State b ∈ ["open"; "matched"; "closed"; "lost"]))
        then failf "bid %d has invalid state %q" [idx; b_State b]
        else if (b_CreatedAt b <? 0)%Z then failf "bid %d has negative timestamp" [idx]
        else
          let key := BidKey (b_ID b) in
          if bool_decide (key ∈ seen) then failf "bid %d duplicates %s" [idx; key]
          else Ok (S i, key :: seen)
  end.

Definition check_account (i : nat) (account : string) : result nat :=
  _ ← map_err (Wrapf "sync state tracked account %d has invalid identity: %w" [FormatUint (N.of_nat i)])
        (validateImportAccountAddress account);
  Ok (S i).

Definition check_sync (o : option SyncState) : result unit :=
  match o with
  | None => Ok tt
  | Some s =>
      if (ss_LastBlockHeight s <? 0)%Z || (ss_LastSyncTime s <? 0)%Z
      then failf "sync state has negative height or timestamp" []
      else if (currentSchemaVersion <? ss_SchemaVersion s)%N
      then failf "sync state schema version %d exceeds current %d" [FormatUint (ss_SchemaVersion s); FormatUint currentSchemaVersion]
      else _ ← foldR check_account O (default [] (ss_TrackedAccounts s)); Ok tt
  end.

Definition validateImportEnvelope (env : ExportEnvelope) : result unit :=
  if negb (e_Version env =? exportEnvelopeVersion)%Z
  then failf "unsupported export version %d (want %d)" [FormatInt (e_Version env); FormatInt exportEnvelopeVersion]
  else if (e_SchemaVersion env =? 0)%N || (currentSchemaVersion <? e_SchemaVersion env)%N
  then failf "unsupported schema version %d (current %d)" [FormatUint (e_SchemaVersion env); FormatUint currentSchemaVersion]
  else
    _ ← foldR check_deployment (O, []) (default [] (e_Deployments env));
    _ ← foldR check_lease (O, []) (default [] (e_Leases env));
    _ ← foldR check_bid (O, []) (default [] (e_Bids env));
    check_sync (e_SyncState env).
End validate.

(** ** yaml.v3 as a parameter, over a type of YAML texts *)
Inductive ykind : Type := YDocument | YSequence | YMapping | YScalar | YAlias.
#[global] Instance ykind_eq_dec : EqDecision ykind.
Proof. solve_decision. Defined.
Inductive ynode : Type := YNode (kind : ykind) (value : string) (content : list ynode).

(** What a second [Decode] on the same decoder meets. *)
Inductive next_document : Type := NextEOF | NextDocument | NextError (e : error).

Class YamlOps (Y : Type) := {
  yaml_decode : Y → result ExportEnvelope;              (* Decode with KnownFields, into a zero envelope *)
  yaml_next : Y → next_document;                        (* the Decode after it *)
  yaml_document : Y → result ynode;                     (* yaml.Unmarshal into a Node *)
  yaml_encode : ExportEnvelope → result (list string);  (* the chunks Encode writes *)
  yaml_close : ExportEnvelope → list string;            (* the chunks Close writes *)
}.

(** ** Writers

    An [io.Writer] is a state and what one [Write] does to it. *)
Section encode.
Context {W : Type} (Write : W → string → W * result unit) {Y : Type} `{YamlOps Y}.

Fixpoint write_all (w : W) (chunks : list string) : W * result unit :=
  match chunks with
  | [] => (w, Ok tt)
  | c :: chunks =>
      match Write w c with
      | (w, Ok _) => write_all w chunks
      | (w, r) => (w, r)
      end
  end.

Definition encodeExportEnvelope (w : W) (format : ExportFormat) (env : ExportEnvelope) : W * result unit :=
  match format with
  | FormatYAML =>
      match Write w (String "-" (String "-" (String "-" (String (ascii_of_N 10) EmptyString)))) with
      | (w, Ok _) =>
          match yaml_encode env with
          | Ok chunks =>
              match write_all w chunks with
              | (w, Ok _) =>
                  let '(w, r) := write_all w (yaml_close env) in
                  (w, map_err (Wrapf "flush YAML export: %w" []) r)
              | (w, r) => ((write_all w (yaml_close env)).1, map_err (Wrapf "encode YAML: %w" []) r)
              end
          | Err e => ((write_all w (yaml_close env)).1, Err (Wrapf "encode YAML: %w" [] e))
          | Panic => (w, Panic)
          end
      | (w, r) => (w, map_err (Wrapf "write YAML document start: %w" []) r)
      end
  | FormatJSON =>
      let '(w, r) := Write w (json_text (Some O) (enc_envelope env) +:+ String (ascii_of_N 10) EmptyString) in
      (w, map_err (Wrapf "encode JSON: %w" []) r)
  | FormatOther n => (w, failf "unsupported export format: %d" [FormatInt n])
  end.
End encode.

Record exportSizeWriter : Type := MkSizeWriter { sw_written : Z; sw_limit : Z }.

Definition size_Write (w : exportSizeWriter) (p : string) : exportSizeWriter * result unit :=
  let remaining := (sw_limit w - sw_written w)%Z in
  if (remaining <? 0)%Z || (remaining <? Z.of_N (byte_len p))%Z
  then (w, failf "export envelope exceeds %d bytes" [FormatInt (sw_limit w)])
  else (MkSizeWriter (sw_written w + Z.of_N (byte_len p)) (sw_limit w), Ok tt).

(** ** Reading the snapshot *)
Section snapshot.
Context {Tx : Type} `{BoltOps Tx}.

Definition requiredExportBucket (tx : Tx) (name : string) : result unit :=
  if tx_bucket tx name then Ok tt
  else failf "database corruption: required bucket %q is missing" [name].

(** One [ForEach] of the snapshot: poll the context, decode the row, append it. *)
Definition export_row {R} (family : string) (dec : decoder R) (zero : R)
    (st : goctx * list (option R)) (kv : string * bytes) : result (goctx * list (option R)) :=
  let '(ctx, acc) := st in
  ctx ← ctx_Err ctx;
  record ← map_err (Wrapf ("decode " +:+ family +:+ " record %q: %w") [kv.1]) (Unmarshal dec kv.2 zero);
  Ok (ctx, acc ++ [Some record]).

Definition readExportSnapshot (ctx : goctx) (tx : Tx) (env : ExportEnvelope) : result (goctx * ExportEnvelope) :=
  ctx ← ctx_Err ctx;
  _ ← requiredExportBucket tx bucketMeta;
  _ ← requiredExportBucket tx bucketSync;
  _ ← requiredExportBucket tx bucketDeployments;
  _ ← requiredExportBucket tx bucketLeases;
  _ ← requiredExportBucket tx bucketBids;
  let schema := from_option raw_bytes EmptyString (tx_get tx bucketMeta keySchemaVersion) in
  if negb (byte_len schema =? 8)%N then failf "schema version metadata is missing or malformed" []
  else
    let env := set_e_SchemaVersion (default 0%N (Uint64 schema)) env in
    env ← match tx_get tx bucketSync keySyncState with
          | None => Ok env
          | Some data =>
              syncState ← map_err (Wrapf "decode sync record %q: %w" [keySyncState])
                            (Unmarshal (dec_sync_state false) data zero_sync_state);
              Ok (set_e_SyncState (Some syncState) env)
          end;
    '(ctx, ds) ← foldR (export_row "deployments" (dec_deployment false) zero_deployment)
                   (ctx, default [] (e_Deployments env)) (tx_foreach tx bucketDeployments);
    '(ctx, ls) ← foldR (export_row "leases" (dec_lease false) zero_lease)
                   (ctx, default [] (e_Leases env)) (tx_foreach tx bucketLeases);
    '(ctx, bs) ← foldR (export_row "bids" (dec_bid false) zero_bid)
                   (ctx, default [] (e_Bids env)) (tx_foreach tx bucketBids);
    ctx ← ctx_Err ctx;
    Ok (ctx, set_e_Bids (Some bs) (set_e_Leases (Some ls) (set_e_Deployments (Some ds) env))).

(** [export]; [exportedAt] is [time.Now().UTC().Format(time.RFC3339)]. The size
    writer sees the whole encoding before the caller's writer sees any of it. *)
Definition export {Y} `{YamlOps Y} `{Bech32} {W} (Write : W → string → W * result unit) (exportedAt : string)
    (ctx : goctx) (db : Tx) (w : W) (format : ExportFormat) (contextName : string) : W * result unit :=
  let env := MkEnvelope exportEnvelopeVersion contextName 0 exportedAt None (Some []) (Some []) (Some []) in
  match map_err (Wrapf "read export snapshot: %w" []) (readExportSnapshot ctx db env) with
  | Ok (_, env) =>
      match map_err (Wrapf "validate export snapshot: %w" []) (validateImportEnvelope env) with
      | Ok _ =>
          match (encodeExportEnvelope size_Write (MkSizeWriter 0 (Z.of_N maxEncodedEnvelopeBytes)) format env).2 with
          | Ok _ => encodeExportEnvelope Write w format env
          | r => (w, r)
          end
      | r => (w, r)
      end
  | Err e => (w, Err e)
  | Panic => (w, Panic)
  end.
End snapshot.

(** ** Decoding an import

    The input as the two decoders read it: its length, a read error, the JSON
    values in it with what follows the last one (nothing, or something that is
    not JSON), and its reading as YAML. *)
Record input (Y : Type) : Type := MkInput {
  in_size : N;
  in_error : option error;
  in_json : list json;
  in_tail : option error;
  in_yaml : Y;
}.
Arguments MkInput {Y}. Arguments in_size {Y}. Arguments in_error {Y}. Arguments in_json {Y}.
Arguments in_tail {Y}. Arguments in_yaml {Y}.

Definition io_EOF : error := Sentinel "EOF".

(** [map[string]json.RawMessage]: the last member of a name counts. *)
Definition last_member (kvs : list (string * json)) (name : string) : option json :=
  foldl (λ acc kv, if bool_decide (kv.1 = name) then Some kv.2 else acc) None kvs.

Definition is_array (o : option json) : bool :=
  match o with Some (JArr _) => true | _ => false end.

(** The scan over the keys of a YAML mapping: the first pair of that name decides. *)
Fixpoint yaml_sequence_at (name : string) (content : list ynode) : bool :=
  match content with
  | YNode _ k _ :: YNode kind _ _ :: rest =>
      if bool_decide (k = name) then bool_decide (kind = YSequence) else yaml_sequence_at name rest
  | _ => false
  end.

Definition required_collections : list string := ["deployments"; "leases"; "bids"].

Definition require_arrays (present : string → bool) : result unit :=
  foldR (λ _ name, if present name then Ok tt else failf "%s is required and must be an array" [name]) tt required_collections.

Section decode.
Context {Y : Type} `{YamlOps Y} `{Bech32}.

Definition validateRequiredImportCollections (data : input Y) (format : ExportFormat) : result unit :=
  match format with
  | FormatJSON =>
      match in_json data, in_tail data with
      | [JObj kvs], None => require_arrays (λ name, is_array (last_member kvs name))
      | [JNull], None => require_arrays (λ _, false)
      | _, _ => Err (Wrapf "inspect JSON envelope: %w" [] ErrJSON)
      end
  | FormatYAML =>
      document ← map_err (Wrapf "inspect YAML envelope: %w" []) (yaml_document (in_yaml data));
      match document with
      | YNode _ _ [YNode YMapping _ content] => require_arrays (λ name, yaml_sequence_at name content)
      | _ => failf "import envelope must be a mapping" []
      end
  | FormatOther n => failf "unsupported import format: %d" [FormatInt n]
  end.

Definition decodeImportEnvelope (r : input Y) (format : ExportFormat) : result ExportEnvelope :=
  match in_error r with
  | Some e => Err (Wrapf "read input: %w" [] e)
  | None =>
      if (maxEncodedEnvelopeBytes <? in_size r)%N
      then failf "import input exceeds %d bytes" [FormatUint maxEncodedEnvelopeBytes]
      else
        env ← match format with
              | FormatYAML =>
                  env ← map_err (Wrapf "unmarshal YAML: %w" []) (yaml_decode (in_yaml r));
                  match yaml_next (in_yaml r) with
                  | NextDocument => failf "trailing YAML document" []
                  | NextError e => Err (Wrapf "decode trailing YAML data: %w" [] e)
                  | NextEOF => Ok env
                  end
              | FormatJSON =>
                  match in_json r with
                  | [] => Err (Wrapf "unmarshal JSON: %w" [] (default io_EOF (in_tail r)))
                  | j :: rest =>
                      match dec_envelope true j zero_envelope with
                      | None => Err (Wrapf "unmarshal JSON: %w" [] ErrJSON)
                      | Some env =>
                          match rest, in_tail r with
                          | _ :: _, _ => failf "trailing JSON document" []
                          | [], Some e => Err (Wrapf "decode trailing JSON data: %w" [] e)
                          | [], None => Ok env
                          end
                      end
                  end
              | FormatOther n => failf "unsupported import format: %d" [FormatInt n]
              end;
        _ ← validateRequiredImportCollections r format;
        _ ← map_err (Wrapf "validate import: %w" []) (validateImportEnvelope env);
        Ok env
  end.
End decode.

(** ** Applying an import *)
Section import.
Context {Tx : Type} `{BoltOps Tx}.

Definition clearDataBucketsTxWithCreate (tx : Tx) (createBucket : Tx → string → result Tx) : result Tx :=
  foldR (λ tx name,
           tx ← map_err (Wrapf "delete bucket %s: %w" [name]) (tx_delete_bucket tx name);
           map_err (Wrapf "recreate bucket %s: %w" [name]) (createBucket tx name))
    tx [bucketDeployments; bucketLeases; bucketBids; bucketSync].

Definition clearDataBucketsTx (tx : Tx) : result Tx := clearDataBucketsTxWithCreate tx tx_create.

(** The three loops poll the context before each row. Formatting the error of a
    nil record dereferences it. *)
Definition import_deployment (st : goctx * Tx) (d : option DeploymentRecord) : result (goctx * Tx) :=
  let '(ctx, tx) := st in
  ctx ← ctx_Err ctx;
  match putDeploymentTx tx d, d with
  | Ok tx, _ => Ok (ctx, tx)
  | Err e, Some d => Err (Wrapf "put deployment %s/%d: %w" [d_Owner d; FormatUint (d_DSeq d)] e)
  | _, _ => Panic
  end.

Definition import_lease (st : goctx * Tx) (l : option LeaseRecord) : result (goctx * Tx) :=
  let '(ctx, tx) := st in
  ctx ← ctx_Err ctx;
  match putLeaseTx tx l, l with
  | Ok tx, _ => Ok (ctx, tx)
  | Err e, Some l => Err (Wrapf "put lease %s: %w" [LeaseKey (l_ID l)] e)
  | _, _ => Panic
  end.

Definition import_bid (st : goctx * Tx) (b : option BidRecord) : result (goctx * Tx) :=
  let '(ctx, tx) := st in
  ctx ← ctx_Err ctx;
  match putBidTx tx b, b with
  | Ok tx, _ => Ok (ctx, tx)
  | Err e, Some b => Err (Wrapf "put bid %s: %w" [BidKey (b_ID b)] e)
  | _, _ => Panic
  end.

Definition applyImportTx (ctx : goctx) (tx : Tx) (env : ExportEnvelope) (merge : bool) : result Tx :=
  ctx ← ctx_Err ctx;
  tx ← (if merge then Ok tx else map_err (Wrapf "clear data buckets: %w" []) (clearDataBucketsTx tx));
  '(ctx, tx) ← foldR import_deployment (ctx, tx) (default [] (e_Deployments env));
  '(ctx, tx) ← foldR import_lease (ctx, tx) (default [] (e_Leases env));
  '(ctx, tx) ← foldR import_bid (ctx, tx) (default [] (e_Bids env));
  match e_SyncState env with
  | None => Ok tx
  | Some s =>
      _ ← ctx_Err ctx;
      map_err (Wrapf "put sync state: %w" []) (putSyncStateTx tx (Some s))
  end.

Context {Y : Type} `{YamlOps Y} `{Bech32}.

Definition importData (ctx : goctx) (db : Tx) (r : input Y) (format : ExportFormat) (merge : bool) : Tx * result unit :=
  match decodeImportEnvelope r format with
  | Ok env => db_Update db (λ tx, applyImportTx ctx tx env merge)
  | Err e => (db, Err e)
  | Panic => (db, Panic)
  end.

(** [validateImportData]: the same transaction, always rolled back. The error
    that rolls a successful one back is created by the call, so it is told
    apart from every error of the transaction itself. *)
Definition validateImportData (ctx : goctx) (db : Tx) (r : input Y) (format : ExportFormat) (merge : bool) : Tx * result unit :=
  match decodeImportEnvelope r format with
  | Ok env =>
      match applyImportTx ctx db env merge with
      | Ok _ => (db, Ok tt) (* return dryRunRollback *)
      | Err e => (db, Err e)
      | Panic => (db, Panic)
      end
  | Err e => (db, Err e)
  | Panic => (db, Panic)
  end.
End import.

(** ** Migrations

    A migration's function is code of its own: any function on transactions. *)
Record Migration (Tx : Type) : Type := MkMigration {
  m_Version : N;
  m_Description : string;
  m_Fn : Tx → result Tx;
}.
Arguments MkMigration {Tx}. Arguments m_Version {Tx}. Arguments m_Description {Tx}. Arguments m_Fn {Tx}.

Section migrate.
Context {Tx : Type} `{BoltOps Tx}.
Implicit Types (migrations : list (Migration Tx)).

Definition migration_le (a b : Migration Tx) : Prop := (m_Version a ≤ m_Version b)%N.
#[global] Instance migration_le_dec : RelDecision migration_le.
Proof. intros a b. unfold migration_le. apply _. Defined.

(** The registry is the package variable; a duplicate version panics. *)
Definition RegisterMigration migrations (m : Migration Tx) : result (list (Migration Tx)) :=
  if existsb (λ existing, (m_Version existing =? m_Version m)%N) migrations then Panic
  else Ok (merge_sort migration_le (migrations ++ [m])).

Definition latestVersion migrations : N :=
  foldl (λ highest m, if (highest <? m_Version m)%N then m_Version m else highest) currentSchemaVersion migrations.

Definition schemaVersionFromTx (tx : Tx) : result N :=
  data ← bucket_get tx bucketMeta keySchemaVersion;
  Ok (schema_bytes data).

Definition migrate_step (current : N) (tx : Tx) (m : Migration Tx) : result Tx :=
  if (m_Version m <=? current)%N then Ok tx
  else
    tx ← map_err (Wrapf "migration to v%d (%s): %w" [FormatUint (m_Version m); m_Description m]) (m_Fn m tx);
    map_err (Wrapf "update schema_version to %d: %w" [FormatUint (m_Version m)])
      (bucket_put tx bucketMeta keySchemaVersion (Raw (be64 (m_Version m)))).

Definition migrate_tx migrations (tx : Tx) : result Tx :=
  current ← schemaVersionFromTx tx;
  foldR (migrate_step current) tx migrations.

Definition migrate migrations (db : Tx) : Tx * result unit := db_Update db (migrate_tx migrations).

Definition Migrate := migrate.
End migrate.

(** ** The dry run on a copy of the database file *)
Inductive source_file (Tx : Type) : Type :=
| SourceMissing
| SourceEmpty
| SourceDatabase (db : Tx)
| SourceStatError (e : error).
Arguments SourceMissing {Tx}. Arguments SourceEmpty {Tx}. Arguments SourceDatabase {Tx}. Arguments SourceStatError {Tx}.

(** What the operating system and bbolt do around the copy: each [None] is a
    success. *)
Record snapshot_io : Type := MkSnapshotIO {
  io_createTemp : option error;
  io_deadline : option Z;          (* time until the context's deadline, in nanoseconds *)
  io_openSource : Z → option error;  (* bolt.Open read-only, given the lock timeout *)
  io_writeTo : option error;
  io_closeSource : option error;
  io_closeTemp : option error;
  io_openTemp : option error;
  io_closeSnapshot : option error;
}.

Definition ErrTimeout : string := "bbolt timeout".
Definition DeadlineExceeded : error := Sentinel "context deadline exceeded".
Definition storeSnapshotLockTimeout : Z := 250000000.

Definition os_check (o : option error) (f : error → error) : result unit :=
  match o with None => Ok tt | Some e => Err (f e) end.

Definition copyStoreSnapshotWithOpen (io : snapshot_io) (ctx : goctx) (sourcePath : string) : result goctx :=
  ctx ← ctx_Err ctx;
  '(lockTimeout, deadlineBounded) ←
    match io_deadline io with
    | None => Ok (storeSnapshotLockTimeout, false)
    | Some remaining =>
        if (remaining <=? 0)%Z then Err DeadlineExceeded
        else if (remaining <? storeSnapshotLockTimeout)%Z then Ok (remaining, true)
        else Ok (storeSnapshotLockTimeout, false)
    end;
  match io_openSource io lockTimeout with
  | Some e =>
      _ ← ctx_Err ctx;
      if deadlineBounded && errors_is e ErrTimeout
      then Err (Wrapf "open store snapshot %s before context deadline: %w" [sourcePath] DeadlineExceeded)
      else Err (Wrapf "open store snapshot %s: %w" [sourcePath] e)
  | None =>
      ctx ← (ctx ← ctx_Err ctx;
             _ ← os_check (io_writeTo io) (Wrapf "copy store snapshot: %w" []);
             ctx_Err ctx);
      _ ← os_check (io_closeSource io) (Wrapf "close store snapshot: %w" []);
      Ok ctx
  end.

Section dry_run.
Context {Tx : Type} `{BoltOps Tx} {Y : Type} `{YamlOps Y} `{Bech32}.

(** The database the disposable file holds: a copy of the source, or the empty
    one of a file that [Open] initialises. *)
Definition validateImportSnapshot (io : snapshot_io) (empty : Tx) (migrations : list (Migration Tx)) (ctx : goctx)
    (sourcePath : string) (source : source_file Tx) (r : input Y) (format : ExportFormat) (merge : bool) : result unit :=
  ctx ← ctx_Err ctx;
  _ ← os_check (io_createTemp io) (Wrapf "create disposable store: %w" []);
  '(ctx, file) ← match source with
                 | SourceDatabase db => ctx ← copyStoreSnapshotWithOpen io ctx sourcePath; Ok (ctx, db)
                 | SourceEmpty | SourceMissing => Ok (ctx, empty)
                 | SourceStatError e => Err (Wrapf "inspect store %s: %w" [sourcePath] e)
                 end;
  _ ← os_check (io_closeTemp io) (Wrapf "close disposable store: %w" []);
  _ ← os_check (io_openTemp io) (Wrapf "open disposable store: %w" []);
  let '(snapshot, opened) := Open file in
  _ ← map_err (Wrapf "open disposable store: %w" []) opened;
  let '(snapshot, migrated) := migrate migrations snapshot in
  _ ← map_err (Wrapf "migrate disposable store: %w" []) migrated;
  _ ← (validateImportData ctx snapshot r format merge).2;
  os_check (io_closeSnapshot io) (Wrapf "close disposable store: %w" []).
End dry_run.
