(* ===== verification/ExportSpec.v ===== *)
(** * What export, import and migration do to a store

    The snapshot an export reads, the rows an import writes, the validity of an
    envelope, and the versions migrations go through. *)

From Stdlib Require Import Ascii.
From stdpp Require Import sorting base gmap strings pretty option numbers list.
From S2P Require Import Prelude GoStd GoJson Bolt StoreTypes StoreOps StoreRep StoreSpec StoreExport.

(** ** The exported envelope of a store *)
Definition env_of (A : astore) (contextName exportedAt : string) : ExportEnvelope :=
  MkEnvelope exportEnvelopeVersion contextName (a_schema A) exportedAt (a_sync A)
    (Some (Some <$> in_key_order (a_deps A))) (Some (Some <$> in_key_order (a_leases A))) (Some (Some <$> in_key_order (a_bids A))).

Definition ptr_ok {A} (ok : A → bool) (o : option A) : bool :=
  match o with None => true | Some a => ok a end.

Definition envelope_ok (e : ExportEnvelope) : bool :=
  in_i64 (e_Version e) && utf8_ok (e_Context e) && in_u64 (e_SchemaVersion e) && utf8_ok (e_ExportedAt e)
  && ptr_ok sync_state_ok (e_SyncState e) && slice_ok (ptr_ok deployment_ok) (e_Deployments e)
  && slice_ok (ptr_ok lease_ok) (e_Leases e) && slice_ok (ptr_ok bid_ok) (e_Bids e).

Lemma dec_enc_ptr {A} (ok : A → bool) zero enc (dec : decoder A) o :
  (∀ a, ok a = true → dec (enc a) zero = Some a) → (∀ a, enc a ≠ JNull) → ptr_ok ok o = true →
  dec_ptr zero dec (enc_ptr enc o) None = Some o.
Proof.
  intros Hd Hn Ho. destruct o as [a|]; [|done]. simpl in Ho |- *. specialize (Hd a Ho). specialize (Hn a).
  unfold dec_ptr. cbn [default from_option]. rewrite Hd. by destruct (enc a).
Qed.

Lemma dec_enc_envelope strict e : envelope_ok e = true →
  dec_envelope strict (enc_envelope e) zero_envelope = Some (initializeCollections e).
Proof.
  destruct e as [a b c d s x y z]. unfold envelope_ok. cbn [e_Version e_Context e_SchemaVersion e_ExportedAt e_SyncState e_Deployments e_Leases e_Bids].
  intros Hok. split_andb. unfold dec_envelope, enc_envelope, dec_struct. cbv zeta.
  set (r := initializeCollections _).
  do 4 codec_member r.
  erewrite (dec_members_step _ _ _ _ _ _ _ _ _ r); [|reflexivity|].
  2: { apply (dec_enc_ptr sync_state_ok); [by intros; apply dec_enc_sync_state|done|done]. }
  assert (∀ {A} (ok : A → bool) (l : option (list (option A))), slice_ok (ptr_ok ok) l = true →
    ∀ k, Some (default [] l) = Some k → Forall (λ o, ptr_ok ok o = true) k) as Hs.
  { intros A ok l Hl k [= <-]. destruct l as [l|]; [|constructor]. simpl in *.
    by apply (slice_ok_Forall (ptr_ok ok) (Some l)). }
  erewrite (dec_members_step _ _ _ _ _ _ _ _ _ r); [|reflexivity|].
  2: { apply (dec_enc_slice (λ o, ptr_ok deployment_ok o = true)); [|by apply Hs].
       intros o Ho. apply (dec_enc_ptr deployment_ok); [by intros; apply dec_enc_deployment|done|done]. }
  erewrite (dec_members_step _ _ _ _ _ _ _ _ _ r); [|reflexivity|].
  2: { apply (dec_enc_slice (λ o, ptr_ok lease_ok o = true)); [|by apply Hs].
       intros o Ho. apply (dec_enc_ptr lease_ok); [by intros; apply dec_enc_lease|done|done]. }
  erewrite (dec_members_step _ _ _ _ _ _ _ _ _ r); [|reflexivity|].
  2: { apply (dec_enc_slice (λ o, ptr_ok bid_ok o = true)); [|by apply Hs].
       intros o Ho. apply (dec_enc_ptr bid_ok); [by intros; apply dec_enc_bid|done|done]. }
  reflexivity.
Qed.

Lemma family_slice_ok {R} `{StoreRecordLaws R} (m : gmap string R) : family_wf m →
  slice_ok (ptr_ok sr_ok) (Some (Some <$> in_key_order m)) = true.
Proof.
  intros Hwf. simpl. apply forallb_forall. intros o (r & -> & Hin)%list_elem_of_In%list_elem_of_fmap.
  apply in_key_order_elem in Hin as [k Hk]. simpl. by destruct (Hwf k r Hk).
Qed.

Lemma env_of_ok A name at_ : astore_wf A → utf8_ok name = true → utf8_ok at_ = true →
  envelope_ok (env_of A name at_) = true.
Proof.
  intros Hwf Hn Ha. unfold envelope_ok. cbn [env_of e_Version e_Context e_SchemaVersion e_ExportedAt e_SyncState e_Deployments e_Leases e_Bids].
  split_andb; [done|done|apply (wf_schema _ Hwf)|done| | | |].
  - destruct (a_sync A) as [s|] eqn:E; [|done]. by apply (wf_sync _ Hwf).
  - exact (family_slice_ok (a_deps A) (wf_deps _ Hwf)).
  - exact (family_slice_ok (a_leases A) (wf_leases _ Hwf)).
  - exact (family_slice_ok (a_bids A) (wf_bids _ Hwf)).
Qed.

(** ** Reading the snapshot of a represented store *)
Lemma export_rows {R} `{StoreRecordLaws R} fam (l : list (string * R)) acc :
  Forall (λ kr, sr_ok kr.2 = true) l →
  foldR (export_row fam sr_dec sr_zero) (None, acc) (prod_map id (λ r, Text (sr_enc r)) <$> l)
  = Ok (None, acc ++ (Some <$> l.*2)).
Proof.
  intros HF. revert acc. induction HF as [|[k r] l Hr _ IH]; intros acc; [by csimpl; rewrite app_nil_r|].
  simpl in Hr. rewrite fmap_cons. cbn [foldR]. unfold export_row at 2. cbn [prod_map fst snd ctx_Err mbind result_bind].
  rewrite Unmarshal_record by done. cbn [map_err mbind result_bind]. rewrite IH. csimpl. by rewrite <- app_assoc.
Qed.

Section export.
Context {Tx : Type} `{BoltLaws Tx}.
Implicit Types (t db : Tx) (A : astore).

Lemma export_family {R} `{StoreRecordLaws R} fam t (m : gmap string R) :
  view t !! sr_bucket R = Some (encoded m) → family_wf m →
  foldR (export_row fam sr_dec sr_zero) (None, []) (tx_foreach t (sr_bucket R)) = Ok (None, Some <$> in_key_order m).
Proof.
  intros Hb Hwf. rewrite (foreach_sorted_members _ _ _ Hb). unfold encoded. rewrite sorted_members_fmap.
  rewrite export_rows; [done|]. apply Forall_forall. intros [k r] Hk%sorted_members_elem. by destruct (Hwf _ _ Hk).
Qed.

Lemma required_ok t n b : view t !! n = Some b → requiredExportBucket t n = Ok tt.
Proof. intros Hb. unfold requiredExportBucket. rewrite law_bucket, Hb. by rewrite bool_decide_eq_true_2. Qed.

Lemma readExportSnapshot_rep t A name at_ : store_rep t A →
  readExportSnapshot None t (MkEnvelope exportEnvelopeVersion name 0 at_ None (Some []) (Some []) (Some []))
  = Ok (None, env_of A name at_).
Proof.
  intros Hr. unfold readExportSnapshot. cbn [ctx_Err mbind result_bind].
  rewrite (required_ok _ _ _ (rep_meta _ _ Hr)), (required_ok _ _ _ (rep_sync _ _ Hr)),
    (required_ok _ bucketDeployments _ (rep_deps _ _ Hr)), (required_ok _ bucketLeases _ (rep_leases _ _ Hr)),
    (required_ok _ bucketBids _ (rep_bids _ _ Hr)). cbn [mbind result_bind].
  rewrite !law_get, (rep_meta _ _ Hr), (rep_sync _ _ Hr). cbn [mbind option_bind].
  change (meta_bucket (a_schema A) !! keySchemaVersion) with (Some (Raw (be64 (a_schema A)))).
  cbn [from_option raw_bytes]. unfold byte_len at 1. rewrite be64_length, Uint64_be64 by apply (rep_wf_schema _ _ Hr).
  pose proof (export_family "deployments" t (a_deps A) (rep_deps _ _ Hr) (rep_wf_deps _ _ Hr)) as Hd.
  pose proof (export_family "leases" t (a_leases A) (rep_leases _ _ Hr) (rep_wf_leases _ _ Hr)) as Hl.
  pose proof (export_family "bids" t (a_bids A) (rep_bids _ _ Hr) (rep_wf_bids _ _ Hr)) as Hb.
  cbn [sr_dec sr_zero sr_bucket deployment_family lease_family bid_family] in Hd, Hl, Hb.
  assert ((match sync_bucket (a_sync A) !! keySyncState with
           | None => Ok (set_e_SchemaVersion (a_schema A) (MkEnvelope exportEnvelopeVersion name 0 at_ None (Some []) (Some []) (Some [])))
           | Some data =>
               syncState ← map_err (Wrapf "decode sync record %q: %w" [keySyncState])
                             (Unmarshal (dec_sync_state false) data zero_sync_state);
               Ok (set_e_SyncState (Some syncState) (set_e_SchemaVersion (a_schema A) (MkEnvelope exportEnvelopeVersion name 0 at_ None (Some []) (Some []) (Some []))))
           end) = Ok (MkEnvelope exportEnvelopeVersion name (a_schema A) at_ (a_sync A) (Some []) (Some []) (Some []))) as Hs.
  { destruct (a_sync A) as [s|] eqn:E; [|done].
    change (sync_bucket (Some s) !! keySyncState) with (Some (Text (enc_sync_state s))).
    cbn [Unmarshal]. rewrite dec_enc_sync_state by by eapply rep_wf_sync. done. }
  cbn [default from_option id N.eqb negb]. change (N.of_nat 8 =? 8)%N with true. cbn [negb]. rewrite Hs. cbn [mbind result_bind e_Deployments e_Leases e_Bids default from_option id].
  rewrite Hd. cbn [mbind result_bind]. rewrite Hl. cbn [mbind result_bind]. rewrite Hb. reflexivity.
Qed.
End export.

(** ** Importing into a represented store *)
Section import.
Context {Tx : Type} `{BoltLaws Tx}.
Implicit Types (t db : Tx) (A : astore).

Lemma clear_buckets t l : Forall (λ n, n ≠ EmptyString ∧ is_Some (view t !! n)) l →
  ∃ t', foldR (λ tx name,
           tx ← map_err (Wrapf "delete bucket %s: %w" [name]) (tx_delete_bucket tx name);
           map_err (Wrapf "recreate bucket %s: %w" [name]) (tx_create tx name)) t l = Ok t' ∧
    view t' = foldl (λ m n, <[n := ∅]> m) (view t) l.
Proof.
  revert t. induction l as [|n l IH]; intros t HF; [by eauto|]. apply Forall_cons in HF as [[Hn Hs] HF].
  cbn [foldR foldl]. destruct (law_delete_bucket t n Hs) as (t1 & -> & Hv1). cbn [map_err mbind result_bind].
  destruct (law_create t1 n) as (t2 & -> & Hv2); [by rewrite Hv1, lookup_delete_eq|done|].
  cbn [map_err mbind result_bind]. rewrite Hv1, insert_delete_eq in Hv2.
  destruct (IH t2) as (t' & -> & Hv'); [|by rewrite Hv2 in Hv'; eauto].
  eapply Forall_impl; [exact HF|]. intros n' [? Hs']. split; [done|]. rewrite Hv2.
  destruct (decide (n' = n)) as [->|]; [by rewrite lookup_insert_eq|by rewrite lookup_insert_ne].
Qed.

Definition cleared A : astore := MkAStore ∅ ∅ ∅ None (a_schema A).

Lemma clearDataBucketsTx_rep t A : store_rep t A → ∃ t', clearDataBucketsTx t = Ok t' ∧ store_rep t' (cleared A).
Proof.
  intros Hr. destruct (clear_buckets t [bucketDeployments; bucketLeases; bucketBids; bucketSync]) as (t' & Ht & Hv).
  - rewrite (rep_view _ _ Hr). by repeat constructor.
  - exists t'. split; [exact Ht|]. split; [by rewrite Hv, (rep_view _ _ Hr)|]. split; [done..|apply (rep_wf_schema _ _ Hr)].
Qed.

(** The import loops are loops of puts. *)
Lemma import_deployments_puts t (l : list DeploymentRecord) :
  foldR import_deployment (None, t) (Some <$> l) =
  pair None <$> foldR (λ t r, map_err (Wrapf "put deployment %s/%d: %w" [d_Owner r; FormatUint (d_DSeq r)]) (put_record t (Some r))) t l.
Proof.
  revert t. induction l as [|d l IH]; intros t; [done|]. rewrite fmap_cons. cbn [foldR]. unfold import_deployment at 2.
  cbn [ctx_Err mbind result_bind]. rewrite putDeploymentTx_generic. by destruct (put_record t (Some d)) as [t'| |]; [apply IH|..].
Qed.

Lemma import_leases_puts t (l : list LeaseRecord) :
  foldR import_lease (None, t) (Some <$> l) =
  pair None <$> foldR (λ t r, map_err (Wrapf "put lease %s: %w" [LeaseKey (l_ID r)]) (put_record t (Some r))) t l.
Proof.
  revert t. induction l as [|d l IH]; intros t; [done|]. rewrite fmap_cons. cbn [foldR]. unfold import_lease at 2.
  cbn [ctx_Err mbind result_bind]. rewrite putLeaseTx_generic. by destruct (put_record t (Some d)) as [t'| |]; [apply IH|..].
Qed.

Lemma import_bids_puts t (l : list BidRecord) :
  foldR import_bid (None, t) (Some <$> l) =
  pair None <$> foldR (λ t r, map_err (Wrapf "put bid %s: %w" [BidKey (b_ID r)]) (put_record t (Some r))) t l.
Proof.
  revert t. induction l as [|d l IH]; intros t; [done|]. rewrite fmap_cons. cbn [foldR]. unfold import_bid at 2.
  cbn [ctx_Err mbind result_bind]. rewrite putBidTx_generic. by destruct (put_record t (Some d)) as [t'| |]; [apply IH|..].
Qed.

(** Restoring a family into its emptied bucket. *)
Lemma put_restore {R} `{StoreRecordLaws R} `{!BoltHealthy Tx} (g : R → error → error) t (m : gmap string R) :
  view t !! sr_bucket R = Some (encoded (∅ : gmap string R)) → family_wf m →
  ∃ t', foldR (λ t r, map_err (g r) (put_record t (Some r))) t (in_key_order m) = Ok t' ∧
        view t' = <[sr_bucket R := encoded m]> (view t).
Proof.
  intros Hb Hwf. assert (family_wf (∅ : gmap string R)) as He by done.
  assert (Forall (λ r, sr_ok r = true) (in_key_order m)) as HF.
  { apply Forall_forall. intros r [k Hk]%in_key_order_elem. by destruct (Hwf k r Hk). }
  destruct (put_records_ok g (in_key_order m) t ∅ m Hb He HF) as [t' Ht'].
  - intros r v [k Hk]%in_key_order_elem. split; [|apply healthy_value]. by destruct (Hwf k r Hk) as (_ & -> & _ & ?).
  - by apply aputs_restore.
  - exists t'. split; [done|].
    apply (put_records_inv g _ _ _ ∅) in Ht' as (m' & Hm' & _ & Hv); [|done..].
    rewrite aputs_restore in Hm' by done. by simplify_eq.
Qed.

Lemma applyImportTx_restore `{!BoltHealthy Tx} t A A2 name at_ : store_rep t A2 → astore_wf A →
  ∃ t', applyImportTx None t (env_of A name at_) false = Ok t' ∧
    store_rep t' (MkAStore (a_deps A) (a_leases A) (a_bids A) (a_sync A) (a_schema A2)).
Proof.
  intros Hr Hwf. unfold applyImportTx. cbn [ctx_Err mbind result_bind].
  destruct (clearDataBucketsTx_rep t A2 Hr) as (t0 & -> & Hr0). cbn [map_err mbind result_bind].
  cbn [env_of e_Deployments e_Leases e_Bids e_SyncState default from_option id]. rewrite import_deployments_puts.
  destruct (put_restore (λ r, Wrapf "put deployment %s/%d: %w" [d_Owner r; FormatUint (d_DSeq r)]) t0 (a_deps A)
    (rep_deps _ _ Hr0) (wf_deps _ Hwf)) as (t1 & -> & Hv1). cbn [fmap result_fmap mbind result_bind].
  rewrite (rep_view _ _ Hr0), buckets_with_deps in Hv1.
  rewrite import_leases_puts.
  destruct (put_restore (λ r, Wrapf "put lease %s: %w" [LeaseKey (l_ID r)]) t1 (a_leases A))
    as (t2 & -> & Hv2); [by rewrite Hv1|apply (wf_leases _ Hwf)|]. cbn [fmap result_fmap mbind result_bind].
  rewrite Hv1, buckets_with_leases in Hv2. rewrite import_bids_puts.
  destruct (put_restore (λ r, Wrapf "put bid %s: %w" [BidKey (b_ID r)]) t2 (a_bids A))
    as (t3 & -> & Hv3); [by rewrite Hv2|apply (wf_bids _ Hwf)|]. cbn [fmap result_fmap mbind result_bind].
  rewrite Hv2, buckets_with_bids in Hv3.
  destruct (a_sync A) as [s|] eqn:Es.
  - destruct (bucket_put_ok t3 bucketSync ∅ keySyncState (Text (enc_sync_state s))) as (t4 & Ht4 & Hv4);
      [by rewrite Hv3|done|apply healthy_value|].
    exists t4. cbn [ctx_Err mbind result_bind]. unfold putSyncStateTx, putSyncStateTxWithMarshal.
    cbn [map_err mbind result_bind]. rewrite Ht4. split; [done|]. rewrite <- Es. split; [by rewrite Hv4, Hv3, Es|].
    split; [apply Hwf..|apply (rep_wf_schema _ _ Hr)].
  - exists t3. split; [done|]. split; [exact Hv3|]. split; [apply Hwf..|done|apply (rep_wf_schema _ _ Hr)].
Qed.
End import.

(** ** Validation, declaratively *)
Section valid.
Context `{Bech32}.

Definition address_ok (a : string) : Prop :=
  ∃ d, StringToBytes a = Ok d ∧ byte_len d = 20%N ∧ BytesToString d = Ok a.

Record deployment_valid (d : DeploymentRecord) : Prop := {
  dv_dseq : d_DSeq d ≠ 0%N;
  dv_owner : address_ok (d_Owner d);
  dv_state : d_State d ∈ ["active"; "closed"];
  dv_times : (0 ≤ d_CreatedAt d ∧ 0 ≤ d_UpdatedAt d ∧ 0 ≤ d_ClosedAt d ∧ 0 ≤ d_CreatedHeight d)%Z;
}.

Record lease_valid (l : LeaseRecord) : Prop := {
  lv_seqs : lid_DSeq (l_ID l) ≠ 0%N ∧ lid_GSeq (l_ID l) ≠ 0%N ∧ lid_OSeq (l_ID l) ≠ 0%N;
  lv_owner : address_ok (lid_Owner (l_ID l));
  lv_provider : address_ok (lid_Provider (l_ID l));
  lv_state : l_State l ∈ ["active"; "closed"; "insufficient_funds"];
  lv_times : (0 ≤ l_CreatedAt l ∧ 0 ≤ l_ClosedAt l)%Z;
}.

Record bid_valid (b : BidRecord) : Prop := {
  bv_seqs : bid_DSeq (b_ID b) ≠ 0%N ∧ bid_GSeq (b_ID b) ≠ 0%N ∧ bid_OSeq (b_ID b) ≠ 0%N;
  bv_owner : address_ok (bid_Owner (b_ID b));
  bv_provider : address_ok (bid_Provider (b_ID b));
  bv_state : b_State b ∈ ["open"; "matched"; "closed"; "lost"];
  bv_time : (0 ≤ b_CreatedAt b)%Z;
}.

Record sync_valid (s : SyncState) : Prop := {
  sv_times : (0 ≤ ss_LastBlockHeight s ∧ 0 ≤ ss_LastSyncTime s)%Z;
  sv_schema : (ss_SchemaVersion s ≤ currentSchemaVersion)%N;
  sv_accounts : Forall address_ok (default [] (ss_TrackedAccounts s));
}.

(** Rows without nil pointers, each valid, with distinct keys. *)
Definition rows_valid {R} (valid : R → Prop) (key : R → string) (l : list (option R)) : Prop :=
  ∃ rs, l = Some <$> rs ∧ Forall valid rs ∧ NoDup (key <$> rs).

Record envelope_valid (e : ExportEnvelope) : Prop := {
  ev_version : e_Version e = exportEnvelopeVersion;
  ev_schema : (1 ≤ e_SchemaVersion e ≤ currentSchemaVersion)%N;
  ev_deployments : rows_valid deployment_valid (λ d, DeploymentKey (d_Owner d) (d_DSeq d)) (default [] (e_Deployments e));
  ev_leases : rows_valid lease_valid (λ l, LeaseKey (l_ID l)) (default [] (e_Leases e));
  ev_bids : rows_valid bid_valid (λ b, BidKey (b_ID b)) (default [] (e_Bids e));
  ev_sync : ∀ s, e_SyncState e = Some s → sync_valid s;
}.

Lemma address_check a : validateImportAccountAddress a = Ok tt ↔ address_ok a.
Proof.
  unfold validateImportAccountAddress, address_ok. split.
  - intros (d & Hd%map_err_ok & Hc)%bind_ok. destruct (N.eqb_spec (byte_len d) 20) as [E|]; [|done]. simpl in Hc.
    apply bind_ok in Hc as (c & Hc%map_err_ok & Hb). case_bool_decide; [|done]. subst. eauto.
  - intros (d & -> & Hl & Hb). cbn [map_err mbind result_bind]. rewrite Hl. cbn [N.eqb negb].
    change (20 =? 20)%N with true. cbn [negb]. rewrite Hb. cbn [map_err mbind result_bind].
    by rewrite bool_decide_eq_true_2.
Qed.

(** A loop that checks each row and collects its key. *)
Section rows.
Context {R : Type} (check : nat * list string → option R → result (nat * list string))
  (valid : R → Prop) (key : R → string).
Hypothesis check_spec : ∀ i seen o st', check (i, seen) o = Ok st' ↔
  ∃ r, o = Some r ∧ valid r ∧ key r ∉ seen ∧ st' = (S i, key r :: seen).

Lemma check_rows l i seen : (∃ st', foldR check (i, seen) l = Ok st') ↔
  ∃ rs, l = Some <$> rs ∧ Forall valid rs ∧ NoDup (key <$> rs) ∧ ∀ r, r ∈ rs → key r ∉ seen.
Proof using check_spec.
  revert i seen. induction l as [|o l IH]; intros i seen.
  { split; [|by eauto]. intros _. exists []. split_and!; [done|constructor|constructor|set_solver]. }
  cbn [foldR]. split.
  - intros [st' (st1 & (r & -> & Hv & Hk & ->)%check_spec & Hf)%bind_ok].
    destruct (proj1 (IH (S i) (key r :: seen))) as (rs & -> & HF & HN & Hs); [by eauto|].
    exists (r :: rs). split_and!; [done|by constructor| |].
    + csimpl. apply NoDup_cons. split; [|done]. intros (r' & E & Hin)%list_elem_of_fmap.
      apply (Hs r' Hin). rewrite E. by left.
    + intros r' [->|Hin]%elem_of_cons; [done|]. specialize (Hs r' Hin). set_solver.
  - intros (rs & E & HF & HN & Hs). destruct rs as [|r rs]; [done|]. rewrite fmap_cons in E. simplify_eq.
    apply Forall_cons in HF as [Hv HF]. csimpl in HN. apply NoDup_cons in HN as [Hn HN].
    assert (check (i, seen) (Some r) = Ok (S i, key r :: seen)) as ->.
    { apply check_spec. exists r. split_and!; [done..| |done]. apply Hs. by left. }
    cbn [mbind result_bind]. apply IH. exists rs. split_and!; [done..|].
    intros r' Hin [E|Hs']%elem_of_cons; [|by apply (Hs r'); [right|]].
    apply Hn. rewrite <- E. by apply list_elem_of_fmap_2.
Qed.

Lemma check_rows_valid l : (∃ st', foldR check (O, []) l = Ok st') ↔ rows_valid valid key l.
Proof using check_spec. rewrite check_rows. unfold rows_valid. set_solver. Qed.
End rows.

(** The guards of a row check, one at a time. *)
Lemma guard_ok {A} (b : bool) f args (k : result A) a :
  (if b then failf f args else k) = Ok a ↔ b = false ∧ k = Ok a.
Proof. destruct b; naive_solver. Qed.

Lemma address_then {A} f a (k : result A) st :
  (_ ← map_err f (validateImportAccountAddress a); k) = Ok st ↔ address_ok a ∧ k = Ok st.
Proof.
  rewrite <- address_check. destruct (validateImportAccountAddress a) as [[]| |]; simpl; naive_solver.
Qed.

Lemma negb_elem (s : string) (l : list string) : negb (bool_decide (s ∈ l)) = false ↔ s ∈ l.
Proof. rewrite negb_false_iff. apply bool_decide_eq_true. Qed.

Lemma check_deployment_spec i seen o st' : check_deployment (i, seen) o = Ok st' ↔
  ∃ d, o = Some d ∧ deployment_valid d ∧ DeploymentKey (d_Owner d) (d_DSeq d) ∉ seen ∧
       st' = (S i, DeploymentKey (d_Owner d) (d_DSeq d) :: seen).
Proof.
  destruct o as [d|]; [|split; [done|naive_solver]]. unfold check_deployment.
  rewrite guard_ok, address_then, !guard_ok, negb_elem, bool_decide_eq_false, N.eqb_neq.
  rewrite !orb_false_iff, !Z.ltb_ge. split.
  - intros (? & ? & ? & ? & ? & [= <-]). exists d. split_and!; try done. split; tauto.
  - intros (d' & [= <-] & [] & ? & ->). tauto.
Qed.

Lemma check_lease_spec i seen o st' : check_lease (i, seen) o = Ok st' ↔
  ∃ l, o = Some l ∧ lease_valid l ∧ LeaseKey (l_ID l) ∉ seen ∧ st' = (S i, LeaseKey (l_ID l) :: seen).
Proof.
  destruct o as [l|]; [|split; [done|naive_solver]]. unfold check_lease.
  rewrite guard_ok, !address_then, !guard_ok, negb_elem, bool_decide_eq_false.
  rewrite !orb_false_iff, !Z.ltb_ge, !N.eqb_neq. split.
  - intros (? & ? & ? & ? & ? & ? & [= <-]). exists l. split_and!; try done. split; tauto.
  - intros (l' & [= <-] & [] & ? & ->). tauto.
Qed.

Lemma check_bid_spec i seen o st' : check_bid (i, seen) o = Ok st' ↔
  ∃ b, o = Some b ∧ bid_valid b ∧ BidKey (b_ID b) ∉ seen ∧ st' = (S i, BidKey (b_ID b) :: seen).
Proof.
  destruct o as [b|]; [|split; [done|naive_solver]]. unfold check_bid.
  rewrite guard_ok, !address_then, !guard_ok, negb_elem, bool_decide_eq_false.
  rewrite !orb_false_iff, !Z.ltb_ge, !N.eqb_neq. split.
  - intros (? & ? & ? & ? & ? & ? & [= <-]). exists b. split_and!; try done. split; tauto.
  - intros (b' & [= <-] & [] & ? & ->). tauto.
Qed.

Lemma check_accounts l i : (∃ j, foldR check_account i l = Ok j) ↔ Forall address_ok l.
Proof.
  revert i. induction l as [|a l IH]; intros i; [split; [constructor|by eauto]|].
  cbn [foldR]. unfold check_account at 2. rewrite Forall_cons, <- (IH (S i)), <- address_check.
  destruct (validateImportAccountAddress a) as [[]| |]; cbn [map_err mbind result_bind];
    [split; [by split|by intros [_ ?]]|split; [by intros [? ?]|by intros [? _]]..].
Qed.

Lemma check_sync_spec o : check_sync o = Ok tt ↔ ∀ s, o = Some s → sync_valid s.
Proof.
  destruct o as [s|]; [|naive_solver]. unfold check_sync. rewrite !guard_ok, orb_false_iff, !Z.ltb_ge, N.ltb_ge.
  assert ((_ ← foldR check_account 0 (default [] (ss_TrackedAccounts s)); Ok tt) = Ok tt ↔
          Forall address_ok (default [] (ss_TrackedAccounts s))) as ->.
  { rewrite <- (check_accounts _ 0). destruct (foldR _ _ _); simpl; naive_solver. }
  split; [intros (? & ? & ?) s' [= <-]; by split|]. intros Hs. by destruct (Hs s eq_refl).
Qed.

Lemma then_ok {A B} (r : result A) (k : result B) b : (_ ← r; k) = Ok b ↔ (∃ a, r = Ok a) ∧ k = Ok b.
Proof. destruct r; simpl; naive_solver. Qed.

Lemma validate_spec e : validateImportEnvelope e = Ok tt ↔ envelope_valid e.
Proof.
  unfold validateImportEnvelope. rewrite !guard_ok, !then_ok, check_sync_spec.
  rewrite (check_rows_valid _ _ _ check_deployment_spec), (check_rows_valid _ _ _ check_lease_spec),
    (check_rows_valid _ _ _ check_bid_spec).
  rewrite negb_false_iff, Z.eqb_eq, orb_false_iff, N.eqb_neq, N.ltb_ge. split.
  - intros (? & [? ?] & ? & ? & ? & ?). split; try done. lia.
  - intros []. split_and!; try done; lia.
Qed.
End valid.

(** ** The size writer *)
Lemma size_Write_spec w p : (0 ≤ sw_written w ≤ sw_limit w)%Z →
  size_Write w p =
    if (sw_written w + Z.of_N (byte_len p) <=? sw_limit w)%Z
    then (MkSizeWriter (sw_written w + Z.of_N (byte_len p)) (sw_limit w), Ok tt)
    else (w, failf "export envelope exceeds %d bytes" [FormatInt (sw_limit w)]).
Proof.
  intros Hw. unfold size_Write. destruct (Z.ltb_spec (sw_limit w - sw_written w) 0); [lia|]. cbn [orb].
  destruct (Z.ltb_spec (sw_limit w - sw_written w) (Z.of_N (byte_len p))), (Z.leb_spec (sw_written w + Z.of_N (byte_len p)) (sw_limit w)); done || lia.
Qed.

Definition total_len (chunks : list string) : Z := foldr (λ c n, (Z.of_N (byte_len c) + n)%Z) 0%Z chunks.

Lemma total_len_nonneg chunks : (0 ≤ total_len chunks)%Z.
Proof. induction chunks; simpl; lia. Qed.

(** Chunks go through the size writer exactly when they fit together. *)
Lemma write_all_size w chunks : (0 ≤ sw_written w ≤ sw_limit w)%Z →
  (write_all size_Write w chunks).2 = Ok tt ↔ (sw_written w + total_len chunks ≤ sw_limit w)%Z.
Proof.
  revert w. induction chunks as [|c chunks IH]; intros w Hw; cbn [write_all total_len foldr]; [simpl; split; [lia|done]|].
  rewrite size_Write_spec by done. pose proof (total_len_nonneg chunks).
  fold (total_len chunks). destruct (Z.leb_spec (sw_written w + Z.of_N (byte_len c)) (sw_limit w)).
  - rewrite IH by (simpl; lia). simpl. lia.
  - simpl. split; [done|lia].
Qed.
