(* ===== verification/ExportProps.v ===== *)
(** * Properties of export, import and migration

    Each property on the modelled operations, with an instance on the in-memory
    database and a small YAML and address codec. *)

From Stdlib Require Import Ascii.
From stdpp Require Import sorting base gmap strings pretty option numbers list.
From S2P Require Import Prelude GoStd GoJson Bolt StoreTypes StoreOps StoreRep StoreSpec StoreExport ExportSpec.

(** A writer that keeps everything: the bytes written so far. *)
Definition buffer_Write (w p : string) : string * result unit := (w +:+ p, Ok tt).

Definition newline : string := String (ascii_of_N 10) EmptyString.

(** The JSON text of an envelope, as the encoder writes it. *)
Definition envelope_text (env : ExportEnvelope) : string := json_text (Some O) (enc_envelope env) +:+ newline.

(** The input that holds exactly that text. *)
Definition json_input {Y} (env : ExportEnvelope) (y : Y) : input Y :=
  MkInput (byte_len (envelope_text env)) None [enc_envelope env] None y.

Lemma required_enc_envelope env : require_arrays (λ name, is_array (last_member
  match enc_envelope env with JObj kvs => kvs | _ => [] end name)) = Ok tt.
Proof. by destruct env. Qed.

Section props.
Context {Tx : Type} `{BoltLaws Tx} {Y : Type} `{YamlOps Y} `{Bech32}.
Implicit Types (db : Tx) (A : astore).

Lemma export_json db A w at_ name : store_rep db A →
  export buffer_Write at_ None db w FormatJSON name =
  match map_err (Wrapf "validate export snapshot: %w" []) (validateImportEnvelope (env_of A name at_)) with
  | Ok _ => if (byte_len (envelope_text (env_of A name at_)) <=? maxEncodedEnvelopeBytes)%N
            then (w +:+ envelope_text (env_of A name at_), Ok tt)
            else (w, Err (Wrapf "encode JSON: %w" [] (Errorf "export envelope exceeds %d bytes" [FormatInt (Z.of_N maxEncodedEnvelopeBytes)])))
  | Err e => (w, Err e)
  | Panic => (w, Panic)
  end.
Proof.
  intros Hr. unfold export. rewrite (readExportSnapshot_rep db A name at_ Hr). cbn [map_err].
  destruct (validateImportEnvelope _) as [[]| |]; cbn [map_err]; [|done..].
  unfold encodeExportEnvelope. fold (envelope_text (env_of A name at_)).
  set (text := envelope_text _). unfold newline in *.
  change (json_text (Some 0) (enc_envelope (env_of A name at_)) +:+ String (ascii_of_N 10) "") with text.
  rewrite size_Write_spec by done. cbn [sw_written sw_limit]. rewrite Z.add_0_l.
  destruct (Z.leb_spec (Z.of_N (byte_len text)) (Z.of_N maxEncodedEnvelopeBytes)), (N.leb_spec (byte_len text) maxEncodedEnvelopeBytes);
    try lia; done.
Qed.

(** Validation is exact. [validateImportEnvelope] accepts an envelope iff
    its versions are supported, no record is null, every record has a complete
    identity with canonical addresses, a known state and no negative time, the
    keys within each collection are distinct, and the sync state is in range. *)
Theorem validateImportEnvelope_iff env : validateImportEnvelope env = Ok tt ↔ envelope_valid env.
Proof. apply validate_spec. Qed.

(** Export is exact and all-or-nothing. On a store, a JSON export to a
    buffer either appends the complete envelope of the store, which is valid
    and at most 64 MiB, or appends nothing and fails because the envelope is
    invalid or too large. *)
Theorem export_json_exact db A w at_ name : store_rep db A →
  let env := env_of A name at_ in
  match export buffer_Write at_ None db w FormatJSON name with
  | (w', Ok _) => w' = w +:+ envelope_text env ∧ envelope_valid env ∧ (byte_len (envelope_text env) ≤ maxEncodedEnvelopeBytes)%N
  | (w', _) => w' = w ∧ (¬ envelope_valid env ∨ (maxEncodedEnvelopeBytes < byte_len (envelope_text env))%N)
  end.
Proof.
  intros Hr env. rewrite (export_json db A w at_ name Hr). fold env.
  pose proof (validate_spec env) as Hv. destruct (validateImportEnvelope env) as [[]|e|]; cbn [map_err].
  - destruct (N.leb_spec (byte_len (envelope_text env)) maxEncodedEnvelopeBytes); split; auto. by split; [apply Hv|].
  - split; [done|]. left. intros Hc%Hv. done.
  - split; [done|]. left. intros Hc%Hv. done.
Qed.

(** C2: Round trip. Whatever a JSON export of one store wrote, importing it in
    replace mode into any other store succeeds and makes the deployments,
    leases, bids and sync state of that store, record versions included, those
    of the first; only the schema version of the target stays. *)
Theorem export_import_roundtrip `{!BoltHealthy Tx} db db2 A A2 out at_ name (y : Y) :
  store_rep db A → store_rep db2 A2 → utf8_ok name = true → utf8_ok at_ = true →
  export buffer_Write at_ None db "" FormatJSON name = (out, Ok tt) →
  ∃ env db2', out = envelope_text env ∧
    importData None db2 (json_input env y) FormatJSON false = (db2', Ok tt) ∧
    store_rep db2' (MkAStore (a_deps A) (a_leases A) (a_bids A) (a_sync A) (a_schema A2)).
Proof.
  intros Hr Hr2 Hn Ha. rewrite (export_json db A "" at_ name Hr).
  destruct (validateImportEnvelope (env_of A name at_)) as [[]| |] eqn:Hv; [|done..]. cbn [map_err].
  destruct (N.leb_spec (byte_len (envelope_text (env_of A name at_))) maxEncodedEnvelopeBytes) as [Hs|]; [|done].
  intros [= <-]. exists (env_of A name at_).
  destruct (applyImportTx_restore db2 A A2 name at_ Hr2 (rep_wf _ _ Hr)) as (t & Ht & Hrt). exists t.
  split; [done|]. split; [|done]. unfold importData, decodeImportEnvelope, json_input.
  cbn [in_error in_size in_json in_tail]. rewrite (proj2 (N.ltb_ge _ _) Hs).
  rewrite dec_enc_envelope by (apply env_of_ok; [apply (rep_wf _ _ Hr)|done..]). cbn [mbind result_bind].
  change (validateRequiredImportCollections _ FormatJSON) with
    (require_arrays (λ name', is_array (last_member match enc_envelope (env_of A name at_) with JObj kvs => kvs | _ => [] end name'))).
  rewrite required_enc_envelope. cbn [mbind result_bind].
  change (initializeCollections (env_of A name at_)) with (env_of A name at_).
  rewrite Hv. cbn [map_err mbind result_bind]. by apply db_Update_healthy.
Qed.

(** The dry run. [ValidateImport] never changes the database, succeeds
    whenever the import succeeds and fails with the same error whenever the
    transaction of the import fails; on a database that can commit, the two
    agree on every input. *)
Theorem dry_run_agrees ctx db (r : input Y) format merge :
  (validateImportData ctx db r format merge).1 = db ∧
  ((importData ctx db r format merge).2 = Ok tt → (validateImportData ctx db r format merge).2 = Ok tt) ∧
  ((∀ t : Tx, tx_commit t = None) → (validateImportData ctx db r format merge).2 = (importData ctx db r format merge).2).
Proof.
  unfold validateImportData, importData, db_Update. destruct (decodeImportEnvelope r format) as [env| |]; [|done..].
  destruct (applyImportTx ctx db env merge) as [t| |]; [|done..]. split_and!; [done..|]. intros Hc. by rewrite Hc.
Qed.

(** Imports are atomic. An import that does not succeed, because of its
    input, a cancelled context, a record conflict or the database, leaves the
    database as it was. *)
Theorem import_atomic ctx db db' (r : input Y) format merge res :
  importData ctx db r format merge = (db', res) → res ≠ Ok tt → db' = db.
Proof.
  unfold importData. destruct (decodeImportEnvelope r format); [apply db_Update_atomic|by intros [= <- <-]..].
Qed.

(** The chunks an encoder writes. *)
Definition export_chunks (format : ExportFormat) (env : ExportEnvelope) : result (list string) :=
  match format with
  | FormatJSON => Ok [envelope_text env]
  | FormatYAML => chunks ← yaml_encode env; Ok ((String "-" (String "-" (String "-" newline)) :: chunks) ++ yaml_close env)
  | FormatOther n => failf "unsupported export format: %d" [FormatInt n]
  end.

Lemma write_all_app {W} (Write : W → string → W * result unit) w l1 l2 :
  write_all Write w (l1 ++ l2) =
  match write_all Write w l1 with (w, Ok _) => write_all Write w l2 | (w, r) => (w, r) end.
Proof.
  revert w. induction l1 as [|c l1 IH]; intros w; [done|]. cbn [app write_all].
  destruct (Write w c) as [w' [[]| |]]; [apply IH|done..].
Qed.

Lemma encode_ok_chunks {W} (Write : W → string → W * result unit) w format env w' :
  encodeExportEnvelope Write w format env = (w', Ok tt) ↔
  ∃ chunks, export_chunks format env = Ok chunks ∧ write_all Write w chunks = (w', Ok tt).
Proof.
  destruct format as [| |n]; cbn [encodeExportEnvelope export_chunks].
  - fold newline. destruct (yaml_encode env) as [chunks| |]; cbn [mbind result_bind].
    + transitivity (write_all Write w ((String "-" (String "-" (String "-" newline)) :: chunks) ++ yaml_close env) = (w', Ok tt)).
      2: { split; [by eauto|]. by intros (? & [= <-] & ?). }
      rewrite write_all_app. cbn [write_all].
      destruct (Write w _) as [w1 [[]|e|]]; cbn [map_err]; [|split; by intros [=]..].
      destruct (write_all Write w1 chunks) as [w2 [[]|e|]]; cbn [map_err]; [|split; by intros [=]..].
      destruct (write_all Write w2 (yaml_close env)) as [w3 [[]|e|]]; cbn [map_err]; [done|split; by intros [=]..].
    + destruct (Write w _) as [w1 [[]|e'|]]; cbn [map_err]; (split; [by intros [=]|by intros (? & [=] & _)]).
    + destruct (Write w _) as [w1 [[]|e'|]]; cbn [map_err]; (split; [by intros [=]|by intros (? & [=] & _)]).
  - fold newline. fold (envelope_text env).
    transitivity (write_all Write w [envelope_text env] = (w', Ok tt)); [|split; [by eauto|by intros (? & [= <-] & ?)]].
    cbn [write_all]. destruct (Write w (envelope_text env)) as [w1 [[]|e|]]; cbn [map_err]; [done|split; by intros [=]..].
  - split; [by intros [=]|by intros (? & [=] & _)].
Qed.

(** The size limit. In either format, an export that succeeds wrote at most
    64 MiB in all, so the reader's limit never refuses it, and an export whose
    encoding is larger fails before its writer has seen a byte. *)
Theorem export_size_limit {W} (Write : W → string → W * result unit) ctx db w at_ format name :
  (∀ w', export Write at_ ctx db w format name = (w', Ok tt) →
     ∃ env chunks, export_chunks format env = Ok chunks ∧ write_all Write w chunks = (w', Ok tt) ∧
       (total_len chunks ≤ Z.of_N maxEncodedEnvelopeBytes)%Z) ∧
  (∀ c env chunks,
     readExportSnapshot ctx db (MkEnvelope exportEnvelopeVersion name 0 at_ None (Some []) (Some []) (Some [])) = Ok (c, env) →
     export_chunks format env = Ok chunks → (Z.of_N maxEncodedEnvelopeBytes < total_len chunks)%Z →
     (export Write at_ ctx db w format name).1 = w ∧ (export Write at_ ctx db w format name).2 ≠ Ok tt).
Proof.
  assert (∀ env chunks, export_chunks format env = Ok chunks →
    (encodeExportEnvelope size_Write (MkSizeWriter 0 (Z.of_N maxEncodedEnvelopeBytes)) format env).2 = Ok tt →
    (total_len chunks ≤ Z.of_N maxEncodedEnvelopeBytes)%Z) as Hsize.
  { intros env chunks Hc. destruct (encodeExportEnvelope _ _ _ _) as [w' r] eqn:E. cbn [snd]. intros ->.
    apply encode_ok_chunks in E as (chunks' & Hc' & Hw). rewrite Hc in Hc'. injection Hc' as <-.
    apply (f_equal snd) in Hw. apply write_all_size in Hw; [|done]. cbn [sw_written sw_limit] in Hw. by rewrite Z.add_0_l in Hw. }
  unfold export. split.
  - intros w'. destruct (readExportSnapshot _ _ _) as [[c env]| |]; cbn [map_err]; [|by intros [=]..].
    destruct (validateImportEnvelope env) as [[]| |]; cbn [map_err]; [|by intros [=]..].
    destruct (encodeExportEnvelope size_Write _ format env).2 as [[]| |] eqn:Es; [|by intros [=]..].
    intros (chunks & Hc & Hw)%encode_ok_chunks. exists env, chunks. eauto.
  - intros c env chunks Hs Hc Hlt. rewrite Hs. cbn [map_err].
    destruct (validateImportEnvelope env) as [[]| |]; cbn [map_err]; [|done..].
    destruct (encodeExportEnvelope size_Write _ format env).2 as [[]| |] eqn:Es; [|done..].
    specialize (Hsize env chunks Hc Es). lia.
Qed.
End props.

(** ** Migrations *)
Section migrations.
Context {Tx : Type} `{BoltLaws Tx}.
Implicit Types (db t : Tx) (m : Migration Tx) (ms : list (Migration Tx)).

(** The registry: versions strictly ascending. *)
Definition migration_lt (a b : Migration Tx) : Prop := (m_Version a < m_Version b)%N.
Definition registry_wf ms : Prop := StronglySorted migration_lt ms.

Lemma registered_twice ms m :
  existsb (λ e : Migration Tx, (m_Version e =? m_Version m)%N) ms = true ↔ m_Version m ∈ (m_Version <$> ms : list N).
Proof.
  rewrite existsb_exists, list_elem_of_fmap. setoid_rewrite <- list_elem_of_In. setoid_rewrite N.eqb_eq. naive_solver.
Qed.

Lemma sorted_distinct ms : StronglySorted migration_le ms → NoDup (m_Version <$> ms : list N) → registry_wf ms.
Proof.
  induction 1 as [|m ms _ IH HF]; [constructor|]. csimpl. intros [Hn HN]%NoDup_cons. constructor; [by apply IH|].
  rewrite Forall_forall in HF |- *. intros m' Hm'. specialize (HF m' Hm'). unfold migration_le in HF. unfold migration_lt.
  assert (m_Version m ≠ m_Version m'); [|lia]. intros E. apply Hn. rewrite E. by apply list_elem_of_fmap_2.
Qed.

Lemma registry_NoDup ms : registry_wf ms → NoDup (m_Version <$> ms : list N).
Proof.
  induction 1 as [|m ms _ IH HF]; [constructor|]. csimpl. apply NoDup_cons. split; [|done].
  rewrite Forall_forall in HF. intros (m' & E & Hm')%list_elem_of_fmap. specialize (HF m' Hm'). unfold migration_lt in HF. lia.
Qed.

(** The registry. Registering keeps the migrations strictly ascending by
    version and adds exactly the new one; it panics exactly on a version that is
    already registered. *)
Theorem RegisterMigration_registry ms m : registry_wf ms →
  match RegisterMigration ms m with
  | Ok ms' => registry_wf ms' ∧ ms' ≡ₚ m :: ms
  | Panic => m_Version m ∈ (m_Version <$> ms : list N)
  | Err _ => False
  end.
Proof.
  intros Hwf. unfold RegisterMigration. destruct (existsb _ ms) eqn:E; [by apply registered_twice|].
  assert (merge_sort migration_le (ms ++ [m]) ≡ₚ m :: ms) as Hp.
  { rewrite merge_sort_Permutation. by rewrite Permutation_app_comm. }
  split; [|done]. apply sorted_distinct.
  - apply StronglySorted_merge_sort.
    + intros a b c. unfold migration_le. lia.
    + intros a b. unfold migration_le. lia.
  - rewrite Hp. csimpl. apply NoDup_cons. split; [|by apply registry_NoDup].
    rewrite <- registered_twice. by rewrite E.
Qed.

Lemma migrate_skip c t ms : Forall (λ m, (m_Version m ≤ c)%N) ms → foldR (migrate_step c) t ms = Ok t.
Proof.
  induction 1 as [|m ms Hm _ IH]; [done|]. cbn [foldR]. unfold migrate_step at 2.
  by rewrite (proj2 (N.leb_le _ _) Hm).
Qed.

Lemma registry_snoc ms m : registry_wf (ms ++ [m]) → Forall (λ m', (m_Version m' < m_Version m)%N) ms.
Proof.
  intros HS. apply Forall_forall. intros m' Hm'. apply list_elem_of_split in Hm' as (l1 & l2 & ->).
  unfold registry_wf in HS. rewrite <- app_assoc in HS. apply StronglySorted_app in HS as (_ & _ & HS). cbn [app] in HS.
  apply StronglySorted_inv in HS as [_ HF]. rewrite Forall_forall in HF. apply HF. set_solver.
Qed.

Lemma SchemaVersion_put t t' v : in_u64 v = true →
  bucket_put t bucketMeta keySchemaVersion (Raw (be64 v)) = Ok t' → SchemaVersion t' = Ok v.
Proof.
  intros Hv (b & Hb & _ & Hview)%bucket_put_inv. unfold SchemaVersion.
  rewrite (bucket_get_view _ _ (<[keySchemaVersion := Raw (be64 v)]> b)) by by rewrite Hview, lookup_insert_eq.
  cbn [mbind result_bind]. rewrite lookup_insert_eq. unfold schema_bytes. cbn [raw_bytes]. by rewrite Uint64_be64.
Qed.

(** Migrating. When a migration of a store with a registered, ascending list
    of migrations succeeds, the schema version is the largest of the old one
    and the registered ones, and a second migration changes nothing; when it
    fails, in any migration, the database is as it was. *)
Theorem migrate_reaches_latest db ms : registry_wf ms → Forall (λ m, in_u64 (m_Version m) = true) ms →
  match migrate ms db with
  | (db', Ok _) => ∃ c v, SchemaVersion db = Ok c ∧ SchemaVersion db' = Ok v ∧ (c ≤ v)%N ∧
      Forall (λ m, (m_Version m ≤ v)%N) ms ∧ (v = c ∧ db' = db ∨ ∃ m, m ∈ ms ∧ v = m_Version m) ∧
      migrate ms db' = (db', Ok tt)
  | (db', _) => db' = db
  end.
Proof.
  intros HS HF. destruct (migrate ms db) as [db' r] eqn:E. destruct r as [[]| |]; [|by eapply db_Update_atomic..].
  unfold migrate in E. apply db_Update_ok in E as [(c & Hc & Hf)%bind_ok Hcommit].
  change (SchemaVersion db = Ok c) in Hc.
  assert (∃ v, SchemaVersion db' = Ok v ∧ (c ≤ v)%N ∧ Forall (λ m, (m_Version m ≤ v)%N) ms ∧
    (v = c ∧ db' = db ∨ ∃ m, m ∈ ms ∧ v = m_Version m)) as (v & Hv & Hcv & Hall & Hor).
  { destruct ms as [|m ms _] using rev_ind; [simplify_eq/=; exists c; split_and!; [done|done|constructor|by left]|].
    pose proof (registry_snoc _ _ HS) as Hlt. destruct (N.leb_spec (m_Version m) c) as [Hle|Hgt].
    - assert (Forall (λ m, (m_Version m ≤ c)%N) (ms ++ [m])) as Hall.
      { apply Forall_app. split; [|by constructor]. eapply Forall_impl; [exact Hlt|]. intros m' Hm'. simpl in *. lia. }
      rewrite (migrate_skip c db _ Hall) in Hf. simplify_eq. exists c. split_and!; [done..|by left].
    - rewrite foldR_app in Hf. apply bind_ok in Hf as (t1 & _ & Hf). cbn [foldR] in Hf.
      apply bind_ok in Hf as (t3 & Hf & [= ->]). unfold migrate_step in Hf.
      rewrite (proj2 (N.leb_gt _ _) Hgt) in Hf. apply bind_ok in Hf as (t2 & _ & Hp%map_err_ok).
      rewrite Forall_app, Forall_singleton in HF. exists (m_Version m). split_and!.
      + apply (SchemaVersion_put t2); [apply HF|done].
      + lia.
      + apply Forall_app. split; [|by constructor]. eapply Forall_impl; [exact Hlt|]. intros m' Hm'. simpl in *. lia.
      + right. exists m. split; [set_solver|done]. }
  exists c, v. split_and!; try done. unfold migrate. apply db_Update_ok. split; [|done].
  unfold migrate_tx. change (schemaVersionFromTx db') with (SchemaVersion db'). rewrite Hv. cbn [mbind result_bind].
  by apply migrate_skip.
Qed.
End migrations.

(** ** The properties at concrete inputs

    A codec that takes every string for an address, and a YAML package that
    refuses everything: the JSON paths do not use it. *)
Module Toy.
#[global] Instance codec : Bech32 := {| StringToBytes s := Ok s; BytesToString s := Ok s |}.
#[global] Instance yaml : YamlOps unit := {|
  yaml_decode _ := Err (Sentinel "yaml");
  yaml_next _ := NextEOF;
  yaml_document _ := Err (Sentinel "yaml");
  yaml_encode _ := Err (Sentinel "yaml");
  yaml_close _ := [];
|}.

Definition owner : string := "akash1owneraddress00".
Definition deployment : DeploymentRecord :=
  set_d_RecordVersion 4 (set_d_State "active" (set_d_DSeq 7 (set_d_Owner owner zero_deployment))).
Definition store : astore := MkAStore {[ DeploymentKey owner 7 := deployment ]} ∅ ∅ (Some (MkSync 12 34 None 1)) 1.
Definition db : buckets := buckets_of store.

Lemma rep : store_rep db store.
Proof.
  split; [reflexivity|]. split; [|done|done|by intros s [= <-]|done].
  cbn [a_deps store]. intros k d [<- <-]%lookup_singleton_Some. split_and!; try reflexivity. done.
Qed.

Lemma rep_empty : store_rep (buckets_of empty_astore) empty_astore.
Proof. split; [reflexivity|]. by split. Qed.
End Toy.

Lemma export_json_exact_witness :
  export (Y := unit) buffer_Write "now" None Toy.db "" FormatJSON "main"
  = (envelope_text (env_of Toy.store "main" "now"), Ok tt).
Proof.
  pose proof (export_json_exact (Y := unit) Toy.db Toy.store "" "now" "main" Toy.rep) as H.
  destruct (export (Y := unit) buffer_Write "now" None Toy.db "" FormatJSON "main") as [w r] eqn:E.
  assert (r = Ok tt) as Hr by (apply (f_equal snd) in E; vm_compute in E; symmetry; exact E).
  rewrite Hr in H |- *. destruct H as (Hw & _). rewrite Hw. reflexivity.
Defined.

Lemma export_import_roundtrip_witness :
  ∃ out env db2', out = envelope_text env ∧
    importData (Y := unit) None (buckets_of empty_astore) (json_input env tt) FormatJSON false = (db2', Ok tt) ∧
    store_rep db2' (MkAStore (a_deps Toy.store) (a_leases Toy.store) (a_bids Toy.store) (a_sync Toy.store) 1).
Proof.
  exists (export (Y := unit) buffer_Write "now" None Toy.db "" FormatJSON "main").1.
  apply (export_import_roundtrip (Y := unit) Toy.db (buckets_of empty_astore) Toy.store empty_astore
    (export (Y := unit) buffer_Write "now" None Toy.db "" FormatJSON "main").1 "now" "main" tt);
    [exact Toy.rep|exact Toy.rep_empty|reflexivity|reflexivity|vm_compute; reflexivity].
Defined.

Lemma dry_run_agrees_witness :
  (validateImportData (Y := unit) None Toy.db (json_input (env_of Toy.store "main" "now") tt) FormatJSON true).2
  = (importData (Y := unit) None Toy.db (json_input (env_of Toy.store "main" "now") tt) FormatJSON true).2.
Proof.
  destruct (dry_run_agrees (Y := unit) None Toy.db (json_input (env_of Toy.store "main" "now") tt) FormatJSON true) as (_ & _ & Hd).
  apply Hd. intros t. reflexivity.
Defined.

Lemma import_atomic_witness :
  (importData (Y := unit) (Some 1) Toy.db (json_input (env_of Toy.store "main" "now") tt) FormatJSON false).1 = Toy.db.
Proof.
  apply (import_atomic (Y := unit) (Some 1) Toy.db _ (json_input (env_of Toy.store "main" "now") tt) FormatJSON false
    (importData (Y := unit) (Some 1) Toy.db (json_input (env_of Toy.store "main" "now") tt) FormatJSON false).2
    (surjective_pairing _)).
  vm_compute. discriminate.
Defined.

Lemma export_size_limit_witness :
  ∃ env chunks, export_chunks (Y := unit) FormatJSON env = Ok chunks ∧
    write_all buffer_Write "" chunks = (envelope_text (env_of Toy.store "main" "now"), Ok tt) ∧
    (total_len chunks ≤ Z.of_N maxEncodedEnvelopeBytes)%Z.
Proof.
  destruct (export_size_limit (Y := unit) buffer_Write None Toy.db "" "now" FormatJSON "main") as [Hl _].
  apply Hl. vm_compute. reflexivity.
Defined.

Definition demo_migration (v : N) : Migration buckets := MkMigration v "touch" (λ t, Ok t).

Lemma RegisterMigration_registry_witness :
  match RegisterMigration [demo_migration 3] (demo_migration 2) with
  | Ok ms' => registry_wf ms' ∧ ms' ≡ₚ [demo_migration 2; demo_migration 3]
  | _ => False
  end.
Proof.
  pose proof (RegisterMigration_registry [demo_migration 3] (demo_migration 2) ltac:(repeat constructor)) as H.
  exact H.
Defined.

Lemma migrate_reaches_latest_witness :
  match migrate [demo_migration 2; demo_migration 3] Toy.db with
  | (db', Ok _) => migrate [demo_migration 2; demo_migration 3] db' = (db', Ok tt)
  | _ => False
  end.
Proof.
  pose proof (migrate_reaches_latest Toy.db [demo_migration 2; demo_migration 3]
    ltac:(repeat constructor) ltac:(repeat constructor)) as H.
  destruct (migrate [demo_migration 2; demo_migration 3] Toy.db) as [db' r] eqn:E.
  assert (r = Ok tt) as Hr by (apply (f_equal snd) in E; vm_compute in E; symmetry; exact E).
  rewrite Hr in H |- *. destruct H as (c & v & _ & _ & _ & _ & _ & Hm). exact Hm.
Defined.
