(* ===== verification/Sync.v ===== *)
(** * The sync engine (internal/sync) and its view of the store

    The engine works against the [store.Store] interface, a class here, and
    reads the chain through the [Querier] interface, a record of functions. Chain
    events and query responses are those of the chain SDK, with the fields the
    engine reads; prices and coin lists, which the SDK renders, are strings. *)

From Stdlib Require Import Ascii.
From stdpp Require Import sorting base gmap strings pretty option numbers list.
From S2P Require Import Prelude GoStd GoJson Bolt StoreTypes StoreOps StoreRep StoreSpec StoreClose StoreRun.

(** ** The interface of the store, as the engine and the commands use it *)
Class Store (S : Type) := {
  st_PutDeployment : S → option DeploymentRecord → S * result unit;
  st_GetDeployment : S → string → N → result (option DeploymentRecord);
  st_ListDeployments : S → DeploymentFilter → result (list DeploymentRecord);
  st_PutLease : S → option LeaseRecord → S * result unit;
  st_GetLease : S → LeaseID → result (option LeaseRecord);
  st_PutBid : S → option BidRecord → S * result unit;
  st_GetBid : S → BidID → result (option BidRecord);
  st_GetSyncState : S → result (option SyncState);
  st_PutSyncState : S → option SyncState → S * result unit;
  st_SchemaVersion : S → result N;
}.

(** [BoltStore] implements it. *)
#[global] Instance BoltStore {Tx} `{BoltOps Tx} : Store Tx := {|
  st_PutDeployment := PutDeployment; st_GetDeployment := GetDeployment; st_ListDeployments := ListDeployments;
  st_PutLease := PutLease; st_GetLease := GetLease;
  st_PutBid := PutBid; st_GetBid := GetBid;
  st_GetSyncState := GetSyncState; st_PutSyncState := PutSyncState;
  st_SchemaVersion := SchemaVersion;
|}.

(** ** The unique owner of a deployment number (store.UniqueDeploymentOwner) *)
Definition UniqueDeploymentOwner {S} `{Store S} (s : option S) (dseq : N) : result string :=
  match s with
  | None => Ok EmptyString
  | Some s =>
      if (dseq =? 0)%N then Ok EmptyString
      else
        records ← map_err (Wrapf "list local deployments: %w" []) (st_ListDeployments s no_deployment_filter);
        let seen : gset string := foldl (λ seen record,
          if negb (d_DSeq record =? dseq)%N || bool_decide (d_Owner record = EmptyString) then seen
          else seen ∪ {[ d_Owner record ]}) ∅ records in
        match sort_strings (elements seen) with
        | [] => Ok EmptyString
        | [owner] => Ok owner
        | owners => failf "deployment %d has multiple local owners (%s); pass an owner to `akt store sync <address>` instead of guessing"
                      [FormatUint dseq; strings_Join owners ", "]
        end
  end.

(** ** Chain events *)
Inductive chain_event : Type :=
| EventDeploymentCreated (owner : string) (dseq : N) (hash : option string)
| EventDeploymentUpdated (owner : string) (dseq : N) (hash : option string)
| EventDeploymentClosed (owner : string) (dseq : N)
| EventBidCreated (id : BidID) (price : string)
| EventBidClosed (id : BidID)
| EventLeaseCreated (id : LeaseID) (price : string)
| EventLeaseClosed (id : LeaseID)
| EventOther.

(** [Engine]: the tracked set; the store is passed along. *)
Record Engine : Type := MkEngine { tracked : gset string }.

Definition New (trackedAccounts : list string) : Engine :=
  MkEngine (foldl (λ t addr, t ∪ {[ addr ]}) ∅ trackedAccounts).

Definition isTracked (e : Engine) (owner : string) : bool := bool_decide (owner ∈ tracked e).

(** [time.Now().Unix()], one reading per call within an operation. *)
Abbreviation clock := (nat → Z).

Section engine.
Context {S : Type} `{Store S}.

(** [rec, err := get; if err != nil return err] with the store unchanged. *)
Definition read_then {A} (s : S) (r : result A) (k : A → S * result unit) : S * result unit :=
  match r with Ok a => k a | Err e => (s, Err e) | Panic => (s, Panic) end.

Definition handleDeploymentCreated (e : Engine) (now : clock) (s : S) (owner : string) (dseq : N) (hash : option string) : S * result unit :=
  if negb (isTracked e owner) then (s, Ok tt)
  else st_PutDeployment s (Some
         (set_d_UpdatedAt (now 0) (set_d_CreatedAt (now 0) (set_d_Version hash
           (set_d_State "active" (set_d_DSeq dseq (set_d_Owner owner zero_deployment))))))).

Definition handleDeploymentUpdated (e : Engine) (now : clock) (s : S) (owner : string) (dseq : N) (hash : option string) : S * result unit :=
  if negb (isTracked e owner) then (s, Ok tt)
  else read_then s (st_GetDeployment s owner dseq) (λ rec,
    let rec := match rec with
               | Some rec => rec
               | None => set_d_CreatedAt (now 0) (set_d_State "active" (set_d_DSeq dseq (set_d_Owner owner zero_deployment)))
               end in
    st_PutDeployment s (Some (set_d_UpdatedAt (now 1) (set_d_Version hash rec)))).

Definition handleDeploymentClosed (e : Engine) (now : clock) (s : S) (owner : string) (dseq : N) : S * result unit :=
  if negb (isTracked e owner) then (s, Ok tt)
  else read_then s (st_GetDeployment s owner dseq) (λ rec,
    let rec := default (set_d_DSeq dseq (set_d_Owner owner zero_deployment)) rec in
    st_PutDeployment s (Some (set_d_UpdatedAt (now 0) (set_d_ClosedAt (now 0) (set_d_State "closed" rec))))).

Definition handleBidCreated (e : Engine) (now : clock) (s : S) (id : BidID) (price : string) : S * result unit :=
  if negb (isTracked e (bid_Owner id)) then (s, Ok tt)
  else st_PutBid s (Some (set_b_CreatedAt (now 0) (set_b_Price price (set_b_State "open" (set_b_ID id zero_bid))))).

Definition handleBidClosed (e : Engine) (s : S) (id : BidID) : S * result unit :=
  if negb (isTracked e (bid_Owner id)) then (s, Ok tt)
  else read_then s (st_GetBid s id) (λ rec,
    st_PutBid s (Some (set_b_State "closed" (default (set_b_ID id zero_bid) rec)))).

Definition bid_of_lease (id : LeaseID) : BidID :=
  MkBidID (lid_Owner id) (lid_DSeq id) (lid_GSeq id) (lid_OSeq id) (lid_Provider id).

Definition handleLeaseCreated (e : Engine) (now : clock) (s : S) (id : LeaseID) (price : string) : S * result unit :=
  if negb (isTracked e (lid_Owner id)) then (s, Ok tt)
  else
    match st_PutLease s (Some (set_l_CreatedAt (now 0) (set_l_Price price (set_l_State "active" (set_l_ID id zero_lease))))) with
    | (s, Ok _) =>
        read_then s (st_GetBid s (bid_of_lease id)) (λ bid,
          match bid with
          | Some bid => st_PutBid s (Some (set_b_State "matched" bid))
          | None => (s, Ok tt)
          end)
    | (s, r) => (s, r)
    end.

Definition handleLeaseClosed (e : Engine) (now : clock) (s : S) (id : LeaseID) : S * result unit :=
  if negb (isTracked e (lid_Owner id)) then (s, Ok tt)
  else read_then s (st_GetLease s id) (λ rec,
    st_PutLease s (Some (set_l_ClosedAt (now 0) (set_l_State "closed" (default (set_l_ID id zero_lease) rec))))).

Definition HandleEvent (e : Engine) (now : clock) (s : S) (ev : chain_event) : S * result unit :=
  match ev with
  | EventDeploymentCreated owner dseq hash => handleDeploymentCreated e now s owner dseq hash
  | EventDeploymentUpdated owner dseq hash => handleDeploymentUpdated e now s owner dseq hash
  | EventDeploymentClosed owner dseq => handleDeploymentClosed e now s owner dseq
  | EventBidCreated id price => handleBidCreated e now s id price
  | EventBidClosed id => handleBidClosed e s id
  | EventLeaseCreated id price => handleLeaseCreated e now s id price
  | EventLeaseClosed id => handleLeaseClosed e now s id
  | EventOther => (s, Ok tt)
  end.
End engine.

(** ** Reconciliation *)
Record Querier : Type := MkQuerier {
  CurrentHeight : result Z;
  Deployments : string → result (list DeploymentRecord);
  Leases : string → N → result (list LeaseRecord);
  Bids : string → N → result (list BidRecord);
}.

Definition gapThreshold : Z := 1000.

Record ReconcileStats : Type := MkReconcileStats {
  rs_Accounts : Z; rs_Deployments : Z; rs_Leases : Z; rs_Bids : Z; rs_Height : Z;
}.

Definition mergeDeployment (existing : option DeploymentRecord) (fresh : DeploymentRecord) (now : Z) : DeploymentRecord :=
  let merged := fresh in
  let merged := if (d_UpdatedAt merged =? 0)%Z then set_d_UpdatedAt now merged else merged in
  let merged :=
    match existing with
    | Some x =>
        set_d_ClosedAt (d_ClosedAt x) (set_d_CreatedAt (d_CreatedAt x) (set_d_Tags (d_Tags x) (set_d_Notes (d_Notes x)
          (set_d_Labels (d_Labels x) (set_d_Deposit (d_Deposit x) (set_d_SDLPath (d_SDLPath x) (set_d_SDLHash (d_SDLHash x) merged)))))))
    | None => merged
    end in
  let merged := if (d_CreatedAt merged =? 0)%Z then set_d_CreatedAt now merged else merged in
  if bool_decide (d_State merged = "closed") && (d_ClosedAt merged =? 0)%Z then set_d_ClosedAt now merged else merged.

Definition mergeLease (existing : option LeaseRecord) (fresh : LeaseRecord) (now : Z) : LeaseRecord :=
  let merged := fresh in
  let merged :=
    match existing with
    | Some x => set_l_ClosedAt (l_ClosedAt x) (set_l_CreatedAt (l_CreatedAt x)
                  (set_l_Endpoints (l_Endpoints x) (set_l_ProviderURI (l_ProviderURI x) merged)))
    | None => merged
    end in
  let merged := if (l_CreatedAt merged =? 0)%Z then set_l_CreatedAt now merged else merged in
  if bool_decide (l_State merged = "closed") && (l_ClosedAt merged =? 0)%Z then set_l_ClosedAt now merged else merged.

Definition mergeBid (existing : option BidRecord) (fresh : BidRecord) (now : Z) : BidRecord :=
  let merged := fresh in
  let merged :=
    match existing with
    | Some x =>
        let merged := match b_ProviderAttributes fresh with
                      | None => set_b_ProviderAudited (b_ProviderAudited x) (set_b_ProviderAttributes (b_ProviderAttributes x) merged)
                      | Some _ => merged
                      end in
        set_b_CreatedAt (b_CreatedAt x) merged
    | None => merged
    end in
  if (b_CreatedAt merged =? 0)%Z then set_b_CreatedAt now merged else merged.

Section reconcile.
Context {S : Type} `{Store S}.

(** The state of a reconciliation: the store and what was counted so far. An
    error keeps both, as the early returns do. *)
Abbreviation rstate := (S * ReconcileStats)%type.

Definition step_result {A} (st : rstate) (r : result A) (k : A → rstate * result unit) : rstate * result unit :=
  match r with Ok a => k a | Err e => (st, Err e) | Panic => (st, Panic) end.

Fixpoint each {A} (f : rstate → A → rstate * result unit) (st : rstate) (l : list A) : rstate * result unit :=
  match l with
  | [] => (st, Ok tt)
  | x :: l =>
      match f st x with
      | (st, Ok _) => each f st l
      | (st, r) => (st, r)
      end
  end.

(** [if err := put; err != nil return stats, err] then count. *)
Definition put_count (stats : ReconcileStats) (p : S * result unit) (count : ReconcileStats → ReconcileStats) : rstate * result unit :=
  match p with
  | (s, Ok _) => ((s, count stats), Ok tt)
  | (s, r) => ((s, stats), r)
  end.

Definition count_dep (r : ReconcileStats) := MkReconcileStats (rs_Accounts r) (rs_Deployments r + 1) (rs_Leases r) (rs_Bids r) (rs_Height r).
Definition count_lea (r : ReconcileStats) := MkReconcileStats (rs_Accounts r) (rs_Deployments r) (rs_Leases r + 1) (rs_Bids r) (rs_Height r).
Definition count_bd (r : ReconcileStats) := MkReconcileStats (rs_Accounts r) (rs_Deployments r) (rs_Leases r) (rs_Bids r + 1) (rs_Height r).

Definition reconcile_lease (now : Z) (st : rstate) (l : LeaseRecord) : rstate * result unit :=
  step_result st (st_GetLease st.1 (l_ID l)) (λ existing,
    put_count st.2 (st_PutLease st.1 (Some (mergeLease existing l now))) count_lea).

Definition reconcile_bid (now : Z) (st : rstate) (b : BidRecord) : rstate * result unit :=
  step_result st (st_GetBid st.1 (b_ID b)) (λ existing,
    put_count st.2 (st_PutBid st.1 (Some (mergeBid existing b now))) count_bd).

(** [st1 ; st2]: go on when the first part succeeded. *)
Definition and_then (p : rstate * result unit) (k : rstate → rstate * result unit) : rstate * result unit :=
  match p with (st, Ok _) => k st | (st, r) => (st, r) end.

Definition reconcile_deployment (q : Querier) (now : Z) (owner : string) (st : rstate) (d : DeploymentRecord) : rstate * result unit :=
  and_then
    (step_result st (st_GetDeployment st.1 (d_Owner d) (d_DSeq d)) (λ existing,
       put_count st.2 (st_PutDeployment st.1 (Some (mergeDeployment existing d now))) count_dep))
    (λ st, and_then
      (step_result st (Leases q owner (d_DSeq d)) (each (reconcile_lease now) st))
      (λ st, step_result st (Bids q owner (d_DSeq d)) (each (reconcile_bid now) st))).

Definition reconcile_owner (q : Querier) (now : Z) (st : rstate) (owner : string) : rstate * result unit :=
  step_result st (Deployments q owner) (each (reconcile_deployment q now owner) st).

Definition tracked_list (e : Engine) : list string := sort_strings (elements (tracked e)).

Definition fullReconcile (e : Engine) (q : Querier) (now : Z) (s : S) : rstate * result unit :=
  each (reconcile_owner q now) (s, MkReconcileStats (Z.of_nat (size (tracked e))) 0 0 0 0) (tracked_list e).

Definition putSyncState (e : Engine) (now : Z) (s : S) (height : Z) : S * result unit :=
  match st_SchemaVersion s with
  | Ok v => st_PutSyncState s (Some (MkSync height now (Some (tracked_list e)) v))
  | Err e => (s, Err e)
  | Panic => (s, Panic)
  end.

(** [Reconcile]; the gap is an [int64] subtraction. *)
Definition Reconcile (e : Engine) (q : Querier) (now : clock) (s : S) : S * result unit :=
  read_then s (st_GetSyncState s) (λ ss,
  read_then s (CurrentHeight q) (λ currentHeight,
    if match ss with
       | None => true
       | Some ss => (gapThreshold <? wrap_i64 (currentHeight - ss_LastBlockHeight ss))%Z
       end
    then match fullReconcile e q (now 0) s with
         | ((s, _), Ok _) => putSyncState e (now 1) s currentHeight
         | ((s, _), r) => (s, r)
         end
    else putSyncState e (now 1) s currentHeight)).

Definition set_height (h : Z) (r : ReconcileStats) := MkReconcileStats (rs_Accounts r) (rs_Deployments r) (rs_Leases r) (rs_Bids r) h.

Definition ReconcileNow (e : Engine) (q : Querier) (now : clock) (s : S) : S * ReconcileStats * result unit :=
  match CurrentHeight q with
  | Ok currentHeight =>
      match fullReconcile e q (now 0) s with
      | ((s, stats), Ok _) =>
          let stats := set_height currentHeight stats in
          let '(s, r) := putSyncState e (now 1) s currentHeight in
          ((s, stats), r)
      | ((s, stats), r) => ((s, stats), r)
      end
  | Err e => ((s, MkReconcileStats 0 0 0 0 0), Err e)
  | Panic => ((s, MkReconcileStats 0 0 0 0 0), Panic)
  end.
End reconcile.

(** ** Backoff

    [time.Duration] is an [int64] of nanoseconds; a shift drops the bits that
    leave it, a shift count of 64 or more gives 0, and a negative [int] converts
    to a huge count. [rand.Int63n(n)] panics unless [n] is positive; [random] is
    what it draws, taken modulo [n]. *)
Definition second : Z := 1000000000.

Definition shift_left_i64 (z : Z) (count : N) : Z :=
  if (64 <=? count)%N then 0 else wrap_i64 (Z.shiftl z (Z.of_N count)).

Definition uint_of_int (z : Z) : N := Z.to_N (z mod 2 ^ 64).

Definition Int63n (random : Z) (n : Z) : result Z :=
  if (n <=? 0)%Z then Panic else Ok (random mod n)%Z.

Definition BackoffDelay (random : Z) (attempt : Z) : result Z :=
  let base := shift_left_i64 second (uint_of_int attempt) in
  let base := if (60 * second <? base)%Z then (60 * second)%Z else base in
  jitter ← Int63n random (Z.quot base 2);
  Ok (wrap_i64 (base + jitter)).

(** ** The chain querier (querier.go)

    One page of a paginated query; [None] is a nil pagination, or a nil key. *)
Record page (R : Type) : Type := MkPage { pg_items : list R; pg_NextKey : option string }.
Arguments MkPage {R}. Arguments pg_items {R}. Arguments pg_NextKey {R}.

Definition nextPageKey (k : option string) : string := default EmptyString k.

(** The keys seen so far are the map the loop carries. [%x] prints the key in hex. *)
Definition unseenNextPageKey (k : option string) (seen : gset string) : result (string * gset string) :=
  let nextKey := nextPageKey k in
  if bool_decide (nextKey = EmptyString) then Ok (EmptyString, seen)
  else if bool_decide (nextKey ∈ seen) then failf "repeated pagination key %x" [nextKey]
  else Ok (nextKey, seen ∪ {[ nextKey ]}).

(** The loop of [Deployments], [Leases] and [Bids]: [fetch n key] is the node's
    answer to the [n]-th request, which asks for the page at [key]. The loop has
    no bound of its own; [fuel] is the number of requests it may make. *)
Fixpoint walk_pages {R} (context : error → error) (fetch : nat → string → result (page R)) (fuel n : nat)
    (nextKey : string) (seen : gset string) (out : list R) : option (result (list R)) :=
  match fuel with
  | O => None
  | S fuel =>
      match map_err context (fetch n nextKey) with
      | Ok res =>
          let out := out ++ pg_items res in
          match map_err context (unseenNextPageKey (pg_NextKey res) seen) with
          | Ok (nextKey, seen) =>
              if bool_decide (nextKey = EmptyString) then Some (Ok out)
              else walk_pages context fetch fuel (n + 1) nextKey seen out
          | Err e => Some (Err e)
          | Panic => Some Panic
          end
      | Err e => Some (Err e)
      | Panic => Some Panic
      end
  end.

(** The chain's enumerations and the store's vocabulary. *)
Inductive Deployment_State : Type := DeploymentActive | DeploymentClosed | DeploymentStateOther.
Inductive Lease_State : Type := LeaseActive | LeaseInsufficientFunds | LeaseClosed | LeaseStateOther.
Inductive Bid_State : Type := BidOpen | BidActive | BidLost | BidClosed | BidStateOther.

Definition deploymentState (s : Deployment_State) : string :=
  match s with DeploymentActive => "active" | DeploymentClosed => "closed" | DeploymentStateOther => "" end.
Definition leaseState (s : Lease_State) : string :=
  match s with LeaseActive => "active" | LeaseInsufficientFunds => "insufficient_funds" | LeaseClosed => "closed" | LeaseStateOther => "" end.
Definition bidState (s : Bid_State) : string :=
  match s with BidOpen => "open" | BidActive => "matched" | BidLost => "lost" | BidClosed => "closed" | BidStateOther => "" end.

(** Coin lists as the SDK renders them: [Funds] and [Transferred] with their length. *)
Record coins : Type := MkCoins { coins_len : nat; coins_String : string }.

Definition decCoinsString (c : coins) : string :=
  if (coins_len c =? 0)%nat then EmptyString else coins_String c.

(** The funds are copied field by field into a coin list and rendered. *)
Definition balancesString (c : coins) : string :=
  if (coins_len c =? 0)%nat then EmptyString else decCoinsString c.

Record chain_deployment : Type := MkChainDeployment {
  cd_Owner : string; cd_DSeq : N; cd_State : Deployment_State; cd_Hash : option string;
  cd_CreatedAt : Z; cd_Funds : coins; cd_Transferred : coins;
}.
Record chain_lease : Type := MkChainLease { cl_ID : LeaseID; cl_State : Lease_State; cl_Price : string }.
Record chain_bid : Type := MkChainBid { cb_ID : BidID; cb_State : Bid_State; cb_Price : string }.

Definition deploymentRecord (now : Z) (d : chain_deployment) : DeploymentRecord :=
  set_d_Transferred (decCoinsString (cd_Transferred d)) (set_d_EscrowBalance (balancesString (cd_Funds d))
    (set_d_UpdatedAt now (set_d_CreatedHeight (cd_CreatedAt d) (set_d_Version (cd_Hash d)
      (set_d_State (deploymentState (cd_State d)) (set_d_DSeq (cd_DSeq d) (set_d_Owner (cd_Owner d) zero_deployment))))))).

(** A nil response is [None]. *)
Definition deploymentRecords (res : option (list chain_deployment)) (now : Z) : list DeploymentRecord :=
  match res with None => [] | Some l => deploymentRecord now <$> l end.
Definition leaseRecords (res : option (list chain_lease)) : list LeaseRecord :=
  match res with
  | None => []
  | Some l => (λ c, set_l_Price (cl_Price c) (set_l_State (leaseState (cl_State c)) (set_l_ID (cl_ID c) zero_lease))) <$> l
  end.
Definition bidRecords (res : option (list chain_bid)) : list BidRecord :=
  match res with
  | None => []
  | Some l => (λ c, set_b_Price (cb_Price c) (set_b_State (bidState (cb_State c)) (set_b_ID (cb_ID c) zero_bid))) <$> l
  end.

(** *** Provider metadata (internal/provider/metadata.go) *)
Record Metadata : Type := MkMetadata { md_Attributes : gmap string string; md_Audited : bool }.

Definition attributeMap (attributes : list (string * string)) : gmap string string :=
  foldl (λ m kv, <[kv.1 := kv.2]> m) ∅ attributes.

(** [provider] and [audits] are the two chain queries: the attributes, and the
    number of audits. A provider whose queries do not both succeed is left out. *)
Definition FetchChainMetadata (provider : string → result (list (string * string))) (audits : string → result nat)
    (owners : list string) : gmap string Metadata :=
  let unique : gset string := foldl (λ u owner, if bool_decide (owner = EmptyString) then u else u ∪ {[ owner ]}) ∅ owners in
  foldl (λ m owner,
    match provider owner with
    | Ok attrs => match audits owner with
                  | Ok n => <[owner := MkMetadata (attributeMap attrs) (bool_decide (0 < n)%nat)]> m
                  | _ => m
                  end
    | _ => m
    end) ∅ (sort_strings (elements unique)).

Definition applyBidMetadata (metadata : gmap string Metadata) (record : BidRecord) : BidRecord :=
  match metadata !! bid_Provider (b_ID record) with
  | None => record
  | Some md => set_b_ProviderAudited (md_Audited md) (set_b_ProviderAttributes (Some (md_Attributes md)) record)
  end.

(** *** The node and the queries

    A node's answers, per request number and page key. *)
Record node : Type := MkNode {
  n_SyncInfo : result (Z * bool);                      (* LatestBlockHeight, CatchingUp *)
  n_Deployments : string → nat → string → result (page chain_deployment);
  n_Leases : string → N → nat → string → result (page chain_lease);
  n_Bids : string → N → nat → string → result (page chain_bid);
  n_Provider : string → result (list (string * string));
  n_Audits : string → result nat;
}.

Definition chain_CurrentHeight (cl : node) : result Z :=
  '(height, catchingUp) ← map_err (Wrapf "query node sync info: %w" []) (n_SyncInfo cl);
  if (catchingUp : bool) then failf "node is catching up (height %d); it cannot report the current chain state" [FormatInt height]
  else Ok height.

Definition convert_page {A B} (f : option (list A) → list B) (p : page A) : page B :=
  MkPage (f (Some (pg_items p))) (pg_NextKey p).

Definition chain_Deployments (cl : node) (fuel : nat) (now : Z) (owner : string) : option (result (list DeploymentRecord)) :=
  walk_pages (Wrapf "query deployments for %s: %w" [owner])
    (λ n key, convert_page (λ r, deploymentRecords r now) <$> n_Deployments cl owner n key) fuel 0 EmptyString ∅ [].

Definition chain_Leases (cl : node) (fuel : nat) (owner : string) (dseq : N) : option (result (list LeaseRecord)) :=
  walk_pages (Wrapf "query leases for %s/%d: %w" [owner; FormatUint dseq])
    (λ n key, convert_page leaseRecords <$> n_Leases cl owner dseq n key) fuel 0 EmptyString ∅ [].

Definition chain_Bids (cl : node) (fuel : nat) (owner : string) (dseq : N) : option (result (list BidRecord)) :=
  match walk_pages (Wrapf "query bids for %s/%d: %w" [owner; FormatUint dseq])
          (λ n key, convert_page bidRecords <$> n_Bids cl owner dseq n key) fuel 0 EmptyString ∅ [] with
  | Some (Ok out) =>
      Some (Ok (applyBidMetadata (FetchChainMetadata (n_Provider cl) (n_Audits cl) ((λ b, bid_Provider (b_ID b)) <$> out)) <$> out))
  | r => r
  end.
