(* ===== verification/SyncSpec.v ===== *)
(** * What the sync engine does to a store

    The laws of the store interface, stated over the abstract store, and their
    proof for [BoltStore]; the effect of every event handler and of the
    reconciliation loops, proved against the laws only. *)

From Stdlib Require Import Ascii.
From stdpp Require Import sorting base gmap strings pretty option numbers list.
From S2P Require Import Prelude GoStd GoJson Bolt StoreTypes StoreOps StoreRep StoreSpec StoreClose StoreRun Sync.

(** ** The laws of the interface *)
Definition put_law {S} (rep : S → astore → Prop) (A : astore) (o : op) (p : S * result unit) : Prop :=
  (p.2 = Ok tt ∧ ∃ A', astep A o A' ∧ rep p.1 A') ∨ (p.2 ≠ Ok tt ∧ rep p.1 A).

Class StoreLaws (S : Type) `{Store S} := {
  st_rep : S → astore → Prop;
  law_wf s A : st_rep s A → astore_wf A;
  law_GetDeployment s A o n : st_rep s A → st_GetDeployment s o n = Ok (a_deps A !! DeploymentKey o n);
  law_GetLease s A id : st_rep s A → st_GetLease s id = Ok (a_leases A !! LeaseKey id);
  law_GetBid s A id : st_rep s A → st_GetBid s id = Ok (a_bids A !! BidKey id);
  law_GetSyncState s A : st_rep s A → st_GetSyncState s = Ok (a_sync A);
  law_SchemaVersion s A : st_rep s A → st_SchemaVersion s = Ok (a_schema A);
  law_PutDeployment s A d : st_rep s A → deployment_ok d = true →
    put_law st_rep A (OpPutDeployment (Some d)) (st_PutDeployment s (Some d));
  law_PutLease s A l : st_rep s A → lease_ok l = true →
    put_law st_rep A (OpPutLease (Some l)) (st_PutLease s (Some l));
  law_PutBid s A b : st_rep s A → bid_ok b = true →
    put_law st_rep A (OpPutBid (Some b)) (st_PutBid s (Some b));
  law_PutSyncState s A x : st_rep s A → sync_state_ok x = true →
    put_law st_rep A (OpPutSyncState (Some x)) (st_PutSyncState s (Some x));
}.

Lemma bolt_put_law {Tx} `{BoltLaws Tx} (db : Tx) A o : store_rep db A → op_ok o = true →
  put_law store_rep A o (run_op db o).
Proof.
  intros Hr Ho. destruct (run_op db o) as [db' r] eqn:E. unfold put_law. simpl.
  destruct (decide (r = Ok tt)) as [->|Hne].
  - left. split; [done|]. by eapply run_op_sim.
  - right. split; [done|]. by rewrite (run_op_atomic _ _ _ _ E Hne).
Qed.

#[global] Instance BoltStore_laws {Tx} `{BoltLaws Tx} : StoreLaws Tx.
Proof.
  refine {| st_rep := store_rep |}.
  - intros s A. apply rep_wf.
  - intros. by apply GetDeployment_rep.
  - intros. by apply GetLease_rep.
  - intros. by apply GetBid_rep.
  - intros. by apply GetSyncState_rep.
  - intros. by apply SchemaVersion_rep.
  - intros s A d Hr Hd. exact (bolt_put_law s A (OpPutDeployment (Some d)) Hr Hd).
  - intros s A l Hr Hl. exact (bolt_put_law s A (OpPutLease (Some l)) Hr Hl).
  - intros s A b Hr Hb. exact (bolt_put_law s A (OpPutBid (Some b)) Hr Hb).
  - intros s A x Hr Hx. exact (bolt_put_law s A (OpPutSyncState (Some x)) Hr Hx).
Defined.

(** ** Merging *)
Lemma mergeDeployment_key x d now :
  d_Owner (mergeDeployment x d now) = d_Owner d ∧ d_DSeq (mergeDeployment x d now) = d_DSeq d.
Proof.
  unfold mergeDeployment. destruct d, x as [[]|]; cbv zeta; cbn -[bool_decide Z.eqb];
    repeat (destruct (_ =? _)%Z; cbn -[bool_decide Z.eqb]); destruct (_ && _); done.
Qed.

Lemma mergeLease_ID x l now : l_ID (mergeLease x l now) = l_ID l.
Proof.
  unfold mergeLease. destruct l, x as [[]|]; cbv zeta; cbn -[bool_decide Z.eqb];
    repeat (destruct (_ =? _)%Z; cbn -[bool_decide Z.eqb]); destruct (_ && _); done.
Qed.

Lemma mergeBid_ID x b now : b_ID (mergeBid x b now) = b_ID b.
Proof.
  unfold mergeBid. destruct b as [? ? ? [?|] ? ? ?], x as [[]|]; cbv zeta; cbn -[bool_decide Z.eqb];
    repeat (destruct (_ =? _)%Z; cbn -[bool_decide Z.eqb]); done.
Qed.

Definition all_ok {A} (ok : A → bool) (x : option A) : Prop := ∀ a, x = Some a → ok a = true.

Lemma mergeDeployment_ok x d now : in_i64 now = true → all_ok deployment_ok x → deployment_ok d = true →
  deployment_ok (mergeDeployment x d now) = true.
Proof.
  intros Hn Hx Hd. unfold mergeDeployment. destruct d, x as [x|]; cbv zeta.
  - specialize (Hx x eq_refl). destruct x. unfold deployment_ok in *.
    cbn -[bool_decide Z.eqb utf8_ok in_u64 in_i64 map_ok slice_ok andb] in *.
    repeat (destruct (_ =? _)%Z; cbn -[bool_decide Z.eqb utf8_ok in_u64 in_i64 map_ok slice_ok andb]);
      try destruct (bool_decide _); cbn -[bool_decide Z.eqb utf8_ok in_u64 in_i64 map_ok slice_ok]; split_andb; try done.
  - clear Hx. unfold deployment_ok in *. cbn -[bool_decide Z.eqb utf8_ok in_u64 in_i64 map_ok slice_ok andb] in *.
    repeat (destruct (_ =? _)%Z; cbn -[bool_decide Z.eqb utf8_ok in_u64 in_i64 map_ok slice_ok andb]);
      try destruct (bool_decide _); cbn -[bool_decide Z.eqb utf8_ok in_u64 in_i64 map_ok slice_ok]; split_andb; try done.
Qed.

Lemma mergeLease_ok x l now : in_i64 now = true → all_ok lease_ok x → lease_ok l = true →
  lease_ok (mergeLease x l now) = true.
Proof.
  intros Hn Hx Hl. unfold mergeLease. destruct l, x as [x|]; cbv zeta;
    [specialize (Hx x eq_refl); destruct x|clear Hx]; unfold lease_ok in *;
    cbn -[bool_decide Z.eqb utf8_ok in_u64 in_i64 lease_id_ok slice_ok andb] in *;
    repeat (destruct (_ =? _)%Z; cbn -[bool_decide Z.eqb utf8_ok in_u64 in_i64 lease_id_ok slice_ok andb]);
    try destruct (bool_decide _); cbn -[bool_decide Z.eqb utf8_ok in_u64 in_i64 lease_id_ok slice_ok]; split_andb; try done.
Qed.

Lemma mergeBid_ok x b now : in_i64 now = true → all_ok bid_ok x → bid_ok b = true →
  bid_ok (mergeBid x b now) = true.
Proof.
  intros Hn Hx Hb. unfold mergeBid. destruct b as [? ? ? [?|] ? ? ?], x as [x|]; cbv zeta;
    try (specialize (Hx x eq_refl); destruct x); unfold bid_ok in *;
    cbn -[bool_decide Z.eqb utf8_ok in_u64 in_i64 bid_id_ok map_ok andb] in *;
    repeat (destruct (_ =? _)%Z; cbn -[bool_decide Z.eqb utf8_ok in_u64 in_i64 bid_id_ok map_ok andb]);
    split_andb; try done.
Qed.

(** The fields the chain does not carry. *)
Definition local_fields (d : DeploymentRecord) :=
  (d_SDLHash d, d_SDLPath d, d_Deposit d, d_Labels d, d_Notes d, d_Tags d).
Definition local_lease_fields (l : LeaseRecord) := (l_ProviderURI l, l_Endpoints l).

(** The fields the chain does carry. *)
Definition chain_fields (d : DeploymentRecord) :=
  (d_Owner d, d_DSeq d, d_State d, d_Version d, d_EscrowBalance d, d_Transferred d, d_CreatedHeight d).

Lemma mergeDeployment_local x d now : local_fields (mergeDeployment (Some x) d now) = local_fields x.
Proof.
  unfold mergeDeployment, local_fields. destruct d, x; cbv zeta; cbn -[bool_decide Z.eqb];
    repeat (destruct (_ =? _)%Z; cbn -[bool_decide Z.eqb]); destruct (_ && _); done.
Qed.

Lemma mergeDeployment_chain x d now : chain_fields (mergeDeployment x d now) = chain_fields d.
Proof.
  unfold mergeDeployment, chain_fields. destruct d, x as [[]|]; cbv zeta; cbn -[bool_decide Z.eqb];
    repeat (destruct (_ =? _)%Z; cbn -[bool_decide Z.eqb]); destruct (_ && _); done.
Qed.

Lemma mergeLease_local x l now : local_lease_fields (mergeLease (Some x) l now) = local_lease_fields x.
Proof.
  unfold mergeLease, local_lease_fields. destruct l, x; cbv zeta; cbn -[bool_decide Z.eqb];
    repeat (destruct (_ =? _)%Z; cbn -[bool_decide Z.eqb]); destruct (_ && _); done.
Qed.

Lemma mergeBid_local x b now : b_ProviderAttributes x ≠ None → b_ProviderAttributes (mergeBid (Some x) b now) ≠ None.
Proof.
  unfold mergeBid. destruct b as [? ? ? [?|] ? ? ?], x; cbv zeta; cbn -[bool_decide Z.eqb];
    repeat (destruct (_ =? _)%Z; cbn -[bool_decide Z.eqb]); done.
Qed.

(** ** What an operation of the engine may not do: lose a record or its local fields *)
Record keeps_local (A A' : astore) : Prop := {
  kl_deps k d : a_deps A !! k = Some d → ∃ d', a_deps A' !! k = Some d' ∧ local_fields d' = local_fields d;
  kl_leases k l : a_leases A !! k = Some l → ∃ l', a_leases A' !! k = Some l' ∧ local_lease_fields l' = local_lease_fields l;
  kl_bids k b : a_bids A !! k = Some b → ∃ b', a_bids A' !! k = Some b' ∧
    (b_ProviderAttributes b ≠ None → b_ProviderAttributes b' ≠ None);
  kl_sync : a_sync A' = a_sync A;
  kl_schema : a_schema A' = a_schema A;
}.

#[global] Instance keeps_local_refl : Reflexive keeps_local.
Proof. intros A. split; eauto. Qed.

#[global] Instance keeps_local_trans : Transitive keeps_local.
Proof.
  intros A B C [D1 L1 B1 S1 V1] [D2 L2 B2 S2 V2]. split; [| | |congruence..].
  - intros k d (d1 & H1 & E1)%D1. destruct (D2 k d1 H1) as (d2 & ? & ?). exists d2. split; congruence.
  - intros k l (l1 & H1 & E1)%L1. destruct (L2 k l1 H1) as (l2 & ? & ?). exists l2. split; congruence.
  - intros k b (b1 & H1 & E1)%B1. destruct (B2 k b1 H1) as (b2 & ? & ?). exists b2. split; [congruence|]. eauto.
Qed.

Lemma local_fields_version v d : local_fields (set_d_RecordVersion v d) = local_fields d.
Proof. by destruct d. Qed.
Lemma local_lease_version v l : local_lease_fields (set_l_RecordVersion v l) = local_lease_fields l.
Proof. by destruct l. Qed.
Lemma bid_attributes_version v b : b_ProviderAttributes (set_b_RecordVersion v b) = b_ProviderAttributes b.
Proof. by destruct b. Qed.

(** Putting a record that has the local fields of the stored one, if there is one. *)
Lemma keeps_put_deployment A A' d : astep A (OpPutDeployment (Some d)) A' →
  (∀ x, a_deps A !! DeploymentKey (d_Owner d) (d_DSeq d) = Some x → local_fields d = local_fields x) → keeps_local A A'.
Proof.
  intros Hs Hl. inversion Hs as [d' v Hv| | | | | |]; subst; clear Hs. split; simpl; try by eauto.
  intros k x Hx. destruct (decide (k = DeploymentKey (d_Owner d) (d_DSeq d))) as [->|Hne].
  - rewrite lookup_insert_eq. eexists. split; [done|]. rewrite local_fields_version. by apply Hl.
  - rewrite lookup_insert_ne by done. eauto.
Qed.

Lemma keeps_put_lease A A' l : astep A (OpPutLease (Some l)) A' →
  (∀ x, a_leases A !! LeaseKey (l_ID l) = Some x → local_lease_fields l = local_lease_fields x) → keeps_local A A'.
Proof.
  intros Hs Hl. inversion Hs as [|l' v Hv| | | | |]; subst; clear Hs. split; simpl; try by eauto.
  intros k x Hx. destruct (decide (k = LeaseKey (l_ID l))) as [->|Hne].
  - rewrite lookup_insert_eq. eexists. split; [done|]. rewrite local_lease_version. by apply Hl.
  - rewrite lookup_insert_ne by done. eauto.
Qed.

Lemma keeps_put_bid A A' b : astep A (OpPutBid (Some b)) A' →
  (∀ x, a_bids A !! BidKey (b_ID b) = Some x → b_ProviderAttributes x ≠ None → b_ProviderAttributes b ≠ None) → keeps_local A A'.
Proof.
  intros Hs Hl. inversion Hs as [| |b' v Hv| | | |]; subst; clear Hs. split; simpl; try by eauto.
  intros k x Hx. destruct (decide (k = BidKey (b_ID b))) as [->|Hne].
  - rewrite lookup_insert_eq. eexists. split; [done|]. rewrite bid_attributes_version. by apply Hl.
  - rewrite lookup_insert_ne by done. eauto.
Qed.

Section merged.
Context (now : Z).

(** [m'] is [m] with the deployments of [l] merged in, one after the other. *)
Inductive merged_in : gmap string DeploymentRecord → list DeploymentRecord → gmap string DeploymentRecord → Prop :=
| merged_nil m : merged_in m [] m
| merged_cons m d l m' v :
    merged_in (<[DeploymentKey (d_Owner d) (d_DSeq d) :=
      set_d_RecordVersion v (mergeDeployment (m !! DeploymentKey (d_Owner d) (d_DSeq d)) d now)]> m) l m' →
    merged_in m (d :: l) m'.

Lemma merged_in_app m1 l1 m2 l2 m3 : merged_in m1 l1 m2 → merged_in m2 l2 m3 → merged_in m1 (l1 ++ l2) m3.
Proof. induction 1; [done|]. intros. cbn [app]. econstructor. eauto. Qed.

Lemma merged_in_frame m l m' k : merged_in m l m' → k ∉ (λ d, DeploymentKey (d_Owner d) (d_DSeq d)) <$> l → m' !! k = m !! k.
Proof.
  induction 1 as [|m d l m' v _ IH]; [done|]. csimpl. intros Hk. rewrite IH by set_solver.
  apply lookup_insert_ne. set_solver.
Qed.

Lemma merged_in_lookup m l m' d : merged_in m l m' → NoDup ((λ d, DeploymentKey (d_Owner d) (d_DSeq d)) <$> l) → d ∈ l →
  ∃ v, m' !! DeploymentKey (d_Owner d) (d_DSeq d) =
    Some (set_d_RecordVersion v (mergeDeployment (m !! DeploymentKey (d_Owner d) (d_DSeq d)) d now)).
Proof.
  induction 1 as [|m d0 l m' v Hm IH]; [set_solver|]. csimpl. intros [Hn HN]%NoDup_cons [->|Hin]%elem_of_cons.
  - exists v. rewrite (merged_in_frame _ _ _ _ Hm Hn). by rewrite lookup_insert_eq.
  - destruct (IH HN Hin) as [v' ->]. exists v'. rewrite lookup_insert_ne; [done|].
    intros E. apply Hn. rewrite E. by apply (list_elem_of_fmap_2 (λ d, DeploymentKey (d_Owner d) (d_DSeq d))).
Qed.
End merged.

(** ** Reconciliation *)
Record querier_ok (q : Querier) : Prop := {
  qo_height h : CurrentHeight q = Ok h → in_i64 h = true;
  qo_deployments o l : Deployments q o = Ok l → Forall (λ d, deployment_ok d = true) l;
  qo_leases o n l : Leases q o n = Ok l → Forall (λ r, lease_ok r = true) l;
  qo_bids o n l : Bids q o n = Ok l → Forall (λ r, bid_ok r = true) l;
}.

Section reconcile.
Context {S : Type} `{StoreLaws S}.
Implicit Types (s : S) (A : astore) (st : (S * ReconcileStats)%type).

Lemma each_inv {X} (I : S * ReconcileStats → Prop) f st (l : list X) :
  I st → (∀ st x, x ∈ l → I st → I (f st x).1) → I (each f st l).1.
Proof.
  revert st. induction l as [|x l IH]; intros st Hst Hf; [done|]. cbn [each].
  assert (I (f st x).1) as Hx by (apply Hf; set_solver).
  destruct (f st x) as [st1 [[]| |]]; [|done..]. apply IH; [done|]. intros; apply Hf; set_solver.
Qed.

Lemma step_result_inv {X} (I : S * ReconcileStats → Prop) st (r : result X) k :
  I st → (∀ a, r = Ok a → I (k a).1) → I (step_result st r k).1.
Proof. destruct r; simpl; auto. Qed.

Lemma and_then_inv (I : S * ReconcileStats → Prop) p k :
  I p.1 → (∀ st, I st → I (k st).1) → I (and_then p k).1.
Proof. destruct p as [st [[]| |]]; simpl; auto. Qed.

Lemma put_count_inv (P : astore → Prop) A o stats (p : S * result unit) count :
  put_law st_rep A o p → P A → (∀ A', astep A o A' → P A') →
  ∃ A', st_rep (put_count stats p count).1.1 A' ∧ P A'.
Proof.
  intros [[Hr (A' & Hs & Hrep)]|[Hr Hrep]] HA HP; destruct p as [s' r]; simpl in *.
  - rewrite Hr. simpl. eauto.
  - destruct r as [[]| |]; [done|simpl; eauto..].
Qed.

(** The store is a represented one in which [P] holds. *)
Definition holds (P : astore → Prop) st : Prop := ∃ A, st_rep st.1 A ∧ P A.

Section steps.
Context (now : Z) (Hnow : in_i64 now = true).

Lemma reconcile_lease_inv (P : astore → Prop) st l : lease_ok l = true → holds P st →
  (∀ A A', P A → astep A (OpPutLease (Some (mergeLease (a_leases A !! LeaseKey (l_ID l)) l now))) A' → P A') →
  holds P (reconcile_lease now st l).1.
Proof using Hnow.
  intros Hl (A & Hr & HA) HP. unfold reconcile_lease. rewrite (law_GetLease _ _ _ Hr). cbn [step_result].
  eapply put_count_inv; [|exact HA|by eauto]. apply law_PutLease; [done|]. apply mergeLease_ok; [done| |done].
  intros x Hx. by destruct (wf_leases _ (law_wf _ _ Hr) _ _ Hx).
Qed.

Lemma reconcile_bid_inv (P : astore → Prop) st b : bid_ok b = true → holds P st →
  (∀ A A', P A → astep A (OpPutBid (Some (mergeBid (a_bids A !! BidKey (b_ID b)) b now))) A' → P A') →
  holds P (reconcile_bid now st b).1.
Proof using Hnow.
  intros Hl (A & Hr & HA) HP. unfold reconcile_bid. rewrite (law_GetBid _ _ _ Hr). cbn [step_result].
  eapply put_count_inv; [|exact HA|by eauto]. apply law_PutBid; [done|]. apply mergeBid_ok; [done| |done].
  intros x Hx. by destruct (wf_bids _ (law_wf _ _ Hr) _ _ Hx).
Qed.

Lemma reconcile_put_inv (P : astore → Prop) st d count : deployment_ok d = true → holds P st →
  (∀ A A', P A → astep A (OpPutDeployment (Some (mergeDeployment (a_deps A !! DeploymentKey (d_Owner d) (d_DSeq d)) d now))) A' → P A') →
  holds P (step_result st (st_GetDeployment st.1 (d_Owner d) (d_DSeq d)) (λ existing,
     put_count st.2 (st_PutDeployment st.1 (Some (mergeDeployment existing d now))) count)).1.
Proof using Hnow.
  intros Hl (A & Hr & HA) HP. rewrite (law_GetDeployment _ _ _ _ Hr). cbn [step_result].
  eapply put_count_inv; [|exact HA|by eauto]. apply law_PutDeployment; [done|]. apply mergeDeployment_ok; [done| |done].
  intros x Hx. by destruct (wf_deps _ (law_wf _ _ Hr) _ _ Hx).
Qed.

Context (q : Querier) (Hq : querier_ok q).

Lemma reconcile_children_inv (P : astore → Prop) st owner dseq : holds P st →
  (∀ A A' l, P A → lease_ok l = true → astep A (OpPutLease (Some (mergeLease (a_leases A !! LeaseKey (l_ID l)) l now))) A' → P A') →
  (∀ A A' b, P A → bid_ok b = true → astep A (OpPutBid (Some (mergeBid (a_bids A !! BidKey (b_ID b)) b now))) A' → P A') →
  holds P (and_then (step_result st (Leases q owner dseq) (each (reconcile_lease now) st))
             (λ st, step_result st (Bids q owner dseq) (each (reconcile_bid now) st))).1.
Proof using Hnow Hq.
  intros HP Hl Hb. apply and_then_inv; [apply step_result_inv; [done|]|intros st' HP'; apply step_result_inv; [done|]].
  - intros l E. pose proof (qo_leases _ Hq _ _ _ E) as HF. rewrite Forall_forall in HF.
    apply each_inv; [done|]. intros st1 x Hx Hst. apply reconcile_lease_inv; eauto.
  - intros l E. pose proof (qo_bids _ Hq _ _ _ E) as HF. rewrite Forall_forall in HF.
    apply each_inv; [done|]. intros st1 x Hx Hst. apply reconcile_bid_inv; eauto.
Qed.

Lemma mergeLease_step A A' l : astep A (OpPutLease (Some (mergeLease (a_leases A !! LeaseKey (l_ID l)) l now))) A' → keeps_local A A'.
Proof using.
  intros Hs. eapply keeps_put_lease; [exact Hs|]. rewrite mergeLease_ID. intros x ->. apply mergeLease_local.
Qed.

Lemma mergeBid_step A A' b : astep A (OpPutBid (Some (mergeBid (a_bids A !! BidKey (b_ID b)) b now))) A' → keeps_local A A'.
Proof using.
  intros Hs. eapply keeps_put_bid; [exact Hs|]. rewrite mergeBid_ID. intros x ->. apply mergeBid_local.
Qed.

Lemma mergeDeployment_step A A' d :
  astep A (OpPutDeployment (Some (mergeDeployment (a_deps A !! DeploymentKey (d_Owner d) (d_DSeq d)) d now))) A' → keeps_local A A'.
Proof using.
  intros Hs. eapply keeps_put_deployment; [exact Hs|].
  destruct (mergeDeployment_key (a_deps A !! DeploymentKey (d_Owner d) (d_DSeq d)) d now) as [-> ->].
  intros x ->. apply mergeDeployment_local.
Qed.

(** Whatever the outcome, a full reconciliation keeps every record and its local fields. *)
Lemma reconcile_deployment_keeps A0 st owner d : deployment_ok d = true → holds (keeps_local A0) st →
  holds (keeps_local A0) (reconcile_deployment q now owner st d).1.
Proof using Hnow Hq.
  intros Hd HP. unfold reconcile_deployment. apply and_then_inv.
  - apply reconcile_put_inv; [done..|]. intros A A' HA Hs. etrans; [exact HA|by eapply mergeDeployment_step].
  - intros st' HP'. apply reconcile_children_inv; [done| |]; intros A A' x HA _ Hs;
      (etrans; [exact HA|]); [by eapply mergeLease_step|by eapply mergeBid_step].
Qed.

Lemma fullReconcile_keeps e s A : st_rep s A →
  ∃ A', st_rep (fullReconcile e q now s).1.1 A' ∧ keeps_local A A'.
Proof using Hnow Hq.
  intros Hr. unfold fullReconcile. apply (each_inv (holds (keeps_local A))); [by exists A|].
  intros st owner _ Hst. unfold reconcile_owner. apply step_result_inv; [done|]. intros l E.
  pose proof (qo_deployments _ Hq _ _ E) as HF. rewrite Forall_forall in HF.
  apply each_inv; [done|]. intros st' d Hd Hst'. apply reconcile_deployment_keeps; eauto.
Qed.

(** *** What a successful reconciliation leaves behind *)

(** What the chain reported, in the order it is read. *)
Definition ok_list {X} (r : result (list X)) : list X := match r with Ok l => l | _ => [] end.
Definition all_deployments (owners : list string) : list DeploymentRecord :=
  concat ((λ o, ok_list (Deployments q o)) <$> owners).

Lemma and_then_ok (p : (S * ReconcileStats) * result unit) k st' : and_then p k = (st', Ok tt) →
  ∃ st, p = (st, Ok tt) ∧ k st = (st', Ok tt).
Proof using. destruct p as [st [[]| |]]; simpl; [by eauto|by intros [=]..]. Qed.

Lemma step_result_ok {X} st (r : result X) k st' : step_result st r k = (st', Ok tt) →
  ∃ a, r = Ok a ∧ k a = (st', Ok tt).
Proof using. destruct r; simpl; [by eauto|by intros [=]..]. Qed.

Lemma reconcile_deployment_merges m st st' owner d : deployment_ok d = true → holds (λ A, a_deps A = m) st →
  reconcile_deployment q now owner st d = (st', Ok tt) →
  ∃ v, holds (λ A, a_deps A = <[DeploymentKey (d_Owner d) (d_DSeq d) :=
      set_d_RecordVersion v (mergeDeployment (m !! DeploymentKey (d_Owner d) (d_DSeq d)) d now)]> m) st'.
Proof using Hnow Hq.
  intros Hd (A & Hr & <-) (st1 & Hput & Hrest)%and_then_ok.
  apply step_result_ok in Hput as (existing & Hget & Hput).
  rewrite (law_GetDeployment _ _ _ _ Hr) in Hget. injection Hget as <-.
  assert (deployment_ok (mergeDeployment (a_deps A !! DeploymentKey (d_Owner d) (d_DSeq d)) d now) = true) as Hok.
  { apply mergeDeployment_ok; [done| |done]. intros x Hx. by destruct (wf_deps _ (law_wf _ _ Hr) _ _ Hx). }
  destruct (law_PutDeployment _ _ _ Hr Hok) as [[Hp (A' & Hs & Hr')]|[Hne _]].
  2: { destruct (st_PutDeployment st.1 _) as [s' [[]| |]]; simpl in *; [done|by injection Hput..]. }
  destruct (st_PutDeployment st.1 _) as [s' r']; simpl in *. subst r'. injection Hput as <-.
  destruct (mergeDeployment_key (a_deps A !! DeploymentKey (d_Owner d) (d_DSeq d)) d now) as [Ho Hn].
  inversion Hs as [d' v Hv| | | | | |]; subst; clear Hs. rewrite Ho, Hn in *. exists v.
  apply (f_equal fst) in Hrest. simpl in Hrest. rewrite <- Hrest.
  apply (reconcile_children_inv (λ A0, a_deps A0 = _)); [by eexists|..].
  - intros A1 A2 l HA _ Hs. by inversion Hs; subst.
  - intros A1 A2 b HA _ Hs. by inversion Hs; subst.
Qed.

Lemma reconcile_owner_merges m st st' owner : holds (λ A, a_deps A = m) st →
  reconcile_owner q now st owner = (st', Ok tt) →
  ∃ m', merged_in now m (ok_list (Deployments q owner)) m' ∧ holds (λ A, a_deps A = m') st'.
Proof using Hnow Hq.
  intros Hst (l & E & Hl)%step_result_ok. pose proof (qo_deployments _ Hq _ _ E) as HF. rewrite E. cbn [ok_list].
  clear E. revert m st Hst Hl. induction HF as [|d l Hd _ IH]; intros m st Hst Hl.
  { injection Hl as <-. exists m. split; [constructor|done]. }
  cbn [each] in Hl. destruct (reconcile_deployment q now owner st d) as [st1 [[]| |]] eqn:E1; [|by injection Hl..].
  destruct (reconcile_deployment_merges m _ _ _ _ Hd Hst E1) as [v Hv].
  destruct (IH _ _ Hv Hl) as (m' & Hm & Hst'). exists m'. split; [by econstructor|done].
Qed.

Lemma fullReconcile_merges e s A st' : st_rep s A → fullReconcile e q now s = (st', Ok tt) →
  ∃ A', st_rep st'.1 A' ∧ merged_in now (a_deps A) (all_deployments (tracked_list e)) (a_deps A').
Proof using Hnow Hq.
  intros Hr. unfold fullReconcile, all_deployments.
  assert (holds (λ A', a_deps A' = a_deps A) (s, MkReconcileStats (Z.of_nat (size (tracked e))) 0 0 0 0)) as Hst by by eexists.
  revert Hst. generalize (a_deps A) as m. generalize (s, MkReconcileStats (Z.of_nat (size (tracked e))) 0 0 0 0) as st.
  induction (tracked_list e) as [|o os IH]; intros st m Hst.
  { intros [= <-]. destruct Hst as (A' & ? & <-). exists A'. split; [done|constructor]. }
  cbn [each]. destruct (reconcile_owner q now st o) as [st1 [[]| |]] eqn:E; [|by intros [=]..].
  destruct (reconcile_owner_merges _ _ _ _ Hst E) as (m1 & Hm1 & Hst1). intros Hrest.
  destruct (IH _ _ Hst1 Hrest) as (A' & Hr' & Hm'). exists A'. split; [done|]. by eapply merged_in_app.
Qed.

(** *** What is counted *)
Definition add_stats (r : ReconcileStats) (a b c : Z) : ReconcileStats :=
  MkReconcileStats (rs_Accounts r) (rs_Deployments r + a) (rs_Leases r + b) (rs_Bids r + c) (rs_Height r).

Definition sumZ {X} (w : X → Z) (l : list X) : Z := foldr (λ x n, (w x + n)%Z) 0%Z l.
Definition len {X} (l : list X) : Z := Z.of_nat (length l).

Lemma sumZ_const {X} (l : list X) c : sumZ (λ _, c) l = (c * len l)%Z.
Proof using. unfold len. induction l; simpl; lia. Qed.

Lemma each_add {X} (a b c : X → Z) f st (l : list X) st' :
  (∀ st x st', f st x = (st', Ok tt) → st'.2 = add_stats st.2 (a x) (b x) (c x)) →
  each f st l = (st', Ok tt) → st'.2 = add_stats st.2 (sumZ a l) (sumZ b l) (sumZ c l).
Proof using.
  intros Hf. revert st. induction l as [|x l IH]; intros st; cbn [each].
  - intros [= <-]. unfold add_stats. destruct st as [? []]. simpl. f_equal; lia.
  - destruct (f st x) as [st1 [[]| |]] eqn:E; [|by intros [=]..]. intros ->%IH. rewrite (Hf _ _ _ E).
    unfold add_stats, sumZ. simpl. f_equal; lia.
Qed.

Lemma put_count_ok stats (p : S * result unit) count st' : put_count stats p count = (st', Ok tt) → st'.2 = count stats.
Proof using. destruct p as [s [[]| |]]; simpl; [by intros [= <-]|by intros [=]..]. Qed.

Lemma reconcile_deployment_counts st st' owner d : reconcile_deployment q now owner st d = (st', Ok tt) →
  st'.2 = add_stats st.2 1 (len (ok_list (Leases q owner (d_DSeq d)))) (len (ok_list (Bids q owner (d_DSeq d)))).
Proof using.
  intros (st1 & Hp & (st2 & Hl & Hb)%and_then_ok)%and_then_ok.
  apply step_result_ok in Hp as (x & _ & Hp%put_count_ok).
  apply step_result_ok in Hl as (ls & -> & Hl). apply step_result_ok in Hb as (bs & -> & Hb).
  apply (each_add (λ _, 0%Z) (λ _, 1%Z) (λ _, 0%Z)) in Hl.
  2: { intros st0 l st0' (x' & _ & ->%put_count_ok)%step_result_ok. unfold count_lea, add_stats. f_equal; lia. }
  apply (each_add (λ _, 0%Z) (λ _, 0%Z) (λ _, 1%Z)) in Hb.
  2: { intros st0 l st0' (x' & _ & ->%put_count_ok)%step_result_ok. unfold count_bd, add_stats. f_equal; lia. }
  rewrite Hb, Hl, Hp, !sumZ_const. unfold add_stats, count_dep. simpl. f_equal; lia.
Qed.

Definition owner_leases (o : string) : Z := sumZ (λ d, len (ok_list (Leases q o (d_DSeq d)))) (ok_list (Deployments q o)).
Definition owner_bids (o : string) : Z := sumZ (λ d, len (ok_list (Bids q o (d_DSeq d)))) (ok_list (Deployments q o)).

Lemma fullReconcile_counts e s st' : fullReconcile e q now s = (st', Ok tt) →
  st'.2 = MkReconcileStats (Z.of_nat (size (tracked e)))
    (sumZ (λ o, len (ok_list (Deployments q o))) (tracked_list e))
    (sumZ owner_leases (tracked_list e)) (sumZ owner_bids (tracked_list e)) 0.
Proof using.
  unfold fullReconcile. intros Hf.
  apply (each_add (λ o, len (ok_list (Deployments q o))) owner_leases owner_bids) in Hf; [by rewrite Hf|].
  intros st o st1 (l & E & Hl)%step_result_ok. unfold owner_leases, owner_bids. rewrite E. cbn [ok_list].
  apply (each_add (λ _, 1%Z) (λ d, len (ok_list (Leases q o (d_DSeq d)))) (λ d, len (ok_list (Bids q o (d_DSeq d))))) in Hl.
  - rewrite Hl, sumZ_const. unfold add_stats. f_equal; lia.
  - intros st0 d st0'. apply reconcile_deployment_counts.
Qed.
End steps.
End reconcile.
