(* ===== verification/SyncProps.v ===== *)
(** * Properties of the sync engine

    Reconciliation, events, pagination and the reconnection delay, with instances
    on the in-memory database. *)

From Stdlib Require Import Ascii.
From stdpp Require Import sorting base gmap strings pretty option numbers list.
From S2P Require Import Prelude GoStd GoJson Bolt StoreTypes StoreOps StoreRep StoreSpec StoreClose StoreRun StoreProps Sync SyncSpec.

(** The account an event is about. *)
Definition event_owner (ev : chain_event) : option string :=
  match ev with
  | EventDeploymentCreated o _ _ | EventDeploymentUpdated o _ _ | EventDeploymentClosed o _ => Some o
  | EventBidCreated id _ | EventBidClosed id => Some (bid_Owner id)
  | EventLeaseCreated id _ | EventLeaseClosed id => Some (lid_Owner id)
  | EventOther => None
  end.

(** Events that change a record rather than create one. *)
Definition is_update (ev : chain_event) : bool :=
  match ev with
  | EventDeploymentUpdated _ _ _ | EventDeploymentClosed _ _ | EventBidClosed _ | EventLeaseClosed _ => true
  | _ => false
  end.

(** The fields of an event are values of their types. *)
Definition event_ok (ev : chain_event) : bool :=
  match ev with
  | EventDeploymentCreated o n _ | EventDeploymentUpdated o n _ | EventDeploymentClosed o n => utf8_ok o && in_u64 n
  | EventBidCreated id p => bid_id_ok id && utf8_ok p
  | EventBidClosed id => bid_id_ok id
  | EventLeaseCreated id p => lease_id_ok id && utf8_ok p
  | EventLeaseClosed id => lease_id_ok id
  | EventOther => true
  end.

Section events.
Context {S : Type} `{StoreLaws S}.
Implicit Types (s : S) (A : astore).

Lemma New_tracked l o : isTracked (New l) o = bool_decide (o ∈ l).
Proof.
  unfold isTracked, New. cbn [tracked]. apply bool_decide_ext.
  assert (∀ t : gset string, o ∈ foldl (λ t addr, t ∪ {[ addr ]}) t l ↔ o ∈ t ∨ o ∈ l) as Hf.
  { induction l as [|a l IH]; intros t; cbn [foldl]; [set_solver|]. rewrite IH. set_solver. }
  rewrite Hf. set_solver.
Qed.

(** Only tracked accounts. Events about an account that the engine was not
    created for, and events of unknown types, change nothing and succeed. *)
Theorem HandleEvent_untracked l now s ev :
  (∀ o, event_owner ev = Some o → o ∉ l) → HandleEvent (New l) now s ev = (s, Ok tt).
Proof.
  intros Ho. destruct ev; cbn [event_owner HandleEvent] in *; try done;
    unfold handleDeploymentCreated, handleDeploymentUpdated, handleDeploymentClosed, handleBidCreated, handleBidClosed,
      handleLeaseCreated, handleLeaseClosed; rewrite New_tracked, bool_decide_eq_false_2 by eauto; done.
Qed.

Lemma put_law_keeps A o (p : S * result unit) : put_law st_rep A o p → (∀ A', astep A o A' → keeps_local A A') →
  ∃ A', st_rep p.1 A' ∧ keeps_local A A'.
Proof. intros [[_ (A' & Hs & Hr)]|[_ Hr]] HA; [by eauto|]. exists A. by split. Qed.

Lemma updated_ok d hash at_ : in_i64 at_ = true → deployment_ok d = true →
  deployment_ok (set_d_UpdatedAt at_ (set_d_Version hash d)) = true.
Proof. intros Ha. unfold deployment_ok. destruct d; cbn -[utf8_ok in_u64 in_i64 map_ok slice_ok andb]; intros; by split_andb. Qed.

Lemma closed_ok d at_ : in_i64 at_ = true → deployment_ok d = true →
  deployment_ok (set_d_UpdatedAt at_ (set_d_ClosedAt at_ (set_d_State "closed" d))) = true.
Proof. intros Ha. unfold deployment_ok. destruct d; cbn -[utf8_ok in_u64 in_i64 map_ok slice_ok andb]; intros; by split_andb. Qed.

Lemma bid_state_ok b st : utf8_ok st = true → bid_ok b = true → bid_ok (set_b_State st b) = true.
Proof. intros Ha. unfold bid_ok. destruct b; cbn -[utf8_ok in_u64 in_i64 map_ok bid_id_ok andb]; intros; by split_andb. Qed.

Lemma lease_closed_ok l at_ : in_i64 at_ = true → lease_ok l = true → lease_ok (set_l_ClosedAt at_ (set_l_State "closed" l)) = true.
Proof. intros Ha. unfold lease_ok. destruct l; cbn -[utf8_ok in_u64 in_i64 slice_ok lease_id_ok andb]; intros; by split_andb. Qed.

Lemma fresh_lease_ok id p at_ : lease_id_ok id = true → utf8_ok p = true → in_i64 at_ = true →
  lease_ok (set_l_CreatedAt at_ (set_l_Price p (set_l_State "active" (set_l_ID id zero_lease)))) = true.
Proof. intros. unfold lease_ok. cbn -[utf8_ok in_u64 in_i64 slice_ok lease_id_ok andb]. by split_andb. Qed.

Lemma bid_of_lease_ok id : lease_id_ok id = true → bid_id_ok (bid_of_lease id) = true.
Proof. by destruct id. Qed.

(** The record a get at a deployment's key returns has that key. *)
Lemma stored_key s A o n d : st_rep s A → a_deps A !! DeploymentKey o n = Some d →
  deployment_ok d = true ∧ d_Owner d = o ∧ d_DSeq d = n.
Proof.
  intros Hr Hd. destruct (wf_deps _ (law_wf _ _ Hr) _ _ Hd) as (Hok & Hk & _). by apply DeploymentKey_inj_pair in Hk.
Qed.

(** The four handlers that read a record, change it and put it back. *)
Section updates.
Context (e : Engine) (now : clock) (s : S) (A : astore).
Hypotheses (Hr : st_rep s A) (Hnow : ∀ n, in_i64 (now n) = true).

Lemma updated_keeps o n h : utf8_ok o = true → in_u64 n = true →
  ∃ A', st_rep (handleDeploymentUpdated e now s o n h).1 A' ∧ keeps_local A A'.
Proof using Hr Hnow.
  intros Ho Hn. unfold handleDeploymentUpdated. destruct (isTracked e o); [|by exists A]. cbn [negb].
  rewrite (law_GetDeployment _ _ _ _ Hr). cbn [read_then]. eapply put_law_keeps.
  - apply law_PutDeployment; [done|]. apply updated_ok; [done|]. destruct (a_deps A !! _) as [d|] eqn:E; [by eapply stored_key|].
    unfold deployment_ok. cbn -[utf8_ok in_u64 in_i64 andb]. rewrite Hnow. by split_andb.
  - intros A' Hs. eapply keeps_put_deployment; [exact Hs|]. intros x.
    destruct (a_deps A !! DeploymentKey o n) as [d|] eqn:E.
    + destruct (stored_key _ _ _ _ _ Hr E) as (_ & Eo & En). destruct d as [? ? ? ? ? ? ? ? ? ? ? ? ? ? ? ? ?].
      cbn in *. subst. rewrite E. by intros [= <-].
    + cbn. by rewrite E.
Qed.

Lemma closed_keeps o n : utf8_ok o = true → in_u64 n = true →
  ∃ A', st_rep (handleDeploymentClosed e now s o n).1 A' ∧ keeps_local A A'.
Proof using Hr Hnow.
  intros Ho Hn. unfold handleDeploymentClosed. destruct (isTracked e o); [|by exists A]. cbn [negb].
  rewrite (law_GetDeployment _ _ _ _ Hr). cbn [read_then]. eapply put_law_keeps.
  - apply law_PutDeployment; [done|]. apply closed_ok; [done|]. destruct (a_deps A !! _) as [d|] eqn:E; [by eapply stored_key|].
    unfold deployment_ok. cbn -[utf8_ok in_u64 in_i64 andb]. by split_andb.
  - intros A' Hs. eapply keeps_put_deployment; [exact Hs|]. intros x.
    destruct (a_deps A !! DeploymentKey o n) as [d|] eqn:E; cbn [default from_option id].
    + destruct (stored_key _ _ _ _ _ Hr E) as (_ & Eo & En). destruct d as [? ? ? ? ? ? ? ? ? ? ? ? ? ? ? ? ?].
      cbn in *. subst. rewrite E. by intros [= <-].
    + cbn. by rewrite E.
Qed.

Lemma bid_closed_keeps id : bid_id_ok id = true → ∃ A', st_rep (handleBidClosed e s id).1 A' ∧ keeps_local A A'.
Proof using Hr.
  intros Hid. unfold handleBidClosed. destruct (isTracked e _); [|by exists A]. cbn [negb].
  rewrite (law_GetBid _ _ _ Hr). cbn [read_then]. eapply put_law_keeps.
  - apply law_PutBid; [done|]. apply bid_state_ok; [done|]. destruct (a_bids A !! _) as [b|] eqn:E.
    + by destruct (wf_bids _ (law_wf _ _ Hr) _ _ E).
    + unfold bid_ok. cbn -[utf8_ok in_u64 in_i64 andb bid_id_ok]. by split_andb.
  - intros A' Hs. eapply keeps_put_bid; [exact Hs|]. intros x.
    destruct (a_bids A !! BidKey id) as [b|] eqn:E; cbn [default from_option Datatypes.id].
    + destruct (wf_bids _ (law_wf _ _ Hr) _ _ E) as (_ & Hk & _). destruct b as [? ? ? ? ? ? ?].
      cbn -[BidKey] in *. rewrite Hk, E. by intros [= <-].
    + cbn -[BidKey]. by rewrite E.
Qed.

Lemma lease_closed_keeps id : lease_id_ok id = true → ∃ A', st_rep (handleLeaseClosed e now s id).1 A' ∧ keeps_local A A'.
Proof using Hr Hnow.
  intros Hid. unfold handleLeaseClosed. destruct (isTracked e _); [|by exists A]. cbn [negb].
  rewrite (law_GetLease _ _ _ Hr). cbn [read_then]. eapply put_law_keeps.
  - apply law_PutLease; [done|]. apply lease_closed_ok; [done|]. destruct (a_leases A !! _) as [b|] eqn:E.
    + by destruct (wf_leases _ (law_wf _ _ Hr) _ _ E).
    + unfold lease_ok. cbn -[utf8_ok in_u64 in_i64 andb lease_id_ok]. by split_andb.
  - intros A' Hs. eapply keeps_put_lease; [exact Hs|]. intros x.
    destruct (a_leases A !! LeaseKey id) as [b|] eqn:E; cbn [default from_option Datatypes.id].
    + destruct (wf_leases _ (law_wf _ _ Hr) _ _ E) as (_ & Hk & _). destruct b as [? ? ? ? ? ? ? ?].
      cbn -[LeaseKey] in *. rewrite Hk, E. by intros [= <-].
    + cbn -[LeaseKey]. by rewrite E.
Qed.
End updates.

(** Update and close events. Handling one, whether the store accepts it or
    not, loses no record and no local-only field (SDL path and hash, deposit,
    labels, notes, tags; a lease's provider URI and endpoints; a bid's
    provider attributes) and leaves the sync state alone. *)
Theorem HandleEvent_keeps_local e now s A ev : st_rep s A → is_update ev = true → event_ok ev = true →
  (∀ n, in_i64 (now n) = true) →
  ∃ A', st_rep (HandleEvent e now s ev).1 A' ∧ keeps_local A A'.
Proof.
  intros Hr Hu Hok Hnow. destruct ev; try done; cbn [HandleEvent event_ok] in *; split_andb.
  - by apply updated_keeps.
  - by apply closed_keeps.
  - by apply bid_closed_keeps.
  - by apply lease_closed_keeps.
Qed.

(** A lease that is created. When handling the event succeeds, the lease is
    stored as active, and the bid of the same identity, if one was stored, is
    now matched and otherwise as before. *)
Theorem lease_created_matches_bid e now s s' A id price : st_rep s A → isTracked e (lid_Owner id) = true →
  event_ok (EventLeaseCreated id price) = true → (∀ n, in_i64 (now n) = true) →
  HandleEvent e now s (EventLeaseCreated id price) = (s', Ok tt) →
  ∃ l, st_GetLease s' id = Ok (Some l) ∧ l_State l = "active" ∧ l_Price l = price ∧
    ∀ b, st_GetBid s (bid_of_lease id) = Ok (Some b) →
      ∃ v, st_GetBid s' (bid_of_lease id) = Ok (Some (set_b_RecordVersion v (set_b_State "matched" b))).
Proof.
  intros Hr Ht Hok Hnow. cbn [HandleEvent event_ok] in *. split_andb. unfold handleLeaseCreated. rewrite Ht. cbn [negb].
  set (fresh := set_l_CreatedAt (now 0) _).
  assert (lease_ok fresh = true) as Hf by by apply fresh_lease_ok.
  destruct (law_PutLease s A fresh Hr Hf) as [[Hp (A1 & Hs1 & Hr1)]|[Hne _]];
    destruct (st_PutLease s (Some fresh)) as [s1 [[]| |]]; cbn [fst snd] in *; try done; try by intros [=].
  inversion Hs1 as [|l' v1 Hv1| | | | |]; subst l' A1; clear Hs1.
  rewrite (law_GetBid _ _ _ Hr1), (law_GetBid _ _ _ Hr). cbn [read_then a_bids with_leases].
  assert (∀ A2, st_rep s' A2 → a_leases A2 = <[LeaseKey (l_ID fresh) := set_l_RecordVersion v1 fresh]> (a_leases A) →
    ∃ l, st_GetLease s' id = Ok (Some l) ∧ l_State l = "active" ∧ l_Price l = price) as Hlease.
  { intros A2 Hr2 E2. rewrite (law_GetLease _ _ _ Hr2), E2. eexists. by rewrite lookup_insert_eq. }
  destruct (a_bids A !! BidKey (bid_of_lease id)) as [b|] eqn:Eb.
  - destruct (wf_bids _ (law_wf _ _ Hr) _ _ Eb) as (Hbok & Hk & _).
    assert (bid_ok (set_b_State "matched" b) = true) as Hb2 by by apply bid_state_ok.
    destruct (law_PutBid s1 _ _ Hr1 Hb2) as [[Hp2 (A2 & Hs2 & Hr2)]|[Hne _]];
      destruct (st_PutBid s1 _) as [s2 [[]| |]]; cbn [fst snd] in *; try done; try by intros [=].
    intros [= <-]. inversion Hs2 as [| |b' v2 Hv2| | | |]; subst b' A2; clear Hs2.
    destruct (Hlease _ Hr2 eq_refl) as (l & ? & ? & ?). exists l. split_and!; try done.
    intros b0 [= <-]. exists v2. rewrite (law_GetBid _ _ _ Hr2). cbn [a_bids with_bids with_leases].
    assert (BidKey (b_ID (set_b_State "matched" b)) = BidKey (bid_of_lease id)) as -> by (destruct b; exact Hk).
    by rewrite lookup_insert_eq.
  - intros [= <-]. destruct (Hlease _ Hr1 eq_refl) as (l & ? & ? & ?). exists l. by split_and!.
Qed.
End events.

(** ** Reconciliation *)
Section reconcile.
Context {S : Type} `{StoreLaws S}.
Implicit Types (s : S) (A : astore) (q : Querier).

Lemma putSyncState_spec e now s A h : st_rep s A → Forall (λ a, utf8_ok a = true) (elements (tracked e)) →
  in_i64 h = true → in_i64 now = true →
  put_law st_rep A (OpPutSyncState (Some (MkSync h now (Some (tracked_list e)) (a_schema A)))) (putSyncState e now s h).
Proof.
  intros Hr Ht Hh Hn. unfold putSyncState. rewrite (law_SchemaVersion _ _ Hr). apply law_PutSyncState; [done|].
  unfold sync_state_ok. cbn -[utf8_ok in_u64 in_i64 andb forallb]. split_andb; try done; [|apply (wf_schema _ (law_wf _ _ Hr))].
  apply forallb_forall. intros a Ha%list_elem_of_In. unfold tracked_list in Ha. rewrite sort_strings_perm in Ha.
  by rewrite Forall_forall in Ht; apply Ht.
Qed.

(** What the sync state says after a successful synchronisation. *)
Definition synced e now h A A' : Prop :=
  a_sync A' = Some (MkSync h now (Some (tracked_list e)) (a_schema A)) ∧
  a_deps A' = a_deps A ∧ a_leases A' = a_leases A ∧ a_bids A' = a_bids A ∧ a_schema A' = a_schema A.

Lemma sync_step e now h A A' :
  astep A (OpPutSyncState (Some (MkSync h now (Some (tracked_list e)) (a_schema A)))) A' → synced e now h A A'.
Proof. intros Hs. by inversion Hs; subst. Qed.

(** C3: Reconciling never discards local data, and never pretends. Whatever the
    chain answers, and whether or not the reconciliation completes, no record
    and no local-only field is lost; and unless it succeeds the sync state is
    the old one, so the next launch starts from there. *)
Theorem Reconcile_keeps_local e q now s A : st_rep s A → querier_ok q → (∀ n, in_i64 (now n) = true) →
  Forall (λ a, utf8_ok a = true) (elements (tracked e)) →
  ∃ A', st_rep (Reconcile e q now s).1 A' ∧ keeps_local A (with_sync (a_sync A) A') ∧
    ((Reconcile e q now s).2 ≠ Ok tt → a_sync A' = a_sync A).
Proof.
  intros Hr Hq Hn Ht. unfold Reconcile. rewrite (law_GetSyncState _ _ Hr). cbn [read_then].
  assert (∃ A', st_rep s A' ∧ keeps_local A (with_sync (a_sync A) A') ∧ a_sync A' = a_sync A) as (A0 & Hr0 & Hk0 & Es0).
  { exists A. split_and!; [done| |done]. by destruct A. }
  destruct (CurrentHeight q) as [h| |] eqn:Eh; cbn [read_then]; [|by exists A0..].
  assert (∀ s1 A1, st_rep s1 A1 → keeps_local A A1 →
    ∃ A', st_rep (putSyncState e (now 1) s1 h).1 A' ∧ keeps_local A (with_sync (a_sync A) A') ∧
      ((putSyncState e (now 1) s1 h).2 ≠ Ok tt → a_sync A' = a_sync A)) as Hput.
  { intros s1 A1 Hr1 Hk1. destruct (putSyncState_spec e (now 1) s1 A1 h Hr1 Ht (qo_height _ Hq _ Eh) (Hn 1)) as [[-> (A' & Hs & Hr')]|[_ Hr']].
    - apply sync_step in Hs as (_ & E1 & E2 & E3 & E4). exists A'. split_and!; [done| |done].
      destruct Hk1 as [K1 K2 K3 K4 K5]. split; simpl; rewrite ?E1, ?E2, ?E3, ?E4; eauto.
    - exists A1. split_and!; [done| |intros _; apply (kl_sync _ _ Hk1)].
      destruct Hk1 as [K1 K2 K3 K4 K5]. split; simpl; eauto. }
  destruct (match a_sync A with None => true | Some ss => _ end); [|by apply (Hput s A)].
  destruct (fullReconcile_keeps (now 0) (Hn 0) q Hq e s A Hr) as (A1 & Hr1 & Hk1).
  destruct (fullReconcile e q (now 0) s) as [[s1 stats] r]. cbn [fst] in Hr1. destruct r as [[]| |]; [by apply (Hput s1 A1)|..];
    (exists A1; split_and!; [done| |intros _; apply (kl_sync _ _ Hk1)]; destruct Hk1 as [K1 K2 K3 K4 K5]; split; simpl; eauto).
Qed.

(** On-demand reconciliation. When it succeeds, every deployment the chain
    reported for a tracked account reads back with the chain's fields and, if
    it was known before, its local fields; deployments that were not reported
    are untouched; the counters are the numbers of records the chain returned;
    and the sync state has the chain height and the sorted accounts. *)
Theorem ReconcileNow_result e q now s A s' stats : st_rep s A → querier_ok q → (∀ n, in_i64 (now n) = true) →
  Forall (λ a, utf8_ok a = true) (elements (tracked e)) →
  NoDup ((λ d, DeploymentKey (d_Owner d) (d_DSeq d)) <$> all_deployments q (tracked_list e)) →
  ReconcileNow e q now s = ((s', stats), Ok tt) →
  ∃ h, CurrentHeight q = Ok h ∧
    st_GetSyncState s' = Ok (Some (MkSync h (now 1) (Some (tracked_list e)) (a_schema A))) ∧
    stats = MkReconcileStats (Z.of_nat (size (tracked e)))
      (sumZ (λ o, len (ok_list (Deployments q o))) (tracked_list e))
      (sumZ (owner_leases q) (tracked_list e)) (sumZ (owner_bids q) (tracked_list e)) h ∧
    (∀ d, d ∈ all_deployments q (tracked_list e) → ∃ d',
      st_GetDeployment s' (d_Owner d) (d_DSeq d) = Ok (Some d') ∧ chain_fields d' = chain_fields d ∧
      ∀ x, st_GetDeployment s (d_Owner d) (d_DSeq d) = Ok (Some x) → local_fields d' = local_fields x) ∧
    (∀ o n, DeploymentKey o n ∉ (λ d, DeploymentKey (d_Owner d) (d_DSeq d)) <$> all_deployments q (tracked_list e) →
      st_GetDeployment s' o n = st_GetDeployment s o n).
Proof.
  intros Hr Hq Hn Ht HN. unfold ReconcileNow. destruct (CurrentHeight q) as [h| |] eqn:Eh; [|by intros [=]..].
  destruct (fullReconcile e q (now 0) s) as [[s1 stats1] [[]| |]] eqn:Ef; [|by intros [=]..].
  destruct (putSyncState e (now 1) s1 h) as [s2 r] eqn:Ep. intros [= <- <- ->].
  destruct (fullReconcile_merges (now 0) (Hn 0) q Hq e s A _ Hr Ef) as (A1 & Hr1 & Hm). cbn [fst] in Hr1.
  assert (a_schema A1 = a_schema A) as Esch.
  { destruct (fullReconcile_keeps (now 0) (Hn 0) q Hq e s A Hr) as (A1' & Hr1' & Hk). rewrite Ef in Hr1'. cbn [fst] in Hr1'.
    apply law_SchemaVersion in Hr1 as E1. apply law_SchemaVersion in Hr1' as E1'. rewrite E1 in E1'. injection E1' as ->. apply (kl_schema _ _ Hk). }
  pose proof (putSyncState_spec e (now 1) s1 A1 h Hr1 Ht (qo_height _ Hq _ Eh) (Hn 1)) as Hput. rewrite Ep in Hput.
  destruct Hput as [[_ (A2 & Hs & Hr2)]|[Hne _]]; [|done]. cbn [fst] in Hr2. apply sync_step in Hs as (Es & Ed & _).
  exists h. split; [done|]. rewrite (law_GetSyncState _ _ Hr2), Es, Esch. split; [done|].
  apply fullReconcile_counts in Ef. cbn [snd] in Ef. split; [by rewrite Ef|]. split.
  - intros d Hd. destruct (merged_in_lookup _ _ _ _ _ Hm HN Hd) as [v Hv].
    rewrite (law_GetDeployment _ _ _ _ Hr2), (law_GetDeployment _ _ _ _ Hr), Ed, Hv. eexists. split; [done|]. split.
    + rewrite <- (mergeDeployment_chain (a_deps A !! DeploymentKey (d_Owner d) (d_DSeq d)) d (now 0)). by destruct (mergeDeployment _ _ _).
    + intros x [= E]. rewrite E. rewrite local_fields_version. apply mergeDeployment_local.
  - intros o n Ho. rewrite (law_GetDeployment _ _ _ _ Hr2), (law_GetDeployment _ _ _ _ Hr), Ed.
    by rewrite (merged_in_frame _ _ _ _ _ Hm Ho).
Qed.

(** The gap rule. With a sync state at most 1000 blocks behind, [Reconcile]
    reads nothing from the chain but its height: the deployments, leases and
    bids stay as they are and the recorded height advances past the missed
    blocks. *)
Theorem Reconcile_small_gap e q now s A ss h s' : st_rep s A → querier_ok q → (∀ n, in_i64 (now n) = true) →
  Forall (λ a, utf8_ok a = true) (elements (tracked e)) →
  a_sync A = Some ss → CurrentHeight q = Ok h → (0 ≤ ss_LastBlockHeight ss)%Z → (0 ≤ h)%Z →
  (h - ss_LastBlockHeight ss ≤ 1000)%Z → Reconcile e q now s = (s', Ok tt) →
  ∃ A', st_rep s' A' ∧ synced e (now 1) h A A'.
Proof.
  intros Hr Hq Hn Ht Es Eh Hss Hh Hgap. unfold Reconcile. rewrite (law_GetSyncState _ _ Hr), Es, Eh. cbn [read_then].
  pose proof (qo_height _ Hq _ Eh) as Hi. pose proof (wf_sync _ (law_wf _ _ Hr) _ Es) as Hok.
  unfold sync_state_ok in Hok. split_andb. unfold in_i64, i64_min, i64_max in Hi. 
  rewrite wrap_i64_id by (unfold in_i64, i64_min, i64_max in *; lia).
  unfold gapThreshold. destruct (Z.ltb_spec 1000 (h - ss_LastBlockHeight ss)); [lia|]. intros Ep.
  pose proof (putSyncState_spec e (now 1) s A h Hr Ht (qo_height _ Hq _ Eh) (Hn 1)) as Hput. rewrite Ep in Hput.
  destruct Hput as [[_ (A2 & Hs & Hr2)]|[Hne _]]; [|done]. apply sync_step in Hs. eauto.
Qed.
End reconcile.

(** ** Pagination *)
Section pages.
Context {R : Type} (context : error → error) (fetch : nat → string → result (page R)).

(** The pages a node serves from a key on, up to one without a continuation. *)
Inductive trail : nat → string → list R → Prop :=
| trail_last n key p : fetch n key = Ok p → nextPageKey (pg_NextKey p) = EmptyString → trail n key (pg_items p)
| trail_more n key p rest : fetch n key = Ok p → nextPageKey (pg_NextKey p) ≠ EmptyString →
    trail (n + 1) (nextPageKey (pg_NextKey p)) rest → trail n key (pg_items p ++ rest).

Lemma walk_sound fuel n key seen out l : walk_pages context fetch fuel n key seen out = Some (Ok l) →
  ∃ rest, l = out ++ rest ∧ trail n key rest.
Proof.
  revert n key seen out. induction fuel as [|fuel IH]; intros n key seen out; cbn [walk_pages]; [done|].
  destruct (fetch n key) as [p| |] eqn:Ef; cbn [map_err]; [|done..]. unfold unseenNextPageKey.
  case_bool_decide as Ek; cbn [map_err].
  - rewrite bool_decide_eq_true_2 by done. intros [= <-]. exists (pg_items p). split; [done|]. by constructor.
  - case_bool_decide; cbn [map_err failf]; [done|]. rewrite bool_decide_eq_false_2 by done.
    intros (rest & -> & Ht)%IH. exists (pg_items p ++ rest). rewrite app_assoc. split; [done|]. by econstructor.
Qed.

Lemma walk_terminates (K : gset string) fuel n key seen out :
  (∀ n key p, fetch n key = Ok p → nextPageKey (pg_NextKey p) ∈ K ∪ {[ EmptyString ]}) →
  (size (K ∖ seen) < fuel)%nat → ∃ r, walk_pages context fetch fuel n key seen out = Some r.
Proof.
  intros HK. revert n key seen out. induction fuel as [|fuel IH]; intros n key seen out Hs; [lia|]. cbn [walk_pages].
  destruct (fetch n key) as [p| |] eqn:Ef; cbn [map_err]; [|by eauto..]. unfold unseenNextPageKey.
  case_bool_decide as Ek; cbn [map_err]; [rewrite bool_decide_eq_true_2 by done; eauto|].
  case_bool_decide as Es; cbn [map_err failf]; [by eauto|]. rewrite bool_decide_eq_false_2 by done.
  apply IH. specialize (HK _ _ _ Ef). set (k := nextPageKey (pg_NextKey p)) in *.
  assert (size (K ∖ (seen ∪ {[k]})) < size (K ∖ seen))%nat; [|lia].
  apply subset_size. set_solver.
Qed.

(** Pagination. Against a node whose continuation keys come from a finite
    set of [size K] keys, a paginated query returns after at most [size K + 1]
    requests; and whatever the node, a result that is returned is the
    concatenation of all pages from the first to one without a continuation
    key, never a prefix: a repeated key is an error. *)
Theorem pagination_complete (K : gset string) fuel :
  (∀ n key p, fetch n key = Ok p → nextPageKey (pg_NextKey p) ∈ K ∪ {[ EmptyString ]}) → (size K < fuel)%nat →
  ∃ r, walk_pages context fetch fuel 0 EmptyString ∅ [] = Some r ∧
    ∀ l, r = Ok l → trail 0 EmptyString l.
Proof.
  intros HK Hf. destruct (walk_terminates K fuel 0 EmptyString ∅ [] HK) as [r Hr].
  { by rewrite difference_empty_L. }
  exists r. split; [done|]. intros l ->. by apply walk_sound in Hr as (rest & -> & Ht).
Qed.
End pages.

(** ** Backoff *)

(** Backoff within range. For attempts 0 to 33 the delay is at least the
    exponential base of 1, 2, 4, ... seconds capped at 60 and less than one and a
    half times that base. *)
Theorem BackoffDelay_bounds random attempt : (0 ≤ attempt ≤ 33)%Z →
  let base := Z.min (2 ^ attempt * second) (60 * second) in
  ∃ d, BackoffDelay random attempt = Ok d ∧ (base ≤ d)%Z ∧ (2 * d < 3 * base)%Z.
Proof.
  intros Ha base. unfold BackoffDelay.
  assert (shift_left_i64 second (uint_of_int attempt) = (2 ^ attempt * second)%Z) as ->.
  { unfold shift_left_i64, uint_of_int. rewrite Z.mod_small by lia.
    destruct (N.leb_spec 64 (Z.to_N attempt)); [lia|]. rewrite Z2N.id, Z.shiftl_mul_pow2, Z.mul_comm by lia.
    apply wrap_i64_id. assert (2 ^ attempt ≤ 2 ^ 33)%Z by (apply Z.pow_le_mono_r; lia).
    assert (0 < 2 ^ attempt)%Z by lia. unfold in_i64, i64_min, i64_max, second. lia. }
  assert (0 < 2 ^ attempt)%Z by lia.
  assert ((if (60 * second <? 2 ^ attempt * second)%Z then 60 * second else 2 ^ attempt * second)%Z = base) as ->.
  { unfold base. destruct (Z.ltb_spec (60 * second) (2 ^ attempt * second)); lia. }
  assert (second ≤ base ≤ 60 * second)%Z as Hb by (unfold base, second; lia).
  unfold second in Hb. rewrite Z.quot_div_nonneg by lia.
  pose proof (Z.div_mod base 2 ltac:(done)) as Hdm. pose proof (Z.mod_pos_bound base 2 ltac:(done)).
  unfold Int63n. destruct (Z.leb_spec (base / 2) 0); [lia|]. cbn [mbind result_bind].
  pose proof (Z.mod_pos_bound random (base / 2) ltac:(lia)).
  eexists. split; [done|]. rewrite wrap_i64_id by (unfold in_i64, i64_min, i64_max; lia). lia.
Qed.

(** C39: Backoff out of range. The delay is meant to stay at 60 seconds from the
    seventh attempt on, but the shift overflows: attempt 34 and every attempt
    from 55 on panic in the jitter. *)
Theorem BackoffDelay_overflow random attempt : (attempt = 34 ∨ 55 ≤ attempt < 2 ^ 63)%Z →
  BackoffDelay random attempt = Panic.
Proof.
  intros Ha. unfold BackoffDelay.
  assert (shift_left_i64 second (uint_of_int attempt) ≤ 0)%Z as Hs.
  { destruct Ha as [->|Ha]; [by vm_compute|]. unfold shift_left_i64, uint_of_int. rewrite Z.mod_small by lia.
    destruct (N.leb_spec 64 (Z.to_N attempt)); [done|]. rewrite Z2N.id by lia.
    assert (∃ k, 0 ≤ k ∧ k < 9 ∧ attempt = 55 + k)%Z as (k & Hk & Hk' & ->) by (exists (attempt - 55)%Z; lia).
    assert (k = 0 ∨ k = 1 ∨ k = 2 ∨ k = 3 ∨ k = 4 ∨ k = 5 ∨ k = 6 ∨ k = 7 ∨ k = 8)%Z as Hc by lia.
    repeat destruct Hc as [->|Hc]; [by vm_compute..|]. subst. by vm_compute. }
  destruct (Z.ltb_spec (60 * second) (shift_left_i64 second (uint_of_int attempt))) as [Hl|_].
  { unfold second in Hl at 1. lia. }
  unfold Int63n. destruct (Z.leb_spec (Z.quot (shift_left_i64 second (uint_of_int attempt)) 2) 0) as [|Hq]; [done|].
  pose proof (Z.quot_le_mono _ 0 2 ltac:(lia) Hs) as Hm. rewrite Z.quot_0_l in Hm by lia. lia.
Qed.

(** ** The unique owner of a deployment number *)
Section owner.
Context {Tx : Type} `{BoltLaws Tx}.

Definition owners_seen (dseq : N) (records : list DeploymentRecord) : gset string :=
  foldl (λ seen record,
    if negb (d_DSeq record =? dseq)%N || bool_decide (d_Owner record = EmptyString) then seen
    else seen ∪ {[ d_Owner record ]}) ∅ records.

Lemma owners_seen_elem dseq records o :
  o ∈ owners_seen dseq records ↔ ∃ d, d ∈ records ∧ d_DSeq d = dseq ∧ d_Owner d = o ∧ o ≠ EmptyString.
Proof.
  unfold owners_seen.
  assert (∀ seen : gset string, o ∈ foldl (λ seen record,
    if negb (d_DSeq record =? dseq)%N || bool_decide (d_Owner record = EmptyString) then seen
    else seen ∪ {[ d_Owner record ]}) seen records ↔ o ∈ seen ∨ ∃ d, d ∈ records ∧ d_DSeq d = dseq ∧ d_Owner d = o ∧ o ≠ EmptyString) as Hf.
  { induction records as [|r records IH]; intros seen; cbn [foldl]; [set_solver|]. rewrite IH. setoid_rewrite elem_of_cons.
    destruct (N.eqb_spec (d_DSeq r) dseq) as [En|En]; case_bool_decide as Eo; cbn [negb orb]; set_solver. }
  rewrite Hf. set_solver.
Qed.

Lemma stored_owner (db : Tx) A dseq o : store_rep db A → (o ∈ owners_seen dseq (in_key_order (a_deps A)) ↔
  o ≠ EmptyString ∧ ∃ d, GetDeployment db o dseq = Ok (Some d)).
Proof.
  intros Hr. rewrite owners_seen_elem. setoid_rewrite in_key_order_elem. setoid_rewrite (GetDeployment_rep _ _ _ _ Hr). split.
  - intros (d & [k Hk] & <- & <- & Hne). split; [done|]. destruct (rep_wf_deps _ _ Hr _ _ Hk) as (_ & E & _).
    simpl in E. rewrite E, Hk. eauto.
  - intros (Hne & d & [= Hd]). destruct (rep_wf_deps _ _ Hr _ _ Hd) as (_ & E & _). simpl in E.
    apply DeploymentKey_inj_pair in E as [Eo En]. exists d. eauto.
Qed.

(** The owner of a deployment number. The answer is the only account with a
    local deployment of that number, empty when there is none, and an error
    when there are several: the function never guesses. *)
Theorem UniqueDeploymentOwner_exact (db : Tx) A dseq : store_rep db A → dseq ≠ 0%N →
  match UniqueDeploymentOwner (Some db) dseq with
  | Ok o => ∀ o', o' ≠ EmptyString → (∃ d, GetDeployment db o' dseq = Ok (Some d)) ↔ o ≠ EmptyString ∧ o' = o
  | Err _ => ∃ o1 o2, o1 ≠ o2 ∧ (∃ d, GetDeployment db o1 dseq = Ok (Some d)) ∧ (∃ d, GetDeployment db o2 dseq = Ok (Some d))
  | Panic => False
  end.
Proof.
  intros Hr Hnz. unfold UniqueDeploymentOwner. rewrite (proj2 (N.eqb_neq _ _) Hnz).
  change (st_ListDeployments db no_deployment_filter) with (ListDeployments db no_deployment_filter).
  rewrite (ListDeployments_rep _ _ _ Hr). cbn [map_err mbind result_bind].
  rewrite (forallb_filter_id (λ d, matchDeployment d no_deployment_filter)) by by apply forallb_forall.
  fold (owners_seen dseq (in_key_order (a_deps A))). set (seen := owners_seen _ _).
  assert (∀ o, o ∈ sort_strings (elements seen) ↔ o ≠ EmptyString ∧ ∃ d, GetDeployment db o dseq = Ok (Some d)) as Hin.
  { intros o. rewrite sort_strings_elem, elem_of_elements. by apply stored_owner. }
  assert (NoDup (sort_strings (elements seen))) as HN by (rewrite sort_strings_perm; apply NoDup_elements).
  destruct (sort_strings (elements seen)) as [|o1 [|o2 l]].
  - intros o' Hne. split; [|naive_solver]. intros Hd. pose proof (proj2 (Hin o') (conj Hne Hd)) as Hf. by apply elem_of_nil in Hf.
  - destruct (proj1 (Hin o1) ltac:(left)) as [Hne1 Hd1]. intros o' Hne. split.
    + intros Hd. split; [done|]. pose proof (proj2 (Hin o') (conj Hne Hd)) as Hf. by apply list_elem_of_singleton in Hf.
    + by intros [_ ->].
  - exists o1, o2. split; [|split; [apply (Hin o1)|apply (Hin o2)]; set_solver].
    intros ->. apply NoDup_cons in HN as [HN _]. set_solver.
Qed.
End owner.

(** ** The properties at concrete inputs *)
Definition demo_clock : clock := λ n, (1700000000 + Z.of_nat n)%Z.
Definition demo_engine : Engine := New ["akash1owner"].
Definition demo_querier : Querier := {|
  CurrentHeight := Ok 900%Z;
  Deployments o := Ok (if bool_decide (o = "akash1owner")
                       then [set_d_State "closed" demo_deployment; set_d_DSeq 8 demo_deployment] else []);
  Leases _ _ := Ok [];
  Bids _ _ := Ok [];
|}.

Lemma demo_clock_ok n : in_i64 (demo_clock (n mod 4)%nat) = true.
Proof.
  pose proof (Nat.mod_upper_bound n 4 ltac:(done)). unfold demo_clock, in_i64, i64_min, i64_max. lia.
Qed.

(** A clock that stays within [int64]. *)
Definition safe_clock : clock := λ n, demo_clock (n mod 4)%nat.

Lemma demo_querier_ok : querier_ok demo_querier.
Proof.
  split; cbn [CurrentHeight Deployments Leases Bids demo_querier].
  - intros h [= <-]. reflexivity.
  - intros o l [= <-]. case_bool_decide; repeat constructor.
  - intros o n l [= <-]. constructor.
  - intros o n l [= <-]. constructor.
Qed.

Lemma demo_tracked_ok : Forall (λ a, utf8_ok a = true) (elements (tracked demo_engine)).
Proof. apply (bool_decide_unpack _). vm_compute. exact I. Qed.

Lemma demo_st_rep : st_rep demo_db demo_astore.
Proof. exact demo_rep. Qed.

Lemma HandleEvent_untracked_witness :
  HandleEvent demo_engine demo_clock demo_db (EventDeploymentClosed "akash1other" 7) = (demo_db, Ok tt).
Proof. apply (HandleEvent_untracked ["akash1owner"]). intros o [= <-]. apply (bool_decide_unpack _). vm_compute. exact I. Defined.

Lemma HandleEvent_keeps_local_witness :
  ∃ A', st_rep (HandleEvent demo_engine safe_clock demo_db (EventDeploymentClosed "akash1owner" 7)).1 A' ∧ keeps_local demo_astore A'.
Proof.
  apply (HandleEvent_keeps_local demo_engine safe_clock demo_db demo_astore (EventDeploymentClosed "akash1owner" 7));
    [exact demo_st_rep|reflexivity|reflexivity|]. intros n. apply demo_clock_ok.
Defined.

Lemma lease_created_matches_bid_witness :
  ∃ v, GetBid (HandleEvent demo_engine safe_clock demo_db (EventLeaseCreated (MkLeaseID "akash1owner" 7 1 1 "akash1prov") "1uakt")).1
         (MkBidID "akash1owner" 7 1 1 "akash1prov")
       = Ok (Some (set_b_RecordVersion v (set_b_State "matched" (set_b_RecordVersion 1 demo_bid)))).
Proof.
  destruct (lease_created_matches_bid demo_engine safe_clock demo_db
    (HandleEvent demo_engine safe_clock demo_db (EventLeaseCreated (MkLeaseID "akash1owner" 7 1 1 "akash1prov") "1uakt")).1
    demo_astore (MkLeaseID "akash1owner" 7 1 1 "akash1prov") "1uakt" demo_st_rep) as (l & _ & _ & _ & Hb);
    [reflexivity|reflexivity|intros n; apply demo_clock_ok|apply outcome_ok; vm_compute; reflexivity|].
  apply Hb. vm_compute. reflexivity.
Defined.

Lemma Reconcile_keeps_local_witness :
  ∃ A', st_rep (Reconcile demo_engine demo_querier safe_clock demo_db).1 A' ∧ keeps_local demo_astore (with_sync None A').
Proof.
  destruct (Reconcile_keeps_local demo_engine demo_querier safe_clock demo_db demo_astore demo_st_rep demo_querier_ok)
    as (A' & Hr & Hk & _); [intros n; apply demo_clock_ok|exact demo_tracked_ok|].
  exists A'. split; [exact Hr|exact Hk].
Defined.

Lemma ReconcileNow_result_witness :
  st_GetSyncState (ReconcileNow demo_engine demo_querier safe_clock demo_db).1.1
  = Ok (Some (MkSync 900 (safe_clock 1) (Some (tracked_list demo_engine)) 1)).
Proof.
  destruct (ReconcileNow_result demo_engine demo_querier safe_clock demo_db demo_astore
    (ReconcileNow demo_engine demo_querier safe_clock demo_db).1.1
    (ReconcileNow demo_engine demo_querier safe_clock demo_db).1.2 demo_st_rep demo_querier_ok) as (h & Hh & Hs & _).
  - intros n. apply demo_clock_ok.
  - exact demo_tracked_ok.
  - apply (bool_decide_unpack _). vm_compute. exact I.
  - rewrite <- surjective_pairing. apply outcome_ok. vm_compute. reflexivity.
  - injection Hh as <-. exact Hs.
Defined.

(** A store that was synchronised at height 200. *)
Definition synced_db : buckets := (PutSyncState demo_db (Some (MkSync 200 0 None 1))).1.

Lemma synced_rep : store_rep synced_db (with_sync (Some (MkSync 200 0 None 1)) demo_astore).
Proof.
  assert (PutSyncState demo_db (Some (MkSync 200 0 None 1)) = (synced_db, Ok tt)) as E by (apply outcome_ok; reflexivity).
  unfold PutSyncState in E. apply db_Update_ok in E as [E _].
  apply (putSyncStateTx_rep demo_db synced_db demo_astore); [exact demo_rep|reflexivity|exact E].
Qed.

Lemma Reconcile_small_gap_witness :
  ∃ A', st_rep (Reconcile demo_engine demo_querier safe_clock synced_db).1 A' ∧
    synced demo_engine (safe_clock 1) 900 (with_sync (Some (MkSync 200 0 None 1)) demo_astore) A'.
Proof.
  apply (Reconcile_small_gap demo_engine demo_querier safe_clock synced_db (with_sync (Some (MkSync 200 0 None 1)) demo_astore)
    (MkSync 200 0 None 1) 900);
    [exact synced_rep|exact demo_querier_ok|intros n; apply demo_clock_ok|exact demo_tracked_ok|reflexivity|reflexivity|
     simpl; lia|lia|simpl; lia|apply outcome_ok; vm_compute; reflexivity].
Defined.

(** Two pages: the first continues at [k], the second is the last one. *)
Definition demo_fetch (n : nat) (key : string) : result (page N) :=
  if bool_decide (key = "") then Ok (MkPage [1%N; 2%N] (Some "k")) else Ok (MkPage [3%N] None).

Lemma pagination_complete_witness :
  ∃ r, walk_pages (λ e, e) demo_fetch 2 0 "" ∅ [] = Some r ∧ ∀ l, r = Ok l → trail demo_fetch 0 "" l.
Proof.
  apply (pagination_complete (λ e, e) demo_fetch {[ "k" ]} 2).
  - intros n key p. unfold demo_fetch. case_bool_decide; intros [= <-]; apply (bool_decide_unpack _); vm_compute; exact I.
  - vm_compute. lia.
Defined.

Lemma BackoffDelay_bounds_witness : ∃ d, BackoffDelay 7 3 = Ok d ∧ (8 * second ≤ d)%Z.
Proof.
  destruct (BackoffDelay_bounds 7 3 ltac:(lia)) as (d & Hd & Hlo & _). exists d. split; [exact Hd|exact Hlo].
Defined.

Lemma BackoffDelay_overflow_witness : BackoffDelay 7 34 = Panic.
Proof. apply (BackoffDelay_overflow 7 34). left. reflexivity. Defined.

Lemma UniqueDeploymentOwner_exact_witness :
  match UniqueDeploymentOwner (Some demo_db) 7 with
  | Ok o => (∃ d, GetDeployment demo_db "akash1owner" 7 = Ok (Some d)) ↔ o ≠ "" ∧ "akash1owner" = o
  | _ => False
  end.
Proof.
  pose proof (UniqueDeploymentOwner_exact demo_db demo_astore 7 demo_rep ltac:(discriminate)) as H.
  assert (UniqueDeploymentOwner (Some demo_db) 7 = Ok "akash1owner") as E by (vm_compute; reflexivity).
  rewrite E in H |- *. apply H. discriminate.
Defined.
