(* ===== verification/Context.v ===== *)
(** * Contexts, networks and keyrings (internal/context)

    The configuration data, the paths of a context's files, loading and saving
    the configuration, and the Console API credential. The state is the in-memory configuration and the files under the
    configuration root; the outcome of each system call that can fail is a
    parameter ([faults]). Slices are lists: the code never tells a nil slice
    from an empty one. A YAML file is identified with the values it holds. *)

From Stdlib Require Import Ascii.
From stdpp Require Import sorting base gmap strings pretty option numbers list.
From S2P Require Import Prelude GoStd.

(** ** Data (types.go) *)
Record Endpoints : Type := MkEndpoints { RPC : list string; API : list string; GRPC : list string }.
#[global] Instance Endpoints_eq_dec : EqDecision Endpoints.
Proof. solve_decision. Defined.

Record Network : Type := MkNetwork {
  net_Name : string; net_ChainID : string; net_Endpoints : Endpoints;
  net_GasPrices : string; net_GasAdjustment : string; net_Faucet : string;
}.
#[global] Instance Network_eq_dec : EqDecision Network.
Proof. solve_decision. Defined.

Definition zero_network : Network := MkNetwork "" "" (MkEndpoints [] [] []) "" "" "".
Definition set_net_Name (v : string) (n : Network) : Network :=
  MkNetwork v (net_ChainID n) (net_Endpoints n) (net_GasPrices n) (net_GasAdjustment n) (net_Faucet n).
(** [Network{Name: name}]. *)
Definition network_named (name : string) : Network := set_net_Name name zero_network.

Record Keyring : Type := MkKeyring { kr_Name : string; kr_Backend : string; kr_Dir : string }.
#[global] Instance Keyring_eq_dec : EqDecision Keyring.
Proof. solve_decision. Defined.
Definition keyring_named (name : string) : Keyring := MkKeyring name "" "".

(** [ProviderDefaults] has one field, [AuthType]. *)
Record Context_ : Type := MkContext {
  ctx_Name : string; ctx_Network : Network; ctx_Keyring : Keyring;
  ctx_AuthMethod : string; ctx_ConsoleAPIURL : string; ctx_DefaultAccount : string;
  ctx_TrackedAccounts : list string; ctx_Gas : string; ctx_Fees : string; ctx_ProviderAuthType : string;
  (* resolved fields, not serialized *)
  ctx_GasPrices : string; ctx_GasAdjustment : string; ctx_AuthType : string; ctx_Root : string; ctx_ConsoleAPIKey : string;
}.
#[global] Instance Context_eq_dec : EqDecision Context_.
Proof. solve_decision. Defined.

Definition set_ctx_Name (v : string) (c : Context_) : Context_ :=
  let 'MkContext _ b d e f g h i j k l m n o p := c in MkContext v b d e f g h i j k l m n o p.
Definition set_ctx_Network (v : Network) (c : Context_) : Context_ :=
  let 'MkContext a _ d e f g h i j k l m n o p := c in MkContext a v d e f g h i j k l m n o p.
Definition set_ctx_Keyring (v : Keyring) (c : Context_) : Context_ :=
  let 'MkContext a b _ e f g h i j k l m n o p := c in MkContext a b v e f g h i j k l m n o p.
Definition set_ctx_Gas (v : string) (c : Context_) : Context_ :=
  let 'MkContext a b d e f g h _ j k l m n o p := c in MkContext a b d e f g h v j k l m n o p.
Definition set_ctx_ProviderAuthType (v : string) (c : Context_) : Context_ :=
  let 'MkContext a b d e f g h i j _ l m n o p := c in MkContext a b d e f g h i j v l m n o p.

(** The on-disk form of a context: networks and keyrings by name. *)
Record contextYAML : Type := MkContextYAML {
  cy_Name : string; cy_Network : string; cy_Keyring : string; cy_AuthMethod : string; cy_ConsoleAPIURL : string;
  cy_DefaultAccount : string; cy_TrackedAccounts : list string; cy_Gas : string; cy_Fees : string; cy_ProviderAuthType : string;
}.

Definition MarshalYAML (c : Context_) : contextYAML :=
  MkContextYAML (ctx_Name c) (net_Name (ctx_Network c)) (kr_Name (ctx_Keyring c)) (ctx_AuthMethod c) (ctx_ConsoleAPIURL c)
    (ctx_DefaultAccount c) (ctx_TrackedAccounts c) (ctx_Gas c) (ctx_Fees c) (ctx_ProviderAuthType c).

(** [UnmarshalYAML] into a zero context. *)
Definition UnmarshalYAML (r : contextYAML) : Context_ :=
  MkContext (cy_Name r) (network_named (cy_Network r)) (keyring_named (cy_Keyring r)) (cy_AuthMethod r) (cy_ConsoleAPIURL r)
    (cy_DefaultAccount r) (cy_TrackedAccounts r) (cy_Gas r) (cy_Fees r) (cy_ProviderAuthType r) "" "" "" "" "".

Record TUISettings : Type := MkTUI {
  tui_Theme : string; tui_Keybindings : string; tui_CustomKeybindings : gmap string string; tui_RefreshInterval : string;
}.
Record PluginSettings : Type := MkPlugins { pl_Paths : list string; pl_Disabled : list string }.
Record Defaults : Type := MkDefaults { dfl_Output : string; dfl_BroadcastMode : string; dfl_CommandGating : string }.

(** [Config], over the form its contexts have: in memory or on disk. *)
Record Config (C : Type) : Type := MkConfig {
  cfg_Version : Z; cfg_CurrentContext : string; cfg_Networks : list Network; cfg_Keyrings : list Keyring;
  cfg_Contexts : list C; cfg_TUI : TUISettings; cfg_Plugins : PluginSettings; cfg_Defaults : Defaults;
}.
Arguments MkConfig {C}. Arguments cfg_Version {C}. Arguments cfg_CurrentContext {C}. Arguments cfg_Networks {C}.
Arguments cfg_Keyrings {C}. Arguments cfg_Contexts {C}. Arguments cfg_TUI {C}. Arguments cfg_Plugins {C}. Arguments cfg_Defaults {C}.

Abbreviation config := (Config Context_).
Abbreviation config_doc := (Config contextYAML).

Definition ConfigVersion : Z := 1.

Definition with_contexts {C D} (l : list D) (c : Config C) : Config D :=
  MkConfig (cfg_Version c) (cfg_CurrentContext c) (cfg_Networks c) (cfg_Keyrings c) l (cfg_TUI c) (cfg_Plugins c) (cfg_Defaults c).
Definition with_networks {C} (l : list Network) (c : Config C) : Config C :=
  MkConfig (cfg_Version c) (cfg_CurrentContext c) l (cfg_Keyrings c) (cfg_Contexts c) (cfg_TUI c) (cfg_Plugins c) (cfg_Defaults c).
Definition with_keyrings {C} (l : list Keyring) (c : Config C) : Config C :=
  MkConfig (cfg_Version c) (cfg_CurrentContext c) (cfg_Networks c) l (cfg_Contexts c) (cfg_TUI c) (cfg_Plugins c) (cfg_Defaults c).
Definition with_current {C} (s : string) (c : Config C) : Config C :=
  MkConfig (cfg_Version c) s (cfg_Networks c) (cfg_Keyrings c) (cfg_Contexts c) (cfg_TUI c) (cfg_Plugins c) (cfg_Defaults c).
Definition with_version {C} (v : Z) (c : Config C) : Config C :=
  MkConfig v (cfg_CurrentContext c) (cfg_Networks c) (cfg_Keyrings c) (cfg_Contexts c) (cfg_TUI c) (cfg_Plugins c) (cfg_Defaults c).

Definition ProviderAuthJWT : string := "jwt".
Definition ProviderAuthMTLS : string := "mtls".
Definition AuthMethodKeyring : string := "keyring".
Definition AuthMethodConsoleAPI : string := "console-api".
Definition DefaultConsoleAPIURL : string := "https://console-api.akash.network".

Definition ResolveProviderAuthType (value : string) : result string :=
  if bool_decide (value = "") then Ok ProviderAuthJWT
  else if bool_decide (value = ProviderAuthJWT ∨ value = ProviderAuthMTLS) then Ok value
  else failf "invalid provider auth type %q: must be %q or %q" [value; ProviderAuthJWT; ProviderAuthMTLS].

(** ** Defaults (defaults.go) *)
Definition NetworkTemplates : gmap string Network :=
  <["mainnet" := MkNetwork "mainnet" "akashnet-2"
      (MkEndpoints ["https://rpc.akt.dev:443/rpc"; "https://rpc.akashnet.net:443"; "https://rpc-akash.ecostake.com:443"]
         ["https://api.akashnet.net:443"; "https://akash-api.polkachu.com:443"] ["grpc.akashnet.net:443"])
      "0.025uakt" "1.5" ""]> (
  <["testnet" := MkNetwork "testnet" "testnet-02"
      (MkEndpoints ["https://rpc.testnet-02.aksh.pw:443"] ["https://api.testnet-02.aksh.pw:443"] ["grpc.testnet-02.aksh.pw:443"])
      "0.025uakt" "1.5" ""]> (
  {["sandbox" := MkNetwork "sandbox" "sandbox-2"
      (MkEndpoints ["https://rpc.sandbox-2.aksh.pw:443"] ["https://api.sandbox-2.aksh.pw:443"] ["grpc.sandbox-2.aksh.pw:9090"])
      "0.025uakt" "1.5" "http://faucet.sandbox-2.aksh.pw/"]})).

Definition DefaultKeyring : Keyring := MkKeyring "default" "os" "".

Definition DefaultConfig : config :=
  MkConfig ConfigVersion "" [] [DefaultKeyring] [] (MkTUI "dark" "vim" ∅ "") (MkPlugins [] []) (MkDefaults "pretty" "sync" "").

(** The value an empty file decodes to. *)
Definition zero_doc : config_doc :=
  MkConfig 0 "" [] [] [] (MkTUI "" "" ∅ "") (MkPlugins [] []) (MkDefaults "" "" "").

(** ** Paths (path/filepath on Unix, config.go) *)

(** [strings.Split(s, "/")]. *)
Fixpoint split_slash (l : list ascii) : list string :=
  match l with
  | [] => [EmptyString]
  | c :: l =>
      if bool_decide (c = "/"%char) then EmptyString :: split_slash l
      else match split_slash l with
           | s :: rest => String c s :: rest
           | [] => [String c EmptyString]
           end
  end.

(** One component of [filepath.Clean], over the reversed list of those kept. *)
Definition clean_step (rooted : bool) (stack : list string) (c : string) : list string :=
  if bool_decide (c = "" ∨ c = ".") then stack
  else if bool_decide (c = "..") then
    match stack with
    | top :: rest => if bool_decide (top = "..") then ".." :: stack else rest
    | [] => if rooted then [] else [".."]
    end
  else c :: stack.

Definition is_rooted (s : string) : bool := match s with String "/" _ => true | _ => false end.

Definition Clean (s : string) : string :=
  let rooted := is_rooted s in
  match reverse (foldl (clean_step rooted) [] (split_slash (bytes_of s))) with
  | [] => if rooted then "/" else "."
  | l => (if rooted then "/" else "") +:+ strings_Join l "/"
  end.

Definition Join (elems : list string) : string :=
  match List.filter (λ e, negb (bool_decide (e = ""))) elems with
  | [] => ""
  | l => Clean (strings_Join l "/")
  end.

Definition ConfigPath (root : string) : string := Join [root; "config.yaml"].
Definition ContextDir (root name : string) : string := Join [root; "contexts"; name].
Definition StoreDir (root name : string) : string := Join [root; "contexts"; name; "store"].
Definition StoreDBPath (root name : string) : string := Join [StoreDir root name; "deployments.db"].
Definition ActionLogPath (root name : string) : string := Join [root; "contexts"; name; "actions.log"].
Definition WorkflowsDir (root : string) : string := Join [root; "workflows"].
Definition ContextWorkflowsDir (root name : string) : string := Join [root; "contexts"; name; "workflows"].
Definition KeyringDir (root : string) (kr : Keyring) : string :=
  if bool_decide (kr_Dir kr = "") then Join [root; "keyrings"; kr_Name kr] else kr_Dir kr.
Definition ConsoleAPIKeyPath (root ctxName : string) : string := Join [ContextDir root ctxName; "console-api-key"].

(** [ConfigHome]; the environment and the home directory are arguments. *)
Definition ConfigHome (env : string → string) (userHome : result string) (override : string) : result string :=
  if negb (bool_decide (override = "")) then Ok override
  else if negb (bool_decide (env "AKT_HOME" = "")) then Ok (env "AKT_HOME")
  else if negb (bool_decide (env "XDG_CONFIG_HOME" = "")) then Ok (Join [env "XDG_CONFIG_HOME"; "akt"])
  else home ← map_err (Wrapf "resolve home directory: %w" []) userHome; Ok (Join [home; ".config"; "akt"]).

(** ** Files

    What is under the paths the package touches: directories, data files, and
    the configuration file with what it parses to. Viper reads the file first,
    as a mapping; it is then decoded again into the typed configuration. *)
Inductive parsed : Type :=
| Parsed (d : config_doc)
| Unreadable (e : error) (* Viper fails *)
| Misshapen (e : error). (* Viper succeeds, the typed decoder fails *)

Inductive fnode : Type :=
| NDir
| NData (content : string)
| NConfig (content : parsed).

Abbreviation fs := (gmap string fnode).

(** [q] is [p] or below it. *)
Definition under (p q : string) : bool := bool_decide (q = p) || String.prefix (p +:+ "/") q.

(** Keys are clean paths; the parents of a path that is there are implied. *)
Definition os_MkdirAll (p : string) (f : fs) : fs :=
  match f !! Clean p with Some _ => f | None => <[Clean p := NDir]> f end.
Definition os_RemoveAll (p : string) (f : fs) : fs := filter (λ kv, under p kv.1 = false) f.
(** [os.Stat(p)] finds something. *)
Definition os_exists (p : string) (f : fs) : bool := existsb (λ kv, under p kv.1) (map_to_list f).
Definition moved (old new q : string) : string :=
  if under old q then new +:+ of_bytes (drop (length (bytes_of old)) (bytes_of q)) else q.
(** [os.Rename] of a directory: not into itself, not onto a file, and not onto a
    directory that has something in it; an empty one is replaced. *)
Definition os_Rename (old new : string) (f : fs) : result fs :=
  if bool_decide (old = new) then Ok f
  else if under old new then Err (Sentinel "invalid argument")
  else if existsb (λ kv, String.prefix (new +:+ "/") kv.1) (map_to_list f) then Err (Sentinel "directory not empty")
  else match f !! new with
       | Some (NData _) | Some (NConfig _) => Err (Sentinel "not a directory")
       | Some NDir | None => Ok (list_to_map ((λ kv, (moved old new kv.1, kv.2)) <$> map_to_list (delete new f)))
       end.

(** The step of [SaveConfig] that fails, if one does. *)
Inductive save_step : Type := AtMkdir | AtCreate | AtEncode | AtEncodeClose | AtWriteHeader | AtWrite | AtClose.
#[global] Instance save_step_eq_dec : EqDecision save_step.
Proof. solve_decision. Defined.

(** The system calls of one operation: [None] is success. [f_partial] is what the
    configuration file parses to when a write stopped half way. *)
Record faults : Type := MkFaults {
  f_save : option (save_step * error);
  f_partial : parsed;
  f_mkdir_context : option error;
  f_mkdir_store : option error;
  f_rename : option error;
  f_removeall : option error;
}.

Definition no_faults : faults := MkFaults None (Parsed zero_doc) None None None None.

(** ** Loading and saving (config.go) *)

Definition doc_of (cfg : config) : config_doc := with_contexts (MarshalYAML <$> cfg_Contexts cfg) cfg.
Definition cfg_of (d : config_doc) : config := with_contexts (UnmarshalYAML <$> cfg_Contexts d) d.

(** [LoadConfig]: no file gives the defaults; a file without a version is the
    current one. [config.yaml] is taken to be the only file named [config] in the
    root; Viper skips a directory of that name. *)
Definition LoadConfig (root : string) (f : fs) : result config :=
  match f !! ConfigPath root with
  | Some (NConfig (Parsed d)) =>
      let cfg := cfg_of d in
      Ok (if (cfg_Version cfg =? 0)%Z then with_version ConfigVersion cfg else cfg)
  | Some (NConfig (Misshapen e)) => Err (Wrapf "parse config %s: %w" [ConfigPath root] e)
  | Some (NConfig (Unreadable e)) => Err (Wrapf "read config: %w" [] e)
  | Some (NData _) => Err (Wrapf "read config: %w" [] (Sentinel "not a YAML mapping"))
  | Some NDir | None => Ok DefaultConfig
  end.

(** [SaveConfig]: the file is truncated before anything is encoded. *)
Definition SaveConfig (fl : faults) (root : string) (f : fs) (cfg : config) : fs * result unit :=
  let at_ s := match f_save fl with Some (s', e) => if bool_decide (s = s') then Some e else None | None => None end in
  let path := ConfigPath root in
  match at_ AtMkdir with
  | Some e => (f, Err (Wrapf "create config directory %s: %w" [root] e))
  | None =>
      let f := os_MkdirAll root f in
      match at_ AtCreate with
      | Some e => (f, Err (Wrapf "create config %s: %w" [path] e))
      | None =>
          let f := <[path := NConfig (Parsed zero_doc)]> f in
          match at_ AtEncode, at_ AtEncodeClose, at_ AtWriteHeader, at_ AtWrite, at_ AtClose with
          | Some e, _, _, _, _ => (f, Err (Wrapf "marshal config: %w" [] e))
          | None, Some e, _, _, _ => (f, Err e)
          | None, None, Some e, _, _ => (<[path := NConfig (f_partial fl)]> f, Err (Wrapf "write config: %w" [] e))
          | None, None, None, Some e, _ => (<[path := NConfig (f_partial fl)]> f, Err (Wrapf "write config: %w" [] e))
          | None, None, None, None, Some e => (<[path := NConfig (f_partial fl)]> f, Err (Wrapf "write config %s: %w" [path] e))
          | None, None, None, None, None => (<[path := NConfig (Parsed (doc_of cfg))]> f, Ok tt)
          end
      end
  end.

Definition EnsureContextDirs (fl : faults) (root name : string) (f : fs) : fs * result unit :=
  match f_mkdir_context fl with
  | Some e => (f, Err (Wrapf "create context directory %s: %w" [ContextDir root name] e))
  | None =>
      let f := os_MkdirAll (ContextDir root name) f in
      match f_mkdir_store fl with
      | Some e => (f, Err (Wrapf "create store directory %s: %w" [StoreDir root name] e))
      | None => (os_MkdirAll (StoreDir root name) f, Ok tt)
      end
  end.

(** ** The Console API credential (credentials.go) *)

(** The byte sequences of the runes [unicode.IsSpace] accepts. *)
Definition space_runes : list (list ascii) :=
  List.map (List.map ascii_of_N)
    [[9]; [10]; [11]; [12]; [13]; [32]; [194; 133]; [194; 160]; [225; 154; 128];
     [226; 128; 128]; [226; 128; 129]; [226; 128; 130]; [226; 128; 131]; [226; 128; 132]; [226; 128; 133]; [226; 128; 134];
     [226; 128; 135]; [226; 128; 136]; [226; 128; 137]; [226; 128; 138]; [226; 128; 168]; [226; 128; 169]; [226; 128; 175];
     [226; 129; 159]; [227; 128; 128]]%N.

Fixpoint strip_prefix (p l : list ascii) : option (list ascii) :=
  match p, l with
  | [], l => Some l
  | a :: p, b :: l => if bool_decide (a = b) then strip_prefix p l else None
  | _ :: _, [] => None
  end.

Definition first_space (spaces : list (list ascii)) (l : list ascii) : option (list ascii) :=
  foldr (λ p r, match strip_prefix p l with Some l' => Some l' | None => r end) None spaces.

(** Strip leading spaces; each step removes at least one byte. *)
Fixpoint trim_left (spaces : list (list ascii)) (fuel : nat) (l : list ascii) : list ascii :=
  match fuel with
  | O => l
  | S fuel => match first_space spaces l with Some l' => trim_left spaces fuel l' | None => l end
  end.

(** [strings.TrimSpace]: both ends, the right one on the reversed bytes. *)
Definition TrimSpace (s : string) : string :=
  let l := bytes_of s in
  let l := trim_left space_runes (length l) l in
  of_bytes (reverse (trim_left (List.map reverse space_runes) (length l) (reverse l))).

(** The outcomes of the system calls of [SetConsoleAPIKey]; a failed write may
    leave part of the content. *)
Record key_faults : Type := MkKeyFaults {
  k_remove : option error; k_mkdir : option error; k_write : option (error * option string); k_chmod : option error;
}.

Definition newline_string : string := String (ascii_of_N 10) "".

Definition SetConsoleAPIKey (fl : key_faults) (root ctxName key : string) (f : fs) : fs * result unit :=
  let path := ConsoleAPIKeyPath root ctxName in
  if bool_decide (key = "") then
    match f !! path with
    | None => (f, Ok tt)
    | Some _ => match k_remove fl with
                | Some e => (f, Err (Wrapf "remove console api key: %w" [] e))
                | None => (delete path f, Ok tt)
                end
    end
  else
    match k_mkdir fl with
    | Some e => (f, Err (Wrapf "create context directory: %w" [] e))
    | None =>
        let f := os_MkdirAll (ContextDir root ctxName) f in
        match k_write fl with
        | Some (e, part) =>
            (match part with Some data => <[path := NData data]> f | None => f end, Err (Wrapf "write console api key: %w" [] e))
        | None =>
            let f := <[path := NData (key +:+ newline_string)]> f in
            match k_chmod fl with
            | Some e => (f, Err (Wrapf "restrict console api key permissions: %w" [] e))
            | None => (f, Ok tt)
            end
        end
    end.

Definition StoredConsoleAPIKey (root ctxName : string) (f : fs) : result string :=
  match f !! ConsoleAPIKeyPath root ctxName with
  | None => Ok ""
  | Some (NData data) => Ok (TrimSpace data)
  | Some _ => Err (Wrapf "read console api key: %w" [] (Sentinel "is a directory"))
  end.

Definition ResolveConsoleAPIKey (env : string → string) (root ctxName : string) (f : fs) : string :=
  if negb (bool_decide (env "AKT_CONSOLE_API_KEY" = "")) then env "AKT_CONSOLE_API_KEY"
  else match StoredConsoleAPIKey root ctxName f with Ok key => key | _ => "" end.
