(* ===== verification/ContextSpec.v ===== *)
(** * The paths, files and credential of a context

    What cleaning and joining do to plain names, that the directories of two
    contexts do not overlap, what removing and renaming do to files, and when
    trimming gives a text back. *)

From Stdlib Require Import Ascii.
From stdpp Require Import sorting base gmap strings pretty option numbers list.
From S2P Require Import Prelude GoStd Context.

(** ** Prefixes *)
Lemma prefix_bytes s t : String.prefix s t = true ↔ bytes_of s `prefix_of` bytes_of t.
Proof.
  revert t. induction s as [|c s IH]; intros t; cbn [String.prefix bytes_of].
  - split; [intros _; apply prefix_nil|by destruct t].
  - destruct t as [|d t]; cbn [bytes_of]; [split; [done|by intros ?%prefix_nil_not]|].
    change (String.prefix (String c s) (String d t)) with (if Ascii.ascii_dec c d then String.prefix s t else false).
    destruct (Ascii.ascii_dec c d) as [->|Hne].
    + rewrite IH. split; [apply prefix_cons|apply prefix_cons_inv_2].
    + split; [done|]. intros H%prefix_cons_inv_1. done.
Qed.

Lemma str_assoc (s t u : string) : s +:+ t +:+ u = (s +:+ t) +:+ u.
Proof. apply (inj bytes_of). by rewrite !bytes_of_app, app_assoc. Qed.

Definition slash : ascii := "/"%char.

Lemma bytes_slash t : bytes_of ("/" +:+ t) = slash :: bytes_of t.
Proof. done. Qed.

(** [under p q]: [q] is [p] followed by nothing or by a slash and more. *)
Lemma under_spec p q : under p q = true ↔
  ∃ r, bytes_of q = bytes_of p ++ r ∧ (r = [] ∨ ∃ r', r = slash :: r').
Proof.
  unfold under. rewrite orb_true_iff, bool_decide_eq_true, prefix_bytes, bytes_of_app. split.
  - intros [->|[r Hr]]; [exists []; rewrite app_nil_r; auto|]. exists (slash :: r). rewrite <- app_assoc in Hr. eauto.
  - intros (r & Hr & [->|[r' ->]]); [left; rewrite app_nil_r in Hr; by apply (inj bytes_of)|].
    right. exists r'. rewrite <- app_assoc. done.
Qed.

Lemma under_length p q : under p q = true → length (bytes_of p) ≤ length (bytes_of q).
Proof. intros (r & -> & _)%under_spec. rewrite length_app. lia. Qed.

(** Two names without a slash under one prefix: a path below one is not below
    the other. *)
Lemma under_disjoint p n n' q : slash ∉ bytes_of n → slash ∉ bytes_of n' →
  under (p +:+ n) q = true → under (p +:+ n') q = true → n = n'.
Proof.
  intros Hn Hn' (r & E1 & H1)%under_spec (r' & E2 & H2)%under_spec. rewrite E1, !bytes_of_app, <- !app_assoc in E2.
  apply app_inv_head in E2. apply (inj bytes_of).
  destruct H1 as [->|[s ->]], H2 as [->|[s' ->]]; rewrite ?app_nil_r in E2.
  - done.
  - destruct Hn. rewrite E2. apply elem_of_app. right. left.
  - destruct Hn'. rewrite <- E2. apply elem_of_app. right. left.
  - by apply app_pivot_l in E2 as [? _].
Qed.

(** ** Joining and cleaning *)
Definition plain (n : string) : Prop := slash ∉ bytes_of n ∧ n ≠ "" ∧ n ≠ "." ∧ n ≠ "..".

#[global] Instance plain_dec n : Decision (plain n).
Proof. apply _. Defined.

Lemma split_slash_cons l : split_slash l ≠ [].
Proof. destruct l as [|c l]; simpl; [done|]. case_bool_decide; [done|]. by destruct (split_slash l). Qed.

Lemma split_slash_app a b : split_slash (a ++ slash :: b) = split_slash a ++ split_slash b.
Proof.
  induction a as [|c a IH]; simpl.
  - done.
  - rewrite IH. case_bool_decide; [done|]. pose proof (split_slash_cons a). by destruct (split_slash a).
Qed.

Lemma split_slash_plain n : slash ∉ bytes_of n → split_slash (bytes_of n) = [n].
Proof.
  induction n as [|c n IH]; simpl; [done|]. intros [Hc Hn]%not_elem_of_cons.
  rewrite bool_decide_eq_false_2 by (intros ->; by apply Hc). by rewrite IH.
Qed.

Lemma split_slash_join l : l ≠ [] → Forall (λ n, slash ∉ bytes_of n) l → split_slash (bytes_of (strings_Join l "/")) = l.
Proof.
  induction l as [|x l IH]; [done|]. intros _ [Hx Hl]%Forall_cons. destruct l as [|y l]; [by apply split_slash_plain|].
  change (strings_Join (x :: y :: l) "/") with (x +:+ "/" +:+ strings_Join (y :: l) "/").
  rewrite bytes_of_app, bytes_slash, split_slash_app, IH, split_slash_plain by done. done.
Qed.

Lemma join_app l1 l2 : l1 ≠ [] → l2 ≠ [] → strings_Join (l1 ++ l2) "/" = strings_Join l1 "/" +:+ "/" +:+ strings_Join l2 "/".
Proof.
  intros H1 H2. induction l1 as [|x l1 IH]; [done|]. destruct l1 as [|y l1]; [by destruct l2|].
  change (strings_Join ((x :: y :: l1) ++ l2) "/") with (x +:+ "/" +:+ strings_Join ((y :: l1) ++ l2) "/").
  change (strings_Join (x :: y :: l1) "/") with (x +:+ "/" +:+ strings_Join (y :: l1) "/").
  rewrite IH by done. by rewrite !str_assoc.
Qed.

Lemma clean_plain r st l : Forall plain l → foldl (clean_step r) st l = reverse l ++ st.
Proof.
  revert st. induction l as [|x l IH]; intros st; [done|]. intros [(_ & H1 & H2 & H3) Hl]%Forall_cons. simpl.
  rewrite IH by done. unfold clean_step. rewrite !bool_decide_eq_false_2 by naive_solver. by rewrite reverse_cons, <- app_assoc.
Qed.

Definition render (rooted : bool) (l : list string) : string :=
  match l with
  | [] => if rooted then "/" else "."
  | l => (if rooted then "/" else "") +:+ strings_Join l "/"
  end.
Definition components (s : string) : list string := reverse (foldl (clean_step (is_rooted s)) [] (split_slash (bytes_of s))).

Lemma Clean_render s : Clean s = render (is_rooted s) (components s).
Proof. unfold Clean, render, components. by destruct (reverse _). Qed.

(** What comes before the components added to a root. *)
Definition root_prefix (root : string) : string :=
  match components root with
  | [] => if is_rooted root then "/" else ""
  | l => render (is_rooted root) l +:+ "/"
  end.

Lemma render_app root l : l ≠ [] → render (is_rooted root) (components root ++ l) = root_prefix root +:+ strings_Join l "/".
Proof.
  intros Hl. unfold root_prefix. destruct (components root) as [|x k].
  - destruct l; [done|]. by destruct (is_rooted root).
  - change (render (is_rooted root) ((x :: k) ++ l)) with ((if is_rooted root then "/" else "") +:+ strings_Join ((x :: k) ++ l) "/").
    rewrite join_app by done. unfold render. by rewrite !str_assoc.
Qed.

Lemma rooted_app s t : s ≠ "" → is_rooted (s +:+ t) = is_rooted s.
Proof. by destruct s. Qed.

Lemma components_app s t : s ≠ "" →
  components (s +:+ "/" +:+ t) = reverse (foldl (clean_step (is_rooted s)) (reverse (components s)) (split_slash (bytes_of t))).
Proof.
  intros Hs. unfold components. rewrite rooted_app, bytes_of_app by done. rewrite bytes_slash.
  by rewrite split_slash_app, foldl_app, reverse_involutive.
Qed.

Lemma join_first root rest : root ≠ "" → rest ≠ [] → strings_Join (root :: rest) "/" = root +:+ "/" +:+ strings_Join rest "/".
Proof. by destruct rest. Qed.

Lemma plain_no_empty l : Forall plain l → List.filter (λ e, negb (bool_decide (e = ""))) l = l.
Proof.
  induction 1 as [|x l (_ & Hx & _) _ IH]; [done|]. simpl. by rewrite bool_decide_eq_false_2, IH.
Qed.

Lemma plain_slash l : Forall plain l → Forall (λ n, slash ∉ bytes_of n) l.
Proof. intros H. eapply Forall_impl; [done|]. by intros x []. Qed.

(** Joining plain names to a root appends them. *)
Lemma Join_root root rest : rest ≠ [] → Forall plain rest → Join (root :: rest) = root_prefix root +:+ strings_Join rest "/".
Proof.
  intros Hr Hp. unfold Join. cbn [List.filter]. rewrite plain_no_empty by done. case_bool_decide as E; cbn [negb].
  - subst root. destruct rest as [|x rest]; [done|]. rewrite Clean_render. unfold components.
    rewrite split_slash_join, clean_plain, app_nil_r, reverse_involutive by auto using plain_slash.
    apply Forall_cons in Hp as [(Hx & Hx' & _) _]. destruct x as [|c x]; [done|].
    apply not_elem_of_cons in Hx as [Hc _]. assert (is_rooted (String c x) = false) as Hnr.
    { simpl. destruct c as [[] [] [] [] [] [] [] []]; done. }
    assert (is_rooted (strings_Join (String c x :: rest) "/") = false) as ->; [by destruct rest|done].
  - rewrite join_first, Clean_render, rooted_app, components_app, split_slash_join, clean_plain by auto using plain_slash.
    rewrite reverse_app, !reverse_involutive. by apply render_app.
Qed.

(** ** The paths of a context *)
Lemma ContextDir_plain root n : plain n → ContextDir root n = (root_prefix root +:+ "contexts/") +:+ n.
Proof.
  intros Hn. unfold ContextDir. rewrite Join_root; [|done|].
  - change (strings_Join ["contexts"; n] "/") with ("contexts" +:+ "/" +:+ n). by rewrite (str_assoc "contexts"), str_assoc.
  - repeat constructor; try done; [by vm_compute; set_solver|apply Hn..].
Qed.

Lemma ConfigPath_prefix root : ConfigPath root = root_prefix root +:+ "config.yaml".
Proof. unfold ConfigPath. rewrite Join_root; [done..|]. repeat constructor; try done. by apply (bool_decide_unpack _). Qed.

(** A context named [..] has the root as its directory. *)
Lemma ContextDir_dotdot root : root ≠ "" → ContextDir root ".." = Clean root.
Proof.
  intros Hr. unfold ContextDir, Join. cbn [List.filter]. rewrite bool_decide_eq_false_2 by done.
  change (Clean (root +:+ "/" +:+ "contexts/..") = Clean root).
  rewrite !Clean_render, rooted_app, components_app by done. f_equal.
  change (split_slash (bytes_of "contexts/..")) with ["contexts"; ".."]. simpl. unfold clean_step at 2. simpl.
  unfold clean_step. simpl. apply reverse_involutive.
Qed.

Lemma config_outside root n : plain n → under (ContextDir root n) (ConfigPath root) = false.
Proof.
  intros Hn. apply not_true_iff_false. intros (r & E & _)%under_spec. revert E.
  rewrite ContextDir_plain, ConfigPath_prefix, !bytes_of_app, <- !app_assoc by done. by intros ?%app_inv_head.
Qed.

Lemma Clean_length root : length (bytes_of (Clean root)) ≤ S (length (bytes_of (root_prefix root))).
Proof.
  rewrite Clean_render. unfold root_prefix. destruct (components root).
  - destruct (is_rooted root); simpl; lia.
  - rewrite bytes_of_app, length_app. simpl. lia.
Qed.

Lemma root_outside root n : plain n → under (ContextDir root n) (Clean root) = false.
Proof.
  intros Hn. apply not_true_iff_false. intros H%under_length. revert H. pose proof (Clean_length root).
  rewrite ContextDir_plain, !bytes_of_app, !length_app by done. simpl. lia.
Qed.

(** No file is in the directories of two contexts with plain names. *)
Lemma contexts_disjoint root n n' q : plain n → plain n' →
  under (ContextDir root n) q = true → under (ContextDir root n') q = true → n = n'.
Proof. intros Hn Hn'. rewrite !ContextDir_plain by done. apply under_disjoint; [apply Hn|apply Hn']. Qed.

(** ** Files after an operation *)
Lemma RemoveAll_lookup p f q : os_RemoveAll p f !! q = if under p q then None else f !! q.
Proof.
  unfold os_RemoveAll. destruct (under p q) eqn:E.
  - apply map_lookup_filter_None. right. intros x _. simpl. congruence.
  - destruct (f !! q) as [x|] eqn:Ef.
    + by apply map_lookup_filter_Some.
    + apply map_lookup_filter_None. by left.
Qed.

Lemma MkdirAll_lookup_ne p f q : q ≠ Clean p → os_MkdirAll p f !! q = f !! q.
Proof. intros H. unfold os_MkdirAll. destruct (f !! Clean p); [done|]. by rewrite lookup_insert_ne. Qed.

Lemma no_prefix_spec p f : existsb (λ kv, String.prefix p kv.1) (map_to_list f) = false →
  ∀ q (x : fnode), f !! q = Some x → String.prefix p q = false.
Proof.
  intros E q x Hq. apply not_true_iff_false. intros Hp. apply (not_true_iff_false _) in E. apply E, existsb_exists.
  exists (q, x). split; [|done]. by apply list_elem_of_In, elem_of_map_to_list.
Qed.

Lemma no_prefix_intro p f : (∀ q (x : fnode), f !! q = Some x → String.prefix p q = false) →
  existsb (λ kv, String.prefix p kv.1) (map_to_list f) = false.
Proof.
  intros H. apply not_true_iff_false. intros ([q x] & Hin & Hp)%existsb_exists.
  apply list_elem_of_In, elem_of_map_to_list, H in Hin. simpl in Hp. congruence.
Qed.

Lemma moved_under old new q s : bytes_of q = bytes_of old ++ s → under old q = true → moved old new q = new +:+ of_bytes s.
Proof. intros E Hu. unfold moved. by rewrite Hu, E, drop_app_length. Qed.

Lemma moved_out old new q : under old q = false → moved old new q = q.
Proof. intros E. unfold moved. by rewrite E. Qed.

(** A moved path is below the new directory. *)
Lemma moved_in old new q : under old q = true → under new (moved old new q) = true.
Proof.
  intros Hu. pose proof Hu as (r & E & Hr)%under_spec. rewrite (moved_under _ _ _ r) by done. apply under_spec.
  exists r. by rewrite bytes_of_app, bytes_of_of.
Qed.

Lemma moved_inj old new q q' : q ≠ new → q' ≠ new → String.prefix (new +:+ "/") q = false → String.prefix (new +:+ "/") q' = false →
  moved old new q = moved old new q' → q = q'.
Proof.
  intros Hn Hn' Hp Hp' E. assert (∀ q, q ≠ new → String.prefix (new +:+ "/") q = false → under new q = false) as Hout.
  { intros p H1 H2. unfold under. by rewrite bool_decide_eq_false_2, H2. }
  destruct (under old q) eqn:U, (under old q') eqn:U'.
  - pose proof U as (r & Er & _)%under_spec. pose proof U' as (r' & Er' & _)%under_spec.
    rewrite (moved_under _ _ _ r), (moved_under _ _ _ r') in E by done. apply (inj bytes_of). rewrite Er, Er'. f_equal.
    apply (f_equal bytes_of) in E. rewrite !bytes_of_app, !bytes_of_of in E. by apply app_inv_head in E.
  - apply (moved_in _ new) in U. rewrite E, (moved_out _ _ q'), Hout in U by done. done.
  - apply (moved_in _ new) in U'. rewrite <- E, (moved_out _ _ q), Hout in U' by done. done.
  - by rewrite !moved_out in E.
Qed.

(** A successful rename moves exactly the files of the old directory. *)
Lemma Rename_lookup old new f f' q : os_Rename old new f = Ok f' → q ≠ new → String.prefix (new +:+ "/") q = false →
  old ≠ new → f' !! moved old new q = f !! q.
Proof.
  unfold os_Rename. intros E Hq Hp Hne. rewrite bool_decide_eq_false_2 in E by done. destruct (under old new); [done|].
  destruct (existsb _ _) eqn:Ex; [done|]. pose proof (no_prefix_spec _ _ Ex) as Hno.
  assert (f' = list_to_map ((λ kv, (moved old new kv.1, kv.2)) <$> map_to_list (delete new f))) as ->
    by (destruct (f !! new) as [[]|]; by simplify_eq).
  assert (NoDup ((λ kv, (moved old new kv.1, kv.2)) <$> map_to_list (delete new f)).*1) as HN.
  { rewrite <- list_fmap_compose. apply NoDup_fmap_2_strong; [|apply NoDup_map_to_list].
    intros [k1 x1] [k2 x2] H1%elem_of_map_to_list H2%elem_of_map_to_list Ek. simpl in Ek.
    apply lookup_delete_Some in H1 as [? H1], H2 as [? H2]. apply moved_inj in Ek; [by simplify_eq|done..|by eapply Hno|by eapply Hno]. }
  destruct (f !! q) as [x|] eqn:Ef.
  - apply elem_of_list_to_map_1; [done|]. apply list_elem_of_fmap. exists (q, x). split; [done|].
    by apply elem_of_map_to_list, lookup_delete_Some.
  - apply not_elem_of_list_to_map_1. rewrite <- list_fmap_compose. intros ([k x] & Ek & H%elem_of_map_to_list)%list_elem_of_fmap.
    simpl in Ek. apply lookup_delete_Some in H as [? H]. apply moved_inj in Ek; [by simplify_eq|done..|by eapply Hno].
Qed.

Lemma Rename_gone old new f f' q : os_Rename old new f = Ok f' → old ≠ new → under old q = true → under new q = false → f' !! q = None.
Proof.
  unfold os_Rename. intros E Hne Ho Hn. rewrite bool_decide_eq_false_2 in E by done. destruct (under old new); [done|].
  destruct (existsb _ _); [done|].
  assert (f' = list_to_map ((λ kv, (moved old new kv.1, kv.2)) <$> map_to_list (delete new f))) as ->
    by (destruct (f !! new) as [[]|]; by simplify_eq).
  apply not_elem_of_list_to_map_1. rewrite <- list_fmap_compose. intros ([k x] & -> & _)%list_elem_of_fmap. simpl in *.
  destruct (under old k) eqn:U; [apply (moved_in _ new) in U|rewrite moved_out in Ho by done]; congruence.
Qed.

(** ** Trimming *)
Lemma strip_prefix_length p l r : strip_prefix p l = Some r → length l = length p + length r.
Proof.
  revert l. induction p as [|a p IH]; intros [|b l]; simpl; intros; simplify_eq; [done..|].
  case_bool_decide; [|done]. f_equal. by apply IH.
Qed.

Lemma strip_prefix_snoc p l x r : x ∉ p → strip_prefix p (l ++ [x]) = Some r → is_Some (strip_prefix p l).
Proof.
  revert l. induction p as [|a p IH]; intros l Hx; [done|]. apply not_elem_of_cons in Hx as [Ha Hx].
  destruct l as [|b l]; simpl; [by rewrite bool_decide_eq_false_2|]. case_bool_decide; [|done]. by apply IH.
Qed.

Lemma first_space_some spaces l r : first_space spaces l = Some r → ∃ p, p ∈ spaces ∧ strip_prefix p l = Some r.
Proof.
  induction spaces as [|p spaces IH]; simpl; [done|]. destruct (strip_prefix p l) eqn:E; intros H.
  - simplify_eq. exists p. split; [left|done].
  - destruct (IH H) as (q & ? & ?). exists q. split; [by right|done].
Qed.

Lemma first_space_none spaces l : first_space spaces l = None ↔ ∀ p, p ∈ spaces → strip_prefix p l = None.
Proof.
  induction spaces as [|p spaces IH]; simpl; [set_solver|]. destruct (strip_prefix p l) eqn:E.
  - split; [done|]. intros H. rewrite H in E by left. done.
  - rewrite IH. set_solver.
Qed.

Lemma trim_left_length spaces fuel l : length (trim_left spaces fuel l) ≤ length l.
Proof.
  revert l. induction fuel as [|fuel IH]; intros l; simpl; [done|]. destruct (first_space spaces l) as [r|] eqn:E; [|done].
  apply first_space_some in E as (p & _ & E%strip_prefix_length). specialize (IH r). lia.
Qed.

Section trim.
Context (spaces : list (list ascii)) (Hne : Forall (λ p, p ≠ []) spaces).

(** Trimming keeps a text exactly when it does not start with a space. *)
Lemma trim_left_same l : l ≠ [] → length (trim_left spaces (length l) l) = length l → first_space spaces l = None.
Proof using Hne.
  intros Hl E. destruct l as [|a l]; [done|]. simpl in E. destruct (first_space spaces (a :: l)) as [r|] eqn:Es; [|done].
  apply first_space_some in Es as (p & Hp & Es%strip_prefix_length). rewrite Forall_forall in Hne. specialize (Hne p Hp).
  pose proof (trim_left_length spaces (length l) r). destruct p; [done|]. simpl in *. lia.
Qed.

Lemma trim_left_id fuel l : first_space spaces l = None → trim_left spaces fuel l = l.
Proof. intros E. destruct fuel; simpl; [done|]. by rewrite E. Qed.

(** A byte at the end that only occurs in a space of its own. *)
Lemma first_space_snoc l x : l ≠ [] → Forall (λ p, p = [x] ∨ x ∉ p) spaces →
  first_space spaces l = None → first_space spaces (l ++ [x]) = None.
Proof.
  rewrite !first_space_none, Forall_forall. intros Hl Hx H p Hp. destruct (strip_prefix p (l ++ [x])) eqn:E; [|done].
  specialize (H p Hp). destruct (Hx p Hp) as [->|Hn].
  - destruct l as [|a l]; [done|]. simpl in *. by case_bool_decide.
  - apply strip_prefix_snoc in E as [? E]; [congruence|done].
Qed.
End trim.

Definition newline : ascii := ascii_of_N 10.

Lemma space_runes_facts : Forall (λ p, p ≠ [] ∧ (p = [newline] ∨ newline ∉ p)) space_runes.
Proof. apply (bool_decide_unpack _). vm_compute. done. Qed.

Lemma space_runes_rev : Forall (λ p, p ≠ []) (List.map reverse space_runes).
Proof. apply (bool_decide_unpack _). vm_compute. done. Qed.

Lemma newline_is_space l : first_space (List.map reverse space_runes) (newline :: l) = Some l.
Proof. done. Qed.

(** A text without surrounding space survives a newline at its end. *)
Lemma TrimSpace_newline s : s ≠ "" → TrimSpace s = s → TrimSpace (s +:+ newline_string) = s.
Proof.
  intros Hs Ht. pose proof space_runes_facts as HF. apply Forall_and in HF as [Hne Hnl].
  set (L := bytes_of s) in *. assert (L ≠ []) as HL by (intros E; apply Hs; by apply (inj bytes_of)).
  assert (length (bytes_of (TrimSpace s)) = length L) as Hlen by by rewrite Ht.
  unfold TrimSpace in Hlen. rewrite bytes_of_of, length_reverse in Hlen. fold L in Hlen.
  set (M := trim_left space_runes (length L) L) in *.
  pose proof (trim_left_length space_runes (length L) L) as H1. fold M in H1.
  pose proof (trim_left_length (List.map reverse space_runes) (length M) (reverse M)) as H2. rewrite length_reverse in H2.
  assert (first_space space_runes L = None) as HfL by (apply trim_left_same; [done..|]; fold M; lia).
  assert (M = L) as EM by by apply trim_left_id. rewrite EM in Hlen.
  assert (first_space (List.map reverse space_runes) (reverse L) = None) as HfR.
  { apply trim_left_same; [apply space_runes_rev|by rewrite <- reverse_nil; intros ?%(inj reverse)|]. by rewrite length_reverse. }
  unfold TrimSpace. rewrite bytes_of_app. change (bytes_of newline_string) with [newline]. fold L. cbv zeta.
  rewrite (trim_left_id _ _ (L ++ [newline])) by by apply first_space_snoc.
  rewrite reverse_app, length_app. change (reverse [newline]) with [newline]. rewrite Nat.add_comm. cbn [length Nat.add app trim_left].
  rewrite newline_is_space, trim_left_id, reverse_involutive by done. apply of_bytes_of.
Qed.
