(* ===== verification/Manager.v ===== *)
(** * The context manager (internal/context/manager.go)

    Every operation of [Manager]. The state is the configuration in memory and
    the files; the lock makes each operation atomic, so an operation is a
    function from state to state. The functions a caller passes to the update
    operations return what they left in the record they were given, and an
    error or not. *)

From Stdlib Require Import Ascii.
From stdpp Require Import sorting base gmap strings pretty option numbers list.
From S2P Require Import Prelude GoStd Context.

Record Manager : Type := MkManager { m_root : string; m_cfg : config; m_fs : fs }.

Definition set_cfg (c : config) (m : Manager) : Manager := MkManager (m_root m) c (m_fs m).
Definition set_fs (f : fs) (m : Manager) : Manager := MkManager (m_root m) (m_cfg m) f.

Definition NewManager (root : string) (f : fs) : result Manager :=
  cfg ← LoadConfig root f; Ok (MkManager root cfg f).

Definition save (fl : faults) (m : Manager) : Manager * result unit :=
  let '(f, r) := SaveConfig fl (m_root m) (m_fs m) (m_cfg m) in (set_fs f m, r).

Definition Reload (m : Manager) : Manager * result unit :=
  match LoadConfig (m_root m) (m_fs m) with
  | Ok cfg => (set_cfg cfg m, Ok tt)
  | Err e => (m, Err e)
  | Panic => (m, Panic)
  end.

(** ** Lookups: the first entry with the name *)
Definition getNetwork (cfg : config) (name : string) : option (nat * Network) :=
  list_find (λ n, net_Name n = name) (cfg_Networks cfg).
Definition getContext (cfg : config) (name : string) : option (nat * Context_) :=
  list_find (λ c, ctx_Name c = name) (cfg_Contexts cfg).
Definition getKeyring (cfg : config) (name : string) : option (nat * Keyring) :=
  list_find (λ k, kr_Name k = name) (cfg_Keyrings cfg).

Definition GetNetwork (m : Manager) (name : string) : option Network := snd <$> getNetwork (m_cfg m) name.
Definition GetContext (m : Manager) (name : string) : option Context_ := snd <$> getContext (m_cfg m) name.
Definition GetKeyring (m : Manager) (name : string) : option Keyring := snd <$> getKeyring (m_cfg m) name.
Definition ListNetworks (m : Manager) : list Network := cfg_Networks (m_cfg m).
Definition ListContexts (m : Manager) : list Context_ := cfg_Contexts (m_cfg m).
Definition ListKeyrings (m : Manager) : list Keyring := cfg_Keyrings (m_cfg m).
Definition CurrentContext (m : Manager) : string := cfg_CurrentContext (m_cfg m).

Definition ActiveContext (m : Manager) (override : string) : string :=
  if negb (bool_decide (override = "")) then override
  else if negb (bool_decide (CurrentContext m = "")) then CurrentContext m
  else match ListContexts m with [c] => ctx_Name c | _ => "" end.

(** ** Networks *)
Definition CreateNetwork (fl : faults) (m : Manager) (net : Network) : Manager * result unit :=
  if bool_decide (net_Name net = "") then (m, failf "network name is required" [])
  else match getNetwork (m_cfg m) (net_Name net) with
       | Some _ => (m, failf "network %q already exists" [net_Name net])
       | None => save fl (set_cfg (with_networks (cfg_Networks (m_cfg m) ++ [net]) (m_cfg m)) m)
       end.

Definition CreateNetworkFromTemplate (fl : faults) (m : Manager) (name template : string) : Manager * result unit :=
  match NetworkTemplates !! template with
  | None => (m, failf "unknown network template %q (available: mainnet, testnet, sandbox)" [template])
  | Some tmpl => CreateNetwork fl m (set_net_Name name tmpl)
  end.

(** The function works on the stored network itself: what it did stays, even
    when it then fails. *)
Definition UpdateNetwork (fl : faults) (m : Manager) (name : string) (apply : Network → Network * result unit) : Manager * result unit :=
  match getNetwork (m_cfg m) name with
  | None => (m, failf "network %q not found" [name])
  | Some (i, net) =>
      let '(net, r) := apply net in
      let m := set_cfg (with_networks (<[i := net]> (cfg_Networks (m_cfg m))) (m_cfg m)) m in
      match r with Ok _ => save fl m | _ => (m, r) end
  end.

Definition ForkNetwork (fl : faults) (m : Manager) (srcName newName : string) : Manager * result unit :=
  match getNetwork (m_cfg m) srcName with
  | None => (m, failf "network %q not found" [srcName])
  | Some (_, src) =>
      match getNetwork (m_cfg m) newName with
      | Some _ => (m, failf "network %q already exists" [newName])
      | None => save fl (set_cfg (with_networks (cfg_Networks (m_cfg m) ++ [set_net_Name newName src]) (m_cfg m)) m)
      end
  end.

Definition contextsUsingNetwork (cfg : config) (name : string) : list string :=
  ctx_Name <$> List.filter (λ c, bool_decide (net_Name (ctx_Network c) = name)) (cfg_Contexts cfg).

Definition NetworkUsers (m : Manager) (name : string) : list string := contextsUsingNetwork (m_cfg m) name.

Definition DeleteNetwork (fl : faults) (m : Manager) (name : string) : Manager * result unit :=
  match contextsUsingNetwork (m_cfg m) name with
  | [] => save fl (set_cfg (with_networks (List.filter (λ n, negb (bool_decide (net_Name n = name))) (cfg_Networks (m_cfg m))) (m_cfg m)) m)
  | users => (m, failf "cannot delete network %q: used by contexts %v" (name :: users))
  end.

(** ** Contexts *)

(** The checks and defaults of [CreateContext], on the record alone. *)
Definition prepare_context (cfg : config) (ctx : Context_) : result Context_ :=
  if bool_decide (ctx_Name ctx = "") then failf "context name is required" []
  else if bool_decide (is_Some (getContext cfg (ctx_Name ctx))) then failf "context %q already exists" [ctx_Name ctx]
  else
    _ ← (if bool_decide (net_Name (ctx_Network ctx) = "") then
           if negb (bool_decide (ctx_AuthMethod ctx = AuthMethodConsoleAPI))
           then failf "a network is required unless auth-method is %q" [AuthMethodConsoleAPI] else Ok tt
         else match getNetwork cfg (net_Name (ctx_Network ctx)) with
              | None => failf "network %q not found" [net_Name (ctx_Network ctx)]
              | Some _ => Ok tt
              end);
    let ctx := if bool_decide (kr_Name (ctx_Keyring ctx) = "") then set_ctx_Keyring (keyring_named "default") ctx else ctx in
    _ ← match getKeyring cfg (kr_Name (ctx_Keyring ctx)) with
        | None => failf "keyring %q not found" [kr_Name (ctx_Keyring ctx)]
        | Some _ => Ok tt
        end;
    let ctx := if bool_decide (ctx_Gas ctx = "") then set_ctx_Gas "auto" ctx else ctx in
    providerAuthType ← ResolveProviderAuthType (ctx_ProviderAuthType ctx);
    let ctx := set_ctx_ProviderAuthType providerAuthType ctx in
    if bool_decide (ctx_AuthMethod ctx = "" ∨ ctx_AuthMethod ctx = AuthMethodKeyring ∨ ctx_AuthMethod ctx = AuthMethodConsoleAPI)
    then Ok ctx
    else failf "invalid auth-method %q: must be %q or %q" [ctx_AuthMethod ctx; AuthMethodKeyring; AuthMethodConsoleAPI].

Definition CreateContext (fl : faults) (m : Manager) (ctx : Context_) : Manager * result unit :=
  match prepare_context (m_cfg m) ctx with
  | Ok ctx =>
      match EnsureContextDirs fl (m_root m) (ctx_Name ctx) (m_fs m) with
      | (f, Ok _) =>
          let m := set_fs f m in
          match save fl (set_cfg (with_contexts (cfg_Contexts (m_cfg m) ++ [ctx]) (m_cfg m)) m) with
          | (m', Ok _) => (m', Ok tt)
          | (m', r) => (set_cfg (m_cfg m) m', r)
          end
      | (f, r) => (set_fs f m, r)
      end
  | Err e => (m, Err e)
  | Panic => (m, Panic)
  end.

Definition UseContext (fl : faults) (m : Manager) (name : string) : Manager * result unit :=
  match getContext (m_cfg m) name with
  | None => (m, failf "context %q not found" [name])
  | Some _ => save fl (set_cfg (with_current name (m_cfg m)) m)
  end.

(** The part of [UpdateContextAndNetwork] before anything is changed: the new
    context with its index, and the new network with its place ([None]: at the
    end, as a fork). *)
Definition plan_update (cfg : config) (name forkName : string)
    (applyContext : option (Context_ → Context_ * result unit)) (applyNetwork : option (Network → Network * result unit))
    : result (nat * Context_ * option (option nat * Network)) :=
  match getContext cfg name with
  | None => failf "context %q not found" [name]
  | Some (ctxIndex, ctx) =>
      ctx ← match applyContext with
            | None => Ok ctx
            | Some apply => let '(ctx, r) := apply ctx in _ ← r; Ok ctx
            end;
      '(ctx, updated) ←
        match applyNetwork with
        | Some apply =>
            if bool_decide (net_Name (ctx_Network ctx) = "") then failf "context %q has no network to edit" [name]
            else match getNetwork cfg (net_Name (ctx_Network ctx)) with
                 | None => failf "network %q not found" [net_Name (ctx_Network ctx)]
                 | Some (networkIndex, net) =>
                     '(ctx, net, place) ←
                       (if negb (bool_decide (forkName = "")) then
                          match getNetwork cfg forkName with
                          | Some _ => failf "network %q already exists" [forkName]
                          | None => Ok (set_ctx_Network (network_named forkName) ctx, set_net_Name forkName net, None)
                          end
                        else Ok (ctx, net, Some networkIndex));
                     let '(net, r) := apply net in
                     _ ← r; Ok (ctx, Some (place, net))
                 end
        | None =>
            if negb (bool_decide (forkName = "")) then failf "cannot fork a network without network changes" []
            else Ok (ctx, None)
        end;
      if negb (bool_decide (net_Name (ctx_Network ctx) = "")) && bool_decide (forkName = "")
         && negb (bool_decide (is_Some (getNetwork cfg (net_Name (ctx_Network ctx)))))
      then failf "network %q not found" [net_Name (ctx_Network ctx)]
      else if negb (bool_decide (is_Some (getKeyring cfg (kr_Name (ctx_Keyring ctx)))))
      then failf "keyring %q not found" [kr_Name (ctx_Keyring ctx)]
      else
        providerAuthType ← ResolveProviderAuthType (ctx_ProviderAuthType ctx);
        Ok (ctxIndex, set_ctx_ProviderAuthType providerAuthType ctx, updated)
  end.

Definition place_network (updated : option (option nat * Network)) (l : list Network) : list Network :=
  match updated with
  | None => l
  | Some (None, net) => l ++ [net]
  | Some (Some i, net) => <[i := net]> l
  end.

Definition UpdateContextAndNetwork (fl : faults) (m : Manager) (name forkName : string)
    (applyContext : option (Context_ → Context_ * result unit)) (applyNetwork : option (Network → Network * result unit)) : Manager * result unit :=
  match plan_update (m_cfg m) name forkName applyContext applyNetwork with
  | Ok (ctxIndex, ctx, updated) =>
      let cfg := with_networks (place_network updated (cfg_Networks (m_cfg m)))
                   (with_contexts (<[ctxIndex := ctx]> (cfg_Contexts (m_cfg m))) (m_cfg m)) in
      match save fl (set_cfg cfg m) with
      | (m', Ok _) => (m', Ok tt)
      | (m', r) => (set_cfg (m_cfg m) m', r)
      end
  | Err e => (m, Err e)
  | Panic => (m, Panic)
  end.

Definition UpdateContext (fl : faults) (m : Manager) (name : string) (apply : Context_ → Context_ * result unit) : Manager * result unit :=
  UpdateContextAndNetwork fl m name "" (Some apply) None.

Definition DeleteContext (fl : faults) (m : Manager) (name : string) (keepData : bool) : Manager * result unit :=
  if bool_decide (CurrentContext m = name)
  then (m, failf "cannot delete the current context %q; switch to another context first" [name])
  else match getContext (m_cfg m) name with
       | None => (m, failf "context %q not found" [name])
       | Some _ =>
           let m := set_cfg (with_contexts (List.filter (λ c, negb (bool_decide (ctx_Name c = name))) (cfg_Contexts (m_cfg m))) (m_cfg m)) m in
           let m := if (keepData : bool) then m
                    else match f_removeall fl with
                         | Some _ => m (* best effort *)
                         | None => set_fs (os_RemoveAll (ContextDir (m_root m) name) (m_fs m)) m
                         end in
           save fl m
       end.

Definition RenameContext (fl : faults) (m : Manager) (oldName newName : string) : Manager * result unit :=
  match getContext (m_cfg m) newName with
  | Some _ => (m, failf "context %q already exists" [newName])
  | None =>
      match getContext (m_cfg m) oldName with
      | None => (m, failf "context %q not found" [oldName])
      | Some (i, ctx) =>
          let oldDir := ContextDir (m_root m) oldName in
          let newDir := ContextDir (m_root m) newName in
          match (if os_exists oldDir (m_fs m)
                 then map_err (Wrapf "rename context directory: %w" [])
                        (match f_rename fl with Some e => Err e | None => os_Rename oldDir newDir (m_fs m) end)
                 else Ok (m_fs m)) with
          | Ok f =>
              let cfg := with_contexts (<[i := set_ctx_Name newName ctx]> (cfg_Contexts (m_cfg m))) (m_cfg m) in
              let cfg := if bool_decide (cfg_CurrentContext cfg = oldName) then with_current newName cfg else cfg in
              save fl (set_cfg cfg (set_fs f m))
          | Err e => (m, Err e)
          | Panic => (m, Panic)
          end
      end
  end.

(** ** Keyrings *)
Definition CreateKeyring (fl : faults) (m : Manager) (kr : Keyring) : Manager * result unit :=
  if bool_decide (kr_Name kr = "") then (m, failf "keyring name is required" [])
  else match getKeyring (m_cfg m) (kr_Name kr) with
       | Some _ => (m, failf "keyring %q already exists" [kr_Name kr])
       | None =>
           let kr := if bool_decide (kr_Backend kr = "") then MkKeyring (kr_Name kr) "os" (kr_Dir kr) else kr in
           save fl (set_cfg (with_keyrings (cfg_Keyrings (m_cfg m) ++ [kr]) (m_cfg m)) m)
       end.

Definition UpdateKeyring (fl : faults) (m : Manager) (name : string) (apply : Keyring → Keyring * result unit) : Manager * result unit :=
  match getKeyring (m_cfg m) name with
  | None => (m, failf "keyring %q not found" [name])
  | Some (i, kr) =>
      let '(kr, r) := apply kr in
      let m := set_cfg (with_keyrings (<[i := kr]> (cfg_Keyrings (m_cfg m))) (m_cfg m)) m in
      match r with Ok _ => save fl m | _ => (m, r) end
  end.

Definition KeyringUsers (m : Manager) (name : string) : list string :=
  ctx_Name <$> List.filter (λ c,
    bool_decide ((if bool_decide (kr_Name (ctx_Keyring c) = "") then "default" else kr_Name (ctx_Keyring c)) = name)) (ListContexts m).

(** ** Resolution *)
Definition Resolve (env : string → string) (m : Manager) (name : string) : result Context_ :=
  let name := if bool_decide (name = "") then CurrentContext m else name in
  if bool_decide (name = "") then failf "no context specified and no current-context set in config" []
  else match getContext (m_cfg m) name with
       | None => failf "context %q not found" [name]
       | Some (_, ctx) =>
           net ← (if bool_decide (net_Name (ctx_Network ctx) = "") then Ok zero_network
                  else match getNetwork (m_cfg m) (net_Name (ctx_Network ctx)) with
                       | None => failf "network %q (referenced by context %q) not found" [net_Name (ctx_Network ctx); name]
                       | Some (_, net) => Ok net
                       end);
           kr ← match getKeyring (m_cfg m) (kr_Name (ctx_Keyring ctx)) with
                | None => failf "keyring %q (referenced by context %q) not found" [kr_Name (ctx_Keyring ctx); name]
                | Some (_, kr) => Ok kr
                end;
           let authMethod := if bool_decide (ctx_AuthMethod ctx = "") then AuthMethodKeyring else ctx_AuthMethod ctx in
           let consoleURL := if bool_decide (ctx_ConsoleAPIURL ctx = "") then DefaultConsoleAPIURL else ctx_ConsoleAPIURL ctx in
           providerAuthType ← map_err (Wrapf "context %q: %w" [name]) (ResolveProviderAuthType (ctx_ProviderAuthType ctx));
           Ok (MkContext (ctx_Name ctx) net kr authMethod consoleURL (ctx_DefaultAccount ctx) (ctx_TrackedAccounts ctx)
                 (ctx_Gas ctx) (ctx_Fees ctx) providerAuthType (net_GasPrices net) (net_GasAdjustment net) providerAuthType
                 (m_root m) (ResolveConsoleAPIKey env (m_root m) (ctx_Name ctx) (m_fs m)))
       end.
