(* ===== verification/ManagerSpec.v ===== *)
(** * The invariant of the configuration and what keeps it

    Lookups by name, well-formed configurations, saving, and the mutating
    operations as one step function that keeps the invariant. *)

From Stdlib Require Import Ascii.
From stdpp Require Import sorting base gmap strings pretty option numbers list.
From S2P Require Import Prelude GoStd Context Manager.

(** ** Lookups by name *)
Section named.
Context {X : Type} (name_of : X → string).
Implicit Types (l : list X).

Lemma find_in l n : is_Some (list_find (λ x, name_of x = n) l) ↔ n ∈ name_of <$> l.
Proof.
  split.
  - intros [[i x] (Hi & <- & _)%list_find_Some]. by apply list_elem_of_fmap_2, list_elem_of_lookup_2 with i.
  - intros (x & -> & Hx)%list_elem_of_fmap. by apply (list_find_elem_of (λ y, name_of y = name_of x) l x).
Qed.

Lemma find_none l n : list_find (λ x, name_of x = n) l = None → n ∉ name_of <$> l.
Proof. intros E Hin%find_in. rewrite E in Hin. by destruct Hin. Qed.

Lemma find_some l n i x : list_find (λ x, name_of x = n) l = Some (i, x) → l !! i = Some x ∧ name_of x = n.
Proof. intros (? & ? & _)%list_find_Some. done. Qed.

(** With distinct names, the entry found is the only one. *)
Lemma find_unique l n i x : NoDup (name_of <$> l) → l !! i = Some x → name_of x = n →
  list_find (λ x, name_of x = n) l = Some (i, x).
Proof.
  intros HN Hi Hx. apply list_find_Some. split_and!; [done..|]. intros j y Hj Hlt Hy.
  assert (j = i); [|lia]. apply (NoDup_lookup (name_of <$> l) j i n HN); rewrite list_lookup_fmap; [rewrite Hj|rewrite Hi]; simpl; by f_equal.
Qed.

Lemma names_snoc l x : NoDup (name_of <$> l) → name_of x ∉ name_of <$> l → NoDup (name_of <$> (l ++ [x])).
Proof.
  intros HN Hx. rewrite fmap_app. csimpl. apply NoDup_app. split_and!; [done| |apply NoDup_singleton].
  intros y Hy ->%list_elem_of_singleton. done.
Qed.

Lemma names_insert l i x y : l !! i = Some x → name_of y = name_of x → name_of <$> <[i := y]> l = name_of <$> l.
Proof. intros Hi Hy. rewrite list_fmap_insert, Hy. apply list_insert_id. by rewrite list_lookup_fmap, Hi. Qed.

Lemma names_filter l n : NoDup (name_of <$> l) →
  NoDup (name_of <$> List.filter (λ x, negb (bool_decide (name_of x = n))) l).
Proof.
  induction l as [|x l IH]; [done|]. csimpl. intros [Hx HN]%NoDup_cons. case_bool_decide; cbn [negb]; [by apply IH|].
  csimpl. apply NoDup_cons. split; [|by apply IH]. intros (y & E & Hy)%list_elem_of_fmap. apply Hx. rewrite E.
  apply list_elem_of_fmap_2. rewrite list_elem_of_In in Hy |- *. by apply filter_In in Hy as [? _].
Qed.

Lemma names_filter_elem l n k : k ∈ name_of <$> List.filter (λ x, negb (bool_decide (name_of x = n))) l ↔
  k ∈ name_of <$> l ∧ k ≠ n.
Proof.
  rewrite !list_elem_of_fmap. split.
  - intros (x & -> & Hx). rewrite list_elem_of_In, filter_In, <- list_elem_of_In, negb_true_iff, bool_decide_eq_false in Hx. naive_solver.
  - intros [(x & -> & Hx) Hne]. exists x. split; [done|]. rewrite list_elem_of_In, filter_In, <- list_elem_of_In, negb_true_iff, bool_decide_eq_false. done.
Qed.
End named.

Definition network_names (c : config) : list string := net_Name <$> cfg_Networks c.
Definition keyring_names (c : config) : list string := kr_Name <$> cfg_Keyrings c.
Definition context_names (c : config) : list string := ctx_Name <$> cfg_Contexts c.

(** ** The invariant *)
Record refs_ok (nets krs : list string) (c : Context_) : Prop := {
  ro_network : net_Name (ctx_Network c) = "" ∨ net_Name (ctx_Network c) ∈ nets;
  ro_keyring : kr_Name (ctx_Keyring c) ∈ krs;
  ro_auth : ctx_ProviderAuthType c ∈ [""; ProviderAuthJWT; ProviderAuthMTLS];
}.

Record cfg_wf (c : config) : Prop := {
  cw_networks : NoDup (network_names c);
  cw_keyrings : NoDup (keyring_names c);
  cw_contexts : NoDup (context_names c);
  cw_refs : Forall (refs_ok (network_names c) (keyring_names c)) (cfg_Contexts c);
  cw_current : cfg_CurrentContext c = "" ∨ cfg_CurrentContext c ∈ context_names c;
}.

Lemma refs_ok_mono nets nets' krs krs' c : (∀ n, n ∈ nets → n ∈ nets') → (∀ n, n ∈ krs → n ∈ krs') →
  refs_ok nets krs c → refs_ok nets' krs' c.
Proof. intros Hn Hk [[] ? ?]; split; auto. Qed.

Lemma DefaultConfig_wf : cfg_wf DefaultConfig.
Proof. split; simpl; repeat constructor; set_solver. Qed.

Section preserve.
Implicit Types (c : config).

Lemma wf_add_network c n : cfg_wf c → net_Name n ∉ network_names c → cfg_wf (with_networks (cfg_Networks c ++ [n]) c).
Proof.
  intros [] Hn. split; try done; [by apply names_snoc|]. eapply Forall_impl; [done|].
  intros x. apply refs_ok_mono; [|done]. unfold network_names. simpl. rewrite fmap_app. set_solver.
Qed.

Lemma wf_set_network c i n n' : cfg_wf c → cfg_Networks c !! i = Some n → net_Name n' = net_Name n →
  cfg_wf (with_networks (<[i := n']> (cfg_Networks c)) c).
Proof.
  intros [] Hi Hn. assert (network_names (with_networks (<[i := n']> (cfg_Networks c)) c) = network_names c) as E
    by by eapply names_insert. split; rewrite ?E; done.
Qed.

Lemma wf_del_network c name : cfg_wf c → contextsUsingNetwork c name = [] →
  cfg_wf (with_networks (List.filter (λ n, negb (bool_decide (net_Name n = name))) (cfg_Networks c)) c).
Proof.
  intros [H1 H2 H3 H4 H5] Hu. split; try done; [by apply names_filter|]. rewrite Forall_forall in H4 |- *. intros x Hx.
  destruct (H4 x Hx) as [Hnet ? ?]. split; [|done..]. destruct Hnet as [|Hnet]; [by left|right].
  apply names_filter_elem. split; [done|]. intros E. assert (ctx_Name x ∈ contextsUsingNetwork c name) as Hin.
  { unfold contextsUsingNetwork. apply list_elem_of_fmap_2. rewrite list_elem_of_In, filter_In, <- list_elem_of_In.
    split; [done|]. by rewrite bool_decide_eq_true_2. }
  rewrite Hu in Hin. by apply elem_of_nil in Hin.
Qed.

Lemma wf_add_keyring c k : cfg_wf c → kr_Name k ∉ keyring_names c → cfg_wf (with_keyrings (cfg_Keyrings c ++ [k]) c).
Proof.
  intros [] Hn. split; try done; [by apply names_snoc|]. eapply Forall_impl; [done|].
  intros x. apply refs_ok_mono; [done|]. unfold keyring_names. simpl. rewrite fmap_app. set_solver.
Qed.

Lemma wf_set_keyring c i k k' : cfg_wf c → cfg_Keyrings c !! i = Some k → kr_Name k' = kr_Name k →
  cfg_wf (with_keyrings (<[i := k']> (cfg_Keyrings c)) c).
Proof.
  intros [] Hi Hn. assert (keyring_names (with_keyrings (<[i := k']> (cfg_Keyrings c)) c) = keyring_names c) as E
    by by eapply names_insert. split; rewrite ?E; done.
Qed.

Lemma wf_add_context c x : cfg_wf c → ctx_Name x ∉ context_names c → refs_ok (network_names c) (keyring_names c) x →
  cfg_wf (with_contexts (cfg_Contexts c ++ [x]) c).
Proof.
  intros [H1 H2 H3 H4 H5] Hn Hx. split; try done; [by apply names_snoc|by apply Forall_app; split; [|constructor]|].
  destruct H5 as [|H5]; [by left|right]. unfold context_names in *. simpl. rewrite fmap_app. set_solver.
Qed.

Lemma wf_set_context c i x y : cfg_wf c → cfg_Contexts c !! i = Some x → ctx_Name y = ctx_Name x →
  refs_ok (network_names c) (keyring_names c) y → cfg_wf (with_contexts (<[i := y]> (cfg_Contexts c)) c).
Proof.
  intros [] Hi Hn Hy. assert (context_names (with_contexts (<[i := y]> (cfg_Contexts c)) c) = context_names c) as E
    by by eapply names_insert. split; rewrite ?E; try done. by apply Forall_insert.
Qed.

Lemma wf_use c name : cfg_wf c → name ∈ context_names c → cfg_wf (with_current name c).
Proof. intros [] Hn. split; try done. by right. Qed.

Lemma wf_del_context c name : cfg_wf c → cfg_CurrentContext c ≠ name →
  cfg_wf (with_contexts (List.filter (λ x, negb (bool_decide (ctx_Name x = name))) (cfg_Contexts c)) c).
Proof.
  intros [H1 H2 H3 H4 H5] Hn. split; try done; [by apply names_filter| |].
  - rewrite Forall_forall in H4 |- *. intros x Hx. apply H4. rewrite list_elem_of_In in Hx |- *. by apply filter_In in Hx as [? _].
  - destruct H5 as [|H5]; [by left|right]. by apply names_filter_elem.
Qed.

(** Renaming an entry to a fresh name. *)
Lemma names_rename {X} (name_of : X → string) (l : list X) i x y : NoDup (name_of <$> l) → l !! i = Some x →
  name_of y ∉ name_of <$> l → NoDup (name_of <$> <[i := y]> l).
Proof.
  intros HN Hi Hy. rewrite list_fmap_insert. apply NoDup_alt. intros j k n Hj Hk.
  assert (i < length (name_of <$> l))%nat as Hlt by (rewrite length_fmap; by eapply lookup_lt_Some).
  destruct (decide (j = i)) as [->|Hji], (decide (k = i)) as [->|Hki]; [done|..].
  - rewrite list_lookup_insert_eq in Hj by done. rewrite list_lookup_insert_ne in Hk by done. simplify_eq.
    destruct Hy. by eapply list_elem_of_lookup_2.
  - rewrite list_lookup_insert_eq in Hk by done. rewrite list_lookup_insert_ne in Hj by done. simplify_eq.
    destruct Hy. by eapply list_elem_of_lookup_2.
  - rewrite list_lookup_insert_ne in Hj, Hk by done. by eapply NoDup_lookup.
Qed.

Lemma wf_rename c i x new : cfg_wf c → cfg_Contexts c !! i = Some x → new ∉ context_names c →
  cfg_wf (let c' := with_contexts (<[i := set_ctx_Name new x]> (cfg_Contexts c)) c in
          if bool_decide (cfg_CurrentContext c' = ctx_Name x) then with_current new c' else c').
Proof.
  intros [H1 H2 H3 H4 H5] Hi Hn. assert (ctx_Name (set_ctx_Name new x) = new) as En by by destruct x.
  assert (NoDup (ctx_Name <$> <[i := set_ctx_Name new x]> (cfg_Contexts c))) as HN by (eapply names_rename; [done..|by rewrite En]).
  assert (Forall (refs_ok (network_names c) (keyring_names c)) (<[i := set_ctx_Name new x]> (cfg_Contexts c))) as HF.
  { apply Forall_insert; [done|]. assert (refs_ok (network_names c) (keyring_names c) x) as [] by by eapply Forall_lookup_1.
    destruct x; by split. }
  assert (new ∈ ctx_Name <$> <[i := set_ctx_Name new x]> (cfg_Contexts c)) as Hin.
  { rewrite <- En at 1. apply list_elem_of_fmap_2. eapply list_elem_of_lookup_2, list_lookup_insert_eq. by eapply lookup_lt_Some. }
  cbv zeta. case_bool_decide as Ec; split; try done; [by right|].
  simpl in *. destruct H5 as [|H5]; [by left|right]. unfold context_names in *. simpl.
  apply list_elem_of_lookup in H5 as [j Hj]. apply list_elem_of_lookup. exists j.
  rewrite list_fmap_insert. rewrite list_lookup_insert_ne; [done|]. intros ->.
  rewrite list_lookup_fmap, Hi in Hj. by simplify_eq/=.
Qed.
End preserve.

(** ** Saving *)
Lemma save_fields fl m m' r : save fl m = (m', r) → m_cfg m' = m_cfg m ∧ m_root m' = m_root m.
Proof. unfold save. destruct (SaveConfig _ _ _ _) as [f r']. intros. by simplify_eq. Qed.

(** Without a fault the file holds the configuration; nothing else changes but
    the root directory, which is there afterwards. *)
Lemma save_no_fault fl m : f_save fl = None →
  save fl m = (set_fs (<[ConfigPath (m_root m) := NConfig (Parsed (doc_of (m_cfg m)))]> (os_MkdirAll (m_root m) (m_fs m))) m, Ok tt).
Proof. intros E. unfold save, SaveConfig. rewrite E. cbv zeta beta iota. by rewrite insert_insert_eq. Qed.

Lemma save_step_cases fl : f_save fl = None ∨ ∃ s e, f_save fl = Some (s, e).
Proof. destruct (f_save fl) as [[s e]|]; eauto. Qed.

Lemma save_ok_iff fl m : (save fl m).2 = Ok tt ↔ f_save fl = None.
Proof.
  split; [|intros E; by rewrite save_no_fault].
  destruct (f_save fl) as [[s e]|] eqn:E; [|done]. unfold save, SaveConfig. rewrite E. by destruct s.
Qed.

Lemma save_not_panic fl m : (save fl m).2 ≠ Panic.
Proof.
  destruct (f_save fl) as [[s e]|] eqn:E; [|by rewrite save_no_fault]. unfold save, SaveConfig. rewrite E. by destruct s.
Qed.

(** What is on disk after a save that succeeded. *)
Lemma save_on_disk fl m m' : save fl m = (m', Ok tt) →
  m_cfg m' = m_cfg m ∧ m_root m' = m_root m ∧ m_fs m' !! ConfigPath (m_root m') = Some (NConfig (Parsed (doc_of (m_cfg m')))).
Proof.
  intros E. pose proof (save_ok_iff fl m) as [H _]. rewrite E in H. specialize (H eq_refl).
  rewrite save_no_fault in E by done. simplify_eq/=. by rewrite lookup_insert_eq.
Qed.

(** ** The operations of a caller *)
Inductive mop : Type :=
| OCreateNetwork (net : Network)
| OCreateNetworkFromTemplate (name template : string)
| OUpdateNetwork (name : string) (apply : Network → Network * result unit)
| OForkNetwork (src new : string)
| ODeleteNetwork (name : string)
| OCreateContext (ctx : Context_)
| OUseContext (name : string)
| OUpdateContextAndNetwork (name fork : string) (applyContext : option (Context_ → Context_ * result unit))
    (applyNetwork : option (Network → Network * result unit))
| ODeleteContext (name : string) (keepData : bool)
| ORenameContext (old new : string)
| OCreateKeyring (kr : Keyring)
| OUpdateKeyring (name : string) (apply : Keyring → Keyring * result unit).

Definition run_mop (fl : faults) (m : Manager) (o : mop) : Manager * result unit :=
  match o with
  | OCreateNetwork net => CreateNetwork fl m net
  | OCreateNetworkFromTemplate name template => CreateNetworkFromTemplate fl m name template
  | OUpdateNetwork name apply => UpdateNetwork fl m name apply
  | OForkNetwork src new => ForkNetwork fl m src new
  | ODeleteNetwork name => DeleteNetwork fl m name
  | OCreateContext ctx => CreateContext fl m ctx
  | OUseContext name => UseContext fl m name
  | OUpdateContextAndNetwork name fork ac an => UpdateContextAndNetwork fl m name fork ac an
  | ODeleteContext name keep => DeleteContext fl m name keep
  | ORenameContext old new => RenameContext fl m old new
  | OCreateKeyring kr => CreateKeyring fl m kr
  | OUpdateKeyring name apply => UpdateKeyring fl m name apply
  end.

(** The functions of the caller do not rename what they are given. *)
Definition keeps_names (o : mop) : Prop :=
  match o with
  | OUpdateNetwork _ apply => ∀ n, net_Name (apply n).1 = net_Name n
  | OUpdateKeyring _ apply => ∀ k, kr_Name (apply k).1 = kr_Name k
  | OUpdateContextAndNetwork _ _ ac an =>
      (∀ f, ac = Some f → ∀ c, ctx_Name (f c).1 = ctx_Name c) ∧ (∀ f, an = Some f → ∀ n, net_Name (f n).1 = net_Name n)
  | _ => True
  end.

Section ops.
Context (fl : faults).

Lemma save_wf m m' r : save fl m = (m', r) → cfg_wf (m_cfg m) → cfg_wf (m_cfg m').
Proof. by intros [-> _]%save_fields. Qed.

Lemma ResolveProviderAuthType_ok v a : ResolveProviderAuthType v = Ok a → a ∈ [""; ProviderAuthJWT; ProviderAuthMTLS].
Proof.
  unfold ResolveProviderAuthType. repeat case_bool_decide; intros; simplify_eq; [set_solver|].
  destruct_or!; subst; set_solver.
Qed.

Lemma getNetwork_in cfg n : is_Some (getNetwork cfg n) ↔ n ∈ network_names cfg.
Proof. apply find_in. Qed.
Lemma getKeyring_in cfg n : is_Some (getKeyring cfg n) ↔ n ∈ keyring_names cfg.
Proof. apply find_in. Qed.
Lemma getContext_in cfg n : is_Some (getContext cfg n) ↔ n ∈ context_names cfg.
Proof. apply find_in. Qed.

Lemma prepare_context_ok cfg c c' : prepare_context cfg c = Ok c' →
  ctx_Name c' = ctx_Name c ∧ ctx_Name c ≠ "" ∧ ctx_Name c ∉ context_names cfg ∧ refs_ok (network_names cfg) (keyring_names cfg) c'.
Proof.
  unfold prepare_context. intros E. case_bool_decide as Hn; [done|]. case_bool_decide as Hf; [done|].
  rewrite getContext_in in Hf. apply bind_ok in E as (u & E1 & E).
  assert (net_Name (ctx_Network c) = "" ∨ net_Name (ctx_Network c) ∈ network_names cfg) as Hnet.
  { destruct (decide (net_Name (ctx_Network c) = "")) as [|Hne]; [by left|right]. rewrite bool_decide_eq_false_2 in E1 by done.
    apply getNetwork_in. by destruct (getNetwork cfg _). }
  assert (∀ b : bool, ctx_Name (if b then set_ctx_Keyring (keyring_named "default") c else c) = ctx_Name c ∧
    ctx_Network (if b then set_ctx_Keyring (keyring_named "default") c else c) = ctx_Network c) as H1 by (intros []; by destruct c).
  specialize (H1 (bool_decide (kr_Name (ctx_Keyring c) = ""))). cbv zeta in E.
  set (c1 := if bool_decide (kr_Name (ctx_Keyring c) = "") then _ else c) in *. clearbody c1. destruct H1 as [En Ew].
  apply bind_ok in E as (u' & E2 & E). assert (kr_Name (ctx_Keyring c1) ∈ keyring_names cfg) as Hkr.
  { apply getKeyring_in. by destruct (getKeyring cfg _). }
  apply bind_ok in E as (a & Ea%ResolveProviderAuthType_ok & E). case_bool_decide; [|done]. simplify_eq. clear -Hn Hf Hnet Hkr Ea En Ew.
  rewrite <- En in *. rewrite <- Ew in Hnet. case_bool_decide; destruct c1; simpl in *; (split_and!; [done..|by split]).
Qed.

(** The network part of an update: the network stays or joins, and the context
    refers to a network there is. *)
Definition network_update_ok (cfg : config) (fork : string) (c1 c2 : Context_) (u : option (option nat * Network)) : Prop :=
  ctx_Name c2 = ctx_Name c1 ∧ cfg_wf (with_networks (place_network u (cfg_Networks cfg)) cfg) ∧
  (fork ≠ "" → net_Name (ctx_Network c2) ∈ network_names (with_networks (place_network u (cfg_Networks cfg)) cfg)) ∧
  (∀ n, n ∈ network_names cfg → n ∈ network_names (with_networks (place_network u (cfg_Networks cfg)) cfg)).

Lemma wf_fork cfg fork c net : cfg_wf cfg → getNetwork cfg fork = None → net_Name net = fork →
  network_update_ok cfg fork c (set_ctx_Network (network_named fork) c) (Some (None, net)).
Proof.
  intros Hwf Hf%find_none Hn. assert (∀ n, n ∈ network_names (with_networks (cfg_Networks cfg ++ [net]) cfg) ↔ n ∈ network_names cfg ∨ n = fork) as Hin.
  { intros n. unfold network_names. simpl. rewrite fmap_app. set_solver. }
  split_and!; [by destruct c|apply wf_add_network; [done|by rewrite Hn]|intros _; apply Hin; right; by destruct c|].
  intros n Hx. apply Hin. by left.
Qed.

Lemma wf_edit cfg c i net net' : cfg_wf cfg → cfg_Networks cfg !! i = Some net → net_Name net' = net_Name net →
  network_update_ok cfg "" c c (Some (Some i, net')).
Proof.
  intros Hwf Hi Hn. split_and!; [done|by eapply wf_set_network|done|]. intros n. unfold network_names. simpl.
  by erewrite names_insert.
Qed.

Lemma network_update_refs cfg fork c1 c2 u a : network_update_ok cfg fork c1 c2 u →
  negb (bool_decide (net_Name (ctx_Network c2) = "")) && bool_decide (fork = "") &&
    negb (bool_decide (is_Some (getNetwork cfg (net_Name (ctx_Network c2))))) = false →
  is_Some (getKeyring cfg (kr_Name (ctx_Keyring c2))) → a ∈ [""; ProviderAuthJWT; ProviderAuthMTLS] →
  refs_ok (network_names (with_networks (place_network u (cfg_Networks cfg)) cfg)) (keyring_names cfg) (set_ctx_ProviderAuthType a c2).
Proof.
  intros (_ & _ & Hf & Hm) Hg Hk%getKeyring_in Ha. assert (net_Name (ctx_Network c2) = "" ∨
    net_Name (ctx_Network c2) ∈ network_names (with_networks (place_network u (cfg_Networks cfg)) cfg)) as Hn.
  { destruct (decide (net_Name (ctx_Network c2) = "")) as [|Hne]; [by left|right]. destruct (decide (fork = "")) as [->|Hfk]; [|by apply Hf].
    rewrite (bool_decide_eq_false_2 (_ = "")), bool_decide_eq_true_2 in Hg by done. apply Hm, getNetwork_in.
    by case_bool_decide. }
  destruct c2; by split.
Qed.

Lemma plan_update_ok cfg name fork ac an i c u : keeps_names (OUpdateContextAndNetwork name fork ac an) → cfg_wf cfg →
  plan_update cfg name fork ac an = Ok (i, c, u) →
  cfg_wf (with_networks (place_network u (cfg_Networks cfg)) (with_contexts (<[i := c]> (cfg_Contexts cfg)) cfg)).
Proof.
  intros [Hac Han] Hwf. unfold plan_update. destruct (getContext cfg name) as [[i0 c0]|] eqn:E0; [|done].
  apply find_some in E0 as [Hi0 Hn0]. intros (c1 & E1 & E)%bind_ok.
  assert (ctx_Name c1 = ctx_Name c0) as Hn1.
  { destruct ac as [f|]; [|by simplify_eq]. specialize (Hac f eq_refl c0). destruct (f c0) as [c' r].
    apply bind_ok in E1 as (? & _ & ?). by simplify_eq. }
  apply bind_ok in E as ([c2 u2] & E2 & E). assert (network_update_ok cfg fork c1 c2 u2) as Hu.
  { destruct an as [f|].
    - destruct (bool_decide (net_Name (ctx_Network c1) = "")); [done|]. destruct (getNetwork cfg (net_Name (ctx_Network c1))) as [[j net]|] eqn:Ej; [|done].
      apply find_some in Ej as [Hj _]. apply bind_ok in E2 as ([[c' net'] pl] & E2 & E3).
      destruct (f net') as [net2 r] eqn:Ef. apply bind_ok in E3 as (? & _ & E3).
      pose proof (Han f eq_refl net') as Hf. rewrite Ef in Hf. simpl in Hf. destruct (decide (fork = "")) as [->|Hfk].
      + rewrite bool_decide_eq_true_2 in E2 by done. simplify_eq/=. by eapply wf_edit.
      + rewrite bool_decide_eq_false_2 in E2 by done. cbn [negb] in E2. destruct (getNetwork cfg fork) eqn:Efk; [done|].
        simpl in E2, E3. injection E2 as <- <- <-. injection E3 as <- <-. by apply wf_fork.
    - destruct (bool_decide (fork = "")) eqn:Hfk in E2; [|done]. apply bool_decide_eq_true in Hfk. injection E2 as <- <-.
      unfold network_update_ok. simpl. assert (with_networks (cfg_Networks cfg) cfg = cfg) as -> by by destruct cfg. by rewrite Hfk. }
  destruct (_ && _ && _) eqn:Eg; [done|]. destruct (bool_decide (is_Some (getKeyring _ _))) eqn:Hk; [|done].
  apply bool_decide_eq_true in Hk.
  apply bind_ok in E as (a & Ea%ResolveProviderAuthType_ok & E). simplify_eq.
  pose proof (network_update_refs _ _ _ _ _ _ Hu Eg Hk Ea) as Hr. destruct Hu as (Hn2 & Hwf' & _).
  apply (wf_set_context _ i c0 (set_ctx_ProviderAuthType a c2) Hwf'); [done| |done]. rewrite <- Hn1, <- Hn2. by destruct c2.
Qed.

(** The configuration an operation tries to save, and what it leaves in memory
    when the save fails. *)
Lemma CreateContext_cases m c m' r : CreateContext fl m c = (m', r) →
  (m_cfg m' = m_cfg m ∧ m_root m' = m_root m ∧ r ≠ Ok tt) ∨
  ∃ c' f, prepare_context (m_cfg m) c = Ok c' ∧
    save fl (MkManager (m_root m) (with_contexts (cfg_Contexts (m_cfg m) ++ [c']) (m_cfg m)) f) = (m', r) ∧ r = Ok tt.
Proof.
  unfold CreateContext. destruct (prepare_context _ _) as [c'|e|] eqn:Ep; [|intros; simplify_eq; by left..].
  destruct (EnsureContextDirs _ _ _ _) as [f [[]|e|]]; [|intros; simplify_eq; by left..].
  destruct (save _ _) as [m1 r1] eqn:Es. pose proof (save_fields _ _ _ _ Es) as [_ Er].
  destruct r1 as [[]|e|]; intros; simplify_eq/=; [right; by eexists _, _|by left..].
Qed.

Lemma UpdateContext_cases m name fork ac an m' r : UpdateContextAndNetwork fl m name fork ac an = (m', r) →
  (m_cfg m' = m_cfg m ∧ m_root m' = m_root m ∧ r ≠ Ok tt) ∨
  ∃ i c u, plan_update (m_cfg m) name fork ac an = Ok (i, c, u) ∧
    save fl (set_cfg (with_networks (place_network u (cfg_Networks (m_cfg m)))
      (with_contexts (<[i := c]> (cfg_Contexts (m_cfg m))) (m_cfg m))) m) = (m', r) ∧ r = Ok tt.
Proof.
  unfold UpdateContextAndNetwork. destruct (plan_update _ _ _ _ _) as [[[i c] u]|e|] eqn:Ep; [|intros; simplify_eq; by left..].
  destruct (save _ _) as [m1 r1] eqn:Es. pose proof (save_fields _ _ _ _ Es) as [_ Er].
  destruct r1 as [[]|e|]; intros; simplify_eq/=; [right; by eexists _, _, _|by left..].
Qed.

Lemma CreateNetwork_wf m n m' r : cfg_wf (m_cfg m) → CreateNetwork fl m n = (m', r) → cfg_wf (m_cfg m').
Proof.
  unfold CreateNetwork. intros Hwf. case_bool_decide; [by intros; simplify_eq|].
  destruct (getNetwork _ _) eqn:E; [by intros; simplify_eq|]. apply find_none in E. intros Hs. eapply save_wf; [done|]. by apply wf_add_network.
Qed.

Lemma networks_wf m o m' r : match o with OUpdateNetwork _ _ | OForkNetwork _ _ | ODeleteNetwork _ | OCreateNetwork _ | OCreateNetworkFromTemplate _ _ => True | _ => False end →
  keeps_names o → cfg_wf (m_cfg m) → run_mop fl m o = (m', r) → cfg_wf (m_cfg m').
Proof.
  destruct o; try done; intros _ Hk Hwf Hr; simpl in *; [by eapply CreateNetwork_wf|..].
  - revert Hr. unfold CreateNetworkFromTemplate. destruct (_ !! _); [|by intros; simplify_eq]. by apply CreateNetwork_wf.
  - revert Hr. unfold UpdateNetwork. destruct (getNetwork _ _) as [[i n]|] eqn:E; [|by intros; simplify_eq]. apply find_some in E as [Hi Hn].
    specialize (Hk n). destruct (apply n) as [n' r']. pose proof (wf_set_network _ i n n' Hwf Hi Hk) as Hw.
    destruct r' as [[]|e|]; [|by intros; simplify_eq..]. intros Hs. by eapply save_wf.
  - revert Hr. unfold ForkNetwork. destruct (getNetwork _ src) as [[i n]|]; [|by intros; simplify_eq].
    destruct (getNetwork _ new) eqn:E; [by intros; simplify_eq|]. apply find_none in E. intros Hs. eapply save_wf; [done|]. by apply wf_add_network.
  - revert Hr. unfold DeleteNetwork. destruct (contextsUsingNetwork _ _) eqn:E; [|by intros; simplify_eq].
    intros Hs. eapply save_wf; [done|]. by apply wf_del_network.
Qed.

Lemma keyrings_wf m o m' r : match o with OCreateKeyring _ | OUpdateKeyring _ _ => True | _ => False end →
  keeps_names o → cfg_wf (m_cfg m) → run_mop fl m o = (m', r) → cfg_wf (m_cfg m').
Proof.
  destruct o; try done; intros _ Hk Hwf Hr; simpl in *; revert Hr.
  - unfold CreateKeyring. case_bool_decide; [by intros; simplify_eq|]. destruct (getKeyring _ _) eqn:E; [by intros; simplify_eq|].
    apply find_none in E. intros Hs. eapply save_wf; [done|]. apply wf_add_keyring; [done|]. by case_bool_decide.
  - unfold UpdateKeyring. destruct (getKeyring _ _) as [[i n]|] eqn:E; [|by intros; simplify_eq]. apply find_some in E as [Hi Hn].
    specialize (Hk n). destruct (apply n) as [n' r']. pose proof (wf_set_keyring _ i n n' Hwf Hi Hk) as Hw.
    destruct r' as [[]|e|]; [|by intros; simplify_eq..]. intros Hs. by eapply save_wf.
Qed.

Lemma RenameContext_cases m old new m' r : RenameContext fl m old new = (m', r) →
  (m' = m ∧ r ≠ Ok tt) ∨
  ∃ i c f, getContext (m_cfg m) new = None ∧ getContext (m_cfg m) old = Some (i, c) ∧
    (if os_exists (ContextDir (m_root m) old) (m_fs m) then f_rename fl = None ∧
       os_Rename (ContextDir (m_root m) old) (ContextDir (m_root m) new) (m_fs m) = Ok f else f = m_fs m) ∧
    save fl (MkManager (m_root m) (let c' := with_contexts (<[i := set_ctx_Name new c]> (cfg_Contexts (m_cfg m))) (m_cfg m) in
      if bool_decide (cfg_CurrentContext c' = old) then with_current new c' else c') f) = (m', r).
Proof.
  unfold RenameContext. destruct (getContext _ new) eqn:E1; [intros; simplify_eq; by left|].
  destruct (getContext _ old) as [[i c]|] eqn:E2; [|intros; simplify_eq; by left]. cbv zeta.
  destruct (os_exists _ _).
  - destruct (f_rename fl) as [e|] eqn:Ef; [intros; simplify_eq/=; by left|]. destruct (os_Rename _ _ _) as [f|e|]; simpl; intros; simplify_eq; [|by left..].
    right. exists i, c, f. done.
  - intros. right. exists i, c, (m_fs m). done.
Qed.

(** The configuration in memory stays well formed, whatever fails. *)
Lemma run_mop_wf m o m' r : keeps_names o → cfg_wf (m_cfg m) → run_mop fl m o = (m', r) → cfg_wf (m_cfg m').
Proof.
  intros Hk Hwf Hr. destruct o; 
    first [refine (networks_wf _ _ _ _ _ Hk Hwf Hr); exact I|refine (keyrings_wf _ _ _ _ _ Hk Hwf Hr); exact I|simpl in Hr].
  - apply CreateContext_cases in Hr as [(-> & _)|(c' & f & (<- & _ & Hf & Hro)%prepare_context_ok & Hs & _)]; [done|].
    eapply save_wf; [done|]. apply wf_add_context; [done| |done]. done.
  - revert Hr. unfold UseContext. destruct (getContext _ _) eqn:E; [|by intros; simplify_eq]. intros Hs. eapply save_wf; [done|].
    apply wf_use; [done|]. apply getContext_in. by rewrite E.
  - apply UpdateContext_cases in Hr as [(-> & _)|(i & c & u & Hp & Hs & _)]; [done|]. eapply save_wf; [done|]. by eapply plan_update_ok.
  - revert Hr. unfold DeleteContext. case_bool_decide as Hc; [by intros; simplify_eq|]. destruct (getContext _ _); [|by intros; simplify_eq].
    intros Hs. eapply save_wf; [done|]. destruct keepData; [|destruct (f_removeall fl)]; by apply wf_del_context.
  - apply RenameContext_cases in Hr as [[-> _]|(i & c & f & Hn & Ho & _ & Hs)]; [done|]. eapply save_wf; [done|].
    apply find_some in Ho as [Hi Hc]. subst old. apply (wf_rename (m_cfg m) i c new); [done..|by apply find_none].
Qed.

(** An operation that reports success has written the configuration it left in
    memory. *)
Lemma run_mop_on_disk m o m' : run_mop fl m o = (m', Ok tt) →
  m_root m' = m_root m ∧ m_fs m' !! ConfigPath (m_root m') = Some (NConfig (Parsed (doc_of (m_cfg m')))).
Proof.
  intros Hr.
  assert (∀ m1, save fl m1 = (m', Ok tt) → m_root m1 = m_root m → m_root m' = m_root m ∧
    m_fs m' !! ConfigPath (m_root m') = Some (NConfig (Parsed (doc_of (m_cfg m'))))) as Hend.
  { intros m1 (_ & E1 & E2)%save_on_disk E. split; [by rewrite E1|done]. }
  destruct o; simpl in Hr.
  - revert Hr. unfold CreateNetwork. case_bool_decide; [by intros; simplify_eq|]. destruct (getNetwork _ _); [by intros; simplify_eq|]. intros; by eapply Hend.
  - revert Hr. unfold CreateNetworkFromTemplate, CreateNetwork. destruct (NetworkTemplates !! _); [|by intros; simplify_eq]. case_bool_decide; [by intros; simplify_eq|].
    destruct (getNetwork _ _); [by intros; simplify_eq|]. intros; by eapply Hend.
  - revert Hr. unfold UpdateNetwork. destruct (getNetwork _ _) as [[i n]|]; [|by intros; simplify_eq]. destruct (apply n) as [n' [[]|e|]]; [|by intros; simplify_eq..]. intros; by eapply Hend.
  - revert Hr. unfold ForkNetwork. destruct (getNetwork _ src) as [[i n]|]; [|by intros; simplify_eq]. destruct (getNetwork _ new); [by intros; simplify_eq|]. intros; by eapply Hend.
  - revert Hr. unfold DeleteNetwork. destruct (contextsUsingNetwork _ _); [|by intros; simplify_eq]. intros; by eapply Hend.
  - apply CreateContext_cases in Hr as [(_ & _ & ?)|(c' & f & _ & Hs & _)]; [done|by eapply Hend].
  - revert Hr. unfold UseContext. destruct (getContext _ _); [|by intros; simplify_eq]. intros; by eapply Hend.
  - apply UpdateContext_cases in Hr as [(_ & _ & ?)|(i & c & u & _ & Hs & _)]; [done|by eapply Hend].
  - revert Hr. unfold DeleteContext. case_bool_decide; [by intros; simplify_eq|]. destruct (getContext _ _); [|by intros; simplify_eq].
    intros; eapply Hend; [by intros; simplify_eq|]. destruct keepData; [|destruct (f_removeall fl)]; done.
  - apply RenameContext_cases in Hr as [[_ ?]|(i & c & f & _ & _ & _ & Hs)]; [done|by eapply Hend].
  - revert Hr. unfold CreateKeyring. case_bool_decide; [by intros; simplify_eq|]. destruct (getKeyring _ _); [by intros; simplify_eq|]. intros; by eapply Hend.
  - revert Hr. unfold UpdateKeyring. destruct (getKeyring _ _) as [[i n]|]; [|by intros; simplify_eq]. destruct (apply n) as [n' [[]|e|]]; [|by intros; simplify_eq..]. intros; by eapply Hend.
Qed.
End ops.
