(* ===== verification/ManagerProps.v ===== *)
(** * What the context manager guarantees

    The invariant of the configuration, resolution, durability, rollback, and
    the effect of renaming and deleting on the files; the witnesses run the
    operations on a small configuration. *)

From Stdlib Require Import Ascii.
From stdpp Require Import sorting base gmap strings pretty option numbers list.
From S2P Require Import Prelude GoStd Context ContextSpec Manager ManagerSpec.

(** ** A small configuration *)
Definition demo_root : string := "/home/u/.config/akt".
Definition demo_net : Network :=
  MkNetwork "mainnet" "akashnet-2" (MkEndpoints ["https://rpc.akt.dev:443/rpc"] [] []) "0.025uakt" "1.5" "".
Definition demo_context (name : string) : Context_ :=
  MkContext name (network_named "mainnet") (keyring_named "default") "" "" "" [] "auto" "" ProviderAuthJWT "" "" "" "" "".
Definition demo_cfg : config :=
  MkConfig ConfigVersion "prod" [demo_net] [DefaultKeyring] [demo_context "prod"; demo_context "dev"]
    (MkTUI "dark" "vim" ∅ "") (MkPlugins [] []) (MkDefaults "pretty" "sync" "").
Definition demo_fs : fs :=
  <[ConfigPath demo_root := NConfig (Parsed (doc_of demo_cfg))]> (
  <[StoreDBPath demo_root "prod" := NData "prod records"]> (
  <[StoreDBPath demo_root "dev" := NData "dev records"]> {[Clean demo_root := NDir]})).
Definition demo_manager : Manager := MkManager demo_root demo_cfg demo_fs.

Lemma demo_wf : cfg_wf (m_cfg demo_manager).
Proof.
  split; [by apply (bool_decide_unpack _)..| |right; by apply (bool_decide_unpack _)].
  repeat constructor; by apply (bool_decide_unpack _).
Defined.

(** C5: whatever system calls fail, every mutating operation of [Manager] keeps
    the configuration in memory well formed: names are unique per kind, every
    context refers to a network (or to none) and a keyring that exist and has a
    valid provider auth type, and the current context is unset or exists. The
    functions a caller passes must not change names. *)
Theorem Manager_keeps_wf (fl : faults) (m m' : Manager) (o : mop) (r : result unit) :
  keeps_names o → cfg_wf (m_cfg m) → run_mop fl m o = (m', r) → cfg_wf (m_cfg m').
Proof. apply run_mop_wf. Qed.

Lemma Manager_keeps_wf_witness :
  cfg_wf (m_cfg (run_mop no_faults demo_manager (ORenameContext "prod" "live")).1).
Proof.
  eapply (Manager_keeps_wf no_faults demo_manager _ (ORenameContext "prod" "live")); [done|apply demo_wf|reflexivity].
Defined.

(** ** Resolution *)

Lemma auth_resolves a : a ∈ [""; ProviderAuthJWT; ProviderAuthMTLS] →
  ∃ b, ResolveProviderAuthType a = Ok b ∧ b ∈ [ProviderAuthJWT; ProviderAuthMTLS].
Proof.
  intros H. unfold ResolveProviderAuthType. case_bool_decide; [eexists; split; [done|set_solver]|].
  rewrite bool_decide_eq_true_2 by set_solver. eexists. split; [done|set_solver].
Qed.

(** The name that is resolved. *)
Definition effective (m : Manager) (name : string) : string := if bool_decide (name = "") then CurrentContext m else name.

(** on a well-formed configuration [Resolve] fails exactly when no context is
    selected or the selected one does not exist, with that error; otherwise it
    returns the context with its network and keyring dereferenced, the gas
    settings of that network, a valid provider auth type and the defaults of the
    fields left empty. *)
Theorem Resolve_exact (env : string → string) (m : Manager) (name : string) :
  cfg_wf (m_cfg m) →
  if bool_decide (effective m name = "") then
    Resolve env m name = failf "no context specified and no current-context set in config" []
  else match GetContext m (effective m name) with
       | None => Resolve env m name = failf "context %q not found" [effective m name]
       | Some c => ∃ r, Resolve env m name = Ok r ∧ ctx_Name r = effective m name ∧
           (if bool_decide (net_Name (ctx_Network c) = "") then ctx_Network r = zero_network
            else GetNetwork m (net_Name (ctx_Network c)) = Some (ctx_Network r)) ∧
           GetKeyring m (kr_Name (ctx_Keyring c)) = Some (ctx_Keyring r) ∧
           ctx_GasPrices r = net_GasPrices (ctx_Network r) ∧ ctx_GasAdjustment r = net_GasAdjustment (ctx_Network r) ∧
           ctx_AuthType r ∈ [ProviderAuthJWT; ProviderAuthMTLS] ∧ ctx_AuthMethod r ≠ "" ∧ ctx_ConsoleAPIURL r ≠ "" ∧
           ctx_DefaultAccount r = ctx_DefaultAccount c ∧ ctx_TrackedAccounts r = ctx_TrackedAccounts c ∧ ctx_Root r = m_root m
       end.
Proof.
  intros Hwf. unfold Resolve. fold (effective m name). cbv zeta. case_bool_decide as He; [done|].
  unfold GetContext. destruct (getContext (m_cfg m) (effective m name)) as [[i c]|] eqn:Ec; simpl; [|done].
  apply find_some in Ec as [Hi Hn]. assert (refs_ok (network_names (m_cfg m)) (keyring_names (m_cfg m)) c) as [Hnet Hkr Ha]
    by (eapply Forall_lookup_1; [apply Hwf|done]).
  apply getKeyring_in in Hkr as [[j k] Ek]. unfold GetKeyring. rewrite Ek.
  apply auth_resolves in Ha as (b & Eb & Hb). rewrite Eb.
  assert (∀ a d, d ≠ "" → (if bool_decide (a = "") then d else a) ≠ "") as Hd by (intros a d ?; by case_bool_decide).
  destruct (decide (net_Name (ctx_Network c) = "")) as [Ee|Ee].
  - rewrite (bool_decide_eq_true_2 (net_Name (ctx_Network c) = "")) by done. simpl. eexists. split; [done|]. simpl. split_and!; try done; by apply Hd.
  - rewrite (bool_decide_eq_false_2 (net_Name (ctx_Network c) = "")) by done. destruct Hnet as [|Hnet]; [done|]. apply getNetwork_in in Hnet as [[l n] En].
    unfold GetNetwork. rewrite En. simpl. eexists. split; [done|]. simpl. split_and!; try done; by apply Hd.
Qed.

Lemma Resolve_exact_witness : ∃ r, Resolve (λ _, "") demo_manager "" = Ok r ∧ ctx_Network r = demo_net.
Proof.
  pose proof (Resolve_exact (λ _, "") demo_manager "" demo_wf) as H.
  destruct H as (r & Hr & _ & Hn & _). exists r. split; [done|]. injection Hn. done.
Defined.

(** ** Durability *)

(** What a context is after it was written and read back. *)
Definition stripped (c : Context_) : Context_ := UnmarshalYAML (MarshalYAML c).

Lemma list_find_fmap' {A B} (f : A → B) (P : B → Prop) `{∀ b, Decision (P b)} (l : list A) :
  list_find P (f <$> l) = (λ ix, (ix.1, f ix.2)) <$> list_find (λ a, P (f a)) l.
Proof.
  induction l as [|a l IH]; csimpl; [done|]. destruct (decide (P (f a))); csimpl; [done|]. rewrite IH. by destruct (list_find _ l).
Qed.

Lemma reloaded_context cfg name : getContext (cfg_of (doc_of cfg)) name = (λ ix, (ix.1, stripped ix.2)) <$> getContext cfg name.
Proof.
  unfold getContext. simpl. rewrite <- list_fmap_compose, list_find_fmap'. by apply (f_equal (fmap _)), list_find_ext.
Qed.

Lemma Load_saved root f cfg : f !! ConfigPath root = Some (NConfig (Parsed (doc_of cfg))) → cfg_Version cfg ≠ 0%Z →
  LoadConfig root f = Ok (cfg_of (doc_of cfg)).
Proof. intros E Hv. unfold LoadConfig. rewrite E. cbv zeta. simpl. by apply Z.eqb_neq in Hv as ->. Qed.

Lemma Resolve_reloaded env m name : Resolve env (set_cfg (cfg_of (doc_of (m_cfg m))) m) name = Resolve env m name.
Proof.
  unfold Resolve, CurrentContext. cbv zeta. cbn [m_cfg set_cfg]. change (cfg_CurrentContext (cfg_of (doc_of (m_cfg m)))) with (cfg_CurrentContext (m_cfg m)).
  case_bool_decide; [done|]. rewrite reloaded_context. destruct (getContext (m_cfg m) _) as [[i c]|]; done.
Qed.

(** C19: when an operation reports success, a new process reads back the same
    state: [NewManager] on the files succeeds, with the same networks, keyrings,
    current context and context names, and it resolves every name to exactly what
    the running process resolves it to. *)
Theorem success_is_durable (fl : faults) (m m' : Manager) (o : mop) :
  run_mop fl m o = (m', Ok tt) → cfg_Version (m_cfg m') ≠ 0%Z →
  ∃ m2, NewManager (m_root m) (m_fs m') = Ok m2 ∧ cfg_Networks (m_cfg m2) = cfg_Networks (m_cfg m') ∧
    cfg_Keyrings (m_cfg m2) = cfg_Keyrings (m_cfg m') ∧ cfg_CurrentContext (m_cfg m2) = cfg_CurrentContext (m_cfg m') ∧
    context_names (m_cfg m2) = context_names (m_cfg m') ∧ ∀ env name, Resolve env m2 name = Resolve env m' name.
Proof.
  intros [Er Hd]%run_mop_on_disk Hv. exists (set_cfg (cfg_of (doc_of (m_cfg m'))) m'). split.
  { unfold NewManager. rewrite <- Er, (Load_saved _ _ _ Hd Hv). done. }
  split_and!; try done; [|intros; apply Resolve_reloaded].
  unfold context_names. simpl. rewrite <- !list_fmap_compose. by apply list_fmap_ext.
Qed.

Lemma success_is_durable_witness : ∃ m2,
  NewManager demo_root (m_fs (run_mop no_faults demo_manager (OUseContext "dev")).1) = Ok m2 ∧ CurrentContext m2 = "dev".
Proof.
  destruct (success_is_durable no_faults demo_manager _ (OUseContext "dev") eq_refl) as (m2 & H & _ & _ & Hc & _); [done|].
  by exists m2.
Defined.

(** ** Failure *)

Lemma root_not_config root : Clean root ≠ ConfigPath root.
Proof.
  intros E%(f_equal (λ s, length (bytes_of s))). revert E. rewrite ConfigPath_prefix, bytes_of_app, length_app.
  pose proof (Clean_length root). simpl. lia.
Qed.

(** when [UpdateContextAndNetwork] does not succeed, the configuration in
    memory is the one before; the configuration file still has its content too,
    unless the save got past creating the file. *)
Theorem failed_update_rolls_back (fl : faults) (m m' : Manager) (name forkName : string)
    (applyContext : option (Context_ → Context_ * result unit)) (applyNetwork : option (Network → Network * result unit)) (r : result unit) :
  UpdateContextAndNetwork fl m name forkName applyContext applyNetwork = (m', r) → r ≠ Ok tt →
  m_cfg m' = m_cfg m ∧
  ((∀ s e, f_save fl = Some (s, e) → s = AtMkdir ∨ s = AtCreate) →
   m_fs m' !! ConfigPath (m_root m) = m_fs m !! ConfigPath (m_root m)).
Proof.
  intros E Hr. split; [by apply UpdateContext_cases in E as [[? _]|(? & ? & ? & _ & _ & ?)]|]. intros Hs.
  revert E. unfold UpdateContextAndNetwork. destruct (plan_update _ _ _ _ _) as [[[i c] u]|e|]; [|by intros; simplify_eq..].
  unfold save, SaveConfig. destruct (f_save fl) as [[s e]|] eqn:Ef; [|by intros; simplify_eq].
  destruct (Hs s e eq_refl) as [->| ->]; simpl; intros; simplify_eq/=; [done|].
  apply MkdirAll_lookup_ne. intros ?%eq_sym%root_not_config. done.
Qed.

(** A disk that is full when the file is written: nothing of it is there. *)
Definition disk_full : faults := MkFaults (Some (AtWriteHeader, Sentinel "no space left on device")) (Parsed zero_doc) None None None None.

Lemma failed_update_rolls_back_witness :
  m_cfg (UpdateContext disk_full demo_manager "dev" (λ c, (set_ctx_Gas "200000" c, Ok tt))).1 = demo_cfg.
Proof.
  refine (proj1 (failed_update_rolls_back disk_full demo_manager _ "dev" "" (Some (λ c, (set_ctx_Gas "200000" c, Ok tt))) None _ eq_refl _)).
  vm_compute. discriminate.
Defined.



(** ** Files *)

(** A save touches nothing inside the directory of a context. *)
Lemma save_outside fl m n q : f_save fl = None → plain n → under (ContextDir (m_root m) n) q = true →
  m_fs (save fl m).1 !! q = m_fs m !! q.
Proof.
  intros Hs Hn Hq. rewrite save_no_fault by done. simpl.
  rewrite lookup_insert_ne by (intros <-; rewrite config_outside in Hq; done).
  apply MkdirAll_lookup_ne. intros ->. by rewrite root_outside in Hq.
Qed.

Lemma under_refl p : under p p = true.
Proof. apply under_spec. exists []. rewrite app_nil_r. auto. Qed.

Lemma get_after_filter l n name : n ≠ name →
  snd <$> list_find (λ c, ctx_Name c = n) (List.filter (λ c, negb (bool_decide (ctx_Name c = name))) l) =
  snd <$> list_find (λ c, ctx_Name c = n) l.
Proof.
  intros Hne. induction l as [|c l IH]; [done|]. cbn [List.filter]. case_bool_decide as Hc; cbn [negb list_find].
  - rewrite decide_False by congruence. rewrite IH. by destruct (list_find _ l) as [[]|].
  - case_decide; [done|]. destruct (list_find _ (List.filter _ l)) as [[]|], (list_find _ l) as [[]|]; done.
Qed.

Lemma get_filtered l name :
  list_find (λ c, ctx_Name c = name) (List.filter (λ c, negb (bool_decide (ctx_Name c = name))) l) = None.
Proof.
  apply eq_None_not_Some. rewrite (find_in ctx_Name), names_filter_elem. tauto.
Qed.

(** deleting a context that has a plain name (no slash, not [.] or [..])
    removes it and, unless the data is kept, exactly the files of its directory;
    every other context and the files of its directory stay. *)
Theorem DeleteContext_effect (fl : faults) (m : Manager) (name : string) (keepData : bool) :
  f_save fl = None → f_removeall fl = None → plain name → CurrentContext m ≠ name → is_Some (GetContext m name) →
  ∃ m', DeleteContext fl m name keepData = (m', Ok tt) ∧ GetContext m' name = None ∧
    (∀ n, n ≠ name → GetContext m' n = GetContext m n) ∧
    (∀ q, under (ContextDir (m_root m) name) q = true → m_fs m' !! q = if keepData then m_fs m !! q else None) ∧
    (∀ n q, plain n → n ≠ name → under (ContextDir (m_root m) n) q = true → m_fs m' !! q = m_fs m !! q).
Proof.
  intros Hs Hrm Hp Hc Hg. unfold DeleteContext. rewrite bool_decide_eq_false_2 by done.
  unfold GetContext in Hg. destruct (getContext (m_cfg m) name) as [p|] eqn:E; [|by destruct Hg]. rewrite Hrm. cbv zeta.
  set (m1 := if keepData then _ else _).
  assert (m_root m1 = m_root m ∧ m_cfg m1 = with_contexts (List.filter (λ c, negb (bool_decide (ctx_Name c = name))) (cfg_Contexts (m_cfg m))) (m_cfg m)
    ∧ m_fs m1 = if keepData then m_fs m else os_RemoveAll (ContextDir (m_root m) name) (m_fs m)) as (Er & Ec & Ef) by by destruct keepData.
  clearbody m1. exists (save fl m1).1. pose proof (save_no_fault fl m1 Hs) as Es.
  split_and!; [by rewrite Es|..].
  - rewrite Es. unfold GetContext, getContext. simpl. rewrite Ec. simpl. by rewrite get_filtered.
  - intros n Hn. rewrite Es. unfold GetContext, getContext. simpl. rewrite Ec. simpl. by apply get_after_filter.
  - intros q Hq. rewrite (save_outside _ _ name), Ef by (by rewrite ?Er). destruct keepData; [done|]. by rewrite RemoveAll_lookup, Hq.
  - intros n q Hn Hne Hq. rewrite (save_outside _ _ n), Ef by (by rewrite ?Er). destruct keepData; [done|]. rewrite RemoveAll_lookup.
    destruct (under (ContextDir (m_root m) name) q) eqn:Eq; [|done]. destruct Hne. by eapply contexts_disjoint.
Qed.

Lemma DeleteContext_effect_witness : ∃ m', DeleteContext no_faults demo_manager "dev" false = (m', Ok tt) ∧
  m_fs m' !! StoreDBPath demo_root "dev" = None ∧ m_fs m' !! StoreDBPath demo_root "prod" = Some (NData "prod records").
Proof.
  destruct (DeleteContext_effect no_faults demo_manager "dev" false) as (m' & H & _ & _ & H1 & H2);
    [done|done|by apply (bool_decide_unpack _)|by vm_compute|by eexists|].
  exists m'. split_and!; [done|by apply H1|]. rewrite (H2 "prod"); [done|by apply (bool_decide_unpack _)|done|done].
Defined.

(** the name of a context is not checked, and a context named [..] has the
    configuration root as its directory: deleting it removes every file under the
    root, the stores, logs and credentials of all other contexts included. *)
Theorem DeleteContext_dotdot (fl : faults) (m : Manager) :
  m_root m ≠ "" → f_save fl = None → f_removeall fl = None → CurrentContext m ≠ ".." → is_Some (GetContext m "..") →
  ∃ m', DeleteContext fl m ".." false = (m', Ok tt) ∧
    ∀ q, under (Clean (m_root m)) q = true → q ≠ Clean (m_root m) → q ≠ ConfigPath (m_root m) → m_fs m' !! q = None.
Proof.
  intros Hr Hs Hrm Hc Hg. unfold DeleteContext. rewrite bool_decide_eq_false_2 by done.
  unfold GetContext in Hg. destruct (getContext (m_cfg m) "..") as [p|]; [|by destruct Hg]. rewrite Hrm, save_no_fault by done.
  eexists. split; [done|]. intros q Hu Hn Hn'. simpl. rewrite lookup_insert_ne, MkdirAll_lookup_ne, ContextDir_dotdot by done.
  by rewrite RemoveAll_lookup, Hu.
Qed.

Lemma DeleteContext_dotdot_witness : ∃ m', (CreateContext no_faults demo_manager (demo_context "..")).2 = Ok tt ∧
  DeleteContext no_faults (CreateContext no_faults demo_manager (demo_context "..")).1 ".." false = (m', Ok tt) ∧
  m_fs m' !! StoreDBPath demo_root "prod" = None.
Proof.
  destruct (DeleteContext_dotdot no_faults (CreateContext no_faults demo_manager (demo_context "..")).1) as (m' & H1 & H2);
    [by vm_compute|done|done|by vm_compute|by eexists|].
  exists m'. split_and!; [by vm_compute|done|]. apply H2; by vm_compute.
Defined.

(** With distinct names, a lookup finds exactly the entry of that name. *)
Lemma get_spec (l : list Context_) n c : NoDup (ctx_Name <$> l) →
  snd <$> list_find (λ x, ctx_Name x = n) l = Some c ↔ c ∈ l ∧ ctx_Name c = n.
Proof.
  intros HN. split.
  - intros ([i x] & E & ?)%fmap_Some. simplify_eq/=. apply find_some in E as [Hi Hn]. split; [by eapply list_elem_of_lookup_2|done].
  - intros [[i Hi]%list_elem_of_lookup Hn]. by rewrite (find_unique _ _ _ i c).
Qed.

Lemma get_ext (l l' : list Context_) n : NoDup (ctx_Name <$> l) → NoDup (ctx_Name <$> l') →
  (∀ c, ctx_Name c = n → c ∈ l ↔ c ∈ l') →
  snd <$> list_find (λ x, ctx_Name x = n) l = snd <$> list_find (λ x, ctx_Name x = n) l'.
Proof.
  intros H1 H2 H. apply option_eq. intros c. rewrite !get_spec by done. naive_solver.
Qed.

(** The contexts after a rename. *)
Lemma renamed_contexts l i c old new : NoDup (ctx_Name <$> l) → l !! i = Some c → ctx_Name c = old → new ∉ ctx_Name <$> l →
  let l' := <[i := set_ctx_Name new c]> l in
  snd <$> list_find (λ x, ctx_Name x = new) l' = Some (set_ctx_Name new c) ∧
  snd <$> list_find (λ x, ctx_Name x = old) l' = None ∧
  ∀ n, n ≠ old → n ≠ new → snd <$> list_find (λ x, ctx_Name x = n) l' = snd <$> list_find (λ x, ctx_Name x = n) l.
Proof.
  intros HN Hi Ho Hf l'. assert (ctx_Name (set_ctx_Name new c) = new) as En by by destruct c.
  assert (NoDup (ctx_Name <$> l')) as HN' by (eapply names_rename; [done..|by rewrite En]).
  assert (i < length l)%nat as Hlt by by eapply lookup_lt_Some.
  assert (∀ x, x ∈ l' ↔ x = set_ctx_Name new c ∨ ∃ j, j ≠ i ∧ l !! j = Some x) as Hin.
  { intros x. rewrite list_elem_of_lookup. split.
    - intros [j Hj]. destruct (decide (j = i)) as [->|Hji]; [left|right; exists j].
      + unfold l' in Hj. rewrite list_lookup_insert_eq in Hj by done. by simplify_eq.
      + unfold l' in Hj. by rewrite list_lookup_insert_ne in Hj.
    - intros [->|(j & Hji & Hj)]; [exists i; by apply list_lookup_insert_eq|exists j]. unfold l'. by rewrite list_lookup_insert_ne. }
  assert (∀ j x, l !! j = Some x → ctx_Name x = old → j = i) as Hu.
  { intros j x Hj Hx. apply (NoDup_lookup (ctx_Name <$> l) j i old HN); rewrite list_lookup_fmap; [rewrite Hj|rewrite Hi]; simpl; congruence. }
  split_and!.
  - apply get_spec; [done|]. split; [apply Hin; by left|done].
  - apply eq_None_not_Some. intros [x E]. apply get_spec in E as [Hx Ex]; [|done]. apply Hin in Hx as [->|(j & Hji & Hj)]; [|by destruct Hji; eapply Hu].
    destruct Hf. rewrite <- En, Ex, <- Ho. apply list_elem_of_fmap_2. by eapply list_elem_of_lookup_2.
  - intros n Hno Hnn. apply get_ext; [done..|]. intros x Hx. rewrite Hin, list_elem_of_lookup. split.
    + intros [->|(j & _ & Hj)]; [congruence|by exists j].
    + intros [j Hj]. right. exists j. split; [|done]. intros ->. rewrite Hi in Hj. by simplify_eq.
Qed.

(** The files after a rename, before the save. *)
Definition files_moved (root old new : string) (f f' : fs) : Prop :=
  (∀ q, under (ContextDir root old) q = true →
     f' !! moved (ContextDir root old) (ContextDir root new) q = f !! q ∧ f' !! q = None) ∧
  (∀ n q, plain n → n ≠ old → n ≠ new → under (ContextDir root n) q = true → f' !! q = f !! q).

Lemma exists_under p f : os_exists p f = false → ∀ q, under p q = true → f !! q = None.
Proof.
  intros E q Hq. apply eq_None_not_Some. intros [x Hx]. apply not_true_iff_false in E. apply E, existsb_exists.
  exists (q, x). split; [by apply list_elem_of_In, elem_of_map_to_list|done].
Qed.

Lemma rename_files root old new f f' : plain old → plain new → old ≠ new →
  (∀ q, under (ContextDir root new) q = true → f !! q = None) →
  (if os_exists (ContextDir root old) f then os_Rename (ContextDir root old) (ContextDir root new) f = Ok f' else f' = f) →
  files_moved root old new f f'.
Proof.
  intros Ho Hn Hne Hfree E. set (O := ContextDir root old) in *. set (N := ContextDir root new) in *.
  assert (∀ q n n', plain n → plain n' → n ≠ n' → under (ContextDir root n) q = true → under (ContextDir root n') q = false) as Hdis.
  { intros q n n' H1 H2 H3 Hu. apply not_true_iff_false. intros Hu'. destruct H3. by eapply contexts_disjoint. }
  assert (∀ q, under N q = false → q ≠ N ∧ String.prefix (N +:+ "/") q = false) as Hout.
  { intros q [H1 H2]%orb_false_iff. apply bool_decide_eq_false in H1. done. }
  assert (O ≠ N) as HON.
  { intros EON. pose proof (Hdis O old new Ho Hn Hne (under_refl O)) as H. fold N in H. rewrite <- EON, under_refl in H. done. }
  destruct (os_exists O f) eqn:Ex.
  - split.
    + intros q Hq. pose proof (Hdis q old new Ho Hn Hne Hq) as Hq'. fold N in Hq'. destruct (Hout _ Hq').
      split; [by eapply Rename_lookup|by eapply Rename_gone].
    + intros n q Hpn H1 H2 Hq. pose proof (Hdis q n new Hpn Hn H2 Hq) as Hq'. fold N in Hq'. destruct (Hout _ Hq').
      rewrite <- (Rename_lookup O N f f' q) by done. by rewrite moved_out by by apply (Hdis q n old).
  - subst f'. split; [|done]. intros q Hq. rewrite (exists_under _ _ Ex q Hq). split; [|done]. apply Hfree. by apply moved_in.
Qed.

(** Nothing stands in the way of the rename. *)
Lemma Rename_succeeds root old new f : plain old → plain new → old ≠ new →
  (∀ q, under (ContextDir root new) q = true → f !! q = None) →
  ∃ f', os_Rename (ContextDir root old) (ContextDir root new) f = Ok f'.
Proof.
  intros Ho Hn Hne Hfree. set (O := ContextDir root old). set (N := ContextDir root new) in *.
  assert (under O N = false) as HON.
  { apply not_true_iff_false. intros H. apply Hne. eapply contexts_disjoint; [done..|exact H|apply under_refl]. }
  unfold os_Rename. rewrite bool_decide_eq_false_2 by (intros E; rewrite E, under_refl in HON; done). rewrite HON.
  rewrite no_prefix_intro, (Hfree N (under_refl N)); [by eexists|]. intros q x Hq. apply not_true_iff_false. intros Hp.
  rewrite (Hfree q) in Hq; [done|]. unfold under. by rewrite Hp, orb_true_r.
Qed.

(** renaming a context to a free plain name renames it in the configuration,
    lets the current context follow, leaves every other context alone, and moves
    its files (store, log, credential) to the new directory. *)
Theorem RenameContext_effect (fl : faults) (m : Manager) (old new : string) (c : Context_) :
  f_save fl = None → f_rename fl = None → cfg_wf (m_cfg m) → plain old → plain new →
  GetContext m old = Some c → GetContext m new = None →
  (∀ q, under (ContextDir (m_root m) new) q = true → m_fs m !! q = None) →
  ∃ m', RenameContext fl m old new = (m', Ok tt) ∧
    GetContext m' new = Some (set_ctx_Name new c) ∧ GetContext m' old = None ∧
    (∀ n, n ≠ old → n ≠ new → GetContext m' n = GetContext m n) ∧
    CurrentContext m' = (if bool_decide (CurrentContext m = old) then new else CurrentContext m) ∧
    files_moved (m_root m) old new (m_fs m) (m_fs m').
Proof.
  intros Hs Hf Hwf Ho Hn Hgo Hgn Hfree. unfold GetContext in Hgo, Hgn.
  destruct (getContext (m_cfg m) new) as [|] eqn:En; [done|]. destruct (getContext (m_cfg m) old) as [[i c']|] eqn:Eo; [|done].
  simplify_eq/=. pose proof Eo as [Hi Hc]%find_some. assert (old ≠ new) as Hne by congruence.
  destruct (Rename_succeeds (m_root m) old new (m_fs m)) as [f' Ef]; [done..|].
  assert (∃ m', RenameContext fl m old new = (m', Ok tt)) as [m' Er].
  { unfold RenameContext. rewrite En, Eo, Hf, Ef. cbv zeta. destruct (os_exists _ _); simpl; rewrite save_no_fault by done; by eexists. }
  exists m'. split; [done|]. apply RenameContext_cases in Er as [[_ ?]|(i' & c' & f & _ & Eo' & Efs & Es)]; [done|].
  rewrite Eo in Eo'. simplify_eq. pose proof (save_fields _ _ _ _ Es) as [Ec Er]. simpl in Ec, Er.
  destruct (renamed_contexts (cfg_Contexts (m_cfg m)) i' c' (ctx_Name c') new) as (H1 & H2 & H3); [apply Hwf|done|done|by apply find_none|].
  assert (cfg_Contexts (m_cfg m') = <[i' := set_ctx_Name new c']> (cfg_Contexts (m_cfg m))) as Ecs by (rewrite Ec; by case_bool_decide).
  unfold GetContext, getContext. rewrite Ecs. split_and!; [done..| |].
  - unfold CurrentContext. rewrite Ec. simpl. by case_bool_decide.
  - assert (files_moved (m_root m) (ctx_Name c') new (m_fs m) f) as [Hmv Hot].
    { apply rename_files; try done. destruct (os_exists _ _); [apply Efs|done]. }
    assert (∀ n q, plain n → under (ContextDir (m_root m) n) q = true → m_fs m' !! q = f !! q) as Hsame.
    { intros n q Hpn Hq. match type of Es with save _ ?m1 = _ => pose proof (save_outside fl m1 n q Hs Hpn Hq) as H end. by rewrite Es in H. }
    split.
    + intros q Hq. destruct (Hmv q Hq) as [<- <-]. split; [apply (Hsame new); [done|by apply moved_in]|by apply (Hsame (ctx_Name c'))].
    + intros n q Hpn ? ? Hq. rewrite (Hsame n) by done. by apply (Hot n).
Qed.

Lemma RenameContext_effect_witness : ∃ m', RenameContext no_faults demo_manager "prod" "live" = (m', Ok tt) ∧
  CurrentContext m' = "live" ∧ m_fs m' !! StoreDBPath demo_root "live" = Some (NData "prod records").
Proof.
  destruct (RenameContext_effect no_faults demo_manager "prod" "live" (demo_context "prod")) as (m' & H & _ & _ & _ & Hc & Hf & _);
    [done|done|apply demo_wf|by apply (bool_decide_unpack _)|by apply (bool_decide_unpack _)|done|done| |].
  { intros q Hq. apply (exists_under (ContextDir demo_root "live")); [by vm_compute|done]. }
  exists m'. split_and!; [done|by rewrite Hc|]. by destruct (Hf (StoreDBPath demo_root "prod") eq_refl) as [H1 _].
Defined.

(** ** Creating *)

Lemma MkdirAll_there p f : is_Some (os_MkdirAll p f !! Clean p).
Proof. unfold os_MkdirAll. destruct (f !! Clean p) eqn:E; [by rewrite E|]. rewrite lookup_insert_eq. by eexists. Qed.

Lemma MkdirAll_keeps p f q : is_Some (f !! q) → is_Some (os_MkdirAll p f !! q).
Proof.
  intros H. unfold os_MkdirAll. destruct (f !! Clean p) eqn:E; [done|]. destruct (decide (q = Clean p)) as [->|].
  - rewrite lookup_insert_eq. by eexists.
  - by rewrite lookup_insert_ne.
Qed.

Ltac system_call_failed :=
  eexists _, _; split_and!; [reflexivity|done|split; [done|by intros (? & ? & ?)]|done|done].

(** [CreateContext] rejects a context that fails its checks and changes
    nothing; it otherwise succeeds exactly when no system call fails, adds the
    checked context with its defaults filled in and creates its directories; when
    a system call fails the configuration in memory is the one before. *)
Theorem CreateContext_effect (fl : faults) (m : Manager) (c : Context_) :
  match prepare_context (m_cfg m) c with
  | Ok c' => ∃ m' r, CreateContext fl m c = (m', r) ∧ r ≠ Panic ∧
      (r = Ok tt ↔ f_mkdir_context fl = None ∧ f_mkdir_store fl = None ∧ f_save fl = None) ∧
      (r = Ok tt → m_cfg m' = with_contexts (cfg_Contexts (m_cfg m) ++ [c']) (m_cfg m) ∧ GetContext m' (ctx_Name c) = Some c' ∧
         is_Some (m_fs m' !! Clean (StoreDir (m_root m) (ctx_Name c)))) ∧
      (r ≠ Ok tt → m_cfg m' = m_cfg m)
  | Err e => CreateContext fl m c = (m, Err e)
  | Panic => False
  end.
Proof.
  destruct (prepare_context (m_cfg m) c) as [c'|e|] eqn:Ep.
  - pose proof Ep as (En & _ & Hf & _)%prepare_context_ok. unfold CreateContext. rewrite Ep. unfold EnsureContextDirs.
    destruct (f_mkdir_context fl) as [e|]; [solve [system_call_failed]|].
    destruct (f_mkdir_store fl) as [e|]; [solve [system_call_failed]|]. cbv zeta.
    match goal with |- context [save fl ?mm] => set (m1 := mm) end.
    pose proof (save_not_panic fl m1) as Hnp. pose proof (save_ok_iff fl m1) as Hok. destruct (save fl m1) as [m' r] eqn:Es.
    simpl in Hnp, Hok. destruct r as [[]|e|]; [|solve [destruct (f_save fl); [system_call_failed|by (destruct Hok as [_ Hok]; specialize (Hok eq_refl))]]|done].
    eexists _, _. split; [done|]. pose proof (save_fields _ _ _ _ Es) as [Ec _]. split_and!; [done|by rewrite <- Hok| |done].
    intros _. split_and!; [by rewrite Ec|..].
    + unfold GetContext, getContext. rewrite Ec. simpl. rewrite list_find_app_r.
      * simpl. by rewrite decide_True.
      * apply eq_None_not_Some. rewrite (find_in ctx_Name). done.
    + pose proof (save_no_fault fl m1 (proj1 Hok eq_refl)) as E2. rewrite Es in E2. simplify_eq/=. rewrite En.
      match goal with |- is_Some (<[?k := _]> _ !! ?q) => destruct (decide (k = q)) as [->|] end.
      * rewrite lookup_insert_eq. by eexists.
      * rewrite lookup_insert_ne by done. apply MkdirAll_keeps, MkdirAll_there.
  - unfold CreateContext. by rewrite Ep.
  - revert Ep. unfold prepare_context, ResolveProviderAuthType, mbind, result_bind, failf. clear. repeat case_match; by simplify_eq.
Qed.

(** ** The credential *)

(** a stored Console API key without white space around it reads back as it
    was given, and an empty key removes it; no other file changes but the
    directory of the context, which is there afterwards. *)
Theorem SetConsoleAPIKey_roundtrip (fl : key_faults) (root name key : string) (f f' : fs) :
  SetConsoleAPIKey fl root name key f = (f', Ok tt) → TrimSpace key = key →
  StoredConsoleAPIKey root name f' = Ok key ∧
  ∀ q, q ≠ ConsoleAPIKeyPath root name → q ≠ Clean (ContextDir root name) → f' !! q = f !! q.
Proof.
  unfold SetConsoleAPIKey, StoredConsoleAPIKey. intros E Ht. case_bool_decide as Hk.
  - subst key. destruct (f !! ConsoleAPIKeyPath root name) eqn:Ef.
    + destruct (k_remove fl); [done|]. injection E as <-. rewrite lookup_delete_eq. split; [done|]. intros. by rewrite lookup_delete_ne.
    + injection E as <-. by rewrite Ef.
  - destruct (k_mkdir fl); [done|]. destruct (k_write fl) as [[]|]; [done|]. destruct (k_chmod fl); [done|]. injection E as <-.
    rewrite lookup_insert_eq. split; [by rewrite TrimSpace_newline|]. intros. rewrite lookup_insert_ne by done. by apply MkdirAll_lookup_ne.
Qed.

Lemma SetConsoleAPIKey_roundtrip_witness :
  StoredConsoleAPIKey demo_root "prod" (SetConsoleAPIKey (MkKeyFaults None None None None) demo_root "prod" "ac.sk.test" demo_fs).1 = Ok "ac.sk.test".
Proof. refine (proj1 (SetConsoleAPIKey_roundtrip (MkKeyFaults None None None None) demo_root "prod" "ac.sk.test" demo_fs _ eq_refl _)). by vm_compute. Defined.
