(* ===== verification/Workflow.v ===== *)
(** * The workflow engine (internal/workflow)

    Definitions, run state, templates, the loader and the engine's loop with its
    retries. [W] is the world outside the process: the chain, the providers, the
    terminal, the clock and the cancellation of the context; a call that has an
    effect takes it and returns it. text/template and yaml.v3 are parameters, as
    is the rendering of durations; [Duration] fields are wall-clock measurements
    and are left out. *)

From Stdlib Require Import Ascii.
From stdpp Require Import sorting base gmap strings pretty option numbers list.
From S2P Require Import Prelude GoStd GoJson Context.

(** ** Definitions (types.go) *)
Definition StepTx : string := "tx".
Definition StepQuery : string := "query".
Definition StepWait : string := "wait".
Definition StepPrompt : string := "prompt".
Definition StepProvider : string := "provider".
Definition StepOutput : string := "output".
Definition StepShell : string := "shell".
Definition StepCheck : string := "check".

Definition OnErrorAbort : string := "abort".
Definition OnErrorContinue : string := "continue".
Definition OnErrorSkip : string := "skip".

Record ParamDef : Type := MkParamDef { pd_Type : string; pd_Required : bool; pd_Default : string; pd_Description : string }.
Record RetryDef : Type := MkRetryDef { rd_Max : Z; rd_Delay : string }.

Record StepDef : Type := MkStepDef {
  sd_Name : string; sd_Type : string; sd_Msg : string; sd_Query : string;
  sd_Timeout : string; sd_Until : string; sd_TimeoutError : string;
  sd_Mode : string; sd_Data : string; sd_Columns : list string;
  sd_Action : string; sd_Command : string; sd_Condition : string; sd_Template : string;
  sd_Params : gmap string string; sd_Output : gmap string string;
  sd_OnError : string; sd_Retry : option RetryDef; sd_OnFail : string;
}.

Record WorkflowDef : Type := MkWorkflowDef {
  wf_Name : string; wf_Description : string; wf_Long : string; wf_Example : string; wf_Version : Z;
  wf_Params : gmap string ParamDef; wf_Steps : list StepDef;
}.

(** [any], as far as the package builds such values: decoded JSON, integers,
    string slices, and the text of an error (empty for none). *)
Inductive value : Type :=
| VJson (j : json)
| VInt (z : Z)
| VStrings (l : option (list string))
| VErr (e : option error).

Definition VStr (s : string) : value := VJson (JStr s).

(** [sr_Error] is the error whose text the field holds, [None] the empty text. *)
Record StepResult : Type := MkStepResult {
  sr_Name : string; sr_Type : string; sr_Status : string; sr_Output : option (gmap string value);
  sr_RawResult : option bytes; sr_Error : option error; sr_TxHash : string; sr_Height : Z;
}.

Record RunState : Type := MkRunState {
  rs_WorkflowID : string; rs_Workflow : string; rs_Account : string; rs_Params : gmap string value;
  rs_Steps : gmap string StepResult; rs_StepOrder : list string;
}.

Definition NewRunState (workflowID workflowName account : string) (params : gmap string value) : RunState :=
  MkRunState workflowID workflowName account params ∅ [].

Definition SetStepResult (name : string) (result : StepResult) (rs : RunState) : RunState :=
  MkRunState (rs_WorkflowID rs) (rs_Workflow rs) (rs_Account rs) (rs_Params rs)
    (<[name := result]> (rs_Steps rs)) (rs_StepOrder rs ++ [name]).

(** A missing key of an output map reads as nil. *)
Definition StepOutput_of (rs : RunState) (stepName key : string) : value :=
  match rs_Steps rs !! stepName with
  | Some sr => match sr_Output sr with Some m => default (VJson JNull) (m !! key) | None => VJson JNull end
  | None => VJson JNull
  end.

(** ** Templates (template.go) *)

(** What a template is executed on; [td_Result] is only there for conditions and
    outputs. *)
Record tdata : Type := MkTData {
  td_Account : string; td_WorkflowID : string; td_Params : gmap string value;
  td_Steps : gmap string (gmap string value); td_Result : option value;
}.

(** text/template with the [toJson] function and [missingkey=zero]. *)
Class TemplateEngine : Type := {
  tmpl : Type;
  tmpl_Parse : string → tmpl + error;
  tmpl_Execute : tmpl → tdata → string + error;
}.

(** A value or an error, without the possibility of a panic. *)
Definition ebind {A B} (f : A → B + error) (x : A + error) : B + error :=
  match x with inl a => f a | inr e => inr e end.
Definition ewrap {A} (f : error → error) (x : A + error) : A + error :=
  match x with inl a => inl a | inr e => inr (f e) end.

Definition buildTemplateData (state : RunState) : tdata :=
  MkTData (rs_Account state) (rs_WorkflowID state) (rs_Params state)
    ((λ sr, <["_error" := VErr (sr_Error sr)]> (<["_height" := VInt (sr_Height sr)]>
       (<["_tx_hash" := VStr (sr_TxHash sr)]> (<["_status" := VStr (sr_Status sr)]> (default ∅ (sr_Output sr))))))
     <$> rs_Steps state) None.

Definition with_result (v : value) (d : tdata) : tdata :=
  MkTData (td_Account d) (td_WorkflowID d) (td_Params d) (td_Steps d) (Some v).

(** [strings.Contains(s, "{{")]. *)
Fixpoint has_marker (s : string) : bool :=
  match s with
  | String "{" ((String "{" _) as _) => true
  | String _ s => has_marker s
  | EmptyString => false
  end%char.

Section templates.
Context `{TE : TemplateEngine}.

Definition run_template (text : string) (data : tdata) : string + error :=
  ebind (λ t,
    ebind (λ out, inl (TrimSpace out))
      (ewrap (Wrapf "execute template %q: %w" [text]) (tmpl_Execute t data)))
    (ewrap (Wrapf "parse template %q: %w" [text]) (tmpl_Parse text)).

Definition ResolveTemplate (text : string) (state : RunState) : string + error :=
  if bool_decide (text = "") then inl ""
  else if negb (has_marker text) then inl text
  else run_template text (buildTemplateData state).

(** Go visits the map in an unspecified order, so which of several failing
    parameters is reported is unspecified too; here it is the first in the order
    of [map_to_list]. *)
Definition ResolveParams (params : gmap string string) (state : RunState) : gmap string string + error :=
  foldl (λ acc kv, ebind (λ resolved, ebind (λ r, inl (<[kv.1 := r]> resolved))
                       (ewrap (Wrapf "resolve param %q: %w" [kv.1]) (ResolveTemplate kv.2 state))) acc)
    (inl ∅) (map_to_list params).

Definition resolveWithResult (text : string) (state : RunState) (r : value) : string + error :=
  if negb (has_marker text) then inl text
  else run_template text (with_result r (buildTemplateData state)).

(** [json.Unmarshal(raw, &v)] for an [any]: nil when it fails. *)
Definition decode_any (raw : option bytes) : value :=
  match raw with Some (Text j) => VJson j | _ => VJson JNull end.

(** [json.Unmarshal(raw, &m)] for a [map[string]any], nil when it fails. *)
Definition decode_map (raw : option bytes) : option (gmap string value) :=
  match raw with
  | Some (Text (JObj kvs)) => Some (foldl (λ m kv, <[kv.1 := VJson kv.2]> m) ∅ kvs)
  | _ => None
  end.

(** An output whose template fails is nil; the function itself never fails. *)
Definition ExtractOutputs (outputDefs : gmap string string) (raw : option bytes) (state : RunState)
    : option (gmap string value) + error :=
  if bool_decide (outputDefs = ∅) then inl (decode_map raw)
  else inl (Some ((λ text, match resolveWithResult text state (decode_any raw) with
                           | inl s => VStr s
                           | inr _ => VJson JNull
                           end) <$> outputDefs)).

Definition EvalCondition (condition : string) (data : option bytes) (state : RunState) : bool + error :=
  if bool_decide (condition = "") then inl true
  else ebind (λ rendered, inl (negb (bool_decide (TrimSpace rendered ∈ [""; "false"; "0"; "<no value>"]))))
         (resolveWithResult condition state (decode_any data)).
End templates.

(** ** Bid selection (params.go) *)

(** cosmos-sdk's bech32 decoding and the account prefix of the chain. *)
Class Bech32 : Type := {
  bech32_DecodeAndConvert : string → (string * string) + error;
  Bech32PrefixAccAddr : string;
}.

(** [strings.CutPrefix]. *)
Definition CutPrefix (p s : string) : option string := of_bytes <$> strip_prefix (bytes_of p) (bytes_of s).

Definition ValidateBidSelection `{Bech32} (value : string) : option error :=
  if bool_decide (value = "interactive" ∨ value = "cheapest") then None
  else match CutPrefix "provider=" value with
       | None => Some (Errorf "invalid bid selection %q: use interactive, cheapest, or provider=<full-address>" [value])
       | Some provider =>
           if bool_decide (provider = "") then Some (Errorf "invalid bid selection %q: provider address cannot be empty" [value])
           else match bech32_DecodeAndConvert provider with
                | inr e => Some (Wrapf "invalid bid selection %q: invalid provider address: %w" [value] e)
                | inl (hrp, address) =>
                    if negb (bool_decide (hrp = Bech32PrefixAccAddr)) || negb (length (bytes_of address) =? 20)%nat
                    then Some (Errorf "invalid bid selection %q: invalid provider address: expected a full %s account address" [value; Bech32PrefixAccAddr])
                    else None
                end
       end.

(** The lexer of encoding/json: the tree of a text that is one JSON document. *)
Class Lexer : Type := { json_Parse : string → option json }.

(** The members of an object as a map: of two with one name the later counts. *)
Definition members (kvs : list (string * json)) : gmap string json := foldl (λ m kv, <[kv.1 := kv.2]> m) ∅ kvs.

(** [ParseList]: objects, or null for a nil map; anything else fails. *)
Definition ParseList `{Lexer} (data : string) : list (option (gmap string json)) + error :=
  let data := TrimSpace data in
  if bool_decide (data = "") then inr (Errorf "empty data" [])
  else match json_Parse data with
       | Some JNull => inl []
       | Some (JArr l) =>
           match mapM (λ j, match j with JObj kvs => Some (Some (members kvs)) | JNull => Some None | _ => None end) l with
           | Some items => inl items
           | None => inr (Wrapf "parse list: %w" [] ErrJSON)
           end
       | _ => inr (Wrapf "parse list: %w" [] ErrJSON)
       end.

(** ** Loading definitions (loader.go) *)

(** Reading a file and listing a directory (name and whether it is one). *)
Record Files : Type := MkFiles {
  os_ReadFile : string → result string;
  os_ReadDir : string → result (list (string * bool));
}.

Record Loader : Type := MkLoader { ld_home : string; ld_contextName : string; ld_builtins : gmap string string }.

Section loader.
Context (yaml_Unmarshal : string → result WorkflowDef) (fs : Files).

Definition parseWorkflow (data : string) : result WorkflowDef :=
  wf ← map_err (Wrapf "parse workflow: %w" []) (yaml_Unmarshal data);
  if bool_decide (wf_Name wf = "") then failf "workflow missing required field: name" []
  else match wf_Steps wf with
       | [] => failf "workflow %q has no steps" [wf_Name wf]
       | _ => Ok wf
       end.

Definition loadFromFile (path : string) : result WorkflowDef := data ← os_ReadFile fs path; parseWorkflow data.

Definition context_workflows (l : Loader) : string := Join [ld_home l; "contexts"; ld_contextName l; "workflows"].
Definition global_workflows (l : Loader) : string := Join [ld_home l; "workflows"].

(** A file that cannot be read or parsed is passed over. *)
Definition Load (l : Loader) (name : string) : result WorkflowDef :=
  match (if bool_decide (ld_contextName l = "") then None
         else Some (loadFromFile (Join [ld_home l; "contexts"; ld_contextName l; "workflows"; name +:+ ".yaml"]))) with
  | Some (Ok wf) => Ok wf
  | _ =>
      match loadFromFile (Join [ld_home l; "workflows"; name +:+ ".yaml"]) with
      | Ok wf => Ok wf
      | _ => match ld_builtins l !! name with
             | Some data => parseWorkflow data
             | None => failf "workflow %q not found" [name]
             end
      end
  end.

(** [filepath.Ext] of a name without slashes: from the last dot on. *)
Fixpoint Ext (s : string) : string :=
  match s with
  | EmptyString => EmptyString
  | String c r =>
      match Ext r with
      | EmptyString => if bool_decide (c = "."%char) then s else EmptyString
      | e => e
      end
  end.

Definition strip_ext (name : string) : string :=
  of_bytes (take (length (bytes_of name) - length (bytes_of (Ext name))) (bytes_of name)).

(** [names] with the [seen] set read off it. *)
Definition add_name (names : list string) (name : string) : list string :=
  if bool_decide (name ∈ names) then names else names ++ [name].

Definition addFromDir (dir : string) (names : list string) : list string :=
  match os_ReadDir fs dir with
  | Ok entries =>
      foldl (λ names entry,
               if (entry.2 : bool) then names
               else if negb (bool_decide (Ext entry.1 = ".yaml")) && negb (bool_decide (Ext entry.1 = ".yml")) then names
               else add_name names (strip_ext entry.1)) names entries
  | _ => names
  end.

(** [List]; the built-ins come in an unspecified order. *)
Definition Loader_List (l : Loader) : list string :=
  let names := if bool_decide (ld_contextName l = "") then [] else addFromDir (context_workflows l) [] in
  let names := addFromDir (global_workflows l) names in
  foldl (λ names kv, add_name names kv.1) names (map_to_list (ld_builtins l)).
End loader.

(** ** The engine (engine.go) *)
Section engine.
Context {W : Type}.

(** What [Execute] returns: a result that may be nil, and an error or not. *)
Abbreviation outcome := (option StepResult * option error)%type.

Record StepExecutor : Type := MkExecutor {
  ex_Type : string;
  ex_Execute : W → StepDef → RunState → W * outcome;
}.

(** A map from step types to executors. *)
Abbreviation StepRegistry := (gmap string StepExecutor).

Definition registry_Get (r : StepRegistry) (t : string) : StepExecutor + error :=
  match r !! t with
  | Some e => inl e
  | None => inr (Errorf "no executor registered for step type %q" [t])
  end.

(** The clock and the context: [env_done] is the poll of [ctx.Done()] before a
    step, [env_sleep] a sleep that the context can cut short. *)
Record Env : Type := MkEnv {
  env_done : W → W * option error;
  env_sleep : Z → W → W * option error;
  env_ParseDuration : string → Z + error;
}.

Abbreviation step_logger := (string → nat → StepResult → W → W).

Record WorkflowEngine : Type := MkEngine { en_registry : StepRegistry; en_logger : option step_logger }.

Definition second : Z := 1000000000.

(** The loop over the attempts: [n] are left, [last] is what the previous one
    returned. *)
Fixpoint attempts (env : Env) (ex : StepExecutor) (delay : Z) (step : StepDef) (state : RunState)
    (n : nat) (first : bool) (last : outcome) (w : W) : W * outcome :=
  match n with
  | O => (w, last)
  | S n =>
      let '(w, cancelled) := if first then (w, None) else env_sleep env delay w in
      match cancelled with
      | Some e => (w, (last.1, Some e))
      | None =>
          let '(w, (r, err)) := ex_Execute ex w step state in
          match err with
          | None => (w, (r, None))
          | Some _ => attempts env ex delay step state n false (r, err) w
          end
      end
  end.

Definition failed_result (step : StepDef) (e : error) : StepResult :=
  MkStepResult (sd_Name step) (sd_Type step) "failed" None None (Some e) "" 0.

(** The number of attempts and the delay between them. *)
Definition retry_policy (env : Env) (step : StepDef) : nat * Z :=
  match sd_Retry step with
  | Some rd =>
      if (0 <? rd_Max rd)%Z then
        let delay := if bool_decide (rd_Delay rd = "") then 0%Z
                     else match env_ParseDuration env (rd_Delay rd) with inl d => d | inr _ => 0%Z end in
        (Z.to_nat (rd_Max rd), if (delay =? 0)%Z then (2 * second)%Z else delay)
      else (1, 0%Z)
  | None => (1, 0%Z)
  end.

Definition executeStep (env : Env) (e : WorkflowEngine) (step : StepDef) (state : RunState) (w : W) : W * outcome :=
  match registry_Get (en_registry e) (sd_Type step) with
  | inr err => (w, (Some (failed_result step err), Some err))
  | inl ex =>
      let '(maxAttempts, retryDelay) := retry_policy env step in
      attempts env ex retryDelay step state maxAttempts true (None, None) w
  end.

(** What the rest of the loop body does with an outcome: record it, log it, and
    say whether the workflow stops. *)
Definition record_step (e : WorkflowEngine) (workflowID : string) (i : nat) (step : StepDef) (o : outcome) (state : RunState) (w : W)
    : W * RunState * option error :=
  let state := match o.1 with Some r => SetStepResult (sd_Name step) r state | None => state end in
  let w := match en_logger e, o.1 with Some log, Some r => log workflowID i r w | _, _ => w end in
  match o.2 with
  | None => (w, state, None)
  | Some err =>
      if bool_decide (sd_OnError step = OnErrorContinue ∨ sd_OnError step = OnErrorSkip) then (w, state, None)
      else (w, state, Some (Wrapf "step %q failed: %w" [sd_Name step] err))
  end.

Fixpoint run_steps (env : Env) (e : WorkflowEngine) (workflowID : string) (i : nat) (steps : list StepDef) (state : RunState) (w : W)
    : W * RunState * option error :=
  match steps with
  | [] => (w, state, None)
  | step :: steps =>
      let '(w, cancelled) := env_done env w in
      match cancelled with
      | Some err => (w, state, Some err)
      | None =>
          let '(w, o) := executeStep env e step state w in
          match record_step e workflowID i step o state w with
          | (w, state, Some err) => (w, state, Some err)
          | (w, state, None) => run_steps env e workflowID (S i) steps state w
          end
      end
  end.

(** [Run]; the random identifier is an argument. *)
Definition Engine_Run (env : Env) (e : WorkflowEngine) (workflowID : string) (wf : WorkflowDef) (account : string)
    (params : gmap string value) (w : W) : W * RunState * option error :=
  run_steps env e workflowID 0 (wf_Steps wf) (NewRunState workflowID (wf_Name wf) account params) w.
End engine.
Arguments StepExecutor : clear implicits. Arguments Env : clear implicits. Arguments WorkflowEngine : clear implicits.
