(* ===== verification/Steps.v ===== *)
(** * The built-in steps of a workflow (internal/workflow/steps)

    One executor per step type. The chain, provider, terminal and shell are
    records of the calls the executors make; a client that is not there is
    [None]. Numbers of a JSON document are float64 in Go: they keep their literal
    here, and the conversions of strconv are parameters ([Floats]). *)

From Stdlib Require Import Ascii.
From stdpp Require Import sorting base gmap strings pretty option numbers list.
From S2P Require Import Prelude GoStd GoJson Context Workflow.

(** ** Clients (registry.go) *)
Record TxResult : Type := MkTxResult { tx_TxHash : string; tx_Height : Z; tx_Code : N; tx_Data : option bytes }.

Record ChainClient (W : Type) : Type := MkChainClient {
  cc_BroadcastTx : W → string → gmap string string → W * (TxResult + error);
  cc_Query : W → string → gmap string string → W * (bytes + error);
}.
Arguments cc_BroadcastTx {W}. Arguments cc_Query {W}. Arguments MkChainClient {W}.

(** [SendManifestToActiveLeases] returns the providers it reached also when it
    fails. *)
Record ProviderClient (W : Type) : Type := MkProviderClient {
  pc_SendManifest : W → string → N → string → W * option error;
  pc_SendManifestToActiveLeases : W → N → string → W * (option (list string) * option error);
  pc_LeaseStatus : W → string → N → W * (bytes + error);
}.
Arguments pc_SendManifest {W}. Arguments pc_SendManifestToActiveLeases {W}. Arguments pc_LeaseStatus {W}. Arguments MkProviderClient {W}.

(** What the select of a wait step finds ready. *)
Inductive wait_event : Type := Cancelled (e : error) | Deadline | Tick.

(** The terminal, the shell and the timers. [sys_write] returns the number of
    bytes written; [sys_shell] the output, or the error with what was written to
    stderr; [sys_select] waits for the context, the deadline or the ticker. *)
Record System (W : Type) : Type := MkSystem {
  sys_write : W → string → W * (nat * option error);
  sys_shell : W → string → W * (bytes + error * string);
  sys_select : W → W * wait_event;
  sys_progress : option (W → StepDef → bytes → W);
  sys_read_line : W → list string → W * string;
  sys_duration_text : Z → string;
}.
Arguments sys_write {W}. Arguments sys_shell {W}. Arguments sys_select {W}. Arguments sys_progress {W}.
Arguments sys_read_line {W}. Arguments sys_duration_text {W}. Arguments MkSystem {W}.

(** strconv on float64, and [fmt.Sprint] of the values it cannot be computed for. *)
Class Floats : Type := {
  float64 : Type;
  ParseFloat : string → option float64;
  FormatFloat : float64 → string;
  float_lt : float64 → float64 → bool;
  fmt_Sprint : value → string;
}.

(** An item of a list to select from; [None] is a nil map. *)
Abbreviation item := (option (gmap string json)).

Section steps.
Context {W : Type} `{TE : TemplateEngine} `{FL : Floats} (sys : System W).
Abbreviation outcome := (option StepResult * option error)%type.
Abbreviation executor := (StepExecutor W).

(** Every failure reports a failed result with the name and type of the step;
    [shown] is the error whose text it holds. *)
Definition fails (step : StepDef) (shown : error) (err : error) : outcome := (Some (failed_result step shown), Some err).

Definition succeeds (step : StepDef) (out : option (gmap string value)) (raw : option bytes) : outcome :=
  (Some (MkStepResult (sd_Name step) (sd_Type step) "success" out raw None "" 0), None).

Definition err_no_chain : error := Errorf "chain client not available" [].
Definition err_no_provider : error := Errorf "provider client not available" [].

(** The parameters, or the failure of the step. *)
Definition with_params (step : StepDef) (state : RunState) (w : W) (k : gmap string string → W * outcome) : W * outcome :=
  match ResolveParams (sd_Params step) state with
  | inl params => k params
  | inr e => (w, fails step e (Wrapf "resolve params: %w" [] e))
  end.

(** ** tx (tx.go) *)
Definition TxExecutor_Execute (chain : option (ChainClient W)) (w : W) (step : StepDef) (state : RunState) : W * outcome :=
  match chain with
  | None => (w, fails step err_no_chain err_no_chain)
  | Some chain =>
      with_params step state w (λ params,
        match cc_BroadcastTx chain w (sd_Msg step) params with
        | (w, inr e) => (w, fails step e e)
        | (w, inl r) =>
            match ExtractOutputs (sd_Output step) (tx_Data r) state with
            | inl outputs => (w, (Some (MkStepResult (sd_Name step) (sd_Type step) "success" outputs (tx_Data r) None (tx_TxHash r) (tx_Height r)), None))
            | inr e => (w, (Some (MkStepResult (sd_Name step) (sd_Type step) "failed" None None (Some e) (tx_TxHash r) (tx_Height r)),
                            Some (Wrapf "extract outputs: %w" [] e)))
            end
        end)
  end.

(** ** query (query.go) *)
Definition QueryExecutor_Execute (chain : option (ChainClient W)) (w : W) (step : StepDef) (state : RunState) : W * outcome :=
  match chain with
  | None => (w, fails step err_no_chain err_no_chain)
  | Some chain =>
      with_params step state w (λ params,
        match cc_Query chain w (sd_Query step) params with
        | (w, inr e) => (w, fails step e e)
        | (w, inl data) =>
            match ExtractOutputs (sd_Output step) (Some data) state with
            | inl outputs => (w, succeeds step outputs (Some data))
            | inr e => (w, fails step e (Wrapf "extract outputs: %w" [] e))
            end
        end)
  end.

(** ** provider (provider.go) *)
Definition param (params : gmap string string) (k : string) : string := default "" (params !! k).

Definition parseProviderDSeq (value : string) : N + error :=
  match ParseUint u64_max value with
  | Ok 0%N => inr (Errorf "invalid dseq %q: must be greater than zero" [value])
  | Ok dseq => inl dseq
  | Err e => inr (Wrapf "invalid dseq %q: %w" [value] e)
  | Panic => inr ErrSyntax (* ParseUint does not panic *)
  end.

Definition provider_raw (providers : option (list string)) : bytes :=
  Text (JObj [("count", enc_int (Z.of_nat (length (default [] providers)))); ("providers", enc_slice enc_string providers)]).

Definition ProviderExecutor_Execute (provider : option (ProviderClient W)) (w : W) (step : StepDef) (state : RunState) : W * outcome :=
  match provider with
  | None => (w, fails step err_no_provider err_no_provider)
  | Some provider =>
      with_params step state w (λ params,
        if bool_decide (sd_Action step = "send-manifest") then
          match parseProviderDSeq (param params "dseq") with
          | inr e => (w, fails step e e)
          | inl dseq => match pc_SendManifest provider w (param params "provider") dseq (param params "sdl") with
                        | (w, Some e) => (w, fails step e e)
                        | (w, None) => (w, succeeds step None None)
                        end
          end
        else if bool_decide (sd_Action step = "send-manifest-to-active-leases") then
          match parseProviderDSeq (param params "dseq") with
          | inr e => (w, fails step e e)
          | inl dseq =>
              let '(w, (providers, sendErr)) := pc_SendManifestToActiveLeases provider w dseq (param params "sdl") in
              let outputs : gmap string value :=
                <["providers" := VStrings providers]> {["count" := VInt (Z.of_nat (length (default [] providers)))]} in
              match sendErr with
              | Some e => (w, (Some (MkStepResult (sd_Name step) (sd_Type step) "failed" (Some outputs) (Some (provider_raw providers)) (Some e) "" 0), Some e))
              | None => (w, succeeds step (Some outputs) (Some (provider_raw providers)))
              end
          end
        else if bool_decide (sd_Action step = "lease-status") then
          match parseProviderDSeq (param params "dseq") with
          | inr e => (w, fails step e e)
          | inl dseq => match pc_LeaseStatus provider w (param params "provider") dseq with
                        | (w, inr e) => (w, fails step e e)
                        | (w, inl data) =>
                            (w, succeeds step (match ExtractOutputs (sd_Output step) (Some data) state with inl o => o | inr _ => None end) (Some data))
                        end
          end
        else let e := Errorf "unknown provider action %q" [sd_Action step] in (w, fails step e e))
  end.

(** ** check (check.go) *)
Definition CheckExecutor_Execute (w : W) (step : StepDef) (state : RunState) : W * outcome :=
  match EvalCondition (sd_Condition step) None state with
  | inr e => (w, fails step (Wrapf "eval condition: %s" [] e) (Wrapf "eval condition %q: %w" [sd_Condition step] e))
  | inl true => (w, succeeds step None None)
  | inl false =>
      let shown := Errorf "condition not met: %s" [sd_Condition step] in
      if bool_decide (sd_OnFail step = OnErrorSkip)
      then (w, (Some (MkStepResult (sd_Name step) (sd_Type step) "skipped" None None (Some shown) "" 0), None))
      else (w, fails step shown (Errorf "check failed: condition %q not met" [sd_Condition step]))
  end.

(** ** output (output.go) *)
Definition OutputExecutor_Execute (w : W) (step : StepDef) (state : RunState) : W * outcome :=
  match ResolveTemplate (sd_Template step) state with
  | inr e => (w, fails step e (Wrapf "render output template: %w" [] e))
  | inl rendered =>
      let '(w, (written, err)) := sys_write sys w rendered in
      let err := match err with
                 | None => if bool_decide (written = length (bytes_of rendered)) then None else Some (Sentinel "short write")
                 | Some e => Some e
                 end in
      match err with
      | Some e => (w, fails step e (Wrapf "write output: %w" [] e))
      | None => (w, succeeds step (Some {["text" := VStr rendered]}) None)
      end
  end.

(** ** shell (shell.go) *)
Definition ShellExecutor_Execute (w : W) (step : StepDef) (state : RunState) : W * outcome :=
  match ResolveTemplate (sd_Command step) state with
  | inr e => (w, fails step e (Wrapf "resolve command: %w" [] e))
  | inl cmdStr =>
      match sys_shell sys w cmdStr with
      | (w, inr (e, stderr)) => (w, fails step (Wrapf "%s: %s" [stderr] e) e)
      | (w, inl raw) =>
          (w, succeeds step (match ExtractOutputs (sd_Output step) (Some raw) state with inl o => o | inr _ => None end) (Some raw))
      end
  end.

(** ** wait (wait.go) *)
Definition defaultWaitTimeout : Z := 300 * second.

(** The polls: [fuel] bounds them; [None] is running out of it. *)
Fixpoint poll (chain : ChainClient W) (step : StepDef) (state : RunState) (params : gmap string string) (timeoutError : error)
    (fuel : nat) (w : W) : option (W * outcome) :=
  match fuel with
  | O => None
  | S fuel =>
      let again w :=
        match sys_select sys w with
        | (w, Cancelled e) => Some (w, fails step (Errorf "context cancelled" []) e)
        | (w, Deadline) => Some (w, fails step timeoutError timeoutError)
        | (w, Tick) => poll chain step state params timeoutError fuel w
        end in
      match cc_Query chain w (sd_Query step) params with
      | (w, inr _) => again w
      | (w, inl data) =>
          let w := match sys_progress sys with Some report => report w step data | None => w end in
          match EvalCondition (sd_Until step) (Some data) state with
          | inl true =>
              Some (w, succeeds step (match ExtractOutputs (sd_Output step) (Some data) state with inl o => o | inr _ => None end) (Some data))
          | _ => again w
          end
      end
  end.

(** The timeout of the step, or why it has none. *)
Definition wait_timeout (parse : string → Z + error) (step : StepDef) (state : RunState) : Z + error :=
  if bool_decide (sd_Timeout step = "") then inl defaultWaitTimeout
  else match ResolveTemplate (sd_Timeout step) state with
       | inl resolved =>
           match parse resolved with
           | inl d => if (d <=? 0)%Z then inr (Errorf "wait timeout must be greater than zero" []) else inl d
           | inr e => inr (Wrapf "invalid wait timeout %q: %w" [resolved] e)
           end
       | inr e => inr (Wrapf "resolve wait timeout: %w" [] e)
       end.

Definition wait_timeout_error (step : StepDef) (state : RunState) (timeout : Z) : error + error :=
  if bool_decide (sd_TimeoutError step = "")
  then inl (Errorf "condition was not met; timed out after %s" [sys_duration_text sys timeout])
  else match ResolveTemplate (sd_TimeoutError step) state with
       | inl resolved =>
           if bool_decide (TrimSpace resolved = "") then inr (Errorf "wait timeout error must not be empty" [])
           else inl (Errorf "%s; timed out after %s" [TrimSpace resolved; sys_duration_text sys timeout])
       | inr e => inr (Wrapf "resolve wait timeout error: %w" [] e)
       end.

Definition WaitExecutor_Execute (parse : string → Z + error) (chain : option (ChainClient W)) (fuel : nat)
    (w : W) (step : StepDef) (state : RunState) : option (W * outcome) :=
  match wait_timeout parse step state with
  | inr e => Some (w, fails step e e)
  | inl timeout =>
      match wait_timeout_error step state timeout with
      | inr e => Some (w, fails step e e)
      | inl timeoutError =>
          match chain with
          | None => Some (w, fails step err_no_chain err_no_chain)
          | Some chain =>
              match ResolveParams (sd_Params step) state with
              | inl params => poll chain step state params timeoutError fuel w
              | inr e => Some (w, fails step e (Wrapf "resolve params: %w" [] e))
              end
          end
      end
  end.

(** ** prompt (prompt.go) *)
Definition item_get (i : item) (k : string) : option json := m ← i; m !! k.
Definition as_map (j : option json) : option (gmap string json) :=
  match j with Some (JObj kvs) => Some (members kvs) | _ => None end.

(** A float64 becomes its plain decimal text. *)
Definition normalizeScalar (j : json) : json :=
  match j with
  | JNum lit => match ParseFloat lit with Some f => JStr (FormatFloat f) | None => j end
  | _ => j
  end.

(** The bid inside an item: its [bid] member if that is an object. *)
Definition bid_of (i : item) : item := match as_map (item_get i "bid") with Some b => Some b | None => i end.

Definition bidIdentity (i : item) : gmap string json :=
  let inner := bid_of i in
  let id := match as_map (item_get inner "id") with Some m => Some m | None => inner end in
  let out := foldl (λ out k, match item_get id k with Some v => <[k := normalizeScalar v]> out | None => out end) ∅
               ["owner"; "dseq"; "gseq"; "oseq"; "provider"] in
  match as_map (item_get inner "price") with
  | Some p =>
      let amount := match normalizeScalar (default JNull (p !! "amount")) with JStr s => s | _ => "" end in
      let denom := match p !! "denom" with Some (JStr s) => s | _ => "" end in
      <["price" := JStr (TrimSpace (amount +:+ denom))]> out
  | None => out
  end.

Definition bidPrice (i : item) : option float64 :=
  match as_map (item_get (bid_of i) "price") with
  | None => None
  | Some p => match p !! "amount" with
              | Some (JNum lit) => ParseFloat lit
              | Some (JStr s) => ParseFloat s
              | _ => None
              end
  end.

(** [fmt.Sprintf("%v", v)]. *)
Definition sprint_v (j : json) : string := match j with JStr s => s | _ => fmt_Sprint (VJson j) end.

(** The item with the lowest price; of equal ones the first. *)
Definition cheaper (best : item * option float64) (i : item) : item * option float64 :=
  match bidPrice i with
  | None => best
  | Some price =>
      match best.2 with
      | Some bestPrice => if float_lt price bestPrice then (i, Some price) else best
      | None => (i, Some price)
      end
  end.

Definition selectCheapest (items : list item) : item :=
  match items with
  | [] => None
  | i :: rest => (foldl cheaper (i, bidPrice i) rest).1
  end.

Definition selectByProvider (items : list item) (addr : string) : item :=
  match list_find (λ i, sprint_v <$> bidIdentity i !! "provider" = Some addr) items with
  | Some (_, i) => i
  | None => None
  end.

(** The line that shows an item. *)
Definition item_line (columns : list string) (n : nat) (i : item) : string :=
  let identity := bidIdentity i in
  let parts := omap (λ col, match item_get i col with
                            | Some v => Some (sprint_v v)
                            | None => sprint_v <$> identity !! col
                            end) columns in
  "  " +:+ FormatUint (N.of_nat (S n)) +:+ "  " +:+ strings_Join parts "  ".

Definition interactiveSelect (w : W) (items : list item) (columns : list string) : W * (item + error) :=
  match items with
  | [] => (w, inr (Errorf "no items" []))
  | _ =>
      let '(w, input) := sys_read_line sys w (imap (item_line columns) items) in
      let input := TrimSpace input in
      match ParseInt64 input with
      | Ok n => if (n <? 1)%Z || (Z.of_nat (length items) <? n)%Z then (w, inr (Errorf "invalid selection: %q" [input]))
                else (w, inl (mjoin (items !! Z.to_nat (n - 1))))
      | _ => (w, inr (Errorf "invalid selection: %q" [input]))
      end
  end.

Definition select_item (w : W) (mode : string) (items : list item) (columns : list string) : W * (item + error) :=
  if bool_decide (mode = "interactive") then interactiveSelect w items columns
  else if bool_decide (mode = "cheapest") then (w, inl (selectCheapest items))
  else match CutPrefix "provider=" mode with
       | Some addr => (w, inl (selectByProvider items addr))
       | None => (w, inl None)
       end.

Definition PromptExecutor_Execute `{Bech32} `{Lexer} (w : W) (step : StepDef) (state : RunState) : W * outcome :=
  match ResolveTemplate (sd_Mode step) state with
  | inr e => (w, fails step (Wrapf "resolve bid selection: %s" [] e) (Wrapf "resolve bid selection: %w" [] e))
  | inl mode =>
      match ValidateBidSelection mode with
      | Some e => (w, fails step e e)
      | None =>
          match ResolveTemplate (sd_Data step) state with
          | inr e => (w, fails step (Wrapf "resolve data: %s" [] e) (Wrapf "resolve prompt data: %w" [] e))
          | inl dataRaw =>
              match ParseList dataRaw with
              | inr _ | inl [] => let e := Errorf "no items to select from" [] in (w, fails step e e)
              | inl items =>
                  match select_item w mode items (sd_Columns step) with
                  | (w, inr e) => (w, fails step e e)
                  | (w, inl None) => let e := Errorf "no item selected" [] in (w, fails step e e)
                  | (w, inl (Some selected)) =>
                      let outputs := (VJson <$> bidIdentity (Some selected)) ∪ {["selected" := VJson (JObj (map_to_list selected))]} in
                      (w, succeeds step (Some outputs) None)
                  end
              end
          end
      end
  end.

(** ** The registry (registry.go)

    [fuel] bounds the polls of wait steps; a wait that runs out of it stands for
    one that has not returned, and shows as failed with [stuck]. *)
Definition NewRegistry `{Bech32} `{Lexer} (parse : string → Z + error) (stuck : error) (fuel : nat)
    (chain : option (ChainClient W)) (provider : option (ProviderClient W)) : gmap string executor :=
  list_to_map ((λ e, (ex_Type e, e)) <$>
    [MkExecutor StepTx (TxExecutor_Execute chain);
     MkExecutor StepQuery (QueryExecutor_Execute chain);
     MkExecutor StepWait (λ w step state, default (w, fails step stuck stuck) (WaitExecutor_Execute parse chain fuel w step state));
     MkExecutor StepPrompt PromptExecutor_Execute;
     MkExecutor StepProvider (ProviderExecutor_Execute provider);
     MkExecutor StepOutput OutputExecutor_Execute;
     MkExecutor StepShell ShellExecutor_Execute;
     MkExecutor StepCheck CheckExecutor_Execute]).
End steps.

(** * Transports (internal/transport)

    The two rails wrap a chain client and translate the deposit parameter into
    the form the rail takes. A USD amount is kept exactly, in cents, where the
    code keeps the nearest float64 ([Deposit.USD] is only carried along);
    cosmos-sdk's coin parser is a parameter. *)

Definition KindChain : string := "chain".
Definition KindConsole : string := "console".
Definition depositAuto : string := "auto".
Definition FundingDocsURL : string := "https://akash.network/docs/getting-started/how-funding-works/".

Record Deposit : Type := MkDeposit {
  dep_Raw : string; dep_Auto : bool; dep_IsUSD : bool; dep_USD : N; dep_Coin : string; dep_Bare : bool;
}.

(** ** USD amounts (deposit.go) *)
Definition decimalDigits (s : string) : bool :=
  negb (bool_decide (s = "")) && forallb (byte_in 48 57) (bytes_of s).

Definition looksLikeBareUSD (s : string) : bool :=
  negb (bool_decide (s = ""))
  && forallb (λ c, byte_in 48 57 c || bool_decide (c ∈ ["."; "+"; "-"; "e"; "E"; "_"]%char)) (bytes_of s).

Definition digits_value (s : string) : N := foldl (λ n c, (n * 10 + (N_of_ascii c - 48))%N) 0%N (bytes_of s).

(** The amount in cents of [integer.fraction], at most two digits after the
    point. *)
Definition cents (integer fraction : string) : N :=
  (digits_value integer * 100 +
   match length (bytes_of fraction) with O => 0 | 1%nat => digits_value fraction * 10 | _ => digits_value fraction end)%N.

(** [strconv.ParseFloat] reports a range error from half a unit above the largest
    float64 on. *)
Definition float64_overflow_cents : N := (100 * (2 ^ 1024 - 2 ^ 970))%N.

Definition has_prefix (p s : string) : bool := bool_decide (is_Some (CutPrefix p s)).

Definition parseUSDAmount (s : string) : N + error :=
  let s := TrimSpace s in
  if bool_decide (s = "") then inr (Errorf "missing USD amount" [])
  else if has_prefix "-" s then inr (Errorf "USD amount must not be negative" [])
  else
    let '(integer, fraction, hasPoint) := match split2 "."%char s with Some (l, r) => (l, r, true) | None => (s, "", false) end in
    if bool_decide (integer = "") || negb (decimalDigits integer)
       || (hasPoint && (bool_decide (fraction = "") || negb (decimalDigits fraction)))
    then inr (Errorf "invalid USD amount %q: use plain decimal notation" [s])
    else if hasPoint && (2 <? length (bytes_of fraction))%nat
    then inr (Errorf "USD amount must have at most two fractional digits" [])
    else if (float64_overflow_cents <=? cents integer fraction)%N then inr (Errorf "invalid USD amount %q" [s])
    else inl (cents integer fraction).

(** [s] without a suffix, compared without regard to the case of ASCII letters. *)
Definition lower_byte (c : ascii) : ascii := if byte_in 65 90 c then ascii_of_N (N_of_ascii c + 32) else c.

Definition cutSuffixFold (s suffix : string) : option string :=
  let l := bytes_of s in
  let n := (length l - length (bytes_of suffix))%nat in
  if (length l <? length (bytes_of suffix))%nat then None
  else if bool_decide (List.map lower_byte (drop n l) = List.map lower_byte (bytes_of suffix)) then Some (of_bytes (take n l))
  else None.

Section transport.
Context {W : Type} (ParseDecCoin : string → bool).

Definition ParseDeposit (s : string) : Deposit + error :=
  let t := TrimSpace s in
  let usd rest bare := ebind (λ c, inl (MkDeposit t false true c "" bare)) (ewrap (Wrapf "invalid deposit %q: %w" [s]) (parseUSDAmount rest)) in
  if bool_decide (t = "" ∨ t = depositAuto) then inl (MkDeposit t true false 0 "" false)
  else match CutPrefix "$" t with
       | Some rest => usd rest false
       | None =>
           match cutSuffixFold t "usd" with
           | Some rest => usd rest false
           | None =>
               if looksLikeBareUSD t then usd t true
               else if ParseDecCoin t then inl (MkDeposit t false false 0 t false)
               else inr (Errorf "invalid deposit %q: use auto, a USD amount (e.g. 5usd or $5), or an explicit chain coin amount" [s])
           end
       end.

Definition RailValue (d : Deposit) (kind : string) : string + error :=
  if bool_decide (kind = KindChain) then
    if dep_Auto d then inl (dep_Raw d)
    else if negb (bool_decide (dep_Coin d = "")) then inl (dep_Coin d)
    else if dep_Bare d
    then inr (Errorf "deposit %q: a bare amount has no denomination; use auto (recommended), or specify an explicit coin amount in the network's deployment deposit denomination" [dep_Raw d])
    else inr (Errorf "deposit %q: chain deposits are coins, not USD; use auto (recommended), or specify an explicit coin amount in the network's deployment deposit denomination" [dep_Raw d])
  else if bool_decide (kind = KindConsole) then
    if dep_Auto d then inl ""
    else inr (Errorf "deposit %q: console deployments are funded automatically from your account credits, so they take no deposit; drop the argument. See %s" [dep_Raw d; FundingDocsURL])
  else inr (Errorf "unknown transport kind %q" [kind]).

(** ** The rails (transport.go) *)
Definition translateDepositParam (kind : string) (params : gmap string string) : gmap string string + error :=
  match params !! "deposit" with
  | None => inl params
  | Some raw =>
      ebind (λ dep, ebind (λ value, inl (if bool_decide (value = raw) then params else <["deposit" := value]> params)) (RailValue dep kind))
        (ParseDeposit raw)
  end.

Record railClient : Type := MkRail { rail_kind : string; rail_inner : ChainClient W }.

Definition rail_BroadcastTx (r : railClient) (w : W) (msgType : string) (params : gmap string string) : W * (TxResult + error) :=
  match translateDepositParam (rail_kind r) params with
  | inl translated => cc_BroadcastTx (rail_inner r) w msgType translated
  | inr e => (w, inr e)
  end.

Definition rail_Query (r : railClient) : W → string → gmap string string → W * (bytes + error) := cc_Query (rail_inner r).

(** A rail is a chain client again. *)
Definition rail_client (r : railClient) : ChainClient W := MkChainClient (rail_BroadcastTx r) (rail_Query r).

Definition newChainTransport (inner : ChainClient W) : railClient := MkRail KindChain inner.
Definition newConsoleTransport (inner : ChainClient W) : railClient := MkRail KindConsole inner.
End transport.
