(* ===== verification/WorkflowSpec.v ===== *)
(** * What an executor promises the engine, and how the engine uses it

    The contract, its proof for every built-in executor, and the loop of the engine
    over executors that keep it. *)

From Stdlib Require Import Ascii.
From stdpp Require Import sorting base gmap strings pretty option numbers list.
From S2P Require Import Prelude GoStd GoJson Context Workflow Steps.

(** ** The contract of an executor

    A result is always there and carries the name and type of the step; it is
    [failed] exactly when an error is returned. *)
Record outcome_ok (step : StepDef) (o : option StepResult * option error) (r : StepResult) : Prop := {
  oo_result : o.1 = Some r;
  oo_name : sr_Name r = sd_Name step;
  oo_type : sr_Type r = sd_Type step;
  oo_status : if o.2 then sr_Status r = "failed" else sr_Status r ∈ ["success"; "skipped"];
}.

Class ExecutorLaws {W} (ex : StepExecutor W) : Prop :=
  executor_outcome : ∀ w step state, ∃ r, outcome_ok step (ex_Execute ex w step state).2 r.

Definition registry_ok {W} (reg : gmap string (StepExecutor W)) : Prop := map_Forall (λ _ ex, ExecutorLaws ex) reg.

Section contract.
Context {W : Type} `{TE : TemplateEngine} `{FL : Floats} (sys : System W).

Lemma fails_ok step shown err : outcome_ok step (fails step shown err) (failed_result step shown).
Proof. by split. Qed.

Lemma succeeds_ok step out raw : ∃ r, outcome_ok step (succeeds step out raw) r.
Proof. eexists. split; try done. simpl. set_solver. Qed.

#[local] Hint Resolve fails_ok succeeds_ok : core.
#[local] Hint Extern 1 (∃ _, outcome_ok _ _ _) => eexists; apply fails_ok : core.
#[local] Hint Extern 3 (∃ _, outcome_ok _ _ _) => eexists; split; [reflexivity|done|done|simpl; set_solver] : core.

Lemma with_params_ok step state (w : W) k : (∀ p, ∃ r, outcome_ok step (k p).2 r) → ∃ r, outcome_ok step (with_params step state w k).2 r.
Proof. intros H. unfold with_params. destruct (ResolveParams _ _); simpl; auto. Qed.

#[global] Instance Tx_laws chain : ExecutorLaws (MkExecutor StepTx (TxExecutor_Execute (W:=W) chain)).
Proof.
  intros w step state. simpl. unfold TxExecutor_Execute. destruct chain; simpl; [|auto]. apply with_params_ok. intros p.
  destruct (cc_BroadcastTx _ _ _ _) as [w' [r|e]]; simpl; [|auto]. destruct (ExtractOutputs _ _ _); simpl; auto.
Qed.

#[global] Instance Query_laws chain : ExecutorLaws (MkExecutor StepQuery (QueryExecutor_Execute (W:=W) chain)).
Proof.
  intros w step state. simpl. unfold QueryExecutor_Execute. destruct chain; simpl; [|auto]. apply with_params_ok. intros p.
  destruct (cc_Query _ _ _ _) as [w' [r|e]]; simpl; [|auto]. destruct (ExtractOutputs _ _ _); simpl; auto.
Qed.

#[global] Instance Provider_laws provider : ExecutorLaws (MkExecutor StepProvider (ProviderExecutor_Execute (W:=W) provider)).
Proof.
  intros w step state. simpl. unfold ProviderExecutor_Execute. destruct provider; simpl; [|auto]. apply with_params_ok. intros q.
  repeat case_bool_decide; simpl; auto; (destruct (parseProviderDSeq _); simpl; [|auto]).
  - destruct (pc_SendManifest _ _ _ _ _) as [w' [e|]]; simpl; auto.
  - destruct (pc_SendManifestToActiveLeases _ _ _ _) as [w' [ps [e|]]]; simpl; auto.
  - destruct (pc_LeaseStatus _ _ _ _) as [w' [d|e]]; simpl; auto.
Qed.

#[global] Instance Check_laws : ExecutorLaws (MkExecutor StepCheck (CheckExecutor_Execute (W:=W))).
Proof.
  intros w step state. simpl. unfold CheckExecutor_Execute. destruct (EvalCondition _ _ _) as [[]|e]; simpl; [auto| |auto].
  case_bool_decide; simpl; auto.
Qed.

#[global] Instance Output_laws : ExecutorLaws (MkExecutor StepOutput (OutputExecutor_Execute sys)).
Proof.
  intros w step state. simpl. unfold OutputExecutor_Execute. destruct (ResolveTemplate _ _) as [s|e]; simpl; [|auto].
  destruct (sys_write sys w s) as [w' [n [e|]]]; simpl; [auto|]. case_bool_decide; simpl; auto.
Qed.

#[global] Instance Shell_laws : ExecutorLaws (MkExecutor StepShell (ShellExecutor_Execute sys)).
Proof.
  intros w step state. simpl. unfold ShellExecutor_Execute. destruct (ResolveTemplate _ _) as [s|e]; simpl; [|auto].
  destruct (sys_shell sys w s) as [w' [d|[e s']]]; simpl; auto.
Qed.

#[global] Instance Prompt_laws `{Bech32} `{Lexer} : ExecutorLaws (MkExecutor StepPrompt (PromptExecutor_Execute sys)).
Proof.
  intros w step state. simpl. unfold PromptExecutor_Execute. destruct (ResolveTemplate _ _) as [m|e]; simpl; [|auto].
  destruct (ValidateBidSelection m); simpl; [auto|]. destruct (ResolveTemplate _ _) as [d|e]; simpl; [|auto].
  destruct (ParseList d) as [[|i items]|e]; simpl; [auto| |auto].
  destruct (select_item _ _ _ _ _) as [w' [[s|]|e]]; simpl; auto.
Qed.
Lemma poll_ok chain step state params te fuel w w' o :
  poll sys chain step state params te fuel w = Some (w', o) → ∃ r, outcome_ok step o r.
Proof.
  revert w. induction fuel as [|fuel IH]; intros w; cbn [poll]; [done|].
  assert (∀ w, match sys_select sys w with
    | (w, Cancelled e) => Some (w, fails step (Errorf "context cancelled" []) e)
    | (w, Deadline) => Some (w, fails step te te)
    | (w, Tick) => poll sys chain step state params te fuel w end = Some (w', o) → ∃ r, outcome_ok step o r) as Hagain.
  { intros w1. destruct (sys_select sys w1) as [w2 []]; intros E; simplify_eq; eauto. }
  destruct (cc_Query _ _ _ _) as [w1 [d|e]]; [|apply Hagain].
  destruct (EvalCondition _ _ _) as [[]|e]; [|apply Hagain..]. intros E. simplify_eq. auto.
Qed.

Lemma Wait_ok parse chain fuel w step state w' o :
  WaitExecutor_Execute sys parse chain fuel w step state = Some (w', o) → ∃ r, outcome_ok step o r.
Proof.
  unfold WaitExecutor_Execute. destruct (wait_timeout _ _ _) as [t|e]; [|intros; simplify_eq; auto].
  destruct (wait_timeout_error _ _ _ _) as [te|e]; [|intros; simplify_eq; auto]. destruct chain as [c|]; [|intros; simplify_eq; auto].
  destruct (ResolveParams _ _) as [p|e]; [apply poll_ok|intros; simplify_eq; auto].
Qed.

#[global] Instance Wait_laws parse stuck chain fuel : ExecutorLaws (MkExecutor StepWait (λ w step state,
  default (w, fails step stuck stuck) (WaitExecutor_Execute sys parse chain fuel w step state))).
Proof.
  intros w step state. cbn [ex_Execute]. destruct (WaitExecutor_Execute _ _ _ _ _ _ _) as [[w' o]|] eqn:E; simpl; [|auto].
  by eapply Wait_ok.
Qed.

(** Every built-in executor keeps the contract. *)
Lemma NewRegistry_ok `{Bech32} `{Lexer} parse stuck fuel chain provider : registry_ok (NewRegistry sys parse stuck fuel chain provider).
Proof.
  unfold registry_ok, NewRegistry. intros t ex Hl. apply elem_of_list_to_map_2, list_elem_of_fmap in Hl as (e & [= -> ->] & He).
  repeat (apply elem_of_cons in He as [->|He]); [apply _..|]. by apply elem_of_nil in He.
Qed.
End contract.

(** ** The engine *)
Section engine.
Context {W : Type} (env : Env W) (e : WorkflowEngine W).

Lemma attempts_ok ex delay step state `{!ExecutorLaws ex} n first last w :
  (n = 0%nat ∨ first = false → ∃ r, outcome_ok step last r ∧ is_Some last.2) →
  ∃ r, outcome_ok step (attempts env ex delay step state n first last w).2 r.
Proof.
  revert first last w. induction n as [|n IH]; intros first last w Hl; cbn [attempts].
  { destruct Hl as (r & Hr & _); eauto. }
  destruct (if first then (w, None) else env_sleep env delay w) as [w1 [c|]] eqn:Es.
  - destruct first; [done|]. destruct Hl as (r & [H1 H2 H3 H4] & [x Hx]); [by right|]. rewrite Hx in H4. exists r. by split.
  - destruct (executor_outcome w1 step state) as [r Hr]. destruct (ex_Execute ex w1 step state) as [w2 [r' [x|]]]; simpl in Hr; [|by exists r].
    apply IH. intros _. exists r. split; [done|by eexists].
Qed.

Lemma retry_positive step : ∃ n d, retry_policy env step = (S n, d).
Proof.
  unfold retry_policy. destruct (sd_Retry step) as [rd|]; [|eauto]. destruct (0 <? rd_Max rd)%Z eqn:E; [|eauto]. apply Z.ltb_lt in E.
  eexists (pred (Z.to_nat (rd_Max rd))), _. f_equal. lia.
Qed.

Lemma executeStep_ok step state w : registry_ok (en_registry e) → ∃ r, outcome_ok step (executeStep env e step state w).2 r.
Proof.
  intros Hreg. unfold executeStep, registry_Get. destruct (en_registry e !! sd_Type step) as [ex|] eqn:E.
  - destruct (retry_positive step) as (n & d & ->). specialize (Hreg _ _ E). simpl in Hreg. apply attempts_ok; [done|]. by intros [?|?].
  - eexists. apply fails_ok.
Qed.

Definition tolerated (step : StepDef) : Prop := sd_OnError step = OnErrorContinue ∨ sd_OnError step = OnErrorSkip.

(** What a run has done once [k] of its steps are over. *)
Record run_ok (steps : list StepDef) (st : RunState) (err : option error) (k : nat) : Prop := {
  ro_le : k ≤ length steps;
  ro_order : rs_StepOrder st = take k (sd_Name <$> steps);
  ro_complete : err = None → k = length steps;
  ro_steps : ∀ i step, steps !! i = Some step → i < k → ∃ r, rs_Steps st !! sd_Name step = Some r ∧
    sr_Name r = sd_Name step ∧ sr_Type r = sd_Type step ∧ sr_Status r ∈ ["success"; "skipped"; "failed"] ∧
    (sr_Status r = "failed" → tolerated step ∨ S i = k ∧ ∃ cause, err = Some (Wrapf "step %q failed: %w" [sd_Name step] cause));
}.

(** A step is recorded as the engine records it; [bad] says what a failure means. *)
Definition recorded (st : RunState) (step : StepDef) (bad : Prop) : Prop := ∃ r, rs_Steps st !! sd_Name step = Some r ∧
  sr_Name r = sd_Name step ∧ sr_Type r = sd_Type step ∧ sr_Status r ∈ ["success"; "skipped"; "failed"] ∧ (sr_Status r = "failed" → bad).

Definition done_ok (pre : list StepDef) (st : RunState) : Prop :=
  rs_StepOrder st = sd_Name <$> pre ∧ ∀ step, step ∈ pre → recorded st step (tolerated step).

Lemma recorded_weaken st step (P Q : Prop) : (P → Q) → recorded st step P → recorded st step Q.
Proof. intros H (r & ? & ? & ? & ? & ?). exists r. split_and!; auto. Qed.

Lemma recorded_set st name r step P : sd_Name step ≠ name → recorded st step P → recorded (SetStepResult name r st) step P.
Proof. intros Hne (r' & ? & ? & ? & ? & ?). exists r'. simpl. rewrite lookup_insert_ne by done. split_and!; auto. Qed.

Lemma recorded_new st step o r (P : Prop) : outcome_ok step o r → (o.2 ≠ None → P) → recorded (SetStepResult (sd_Name step) r st) step P.
Proof.
  intros [H1 H2 H3 H4] HP. exists r. simpl. rewrite lookup_insert_eq. split_and!; [done..| |].
  - destruct (o.2); set_solver.
  - intros Hf. destruct (o.2); [by apply HP|]. rewrite Hf in H4. set_solver.
Qed.

(** A run that is over after the steps [pre], with [rest] not executed. *)
Lemma stopped pre rest st err : done_ok pre st → (err = None → rest = []) → run_ok (pre ++ rest) st err (length pre).
Proof.
  intros [Ho Hd] Hr. split.
  - rewrite length_app. lia.
  - rewrite Ho, fmap_app, take_app_length'; [done|by rewrite length_fmap].
  - intros ->. rewrite Hr by done. by rewrite app_nil_r.
  - intros i step Hi Hlt. rewrite lookup_app_l in Hi by done. eapply recorded_weaken, Hd; [auto|]. by eapply list_elem_of_lookup_2.
Qed.

Lemma aborted pre step rest st r o cause : done_ok pre st → sd_Name step ∉ sd_Name <$> pre → outcome_ok step o r →
  run_ok (pre ++ step :: rest) (SetStepResult (sd_Name step) r st) (Some (Wrapf "step %q failed: %w" [sd_Name step] cause)) (S (length pre)).
Proof.
  intros [Ho Hd] Hn Hr. split; [rewrite length_app; simpl; lia| |done|].
  - assert (pre ++ step :: rest = (pre ++ [step]) ++ rest) as -> by by rewrite <- app_assoc. rewrite fmap_app, take_app_length'.
    + rewrite fmap_app. simpl. by rewrite Ho.
    + rewrite length_fmap, length_app. simpl. lia.
  - intros i s Hi Hlt. destruct (decide (i = length pre)) as [->|Hne].
    + rewrite list_lookup_middle in Hi by done. simplify_eq. eapply recorded_new; [done|]. intros _. right. eauto.
    + rewrite lookup_app_l in Hi by lia. apply list_elem_of_lookup_2 in Hi. eapply recorded_weaken, recorded_set, Hd; [auto| |done].
      intros E. destruct Hn. rewrite <- E. by apply list_elem_of_fmap_2.
Qed.

Lemma advanced pre step st r o : done_ok pre st → sd_Name step ∉ sd_Name <$> pre → outcome_ok step o r → (o.2 ≠ None → tolerated step) →
  done_ok (pre ++ [step]) (SetStepResult (sd_Name step) r st).
Proof.
  intros [Ho Hd] Hn Hr Ht. split; [simpl; by rewrite Ho, fmap_app|]. intros s [Hs| ->%list_elem_of_singleton]%elem_of_app.
  - apply recorded_set; [|by apply Hd]. intros E. destruct Hn. rewrite <- E. by apply list_elem_of_fmap_2.
  - by eapply recorded_new.
Qed.

Lemma run_steps_ok id pre rest st w w' st' err i : registry_ok (en_registry e) → NoDup (sd_Name <$> pre ++ rest) → done_ok pre st →
  run_steps env e id i rest st w = (w', st', err) → ∃ k, run_ok (pre ++ rest) st' err k.
Proof.
  intros Hreg. revert pre st w i. induction rest as [|step rest IH]; intros pre st w i HN Hd; cbn [run_steps].
  { intros E. simplify_eq. exists (length pre). by apply stopped. }
  assert (sd_Name step ∉ sd_Name <$> pre) as Hn.
  { rewrite fmap_app in HN. apply NoDup_app in HN as (_ & HN & _). intros H%HN. apply H. csimpl. left. }
  destruct (env_done env w) as [w1 [c|]]; [intros E; simplify_eq; exists (length pre); by apply stopped|].
  destruct (executeStep_ok step st w1 Hreg) as [r Hr]. destruct (executeStep env e step st w1) as [w2 o]. cbn [snd] in Hr.
  unfold record_step. rewrite (oo_result _ _ _ Hr). set (w3 := match en_logger e with Some log => _ | None => _ end).
  rewrite cons_middle, app_assoc in HN |- *.
  destruct (o.2) as [x|] eqn:Eo; [case_bool_decide as Ht|].
  - apply IH; [done|]. by eapply advanced.
  - intros E. simplify_eq. exists (S (length pre)). rewrite <- app_assoc. by eapply aborted.
  - apply IH; [done|]. eapply advanced; [done..|]. by rewrite Eo.
Qed.
End engine.
