(* ===== verification/WorkflowProps.v ===== *)
(** * What workflow runs, their steps and the transports guarantee

    Runs, retries, waits, loading, the choice of a bid and deposits, with instances
    in a small world. *)

From Stdlib Require Import Ascii.
From stdpp Require Import sorting base gmap strings pretty option numbers list.
From S2P Require Import Prelude GoStd GoJson Context Workflow Steps WorkflowSpec.

(** ** A small world for the witnesses

    Templates without an engine render as their text; the world counts the
    broadcasts; a query answers with the number of polls so far. *)
Module Toy.
#[global] Instance toy_templates : TemplateEngine := {| tmpl := string; tmpl_Parse := inl; tmpl_Execute := λ t d,
  inl match td_Result d with Some (VJson (JStr s)) => s | _ => t end |}.
#[global] Instance toy_floats : Floats := {| float64 := Z; ParseFloat := λ s, match ParseInt64 s with Ok z => Some z | _ => None end;
  FormatFloat := FormatInt; float_lt := Z.ltb; fmt_Sprint := λ _, "" |}.
#[global] Instance toy_bech32 : Bech32 := {| bech32_DecodeAndConvert := λ _, inr (Sentinel "bech32"); Bech32PrefixAccAddr := "akash" |}.
#[global] Instance toy_lexer : Lexer := {| json_Parse := λ _, None |}.

Definition world : Type := nat.
Definition chain : ChainClient world := MkChainClient
  (λ w msg params, (S w, if bool_decide (msg = "bad") then inr (Sentinel "rejected") else inl (MkTxResult "AB12" 7 0 None)))
  (λ w path params, (w, inl (Text (JStr (if (2 <=? w)%nat then "true" else "false"))))).
Definition sys : System world := MkSystem (λ w s, (w, (length (bytes_of s), None))) (λ w _, (w, inr (Sentinel "sh", "")))
  (λ w, if (10 <=? w)%nat then (w, Deadline) else (S w, Tick)) None (λ w _, (w, "1")) (λ _, "5m0s").
Definition env : Env world := MkEnv (λ w, (w, None)) (λ _ w, (w, None)) (λ _, inl 1%Z).
Definition engine : WorkflowEngine world :=
  MkEngine (NewRegistry sys (λ _, inl 1%Z) (Sentinel "running") 20 (Some chain) None) None.

Definition step (name type msg onError : string) (retry : option RetryDef) : StepDef :=
  MkStepDef name type msg "q" "" "{{ .Result }}" "" "" "" [] "" "" "" "" ∅ ∅ onError retry "".
Definition flow : WorkflowDef := MkWorkflowDef "demo" "" "" "" 1 ∅
  [step "create" StepTx "ok" "" None; step "tolerated" StepTx "bad" OnErrorContinue None;
   step "broken" StepTx "bad" "" (Some (MkRetryDef 3 "")); step "never" StepTx "ok" "" None].
End Toy.

(** ** Runs *)



(** ** Retries *)
Section counting.
Context {W : Type}.

(** The same engine in a world that also counts the executions. *)
Definition counting (ex : StepExecutor W) : StepExecutor (W * nat) :=
  MkExecutor (ex_Type ex) (λ wn step state, let '(w, o) := ex_Execute ex wn.1 step state in ((w, S wn.2), o)).
Definition counting_env (env : Env W) : Env (W * nat) :=
  MkEnv (λ wn, let '(w, r) := env_done env wn.1 in ((w, wn.2), r))
        (λ d wn, let '(w, r) := env_sleep env d wn.1 in ((w, wn.2), r)) (env_ParseDuration env).
Definition counting_engine (e : WorkflowEngine W) : WorkflowEngine (W * nat) := MkEngine (counting <$> en_registry e) None.

Lemma attempts_count env (ex : StepExecutor W) delay step state n first last w c :
  let '((w', c'), o) := attempts (counting_env env) (counting ex) delay step state n first last (w, c) in
  attempts env ex delay step state n first last w = (w', o) ∧ c ≤ c' ∧ c' ≤ c + n ∧
  (0 < n → first = true → c < c') ∧
  ((∀ d w, (env_sleep env d w).2 = None) → 0 < n → o.2 ≠ None → c' = c + n).
Proof.
  revert first last w c. induction n as [|n IH]; intros first last w c; cbn [attempts].
  { split_and!; [done|lia..]. }
  assert (∀ b : bool, (if b then ((w, c), None) else env_sleep (counting_env env) delay (w, c)) =
    let '(w1, r) := if b then (w, None) else env_sleep env delay w in ((w1, c), r)) as Hs by (by intros []).
  rewrite Hs. destruct (if first then (w, None) else env_sleep env delay w) as [w1 [x|]] eqn:Es.
  { split_and!; [done|lia|lia|by destruct first|]. intros Hc. destruct first; [done|]. specialize (Hc delay w). rewrite Es in Hc. done. }
  unfold counting at 1. cbn [ex_Execute fst snd]. destruct (ex_Execute ex w1 step state) as [w2 [r [x|]]]; [|split_and!; [done|lia|lia|lia|done]].
  specialize (IH false (r, Some x) w2 (S c)). fold (counting ex).
  destruct (attempts (counting_env env) (counting ex) delay step state n false (r, Some x) (w2, S c)) as [[w' c'] o].
  destruct IH as (H1 & H2 & H3 & _ & H5). split_and!; [done|lia|lia|lia|]. intros Hc _ Ho. destruct n as [|n].
  - cbn [attempts] in H1. lia.
  - specialize (H5 Hc). rewrite H5 by (lia || done). lia.
Qed.
End counting.

Definition max_attempts (step : StepDef) : nat :=
  match sd_Retry step with Some rd => Z.to_nat (Z.max 1 (rd_Max rd)) | None => 1 end.

Lemma retry_policy_max {W} (env : Env W) step : (retry_policy env step).1 = max_attempts step.
Proof.
  unfold retry_policy, max_attempts. destruct (sd_Retry step) as [rd|]; [|done].
  destruct (0 <? rd_Max rd)%Z eqn:E; cbn [fst]; [apply Z.ltb_lt in E|apply Z.ltb_ge in E]; lia.
Qed.

(** [executeStep] runs the executor of the step at least once and at most
    [max] times (once without a retry policy); it ends early only on success or
    when the context is cancelled during a delay, so that an error without a
    cancellation means that every attempt was made. The count is taken in a copy of
    the world that leaves the behaviour as it is. *)
Theorem executeStep_attempts {W} (env : Env W) (e : WorkflowEngine W) (step : StepDef) (state : RunState) (w : W) :
  is_Some (en_registry e !! sd_Type step) →
  ∃ w' n o, executeStep (counting_env env) (counting_engine e) step state (w, 0) = ((w', n), o) ∧
    executeStep env e step state w = (w', o) ∧ 1 ≤ n ≤ max_attempts step ∧
    ((∀ d w, (env_sleep env d w).2 = None) → o.2 ≠ None → n = max_attempts step).
Proof.
  intros [ex Hex]. unfold executeStep, registry_Get, counting_engine. cbn [en_registry]. rewrite lookup_fmap, Hex. cbn [fmap option_fmap option_map].
  change (retry_policy (counting_env env) step) with (retry_policy env step). pose proof (retry_policy_max env step) as Hm.
  destruct (retry_positive env step) as (n & d & Er). rewrite Er in Hm |- *. cbn [fst] in Hm. rewrite <- Hm.
  pose proof (attempts_count env ex d step state (S n) true (None, None) w 0) as H.
  destruct (attempts (counting_env env) (counting ex) d step state (S n) true (None, None) (w, 0)) as [[w' c'] o].
  destruct H as (H1 & H2 & H3 & H4 & H5). exists w', c', o. split_and!; [done|done|apply H4; [lia|done]|lia|].
  intros Hc Ho. by rewrite H5 by (done || lia).
Qed.

Lemma executeStep_attempts_witness : ∃ w' n o,
  executeStep (counting_env Toy.env) (counting_engine Toy.engine) (Toy.step "broken" StepTx "bad" "" (Some (MkRetryDef 3 "")))
    (NewRunState "id" "demo" "me" ∅) (0, 0) = ((w', n), o) ∧ n = 3.
Proof.
  destruct (executeStep_attempts Toy.env Toy.engine (Toy.step "broken" StepTx "bad" "" (Some (MkRetryDef 3 "")))
    (NewRunState "id" "demo" "me" ∅) 0) as (w' & n & o & H1 & H2 & _ & H4); [by eexists|].
  exists w', n, o. split; [done|]. apply H4; [done|]. vm_compute in H2. by injection H2 as _ <-.
Defined.

(** ** Waiting *)
Section waiting.
Context {W : Type} `{TE : TemplateEngine} (sys : System W) (chain : ChainClient W).
(** The time left, in ticks: a tick uses some, a query or a progress report
    gives none back. *)
Context (left_ : W → nat).
Hypothesis tick_uses : ∀ w w', sys_select sys w = (w', Tick) → left_ w' < left_ w.
Hypothesis query_keeps : ∀ w q p, left_ (cc_Query chain w q p).1 ≤ left_ w.
Hypothesis report_keeps : ∀ f w s d, sys_progress sys = Some f → left_ (f w s d) ≤ left_ w.

Lemma poll_returns step state params te fuel w : left_ w < fuel → is_Some (poll sys chain step state params te fuel w).
Proof using All.
  revert w. induction fuel as [|fuel IH]; intros w Hf; [lia|]. cbn [poll].
  assert (∀ w1, left_ w1 ≤ left_ w → is_Some (match sys_select sys w1 with
    | (w, Cancelled e) => Some (w, fails step (Errorf "context cancelled" []) e)
    | (w, Deadline) => Some (w, fails step te te)
    | (w, Tick) => poll sys chain step state params te fuel w end)) as Hagain.
  { intros w1 Hle. destruct (sys_select sys w1) as [w2 []] eqn:E; [by eexists..|]. apply tick_uses in E. apply IH. lia. }
  pose proof (query_keeps w (sd_Query step) params) as Hq. destruct (cc_Query chain w (sd_Query step) params) as [w1 [d|x]]; cbn [fst] in Hq; [|by apply Hagain].
  assert (left_ (match sys_progress sys with Some report => report w1 step d | None => w1 end) ≤ left_ w) as Hp.
  { destruct (sys_progress sys) as [f|] eqn:E; [|done]. pose proof (report_keeps f w1 step d eq_refl). lia. }
  destruct (EvalCondition _ _ _) as [[]|x]; [by eexists|by apply Hagain..].
Qed.
End waiting.

(** A successful wait ended with data that meets its condition. *)
Lemma poll_success {W} `{TE : TemplateEngine} (sys : System W) chain step state params te fuel w w' r :
  poll sys chain step state params te fuel w = Some (w', (r, None)) →
  ∃ data sr, EvalCondition (sd_Until step) (Some data) state = inl true ∧ r = Some sr ∧ sr_RawResult sr = Some data ∧ sr_Status sr = "success".
Proof.
  revert w. induction fuel as [|fuel IH]; intros w; cbn [poll]; [done|].
  assert (∀ w, match sys_select sys w with
    | (w, Cancelled e) => Some (w, fails step (Errorf "context cancelled" []) e)
    | (w, Deadline) => Some (w, fails step te te)
    | (w, Tick) => poll sys chain step state params te fuel w end = Some (w', (r, None)) →
    ∃ data sr, EvalCondition (sd_Until step) (Some data) state = inl true ∧ r = Some sr ∧ sr_RawResult sr = Some data ∧ sr_Status sr = "success") as Hagain.
  { intros w1. destruct (sys_select sys w1) as [w2 []]; [done..|apply IH]. }
  destruct (cc_Query _ _ _ _) as [w1 [d|x]]; [|apply Hagain].
  destruct (EvalCondition _ _ _) as [[]|x] eqn:E; [|apply Hagain..]. intros H. unfold succeeds in H. injection H as _ <-. eexists d, _. split_and!; [exact E|reflexivity|done..].
Qed.

(** a wait step returns when time passes (each tick uses some of the time left
    to it), within as many polls as there are ticks left and one more; when it
    returns without an error, the data of its result met the condition. *)
Theorem Wait_terminates {W} `{TE : TemplateEngine} (sys : System W) (chain : ChainClient W) (left_ : W → nat)
    (parse : string → Z + error) (w : W) (step : StepDef) (state : RunState) :
  (∀ w w', sys_select sys w = (w', Tick) → left_ w' < left_ w) →
  (∀ w q p, left_ (cc_Query chain w q p).1 ≤ left_ w) →
  (∀ f w s d, sys_progress sys = Some f → left_ (f w s d) ≤ left_ w) →
  ∃ w' r err, WaitExecutor_Execute sys parse (Some chain) (S (left_ w)) w step state = Some (w', (Some r, err)) ∧
    match err with
    | Some _ => sr_Status r = "failed"
    | None => sr_Status r = "success" ∧ ∃ data, sr_RawResult r = Some data ∧ EvalCondition (sd_Until step) (Some data) state = inl true
    end.
Proof.
  intros H1 H2 H3. assert (is_Some (WaitExecutor_Execute sys parse (Some chain) (S (left_ w)) w step state)) as [[w' [r err]] E].
  { unfold WaitExecutor_Execute. destruct (wait_timeout _ _ _); [|by eexists]. destruct (wait_timeout_error _ _ _ _); [|by eexists].
    destruct (ResolveParams _ _); [|by eexists]. apply (poll_returns sys chain left_); auto. }
  pose proof (Wait_ok sys parse (Some chain) (S (left_ w)) w step state w' _ E) as [r' [Hr _ _ Hs]]. simpl in Hr, Hs. subst r.
  exists w', r', err. split; [done|]. destruct err as [x|]; [done|].
  revert E. unfold WaitExecutor_Execute. destruct (wait_timeout _ _ _); [|done]. destruct (wait_timeout_error _ _ _ _); [|done].
  destruct (ResolveParams _ _); [|done]. intros (d & sr & Hc & [= <-] & Hd & Hst)%poll_success. eauto.
Qed.

Lemma Wait_terminates_witness : ∃ w' r, WaitExecutor_Execute Toy.sys (λ _, inl 1%Z) (Some Toy.chain) 11 0 (Toy.step "wait" StepWait "" "" None)
  (NewRunState "id" "demo" "me" ∅) = Some (w', (Some r, None)) ∧ sr_Status r = "success".
Proof.
  destruct (Wait_terminates Toy.sys Toy.chain (λ w, 10 - w) (λ _, inl 1%Z) 0 (Toy.step "wait" StepWait "" "" None) (NewRunState "id" "demo" "me" ∅))
    as (w' & r & err & E & H).
  - intros w w'. unfold Toy.sys. cbn [sys_select]. destruct (10 <=? w) eqn:E; [done|]. apply Nat.leb_gt in E. intros [= <-]. lia.
  - intros w q p. cbn. done.
  - done.
  - assert (err = None) as -> by (vm_compute in E; by injection E as _ _ <-). exists w', r. split; [exact E|apply H].
Defined.

(** ** Loading *)
Section loading.
Context (fs : Files).

Lemma add_name_elem names n x : x ∈ add_name names n ↔ x ∈ names ∨ x = n.
Proof. unfold add_name. case_bool_decide; set_solver. Qed.

Lemma add_name_nodup names n : NoDup names → NoDup (add_name names n).
Proof.
  intros H. unfold add_name. case_bool_decide; [done|]. apply NoDup_app. split_and!; [done|set_solver|apply NoDup_singleton].
Qed.

(** A definition file of a directory. *)
Definition from_dir (dir x : string) : Prop := ∃ entries f, os_ReadDir fs dir = Ok entries ∧ (f, false) ∈ entries ∧
  (Ext f = ".yaml" ∨ Ext f = ".yml") ∧ x = strip_ext f.

Lemma addFromDir_spec dir names : NoDup names →
  NoDup (addFromDir fs dir names) ∧ ∀ x, x ∈ addFromDir fs dir names ↔ x ∈ names ∨ from_dir dir x.
Proof.
  intros HN. unfold addFromDir, from_dir. destruct (os_ReadDir fs dir) as [entries|e|].
  2,3: split; [done|]; intros x; split; [by left|]; intros [?|(? & ? & ? & _)]; done.
  assert (∀ l names, NoDup names → let names' := foldl (λ names entry, if (entry.2 : bool) then names
      else if negb (bool_decide (Ext entry.1 = ".yaml")) && negb (bool_decide (Ext entry.1 = ".yml")) then names
      else add_name names (strip_ext entry.1)) names l in
    NoDup names' ∧ ∀ x, x ∈ names' ↔ x ∈ names ∨ ∃ f, (f, false) ∈ l ∧ (Ext f = ".yaml" ∨ Ext f = ".yml") ∧ x = strip_ext f) as H.
  { clear. induction l as [|[f b] l IH]; intros names HN; cbn [foldl].
    - split; [done|]. set_solver.
    - match goal with |- context [foldl _ ?n l] => set (names1 := n) end. assert (NoDup names1 ∧ ∀ x, x ∈ names1 ↔ x ∈ names ∨
        b = false ∧ (Ext f = ".yaml" ∨ Ext f = ".yml") ∧ x = strip_ext f) as [HN1 H1].
      { subst names1. cbn [fst snd]. destruct b; [split; [done|]; naive_solver|].
        repeat case_bool_decide; cbn [negb andb]; try (split; [by apply add_name_nodup|intros x; rewrite add_name_elem; naive_solver]).
        split; [done|]. naive_solver. }
      destruct (IH names1 HN1) as [H2 H3]. split; [done|]. intros x. rewrite H3, H1. split.
      + intros [[?|(-> & ? & ?)]|(g & ? & ?)]; [by left|right; exists f; split; [left|done]|right; exists g; split; [by right|done]].
      + intros [?|(g & [[= -> ->]|?]%elem_of_cons & ? & ?)]; [by left; left|by left; right|right; by exists g]. }
  destruct (H entries names HN) as [H1 H2]. split; [done|]. intros x. rewrite H2. naive_solver.
Qed.

Lemma builtins_spec (l : list (string * string)) names : NoDup names →
  NoDup (foldl (λ names kv, add_name names kv.1) names l) ∧
  ∀ x, x ∈ foldl (λ names kv, add_name names kv.1) names l ↔ x ∈ names ∨ x ∈ l.*1.
Proof.
  revert names. induction l as [|kv l IH]; intros names HN; cbn [foldl]; [split; [done|set_solver]|].
  destruct (IH _ (add_name_nodup names kv.1 HN)) as [H1 H2]. split; [done|]. intros x. rewrite H2, add_name_elem. set_solver.
Qed.
End loading.

Lemma Loader_List_spec (fs : Files) (l : Loader) :
  NoDup (Loader_List fs l) ∧
  ∀ x, x ∈ Loader_List fs l ↔
    (ld_contextName l ≠ "" ∧ from_dir fs (context_workflows l) x) ∨ from_dir fs (global_workflows l) x ∨ is_Some (ld_builtins l !! x).
Proof.
  unfold Loader_List. cbv zeta. set (n1 := if bool_decide (ld_contextName l = "") then [] else addFromDir fs (context_workflows l) []).
  assert (NoDup n1 ∧ ∀ x, x ∈ n1 ↔ ld_contextName l ≠ "" ∧ from_dir fs (context_workflows l) x) as [HN1 H1].
  { subst n1. case_bool_decide; [split; [constructor|set_solver]|].
    destruct (addFromDir_spec fs (context_workflows l) [] (NoDup_nil_2)) as [? H']. split; [done|]. intros x. rewrite H'. set_solver. }
  destruct (addFromDir_spec fs (global_workflows l) n1 HN1) as [HN2 H2].
  destruct (builtins_spec (map_to_list (ld_builtins l)) _ HN2) as [HN3 H3]. split; [done|]. intros x. rewrite H3, H2, H1.
  assert (x ∈ (map_to_list (ld_builtins l)).*1 ↔ is_Some (ld_builtins l !! x)) as ->; [|tauto].
  rewrite list_elem_of_fmap. split.
  - intros ([k v] & -> & H%elem_of_map_to_list). by eexists.
  - intros [v Hv]. exists (x, v). split; [done|]. by apply elem_of_map_to_list.
Qed.

(** [List] names every available workflow exactly once: those with a [.yaml]
    or [.yml] file in the directory of the context or in the global one, and the
    built-in ones. *)
Theorem List_exact (fs : Files) (l : Loader) :
  NoDup (Loader_List fs l) ∧
  ∀ x, x ∈ Loader_List fs l ↔
    (ld_contextName l ≠ "" ∧ from_dir fs (context_workflows l) x) ∨ from_dir fs (global_workflows l) x ∨ is_Some (ld_builtins l !! x).
Proof. apply Loader_List_spec. Qed.

Lemma Ext_yml name : Ext (name +:+ ".yml") = ".yml".
Proof.
  induction name as [|c name IH]; [done|]. change (String c name +:+ ".yml") with (String c (name +:+ ".yml")). cbn [Ext]. by rewrite IH.
Qed.

Lemma strip_yml name : strip_ext (name +:+ ".yml") = name.
Proof.
  unfold strip_ext. rewrite Ext_yml, bytes_of_app, length_app, Nat.add_sub, take_app_length. apply of_bytes_of.
Qed.

(** a workflow whose file is named [.yml] is listed but does not load, since
    [Load] only looks for [.yaml]: the command of a listed workflow is missing. *)
Theorem yml_listed_not_loaded (yaml_Unmarshal : string → result WorkflowDef) (fs : Files) (l : Loader) (name : string)
    (entries : list (string * bool)) :
  os_ReadDir fs (global_workflows l) = Ok entries → (name +:+ ".yml", false) ∈ entries →
  (∀ p, is_ok (os_ReadFile fs (Join (p ++ [name +:+ ".yaml"]))) = false) → ld_builtins l !! name = None →
  name ∈ Loader_List fs l ∧ Load yaml_Unmarshal fs l name = failf "workflow %q not found" [name].
Proof.
  intros Hd Hin Hno Hb. split.
  - apply Loader_List_spec. right; left. exists entries, (name +:+ ".yml"). rewrite Ext_yml, strip_yml. auto.
  - unfold Load, loadFromFile. rewrite Hb.
    pose proof (Hno [ld_home l; "contexts"; ld_contextName l; "workflows"]) as H1. pose proof (Hno [ld_home l; "workflows"]) as H2.
    cbn [app] in H1, H2. case_bool_decide.
    + by destruct (os_ReadFile fs (Join [ld_home l; "workflows"; name +:+ ".yaml"])).
    + destruct (os_ReadFile fs (Join [ld_home l; "contexts"; ld_contextName l; "workflows"; name +:+ ".yaml"])); [done|..];
        by destruct (os_ReadFile fs (Join [ld_home l; "workflows"; name +:+ ".yaml"])).
Qed.

Lemma yml_listed_not_loaded_witness : let l := MkLoader "/h" "" ∅ in
  let fs := MkFiles (λ _, Err (Sentinel "not exist")) (λ d, if bool_decide (d = "/h/workflows") then Ok [("mine.yml", false)] else Err (Sentinel "not exist")) in
  "mine" ∈ Loader_List fs l ∧ Load (λ _, Err (Sentinel "yaml")) fs l "mine" = failf "workflow %q not found" ["mine"].
Proof.
  intros l fs. apply (yml_listed_not_loaded _ fs l "mine" [("mine.yml", false)]); [by vm_compute|by left|done|done].
Defined.

(** ** Choosing a bid *)
Section cheapest.
Context `{FL : Floats}.
Hypothesis lt_trans : ∀ a b c, float_lt a b = true → float_lt b c = true → float_lt a c = true.
Hypothesis lt_irrefl : ∀ a, float_lt a a = false.

(** [best] with its price beats every item of [seen]. *)
Definition beats (best : item * option float64) (seen : list item) : Prop :=
  best.1 ∈ seen ∧ best.2 = bidPrice best.1 ∧
  ∀ i p, i ∈ seen → bidPrice i = Some p → ∃ b, best.2 = Some b ∧ float_lt p b = false.

Lemma cheaper_beats best seen i : beats best seen → beats (cheaper best i) (seen ++ [i]).
Proof using All.
  intros (Hin & Hp & Hb). unfold cheaper. destruct (bidPrice i) as [p|] eqn:Ei.
  2:{ split_and!; [set_solver|done|]. intros j q [Hj| ->%list_elem_of_singleton]%elem_of_app Hq; [by eapply Hb|congruence]. }
  destruct (best.2) as [b|] eqn:Eb; [destruct (float_lt p b) eqn:El|].
  - split_and!; [simpl; set_solver|done|]. simpl. intros j q [Hj| ->%list_elem_of_singleton]%elem_of_app Hq; exists p; (split; [done|]).
    + destruct (Hb j q Hj Hq) as (b' & [= <-] & Hl). apply not_true_iff_false. intros H. by rewrite (lt_trans q p b) in Hl.
    + rewrite Ei in Hq. simplify_eq. apply lt_irrefl.
  - split_and!; [set_solver|by rewrite Eb|]. rewrite Eb. intros j q [Hj| ->%list_elem_of_singleton]%elem_of_app Hq; [by eapply Hb|].
    exists b. split; [done|]. congruence.
  - split_and!; [simpl; set_solver|done|]. simpl. intros j q [Hj| ->%list_elem_of_singleton]%elem_of_app Hq; exists p; (split; [done|]).
    + destruct (Hb j q Hj Hq) as (b' & ? & _). done.
    + rewrite Ei in Hq. simplify_eq. apply lt_irrefl.
Qed.

Lemma foldl_beats rest best seen : beats best seen → beats (foldl cheaper best rest) (seen ++ rest).
Proof using All.
  revert best seen. induction rest as [|i rest IH]; intros best seen H; cbn [foldl]; [by rewrite app_nil_r|].
  rewrite cons_middle, app_assoc. by apply IH, cheaper_beats.
Qed.
End cheapest.

(** the bid selected as cheapest is one of those offered, and no bid with a
    readable price has a strictly lower one. *)
Theorem selectCheapest_minimal `{FL : Floats} (items : list item) :
  (∀ a b c, float_lt a b = true → float_lt b c = true → float_lt a c = true) → (∀ a, float_lt a a = false) → items ≠ [] →
  selectCheapest items ∈ items ∧
  ∀ i p, i ∈ items → bidPrice i = Some p → ∃ b, bidPrice (selectCheapest items) = Some b ∧ float_lt p b = false.
Proof.
  intros Ht Hi Hne. destruct items as [|i rest]; [done|]. unfold selectCheapest.
  assert (beats (foldl cheaper (i, bidPrice i) rest) ([i] ++ rest)) as (H1 & H2 & H3).
  { apply foldl_beats; [done..|]. split_and!; [simpl; set_solver|done|]. simpl. intros j q ->%list_elem_of_singleton Hq. exists q. auto. }
  split; [done|]. rewrite <- H2. exact H3.
Qed.

Definition toy_bid (amount : string) : item := Some {["price" := JObj [("amount", JStr amount); ("denom", JStr "uakt")]]}.

Lemma selectCheapest_minimal_witness :
  selectCheapest [toy_bid "12"; toy_bid "7"; None; toy_bid "9"] ∈ [toy_bid "12"; toy_bid "7"; None; toy_bid "9"] ∧
  selectCheapest [toy_bid "12"; toy_bid "7"; None; toy_bid "9"] = toy_bid "7".
Proof.
  split; [|by vm_compute]. refine (proj1 (selectCheapest_minimal [toy_bid "12"; toy_bid "7"; None; toy_bid "9"] _ _ _)); [|by intros; apply Z.ltb_irrefl|done].
  intros a b c H1%Z.ltb_lt H2%Z.ltb_lt. apply Z.ltb_lt. simpl in *. lia.
Defined.

(** ** Rails *)
Section rails.
Context (ParseDecCoin : string → bool).

(** The three forms of a deposit. *)
Lemma ParseDeposit_cases s d : ParseDeposit ParseDecCoin s = inl d → dep_Raw d = TrimSpace s ∧
  (dep_Auto d = true ∧ dep_IsUSD d = false ∧ dep_Coin d = "" ∧ (dep_Raw d = "" ∨ dep_Raw d = depositAuto) ∨
   dep_Auto d = false ∧ dep_IsUSD d = true ∧ dep_Coin d = "" ∨
   dep_Auto d = false ∧ dep_IsUSD d = false ∧ dep_Coin d = dep_Raw d ∧ dep_Raw d ≠ "" ∧ ParseDecCoin (dep_Raw d) = true).
Proof.
  unfold ParseDeposit. set (t := TrimSpace s). case_bool_decide as Ha; [intros; simplify_eq/=; split; [done|by left]|].
  assert (∀ rest bare, ebind (λ c, inl (MkDeposit t false true c "" bare)) (ewrap (Wrapf "invalid deposit %q: %w" [s]) (parseUSDAmount rest)) = inl d →
    dep_Raw d = t ∧ dep_Auto d = false ∧ dep_IsUSD d = true ∧ dep_Coin d = "") as Husd.
  { intros rest bare. destruct (parseUSDAmount rest); simpl; [|done]. intros. by simplify_eq. }
  destruct (CutPrefix "$" t); [intros (-> & H)%Husd; auto|]. destruct (cutSuffixFold t "usd"); [intros (-> & H)%Husd; auto|].
  destruct (looksLikeBareUSD t); [intros (-> & H)%Husd; auto|]. destruct (ParseDecCoin t) eqn:Ec; [|done]. intros. simplify_eq/=.
  split; [done|]. right; right. split_and!; try done. intros Et. apply Ha. by left.
Qed.

Definition is_auto (raw : string) : Prop := TrimSpace raw = "" ∨ TrimSpace raw = depositAuto.

(** The value the rail gets, when it gets one. *)
Lemma RailValue_cases raw d kind v : ParseDeposit ParseDecCoin raw = inl d → RailValue d kind = inl v →
  (kind = KindConsole ∧ is_auto raw ∧ v = "") ∨
  (kind = KindChain ∧ v = TrimSpace raw ∧ (is_auto raw ∨ ParseDecCoin (TrimSpace raw) = true)).
Proof.
  intros (Hr & Hc)%ParseDeposit_cases. unfold RailValue, is_auto. rewrite <- Hr. clear Hr.
  destruct Hc as [(Ha & _ & Hc & Hd)|[(Ha & _ & Hc)|(Ha & _ & Hc & Hne & Hp)]]; rewrite Ha, ?Hc; case_bool_decide as Hk; subst.
  - intros. simplify_eq. auto.
  - case_bool_decide; intros; simplify_eq. auto.
  - rewrite bool_decide_eq_true_2 by done. cbn [negb]. by destruct (dep_Bare d).
  - by case_bool_decide.
  - rewrite bool_decide_eq_false_2 by done. cbn [negb]. intros. simplify_eq. auto.
  - by case_bool_decide.
Qed.
End rails.

(** a rail passes a transaction on only with a deposit the rail takes: the
    console rail only with an absent or automatic deposit, sent as empty, the chain
    rail only with an automatic deposit or a coin, never with a USD or bare amount;
    all other parameters are passed on as they are. Otherwise it returns an error
    and the inner client is not called. *)
Theorem rail_deposit {W} (ParseDecCoin : string → bool) (r : railClient (W:=W)) (w : W) (msg : string) (params : gmap string string) :
  match translateDepositParam ParseDecCoin (rail_kind r) params with
  | inr e => rail_BroadcastTx ParseDecCoin r w msg params = (w, inr e) ∧ is_Some (params !! "deposit")
  | inl p => rail_BroadcastTx ParseDecCoin r w msg params = cc_BroadcastTx (rail_inner r) w msg p ∧
      (∀ k, k ≠ "deposit" → p !! k = params !! k) ∧
      match params !! "deposit" with
      | None => p = params
      | Some raw =>
          (rail_kind r = KindConsole ∧ is_auto raw ∧ p !! "deposit" = Some "") ∨
          (rail_kind r = KindChain ∧ p !! "deposit" = Some (TrimSpace raw) ∧ (is_auto raw ∨ ParseDecCoin (TrimSpace raw) = true))
      end
  end.
Proof.
  unfold rail_BroadcastTx. destruct (translateDepositParam ParseDecCoin (rail_kind r) params) as [p|e] eqn:E.
  - split; [done|]. revert E. unfold translateDepositParam. destruct (params !! "deposit") as [raw|] eqn:Ed; [|by intros; simplify_eq].
    destruct (ParseDeposit ParseDecCoin raw) as [d|] eqn:Ep; [|done]. simpl. destruct (RailValue d (rail_kind r)) as [v|] eqn:Ev; [|done]. simpl.
    pose proof (RailValue_cases _ _ _ _ _ Ep Ev) as Hc. intros E. assert (p !! "deposit" = Some v ∧ ∀ k, k ≠ "deposit" → p !! k = params !! k) as [Hp Ho].
    { case_bool_decide; simplify_eq; [done|]. split; [by rewrite lookup_insert_eq|]. intros. by rewrite lookup_insert_ne. }
    split; [done|]. rewrite Hp. destruct Hc as [(? & ? & ->)|(? & -> & ?)]; [left|right]; done.
  - split; [done|]. revert E. unfold translateDepositParam. destruct (params !! "deposit"); [by eexists|done].
Qed.
