(* ===== verification/ConfigDoc.v ===== *)
(** * Documents of deployment configurations (internal/deploymentconfig/patch.go)

    The values a YAML or JSON document decodes to, the YAML syntax tree with its
    anchors and aliases, and [parseObject], which turns the tree into a value:
    aliases are expanded, merge keys applied, duplicate keys refused, the number of
    nodes and the nesting bounded. yaml.v3 is a parameter ([Yaml]): what it parses
    a text to, what it prints a value as, and what a scalar decodes to. A float64
    is its shortest decimal text without exponent, which determines it. *)

From Stdlib Require Import Ascii.
From stdpp Require Import sorting base gmap strings pretty option numbers list.
From S2P Require Import Prelude GoStd GoJson.

(** ** Values: [any] after a round trip through JSON *)
Inductive any : Type :=
| ANull
| ABool (b : bool)
| ANum (text : string)
| AStr (s : string)
| AArr (l : list any)
| AObj (m : gmap string any).

#[global] Instance any_eq_dec : EqDecision any.
Proof.
  refine (fix go x y :=
    let _ : EqDecision any := @go in
    match x, y with
    | ANull, ANull => left _
    | ABool a, ABool b => cast_if (decide (a = b))
    | ANum a, ANum b => cast_if (decide (a = b))
    | AStr a, AStr b => cast_if (decide (a = b))
    | AArr a, AArr b => cast_if (decide (a = b))
    | AObj a, AObj b => cast_if (decide (a = b))
    | _, _ => right _
    end); congruence.
Defined.

(** [reflect.DeepEqual]: structural, but the two zeros of float64 are equal. *)
Fixpoint unsign (v : any) : any :=
  match v with
  | ANum t => ANum (if bool_decide (t = "-0") then "0" else t)
  | AArr l => AArr (List.map unsign l)
  | AObj m => AObj (unsign <$> m)
  | _ => v
  end.
Definition DeepEqual (a b : any) : bool := bool_decide (unsign a = unsign b).

(** Members of an object: a missing one reads as nil, and so does a member of
    something that is not an object. *)
Definition get (k : string) (m : gmap string any) : any := default ANull (m !! k).
Definition as_obj (v : any) : option (gmap string any) := match v with AObj m => Some m | _ => None end.
Definition as_arr (v : any) : option (list any) := match v with AArr l => Some l | _ => None end.
Definition as_str (v : any) : option string := match v with AStr s => Some s | _ => None end.
Definition as_num (v : any) : option string := match v with ANum t => Some t | _ => None end.
Definition as_bool (v : any) : option bool := match v with ABool b => Some b | _ => None end.
(** [v, _ := x.(map[string]any)]: the nil map when it is not an object. *)
Definition obj (v : any) : gmap string any := default ∅ (as_obj v).

(** [json.Marshal] of a value, as a tree: members in the order of their names. *)
Fixpoint json_of (v : any) : json :=
  match v with
  | ANull => JNull
  | ABool b => JBool b
  | ANum t => JNum t
  | AStr s => enc_string s
  | AArr l => JArr (List.map json_of l)
  | AObj m => JObj (sorted_members (json_of <$> m))
  end.

(** [json.Unmarshal] of a tree into an [any]. *)
Fixpoint any_of (j : json) : any :=
  match j with
  | JNull => ANull
  | JBool b => ABool b
  | JNum t => ANum t
  | JStr s => AStr s
  | JArr l => AArr (List.map any_of l)
  | JObj kvs => AObj (fold_left (λ m kv, match kv with (k, v) => <[k := any_of v]> m end) kvs ∅)
  end.

(** ** YAML syntax trees

    Every node has an identity; an alias names the node it stands for. A scalar
    carries what decoding it and normalizing the result through JSON gives, [None]
    for a failure. The key and the value of a member follow each other in
    [Content]; here they are a pair. *)
Inductive scalar : Type := SNull | SBool (b : bool) | SNum (text : string) | SStr (s : string).
Inductive ynode : Type :=
| YScalar (id : N) (tag value : string) (decoded : option scalar)
| YMap (id : N) (items : list (ynode * ynode))
| YSeq (id : N) (items : list ynode)
| YAlias (id : N) (value : string) (target : N).

Definition scalar_value (v : scalar) : any :=
  match v with SNull => ANull | SBool b => ABool b | SNum t => ANum t | SStr s => AStr s end.

Definition node_id (n : ynode) : N :=
  match n with YScalar i _ _ _ => i | YMap i _ => i | YSeq i _ => i | YAlias i _ _ => i end.
(** [node.Value]. *)
Definition node_value (n : ynode) : string :=
  match n with YScalar _ _ v _ => v | YAlias _ v _ => v | _ => "" end.
(** [node.Tag], as far as it is compared; an alias has none. *)
Definition node_tag (n : ynode) : string :=
  match n with YScalar _ t _ _ => t | YMap _ _ => "!!map" | YSeq _ _ => "!!seq" | YAlias _ _ _ => "" end.

(** [node.Content]. *)
Fixpoint flat (items : list (ynode * ynode)) : list ynode :=
  match items with [] => [] | (k, v) :: items => k :: v :: flat items end.
Definition content (n : ynode) : list ynode :=
  match n with YMap _ items => flat items | YSeq _ items => items | _ => [] end.

(** The node of an identity below a node. *)
Fixpoint find_node (i : N) (n : ynode) : option ynode :=
  if (node_id n =? i)%N then Some n
  else match n with
       | YMap _ items =>
           fold_left (λ r kv, match kv with (k, v) =>
             match r with
             | Some x => Some x
             | None => match find_node i k with Some x => Some x | None => find_node i v end
             end end) items None
       | YSeq _ items => fold_left (λ r n, match r with Some x => Some x | None => find_node i n end) items None
       | _ => None
       end.

(** ** nodeValue *)
Definition errorsNew {A} (s : string) : result A := Err (Errorf s []).

(** A step that counts the nodes it visits. *)
Abbreviation counted A := (N → result (A * N)).
Definition cret {A} (a : A) : counted A := λ c, Ok (a, c).
Definition cbind {A B} (m : counted A) (f : A → counted B) : counted B := λ c, '(a, c) ← m c; f a c.
Definition cfail {A} (s : string) : counted A := λ _, errorsNew s.
Fixpoint cfold {A S} (f : S → A → counted S) (s : S) (l : list A) : counted S :=
  match l with [] => cret s | x :: l => cbind (f s x) (λ s, cfold f s l) end.

(** The members of a merged object, where there is none yet. *)
Definition add_defaults (result : gmap string any) (raw : any) : counted (gmap string any) :=
  match raw with
  | AObj defaults => cret (result ∪ defaults)
  | _ => cfail "YAML merge must name an object"
  end.

Definition is_scalar (n : ynode) : bool := match n with YScalar _ _ _ _ => true | _ => false end.

Section node_value.
Context (root : ynode).

(** [fuel] is 65 less the depth. *)
Fixpoint nodeValue (fuel : nat) (node : ynode) : counted any := λ count,
  let count := (count + 1)%N in
  if (100000 <? count)%N then errorsNew "document expansion exceeds 100000 nodes"
  else match fuel with
  | O => errorsNew "document nesting exceeds 64 levels"
  | S fuel =>
      match node with
      | YAlias _ _ target =>
          match find_node target root with
          | Some n => nodeValue fuel n count
          | None => Panic (* an alias without its node *)
          end
      | YMap _ items =>
          cbind
            (cfold (λ result kv,
               if negb (bool_decide (node_tag kv.1 = "!!merge")) then cret result
               else cbind (nodeValue fuel kv.2) (λ value,
                 cfold add_defaults result (match value with AArr merged => merged | _ => [value] end))) ∅ items)
            (λ result,
               cbind
                 (cfold (λ st kv,
                    let '(result, seen) := st in
                    let key := kv.1 in
                    if negb (is_scalar key && bool_decide (node_tag key ∈ ["!!str"; "!!merge"; "!!int"]))
                    then cfail "object keys must be strings or integers"
                    else
                      cbind (if bool_decide (node_tag key = "!!int")
                             then cbind (nodeValue fuel key) (λ number, match number with ANum t => cret t | _ => λ _, Panic end)
                             else cret (node_value key))
                        (λ keyName,
                           if bool_decide (keyName ∈ (seen : list string)) then cfail "document contains a duplicate key"
                           else if bool_decide (node_tag key = "!!merge") then cret (result, keyName :: seen)
                           else cbind (nodeValue fuel kv.2) (λ value, cret (<[keyName := value]> result, keyName :: seen))))
                    (result, []) items)
                 (λ st, cret (AObj st.1))) count
      | YSeq _ items =>
          cbind (cfold (λ values child, cbind (nodeValue fuel child) (λ value, cret (values ++ [value]))) [] items)
            (λ values, cret (AArr values)) count
      | YScalar _ tag _ decoded =>
          if negb (bool_decide (tag ∈ ["!!str"; "!!null"; "!!int"; "!!float"; "!!bool"])) then errorsNew "unsupported YAML scalar type"
          else match decoded with
               | Some v => Ok (scalar_value v, count)
               | None => errorsNew "invalid scalar"
               end
      end
  end.
End node_value.

(** ** yaml.v3 *)
Class Yaml : Type := {
  yaml_Decode : string → option (ynode * bool); (* the first document, and whether another follows *)
  yaml_Marshal : any → string;
}.

Definition maxDocumentBytes : N := 1048576.

Definition parseObject `{Yaml} (data : string) : result (gmap string any) :=
  if (maxDocumentBytes <? byte_len data)%N then errorsNew "document exceeds 1 MiB"
  else match yaml_Decode data with
       | None => errorsNew "document is not valid YAML or JSON"
       | Some (_, true) => errorsNew "only one document is allowed"
       | Some (root, false) =>
           '(value, _) ← nodeValue root 65 root 0%N;
           match value with AObj document => Ok document | _ => errorsNew "document must be an object" end
       end.

(** ** References to secrets *)
Fixpoint has_sub (sub l : list ascii) : bool :=
  bool_decide (sub `prefix_of` l) || match l with [] => false | _ :: l => has_sub sub l end.
Definition strings_Contains (s sub : string) : bool := has_sub (bytes_of sub) (bytes_of s).

Fixpoint hasReference (v : any) : bool :=
  match v with
  | AStr s => strings_Contains s "ac-secret://"
  | AArr l => existsb hasReference l
  | AObj m => map_fold (λ _ child b, hasReference child || b) false m
  | _ => false
  end.

Definition HasReferences `{Yaml} (sdl : string) : result bool := document ← parseObject sdl; Ok (hasReference (AObj document)).

(** * Size of parsed documents (lemmas)

    A parsed value has no more nodes than [nodeValue] counted, and is no deeper than
    it descended: aliases and merge keys cannot make it larger. *)

(** Nodes of a value, and its nesting. *)
Fixpoint asize (v : any) : N :=
  match v with
  | AArr l => 1 + foldr (λ v n, asize v + n) 0 l
  | AObj m => 1 + map_fold (λ _ v n, asize v + n) 0 m
  | _ => 1
  end%N.
Fixpoint adepth (v : any) : nat :=
  match v with
  | AArr l => S (foldr (λ v n, adepth v `max` n) 0 l)
  | AObj m => S (map_fold (λ _ v n, adepth v `max` n) 0 m)
  | _ => 1
  end.

Definition msize (m : gmap string any) : N := map_fold (λ _ v n, asize v + n)%N 0%N m.
Definition mdepth (m : gmap string any) : nat := map_fold (λ _ v n, adepth v `max` n) 0 m.
Definition lsize (l : list any) : N := foldr (λ v n, asize v + n)%N 0%N l.
Definition ldepth (l : list any) : nat := foldr (λ v n, adepth v `max` n) 0 l.

Lemma asize_obj m : asize (AObj m) = (1 + msize m)%N.
Proof. done. Qed.
Lemma asize_arr l : asize (AArr l) = (1 + lsize l)%N.
Proof. done. Qed.
Lemma adepth_obj m : adepth (AObj m) = S (mdepth m).
Proof. done. Qed.
Lemma adepth_arr l : adepth (AArr l) = S (ldepth l).
Proof. done. Qed.

Lemma msize_fresh m k v : m !! k = None → msize (<[k := v]> m) = (asize v + msize m)%N.
Proof. intros Hk. unfold msize. rewrite map_fold_insert_L; [done|intros; lia|done]. Qed.
Lemma mdepth_fresh m k v : m !! k = None → mdepth (<[k := v]> m) = adepth v `max` mdepth m.
Proof. intros Hk. unfold mdepth. rewrite map_fold_insert_L; [done|intros; lia|done]. Qed.

Lemma msize_delete m k v : m !! k = Some v → msize m = (asize v + msize (delete k m))%N.
Proof. intros Hk. rewrite <-(insert_delete_id m k v Hk) at 1. apply msize_fresh, lookup_delete_eq. Qed.
Lemma mdepth_delete m k v : m !! k = Some v → mdepth m = adepth v `max` mdepth (delete k m).
Proof. intros Hk. rewrite <-(insert_delete_id m k v Hk) at 1. apply mdepth_fresh, lookup_delete_eq. Qed.

Lemma msize_insert m k v : (msize (<[k := v]> m) ≤ asize v + msize m)%N.
Proof.
  destruct (m !! k) as [w|] eqn:E; [|rewrite msize_fresh by done; lia].
  rewrite <-insert_delete_eq, msize_fresh by apply lookup_delete_eq. rewrite (msize_delete m k w) by done. lia.
Qed.
Lemma mdepth_insert m k v : mdepth (<[k := v]> m) ≤ adepth v `max` mdepth m.
Proof.
  destruct (m !! k) as [w|] eqn:E; [|rewrite mdepth_fresh by done; lia].
  rewrite <-insert_delete_eq, mdepth_fresh by apply lookup_delete_eq. rewrite (mdepth_delete m k w) by done. lia.
Qed.

Lemma union_bounds m1 m2 : (msize (m1 ∪ m2) ≤ msize m1 + msize m2)%N ∧ mdepth (m1 ∪ m2) ≤ mdepth m1 `max` mdepth m2.
Proof.
  induction m1 as [|k v m1 Hk IH] using map_ind; [rewrite (left_id_L ∅ (∪)); unfold msize at 2, mdepth at 2; rewrite !map_fold_empty; lia|].
  rewrite <-insert_union_l, (msize_fresh m1), (mdepth_fresh m1) by done.
  pose proof (msize_insert (m1 ∪ m2) k v). pose proof (mdepth_insert (m1 ∪ m2) k v). lia.
Qed.

Lemma lsize_app l l' : lsize (l ++ l') = (lsize l + lsize l')%N.
Proof. induction l as [|v l IH]; [done|]. simpl. unfold lsize in *. lia. Qed.
Lemma ldepth_app l l' : ldepth (l ++ l') = ldepth l `max` ldepth l'.
Proof. induction l as [|v l IH]; [done|]. simpl. unfold ldepth in *. lia. Qed.

(** ** Counting *)

(** [cfold] with an invariant on the state and the count. *)
Lemma cfold_inv {A S} (I : S → N → Prop) (f : S → A → counted S) l : ∀ s c s' c',
  (∀ s c x s' c', x ∈ l → I s c → f s x c = Ok (s', c') → I s' c') →
  I s c → cfold f s l c = Ok (s', c') → I s' c'.
Proof.
  induction l as [|x l IH]; intros s c s' c' Hf HI Hr; simpl in Hr.
  { unfold cret in Hr. by simplify_eq. }
  unfold cbind in Hr. apply bind_ok in Hr as ([s1 c1] & H1 & H2).
  eapply IH; [|eapply Hf; [|exact HI|exact H1]; set_solver|exact H2]. intros; eapply Hf; eauto; set_solver.
Qed.

Definition fits (fuel : nat) (c : N) (v : any) (c' : N) : Prop :=
  (c < c')%N ∧ (c' ≤ 100000)%N ∧ (asize v ≤ c' - c)%N ∧ adepth v ≤ fuel.

(** The members gathered so far, since the object was entered at count [c0]. *)
Definition members_fit (fuel : nat) (c0 : N) (m : gmap string any) (c : N) : Prop :=
  (c0 ≤ c)%N ∧ (c ≤ 100000)%N ∧ (msize m ≤ c - c0)%N ∧ mdepth m ≤ fuel.

Lemma add_defaults_fit fuel m l c m' c' :
  cfold add_defaults m l c = Ok (m', c') →
  c' = c ∧ (msize m' ≤ msize m + lsize l)%N ∧ (mdepth m ≤ fuel → ldepth l ≤ S fuel → mdepth m' ≤ fuel).
Proof.
  revert m. induction l as [|v l IH]; intros m Hr; simpl in Hr.
  { unfold cret in Hr. simplify_eq. simpl. split_and!; [done|lia|done]. }
  unfold cbind in Hr. destruct v; simpl in Hr; try done.
  apply IH in Hr as (-> & Hs & Hd). destruct (union_bounds m m0). simpl. fold (msize m0) (mdepth m0) (lsize l) (ldepth l).
  split_and!; [done|lia|]. intros. apply Hd; lia.
Qed.

Section bounds.
Context (root : ynode) (fuel : nat).
Context (IH : ∀ n c v c', nodeValue root fuel n c = Ok (v, c') → fits fuel c v c').

(** The two loops over an object's members. *)
Lemma merge_fit c0 m kv c m' c' :
  members_fit fuel c0 m c →
  (if negb (bool_decide (node_tag kv.1 = "!!merge")) then cret m
   else cbind (nodeValue root fuel kv.2) (λ value,
     cfold add_defaults m (match value with AArr merged => merged | _ => [value] end))) c = Ok (m', c') →
  members_fit fuel c0 m' c'.
Proof.
  intros Hm Hr. destruct (bool_decide _); simpl in Hr; [|unfold cret in Hr; by simplify_eq].
  unfold cbind in Hr. apply bind_ok in Hr as ([v c1] & Hv & Hr). apply IH in Hv as (H1 & H2 & H3 & H4).
  apply (add_defaults_fit fuel) in Hr as (-> & Hs & Hd). destruct Hm as (M1 & M2 & M3 & M4).
  assert ((lsize match v with AArr merged => merged | _ => [v] end ≤ asize v)%N ∧
    ldepth match v with AArr merged => merged | _ => [v] end ≤ adepth v) as [L1 L2].
  { destruct v as [| | | |l|]; simpl; fold (lsize l) (ldepth l) || idtac; lia. }
  split_and!; [lia|lia|lia|]. apply Hd; lia.
Qed.

Definition key_name (key : ynode) : counted string :=
  if bool_decide (node_tag key = "!!int")
  then cbind (nodeValue root fuel key) (λ number, match number with ANum t => cret t | _ => λ _, Panic end)
  else cret (node_value key).

Lemma key_name_count key c k c' : key_name key c = Ok (k, c') → (c ≤ c')%N ∧ (c ≤ 100000 → c' ≤ 100000)%N.
Proof.
  unfold key_name. destruct (bool_decide _); [|unfold cret; intros; simplify_eq; lia].
  unfold cbind. intros Hr. apply bind_ok in Hr as ([v c1] & Hv & Hr). apply IH in Hv as (H1 & H2 & _).
  destruct v; try done. unfold cret in Hr. simplify_eq. lia.
Qed.

Lemma member_fit c0 (st : gmap string any * list string) kv c st' c' :
  members_fit fuel c0 st.1 c →
  (let '(result, seen) := st in
   let key := kv.1 in
   if negb (is_scalar key && bool_decide (node_tag key ∈ ["!!str"; "!!merge"; "!!int"]))
   then cfail "object keys must be strings or integers"
   else cbind (key_name key) (λ keyName,
     if bool_decide (keyName ∈ (seen : list string)) then cfail "document contains a duplicate key"
     else if bool_decide (node_tag key = "!!merge") then cret (result, keyName :: seen)
     else cbind (nodeValue root fuel kv.2) (λ value, cret (<[keyName := value]> result, keyName :: seen)))) c = Ok (st', c') →
  members_fit fuel c0 st'.1 c'.
Proof.
  destruct st as [m seen]. simpl. intros (M1 & M2 & M3 & M4) Hr. destruct (negb _); [done|].
  unfold cbind at 1 in Hr. apply bind_ok in Hr as ([k c1] & Hk & Hr). apply key_name_count in Hk as [K1 K2].
  specialize (K2 M2). destruct (bool_decide (k ∈ seen)); [done|]. destruct (bool_decide _).
  { unfold cret in Hr. simplify_eq. simpl. split_and!; [lia|lia|lia|done]. }
  unfold cbind in Hr. apply bind_ok in Hr as ([v c2] & Hv & Hr). unfold cret in Hr. simplify_eq.
  apply IH in Hv as (H1 & H2 & H3 & H4). pose proof (msize_insert m k v). pose proof (mdepth_insert m k v).
  simpl. split_and!; lia.
Qed.

Lemma items_fit c0 vs child c vs' c' :
  ((c0 ≤ c)%N ∧ (c ≤ 100000)%N ∧ (lsize vs ≤ c - c0)%N ∧ ldepth vs ≤ fuel) →
  cbind (nodeValue root fuel child) (λ value, cret (vs ++ [value])) c = Ok (vs', c') →
  (c0 ≤ c')%N ∧ (c' ≤ 100000)%N ∧ (lsize vs' ≤ c' - c0)%N ∧ ldepth vs' ≤ fuel.
Proof.
  intros (M1 & M2 & M3 & M4) Hr. unfold cbind in Hr. apply bind_ok in Hr as ([v c1] & Hv & Hr).
  unfold cret in Hr. simplify_eq. apply IH in Hv as (H1 & H2 & H3 & H4).
  rewrite lsize_app, ldepth_app. simpl. split_and!; lia.
Qed.
End bounds.

Lemma nodeValue_fits root fuel : ∀ n c v c', nodeValue root fuel n c = Ok (v, c') → fits fuel c v c'.
Proof.
  induction fuel as [|fuel IH]; intros n c v c' Hr; simpl in Hr; destruct (100000 <? c + 1)%N eqn:Ec; try done.
  apply N.ltb_ge in Ec. destruct n as [i tag value decoded|i items|i items|i value target].
  - destruct (negb _); [done|]. destruct decoded as [x|]; [|done]. simplify_eq.
    unfold fits. destruct x; simpl; split_and!; lia.
  - unfold cbind at 1 in Hr. apply bind_ok in Hr as ([m c1] & Hm & Hr).
    apply (cfold_inv (members_fit fuel (c + 1))) in Hm.
    2:{ intros; by eapply merge_fit. }
    2:{ unfold members_fit, msize, mdepth. rewrite !map_fold_empty. split_and!; lia. }
    unfold cbind at 1 in Hr. apply bind_ok in Hr as ([st c2] & Hst & Hr). unfold cret in Hr. simplify_eq.
    apply (cfold_inv (λ st c', members_fit fuel (c + 1) st.1 c')) in Hst; [|intros; by eapply member_fit|done].
    destruct Hst as (M1 & M2 & M3 & M4). unfold fits. rewrite asize_obj, adepth_obj. split_and!; lia.
  - unfold cbind at 1 in Hr. apply bind_ok in Hr as ([vs c1] & Hm & Hr). unfold cret in Hr. simplify_eq.
    apply (cfold_inv (λ vs c1, (c + 1 ≤ c1)%N ∧ (c1 ≤ 100000)%N ∧ (lsize vs ≤ c1 - (c + 1))%N ∧ ldepth vs ≤ fuel)) in Hm.
    2:{ intros; by eapply items_fit. }
    2:{ simpl. split_and!; lia. }
    destruct Hm as (M1 & M2 & M3 & M4). unfold fits. rewrite asize_arr, adepth_arr. split_and!; lia.
  - destruct (find_node target root) as [n|]; [|done]. apply IH in Hr as (H1 & H2 & H3 & H4). unfold fits. split_and!; lia.
Qed.
