(* ===== verification/ConfigPatch.v ===== *)
(** * Configuration patches (internal/deploymentconfig/patch.go)

    The patch a user writes, its strict decoding and its validation. A
    [json.RawMessage] is the tree of the document it holds, [None] when it is
    empty; a nil map is an empty one, since the code only ranges over them and takes
    their length. *)

From Stdlib Require Import Ascii.
From stdpp Require Import sorting base gmap strings pretty option numbers list.
From S2P Require Import Prelude GoStd GoJson Context ConfigDoc.

Record HTTPOptionsPatch : Type := MkHTTPOptions {
  ho_MaxBodySize : option N; ho_ReadTimeout : option N; ho_SendTimeout : option N;
  ho_NextTries : option N; ho_NextTimeout : option N; ho_NextCases : option (list string);
}.
Record ExposePatch : Type := MkExposePatch {
  ep_Port : option N; ep_As : option N; ep_Accept : option (list string); ep_HTTPOptions : option HTTPOptionsPatch;
}.
Record StoragePatch : Type := MkStoragePatch { sp_Mount : option string; sp_ReadOnly : option bool }.
Record ServicePatch : Type := MkServicePatch {
  sv_Image : option string; sv_Command : option json; sv_Args : option json; sv_Env : gmap string (option string);
  sv_Credentials : option json; sv_Expose : gmap string ExposePatch; sv_Storage : gmap string StoragePatch;
}.
Record Patch : Type := MkPatch { pt_Services : gmap string ServicePatch; pt_Name : option string; pt_IfManifestVersion : string }.

Definition zero_http : HTTPOptionsPatch := MkHTTPOptions None None None None None None.
Definition zero_expose : ExposePatch := MkExposePatch None None None None.
Definition zero_storage : StoragePatch := MkStoragePatch None None.
Definition zero_service : ServicePatch := MkServicePatch None None None ∅ None ∅ ∅.
Definition zero_patch : Patch := MkPatch ∅ None "".

(** ** Decoding (the json tags of the types) *)

(** [json.RawMessage] keeps every value, null included. *)
Definition dec_raw : decoder (option json) := λ j _, Some (Some j).

(** [map[string]T]: each value decodes into a fresh [T]; null is the nil map. *)
Definition dec_map_of {A} (zero : A) (dec : decoder A) : decoder (gmap string A) := λ j old,
  match j with
  | JNull => Some ∅
  | JObj kvs =>
      vs ← mapM (λ kv, (λ v, (kv.1, v)) <$> dec kv.2 zero) kvs;
      Some (foldl (λ m kv, <[kv.1 := kv.2]> m) old vs)
  | _ => None
  end.

(** [*[]string]: null is the nil pointer; a null element is the empty string. *)
Definition dec_strings : decoder (option (list string)) := λ j _,
  match j with
  | JNull => Some None
  | JArr l => Some <$> mapM (λ j, dec_string j "") l
  | _ => None
  end.

Definition http_fields : fields HTTPOptionsPatch := [
  ("maxBodySize", field ho_MaxBodySize (λ v r, MkHTTPOptions v (ho_ReadTimeout r) (ho_SendTimeout r) (ho_NextTries r) (ho_NextTimeout r) (ho_NextCases r)) (dec_ptr 0%N (dec_uint u32_max)));
  ("readTimeout", field ho_ReadTimeout (λ v r, MkHTTPOptions (ho_MaxBodySize r) v (ho_SendTimeout r) (ho_NextTries r) (ho_NextTimeout r) (ho_NextCases r)) (dec_ptr 0%N (dec_uint u32_max)));
  ("sendTimeout", field ho_SendTimeout (λ v r, MkHTTPOptions (ho_MaxBodySize r) (ho_ReadTimeout r) v (ho_NextTries r) (ho_NextTimeout r) (ho_NextCases r)) (dec_ptr 0%N (dec_uint u32_max)));
  ("nextTries", field ho_NextTries (λ v r, MkHTTPOptions (ho_MaxBodySize r) (ho_ReadTimeout r) (ho_SendTimeout r) v (ho_NextTimeout r) (ho_NextCases r)) (dec_ptr 0%N (dec_uint u32_max)));
  ("nextTimeout", field ho_NextTimeout (λ v r, MkHTTPOptions (ho_MaxBodySize r) (ho_ReadTimeout r) (ho_SendTimeout r) (ho_NextTries r) v (ho_NextCases r)) (dec_ptr 0%N (dec_uint u32_max)));
  ("nextCases", field ho_NextCases (λ v r, MkHTTPOptions (ho_MaxBodySize r) (ho_ReadTimeout r) (ho_SendTimeout r) (ho_NextTries r) (ho_NextTimeout r) v) dec_strings)
].
Definition expose_fields : fields ExposePatch := [
  ("port", field ep_Port (λ v r, MkExposePatch v (ep_As r) (ep_Accept r) (ep_HTTPOptions r)) (dec_ptr 0%N (dec_uint u32_max)));
  ("as", field ep_As (λ v r, MkExposePatch (ep_Port r) v (ep_Accept r) (ep_HTTPOptions r)) (dec_ptr 0%N (dec_uint u32_max)));
  ("accept", field ep_Accept (λ v r, MkExposePatch (ep_Port r) (ep_As r) v (ep_HTTPOptions r)) dec_strings);
  ("httpOptions", field ep_HTTPOptions (λ v r, MkExposePatch (ep_Port r) (ep_As r) (ep_Accept r) v) (dec_ptr zero_http (dec_struct true http_fields)))
].
Definition storage_fields : fields StoragePatch := [
  ("mount", field sp_Mount (λ v r, MkStoragePatch v (sp_ReadOnly r)) (dec_ptr "" dec_string));
  ("readOnly", field sp_ReadOnly (λ v r, MkStoragePatch (sp_Mount r) v) (dec_ptr false dec_bool))
].
Definition service_fields : fields ServicePatch := [
  ("image", field sv_Image (λ v r, MkServicePatch v (sv_Command r) (sv_Args r) (sv_Env r) (sv_Credentials r) (sv_Expose r) (sv_Storage r)) (dec_ptr "" dec_string));
  ("command", field sv_Command (λ v r, MkServicePatch (sv_Image r) v (sv_Args r) (sv_Env r) (sv_Credentials r) (sv_Expose r) (sv_Storage r)) dec_raw);
  ("args", field sv_Args (λ v r, MkServicePatch (sv_Image r) (sv_Command r) v (sv_Env r) (sv_Credentials r) (sv_Expose r) (sv_Storage r)) dec_raw);
  ("env", field sv_Env (λ v r, MkServicePatch (sv_Image r) (sv_Command r) (sv_Args r) v (sv_Credentials r) (sv_Expose r) (sv_Storage r)) (dec_map_of None (dec_ptr "" dec_string)));
  ("credentials", field sv_Credentials (λ v r, MkServicePatch (sv_Image r) (sv_Command r) (sv_Args r) (sv_Env r) v (sv_Expose r) (sv_Storage r)) dec_raw);
  ("expose", field sv_Expose (λ v r, MkServicePatch (sv_Image r) (sv_Command r) (sv_Args r) (sv_Env r) (sv_Credentials r) v (sv_Storage r)) (dec_map_of zero_expose (dec_struct true expose_fields)));
  ("storage", field sv_Storage (λ v r, MkServicePatch (sv_Image r) (sv_Command r) (sv_Args r) (sv_Env r) (sv_Credentials r) (sv_Expose r) v) (dec_map_of zero_storage (dec_struct true storage_fields)))
].
Definition dec_service : decoder ServicePatch := dec_struct true service_fields.
Definition patch_fields : fields Patch := [
  ("services", field pt_Services (λ v r, MkPatch v (pt_Name r) (pt_IfManifestVersion r)) (dec_map_of zero_service dec_service));
  ("name", field pt_Name (λ v r, MkPatch (pt_Services r) v (pt_IfManifestVersion r)) (dec_ptr "" dec_string));
  ("ifManifestVersion", field pt_IfManifestVersion (λ v r, MkPatch (pt_Services r) (pt_Name r) v) dec_string)
].
Definition dec_patch : decoder Patch := dec_struct true patch_fields.

(** ** Validation *)

(** The length of the rune a text starts with; a byte that starts none counts as
    one rune of its own. *)
Definition rune_len (l : list ascii) : nat :=
  match l with
  | c1 :: c2 :: c3 :: c4 :: _ => if utf8_2 c1 c2 then 2 else if utf8_3 c1 c2 c3 then 3 else if utf8_4 c1 c2 c3 c4 then 4 else 1
  | c1 :: c2 :: c3 :: _ => if utf8_2 c1 c2 then 2 else if utf8_3 c1 c2 c3 then 3 else 1
  | c1 :: c2 :: _ => if utf8_2 c1 c2 then 2 else 1
  | _ => 1
  end.

(** [utf8.RuneCountInString]: [skip] bytes belong to a rune already counted. *)
Fixpoint rune_count (skip : nat) (l : list ascii) : nat :=
  match l with
  | [] => 0
  | _ :: l' => match skip with S skip => rune_count skip l' | O => S (rune_count (pred (rune_len l)) l') end
  end.

Definition validEnvName (name : string) : bool :=
  match bytes_of name with
  | [] => false
  | c :: l =>
      let ok c := bool_decide (c ∈ ["-"; "."; "_"]%char) || byte_in 97 122 c || byte_in 65 90 c in
      ok c && forallb (λ c, ok c || byte_in 48 57 c) l
  end.

Abbreviation verdict := (option error).
Definition reject (s : string) : verdict := Some (Errorf s []).
(** The first rejection in a list. *)
Definition first_of {A} (f : A → verdict) (l : list A) : verdict := foldr (λ x r, match f x with Some e => Some e | None => r end) None l.
Definition values {A} (m : gmap string A) : list A := (map_to_list m).*2.

(** [command] and [args]: arrays of strings, or null. *)
Definition check_strings (raw : option json) : verdict :=
  match raw with
  | None | Some JNull => None
  | Some (JArr l) => if forallb (λ j, match j with JStr _ => true | _ => false end) l then None else reject "command and args must contain only strings"
  | Some _ => reject "command and args must be arrays of strings or null"
  end.

Definition cred_fields : fields (option string * option string * option string) := [
  ("host", field (λ r, r.1.1) (λ v r, (v, r.1.2, r.2)) (dec_ptr "" dec_string));
  ("username", field (λ r, r.1.2) (λ v r, (r.1.1, v, r.2)) (dec_ptr "" dec_string));
  ("password", field (λ r, r.2) (λ v r, (r.1.1, r.1.2, v)) (dec_ptr "" dec_string))
].
Definition check_credentials (raw : option json) : verdict :=
  match raw with
  | None | Some JNull => None
  | Some j => match dec_struct true cred_fields j (None, None, None) with
              | Some (Some _, Some _, Some _) => None
              | _ => reject "credentials must contain host, username, and password strings, or be null"
              end
  end.

Definition next_conditions : list string := ["error"; "timeout"; "500"; "502"; "503"; "504"; "403"; "404"; "429"].
Definition check_next_cases (cases : list string) : verdict :=
  match cases with
  | [] => reject "nextCases must not be empty"
  | _ => first_of (λ value,
           if bool_decide (value ∈ next_conditions) then None
           else if bool_decide (value = "off") then if (length cases =? 1)%nat then None else reject "nextCases off must stand alone"
           else reject "nextCases contains an unsupported condition") cases
  end.

Definition check_http (o : HTTPOptionsPatch) : verdict :=
  if match ho_MaxBodySize o with Some n => (n =? 0)%N || (104857600 <? n)%N | None => false end
  then reject "maxBodySize must be between 1 and 104857600"
  else if bool_decide (ho_ReadTimeout o = Some 0%N) || bool_decide (ho_SendTimeout o = Some 0%N)
  then reject "readTimeout and sendTimeout must be positive"
  else match ho_NextCases o with Some cases => check_next_cases cases | None => None end.

Definition check_port (port : option N) : verdict :=
  match port with
  | Some n => if (n =? 0)%N || (65535 <? n)%N then reject "port numbers must be between 1 and 65535" else None
  | None => None
  end.

Definition check_expose (e : ExposePatch) : verdict :=
  match first_of check_port [ep_Port e; ep_As e] with
  | Some x => Some x
  | None => match ep_HTTPOptions e with Some o => check_http o | None => None end
  end.

Definition check_service (s : ServicePatch) : verdict :=
  match first_of check_strings [sv_Command s; sv_Args s] with
  | Some x => Some x
  | None =>
      match check_credentials (sv_Credentials s) with
      | Some x => Some x
      | None =>
          if existsb (λ kv, negb (validEnvName kv.1)) (map_to_list (sv_Env s)) then reject "env contains an invalid variable name"
          else first_of check_expose (values (sv_Expose s))
      end
  end.

(** Go visits the services and endpoints in an unspecified order, so which of
    several faults is reported is unspecified. *)
Definition Validate (p : Patch) : verdict :=
  if match pt_Name p with
     | Some n => bool_decide (TrimSpace n = "") || (256 <? rune_count 0 (bytes_of (TrimSpace n)))%nat
     | None => false
     end then reject "deployment name must contain 1 to 256 characters"
  else if (64 <? length (bytes_of (pt_IfManifestVersion p)))%nat then reject "manifest version is too long"
  else first_of check_service (values (pt_Services p)).

(** ** The shape of a patch document *)
Definition checkFields (object : gmap string any) (fields nullable : list string) : verdict :=
  first_of (λ kv : string * any,
    let '(key, value) := kv in
    if negb (bool_decide (key ∈ fields)) then reject "deployment patch contains an unknown field"
    else if bool_decide (value = ANull) && negb (bool_decide (key ∈ nullable)) then reject "deployment patch contains null in a nonnullable field"
    else match value with
         | AArr l => if forallb (λ v, match v with AStr _ => true | _ => false end) l then None
                     else reject "deployment patch arrays must contain strings"
         | _ => None
         end) (map_to_list object).

Definition orelse (a b : verdict) : verdict := match a with Some e => Some e | None => b end.

Definition shape_expose (raw : any) : verdict :=
  match raw with
  | AObj expose =>
      orelse (checkFields expose ["port"; "as"; "accept"; "httpOptions"] [])
        (match get "httpOptions" expose with
         | AObj options => checkFields options ["maxBodySize"; "readTimeout"; "sendTimeout"; "nextTries"; "nextTimeout"; "nextCases"] []
         | _ => None
         end)
  | _ => reject "expose patch must be an object"
  end.

Definition shape_volume (raw : any) : verdict :=
  match raw with
  | AObj volume => checkFields volume ["mount"; "readOnly"] []
  | _ => reject "storage patch must be an object"
  end.

Definition shape_service (raw : any) : verdict :=
  match raw with
  | AObj service =>
      orelse (checkFields service ["image"; "command"; "args"; "env"; "credentials"; "expose"; "storage"] ["command"; "args"; "credentials"])
        (orelse (match get "credentials" service with
                 | AObj credentials => checkFields credentials ["host"; "username"; "password"] []
                 | _ => None
                 end)
           (orelse (first_of shape_expose (values (obj (get "expose" service))))
              (first_of shape_volume (values (obj (get "storage" service))))))
  | _ => reject "service patch must be an object"
  end.

Definition validatePatchShape (document : gmap string any) : verdict :=
  orelse (checkFields document ["services"; "name"; "ifManifestVersion"] [])
    (first_of shape_service (values (obj (get "services" document)))).

(** [ParsePatch]: one strict object. *)
Definition ParsePatch `{Yaml} (data : string) : result Patch :=
  document ← map_err (Wrapf "invalid deployment patch: %w" []) (parseObject data);
  match validatePatchShape document with
  | Some e => Err e
  | None =>
      match dec_patch (json_of (AObj document)) zero_patch with
      | None => errorsNew "invalid deployment patch: unknown field or incorrect field type"
      | Some p => match Validate p with Some e => Err e | None => Ok p end
      end
  end.

(** ** Does a patch assign anything (apply.go, diff.go) *)
Definition http_values (o : HTTPOptionsPatch) : list (string * any) :=
  omap (λ nv : string * option N, (λ n, (nv.1, ANum (FormatUint n))) <$> nv.2)
    [("max_body_size", ho_MaxBodySize o); ("read_timeout", ho_ReadTimeout o); ("send_timeout", ho_SendTimeout o);
     ("next_tries", ho_NextTries o); ("next_timeout", ho_NextTimeout o)]
  ++ match ho_NextCases o with Some l => [("next_cases", AArr (AStr <$> l))] | None => [] end.

Definition httpOptionValues (o : HTTPOptionsPatch) : gmap string any := list_to_map (http_values o).

Definition expose_assigns (e : ExposePatch) : bool :=
  bool_decide (is_Some (ep_Port e)) || bool_decide (is_Some (ep_As e)) || bool_decide (is_Some (ep_Accept e))
  || match ep_HTTPOptions e with Some o => negb (bool_decide (httpOptionValues o = ∅)) | None => false end.
Definition storage_assigns (s : StoragePatch) : bool := bool_decide (is_Some (sp_Mount s)) || bool_decide (is_Some (sp_ReadOnly s)).

Definition serviceAssigns (s : ServicePatch) : bool :=
  bool_decide (is_Some (sv_Image s)) || bool_decide (is_Some (sv_Command s)) || bool_decide (is_Some (sv_Args s))
  || bool_decide (is_Some (sv_Credentials s)) || negb (bool_decide (sv_Env s = ∅))
  || existsb expose_assigns (values (sv_Expose s)) || existsb storage_assigns (values (sv_Storage s)).

Definition HasChanges (p : Patch) : bool :=
  bool_decide (is_Some (pt_Name p)) || existsb serviceAssigns (values (pt_Services p)).
