(* ===== verification/ConfigApply.v ===== *)
(** * Applying a configuration patch (internal/deploymentconfig/apply.go)

    A parsed document has no sharing: [nodeValue] builds a fresh value each time it
    meets an alias. The maps and slices [Apply] updates in place are therefore
    values here, written back where the code reads them. Go ranges over maps in an
    unspecified order; the model takes the order of [map_to_list], which can change
    only which of several faults is reported. *)

From Stdlib Require Import Ascii.
From stdpp Require Import sorting base gmap strings pretty option numbers list.
From S2P Require Import Prelude GoStd GoJson Context ConfigDoc ConfigPatch.

(** ** Environment *)

(** [strings.Cut(entry, "=")]. *)
Definition cut_eq (entry : string) : string * string * bool :=
  match split2 "=" entry with Some (k, v) => (k, v, true) | None => (entry, "", false) end.
Definition env_key (entry : string) : string := (cut_eq entry).1.1.

Definition env_kept (patch : gmap string (option string)) (entry : any) : bool :=
  match entry with AStr value => bool_decide (patch !! env_key value = None) | _ => true end.

Definition env_added (patch : gmap string (option string)) : list any :=
  omap (λ key, match patch !! key with Some (Some value) => Some (AStr (key +:+ "=" +:+ value)) | _ => None end)
    (sort_strings (map_to_list patch).*1).

Definition env_values (source : list any) (patch : gmap string (option string)) : list any :=
  filter (λ entry, env_kept patch entry) source ++ env_added patch.

Definition applyEnv (service : gmap string any) (patch : gmap string (option string)) : gmap string any :=
  let source := default [] (as_arr (get "env" service)) in
  match env_values source patch with
  | [] => delete "env" service
  | values => <["env" := AArr values]> service
  end.

(** ** Endpoints *)

(** Two float64 are equal: their texts agree, or both are zeros. *)
Definition is_zero (t : string) : bool := bool_decide (t ∈ ["0"; "-0"]).
Definition float_eq (a b : string) : bool := bool_decide (a = b) || (is_zero a && is_zero b).
(** Two interface values are equal, one of them a float64. *)
Definition num_eq (a b : any) : bool :=
  match a, b with ANum a, ANum b => float_eq a b | _, _ => false end.

Definition externalPort (entry : gmap string any) : string :=
  match get "as" entry with
  | ANum t => if is_zero t then default "0" (as_num (get "port" entry)) else t
  | _ => default "0" (as_num (get "port" entry))
  end.

Definition targets (entry : gmap string any) : list any := default [] (as_arr (get "to" entry)).
Definition is_global (value : any) : bool := default false (as_bool (get "global" (obj value))).

(** [strings.EqualFold(protocol, "tcp")]: no rune outside ASCII folds to t, c or p. *)
Definition fold_tcp (s : string) : bool := bool_decide (upper_byte <$> bytes_of s = bytes_of "TCP").

Definition endpointKind (entry : gmap string any) : string :=
  if existsb is_global (targets entry) then
    let protocol := default "" (as_str (get "proto" entry)) in
    if (bool_decide (protocol = "") || fold_tcp protocol) && float_eq (externalPort entry) "80" then "http" else "random"
  else "internal".

Definition hasLeasedIP (entry : gmap string any) : bool :=
  existsb (λ value, negb (bool_decide (default "" (as_str (get "ip" (obj value))) = ""))) (targets entry).

(** The endpoint a patch addresses: [index] is the match so far. *)
Fixpoint find_endpoint (port : string) (i : nat) (index : option nat) (before : list (gmap string any)) : result nat :=
  match before with
  | [] => match index with Some i => Ok i | None => errorsNew "patch names a port not declared in the SDL" end
  | entry :: before =>
      if bool_decide (get "port" entry = ANum port) then
        match index with
        | Some _ => errorsNew "patch port matches multiple endpoints; use redeploy to change ambiguous endpoints"
        | None => find_endpoint port (S i) (Some i) before
        end
      else find_endpoint port (S i) index before
  end.

Definition set_num (key : string) (value : option N) (entry : gmap string any) : gmap string any :=
  match value with Some n => <[key := ANum (FormatUint n)]> entry | None => entry end.
Definition move_ports (change : ExposePatch) (entry : gmap string any) : gmap string any :=
  set_num "as" (ep_As change) (set_num "port" (ep_Port change) entry).

(** One turn of the first loop over the patch. *)
Definition expose_step (before : list (gmap string any)) (st : list (gmap string any) * gmap nat ExposePatch)
    (kv : string * ExposePatch) : result (list (gmap string any) * gmap nat ExposePatch) :=
  let '(after, changed) := st in
  let '(port, change) := kv in
  index ← find_endpoint port 0 None before;
  match before !! index, after !! index with
  | Some b, Some a =>
      let a := move_ports change a in
      if negb (bool_decide (endpointKind b = endpointKind a)) then errorsNew "patch changes an endpoint kind; use redeploy"
      else if hasLeasedIP b && (negb (num_eq (get "port" b) (get "port" a)) || negb (float_eq (externalPort b) (externalPort a)))
      then errorsNew "patch moves a port reached through a leased IP; use redeploy"
      else Ok (<[index := a]> after, <[index := change]> changed)
  | _, _ => Panic
  end.

(** The loop over the changed endpoints and every other endpoint. *)
Definition collision (before after : list (gmap string any)) (change : nat * ExposePatch) (j : nat) : verdict :=
  let '(i, change) := change in
  if (i =? j)%nat then None
  else match before !! i, after !! i, after !! j with
       | Some bi, Some ai, Some aj =>
           if bool_decide (is_Some (ep_Port change)) && num_eq (get "port" ai) (get "port" aj)
           then reject "patch creates a container port collision"
           else if negb (float_eq (externalPort bi) (externalPort ai)) && float_eq (externalPort ai) (externalPort aj)
           then reject "patch creates an external port collision"
           else None
       | _, _, _ => None
       end.
Definition collisions (before after : list (gmap string any)) (changed : gmap nat ExposePatch) : verdict :=
  first_of (λ change, first_of (collision before after change) (seq 0 (length after))) (map_to_list changed).

(** The last loop: the other fields of a changed endpoint. *)
Definition set_accept (accept : option (list string)) (entry : gmap string any) : gmap string any :=
  match accept with Some l => <["accept" := AArr (AStr <$> l)]> entry | None => entry end.
Definition set_http (options : option HTTPOptionsPatch) (entry : gmap string any) : gmap string any :=
  match options with
  | Some o =>
      let fields := httpOptionValues o in
      if bool_decide (fields = ∅) then entry
      else <["http_options" := AObj (fields ∪ obj (get "http_options" entry))]> entry
  | None => entry
  end.
Definition finish_entry (changed : gmap nat ExposePatch) (i : nat) (entry : gmap string any) : gmap string any :=
  match changed !! i with
  | Some change => set_http (ep_HTTPOptions change) (set_accept (ep_Accept change) entry)
  | None => entry
  end.

Definition apply_entries (before : list (gmap string any)) (patch : gmap string ExposePatch) : result (list (gmap string any)) :=
  '(after, changed) ← foldR (expose_step before) (before, ∅) (map_to_list patch);
  match collisions before after changed with
  | Some e => Err e
  | None => Ok (imap (finish_entry changed) after)
  end.

Definition applyExpose (service : gmap string any) (patch : gmap string ExposePatch) : result (gmap string any) :=
  if bool_decide (patch = ∅) then Ok service
  else match mapM as_obj (default [] (as_arr (get "expose" service))) with
       | None => errorsNew "SDL expose entries must be objects"
       | Some before => entries ← apply_entries before patch; Ok (<["expose" := AArr (AObj <$> entries)]> service)
       end.

(** ** Storage *)
Definition set_volume (change : StoragePatch) (volume : gmap string any) : gmap string any :=
  let volume := match sp_Mount change with Some m => <["mount" := AStr m]> volume | None => volume end in
  match sp_ReadOnly change with Some b => <["readOnly" := ABool b]> volume | None => volume end.

Definition storage_step (storage : gmap string any) (kv : string * StoragePatch) : result (gmap string any) :=
  match storage !! kv.1 with
  | Some (AObj volume) => Ok (<[kv.1 := AObj (set_volume kv.2 volume)]> storage)
  | _ => errorsNew "patch names a storage volume not declared in the SDL"
  end.

(** The volumes are written back through [params] and [storage] when there is one. *)
Definition applyStorage (service : gmap string any) (patch : gmap string StoragePatch) : result (gmap string any) :=
  let params := obj (get "params" service) in
  storage ← foldR storage_step (obj (get "storage" params)) (map_to_list patch);
  Ok (if bool_decide (patch = ∅) then service
      else <["params" := AObj (<["storage" := AObj storage]> params)]> service).

(** ** Shared definitions *)
Section shared.
Context (root : ynode).

Fixpoint markShared (node : ynode) (referenced : gset N) : gset N :=
  if bool_decide (node_id node ∈ referenced) then referenced
  else
    let referenced := {[node_id node]} ∪ referenced in
    match node with
    | YMap _ items => fold_left (λ r kv, match kv with (k, v) => markShared v (markShared k r) end) items referenced
    | YSeq _ items => fold_left (λ r n, markShared n r) items referenced
    | _ => referenced
    end.

(** An alias always has its node: parsing followed it before. *)
Fixpoint scan (node : ynode) (referenced : gset N) : gset N :=
  match node with
  | YAlias _ _ target => match find_node target root with Some n => markShared n referenced | None => referenced end
  | YMap _ items => fold_left (λ r kv, match kv with (k, v) => scan v (scan k r) end) items referenced
  | YSeq _ items => fold_left (λ r n, scan n r) items referenced
  | YScalar _ _ _ _ => referenced
  end.

Definition is_alias (node : ynode) : bool := match node with YAlias _ _ _ => true | _ => false end.
Definition mappingNode (node : ynode) (key : string) : option ynode :=
  match node with
  | YMap _ items => snd <$> List.find (λ kv, bool_decide (node_value kv.1 = key)) items
  | _ => None
  end.
(** [node.Alias] of an alias, the node itself otherwise. *)
Definition resolve (node : ynode) : ynode :=
  match node with YAlias _ _ target => default node (find_node target root) | _ => node end.

Definition shared (referenced : gset N) (node : option ynode) : bool :=
  match node with Some n => is_alias n || bool_decide (node_id n ∈ referenced) | None => false end.

Definition entry_shared (referenced : gset N) (expose : gmap string ExposePatch) (entry : ynode) : bool :=
  match mappingNode (resolve entry) "port" with
  | None => false
  | Some port =>
      match expose !! node_value (resolve port) with
      | None => false
      | Some change =>
          shared referenced (Some entry)
          || match ep_HTTPOptions change with Some o => negb (bool_decide (httpOptionValues o = ∅)) | None => false end
             && shared referenced (mappingNode entry "http_options")
      end
  end.

Definition volume_shared (referenced : gset N) (storage : ynode) (kv : string * StoragePatch) : bool :=
  storage_assigns kv.2 && shared referenced (mappingNode storage kv.1).

(** What the second loop finds for one service. *)
Definition service_shared (referenced : gset N) (services : ynode) (kv : string * ServicePatch) : verdict :=
  let '(name, change) := kv in
  if negb (serviceAssigns change) then None
  else match mappingNode services name with
  | None => None
  | Some service =>
      if shared referenced (Some service) || bool_decide (is_Some (mappingNode service "<<"))
      then reject "SDL anchors share a patched service definition; expand its anchors before updating"
      else if negb (bool_decide (sv_Env change = ∅)) && shared referenced (mappingNode service "env")
           || bool_decide (is_Some (sv_Credentials change)) && shared referenced (mappingNode service "credentials")
      then reject "SDL anchors share patched environment or credentials; expand its anchors before updating"
      else
        orelse
          (match mappingNode service "expose" with
           | Some exposed =>
               if bool_decide (sv_Expose change = ∅) then None
               else if shared referenced (Some exposed)
               then reject "SDL anchors share patched endpoints; expand its anchors before updating"
               else if existsb (entry_shared referenced (sv_Expose change)) (content exposed)
               then reject "SDL anchors share a patched endpoint; expand its anchors before updating"
               else None
           | None => None
           end)
          (match mappingNode service "params" with
           | Some params =>
               if bool_decide (sv_Storage change = ∅) then None
               else
                 let storage := mappingNode params "storage" in
                 if shared referenced (Some params) || shared referenced storage
                 then reject "SDL anchors share patched storage; expand its anchors before updating"
                 else match storage with
                      | Some storage =>
                          if existsb (volume_shared referenced storage) (map_to_list (sv_Storage change))
                          then reject "SDL anchors share a patched volume; expand its anchors before updating"
                          else None
                      | None => None
                      end
           | None => None
           end)
  end.

Definition services_shared (referenced : gset N) : bool :=
  match mappingNode root "services" with
  | None => bool_decide (is_Some (mappingNode root "<<"))
  | Some services => shared referenced (Some services)
  end.

Definition rejectSharedServices (patch : Patch) : verdict :=
  let referenced := scan root ∅ in
  if existsb serviceAssigns (values (pt_Services patch)) && services_shared referenced
  then reject "SDL anchors share patched service definitions; expand its anchors before updating"
  else match mappingNode root "services" with
       | None => None
       | Some services => first_of (service_shared referenced services) (map_to_list (pt_Services patch))
       end.
End shared.

(** ** Apply *)

(** [command], [args] and [credentials]: null deletes the field. *)
Definition apply_field (service : gmap string any) (field : string * option json) : result (gmap string any) :=
  match field with
  | (_, None) => Ok service
  | (name, Some raw) =>
      match any_of raw with
      | ANull => Ok (delete name service)
      | value =>
          if bool_decide (name = "credentials") then
            match value with
            | AObj m => Ok (<[name := AObj (m ∪ obj (get "credentials" service))]> service)
            | _ => Panic (* the type assertion fails *)
            end
          else Ok (<[name := value]> service)
      end
  end.

Definition clearable (change : ServicePatch) : list (string * option json) :=
  [("command", sv_Command change); ("args", sv_Args change); ("credentials", sv_Credentials change)].

Definition apply_image (image : option string) (service : gmap string any) : gmap string any :=
  match image with Some i => <["image" := AStr i]> service | None => service end.

(** The body of the loop for one service. *)
Definition apply_service (change : ServicePatch) (service : gmap string any) : result (gmap string any) :=
  service ← foldR apply_field (apply_image (sv_Image change) service) (clearable change);
  let service := if bool_decide (sv_Env change = ∅) then service else applyEnv service (sv_Env change) in
  service ← applyExpose service (sv_Expose change);
  applyStorage service (sv_Storage change).

Definition services_step (services : gmap string any) (kv : string * ServicePatch) : result (gmap string any) :=
  match services !! kv.1 with
  | Some (AObj service) => service ← apply_service kv.2 service; Ok (<[kv.1 := AObj service]> services)
  | _ => errorsNew "patch names a service not declared in the SDL"
  end.

(** What [Apply] makes of the parsed document. *)
Definition apply_document (document : gmap string any) (patch : Patch) : result (gmap string any) :=
  match document !! "services" with
  | Some (AObj services) =>
      services ← foldR services_step services (map_to_list (pt_Services patch));
      Ok (<["services" := AObj services]> document)
  | _ => errorsNew "SDL must declare services"
  end.

(** [yaml.Unmarshal] of the text that was parsed gives the same tree. *)
Definition shared_services `{Yaml} (sdl : string) (patch : Patch) : verdict :=
  match yaml_Decode sdl with Some (root, _) => rejectSharedServices root patch | None => None end.

Definition Apply `{Yaml} (sdl : string) (patch : Patch) : result string :=
  match Validate patch with
  | Some e => Err e
  | None =>
      document ← map_err (Wrapf "invalid SDL: %w" []) (parseObject sdl);
      match shared_services sdl patch with
      | Some e => Err e
      | None =>
          document ← apply_document document patch;
          let encoded := yaml_Marshal (AObj document) in
          if (maxDocumentBytes <? byte_len encoded)%N then errorsNew "updated SDL exceeds 1 MiB" else Ok encoded
      end
  end.
