(* ===== verification/ConfigDiff.v ===== *)
(** * Deriving a configuration patch (internal/deploymentconfig/diff.go)

    [Diff] derives a patch from two documents, applies it and compares the result
    with what was requested. *)

From Stdlib Require Import Ascii.
From stdpp Require Import sorting base gmap strings pretty option numbers list.
From S2P Require Import Prelude GoStd GoJson Context ConfigDoc ConfigPatch ConfigApply.

Definition unrepresentable {A} : result A :=
  errorsNew "requested SDL changes cannot be represented by a configuration update; use redeploy".

(** ** Environment *)

(** [splitEnv] cuts at the first equals sign. *)
Definition splitEnv (entry : string) : string * string * bool := cut_eq entry.

(** A variable without a value is nil. *)
Definition env_step (result : gmap string any) (value : any) : Prelude.result (gmap string any) :=
  match value with
  | AStr entry =>
      let '(key, content, hasValue) := splitEnv entry in
      match result !! key with
      | Some _ => errorsNew "SDL contains duplicate environment variables; remove duplicates before updating"
      | None => Ok (<[key := if hasValue then AStr content else ANull]> result)
      end
  | _ => unrepresentable
  end.
Definition envValues (raw : any) : result (gmap string any) :=
  match raw with
  | ANull => Ok ∅
  | AArr values => foldR env_step ∅ values
  | _ => unrepresentable
  end.

Definition env_removed (old desired : gmap string any) : gmap string any :=
  (λ _, ANull) <$> filter (λ kv, desired !! kv.1 = None) old.
Definition env_set_step (old : gmap string any) (patch : gmap string any) (kv : string * any) : result (gmap string any) :=
  let '(name, value) := kv in
  if match old !! name with Some previous => DeepEqual previous value | None => false end then Ok patch
  else if bool_decide (value = ANull) then unrepresentable
  else Ok (<[name := value]> patch).
Definition diffEnv (current requested : any) : result (gmap string any) :=
  if DeepEqual current requested then Ok ∅
  else
    old ← envValues current;
    desired ← envValues requested;
    foldR (env_set_step old) (env_removed old desired) (map_to_list desired).

(** ** Endpoints and storage *)

(** The members that differ, under the name the patch gives them. *)
Definition changed_fields (names : list (string * string)) (prior next : gmap string any) : gmap string any :=
  list_to_map (omap (λ f : string * string,
    if DeepEqual (get f.1 prior) (get f.1 next) then None else Some (f.2, get f.1 next)) names).
Definition set_nonempty (key : string) (m fields : gmap string any) : gmap string any :=
  if bool_decide (m = ∅) then fields else <[key := AObj m]> fields.

Definition http_names : list (string * string) :=
  [("max_body_size", "maxBodySize"); ("read_timeout", "readTimeout"); ("send_timeout", "sendTimeout");
   ("next_tries", "nextTries"); ("next_timeout", "nextTimeout"); ("next_cases", "nextCases")].

Definition expose_diff (prior next : gmap string any) : gmap string any :=
  set_nonempty "httpOptions" (changed_fields http_names (obj (get "http_options" prior)) (obj (get "http_options" next)))
    (changed_fields [("port", "port"); ("as", "as"); ("accept", "accept")] prior next).

Definition diff_entry (patch : gmap string any) (pair : any * any) : result (gmap string any) :=
  match pair with
  | (AObj prior, AObj next) =>
      let fields := expose_diff prior next in
      if bool_decide (fields = ∅) then Ok patch
      else match get "port" prior with
           | ANum key => match patch !! key with
                         | Some _ => unrepresentable
                         | None => Ok (<[key := AObj fields]> patch)
                         end
           | _ => unrepresentable
           end
  | _ => unrepresentable
  end.
Definition diffExpose (current requested : any) : result (gmap string any) :=
  if DeepEqual current requested then Ok ∅
  else match current, requested with
       | AArr old, AArr desired =>
           if (length old =? length desired)%nat then foldR diff_entry ∅ (zip old desired) else unrepresentable
       | _, _ => unrepresentable
       end.

Definition diff_volume (oldStorage : gmap string any) (patch : gmap string any) (kv : string * any) : result (gmap string any) :=
  match kv.2, oldStorage !! kv.1 with
  | AObj desired, Some (AObj prior) =>
      Ok (set_nonempty kv.1 (changed_fields [("mount", "mount"); ("readOnly", "readOnly")] prior desired) patch)
  | _, _ => unrepresentable
  end.
Definition storage_of (service : gmap string any) : gmap string any := obj (get "storage" (obj (get "params" service))).
Definition diffStorage (current requested : gmap string any) : result (gmap string any) :=
  foldR (diff_volume (storage_of current)) ∅ (map_to_list (storage_of requested)).

(** ** Normal form *)

(** [sort.SliceStable] with a comparison that orders strings only. A list with
    something else in it has no order the library promises. *)
Class SortMixed : Type := sort_mixed : list any → list any.
Definition sort_env `{SortMixed} (env : list any) : list any :=
  match mapM as_str env with Some l => AStr <$> sort_strings l | None => sort_mixed env end.

Definition drop_null (service : gmap string any) (field : string) : gmap string any :=
  if bool_decide (get field service = ANull) then delete field service else service.
Definition normalize_service `{SortMixed} (raw : any) : any :=
  match raw with
  | AObj service =>
      let service := foldl drop_null service ["command"; "args"; "credentials"; "env"] in
      AObj (match get "env" service with
            | AArr [] => delete "env" service
            | AArr env => <["env" := AArr (sort_env env)]> service
            | _ => service
            end)
  | _ => raw
  end.
Definition normalizeSDL `{SortMixed} (document : gmap string any) : gmap string any :=
  match document !! "services" with
  | Some (AObj services) => <["services" := AObj (normalize_service <$> services)]> document
  | _ => document
  end.

(** ** Diff *)

(** [image], [command], [args] and [credentials] of a service. *)
Definition diff_field (old desired : gmap string any) (fields : gmap string any) (field : string) : result (gmap string any) :=
  let value := get field desired in
  if DeepEqual (get field old) value then Ok fields
  else if bool_decide (field = "image") && bool_decide (value = ANull) then unrepresentable
  else if bool_decide (field = "credentials") && negb (bool_decide (value = ANull)) then
    match value with
    | AObj credentials =>
        Ok (<[field := AObj (list_to_map ((λ k, (k, get k credentials)) <$> ["host"; "username"; "password"]))]> fields)
    | _ => unrepresentable
    end
  else Ok (<[field := value]> fields).

Definition diff_fields (old desired : gmap string any) : result (gmap string any) :=
  fields ← foldR (diff_field old desired) ∅ ["image"; "command"; "args"; "credentials"];
  env ← diffEnv (get "env" old) (get "env" desired);
  expose ← diffExpose (get "expose" old) (get "expose" desired);
  storage ← diffStorage old desired;
  Ok (set_nonempty "storage" storage (set_nonempty "expose" expose (set_nonempty "env" env fields))).

Definition diff_service (oldServices : gmap string any) (patch : gmap string ServicePatch) (kv : string * any) :
    result (gmap string ServicePatch) :=
  match kv.2, oldServices !! kv.1 with
  | AObj desired, Some (AObj old) =>
      fields ← diff_fields old desired;
      if bool_decide (fields = ∅) then Ok patch
      else match dec_service (json_of (AObj fields)) zero_service with
           | Some service => Ok (<[kv.1 := service]> patch)
           | None => unrepresentable
           end
  | _, _ => unrepresentable
  end.

Definition replace_err {A} (s : string) (r : result A) : result A := map_err (λ _, Errorf s []) r.

Definition Diff `{Yaml, SortMixed} (currentSDL requestedSDL : string) : result Patch :=
  current ← replace_err "cannot parse current SDL" (parseObject currentSDL);
  requested ← replace_err "cannot parse requested SDL" (parseObject requestedSDL);
  match current !! "services", requested !! "services" with
  | Some (AObj oldServices), Some (AObj newServices) =>
      services ← foldR (diff_service oldServices) ∅ (map_to_list newServices);
      let patch := MkPatch services None "" in
      match Validate patch with
      | Some e => Err e
      | None =>
          result ← Apply currentSDL patch;
          applied ← replace_err "cannot verify updated SDL" (parseObject result);
          if DeepEqual (AObj (normalizeSDL applied)) (AObj (normalizeSDL requested)) then Ok patch else unrepresentable
      end
  | _, _ => errorsNew "SDL must declare services"
  end.
