(* ===== verification/ConfigSpec.v ===== *)
(** * What a configuration patch may change (lemmas)

    [keeps ks] relates two objects that agree outside the members [ks]. On it are
    built the frame of every step of [Apply], the reference definition of an
    endpoint edit ([edit_entry]) and the laws of [yaml.v3] the comparison in [Diff]
    relies on. *)

From Stdlib Require Import Ascii.
From stdpp Require Import sorting base gmap strings pretty option numbers list.
From S2P Require Import Prelude GoStd GoJson Context ConfigDoc ConfigPatch ConfigApply ConfigDiff.

Create HintDb config.

(** ** Loops over a map *)
Lemma foldR_map_ind {S A} (P : S → gmap string A → Prop) (f : S → string * A → result S) (m : gmap string A) s s' :
  P s ∅ →
  (∀ s n k a s', n !! k = None → m !! k = Some a → n ⊆ m → P s n → f s (k, a) = Ok s' → P s' (<[k := a]> n)) →
  foldR f s (map_to_list m) = Ok s' → P s' m.
Proof.
  intros H0 Hf Hr.
  assert (∀ l n s, NoDup l.*1 → (∀ k a, (k, a) ∈ l → n !! k = None ∧ m !! k = Some a) → n ⊆ m → P s n →
    foldR f s l = Ok s' → P s' (list_to_map l ∪ n)) as Hl.
  { induction l as [|[k a] l IH]; intros n s1 Hnd Hin Hsub HP Hfold; simpl in *.
    - simplify_eq. by rewrite (left_id_L ∅ (∪)).
    - apply bind_ok in Hfold as (s2 & H2 & Hfold). apply NoDup_cons in Hnd as [Hk Hnd].
      destruct (Hin k a) as [Hn Hm]; [set_solver|].
      rewrite <-insert_union_l, insert_union_r.
      2:{ apply not_elem_of_list_to_map_1. done. }
      apply (IH _ s2); [done| |by apply insert_subseteq_l|by eapply Hf|done].
      intros k' a' Hl. destruct (Hin k' a') as [Hn' Hm']; [set_solver|]. split; [|done].
      rewrite lookup_insert_ne; [done|]. intros <-. apply Hk. rewrite list_elem_of_fmap. by exists (k, a'). }
  rewrite <-(list_to_map_to_list m), <-(right_id_L ∅ (∪) (list_to_map _)).
  eapply Hl; [apply NoDup_fst_map_to_list| |apply map_empty_subseteq|done|done].
  intros k a Hka. apply elem_of_map_to_list in Hka. by rewrite lookup_empty.
Qed.

(** ** Frames *)
Definition keeps (ks : list string) (m m' : gmap string any) : Prop := ∀ k, k ∉ ks → m' !! k = m !! k.

#[export] Instance keeps_preorder ks : PreOrder (keeps ks).
Proof. split; [intros m k Hk; done|]. intros m1 m2 m3 H1 H2 k Hk. rewrite H2, H1; done. Qed.

Lemma keeps_insert ks k v m m' : k ∈ ks → keeps ks m m' → keeps ks m (<[k := v]> m').
Proof. intros Hk H k' Hk'. rewrite lookup_insert_ne; [by apply H|congruence]. Qed.

Lemma keeps_delete ks k m m' : k ∈ ks → keeps ks m m' → keeps ks m (delete k m').
Proof. intros Hk H k' Hk'. rewrite lookup_delete_ne; [by apply H|congruence]. Qed.

Lemma keeps_weaken ks ks' m m' : ks ⊆ ks' → keeps ks m m' → keeps ks' m m'.
Proof. intros Hs H k Hk. apply H. set_solver. Qed.

Lemma keeps_get ks m m' k : k ∉ ks → keeps ks m m' → get k m' = get k m.
Proof. intros Hk H. unfold get. by rewrite H. Qed.

Ltac member := rewrite !list_elem_of_In; simpl; tauto.
#[export] Hint Extern 1 (_ ∈ _) => member : config.
#[export] Hint Resolve keeps_insert keeps_delete : config.
#[export] Hint Extern 5 (keeps _ _ _) => reflexivity : config.

(** ** Endpoints *)
Definition entry_fields : list string := ["port"; "as"; "accept"; "http_options"].

Lemma move_ports_keeps c b : keeps ["port"; "as"] b (move_ports c b).
Proof. unfold move_ports, set_num. destruct (ep_As c), (ep_Port c); auto with config. Qed.

Lemma finish_keeps o l b : keeps ["accept"; "http_options"] b (set_http o (set_accept l b)).
Proof.
  unfold set_http, set_accept. destruct o as [o|]; [case_match|]; destruct l; auto with config.
Qed.

(** The reference definition: an endpoint is edited by the patch under its port. *)
Definition change_for (patch : gmap string ExposePatch) (entry : gmap string any) : option ExposePatch :=
  match get "port" entry with ANum port => patch !! port | _ => None end.
Definition edit_entry (patch : gmap string ExposePatch) (entry : gmap string any) : gmap string any :=
  match change_for patch entry with
  | Some c => set_http (ep_HTTPOptions c) (set_accept (ep_Accept c) (move_ports c entry))
  | None => entry
  end.
(** Where the patch leaves the ports of an endpoint. *)
Definition moved (patch : gmap string ExposePatch) (entry : gmap string any) : gmap string any :=
  match change_for patch entry with Some c => move_ports c entry | None => entry end.

Lemma edit_entry_keeps patch b : keeps entry_fields b (edit_entry patch b).
Proof.
  unfold edit_entry. destruct (change_for patch b) as [c|]; [|reflexivity].
  transitivity (move_ports c b).
  - eapply keeps_weaken; [|apply move_ports_keeps]. intros x Hx. unfold entry_fields. set_solver.
  - eapply keeps_weaken; [|apply finish_keeps]. intros x Hx. unfold entry_fields. set_solver.
Qed.

Lemma edit_entry_moved patch b : keeps ["accept"; "http_options"] (moved patch b) (edit_entry patch b).
Proof. unfold edit_entry, moved. destruct (change_for patch b); [apply finish_keeps|reflexivity]. Qed.

Lemma externalPort_keeps ks m m' : keeps ks m m' → "as" ∉ ks → "port" ∉ ks → externalPort m' = externalPort m.
Proof. intros H Ha Hp. unfold externalPort. by rewrite (keeps_get ks m m' "as"), (keeps_get ks m m' "port"). Qed.

Lemma endpointKind_keeps ks m m' :
  keeps ks m m' → "as" ∉ ks → "port" ∉ ks → "to" ∉ ks → "proto" ∉ ks → endpointKind m' = endpointKind m.
Proof.
  intros H Ha Hp Ht Hr. unfold endpointKind, targets.
  by rewrite (keeps_get ks m m' "to"), (keeps_get ks m m' "proto"), (externalPort_keeps ks m m').
Qed.

Lemma find_endpoint_some port l : ∀ i i0 n,
  find_endpoint port i (Some i0) l = Ok n → n = i0 ∧ ∀ j e, l !! j = Some e → get "port" e ≠ ANum port.
Proof.
  induction l as [|e l IH]; intros i i0 n; simpl; [naive_solver|].
  case_bool_decide as Hp; [done|]. intros [-> H]%IH. split; [done|].
  intros [|j] e' Hj; simpl in Hj; [by simplify_eq|eauto].
Qed.

Lemma find_endpoint_none port l : ∀ i n,
  find_endpoint port i None l = Ok n →
  ∃ k e, n = i + k ∧ l !! k = Some e ∧ get "port" e = ANum port ∧
    ∀ j e', l !! j = Some e' → get "port" e' = ANum port → j = k.
Proof.
  induction l as [|e l IH]; intros i n; simpl; [done|].
  case_bool_decide as Hp.
  - intros [-> H]%find_endpoint_some. exists 0, e. split_and!; [lia|done|done|].
    intros [|j] e' Hj Hport; [done|]. simpl in Hj. by destruct (H _ _ Hj).
  - intros (k & e' & -> & He & Hport & Huniq)%IH. exists (S k), e'. split_and!; [lia|done|done|].
    intros [|j] e'' Hj Hp'; simpl in Hj; [by simplify_eq|f_equal; eauto].
Qed.

(** What the checks of the first loop leave true of an endpoint. *)
Definition entry_checked (b a : gmap string any) : Prop :=
  endpointKind a = endpointKind b ∧
  (hasLeasedIP b = true → num_eq (get "port" b) (get "port" a) = true ∧ float_eq (externalPort b) (externalPort a) = true).

Section entries.
Context (before : list (gmap string any)).

Definition entries_inv (st : list (gmap string any) * gmap nat ExposePatch) (m : gmap string ExposePatch) : Prop :=
  st.1 = moved m <$> before ∧
  (∀ i b, before !! i = Some b → st.2 !! i = change_for m b) ∧
  (∀ i b c, before !! i = Some b → change_for m b = Some c → entry_checked b (move_ports c b)) ∧
  (∀ port, is_Some (m !! port) → ∃ i b, before !! i = Some b ∧ get "port" b = ANum port ∧
     ∀ j b', before !! j = Some b' → get "port" b' = ANum port → j = i).

Lemma change_for_insert_eq m k c b : get "port" b = ANum k → change_for (<[k := c]> m) b = Some c.
Proof. unfold change_for. intros ->. by rewrite lookup_insert_eq. Qed.

Lemma change_for_insert_ne m k c b : get "port" b ≠ ANum k → change_for (<[k := c]> m) b = change_for m b.
Proof. unfold change_for. intros H. destruct (get "port" b); try done. rewrite lookup_insert_ne; congruence. Qed.

Lemma expose_step_inv st m k c st' :
  m !! k = None → entries_inv st m → expose_step before st (k, c) = Ok st' → entries_inv st' (<[k := c]> m).
Proof.
  destruct st as [after changed]. intros Hk (Ha & Hc & Hchk & Hp) Hs. simpl in *. subst after.
  apply bind_ok in Hs as (i & Hf & Hs).
  apply find_endpoint_none in Hf as (i' & b & -> & Hb & Hport & Huniq). simpl in Hs.
  assert (change_for m b = None) as Hnone by (unfold change_for; by rewrite Hport).
  rewrite list_lookup_fmap, Hb in Hs. simpl in Hs. unfold moved at 1 2 3 4 in Hs. rewrite Hnone in Hs.
  destruct (bool_decide (endpointKind b = _)) eqn:Ekind; [|done]. apply bool_decide_eq_true in Ekind.
  destruct (hasLeasedIP b && _) eqn:Eip; [done|]. simpl in Hs. simplify_eq.
  assert (∀ j b', before !! j = Some b' → j ≠ i' → get "port" b' ≠ ANum k) as Hother by eauto.
  split_and!; simpl.
  - apply list_eq. intros j. rewrite list_lookup_fmap. destruct (decide (j = i')) as [->|Hj].
    + rewrite list_lookup_insert_eq by (rewrite length_fmap; by eapply lookup_lt_Some).
      rewrite Hb. simpl. unfold moved. rewrite change_for_insert_eq by done. by rewrite Hnone.
    + rewrite list_lookup_insert_ne by done. rewrite list_lookup_fmap. destruct (before !! j) as [b'|] eqn:E; [|done].
      simpl. unfold moved. by rewrite change_for_insert_ne by eauto.
  - intros j b' E. destruct (decide (j = i')) as [->|Hj].
    + simplify_eq. by rewrite lookup_insert_eq, change_for_insert_eq.
    + rewrite lookup_insert_ne, change_for_insert_ne by eauto. eauto.
  - intros j b' c' E. destruct (decide (j = i')) as [->|Hj].
    + simplify_eq. rewrite change_for_insert_eq by done. intros [= <-]. split; [done|]. intros Hip.
      rewrite Hip in Eip. simpl in Eip. apply orb_false_iff in Eip as [E1 E2].
      by rewrite negb_false_iff in E1, E2.
    + rewrite change_for_insert_ne by eauto. eauto.
  - intros port. destruct (decide (port = k)) as [->|Hne]; [eauto|]. rewrite lookup_insert_ne by done. apply Hp.
Qed.

Lemma expose_loop patch st :
  foldR (expose_step before) (before, ∅) (map_to_list patch) = Ok st → entries_inv st patch.
Proof.
  apply (foldR_map_ind entries_inv).
  - assert (∀ b, change_for ∅ b = None) as Hn by (intros b; unfold change_for; by destruct (get "port" b)).
    split_and!; simpl.
    + rewrite <-(list_fmap_id before) at 1. apply list_fmap_ext. intros i b _. unfold moved. by rewrite Hn.
    + intros i b _. by rewrite Hn, lookup_empty.
    + intros i b c _. by rewrite Hn.
    + intros port []. done.
  - intros s n k a s' Hn _ _. by apply expose_step_inv.
Qed.

(** Every port of the patch names exactly one endpoint, the result edits it, and no
    edited endpoint collides with another. *)
Lemma apply_entries_spec patch after :
  apply_entries before patch = Ok after →
  ∃ st, entries_inv st patch ∧ after = edit_entry patch <$> before ∧ collisions before st.1 st.2 = None.
Proof.
  unfold apply_entries. intros Hr. apply bind_ok in Hr as ([a changed] & Hl & Hr).
  exists (a, changed). apply expose_loop in Hl as (Ha & Hc & Hrest). simpl in *.
  destruct (collisions _ _ _) eqn:E; [done|]. simplify_eq. split_and!; [done| |done].
  apply list_eq. intros i. rewrite list_lookup_imap, !list_lookup_fmap.
  destruct (before !! i) as [b|] eqn:Eb; [|done]. simpl. f_equal.
  unfold finish_entry, edit_entry, moved. rewrite (Hc i b Eb). by destruct (change_for patch b).
Qed.
End entries.

Lemma first_of_none {A} (f : A → verdict) l : first_of f l = None ↔ ∀ x, x ∈ l → f x = None.
Proof.
  induction l as [|x l IH]; simpl; [set_solver|]. destruct (f x) eqn:E.
  - split; [done|]. intros H. rewrite <-E. apply H. set_solver.
  - rewrite IH. set_solver.
Qed.

(** ** Ports that collide *)
Lemma float_eq_iff a b : float_eq a b = true ↔ a = b ∨ (is_zero a = true ∧ is_zero b = true).
Proof. unfold float_eq. rewrite orb_true_iff, andb_true_iff, bool_decide_eq_true. done. Qed.

Lemma float_eq_sym a b : float_eq a b = true → float_eq b a = true.
Proof. rewrite !float_eq_iff. intros [->|[]]; auto. Qed.

Lemma float_eq_trans a b c : float_eq a b = true → float_eq b c = true → float_eq a c = true.
Proof. rewrite !float_eq_iff. intros [->|[]] [->|[]]; auto. Qed.

Lemma num_eq_port a b : num_eq a b = true ↔ ∃ x y, a = ANum x ∧ b = ANum y ∧ float_eq x y = true.
Proof. destruct a, b; naive_solver. Qed.

Lemma num_eq_sym a b : num_eq a b = true → num_eq b a = true.
Proof. rewrite !num_eq_port. intros (x & y & -> & -> & H). exists y, x. auto using float_eq_sym. Qed.

(** No two endpoints share a container port, or an external one. *)
Definition distinct_by (same : gmap string any → gmap string any → bool) (l : list (gmap string any)) : Prop :=
  ∀ i j a b, i ≠ j → l !! i = Some a → l !! j = Some b → same a b = false.
Definition same_port (a b : gmap string any) : bool := num_eq (get "port" a) (get "port" b).
Definition same_external (a b : gmap string any) : bool := float_eq (externalPort a) (externalPort b).

Lemma moved_port_changed patch b :
  get "port" (moved patch b) ≠ get "port" b → ∃ c, change_for patch b = Some c ∧ is_Some (ep_Port c).
Proof.
  unfold moved. destruct (change_for patch b) as [c|]; [|done]. intros H. exists c. split; [done|].
  destruct (ep_Port c) eqn:E; [done|]. destruct H. unfold move_ports, set_num. rewrite E. destruct (ep_As c); [|done].
  unfold get. by rewrite lookup_insert_ne.
Qed.

Section collide.
Context (before : list (gmap string any)) (patch : gmap string ExposePatch) (st : list (gmap string any) * gmap nat ExposePatch).
Context (Hinv : entries_inv before st patch) (Hcol : collisions before st.1 st.2 = None).

Lemma no_collision i j b b' c :
  i ≠ j → before !! i = Some b → before !! j = Some b' → change_for patch b = Some c →
  (is_Some (ep_Port c) → same_port (moved patch b) (moved patch b') = false) ∧
  (same_external b (moved patch b) = false → same_external (moved patch b) (moved patch b') = false).
Proof.
  intros Hij Hb Hb' Hc. destruct Hinv as (Ha & Hch & _). unfold collisions in Hcol. rewrite first_of_none in Hcol.
  assert (st.2 !! i = Some c) as Hst by (by rewrite (Hch i b)).
  specialize (Hcol (i, c)). rewrite elem_of_map_to_list in Hcol. specialize (Hcol Hst). rewrite first_of_none in Hcol.
  specialize (Hcol j). rewrite Ha, length_fmap, elem_of_seq in Hcol.
  assert (0 ≤ j < 0 + length before) as Hj by (apply lookup_lt_Some in Hb'; lia). specialize (Hcol Hj).
  unfold collision in Hcol. rewrite (proj2 (Nat.eqb_neq i j) Hij) in Hcol.
  rewrite !list_lookup_fmap, Hb, Hb' in Hcol. simpl in Hcol. split.
  - intros Hp. rewrite bool_decide_eq_true_2 in Hcol by done. simpl in Hcol.
    unfold same_port. by destruct (num_eq _ _).
  - unfold same_external. intros He. rewrite He in Hcol. simpl in Hcol.
    destruct (bool_decide _ && _); [done|]. by destruct (float_eq _ _).
Qed.

Lemma ports_stay_distinct : distinct_by same_port before → distinct_by same_port (moved patch <$> before).
Proof.
  intros Hd i j a a' Hij Hi Hj. rewrite list_lookup_fmap in Hi, Hj.
  destruct (before !! i) as [b|] eqn:Eb; [|done]. destruct (before !! j) as [b'|] eqn:Eb'; [|done]. simplify_eq/=.
  destruct (decide (get "port" (moved patch b) = get "port" b)) as [E|E].
  - destruct (decide (get "port" (moved patch b') = get "port" b')) as [E'|E'].
    + unfold same_port. rewrite E, E'. by eapply Hd.
    + apply moved_port_changed in E' as (c & Hc & Hp).
      destruct (no_collision j i b' b c) as [H _]; [done..|]. specialize (H Hp).
      apply not_true_is_false. intros Es. apply num_eq_sym in Es. unfold same_port in H. congruence.
  - apply moved_port_changed in E as (c & Hc & Hp). by apply (no_collision i j b b' c).
Qed.

Lemma external_stay_distinct : distinct_by same_external before → distinct_by same_external (moved patch <$> before).
Proof.
  intros Hd i j a a' Hij Hi Hj. rewrite list_lookup_fmap in Hi, Hj.
  destruct (before !! i) as [b|] eqn:Eb; [|done]. destruct (before !! j) as [b'|] eqn:Eb'; [|done]. simplify_eq/=.
  assert (∀ b, same_external b (moved patch b) = false → ∃ c, change_for patch b = Some c) as Hch.
  { intros x. unfold moved. destruct (change_for patch x); [eauto|]. unfold same_external.
    intros H. exfalso. revert H. by rewrite (proj2 (float_eq_iff _ _)) by (by left). }
  specialize (Hd i j b b' Hij Eb Eb').
  destruct (same_external b (moved patch b)) eqn:E.
  - apply not_true_is_false. intros Es. unfold same_external in *.
    destruct (float_eq (externalPort b') (externalPort (moved patch b'))) eqn:E'.
    + apply not_true_iff_false in Hd. destruct Hd. eapply float_eq_trans; [done|].
      eapply float_eq_trans; [done|]. by apply float_eq_sym.
    + destruct (Hch _ E') as [c Hc]. destruct (no_collision j i b' b c) as [_ H]; [done..|]. specialize (H E').
      apply float_eq_sym in Es. unfold same_external in H. congruence.
  - destruct (Hch _ E) as [c Hc]. by apply (no_collision i j b b' c).
Qed.
End collide.

Lemma distinct_edit same patch before :
  (∀ b b', same (edit_entry patch b) (edit_entry patch b') = same (moved patch b) (moved patch b')) →
  distinct_by same (moved patch <$> before) → distinct_by same (edit_entry patch <$> before).
Proof.
  intros Hs Hd i j a a' Hij Hi Hj. rewrite list_lookup_fmap in Hi, Hj.
  destruct (before !! i) as [b|] eqn:Eb; [|done]. destruct (before !! j) as [b'|] eqn:Eb'; [|done]. simplify_eq/=.
  rewrite Hs. eapply Hd; [done|..]; by rewrite list_lookup_fmap, ?Eb, ?Eb'.
Qed.

Lemma edit_same_port patch b b' : same_port (edit_entry patch b) (edit_entry patch b') = same_port (moved patch b) (moved patch b').
Proof.
  unfold same_port. f_equal; (eapply keeps_get; [|apply edit_entry_moved]); set_solver.
Qed.

Lemma edit_external patch b : externalPort (edit_entry patch b) = externalPort (moved patch b).
Proof. eapply externalPort_keeps; [apply edit_entry_moved|set_solver..]. Qed.
