(* ===== verification/ConfigFrame.v ===== *)
(** * What Apply makes of each service (lemmas)

    [service_edit] is the specification of one patched service, field by field;
    [document_edit] that of a document. The steps of [Apply] are shown to meet
    them. *)

From Stdlib Require Import Ascii.
From stdpp Require Import sorting base gmap strings pretty option numbers list.
From S2P Require Import Prelude GoStd GoJson Context ConfigDoc ConfigPatch ConfigApply ConfigDiff ConfigSpec.

Definition service_keys : list string := ["image"; "command"; "args"; "credentials"; "env"; "expose"; "params"].

(** A field that null clears. *)
Definition edit_clearable (raw : option json) (old : option any) : option any :=
  match raw with
  | None => old
  | Some j => match any_of j with ANull => None | v => Some v end
  end.
Definition edit_credentials (raw : option json) (old : option any) : option any :=
  match raw with
  | None => old
  | Some j => match any_of j with ANull => None | v => Some (AObj (obj v ∪ obj (default ANull old))) end
  end.
Definition edit_env (patch : gmap string (option string)) (old : option any) : option any :=
  if bool_decide (patch = ∅) then old
  else match env_values (default [] (as_arr (default ANull old))) patch with [] => None | l => Some (AArr l) end.

Definition expose_edit (patch : gmap string ExposePatch) (s s' : gmap string any) : Prop :=
  if bool_decide (patch = ∅) then s' !! "expose" = s !! "expose"
  else ∃ before, s !! "expose" = Some (AArr (AObj <$> before)) ∧
       s' !! "expose" = Some (AArr (AObj <$> (edit_entry patch <$> before))) ∧
       (∀ b, b ∈ before → is_Some (change_for patch b) → entry_checked b (edit_entry patch b)) ∧
       (∀ port, is_Some (patch !! port) → ∃ b, b ∈ before ∧ get "port" b = ANum port).

Definition volume_edit (patch : gmap string StoragePatch) (storage storage' : gmap string any) : Prop :=
  ∀ name, match patch !! name with
          | None => storage' !! name = storage !! name
          | Some c => ∃ v, storage !! name = Some (AObj v) ∧ storage' !! name = Some (AObj (set_volume c v))
          end.
Definition storage_edit (patch : gmap string StoragePatch) (s s' : gmap string any) : Prop :=
  if bool_decide (patch = ∅) then s' !! "params" = s !! "params"
  else ∃ params storage storage', s !! "params" = Some (AObj params) ∧ params !! "storage" = Some (AObj storage) ∧
       s' !! "params" = Some (AObj (<["storage" := AObj storage']> params)) ∧ volume_edit patch storage storage'.

Record service_edit (c : ServicePatch) (s s' : gmap string any) : Prop := {
  se_frame : keeps service_keys s s';
  se_image : s' !! "image" = match sv_Image c with Some i => Some (AStr i) | None => s !! "image" end;
  se_command : s' !! "command" = edit_clearable (sv_Command c) (s !! "command");
  se_args : s' !! "args" = edit_clearable (sv_Args c) (s !! "args");
  se_credentials : s' !! "credentials" = edit_credentials (sv_Credentials c) (s !! "credentials");
  se_env : s' !! "env" = edit_env (sv_Env c) (s !! "env");
  se_expose : expose_edit (sv_Expose c) s s';
  se_storage : storage_edit (sv_Storage c) s s';
}.

Definition services_edit (patch : gmap string ServicePatch) (ss ss' : gmap string any) : Prop :=
  ∀ name, match patch !! name with
          | None => ss' !! name = ss !! name
          | Some c => ∃ s s', ss !! name = Some (AObj s) ∧ ss' !! name = Some (AObj s') ∧ service_edit c s s'
          end.
Definition document_edit (p : Patch) (d d' : gmap string any) : Prop :=
  keeps ["services"] d d' ∧
  ∃ ss ss', d !! "services" = Some (AObj ss) ∧ d' !! "services" = Some (AObj ss') ∧ services_edit (pt_Services p) ss ss'.

(** ** One service *)
Lemma get_lookup k m : get k m = default ANull (m !! k).
Proof. done. Qed.

Lemma apply_field_keeps s f s' : apply_field s f = Ok s' → keeps [f.1] s s'.
Proof.
  destruct f as [name [raw|]]; simpl; [|by intros [= <-]].
  destruct (any_of raw); repeat (case_bool_decide; simplify_eq/=); try done; intros; simplify_eq; auto with config.
Qed.

Lemma apply_field_plain name raw s s' :
  name ≠ "credentials" → apply_field s (name, raw) = Ok s' → s' !! name = edit_clearable raw (s !! name).
Proof.
  intros Hn. destruct raw as [raw|]; simpl; [|by intros [= <-]].
  destruct (any_of raw); rewrite ?bool_decide_eq_false_2 by done; intros [= <-]; by rewrite ?lookup_delete_eq, ?lookup_insert_eq.
Qed.

Lemma apply_field_credentials raw s s' :
  apply_field s ("credentials", raw) = Ok s' → s' !! "credentials" = edit_credentials raw (s !! "credentials").
Proof.
  destruct raw as [raw|]; simpl; [|by intros [= <-]].
  destruct (any_of raw); simpl; try done; intros [= <-]; by rewrite ?lookup_delete_eq, ?lookup_insert_eq.
Qed.

Lemma applyEnv_lookup s p : p ≠ ∅ → applyEnv s p !! "env" = edit_env p (s !! "env").
Proof.
  intros Hp. unfold applyEnv, edit_env. rewrite bool_decide_eq_false_2 by done. rewrite get_lookup.
  destruct (env_values _ p); by rewrite ?lookup_delete_eq, ?lookup_insert_eq.
Qed.
Lemma applyEnv_keeps s p : keeps ["env"] s (applyEnv s p).
Proof. unfold applyEnv. destruct (env_values _ p); auto with config. Qed.

Lemma mapM_as_obj l ms : mapM as_obj l = Some ms → l = AObj <$> ms.
Proof.
  revert ms. induction l as [|v l IH]; intros ms; simpl; [by intros [= <-]|].
  destruct v; simpl; try done. destruct (mapM as_obj l); simpl; [|done]. intros [= <-]. rewrite fmap_cons. f_equal. by apply IH.
Qed.

Lemma endpointKind_edit patch b : endpointKind (edit_entry patch b) = endpointKind (moved patch b).
Proof. eapply endpointKind_keeps; [apply edit_entry_moved|set_solver..]. Qed.

Lemma entry_checked_edit before st patch b :
  entries_inv before st patch → b ∈ before → is_Some (change_for patch b) → entry_checked b (edit_entry patch b).
Proof.
  intros (_ & _ & Hchk & _) [i Hb]%list_elem_of_lookup [c Hc]. unfold entry_checked.
  rewrite endpointKind_edit, edit_external.
  assert (get "port" (edit_entry patch b) = get "port" (moved patch b)) as ->
    by (eapply keeps_get; [|apply edit_entry_moved]; set_solver).
  unfold moved. rewrite Hc. by eapply Hchk.
Qed.

Lemma applyExpose_edit s p s' : applyExpose s p = Ok s' → expose_edit p s s' ∧ keeps ["expose"] s s'.
Proof.
  unfold applyExpose, expose_edit. case_bool_decide as Hp; [by intros [= <-]|].
  destruct (mapM as_obj _) as [before|] eqn:Em; [|done]. intros Hr. apply bind_ok in Hr as (after & Ha & [= <-]).
  apply apply_entries_spec in Ha as (st & Hinv & -> & _). split; [|auto with config].
  assert (∀ port, is_Some (p !! port) → ∃ b, b ∈ before ∧ get "port" b = ANum port) as Hports.
  { intros port Hport. apply Hinv in Hport as (i & b & Hb & Hport & _). apply list_elem_of_lookup_2 in Hb. eauto. }
  exists before. split_and!; [|by rewrite lookup_insert_eq|by intros b; eapply entry_checked_edit|done].
  apply map_choose in Hp as (port & c & Hc). destruct (Hports port) as (b & Hb & _); [eauto|].
  apply mapM_as_obj in Em. unfold get in Em. destruct (s !! "expose") as [v|] eqn:E; simpl in *.
  - destruct v; simpl in *; try (symmetry in Em; apply fmap_nil_inv in Em as ->; set_solver). by subst.
  - symmetry in Em. apply fmap_nil_inv in Em as ->. set_solver.
Qed.

Lemma storage_loop storage patch storage' :
  foldR storage_step storage (map_to_list patch) = Ok storage' → volume_edit patch storage storage'.
Proof.
  apply (foldR_map_ind (λ st n, volume_edit n storage st)).
  - intros name. by rewrite lookup_empty.
  - intros st n k c st' Hn _ _ HP Hs. unfold storage_step in Hs. simpl in Hs.
    destruct (st !! k) as [v|] eqn:E; [|done]. destruct v as [| | | | |v]; try done. injection Hs as <-.
    intros name. destruct (decide (name = k)) as [->|Hne].
    + rewrite lookup_insert_eq. specialize (HP k). rewrite Hn in HP. exists v.
      by rewrite <-HP, lookup_insert_eq.
    + rewrite !lookup_insert_ne by done. apply HP.
Qed.

Lemma applyStorage_edit s p s' : applyStorage s p = Ok s' → storage_edit p s s' ∧ keeps ["params"] s s'.
Proof.
  unfold applyStorage, storage_edit. intros Hr. apply bind_ok in Hr as (storage' & Hl & Hr).
  case_bool_decide as Hp; injection Hr as <-; [done|]. split; [|auto with config].
  apply storage_loop in Hl. apply map_choose in Hp as (name & c & Hc). pose proof (Hl name) as Hv.
  rewrite Hc in Hv. destruct Hv as (v & Hv & _).
  unfold obj, get in *. destruct (s !! "params") as [[| | | | |params]|] eqn:Ep; simpl in *; try by rewrite lookup_empty in Hv.
  destruct (params !! "storage") as [[| | | | |storage]|] eqn:Es; simpl in *; try by rewrite lookup_empty in Hv.
  exists params, storage, storage'. by rewrite lookup_insert_eq.
Qed.

Lemma apply_image_keeps i s : keeps ["image"] s (apply_image i s).
Proof. unfold apply_image. destruct i; auto with config. Qed.

(** The fields a step does not own are those it was given. *)
Ltac other_field H := rewrite H by (clear; set_solver).

Lemma expose_edit_same p s s1 s2 s' :
  s1 !! "expose" = s !! "expose" → s' !! "expose" = s2 !! "expose" → expose_edit p s1 s2 → expose_edit p s s'.
Proof. unfold expose_edit. by intros -> ->. Qed.

Lemma storage_edit_same p s s1 s' : s1 !! "params" = s !! "params" → storage_edit p s1 s' → storage_edit p s s'.
Proof. unfold storage_edit. by intros ->. Qed.

Lemma apply_service_edit c s s' : apply_service c s = Ok s' → service_edit c s s'.
Proof.
  unfold apply_service, clearable. cbn [foldR]. intros Hr.
  apply bind_ok in Hr as (s4 & Hf & Hr). apply bind_ok in Hf as (s2 & Hcmd & Hf).
  apply bind_ok in Hf as (s3 & Harg & Hf). apply bind_ok in Hf as (s4' & Hcred & [= <-]).
  set (s5 := if bool_decide _ then _ else _) in Hr.
  apply bind_ok in Hr as (s6 & Hexp & Hst).
  assert (s5 !! "env" = edit_env (sv_Env c) (s4' !! "env") ∧ keeps ["env"] s4' s5) as [Henv Kenv].
  { subst s5. case_bool_decide as E; [|by split; [apply applyEnv_lookup|apply applyEnv_keeps]].
    split; [|done]. unfold edit_env. by rewrite bool_decide_eq_true_2. }
  pose proof (apply_image_keeps (sv_Image c) s) as K1.
  pose proof (apply_field_keeps _ _ _ Hcmd) as K2. pose proof (apply_field_keeps _ _ _ Harg) as K3.
  pose proof (apply_field_keeps _ _ _ Hcred) as K4. simpl in K2, K3, K4.
  apply applyExpose_edit in Hexp as [Hexp K6]. apply applyStorage_edit in Hst as [Hst K7].
  clearbody s5. split.
  - intros k Hk. unfold service_keys in Hk.
    rewrite K7, K6, Kenv, K4, K3, K2, K1; [done|clear -Hk; set_solver..].
  - other_field K7. other_field K6. other_field Kenv. other_field K4. other_field K3. other_field K2.
    unfold apply_image. destruct (sv_Image c); [by rewrite lookup_insert_eq|done].
  - other_field K7. other_field K6. other_field Kenv. other_field K4. other_field K3.
    rewrite (apply_field_plain "command" _ _ _ ltac:(done) Hcmd). by other_field K1.
  - other_field K7. other_field K6. other_field Kenv. other_field K4.
    rewrite (apply_field_plain "args" _ _ _ ltac:(done) Harg). other_field K2. by other_field K1.
  - other_field K7. other_field K6. other_field Kenv.
    rewrite (apply_field_credentials _ _ _ Hcred). other_field K3. other_field K2. by other_field K1.
  - other_field K7. other_field K6. rewrite Henv. other_field K4. other_field K3. other_field K2. by other_field K1.
  - eapply expose_edit_same; [|by other_field K7|exact Hexp].
    other_field Kenv. other_field K4. other_field K3. other_field K2. by other_field K1.
  - eapply storage_edit_same; [|exact Hst].
    other_field K6. other_field Kenv. other_field K4. other_field K3. other_field K2. by other_field K1.
Qed.

(** ** The document *)
Lemma services_loop ss patch ss' :
  foldR services_step ss (map_to_list patch) = Ok ss' → services_edit patch ss ss'.
Proof.
  apply (foldR_map_ind (λ st n, services_edit n ss st)).
  - intros name. by rewrite lookup_empty.
  - intros st n k c st' Hn _ _ HP Hs. unfold services_step in Hs. simpl in Hs.
    destruct (st !! k) as [v|] eqn:E; [|done]. destruct v as [| | | | |s]; try done.
    apply bind_ok in Hs as (s' & Hs & [= <-]). apply apply_service_edit in Hs.
    intros name. destruct (decide (name = k)) as [->|Hne].
    + rewrite lookup_insert_eq. specialize (HP k). rewrite Hn in HP. exists s, s'.
      by rewrite <-HP, lookup_insert_eq.
    + rewrite !lookup_insert_ne by done. apply HP.
Qed.

Lemma apply_document_edit d p d' : apply_document d p = Ok d' → document_edit p d d'.
Proof.
  unfold apply_document. destruct (d !! "services") as [v|] eqn:E; [|done]. destruct v as [| | | | |ss]; try done.
  intros Hr. apply bind_ok in Hr as (ss' & Hl & [= <-]). split; [auto with config|].
  exists ss, ss'. rewrite lookup_insert_eq. split_and!; [done|done|]. by apply services_loop.
Qed.

Lemma Apply_ok `{Yaml} sdl p out :
  Apply sdl p = Ok out →
  ∃ d d', Validate p = None ∧ parseObject sdl = Ok d ∧ shared_services sdl p = None ∧ apply_document d p = Ok d' ∧
    out = yaml_Marshal (AObj d') ∧ (byte_len out ≤ maxDocumentBytes)%N.
Proof.
  unfold Apply. destruct (Validate p); [done|]. intros Hr. apply bind_ok in Hr as (d & Hd & Hr).
  apply map_err_ok in Hd. destruct (shared_services sdl p); [done|]. apply bind_ok in Hr as (d' & Hd' & Hr).
  destruct (_ <? _)%N eqn:E; [done|]. injection Hr as <-. apply N.ltb_ge in E. eauto 10.
Qed.
