(* ===== verification/ConfigEnvSpec.v ===== *)
(** * Environment variables of a service (lemmas)

    An environment is a list of [NAME=value] texts; [envValues] reads it as a map
    and refuses one that names a variable twice. *)

From Stdlib Require Import Ascii.
From stdpp Require Import sorting base gmap strings pretty option numbers list.
From S2P Require Import Prelude GoStd GoJson Context ConfigDoc ConfigPatch ConfigApply ConfigDiff ConfigSpec ConfigFrame.

Definition env_pair (entry : string) : string * any :=
  let '(key, content, hasValue) := cut_eq entry in (key, if hasValue then AStr content else ANull).

Lemma env_pair_key e : (env_pair e).1 = env_key e.
Proof. unfold env_pair, env_key. by destruct (cut_eq e) as [[??]?]. Qed.

Lemma env_pair_keys es : (env_pair <$> es).*1 = env_key <$> es.
Proof. rewrite <-list_fmap_compose. apply list_fmap_ext. intros i e _. apply env_pair_key. Qed.

Lemma env_step_string m e :
  env_step m (AStr e) =
  match m !! env_key e with
  | Some _ => errorsNew "SDL contains duplicate environment variables; remove duplicates before updating"
  | None => Ok (<[env_key e := (env_pair e).2]> m)
  end.
Proof. unfold env_step, splitEnv, env_key, env_pair. by destruct (cut_eq e) as [[??]?]. Qed.

Lemma env_fold es : ∀ m0 m,
  foldR env_step m0 (AStr <$> es) = Ok m ↔
  NoDup (env_key <$> es) ∧ (∀ e, e ∈ es → m0 !! env_key e = None) ∧ m = list_to_map (env_pair <$> es) ∪ m0.
Proof.
  induction es as [|e es IH]; intros m0 m.
  { cbn [fmap list_fmap foldR list_to_map foldr]. rewrite (left_id_L ∅ (∪)). split; [intros [= ->]; split_and!; [constructor|set_solver|done]|intros (_ & _ & ->); done]. }
  rewrite !fmap_cons. cbn [foldR]. rewrite env_step_string, NoDup_cons.
  destruct (m0 !! env_key e) as [x|] eqn:E.
  { split; [done|]. intros (_ & H & _). specialize (H e ltac:(set_solver)). congruence. }
  cbn [mbind result_bind]. rewrite IH. cbn [list_to_map foldr]. unfold uncurry. rewrite (surjective_pairing (env_pair e)), env_pair_key.
  split.
  - intros (Hnd & Hfresh & ->).
    assert (env_key e ∉ env_key <$> es) as Hk.
    { intros (e' & He' & Hin)%list_elem_of_fmap. specialize (Hfresh e' Hin). rewrite <-He', lookup_insert_eq in Hfresh. done. }
    split_and!; [done|done| |].
    + intros e' [->|Hin]%elem_of_cons; [done|]. specialize (Hfresh e' Hin).
      by apply lookup_insert_None in Hfresh as [??].
    + rewrite <-insert_union_l. symmetry. apply insert_union_r. apply not_elem_of_list_to_map_1. by rewrite env_pair_keys.
  - intros ([Hk Hnd] & Hfresh & ->). split_and!; [done| |].
    + intros e' Hin. rewrite lookup_insert_ne; [apply Hfresh; set_solver|].
      intros Heq. apply Hk. rewrite Heq. by apply list_elem_of_fmap_2.
    + rewrite <-insert_union_l. apply insert_union_r. apply not_elem_of_list_to_map_1. by rewrite env_pair_keys.
Qed.

(** An environment that reads as a map. *)
Definition env_reads (es : list string) (m : gmap string any) : Prop :=
  NoDup (env_key <$> es) ∧ m = list_to_map (env_pair <$> es).

Lemma env_fold_empty es m : foldR env_step ∅ (AStr <$> es) = Ok m ↔ env_reads es m.
Proof.
  rewrite env_fold. unfold env_reads. rewrite (right_id_L ∅ (∪)). split; [naive_solver|].
  intros [? ->]. split_and!; [done|intros; apply lookup_empty|done].
Qed.

Lemma env_fold_strings l : ∀ m0 m, foldR env_step m0 l = Ok m → ∃ es, l = AStr <$> es.
Proof.
  induction l as [|v l IH]; intros m0 m Hr; [by exists []|]. cbn [foldR] in Hr.
  apply bind_ok in Hr as (m1 & Hs & Hr). destruct v; try done.
  apply IH in Hr as [es ->]. by exists (s :: es).
Qed.

Definition env_list (v : any) : list any := default [] (as_arr v).

Lemma envValues_reads v m : envValues v = Ok m ↔ ∃ es, env_list v = AStr <$> es ∧ env_reads es m ∧ (v = ANull ∨ v = AArr (AStr <$> es)).
Proof.
  split.
  - destruct v; simpl; try done.
    + intros [= <-]. exists []. split_and!; [done|by repeat constructor|by left].
    + intros Hr. destruct (env_fold_strings _ _ _ Hr) as [es ->]. exists es. apply env_fold_empty in Hr. naive_solver.
  - intros (es & Hl & Hr & [->| ->]); simpl in *.
    + symmetry in Hl. apply fmap_nil_inv in Hl as ->. by destruct Hr as [_ ->].
    + by apply env_fold_empty.
Qed.

Lemma env_reads_lookup es m k x : env_reads es m → m !! k = Some x ↔ ∃ e, e ∈ es ∧ env_pair e = (k, x).
Proof.
  intros [Hnd ->]. rewrite <-elem_of_list_to_map by (by rewrite env_pair_keys).
  rewrite list_elem_of_fmap. naive_solver.
Qed.

Lemma env_reads_none es m k : env_reads es m → m !! k = None ↔ ∀ e, e ∈ es → env_key e ≠ k.
Proof.
  intros [Hnd ->]. rewrite <-not_elem_of_list_to_map, env_pair_keys, list_elem_of_fmap. naive_solver.
Qed.

(** ** Patched environments *)
Definition env_patched (p : gmap string (option string)) (old : gmap string any) : gmap string any :=
  (AStr <$> omap id p) ∪ filter (λ kv, p !! kv.1 = None) old.

Lemma env_patched_lookup p old k :
  env_patched p old !! k = match p !! k with Some (Some v) => Some (AStr v) | Some None => None | None => old !! k end.
Proof.
  unfold env_patched. destruct (p !! k) as [[v|]|] eqn:E.
  - apply lookup_union_Some_l. by rewrite lookup_fmap, lookup_omap, E.
  - rewrite lookup_union_r by (by rewrite lookup_fmap, lookup_omap, E).
    apply map_lookup_filter_None_2. right. intros x _. simpl. by rewrite E.
  - rewrite lookup_union_r by (by rewrite lookup_fmap, lookup_omap, E).
    apply option_eq. intros x. rewrite map_lookup_filter_Some. simpl. naive_solver.
Qed.

Definition no_equals (p : gmap string (option string)) : Prop := ∀ k, is_Some (p !! k) → "="%char ∉ bytes_of k.

Lemma valid_no_equals k : validEnvName k = true → "="%char ∉ bytes_of k.
Proof.
  unfold validEnvName. destruct (bytes_of k) as [|c l]; [done|]. intros H. apply andb_true_iff in H as [H1 H2].
  intros [<-|Hin]%elem_of_cons; [done|]. rewrite forallb_forall in H2.
  specialize (H2 "="%char ltac:(by apply list_elem_of_In)). done.
Qed.

Definition added_texts (p : gmap string (option string)) : list string :=
  omap (λ key, match p !! key with Some (Some value) => Some (key +:+ "=" +:+ value) | _ => None end)
    (sort_strings (map_to_list p).*1).

Lemma env_added_texts p : env_added p = AStr <$> added_texts p.
Proof.
  unfold env_added, added_texts. induction (sort_strings _) as [|k l IH]; [done|]. simpl.
  destruct (p !! k) as [[v|]|]; simpl; [by f_equal|done|done].
Qed.

Lemma kept_texts p (es : list string) : filter (λ v, env_kept p v) (AStr <$> es) = AStr <$> filter (λ e, p !! env_key e = None) es.
Proof.
  induction es as [|e es IH]; [done|]. rewrite fmap_cons, !filter_cons, IH. simpl.
  destruct (decide (p !! env_key e = None)) as [E|E].
  - rewrite decide_True; [done|]. by apply bool_decide_pack.
  - rewrite decide_False; [done|]. by intros H%bool_decide_unpack.
Qed.

Lemma cut_joined k v : "="%char ∉ bytes_of k → cut_eq (k +:+ "=" +:+ v) = (k, v, true).
Proof.
  intros Hk. unfold cut_eq. assert (split2 "=" (k +:+ "=" +:+ v) = Some (k, v)) as ->; [|done].
  apply split2_spec. rewrite !bytes_of_app. split; [done|]. unfold has_byte. by rewrite bool_decide_eq_false_2.
Qed.

Lemma added_text p e :
  no_equals p → e ∈ added_texts p ↔ ∃ k v, p !! k = Some (Some v) ∧ e = k +:+ "=" +:+ v.
Proof.
  intros Hp. unfold added_texts. rewrite list_elem_of_omap. split.
  - intros (k & _ & Hk). destruct (p !! k) as [[v|]|] eqn:E; simplify_eq. eauto.
  - intros (k & v & Hk & ->). exists k. rewrite Hk. split; [|done]. rewrite sort_strings_elem, list_elem_of_fmap.
    exists (k, Some v). by rewrite elem_of_map_to_list.
Qed.

Lemma added_pair p k v : no_equals p → p !! k = Some (Some v) → env_pair (k +:+ "=" +:+ v) = (k, AStr v).
Proof. intros Hp Hk. unfold env_pair. rewrite cut_joined; [done|]. apply Hp. by rewrite Hk. Qed.

Lemma added_key p e : no_equals p → e ∈ added_texts p → is_Some (p !! env_key e).
Proof.
  intros Hp (k & v & Hk & ->)%added_text; [|done]. rewrite <-env_pair_key, (added_pair p) by done. simpl. by rewrite Hk.
Qed.

Lemma added_keys_NoDup p : no_equals p → NoDup (env_key <$> added_texts p).
Proof.
  intros Hp. assert (NoDup (sort_strings (map_to_list p).*1)) as Hnd.
  { rewrite sort_strings_perm. apply NoDup_fst_map_to_list. }
  unfold added_texts. induction Hnd as [|k l Hk Hnd IH]; [constructor|]. simpl.
  destruct (p !! k) as [[v|]|] eqn:E; [|done..]. rewrite fmap_cons, NoDup_cons. split; [|done].
  rewrite <-(env_pair_key (k +:+ _)), (added_pair p) by done. simpl.
  intros (e & He & Hin)%list_elem_of_fmap. apply list_elem_of_omap in Hin as (k' & Hin & Hk').
  destruct (p !! k') as [[v'|]|] eqn:E'; simplify_eq. apply Hk.
  rewrite <-(env_pair_key (k' +:+ _)), (added_pair p) by done. done.
Qed.

(** A patched environment reads as the patched map. *)
Lemma env_patched_reads p es old :
  no_equals p → env_reads es old →
  env_reads (filter (λ e, p !! env_key e = None) es ++ added_texts p) (env_patched p old).
Proof.
  intros Hp Hr. assert (NoDup (env_key <$> filter (λ e, p !! env_key e = None) es ++ added_texts p)) as Hnd.
  { rewrite fmap_app. apply NoDup_app. split_and!; [|intros x H1 H2|by apply added_keys_NoDup].
    - destruct Hr as [Hnd _]. eapply sublist_NoDup; [exact Hnd|]. by apply fmap_sublist, sublist_filter.
    - apply list_elem_of_fmap in H1 as (e & -> & [He _]%list_elem_of_filter).
      apply list_elem_of_fmap in H2 as (e' & Heq & He'). apply added_key in He' as [? He']; [|done]. congruence. }
  split; [done|]. apply map_eq. intros k. apply option_eq. intros x.
  rewrite env_patched_lookup, (env_reads_lookup _ (list_to_map _) k x (conj Hnd eq_refl)).
  setoid_rewrite elem_of_app. setoid_rewrite list_elem_of_filter. setoid_rewrite (added_text p _ Hp).
  split.
  - intros Hx. destruct (p !! k) as [[v|]|] eqn:E; simplify_eq.
    + exists (k +:+ "=" +:+ v). split; [right; eauto|]. by apply (added_pair p).
    + apply (env_reads_lookup _ _ _ _ Hr) in Hx as (e & He & Hpair). exists e. split; [left|done].
      split; [|done]. by rewrite <-env_pair_key, Hpair.
  - intros (e & [[Hn He]|(k' & v & Hk & ->)] & Hpair).
    + rewrite <-env_pair_key, Hpair in Hn. simpl in Hn. rewrite Hn. apply (env_reads_lookup _ _ _ _ Hr). eauto.
    + rewrite (added_pair p) in Hpair by done. simplify_eq. by rewrite Hk.
Qed.

Lemma env_values_texts p (es : list string) : env_values (AStr <$> es) p = AStr <$> (filter (λ e, p !! env_key e = None) es ++ added_texts p).
Proof. unfold env_values. by rewrite kept_texts, env_added_texts, fmap_app. Qed.

Lemma applyEnv_reads s p old :
  no_equals p → envValues (get "env" s) = Ok old →
  envValues (get "env" (applyEnv s p)) = Ok (env_patched p old).
Proof.
  intros Hp (es & Hl & Hr & _)%envValues_reads. apply (env_patched_reads p) in Hr; [|done].
  unfold applyEnv. change (default [] (as_arr (get "env" s))) with (env_list (get "env" s)). rewrite Hl, env_values_texts.
  set (l := filter _ es ++ _) in *. apply env_fold_empty in Hr. destruct l as [|e l].
  - rewrite fmap_nil, get_lookup, lookup_delete_eq. done.
  - rewrite fmap_cons, get_lookup, lookup_insert_eq. done.
Qed.

(** ** The difference of two environments *)
Definition raw_env (p : gmap string (option string)) : gmap string any :=
  (λ v, match v with Some s => AStr s | None => ANull end) <$> p.

Definition plain (m : gmap string any) : Prop := ∀ k v, m !! k = Some v → v = ANull ∨ ∃ s, v = AStr s.

Lemma env_reads_plain es m : env_reads es m → plain m.
Proof.
  intros Hr k v Hv. apply (env_reads_lookup _ _ _ _ Hr) in Hv as (e & _ & He). unfold env_pair in He.
  destruct (cut_eq e) as [[??][]]; simplify_eq; eauto.
Qed.

Lemma DeepEqual_plain a b : (b = ANull ∨ ∃ s, b = AStr s) → DeepEqual a b = bool_decide (a = b).
Proof.
  intros Hb. unfold DeepEqual. apply bool_decide_ext. destruct Hb as [->|[s ->]]; destruct a; simpl; naive_solver.
Qed.

Lemma unsign_strings es : unsign (AArr (AStr <$> es)) = AArr (AStr <$> es).
Proof. simpl. f_equal. induction es as [|e es IH]; [done|]. rewrite fmap_cons. simpl. by rewrite IH. Qed.

Lemma diffEnv_loop old d patch :
  plain d → foldR (env_set_step old) (env_removed old d) (map_to_list d) = Ok patch →
  ∀ k, match d !! k with
       | Some v => patch !! k = (if bool_decide (old !! k = Some v) then None else Some v) ∧ (old !! k ≠ Some v → v ≠ ANull)
       | None => patch !! k = (if old !! k then Some ANull else None)
       end.
Proof.
  intros Hd Hr.
  assert (∀ k, patch !! k = match d !! k with
    | Some v => if bool_decide (old !! k = Some v) then env_removed old d !! k else Some v
    | None => env_removed old d !! k end ∧ ∀ v, d !! k = Some v → old !! k ≠ Some v → v ≠ ANull) as H.
  { revert Hr. apply (foldR_map_ind (λ patch n, ∀ k, patch !! k = match n !! k with
      | Some v => if bool_decide (old !! k = Some v) then env_removed old d !! k else Some v
      | None => env_removed old d !! k end ∧ ∀ v, n !! k = Some v → old !! k ≠ Some v → v ≠ ANull)).
    - intros k. by rewrite lookup_empty.
    - intros s n k v s' Hn Hv _ HP Hs k'. unfold env_set_step in Hs.
      assert (match old !! k with Some previous => DeepEqual previous v | None => false end = bool_decide (old !! k = Some v)) as Heq.
      { destruct (old !! k) as [a|]; [|by rewrite bool_decide_eq_false_2]. rewrite DeepEqual_plain by eauto.
        apply bool_decide_ext. naive_solver. }
      rewrite Heq in Hs. destruct (decide (k' = k)) as [->|Hne].
      + rewrite lookup_insert_eq. specialize (HP k). rewrite Hn in HP.
        destruct (decide (old !! k = Some v)) as [E|E].
        * rewrite (bool_decide_eq_true_2 (old !! k = Some v)) in Hs |- * by done. injection Hs as <-. split; [apply HP|]. intros ? [= <-]; done.
        * rewrite (bool_decide_eq_false_2 (old !! k = Some v)) in Hs |- * by done.
          destruct (bool_decide (v = ANull)) eqn:En; [done|]. apply bool_decide_eq_false in En. injection Hs as <-.
          rewrite lookup_insert_eq. split; [done|]. by intros ? [= <-].
      + rewrite lookup_insert_ne by done. destruct (bool_decide (old !! k = Some v)); [simplify_eq; apply HP|].
        destruct (bool_decide (v = ANull)); [done|]. injection Hs as <-. rewrite lookup_insert_ne by done. apply HP. }
  assert (∀ k, env_removed old d !! k = match d !! k with Some _ => None | None => if old !! k then Some ANull else None end) as Hrem.
  { intros k. unfold env_removed. rewrite lookup_fmap, map_lookup_filter. simpl.
    destruct (old !! k) as [a|]; simpl; [|by destruct (d !! k)]. destruct (d !! k) eqn:E; case_guard; simpl; naive_solver. }
  intros k. destruct (H k) as [Hk Hn]. rewrite Hrem in Hk. destruct (d !! k); eauto.
Qed.

Lemma env_patched_empty old : env_patched ∅ old = old.
Proof. apply map_eq. intros k. by rewrite env_patched_lookup, lookup_empty. Qed.

Lemma DeepEqual_env cur req old d :
  envValues cur = Ok old → envValues req = Ok d → DeepEqual cur req = true → old = d.
Proof.
  intros Ho Hd Heq. assert (cur = req) as ->; [|congruence].
  apply envValues_reads in Ho as (es & _ & _ & Hc). apply envValues_reads in Hd as (es' & _ & _ & Hq).
  apply bool_decide_eq_true in Heq. destruct Hc as [->| ->], Hq as [->| ->]; rewrite ?unsign_strings in Heq; done.
Qed.

Lemma diffEnv_patched cur req old d p :
  envValues cur = Ok old → envValues req = Ok d → diffEnv cur req = Ok (raw_env p) → env_patched p old = d.
Proof.
  intros Ho Hd Hr. unfold diffEnv in Hr. destruct (DeepEqual cur req) eqn:E.
  - injection Hr as Hr. symmetry in Hr. apply fmap_empty_inv in Hr as ->. rewrite env_patched_empty.
    by eapply DeepEqual_env.
  - rewrite Ho, Hd in Hr. cbn [mbind result_bind] in Hr. apply envValues_reads in Hd as (es & _ & Hd & _).
    pose proof (diffEnv_loop old d _ (env_reads_plain _ _ Hd) Hr) as H.
    apply map_eq. intros k. specialize (H k). rewrite env_patched_lookup. unfold raw_env in H. rewrite lookup_fmap in H.
    destruct (d !! k) as [v|] eqn:Ev.
    + destruct H as [H Hn]. destruct (decide (old !! k = Some v)) as [Eo|Eo].
      * rewrite bool_decide_eq_true_2 in H by done. by destruct (p !! k).
      * rewrite bool_decide_eq_false_2 in H by done. specialize (Hn Eo).
        destruct (p !! k) as [[w|]|]; simpl in H; naive_solver.
    + destruct (p !! k) as [[w|]|]; simpl in H; [by destruct (old !! k)|done|by destruct (old !! k)].
Qed.
