(* ===== verification/ConfigDiffSpec.v ===== *)
(** * What Diff lets through (lemmas)

    [agree ks] relates objects whose members outside [ks] are [DeepEqual]. From the
    frame of [Apply] and the final comparison of [Diff] follows which parts of the
    requested document must be those of the current one. *)

From Stdlib Require Import Ascii.
From stdpp Require Import sorting base gmap strings pretty option numbers list.
From S2P Require Import Prelude GoStd GoJson Context ConfigDoc ConfigPatch ConfigApply ConfigDiff ConfigSpec ConfigFrame.

(** What yaml.v3 documents: unmarshalling what was marshalled gives the value back.
    The sign of a zero is lost, since [-0] is read as an integer. *)
Class YamlLaws `{Yaml} : Prop :=
  marshal_parse : ∀ d d', parseObject (yaml_Marshal (AObj d)) = Ok d' → unsign <$> d' = unsign <$> d.

#[export] Instance AObj_inj : Inj (=) (=) AObj.
Proof. by intros m m' [= H]. Qed.

(** ** Agreement *)
Definition agree (ks : list string) (m m' : gmap string any) : Prop :=
  ∀ k, k ∉ ks → unsign <$> m' !! k = unsign <$> m !! k.

#[export] Instance agree_equiv ks : Equivalence (agree ks).
Proof.
  split; [intros m k Hk; done|intros m m' H k Hk; by rewrite H|].
  intros m1 m2 m3 H1 H2 k Hk. rewrite H2, H1; done.
Qed.

Lemma keeps_agree ks m m' : keeps ks m m' → agree ks m m'.
Proof. intros H k Hk. by rewrite H. Qed.

Lemma agree_weaken ks ks' m m' : ks ⊆ ks' → agree ks m m' → agree ks' m m'.
Proof. intros Hs H k Hk. apply H. set_solver. Qed.

Lemma agree_all ks m m' : unsign <$> m' = unsign <$> m → agree ks m m'.
Proof. intros H k _. by rewrite <-!lookup_fmap, H. Qed.

Lemma agree_nil m m' : agree [] m m' ↔ unsign <$> m' = unsign <$> m.
Proof.
  split; [|apply agree_all]. intros H. apply map_eq. intros k. rewrite !lookup_fmap. apply H. set_solver.
Qed.

Lemma unsign_obj v m : unsign v = unsign (AObj m) → ∃ m', v = AObj m' ∧ agree [] m m'.
Proof. destruct v; simpl; try done. intros [= H]. eexists. split; [done|]. by apply agree_nil. Qed.

Lemma unsign_objs v l :
  unsign v = unsign (AArr (AObj <$> l)) → ∃ l', v = AArr (AObj <$> l') ∧ Forall2 (agree []) l l'.
Proof.
  destruct v as [| | | |vs|]; simpl; try done. intros [= H]. revert l H.
  induction vs as [|v vs IH]; intros [|m l]; simpl; try done.
  - intros _. exists []. by repeat constructor.
  - intros [= Hv Hvs]. destruct (unsign_obj v m Hv) as (m' & -> & Hm).
    destruct (IH l Hvs) as (l' & [= ->] & Hl). exists (m' :: l'). split; [done|by constructor].
Qed.

Lemma agree_lookup ks m m' k v :
  agree ks m m' → k ∉ ks → m !! k = Some v → ∃ v', m' !! k = Some v' ∧ unsign v' = unsign v.
Proof.
  intros H Hk Hv. specialize (H k Hk). rewrite Hv in H. simpl in H.
  destruct (m' !! k) as [v'|]; simpl in H; [|done]. simplify_eq. eauto.
Qed.

Lemma agree_obj ks m m' k o :
  agree ks m m' → k ∉ ks → m !! k = Some (AObj o) → ∃ o', m' !! k = Some (AObj o') ∧ agree [] o o'.
Proof.
  intros H Hk Ho. destruct (agree_lookup _ _ _ _ _ H Hk Ho) as (v & Hv & Hu).
  apply unsign_obj in Hu as (o' & -> & Ho'). eauto.
Qed.

Lemma agree_dom m m' : agree [] m m' → dom m' = dom m.
Proof. intros H%agree_nil. by rewrite <-(dom_fmap_L unsign m'), H, dom_fmap_L. Qed.

(** ** The kind of an endpoint does not depend on the sign of a zero *)
Definition unsign_text (t : string) : string := if bool_decide (t = "-0") then "0" else t.

Lemma float_eq_80 t : float_eq (unsign_text t) "80" = float_eq t "80".
Proof. unfold unsign_text. case_bool_decide as E; [by subst|done]. Qed.

Lemma is_zero_unsign t : is_zero (unsign_text t) = is_zero t.
Proof. unfold unsign_text. case_bool_decide as E; [by subst|done]. Qed.

Lemma get_unsign k m : get k (unsign <$> m) = unsign (get k m).
Proof. unfold get. rewrite lookup_fmap. by destruct (m !! k). Qed.

Lemma as_num_unsign v : default "0" (as_num (unsign v)) = unsign_text (default "0" (as_num v)).
Proof. by destruct v. Qed.

Lemma externalPort_unsign m : externalPort (unsign <$> m) = unsign_text (externalPort m).
Proof.
  unfold externalPort. rewrite !get_unsign, !as_num_unsign. destruct (get "as" m); try done.
  simpl. fold (unsign_text text). rewrite is_zero_unsign. by destruct (is_zero text).
Qed.

Lemma obj_unsign v : obj (unsign v) = unsign <$> obj v.
Proof. unfold obj. destruct v; simpl; by rewrite ?fmap_empty. Qed.

Lemma targets_unsign m : targets (unsign <$> m) = unsign <$> targets m.
Proof. unfold targets. rewrite get_unsign. by destruct (get "to" m). Qed.

Lemma is_global_unsign v : is_global (unsign v) = is_global v.
Proof. unfold is_global. rewrite obj_unsign, get_unsign. by destruct (get "global" (obj v)). Qed.

Lemma endpointKind_unsign m : endpointKind (unsign <$> m) = endpointKind m.
Proof.
  unfold endpointKind. rewrite targets_unsign, externalPort_unsign, get_unsign, float_eq_80.
  assert (existsb is_global (unsign <$> targets m) = existsb is_global (targets m)) as ->.
  { induction (targets m) as [|v l IH]; [done|]. rewrite fmap_cons. cbn [existsb]. by rewrite is_global_unsign, IH. }
  by destruct (get "proto" m).
Qed.

Lemma endpointKind_agree m m' : agree [] m m' → endpointKind m' = endpointKind m.
Proof. intros H%agree_nil. by rewrite <-(endpointKind_unsign m'), H, endpointKind_unsign. Qed.

(** ** The normal form changes four fields of a service *)
Definition norm_keys : list string := ["command"; "args"; "credentials"; "env"].

Lemma drop_nulls_keeps ks l s s' : l ⊆ ks → keeps ks s s' → keeps ks s (foldl drop_null s' l).
Proof.
  revert s'. induction l as [|f l IH]; intros s' Hl Hs; [done|]. apply IH; [set_solver|].
  unfold drop_null. case_bool_decide; [apply keeps_delete; [set_solver|done]|done].
Qed.

Lemma normalize_service_keeps `{SortMixed} s : ∃ s', normalize_service (AObj s) = AObj s' ∧ keeps norm_keys s s'.
Proof.
  unfold normalize_service. eexists. split; [reflexivity|].
  assert (keeps norm_keys s (foldl drop_null s norm_keys)) as Hd.
  { by apply drop_nulls_keeps. }
  change ["command"; "args"; "credentials"; "env"] with norm_keys.
  destruct (get "env" _) as [| | | |[|x env]|]; try done; unfold norm_keys in *; auto with config.
Qed.

Lemma normalize_other `{SortMixed} d k : k ≠ "services" → normalizeSDL d !! k = d !! k.
Proof. intros Hk. unfold normalizeSDL. repeat case_match; rewrite ?lookup_insert_ne by done; done. Qed.

Lemma normalize_services `{SortMixed} d ss :
  d !! "services" = Some (AObj ss) → normalizeSDL d !! "services" = Some (AObj (normalize_service <$> ss)).
Proof. intros Hs. unfold normalizeSDL. rewrite Hs. by rewrite lookup_insert_eq. Qed.

(** ** What an edit leaves alone, compared with what was requested *)
Definition entry_same (b a : gmap string any) : Prop := agree entry_fields b a ∧ endpointKind a = endpointKind b.
Definition volume_same (st st' : gmap string any) : Prop :=
  dom st' = dom st ∧
  ∀ name v, st !! name = Some (AObj v) → ∃ v', st' !! name = Some (AObj v') ∧ agree ["mount"; "readOnly"] v v'.
Definition params_same (ps ps' : gmap string any) : Prop :=
  agree ["storage"] ps ps' ∧
  ∀ st, ps !! "storage" = Some (AObj st) → ∃ st', ps' !! "storage" = Some (AObj st') ∧ volume_same st st'.
Record service_same (s t : gmap string any) : Prop := {
  ss_frame : agree service_keys s t;
  ss_expose : ∀ before, s !! "expose" = Some (AArr (AObj <$> before)) →
    ∃ after, t !! "expose" = Some (AArr (AObj <$> after)) ∧ Forall2 entry_same before after;
  ss_params : ∀ ps, s !! "params" = Some (AObj ps) → ∃ ps', t !! "params" = Some (AObj ps') ∧ params_same ps ps';
}.
Definition document_same (d r : gmap string any) : Prop :=
  agree ["services"] d r ∧
  ∃ ss rs, d !! "services" = Some (AObj ss) ∧ r !! "services" = Some (AObj rs) ∧ dom rs = dom ss ∧
    ∀ name s, ss !! name = Some (AObj s) → ∃ t, rs !! name = Some (AObj t) ∧ service_same s t.

Lemma Forall2_same {A} (R : A → A → Prop) l : (∀ x, x ∈ l → R x x) → Forall2 R l l.
Proof. intros H. apply Forall_Forall2_diag, Forall_forall. done. Qed.

(** An entry that agrees with an edited one. *)
Lemma entry_same_edit patch b a :
  (is_Some (change_for patch b) → entry_checked b (edit_entry patch b)) → agree [] (edit_entry patch b) a → entry_same b a.
Proof.
  intros Hc Ha. split.
  - transitivity (edit_entry patch b); [apply keeps_agree, edit_entry_keeps|]. eapply agree_weaken; [|exact Ha]. set_solver.
  - rewrite (endpointKind_agree _ _ Ha). destruct (change_for patch b) as [c|] eqn:E.
    + apply Hc. eauto.
    + unfold edit_entry. by rewrite E.
Qed.

Lemma expose_same_edit patch s s' t before :
  expose_edit patch s s' → agree norm_keys s' t → s !! "expose" = Some (AArr (AObj <$> before)) →
  ∃ after, t !! "expose" = Some (AArr (AObj <$> after)) ∧ Forall2 entry_same before after.
Proof.
  intros He Ht Hs.
  assert (s' !! "expose" = Some (AArr (AObj <$> (edit_entry patch <$> before))) ∧
    ∀ b, b ∈ before → is_Some (change_for patch b) → entry_checked b (edit_entry patch b)) as [Hs' Hc].
  { unfold expose_edit in He. case_bool_decide as Hp.
    - assert (∀ b, change_for patch b = None) as Hn by (intros b; subst; unfold change_for; by destruct (get "port" b)).
      split; [|intros b _; rewrite Hn; by intros []]. rewrite He, Hs.
      assert (edit_entry patch <$> before = before) as ->; [|done]. rewrite <-(list_fmap_id before) at 2.
      apply list_fmap_ext. intros i b _. unfold edit_entry. by rewrite Hn.
    - destruct He as (before' & Hb & Hs' & Hc & _). rewrite Hs in Hb. injection Hb as Hb.
      apply list_fmap_eq_inj in Hb as <-; [|apply _]. done. }
  destruct (agree_lookup norm_keys _ _ "expose" _ Ht ltac:(unfold norm_keys; set_solver) Hs') as (v & Hv & Hu).
  apply unsign_objs in Hu as (after & -> & Hf). exists after. split; [done|].
  rewrite Forall2_fmap_l in Hf. apply Forall2_same_length_lookup in Hf as [Hlen Hf].
  apply Forall2_same_length_lookup. split; [done|]. intros i b a Hb Ha.
  eapply entry_same_edit; [intros; apply Hc; [by eapply list_elem_of_lookup_2|done]|]. by eapply Hf.
Qed.

Lemma set_volume_keeps c v : keeps ["mount"; "readOnly"] v (set_volume c v).
Proof. unfold set_volume. destruct (sp_Mount c), (sp_ReadOnly c); auto with config. Qed.

Lemma volume_same_edit patch st st' st'' : volume_edit patch st st' → agree [] st' st'' → volume_same st st''.
Proof.
  intros Hv Ha. split.
  - rewrite (agree_dom _ _ Ha). apply set_eq. intros name. rewrite !elem_of_dom. specialize (Hv name).
    destruct (patch !! name); [|by rewrite Hv]. destruct Hv as (v & -> & ->). naive_solver.
  - intros name v Hn. specialize (Hv name).
    assert (∃ v', st' !! name = Some (AObj v') ∧ agree ["mount"; "readOnly"] v v') as (v' & Hn' & Hag).
    { destruct (patch !! name) as [c|]; [|exists v; by rewrite Hv].
      destruct Hv as (w & Hw & Hw'). simplify_eq. eexists. split; [done|]. apply keeps_agree, set_volume_keeps. }
    destruct (agree_obj [] _ _ name _ Ha ltac:(set_solver) Hn') as (v'' & Hn'' & Ha').
    exists v''. split; [done|]. transitivity v'; [done|]. eapply agree_weaken; [|done]. set_solver.
Qed.

Lemma storage_same_edit patch s s' t ps :
  storage_edit patch s s' → agree norm_keys s' t → s !! "params" = Some (AObj ps) →
  ∃ ps', t !! "params" = Some (AObj ps') ∧ params_same ps ps'.
Proof.
  intros He Ht Hs.
  assert (∃ ps1, s' !! "params" = Some (AObj ps1) ∧ agree ["storage"] ps ps1 ∧
    ∀ st, ps !! "storage" = Some (AObj st) → ∃ st1, ps1 !! "storage" = Some (AObj st1) ∧ volume_edit patch st st1)
    as (ps1 & Hs1 & Hf & Hst).
  { unfold storage_edit in He. case_bool_decide as Hp.
    - exists ps. rewrite He. split_and!; [done|done|]. intros st Hst. exists st. split; [done|].
      intros name. by rewrite Hp, lookup_empty.
    - destruct He as (ps0 & st & st' & H1 & H2 & H3 & H4). simplify_eq. eexists. split; [done|]. split.
      + apply keeps_agree. auto with config.
      + intros st0 H0. simplify_eq. exists st'. by rewrite lookup_insert_eq. }
  destruct (agree_obj norm_keys _ _ "params" _ Ht ltac:(unfold norm_keys; set_solver) Hs1) as (ps' & Hps' & Ha).
  exists ps'. split; [done|]. split.
  - transitivity ps1; [done|]. eapply agree_weaken; [|done]. set_solver.
  - intros st H0. destruct (Hst st H0) as (st1 & H1 & Hv).
    destruct (agree_obj [] _ _ "storage" _ Ha ltac:(set_solver) H1) as (st' & H2 & Ha'). exists st'. split; [done|].
    by eapply volume_same_edit.
Qed.

Lemma norm_service_keys : norm_keys ⊆ service_keys.
Proof. intros x. unfold norm_keys, service_keys. rewrite !list_elem_of_In. simpl. tauto. Qed.

Lemma service_same_edit c s s' t : service_edit c s s' → agree norm_keys s' t → service_same s t.
Proof.
  intros He Ht. split.
  - transitivity s'; [apply keeps_agree, (se_frame _ _ _ He)|]. eapply agree_weaken; [apply norm_service_keys|done].
  - intros before Hb. by eapply expose_same_edit; [apply (se_expose _ _ _ He)|..].
  - intros ps Hps. by eapply storage_same_edit; [apply (se_storage _ _ _ He)|..].
Qed.

Lemma service_edit_zero s : service_edit zero_service s s.
Proof. by split. Qed.

(** Any two services with the same normal form agree outside the fields it touches. *)
Lemma normalize_agree `{SortMixed} v t :
  unsign (normalize_service v) = unsign (normalize_service (AObj t)) → ∃ s, v = AObj s ∧ agree norm_keys s t.
Proof.
  destruct (normalize_service_keeps t) as (t' & -> & Ht). destruct v as [| | | | |s]; try done.
  destruct (normalize_service_keeps s) as (s' & -> & Hs). intros Hu. exists s. split; [done|].
  apply unsign_obj in Hu as (? & [= <-] & Ha).
  transitivity s'; [by apply keeps_agree|]. transitivity t'; [|symmetry; by apply keeps_agree].
  symmetry. eapply agree_weaken; [|done]. set_solver.
Qed.

(** ** Documents *)
Lemma services_edit_dom patch ss ss' : services_edit patch ss ss' → dom ss' = dom ss.
Proof.
  intros He. apply set_eq. intros name. rewrite !elem_of_dom. specialize (He name).
  destruct (patch !! name) as [c|]; [|by rewrite He]. destruct He as (s & s' & -> & -> & _). naive_solver.
Qed.

Lemma services_edit_obj patch ss ss' name s :
  services_edit patch ss ss' → ss !! name = Some (AObj s) →
  ∃ c s', ss' !! name = Some (AObj s') ∧ service_edit c s s'.
Proof.
  intros He Hs. specialize (He name). destruct (patch !! name) as [c|].
  - destruct He as (s0 & s' & H1 & H2 & He). simplify_eq. eauto.
  - exists zero_service, s. rewrite He. split; [done|]. apply service_edit_zero.
Qed.

Lemma document_same_edit `{SortMixed} p d d' a r :
  document_edit p d d' → unsign <$> a = unsign <$> d' →
  unsign <$> normalizeSDL a = unsign <$> normalizeSDL r → document_same d r.
Proof.
  intros [Hf (ss & ss' & Hs & Hs' & He)] Ha Hn. apply agree_nil in Ha.
  assert (∀ k, unsign <$> normalizeSDL a !! k = unsign <$> normalizeSDL r !! k) as Hk
    by (intros k; by rewrite <-!lookup_fmap, Hn).
  destruct (agree_obj [] _ _ "services" _ Ha ltac:(set_solver) Hs') as (as_ & Has & Hag).
  split.
  - intros k Hk'. specialize (Hk k). rewrite !normalize_other in Hk by set_solver. rewrite <-Hk.
    rewrite (Ha k ltac:(set_solver)). by rewrite Hf.
  - specialize (Hk "services"). rewrite (normalize_services a as_ Has) in Hk. simpl in Hk.
    assert (∃ rs, r !! "services" = Some (AObj rs)) as [rs Hrs].
    { unfold normalizeSDL in Hk. destruct (r !! "services") as [v|] eqn:E; [|by rewrite E in Hk].
      destruct v; try (rewrite E in Hk; done). eauto. }
    rewrite (normalize_services r rs Hrs) in Hk. simpl in Hk. injection Hk as Hk.
    exists ss, rs. split_and!; [done|done| |].
    + rewrite <-(services_edit_dom _ _ _ He), <-(agree_dom _ _ Hag).
      rewrite <-(dom_fmap_L normalize_service rs), <-(dom_fmap_L unsign (_ <$> rs)), <-Hk. by rewrite !dom_fmap_L.
    + intros name s Hn1. destruct (services_edit_obj _ _ _ _ _ He Hn1) as (c & s' & Hn2 & Hse).
      destruct (agree_obj [] _ _ name _ Hag ltac:(set_solver) Hn2) as (s'' & Hn3 & Hag').
      assert (unsign <$> (normalize_service <$> as_) !! name = unsign <$> (normalize_service <$> rs) !! name) as Hl
        by (by rewrite <-!lookup_fmap, Hk).
      rewrite !lookup_fmap, Hn3 in Hl. destruct (rs !! name) as [v|] eqn:Ev; [apply Some_inj in Hl|done].
      symmetry in Hl. apply normalize_agree in Hl as (t & -> & Ht). exists t. split; [done|].
      eapply service_same_edit; [done|]. transitivity s''; [|by symmetry]. eapply agree_weaken; [|done]. set_solver.
Qed.

Lemma Diff_ok `{Yaml, SortMixed} cur req p :
  Diff cur req = Ok p →
  ∃ d r out a, parseObject cur = Ok d ∧ parseObject req = Ok r ∧ Validate p = None ∧ Apply cur p = Ok out ∧
    parseObject out = Ok a ∧ unsign <$> normalizeSDL a = unsign <$> normalizeSDL r.
Proof.
  unfold Diff, replace_err. intros Hr. apply bind_ok in Hr as (d & Hd%map_err_ok & Hr).
  apply bind_ok in Hr as (r & Hq%map_err_ok & Hr).
  destruct (d !! "services") as [[| | | | |ss]|]; try done. destruct (r !! "services") as [[| | | | |rs]|]; try done.
  apply bind_ok in Hr as (services & _ & Hr). destruct (Validate _) eqn:Hv; [done|].
  apply bind_ok in Hr as (out & Ha & Hr). apply bind_ok in Hr as (a & Hp%map_err_ok & Hr).
  unfold DeepEqual in Hr. case_bool_decide as Hu; [|done]. injection Hr as <-.
  simpl in Hu. injection Hu as Hu. exists d, r, out, a. done.
Qed.
