(* ===== verification/ConfigProps.v ===== *)
(** * Well-formed patches, and the properties of patches

    What [Validate] accepts, said of the patch rather than by the checks, and that
    applying a well-formed patch does not panic. *)

From Stdlib Require Import Ascii.
From stdpp Require Import sorting base gmap strings pretty option numbers list.
From S2P Require Import Prelude GoStd GoJson Context ConfigDoc ConfigPatch ConfigApply ConfigDiff ConfigSpec ConfigFrame ConfigEnvSpec ConfigDiffSpec.

Definition port_wf (port : option N) : Prop := ∀ n, port = Some n → (1 ≤ n ≤ 65535)%N.
Definition strings_wf (raw : option json) : Prop := ∀ j, raw = Some j → j = JNull ∨ ∃ l, j = JArr (JStr <$> l).
Definition credentials_wf (raw : option json) : Prop :=
  ∀ j, raw = Some j → j = JNull ∨
    ∃ kvs host username password, j = JObj kvs ∧
      dec_struct true cred_fields j (None, None, None) = Some (Some host, Some username, Some password).
Record http_wf (o : HTTPOptionsPatch) : Prop := {
  hw_body : ∀ n, ho_MaxBodySize o = Some n → (1 ≤ n ≤ 104857600)%N;
  hw_read : ho_ReadTimeout o ≠ Some 0%N;
  hw_send : ho_SendTimeout o ≠ Some 0%N;
  hw_cases : ∀ l, ho_NextCases o = Some l → l = ["off"] ∨ (l ≠ [] ∧ ∀ c, c ∈ l → c ∈ next_conditions);
}.
Record service_wf (s : ServicePatch) : Prop := {
  sw_command : strings_wf (sv_Command s);
  sw_args : strings_wf (sv_Args s);
  sw_credentials : credentials_wf (sv_Credentials s);
  sw_env : ∀ k, is_Some (sv_Env s !! k) → validEnvName k = true;
  sw_expose : ∀ k e, sv_Expose s !! k = Some e →
    port_wf (ep_Port e) ∧ port_wf (ep_As e) ∧ ∀ o, ep_HTTPOptions e = Some o → http_wf o;
}.
Record patch_wf (p : Patch) : Prop := {
  pw_name : ∀ n, pt_Name p = Some n → TrimSpace n ≠ "" ∧ rune_count 0 (bytes_of (TrimSpace n)) ≤ 256;
  pw_version : length (bytes_of (pt_IfManifestVersion p)) ≤ 64;
  pw_services : ∀ name s, pt_Services p !! name = Some s → service_wf s;
}.

Lemma values_elem {A} (m : gmap string A) a : a ∈ values m ↔ ∃ k, m !! k = Some a.
Proof.
  unfold values. rewrite list_elem_of_fmap. split.
  - intros ([k x] & -> & H%elem_of_map_to_list). eauto.
  - intros (k & H). exists (k, a). by rewrite elem_of_map_to_list.
Qed.

Lemma check_port_wf port : check_port port = None ↔ port_wf port.
Proof.
  unfold check_port, port_wf. destruct port as [n|]; [|naive_solver].
  destruct (N.eqb_spec n 0), (N.ltb_spec 65535 n); simpl; split; try done; intros Hp.
  all: try (specialize (Hp n eq_refl); lia). intros ? [= <-]. lia.
Qed.

Lemma strings_list l : forallb (λ j, match j with JStr _ => true | _ => false end) l = true ↔ ∃ ss, l = JStr <$> ss.
Proof.
  split.
  - induction l as [|j l IH]; [by exists []|]. simpl. destruct j; simpl; try done. intros [ss ->]%IH. by exists (s :: ss).
  - intros [ss ->]. induction ss; [done|]. rewrite fmap_cons. done.
Qed.

Lemma check_strings_wf raw : check_strings raw = None ↔ strings_wf raw.
Proof.
  unfold check_strings, strings_wf. destruct raw as [j|]; [|naive_solver].
  destruct j as [| | | |l|]; try (split; [done|]; intros H; specialize (H _ eq_refl); naive_solver).
  - split; [|done]. intros _ ? [= <-]. by left.
  - pose proof (strings_list l) as Hl. destruct (forallb _ l).
    + split; [|done]. intros _ ? [= <-]. right. destruct Hl as [[ss ->] _]; [done|]. eauto.
    + split; [done|]. intros H. destruct (H _ eq_refl) as [?|[ss [= ->]]]; [done|].
      destruct Hl as [_ Hl]. by specialize (Hl ltac:(eauto)).
Qed.

Lemma check_credentials_wf raw : check_credentials raw = None ↔ credentials_wf raw.
Proof.
  unfold check_credentials, credentials_wf. destruct raw as [j|]; [|naive_solver].
  assert ((∃ kvs host username password, j = JObj kvs ∧
      dec_struct true cred_fields j (None, None, None) = Some (Some host, Some username, Some password)) ↔
    ∃ host username password, dec_struct true cred_fields j (None, None, None) = Some (Some host, Some username, Some password)) as Hj.
  { split; [naive_solver|]. intros (h & u & w & Hd). destruct j as [| | | | |kvs]; simpl in Hd; try done. eauto 10. }
  assert (j = JNull ∨ j ≠ JNull) as [->|Hn] by (destruct j; first [by left|by right]); [split; [|done]; intros _ ? [= <-]; by left|].
  assert ((match dec_struct true cred_fields j (None, None, None) with
    | Some (Some _, Some _, Some _) => None
    | _ => reject "credentials must contain host, username, and password strings, or be null" end = None) ↔
    ∃ host username password, dec_struct true cred_fields j (None, None, None) = Some (Some host, Some username, Some password)) as Hd.
  { destruct (dec_struct _ _ _ _) as [[[[?|] [?|]] [?|]]|]; split; try done; naive_solver. }
  destruct j; try done; rewrite Hd, <-Hj; split; try (intros H ? [= <-]; by right); intros H;
    (destruct (H _ eq_refl) as [?|?]; [done|done]).
Qed.

Lemma check_next_wf l :
  check_next_cases l = None ↔ l = ["off"] ∨ (l ≠ [] ∧ ∀ c, c ∈ l → c ∈ next_conditions).
Proof.
  destruct l as [|x l]; [naive_solver|]. unfold check_next_cases. rewrite first_of_none.
  assert ("off" ∉ next_conditions) as Hoff by (by apply (bool_decide_unpack _)).
  split.
  - intros H. destruct (decide ("off" ∈ x :: l)) as [Hin|Hin].
    + left. specialize (H "off" Hin). rewrite bool_decide_eq_false_2 in H by done.
      destruct l as [|y l]; [|done]. by apply list_elem_of_singleton in Hin as <-.
    + right. split; [done|]. intros c Hc. specialize (H c Hc). destruct (decide (c ∈ next_conditions)); [done|].
      rewrite bool_decide_eq_false_2 in H by done. rewrite bool_decide_eq_false_2 in H; [done|]. by intros ->.
  - intros [[= -> ->]|[_ H]] c Hc.
    + apply list_elem_of_singleton in Hc as ->. by rewrite bool_decide_eq_false_2.
    + by rewrite bool_decide_eq_true_2 by auto.
Qed.

Lemma check_http_wf o : check_http o = None ↔ http_wf o.
Proof.
  unfold check_http. split.
  - destruct (match ho_MaxBodySize o with Some n => _ | None => _ end) eqn:Eb; [done|].
    destruct (bool_decide _ || bool_decide _) eqn:Et; [done|]. apply orb_false_iff in Et as [E1 E2].
    apply bool_decide_eq_false in E1, E2. intros Hc. split; [|done|done|].
    + intros n Hn. rewrite Hn in Eb. apply orb_false_iff in Eb as [B1 B2].
      apply N.eqb_neq in B1. apply N.ltb_ge in B2. lia.
    + intros l Hl. rewrite Hl in Hc. by apply check_next_wf.
  - intros [Hb Hr Hs Hc].
    assert (match ho_MaxBodySize o with Some n => (n =? 0)%N || (104857600 <? n)%N | None => false end = false) as ->.
    { destruct (ho_MaxBodySize o) as [n|]; [|done]. specialize (Hb n eq_refl).
      apply orb_false_iff. rewrite N.eqb_neq, N.ltb_ge. lia. }
    rewrite !bool_decide_eq_false_2 by done. simpl. destruct (ho_NextCases o) as [l|]; [|done].
    apply check_next_wf. by apply Hc.
Qed.

Lemma check_expose_wf e :
  check_expose e = None ↔ port_wf (ep_Port e) ∧ port_wf (ep_As e) ∧ ∀ o, ep_HTTPOptions e = Some o → http_wf o.
Proof.
  unfold check_expose. rewrite <-!check_port_wf. simpl.
  destruct (check_port (ep_Port e)); [naive_solver|]. destruct (check_port (ep_As e)); [naive_solver|].
  destruct (ep_HTTPOptions e) as [o|]; [rewrite check_http_wf|]; naive_solver.
Qed.

Lemma check_service_wf s : check_service s = None ↔ service_wf s.
Proof.
  unfold check_service. simpl.
  assert (service_wf s ↔ strings_wf (sv_Command s) ∧ strings_wf (sv_Args s) ∧ credentials_wf (sv_Credentials s) ∧
    (∀ k, is_Some (sv_Env s !! k) → validEnvName k = true) ∧ ∀ e, e ∈ values (sv_Expose s) → check_expose e = None) as ->.
  { setoid_rewrite values_elem. setoid_rewrite check_expose_wf. split; [intros []|intros (?&?&?&?&?); split]; naive_solver. }
  rewrite <-!check_strings_wf, <-check_credentials_wf, <-first_of_none.
  destruct (check_strings (sv_Command s)); [naive_solver|]. destruct (check_strings (sv_Args s)); [naive_solver|].
  destruct (check_credentials _); [naive_solver|].
  destruct (existsb _ _) eqn:Ee.
  - split; [done|]. intros (_ & _ & _ & H & _). apply existsb_exists in Ee as ([k v] & Hin & Hv). simpl in Hv.
    apply list_elem_of_In, elem_of_map_to_list in Hin. rewrite H in Hv by eauto. done.
  - split; [|naive_solver]. intros H. split_and!; try done. intros k [v Hk].
    destruct (validEnvName k) eqn:Ev; [done|]. apply not_true_iff_false in Ee. destruct Ee. apply existsb_exists. exists (k, v).
    split; [apply list_elem_of_In; by apply elem_of_map_to_list|]. simpl. by rewrite Ev.
Qed.

Lemma Validate_wf p : Validate p = None ↔ patch_wf p.
Proof.
  unfold Validate. split.
  - destruct (match pt_Name p with Some n => _ | None => _ end) eqn:En; [done|].
    destruct (64 <? _)%nat eqn:Ev; [done|]. rewrite first_of_none. intros H. split.
    + intros n Hn. rewrite Hn in En. apply orb_false_iff in En as [E1 E2]. apply bool_decide_eq_false in E1.
      apply Nat.ltb_ge in E2. done.
    + by apply Nat.ltb_ge in Ev.
    + intros name s Hs. apply check_service_wf, H, values_elem. eauto.
  - intros [Hn Hv Hs].
    assert (match pt_Name p with Some n => bool_decide (TrimSpace n = "") || (256 <? rune_count 0 (bytes_of (TrimSpace n)))%nat
      | None => false end = false) as ->.
    { destruct (pt_Name p) as [n|]; [|done]. destruct (Hn n eq_refl) as [H1 H2]. rewrite bool_decide_eq_false_2 by done.
      simpl. by apply Nat.ltb_ge. }
    rewrite (proj2 (Nat.ltb_ge _ _) Hv). apply first_of_none. intros s [name Hname]%values_elem.
    apply check_service_wf. eauto.
Qed.

(** ** No panic *)
Lemma bind_no_panic {A B} (f : A → result B) (r : result A) :
  r ≠ Panic → (∀ a, r = Ok a → f a ≠ Panic) → (r ≫= f) ≠ Panic.
Proof. destruct r; simpl; eauto. Qed.

Lemma find_endpoint_no_panic port l : ∀ i index, find_endpoint port i index l ≠ Panic.
Proof. induction l as [|e l IH]; intros i [k|]; simpl; try case_bool_decide; done || apply IH. Qed.

Lemma apply_field_no_panic s f : (f.1 = "credentials" → credentials_wf f.2) → apply_field s f ≠ Panic.
Proof.
  destruct f as [name [raw|]]; simpl; [|done]. intros Hc. destruct (decide (name = "credentials")) as [->|Hn].
  - destruct (Hc eq_refl raw eq_refl) as [->|(kvs & h & u & w & -> & _)]; done.
  - rewrite bool_decide_eq_false_2 by done. by destruct (any_of raw).
Qed.

Lemma expose_step_no_panic before st kv : length st.1 = length before → expose_step before st kv ≠ Panic.
Proof.
  destruct st as [after changed], kv as [port c]. simpl. intros Hl. apply bind_no_panic; [apply find_endpoint_no_panic|].
  intros i (k & e & -> & Hb & _)%find_endpoint_none. simpl. rewrite Hb.
  destruct (lookup_lt_is_Some_2 after k) as [a ->]; [rewrite Hl; by eapply lookup_lt_Some|].
  repeat (destruct (_ : bool); try done).
Qed.

Lemma expose_step_length before st kv st' :
  expose_step before st kv = Ok st' → length st'.1 = length st.1.
Proof.
  destruct st as [after changed], kv as [port c]. simpl. intros Hr. apply bind_ok in Hr as (i & _ & Hr).
  destruct (before !! i), (after !! i); try done. destruct (negb _); [done|]. destruct (_ && _); [done|].
  simplify_eq. simpl. apply length_insert.
Qed.

Lemma applyExpose_no_panic s p : applyExpose s p ≠ Panic.
Proof.
  unfold applyExpose. destruct (bool_decide _); [done|]. destruct (mapM _ _) as [before|]; [|done].
  apply bind_no_panic; [|done]. unfold apply_entries. apply bind_no_panic.
  - apply (foldR_no_panic _ (λ st, length st.1 = length before)); [|intros s0 x s' _ H Hs|done].
    + intros. by apply expose_step_no_panic.
    + by rewrite (expose_step_length _ _ _ _ Hs).
  - intros [after changed] _. by destruct (collisions _ _ _).
Qed.

Lemma applyStorage_no_panic s p : applyStorage s p ≠ Panic.
Proof.
  unfold applyStorage. apply bind_no_panic; [|done]. apply (foldR_no_panic _ (λ _, True)); [|done|done].
  intros st kv _ _. unfold storage_step. by destruct (st !! kv.1) as [[]|].
Qed.

Lemma apply_service_no_panic c s : service_wf c → apply_service c s ≠ Panic.
Proof.
  intros Hc. unfold apply_service. apply bind_no_panic.
  - apply (foldR_no_panic _ (λ _, True)); [|done|done]. intros s0 f Hf _. apply apply_field_no_panic. intros Hn.
    unfold clearable in Hf. rewrite !elem_of_cons in Hf. destruct Hf as [->|[->|[->|Hf]]]; try done; [|set_solver].
    apply (sw_credentials _ Hc).
  - intros s1 _. apply bind_no_panic; [apply applyExpose_no_panic|]. intros s2 _. apply applyStorage_no_panic.
Qed.

Lemma apply_document_no_panic d p : patch_wf p → apply_document d p ≠ Panic.
Proof.
  intros Hp. unfold apply_document. destruct (d !! "services") as [[| | | | |ss]|]; try done.
  apply bind_no_panic; [|done]. apply (foldR_no_panic _ (λ _, True)); [|done|done].
  intros st [name c] Hin _. apply elem_of_map_to_list in Hin. unfold services_step. simpl.
  destruct (st !! name) as [[| | | | |s]|]; try done. apply bind_no_panic; [|done].
  apply apply_service_no_panic. by eapply pw_services.
Qed.

(** * Deployment configurations: the properties

    What a patch is, what [Apply] changes, what [Diff] lets through, and how large a
    parsed document can be. The witnesses use a table of three documents for
    yaml.v3. *)

(** ** A small yaml.v3 for the witnesses *)
Fixpoint tree_of (v : any) : ynode :=
  match v with
  | ANull => YScalar 0 "!!null" "null" (Some SNull)
  | ABool b => YScalar 0 "!!bool" (if b then "true" else "false") (Some (SBool b))
  | ANum t => YScalar 0 "!!int" t (Some (SNum t))
  | AStr s => YScalar 0 "!!str" s (Some (SStr s))
  | AArr l => YSeq 0 (List.map tree_of l)
  | AObj m => YMap 0 ((λ kv, (YScalar 0 "!!str" kv.1 (Some (SStr kv.1)), kv.2)) <$> map_to_list (tree_of <$> m))
  end.

Definition web (image : string) (env : list string) (accept : list string) (mount : string) : any :=
  AObj {["image" := AStr image; "env" := AArr (AStr <$> env);
         "expose" := AArr [AObj {["port" := ANum "80"; "accept" := AArr (AStr <$> accept);
                                  "to" := AArr [AObj {["global" := ABool true]}]]}];
         "params" := AObj {["storage" := AObj {["data" := AObj {["mount" := AStr mount]}]}]}]}.
Definition sdl_of (service : any) : gmap string any :=
  {["version" := AStr "2.0"; "services" := AObj {["web" := service]}]}.

Definition doc1 : gmap string any := sdl_of (web "nginx:1" ["A=1"; "B=2"] ["a.example"] "/data").
Definition doc2 : gmap string any := sdl_of (web "nginx:2" ["A=3"; "C=4"] ["b.example"] "/srv").
Definition patch_text : gmap string any :=
  {["services" := AObj {["web" := AObj {["image" := AStr "nginx:2"; "expose" := AObj {["80" := AObj {["port" := ANum "8080"]}]}]}]}]}.

Definition table_lookup (name : string) : option (gmap string any) :=
  if bool_decide (name = "one") then Some doc1
  else if bool_decide (name = "two") then Some doc2
  else if bool_decide (name = "patch") then Some patch_text else None.

#[local] Instance table_yaml : Yaml := {
  yaml_Decode := λ s, (λ d, (tree_of (AObj d), false)) <$> table_lookup s;
  yaml_Marshal := λ v, if bool_decide (v = AObj doc1) then "one" else if bool_decide (v = AObj doc2) then "two" else "?";
}.
#[local] Instance table_sort : SortMixed := id.

Lemma table_one : parseObject "one" = Ok doc1.
Proof. vm_compute. reflexivity. Qed.
Lemma table_two : parseObject "two" = Ok doc2.
Proof. vm_compute. reflexivity. Qed.

#[local] Instance table_laws : YamlLaws.
Proof.
  intros d d'. simpl.
  destruct (decide (AObj d = AObj doc1)) as [[= ->]|H1]; [rewrite bool_decide_eq_true_2 by done; rewrite table_one; by intros [= <-]|].
  rewrite bool_decide_eq_false_2 by done.
  destruct (decide (AObj d = AObj doc2)) as [[= ->]|H2]; [rewrite bool_decide_eq_true_2 by done; rewrite table_two; by intros [= <-]|].
  rewrite bool_decide_eq_false_2 by done. done.
Qed.

Definition one_to_two : Patch := MkPatch {["web" := MkServicePatch (Some "nginx:2") None None
  {["A" := Some "3"; "B" := None; "C" := Some "4"]} None
  {["80" := MkExposePatch None None (Some ["b.example"]) None]}
  {["data" := MkStoragePatch (Some "/srv") None]}]} None "".

(** ** Patches *)

(** every patch ParsePatch returns is well formed: ports between 1 and 65535,
    commands and arguments lists of strings or null, complete credentials or null,
    environment names that contain no equals sign, positive timeouts and known retry
    conditions; whatever the bytes it was given. *)
Theorem ParsePatch_wf `{Yaml} (data : string) p : ParsePatch data = Ok p → patch_wf p.
Proof.
  unfold ParsePatch. intros Hr. apply bind_ok in Hr as (d & _ & Hr). destruct (validatePatchShape d); [done|].
  destruct (dec_patch _ _) as [q|]; [|done]. destruct (Validate q) eqn:E; [done|]. simplify_eq. by apply Validate_wf.
Qed.
Lemma ParsePatch_wf_witness : ∃ p, ParsePatch "patch" = Ok p ∧ patch_wf p.
Proof.
  destruct (ParsePatch "patch") as [p| |] eqn:E; [|vm_compute in E; discriminate..].
  exists p. split; [reflexivity|]. exact (ParsePatch_wf "patch" p E).
Defined.

(** a document that parses has at most 100000 nodes and at most 65 levels, with
    its aliases and merge keys expanded. *)
Theorem parseObject_bounded `{Yaml} (data : string) d :
  parseObject data = Ok d → (asize (AObj d) ≤ 100000)%N ∧ adepth (AObj d) ≤ 65.
Proof.
  unfold parseObject. destruct (_ <? _)%N; [done|]. destruct (yaml_Decode data) as [[root []]|]; try done.
  intros Hr. apply bind_ok in Hr as ([v c] & Hv & Hr). destruct v; try done. simplify_eq.
  apply nodeValue_fits in Hv as (_ & H1 & H2 & H3). split; [lia|done].
Qed.
Lemma parseObject_bounded_witness : (asize (AObj doc1) ≤ 100000)%N ∧ adepth (AObj doc1) ≤ 65.
Proof. apply (parseObject_bounded "one" doc1). vm_compute. reflexivity. Defined.

(** ** Apply *)


(** Apply returns, on every document that parses and for every patch, valid or
    not: neither a type assertion nor an index fails. *)
Theorem Apply_no_panic `{Yaml} sdl d p : parseObject sdl = Ok d → Apply sdl p ≠ Panic.
Proof.
  intros Hd. unfold Apply. destruct (Validate p) eqn:Hv; [done|]. apply Validate_wf in Hv. rewrite Hd. simpl.
  destruct (shared_services sdl p); [done|]. apply bind_no_panic; [by apply apply_document_no_panic|].
  intros d' _. by destruct (_ <? _)%N.
Qed.
Lemma Apply_no_panic_witness : Apply "one" one_to_two ≠ Panic.
Proof. apply (Apply_no_panic "one" doc1). vm_compute. reflexivity. Defined.

(** editing endpoints creates no collision: container ports that differ still
    differ, external ports that differ still differ, and each endpoint's edit is the
    one its port names. *)
Theorem applyExpose_distinct before patch after :
  apply_entries before patch = Ok after →
  after = edit_entry patch <$> before ∧
  (distinct_by same_port before → distinct_by same_port after) ∧
  (distinct_by same_external before → distinct_by same_external after).
Proof.
  intros (st & Hinv & -> & Hcol)%apply_entries_spec. split_and!; [done| |]; intros Hd; apply distinct_edit.
  - apply edit_same_port.
  - by eapply ports_stay_distinct.
  - intros b b'. unfold same_external. by rewrite !edit_external.
  - by eapply external_stay_distinct.
Qed.
Definition two_ports : list (gmap string any) := [{["port" := ANum "80"]}; {["port" := ANum "90"; "as" := ANum "443"]}].
Definition swap_ports : gmap string ExposePatch :=
  {["80" := MkExposePatch (Some 90%N) None None None; "90" := MkExposePatch (Some 80%N) None None None]}.
Definition swapped_ports : list (gmap string any) := [{["port" := ANum "90"]}; {["port" := ANum "80"; "as" := ANum "443"]}].
Lemma applyExpose_distinct_witness : apply_entries two_ports swap_ports = Ok swapped_ports ∧ swapped_ports = edit_entry swap_ports <$> two_ports.
Proof.
  assert (apply_entries two_ports swap_ports = Ok swapped_ports) as E by (vm_compute; reflexivity).
  split; [exact E|]. exact (proj1 (applyExpose_distinct _ _ _ E)).
Defined.

(** ** Environment *)

(** applying the difference of two environments gives the requested one: what is
    read from the patched service is what is read from the request, variables removed,
    changed and added alike. *)
Theorem diffEnv_applyEnv service requested old desired p :
  envValues (get "env" service) = Ok old → envValues requested = Ok desired →
  diffEnv (get "env" service) requested = Ok (raw_env p) → (∀ k, is_Some (p !! k) → validEnvName k = true) →
  envValues (get "env" (applyEnv service p)) = Ok desired.
Proof.
  intros Ho Hd Hr Hk. rewrite <-(diffEnv_patched _ _ _ _ _ Ho Hd Hr). apply applyEnv_reads; [|done].
  intros k Hs. by apply valid_no_equals, Hk.
Qed.
Definition env_service : gmap string any := {["env" := AArr (AStr <$> ["A=1"; "B=2"; "D"])]}.
Lemma diffEnv_applyEnv_witness :
  envValues (get "env" (applyEnv env_service {["A" := Some "3"; "B" := None; "C" := Some "4"]}))
  = Ok {["A" := AStr "3"; "C" := AStr "4"; "D" := ANull]}.
Proof.
  apply (diffEnv_applyEnv env_service (AArr (AStr <$> ["D"; "C=4"; "A=3"]))
    {["A" := AStr "1"; "B" := AStr "2"; "D" := ANull]} {["A" := AStr "3"; "C" := AStr "4"; "D" := ANull]});
    [vm_compute; reflexivity..|].
  intros k [v Hv]. rewrite !lookup_insert_Some, lookup_singleton_Some in Hv.
  destruct Hv as [[<- _]|[_ [[<- _]|[_ [<- _]]]]]; reflexivity.
Defined.

(** ** Diff *)

(** C14: a requested document that Diff turns into a patch differs from the current
    one only in what a patch can say: every member outside [services] is the same, no
    service is added or removed, a service's other fields, its endpoints' number,
    targets, protocols and kinds, and its volumes with their other attributes are the
    same. Nothing else is dropped silently. *)
Theorem Diff_same `{YamlLaws, SortMixed} cur req p :
  Diff cur req = Ok p → ∃ d r, parseObject cur = Ok d ∧ parseObject req = Ok r ∧ patch_wf p ∧ document_same d r.
Proof.
  intros (d & r & out & a & Hd & Hr & Hv & Ha & Hp & Hn)%Diff_ok. exists d, r. split_and!; [done|done|by apply Validate_wf|].
  apply Apply_ok in Ha as (d0 & d' & _ & Hd0 & _ & He & -> & _). rewrite Hd in Hd0. injection Hd0 as <-.
  eapply document_same_edit; [exact (apply_document_edit _ _ _ He)|by apply marshal_parse|done].
Qed.
Lemma Diff_same_witness : ∃ d r, parseObject "one" = Ok d ∧ parseObject "two" = Ok r ∧ patch_wf one_to_two ∧ document_same d r.
Proof. apply (Diff_same "one" "two" one_to_two). vm_compute. reflexivity. Defined.

(** ** A shared endpoint that is not refused *)

(** A service whose endpoint another service aliases; the port is written [p]. *)
Definition shared_tree (p : string) : ynode :=
  let str i s := YScalar i "!!str" s (Some (SStr s)) in
  YMap 1 [(str 2%N "services",
    YMap 3 [(str 4%N "web", YMap 5 [(str 6%N "expose", YSeq 7 [YMap 8 [(str 9%N "port", YScalar 10 "!!int" p (Some (SNum "80")))]])]);
            (str 11%N "api", YMap 12 [(str 13%N "expose", YSeq 14 [YAlias 15 "e" 8])])])].
Definition accept_patch : Patch := MkPatch {["web" := MkServicePatch None None None ∅ None
  {["80" := MkExposePatch None None (Some ["a.example"]) None]} ∅]} None "".

Definition shared_doc (web : gmap string any) : gmap string any :=
  {["services" := AObj {["web" := AObj {["expose" := AArr [AObj web]]};
                         "api" := AObj {["expose" := AArr [AObj {["port" := ANum "80"]}]]}]}]}.

(** The endpoint of [web] is refused when its port is written [80], and edited when
    the same port is written [0x50]: the shared endpoint is looked up by the text of
    its port, not by its value. *)
Theorem shared_endpoint_hex :
  rejectSharedServices (shared_tree "80") accept_patch ≠ None ∧
  rejectSharedServices (shared_tree "0x50") accept_patch = None ∧
  nodeValue (shared_tree "0x50") 65 (shared_tree "0x50") 0 = nodeValue (shared_tree "80") 65 (shared_tree "80") 0 ∧
  fst <$> nodeValue (shared_tree "0x50") 65 (shared_tree "0x50") 0 = Ok (AObj (shared_doc {["port" := ANum "80"]})) ∧
  apply_document (shared_doc {["port" := ANum "80"]}) accept_patch =
    Ok (shared_doc {["port" := ANum "80"; "accept" := AArr [AStr "a.example"]]}).
Proof. split_and!; vm_compute; try discriminate; reflexivity. Qed.
