(* ===== verification/ActionLog.v ===== *)
(** * The action log (internal/actionlog/log.go, internal/workflow/actionlog.go)

    A JSONL file with five rotated predecessors. A file is its terminated lines,
    oldest first, and what follows the last newline; a line is a JSON document,
    identified with its tree, or bytes that are none. The path is fixed: file 0 is
    [path], file [i] is [path.i]. The outcomes of system calls are given per call.
    The mutex serializes the operations; another process on the same files is not
    modelled. An unterminated tail is what a failed write left: followed by a record,
    it is not a JSON document. *)

From Stdlib Require Import Ascii.
From stdpp Require Import sorting base gmap strings pretty option numbers list.
From S2P Require Import Prelude GoStd GoJson StoreOps Workflow.

Definition maxLogSize : N := 10485760.
Definition maxLogRecordSize : N := maxLogSize.
Definition maxRotatedFiles : nat := 5.

Definition TypeTx : string := "tx".
Definition TypeWorkflow : string := "workflow".

(** A [time.Time] is an instant in nanoseconds, zero the zero time. The text JSON
    gives it is a parameter: [None] for a year outside 0 to 9999. *)
Class TimeText : Type := {
  time_MarshalJSON : Z → option string;
  time_Parse : string → option Z;
}.

Record Entry : Type := MkEntry {
  e_Timestamp : Z;
  e_Type : string;
  e_Action : string;
  e_TxHash : string;
  e_Height : Z;
  e_GasUsed : Z;
  e_ResultCode : N;
  e_DSeq : N;
  e_GSeq : N;
  e_OSeq : N;
  e_Provider : string;
  e_Account : string;
  e_Params : option json;
  e_DurationMs : Z;
  e_WorkflowID : string;
  e_Step : Z;
  e_StepName : string;
  e_Error : string;
  e_Status : string;
}.
Definition set_e_Timestamp (v : Z) (r : Entry) : Entry := MkEntry v (e_Type r) (e_Action r) (e_TxHash r) (e_Height r) (e_GasUsed r) (e_ResultCode r) (e_DSeq r) (e_GSeq r) (e_OSeq r) (e_Provider r) (e_Account r) (e_Params r) (e_DurationMs r) (e_WorkflowID r) (e_Step r) (e_StepName r) (e_Error r) (e_Status r).
Definition set_e_Type (v : string) (r : Entry) : Entry := MkEntry (e_Timestamp r) v (e_Action r) (e_TxHash r) (e_Height r) (e_GasUsed r) (e_ResultCode r) (e_DSeq r) (e_GSeq r) (e_OSeq r) (e_Provider r) (e_Account r) (e_Params r) (e_DurationMs r) (e_WorkflowID r) (e_Step r) (e_StepName r) (e_Error r) (e_Status r).
Definition set_e_Action (v : string) (r : Entry) : Entry := MkEntry (e_Timestamp r) (e_Type r) v (e_TxHash r) (e_Height r) (e_GasUsed r) (e_ResultCode r) (e_DSeq r) (e_GSeq r) (e_OSeq r) (e_Provider r) (e_Account r) (e_Params r) (e_DurationMs r) (e_WorkflowID r) (e_Step r) (e_StepName r) (e_Error r) (e_Status r).
Definition set_e_TxHash (v : string) (r : Entry) : Entry := MkEntry (e_Timestamp r) (e_Type r) (e_Action r) v (e_Height r) (e_GasUsed r) (e_ResultCode r) (e_DSeq r) (e_GSeq r) (e_OSeq r) (e_Provider r) (e_Account r) (e_Params r) (e_DurationMs r) (e_WorkflowID r) (e_Step r) (e_StepName r) (e_Error r) (e_Status r).
Definition set_e_Height (v : Z) (r : Entry) : Entry := MkEntry (e_Timestamp r) (e_Type r) (e_Action r) (e_TxHash r) v (e_GasUsed r) (e_ResultCode r) (e_DSeq r) (e_GSeq r) (e_OSeq r) (e_Provider r) (e_Account r) (e_Params r) (e_DurationMs r) (e_WorkflowID r) (e_Step r) (e_StepName r) (e_Error r) (e_Status r).
Definition set_e_GasUsed (v : Z) (r : Entry) : Entry := MkEntry (e_Timestamp r) (e_Type r) (e_Action r) (e_TxHash r) (e_Height r) v (e_ResultCode r) (e_DSeq r) (e_GSeq r) (e_OSeq r) (e_Provider r) (e_Account r) (e_Params r) (e_DurationMs r) (e_WorkflowID r) (e_Step r) (e_StepName r) (e_Error r) (e_Status r).
Definition set_e_ResultCode (v : N) (r : Entry) : Entry := MkEntry (e_Timestamp r) (e_Type r) (e_Action r) (e_TxHash r) (e_Height r) (e_GasUsed r) v (e_DSeq r) (e_GSeq r) (e_OSeq r) (e_Provider r) (e_Account r) (e_Params r) (e_DurationMs r) (e_WorkflowID r) (e_Step r) (e_StepName r) (e_Error r) (e_Status r).
Definition set_e_DSeq (v : N) (r : Entry) : Entry := MkEntry (e_Timestamp r) (e_Type r) (e_Action r) (e_TxHash r) (e_Height r) (e_GasUsed r) (e_ResultCode r) v (e_GSeq r) (e_OSeq r) (e_Provider r) (e_Account r) (e_Params r) (e_DurationMs r) (e_WorkflowID r) (e_Step r) (e_StepName r) (e_Error r) (e_Status r).
Definition set_e_GSeq (v : N) (r : Entry) : Entry := MkEntry (e_Timestamp r) (e_Type r) (e_Action r) (e_TxHash r) (e_Height r) (e_GasUsed r) (e_ResultCode r) (e_DSeq r) v (e_OSeq r) (e_Provider r) (e_Account r) (e_Params r) (e_DurationMs r) (e_WorkflowID r) (e_Step r) (e_StepName r) (e_Error r) (e_Status r).
Definition set_e_OSeq (v : N) (r : Entry) : Entry := MkEntry (e_Timestamp r) (e_Type r) (e_Action r) (e_TxHash r) (e_Height r) (e_GasUsed r) (e_ResultCode r) (e_DSeq r) (e_GSeq r) v (e_Provider r) (e_Account r) (e_Params r) (e_DurationMs r) (e_WorkflowID r) (e_Step r) (e_StepName r) (e_Error r) (e_Status r).
Definition set_e_Provider (v : string) (r : Entry) : Entry := MkEntry (e_Timestamp r) (e_Type r) (e_Action r) (e_TxHash r) (e_Height r) (e_GasUsed r) (e_ResultCode r) (e_DSeq r) (e_GSeq r) (e_OSeq r) v (e_Account r) (e_Params r) (e_DurationMs r) (e_WorkflowID r) (e_Step r) (e_StepName r) (e_Error r) (e_Status r).
Definition set_e_Account (v : string) (r : Entry) : Entry := MkEntry (e_Timestamp r) (e_Type r) (e_Action r) (e_TxHash r) (e_Height r) (e_GasUsed r) (e_ResultCode r) (e_DSeq r) (e_GSeq r) (e_OSeq r) (e_Provider r) v (e_Params r) (e_DurationMs r) (e_WorkflowID r) (e_Step r) (e_StepName r) (e_Error r) (e_Status r).
Definition set_e_Params (v : option json) (r : Entry) : Entry := MkEntry (e_Timestamp r) (e_Type r) (e_Action r) (e_TxHash r) (e_Height r) (e_GasUsed r) (e_ResultCode r) (e_DSeq r) (e_GSeq r) (e_OSeq r) (e_Provider r) (e_Account r) v (e_DurationMs r) (e_WorkflowID r) (e_Step r) (e_StepName r) (e_Error r) (e_Status r).
Definition set_e_DurationMs (v : Z) (r : Entry) : Entry := MkEntry (e_Timestamp r) (e_Type r) (e_Action r) (e_TxHash r) (e_Height r) (e_GasUsed r) (e_ResultCode r) (e_DSeq r) (e_GSeq r) (e_OSeq r) (e_Provider r) (e_Account r) (e_Params r) v (e_WorkflowID r) (e_Step r) (e_StepName r) (e_Error r) (e_Status r).
Definition set_e_WorkflowID (v : string) (r : Entry) : Entry := MkEntry (e_Timestamp r) (e_Type r) (e_Action r) (e_TxHash r) (e_Height r) (e_GasUsed r) (e_ResultCode r) (e_DSeq r) (e_GSeq r) (e_OSeq r) (e_Provider r) (e_Account r) (e_Params r) (e_DurationMs r) v (e_Step r) (e_StepName r) (e_Error r) (e_Status r).
Definition set_e_Step (v : Z) (r : Entry) : Entry := MkEntry (e_Timestamp r) (e_Type r) (e_Action r) (e_TxHash r) (e_Height r) (e_GasUsed r) (e_ResultCode r) (e_DSeq r) (e_GSeq r) (e_OSeq r) (e_Provider r) (e_Account r) (e_Params r) (e_DurationMs r) (e_WorkflowID r) v (e_StepName r) (e_Error r) (e_Status r).
Definition set_e_StepName (v : string) (r : Entry) : Entry := MkEntry (e_Timestamp r) (e_Type r) (e_Action r) (e_TxHash r) (e_Height r) (e_GasUsed r) (e_ResultCode r) (e_DSeq r) (e_GSeq r) (e_OSeq r) (e_Provider r) (e_Account r) (e_Params r) (e_DurationMs r) (e_WorkflowID r) (e_Step r) v (e_Error r) (e_Status r).
Definition set_e_Error (v : string) (r : Entry) : Entry := MkEntry (e_Timestamp r) (e_Type r) (e_Action r) (e_TxHash r) (e_Height r) (e_GasUsed r) (e_ResultCode r) (e_DSeq r) (e_GSeq r) (e_OSeq r) (e_Provider r) (e_Account r) (e_Params r) (e_DurationMs r) (e_WorkflowID r) (e_Step r) (e_StepName r) v (e_Status r).
Definition set_e_Status (v : string) (r : Entry) : Entry := MkEntry (e_Timestamp r) (e_Type r) (e_Action r) (e_TxHash r) (e_Height r) (e_GasUsed r) (e_ResultCode r) (e_DSeq r) (e_GSeq r) (e_OSeq r) (e_Provider r) (e_Account r) (e_Params r) (e_DurationMs r) (e_WorkflowID r) (e_Step r) (e_StepName r) (e_Error r) v.

Definition zero_entry : Entry := MkEntry 0 "" "" "" 0 0 0 0 0 0 "" "" None 0 "" 0 "" "" "".

(** ** JSON *)
Section codec.
Context `{TimeText}.

Definition dec_time : decoder Z := λ j t, match j with JNull => Some t | JStr s => time_Parse s | _ => None end.
(** [json.RawMessage] keeps every value. *)
Definition dec_params : decoder (option json) := λ j _, Some (Some j).

Definition entry_fields : fields Entry := [
  ("ts", field e_Timestamp set_e_Timestamp dec_time);
  ("type", field e_Type set_e_Type dec_string);
  ("action", field e_Action set_e_Action dec_string);
  ("tx_hash", field e_TxHash set_e_TxHash dec_string);
  ("height", field e_Height set_e_Height dec_int64);
  ("gas_used", field e_GasUsed set_e_GasUsed dec_int64);
  ("code", field e_ResultCode set_e_ResultCode (dec_uint u32_max));
  ("dseq", field e_DSeq set_e_DSeq (dec_uint u64_max));
  ("gseq", field e_GSeq set_e_GSeq (dec_uint u32_max));
  ("oseq", field e_OSeq set_e_OSeq (dec_uint u32_max));
  ("provider", field e_Provider set_e_Provider dec_string);
  ("account", field e_Account set_e_Account dec_string);
  ("params", field e_Params set_e_Params dec_params);
  ("duration_ms", field e_DurationMs set_e_DurationMs dec_int64);
  ("workflow_id", field e_WorkflowID set_e_WorkflowID dec_string);
  ("step", field e_Step set_e_Step dec_int64);
  ("step_name", field e_StepName set_e_StepName dec_string);
  ("error", field e_Error set_e_Error dec_string);
  ("status", field e_Status set_e_Status dec_string)
].
Definition dec_entry : decoder Entry := dec_struct false entry_fields.
End codec.

(** [omitempty]. *)
Definition omit {A} (empty : bool) (name : string) (value : A) : list (string * A) := if empty then [] else [(name, value)].
Definition omit_str (name s : string) : list (string * json) := omit (bool_decide (s = "")) name (enc_string s).
Definition omit_int (name : string) (z : Z) : list (string * json) := omit (z =? 0)%Z name (enc_int z).
Definition omit_uint (name : string) (n : N) : list (string * json) := omit (n =? 0)%N name (enc_uint n).

Definition enc_entry (ts : string) (e : Entry) : json := JObj (
  [("ts", JStr ts)]
  ++ [("type", enc_string (e_Type e))]
  ++ [("action", enc_string (e_Action e))]
  ++ omit_str "tx_hash" (e_TxHash e)
  ++ omit_int "height" (e_Height e)
  ++ omit_int "gas_used" (e_GasUsed e)
  ++ omit_uint "code" (e_ResultCode e)
  ++ omit_uint "dseq" (e_DSeq e)
  ++ omit_uint "gseq" (e_GSeq e)
  ++ omit_uint "oseq" (e_OSeq e)
  ++ omit_str "provider" (e_Provider e)
  ++ omit_str "account" (e_Account e)
  ++ match e_Params e with Some j => [("params", j)] | None => [] end
  ++ omit_int "duration_ms" (e_DurationMs e)
  ++ omit_str "workflow_id" (e_WorkflowID e)
  ++ [("step", enc_int (e_Step e))]
  ++ omit_str "step_name" (e_StepName e)
  ++ omit_str "error" (e_Error e)
  ++ omit_str "status" (e_Status e)).

Record Filter : Type := MkFilter {
  fl_Type : string; fl_Since : Z; fl_Limit : Z; fl_DSeq : N; fl_Account : string; fl_WorkflowID : string;
}.
Definition no_filter : Filter := MkFilter "" 0 0 0 "" "".

Definition matchesFilter (e : Entry) (f : Filter) : bool :=
  (bool_decide (fl_Type f = "") || bool_decide (e_Type e = fl_Type f))
  && ((fl_Since f =? 0)%Z || negb (e_Timestamp e <? fl_Since f)%Z)
  && ((fl_DSeq f =? 0)%N || (e_DSeq e =? fl_DSeq f)%N)
  && (bool_decide (fl_Account f = "") || bool_decide (e_Account e = fl_Account f))
  && (bool_decide (fl_WorkflowID f = "") || bool_decide (e_WorkflowID e = fl_WorkflowID f)).

(** ** Files *)
Record file : Type := MkFile { f_lines : list bytes; f_tail : bytes }.
Definition empty_file : file := MkFile [] (Raw "").
Definition line_size (b : bytes) : N := (byte_len (raw_bytes b) + 1)%N.
Definition file_size (f : file) : N := foldr (λ b n, line_size b + n)%N (byte_len (raw_bytes (f_tail f))) (f_lines f).

(** Appending a record and its newline. *)
Definition append_record (j : json) (f : file) : file :=
  MkFile (f_lines f ++ [if bytes_empty (f_tail f) then Text j else Raw (raw_bytes (f_tail f) +:+ json_text None j)]) (Raw "").
(** A write that stops after [n] bytes, before the newline is out. *)
Definition append_part (n : nat) (j : json) (f : file) : file :=
  let text := json_text None j in
  match n with
  | O => f
  | _ => MkFile (f_lines f)
           (if bytes_empty (f_tail f) && (length (bytes_of text) <=? n)%nat then Text j
            else Raw (raw_bytes (f_tail f) +:+ of_bytes (take n (bytes_of text))))
  end.

(** The logger: its files and whether its handle is open. *)
Record Logger : Type := MkLogger { l_files : gmap nat file; l_open : bool }.

(** What the system calls of one operation do. *)
Record outcome : Type := MkOutcome {
  o_now : Z; o_mkdir : bool; o_stat : bool; o_close : bool; o_rename : nat → bool; o_open : bool;
  o_write : option nat; (* the bytes written before the write fails *)
  o_sync : bool; o_read : nat → bool;
}.
Definition smooth (now : Z) : outcome := MkOutcome now true true true (λ _, true) true None true (λ _, true).
Definition sys_err : error := Sentinel "system call".

(** [os.OpenFile] with [O_APPEND|O_CREATE|O_WRONLY]. *)
Definition create_file (files : gmap nat file) : gmap nat file :=
  match files !! 0 with Some _ => files | None => <[0 := empty_file]> files end.

Definition Open (o : outcome) (files : gmap nat file) : result Logger :=
  if negb (o_mkdir o) then Err (Wrapf "create action log directory: %w" [] sys_err)
  else if negb (o_open o) then Err (Wrapf "open action log %s: %w" [] sys_err)
  else Ok (MkLogger (create_file files) true).

(** [os.Rename(path.i, path.(i+1))]; its error is ignored. *)
Definition rename (o : outcome) (files : gmap nat file) (i : nat) : gmap nat file :=
  match files !! i with
  | Some f => if o_rename o i then <[S i := f]> (delete i files) else files
  | None => files
  end.
Definition shift_files (o : outcome) (files : gmap nat file) : gmap nat file :=
  foldl (rename o) files (reverse (seq 0 maxRotatedFiles)).

Definition current_size (l : Logger) : N := default 0%N (file_size <$> l_files l !! 0).

(** [maybeRotate]: the state it leaves, and its error. A handle that was closed
    fails to stat. *)
Definition maybeRotate (o : outcome) (l : Logger) : Logger * option error :=
  if negb (l_open l && o_stat o) then (l, None)
  else if (current_size l <? maxLogSize)%N then (l, None)
  else if negb (o_close o) then (MkLogger (l_files l) false, Some (Wrapf "close action log for rotation: %w" [] sys_err))
  else
    let files := shift_files o (l_files l) in
    if o_open o then (MkLogger (create_file files) true, None)
    else (MkLogger files false, Some (Wrapf "open new action log after rotation: %w" [] sys_err)).

Definition write_record (o : outcome) (j : json) (l : Logger) : Logger * option error :=
  if negb (l_open l) then (l, Some (Wrapf "write action log: %w" [] (Sentinel "file already closed")))
  else match o_write o with
       | None => (MkLogger (alter (append_record j) 0 (l_files l)) true, None)
       | Some n => (MkLogger (alter (append_part n j) 0 (l_files l)) true, Some (Wrapf "write action log: %w" [] sys_err))
       end.

Section logger.
Context `{TimeText}.

Definition stamp (o : outcome) (e : Entry) : Entry := if (e_Timestamp e =? 0)%Z then set_e_Timestamp (o_now o) e else e.

Definition Log (o : outcome) (l : Logger) (e : Entry) : Logger * option error :=
  let e := stamp o e in
  match time_MarshalJSON (e_Timestamp e) with
  | None => (l, Some (Wrapf "marshal action log entry: %w" [] ErrJSON))
  | Some ts =>
      let j := enc_entry ts e in
      let size := line_size (Text j) in
      if (maxLogRecordSize <? size)%N
      then (l, Some (Errorf "action log entry is %d bytes; maximum serialized record size is %d bytes"
                       [FormatUint size; FormatUint maxLogRecordSize]))
      else match maybeRotate o l with
           | (l, Some err) => (l, Some err)
           | (l, None) => write_record o j l
           end
  end.

(** ** Reading *)

(** The lines [bufio.Scanner] yields: the terminated ones, then a tail. *)
Definition tokens (f : file) : list bytes := f_lines f ++ (if bytes_empty (f_tail f) then [] else [f_tail f]).
(** A line fits the scanner's buffer with its newline, a tail must leave room. *)
Definition scannable (f : file) : bool :=
  forallb (λ b, (line_size b <=? maxLogRecordSize)%N) (f_lines f) && (byte_len (raw_bytes (f_tail f)) <? maxLogRecordSize)%N.

Definition decode_line (b : bytes) : option Entry :=
  match Unmarshal dec_entry b zero_entry with Ok e => Some e | _ => None end.

Definition readLogFile (f : file) (filter_ : Filter) : result (list Entry) :=
  if scannable f then Ok (filter (λ e, matchesFilter e filter_) (omap decode_line (tokens f)))
  else Err (Wrapf "read action log record: %w" [] (Sentinel "bufio.Scanner: token too long")).

(** A file that is not there holds nothing. *)
Definition read_one (o : outcome) (l : Logger) (filter_ : Filter) (i : nat) : result (list Entry) :=
  match l_files l !! i with
  | None => Ok []
  | Some f => if o_read o i then readLogFile f filter_ else Err sys_err
  end.
Definition wrap_read (i : nat) (r : result (list Entry)) : result (list Entry) :=
  match i with O => r | _ => map_err (Wrapf "read rotated action log %s: %w" []) r end.

Definition collapse_step (st : list Entry * gmap string nat) (e : Entry) : list Entry * gmap string nat :=
  let '(collapsed, indices) := st in
  if bool_decide (e_Type e = TypeTx) && negb (bool_decide (e_TxHash e = "")) then
    match indices !! e_TxHash e with
    | Some index =>
        (<[index := set_e_Timestamp (default 0%Z (e_Timestamp <$> collapsed !! index)) e]> collapsed, indices)
    | None => (collapsed ++ [e], <[e_TxHash e := length collapsed]> indices)
    end
  else (collapsed ++ [e], indices).
Definition collapseTransactionRevisions (entries : list Entry) : list Entry :=
  (foldl collapse_step ([], ∅) entries).1.

Definition limited (limit : Z) (entries : list Entry) : list Entry :=
  if (0 <? limit)%Z && (limit <? Z.of_nat (length entries))%Z then take (Z.to_nat limit) entries else entries.

Definition Read (o : outcome) (l : Logger) (filter_ : Filter) : result (list Entry) :=
  if negb (l_open l && o_sync o) then Err (Wrapf "flush action log before read: %w" [] sys_err)
  else
    entries ← foldR (λ acc i, entries ← wrap_read i (read_one o l filter_ i); Ok (acc ++ entries)) []
                (reverse (seq 0 (S maxRotatedFiles)));
    Ok (limited (fl_Limit filter_) (reverse (collapseTransactionRevisions entries))).

(** [Export]: what the writer was given, and the error. [w k] tells whether its
    [k]-th write succeeds. *)
Fixpoint export_lines (w : nat → bool) (entries : list Entry) (written : list json) : list json * result unit :=
  match entries with
  | [] => (written, Ok tt)
  | e :: entries =>
      match time_MarshalJSON (e_Timestamp e) with
      | None => export_lines w entries written
      | Some ts => if w (length written) then export_lines w entries (written ++ [enc_entry ts e])
                   else (written, Err sys_err)
      end
  end.
Definition Export (o : outcome) (l : Logger) (w : nat → bool) : list json * result unit :=
  match Read o l no_filter with
  | Ok entries => export_lines w (reverse entries) []
  | Err e => ([], Err e)
  | Panic => ([], Panic)
  end.

Definition Close (o : outcome) (l : Logger) : Logger * option error :=
  (MkLogger (l_files l) false, if l_open l && o_close o then None else Some sys_err).
End logger.

(** ** Workflow steps (workflow/actionlog.go) *)
Section adapter.
Context `{TimeText} (error_text : error → string).

(** The entry of a completed step, with the text of its error; no logger means no
    logging, and a failure to log is ignored. *)
Definition step_entry (workflow workflowID : string) (stepIndex : Z) (r : StepResult) : Entry :=
  MkEntry 0 TypeWorkflow workflow (sr_TxHash r) (sr_Height r) 0 0 0 0 0 "" "" None 0 workflowID stepIndex
    (sr_Name r) (default "" (error_text <$> sr_Error r)) (sr_Status r).
Definition LogStep (o : outcome) (l : option Logger) (workflow workflowID : string) (stepIndex : Z) (r : StepResult) : option Logger :=
  (λ l, (Log o l (step_entry workflow workflowID stepIndex r)).1) <$> l.
End adapter.
