(* ===== verification/ActionLogProps.v ===== *)
(** * The action log: lemmas

    A written record decodes to its entry; the history of a logger is what its files
    hold, oldest first; the reference definition of a collapsed history. *)

From Stdlib Require Import Ascii.
From stdpp Require Import sorting base gmap strings pretty option numbers list.
From S2P Require Import Prelude GoStd GoJson StoreTypes StoreOps Workflow ActionLog.

(** What [time.Time] documents: the JSON text of an instant parses to it. *)
Class TimeLaws `{TimeText} : Prop := {
  time_roundtrip : ∀ t s, time_MarshalJSON t = Some s → time_Parse s = Some t;
}.

(** ** A record decodes to its entry *)
Definition entry_ok (e : Entry) : bool :=
  utf8_ok (e_Type e) && utf8_ok (e_Action e) && utf8_ok (e_TxHash e) && in_i64 (e_Height e) && in_i64 (e_GasUsed e)
  && in_u32 (e_ResultCode e) && in_u64 (e_DSeq e) && in_u32 (e_GSeq e) && in_u32 (e_OSeq e) && utf8_ok (e_Provider e)
  && utf8_ok (e_Account e) && in_i64 (e_DurationMs e) && utf8_ok (e_WorkflowID e) && in_i64 (e_Step e)
  && utf8_ok (e_StepName e) && utf8_ok (e_Error e) && utf8_ok (e_Status e).

Section members.
Context `{TimeText}.

Abbreviation decode := (dec_members false entry_fields).

(** A member that is always written, and one that is left out when it is empty. *)
Lemma dec_field {B} k j kvs (get : Entry → B) set dec a v :
  find_field k entry_fields = Some (field get set dec) → dec j (get a) = Some v →
  decode ((k, j) :: kvs) a = decode kvs (set v a).
Proof. intros Hf Hd. simpl. rewrite Hf. unfold field. by rewrite Hd. Qed.

Lemma dec_omit {B} k j empty kvs (get : Entry → B) set dec a v :
  find_field k entry_fields = Some (field get set dec) → (∀ x, set (get x) x = x) → dec j (get a) = Some v →
  (empty = true → v = get a) → decode (omit empty k j ++ kvs) a = decode kvs (set v a).
Proof. intros Hf Hs Hd He. destruct empty; simpl; [by rewrite He, Hs|]. rewrite Hf. unfold field. by rewrite Hd. Qed.

Lemma dec_omit_params (p : option json) kvs a r :
  e_Params r = p → e_Params a = None →
  decode (match p with Some j => [("params", j)] | None => [] end ++ kvs) a = decode kvs (set_e_Params p a).
Proof. intros <- Ha. destruct (e_Params r) as [j|]; [done|]. simpl. f_equal. destruct a; simpl in *. by subst. Qed.
End members.

Ltac log_field k get set r :=
  rewrite (dec_field k _ _ get set _ _ (get r) eq_refl) by eauto 2 with codec.
Ltac empty_field :=
  let E := fresh in
  intros E; first [apply bool_decide_eq_true in E|apply Z.eqb_eq in E|apply N.eqb_eq in E]; rewrite E; reflexivity.
Ltac log_omit k get set r :=
  rewrite (dec_omit k _ _ _ get set _ _ (get r) eq_refl); [|by intros []|solve [eauto 2 with codec]|empty_field].

Lemma dec_enc_entry `{TimeLaws} ts e :
  entry_ok e = true → time_MarshalJSON (e_Timestamp e) = Some ts → dec_entry (enc_entry ts e) zero_entry = Some e.
Proof.
  unfold entry_ok. intros Hok Ht. repeat match goal with H : _ && _ = true |- _ => apply andb_prop in H as [? ?] end.
  apply time_roundtrip in Ht. unfold dec_entry, enc_entry, dec_struct. cbn [app].
  rewrite <-(app_nil_r (omit_str "status" _)). unfold omit_str, omit_int, omit_uint.
  rewrite (dec_field "ts" (JStr ts) _ e_Timestamp set_e_Timestamp _ _ (e_Timestamp e) eq_refl Ht).
  log_field "type" e_Type set_e_Type e.
  log_field "action" e_Action set_e_Action e.
  log_omit "tx_hash" e_TxHash set_e_TxHash e.
  log_omit "height" e_Height set_e_Height e.
  log_omit "gas_used" e_GasUsed set_e_GasUsed e.
  log_omit "code" e_ResultCode set_e_ResultCode e.
  log_omit "dseq" e_DSeq set_e_DSeq e.
  log_omit "gseq" e_GSeq set_e_GSeq e.
  log_omit "oseq" e_OSeq set_e_OSeq e.
  log_omit "provider" e_Provider set_e_Provider e.
  log_omit "account" e_Account set_e_Account e.
  rewrite (dec_omit_params (e_Params e) _ _ e) by reflexivity.
  log_omit "duration_ms" e_DurationMs set_e_DurationMs e.
  log_omit "workflow_id" e_WorkflowID set_e_WorkflowID e.
  log_field "step" e_Step set_e_Step e.
  log_omit "step_name" e_StepName set_e_StepName e.
  log_omit "error" e_Error set_e_Error e.
  log_omit "status" e_Status set_e_Status e.
  by destruct e.
Qed.

(** ** Histories *)
Section history.
Context `{TimeText}.

Definition file_entries (f : option file) : list Entry := match f with Some f => omap decode_line (tokens f) | None => [] end.
(** Everything the files hold, oldest first. *)
Definition hist (files : gmap nat file) : list Entry :=
  concat ((λ i, file_entries (files !! i)) <$> reverse (seq 0 (S maxRotatedFiles))).

Lemma hist_unfold files :
  hist files = file_entries (files !! 5) ++ file_entries (files !! 4) ++ file_entries (files !! 3)
    ++ file_entries (files !! 2) ++ file_entries (files !! 1) ++ file_entries (files !! 0).
Proof. unfold hist. simpl. by rewrite app_nil_r. Qed.

Lemma hist_two i files files' :
  i < 5 → (∀ k, k ≠ i → k ≠ S i → files' !! k = files !! k) →
  ∃ a b, hist files = a ++ file_entries (files !! S i) ++ file_entries (files !! i) ++ b ∧
    hist files' = a ++ file_entries (files' !! S i) ++ file_entries (files' !! i) ++ b.
Proof.
  intros Hi He. rewrite !hist_unfold. set (E k := file_entries (files !! k)).
  destruct i as [|[|[|[|[|]]]]]; [| | | | |lia]; rewrite ?(He 5), ?(He 4), ?(He 3), ?(He 2), ?(He 1), ?(He 0) by done.
  - exists (E 5 ++ E 4 ++ E 3 ++ E 2), []. rewrite !app_nil_r. by rewrite <-!app_assoc.
  - exists (E 5 ++ E 4 ++ E 3), (E 0). by rewrite <-!app_assoc.
  - exists (E 5 ++ E 4), (E 1 ++ E 0). by rewrite <-!app_assoc.
  - by exists (E 5), (E 2 ++ E 1 ++ E 0).
  - by exists [], (E 3 ++ E 2 ++ E 1 ++ E 0).
Qed.

Lemma hist_last files g : ∃ a, hist files = a ++ file_entries (files !! 0) ∧ hist (alter g 0 files) = a ++ file_entries (g <$> files !! 0).
Proof.
  rewrite !hist_unfold, !lookup_alter_ne, lookup_alter_eq by done. set (E k := file_entries (files !! k)).
  exists (E 5 ++ E 4 ++ E 3 ++ E 2 ++ E 1). by rewrite <-!app_assoc.
Qed.

Lemma rename_other o files i k : k ≠ i → k ≠ S i → rename o files i !! k = files !! k.
Proof.
  intros H1 H2. unfold rename. destruct (files !! i) as [f|]; [|done]. destruct (o_rename o i); [|done].
  by rewrite lookup_insert_ne, lookup_delete_ne by done.
Qed.

Lemma rename_sublist o files i : i < 5 → hist (rename o files i) `sublist_of` hist files.
Proof.
  intros Hi. destruct (hist_two i files (rename o files i) Hi (rename_other o files i)) as (a & b & -> & ->).
  unfold rename. destruct (files !! i) as [f|] eqn:E; [|by rewrite E]. destruct (o_rename o i); [|by rewrite E].
  rewrite lookup_insert_eq, lookup_insert_ne, lookup_delete_eq by lia. simpl.
  apply sublist_app; [done|]. by apply sublist_inserts_l.
Qed.

Lemma renames_sublist o l : ∀ files, (∀ i, i ∈ l → i < 5) → hist (foldl (rename o) files l) `sublist_of` hist files.
Proof.
  induction l as [|i l IH]; intros files Hl; [done|]. simpl.
  etransitivity; [apply IH; set_solver|]. apply rename_sublist. set_solver.
Qed.

Lemma shift_sublist o files : hist (shift_files o files) `sublist_of` hist files.
Proof. apply renames_sublist. intros i. rewrite elem_of_reverse, elem_of_seq. unfold maxRotatedFiles. lia. Qed.

(** When every rename works, only the oldest file can be lost. *)
Definition renames (o : outcome) : Prop := ∀ i, o_rename o i = true.

Lemma rename_free o files i :
  renames o → i < 5 → files !! S i = None → hist (rename o files i) = hist files ∧ rename o files i !! i = None.
Proof.
  intros Ho Hi Hn. destruct (hist_two i files (rename o files i) Hi (rename_other o files i)) as (a & b & -> & ->).
  unfold rename. destruct (files !! i) as [f|] eqn:E; [|by rewrite E]. rewrite Ho.
  rewrite lookup_insert_eq, lookup_insert_ne, lookup_delete_eq by lia. by rewrite Hn.
Qed.

Definition lost (files : gmap nat file) : list Entry := match files !! 4 with Some _ => file_entries (files !! 5) | None => [] end.

Lemma shift_lost o files :
  renames o → hist files = lost files ++ hist (shift_files o files) ∧ shift_files o files !! 0 = None.
Proof.
  intros Ho. unfold shift_files, maxRotatedFiles. cbn [seq reverse rev_append foldl].
  assert (hist files = lost files ++ hist (rename o files 4) ∧ rename o files 4 !! 4 = None) as [-> H4].
  { unfold lost, rename. destruct (files !! 4) as [f|] eqn:E; [|by rewrite E]. rewrite Ho, !hist_unfold.
    rewrite lookup_insert_eq, !lookup_insert_ne, lookup_delete_eq, !lookup_delete_ne by done. by rewrite E. }
  destruct (rename_free o _ 3 Ho ltac:(lia) H4) as [<- H3]. destruct (rename_free o _ 2 Ho ltac:(lia) H3) as [<- H2].
  destruct (rename_free o _ 1 Ho ltac:(lia) H2) as [<- H1]. by destruct (rename_free o _ 0 Ho ltac:(lia) H1) as [<- H0].
Qed.

Lemma create_hist files : hist (create_file files) = hist files.
Proof.
  unfold create_file. destruct (files !! 0) eqn:E; [done|]. rewrite !hist_unfold, lookup_insert_eq, !lookup_insert_ne by done.
  by rewrite E.
Qed.
End history.

(** ** Writing *)
Section writing.
Context `{TimeLaws}.

Lemma decode_raw s : decode_line (Raw s) = None.
Proof. done. Qed.

Lemma raw_tail s : omap decode_line (if bytes_empty (Raw s) then [] else [Raw s]) = [].
Proof. by destruct s. Qed.

Lemma decode_record ts e :
  entry_ok e = true → time_MarshalJSON (e_Timestamp e) = Some ts → decode_line (Text (enc_entry ts e)) = Some e.
Proof. intros Hok Ht. unfold decode_line, Unmarshal. by rewrite dec_enc_entry. Qed.

Lemma bytes_empty_eq b : bytes_empty b = true → b = Raw "".
Proof. by destruct b as [[]|]. Qed.

Lemma tokens_record j f : f_tail f = Raw "" → tokens (append_record j f) = tokens f ++ [Text j].
Proof. intros Hf. unfold tokens, append_record. rewrite Hf. simpl. by rewrite !app_nil_r. Qed.

Lemma file_entries_record ts e f :
  entry_ok e = true → time_MarshalJSON (e_Timestamp e) = Some ts → f_tail f = Raw "" →
  file_entries (Some (append_record (enc_entry ts e) f)) = file_entries (Some f) ++ [e].
Proof.
  intros Hok Ht Hf. unfold file_entries. rewrite tokens_record by done. rewrite omap_app. cbn [omap list_omap].
  by rewrite decode_record.
Qed.

(** Whatever tail there was, an append adds at most the entry. *)
Lemma file_entries_append ts e f :
  entry_ok e = true → time_MarshalJSON (e_Timestamp e) = Some ts →
  file_entries (Some (append_record (enc_entry ts e) f)) `sublist_of` file_entries (Some f) ++ [e].
Proof.
  intros Hok Ht. destruct (bytes_empty (f_tail f)) eqn:E.
  { rewrite file_entries_record; [done..|]. by apply bytes_empty_eq. }
  unfold file_entries, tokens, append_record. rewrite E. cbn [f_lines f_tail bytes_empty]. rewrite app_nil_r, !omap_app.
  cbn [omap list_omap]. rewrite decode_raw, app_nil_r, <-app_assoc. by apply sublist_inserts_r.
Qed.

Lemma file_entries_part n ts e f :
  entry_ok e = true → time_MarshalJSON (e_Timestamp e) = Some ts →
  file_entries (Some (append_part n (enc_entry ts e) f)) `sublist_of` file_entries (Some f) ++ [e].
Proof.
  intros Hok Ht. unfold append_part. destruct n as [|n]; [by apply sublist_inserts_r|].
  unfold file_entries, tokens. cbn [f_lines f_tail]. rewrite !omap_app, <-app_assoc. apply sublist_app; [done|].
  destruct (bytes_empty (f_tail f)) eqn:E; cbn [andb].
  - destruct (_ <=? _)%nat; [cbn [bytes_empty omap list_omap]; by rewrite decode_record|].
    rewrite raw_tail. apply sublist_nil_l.
  - rewrite raw_tail. apply sublist_nil_l.
Qed.

Lemma alter_sublist e g files :
  (∀ f, file_entries (Some (g f)) `sublist_of` file_entries (Some f) ++ [e]) →
  hist (alter g 0 files) `sublist_of` hist files ++ [e].
Proof.
  intros Hg. destruct (hist_last files g) as (a & -> & ->). rewrite <-app_assoc. apply sublist_app; [done|].
  destruct (files !! 0); simpl; [apply Hg|apply sublist_nil_l].
Qed.

Lemma maybeRotate_sublist o l : hist (l_files (maybeRotate o l).1) `sublist_of` hist (l_files l).
Proof.
  unfold maybeRotate. destruct (negb _); [done|]. destruct (_ <? _)%N; [done|]. destruct (negb _); [done|].
  destruct (o_open o); simpl; rewrite ?create_hist; apply shift_sublist.
Qed.

Lemma Log_sublist o l e :
  entry_ok (stamp o e) = true → hist (l_files (Log o l e).1) `sublist_of` hist (l_files l) ++ [stamp o e].
Proof.
  intros Hok. unfold Log. destruct (time_MarshalJSON _) as [ts|] eqn:Ht; [|by apply sublist_inserts_r].
  destruct (_ <? _)%N; [by apply sublist_inserts_r|]. pose proof (maybeRotate_sublist o l) as Hr.
  destruct (maybeRotate o l) as [l1 [err|]]; simpl in *; [by apply sublist_inserts_r|].
  transitivity (hist (l_files l1) ++ [stamp o e]); [|by apply sublist_app].
  unfold write_record. destruct (l_open l1); [|by apply sublist_inserts_r].
  destruct (o_write o) as [n|]; simpl; apply alter_sublist; try done; intros f.
  - by apply file_entries_part.
  - by apply file_entries_append.
Qed.

(** ** A logger whose writes all succeeded *)
Record clean (l : Logger) : Prop := {
  cl_open : l_open l = true;
  cl_current : is_Some (l_files l !! 0);
  cl_files : ∀ i f, l_files l !! i = Some f → f_tail f = Raw "" ∧ scannable f = true;
}.

(** No system call of an operation fails. *)
Record fine (o : outcome) : Prop := {
  fi_stat : o_stat o = true; fi_close : o_close o = true; fi_rename : renames o; fi_open : o_open o = true;
  fi_write : o_write o = None; fi_sync : o_sync o = true; fi_read : ∀ i, o_read o i = true;
}.

Definition rotates (l : Logger) : bool := (maxLogSize <=? current_size l)%N.

Lemma rename_lookup o files i k f : rename o files i !! k = Some f → ∃ k', files !! k' = Some f.
Proof.
  unfold rename. destruct (files !! i) as [g|] eqn:E; [|eauto]. destruct (o_rename o i); [|eauto].
  rewrite lookup_insert_Some, lookup_delete_Some. naive_solver.
Qed.

Lemma renames_lookup o l : ∀ files k f, foldl (rename o) files l !! k = Some f → ∃ k', files !! k' = Some f.
Proof.
  induction l as [|i l IH]; intros files k f Hf; simpl in Hf; [eauto|].
  apply IH in Hf as [k' Hf]. by eapply rename_lookup.
Qed.

Lemma maybeRotate_fine o l :
  fine o → clean l →
  ∃ l1, maybeRotate o l = (l1, None) ∧ clean l1 ∧
    hist (l_files l) = (if rotates l then lost (l_files l) else []) ++ hist (l_files l1).
Proof.
  intros Ho Hl. unfold maybeRotate, rotates. rewrite (cl_open _ Hl), (fi_stat _ Ho), (fi_close _ Ho), (fi_open _ Ho). simpl.
  destruct (N.ltb_spec (current_size l) maxLogSize) as [Hs|Hs].
  { exists l. split_and!; [done|done|]. by rewrite (proj2 (N.leb_gt _ _) Hs). }
  rewrite (proj2 (N.leb_le _ _) Hs).
  destruct (shift_lost o (l_files l) (fi_rename _ Ho)) as [Hh Hz].
  eexists. split; [reflexivity|]. split; [|simpl; by rewrite create_hist].
  assert (∀ i f, create_file (shift_files o (l_files l)) !! i = Some f → f = empty_file ∨ ∃ k, l_files l !! k = Some f) as Hf.
  { intros i f. unfold create_file. rewrite Hz. rewrite lookup_insert_Some. intros [[_ <-]|[_ Hf]]; [by left|right].
    by eapply renames_lookup. }
  split; [done| |].
  - simpl. unfold create_file. rewrite Hz. by rewrite lookup_insert_eq.
  - simpl. intros i f [->|[k Hk]]%Hf; [done|]. by eapply cl_files.
Qed.

Lemma scannable_record j f :
  (line_size (Text j) ≤ maxLogRecordSize)%N → f_tail f = Raw "" → scannable f = true → scannable (append_record j f) = true.
Proof.
  intros Hj Hf Hs. unfold scannable, append_record in *. rewrite Hf in *. simpl in *.
  apply andb_true_iff in Hs as [Hs _]. rewrite forallb_app, Hs. simpl. by rewrite (proj2 (N.leb_le _ _) Hj).
Qed.

Lemma Log_fine o l e ts :
  fine o → clean l → entry_ok (stamp o e) = true → time_MarshalJSON (e_Timestamp (stamp o e)) = Some ts →
  (line_size (Text (enc_entry ts (stamp o e))) ≤ maxLogRecordSize)%N →
  ∃ l' kept, Log o l e = (l', None) ∧ clean l' ∧ hist (l_files l') = kept ++ [stamp o e] ∧
    hist (l_files l) = (if rotates l then lost (l_files l) else []) ++ kept.
Proof.
  intros Ho Hl Hok Ht Hsz. unfold Log. rewrite Ht, (proj2 (N.ltb_ge _ _) Hsz).
  destruct (maybeRotate_fine o l Ho Hl) as (l1 & -> & Hc & Hh).
  unfold write_record. rewrite (cl_open _ Hc), (fi_write _ Ho). simpl. eexists _, (hist (l_files l1)).
  destruct (cl_current _ Hc) as [f0 Hf0]. destruct (cl_files _ Hc _ _ Hf0) as [Htail Hscan].
  split; [reflexivity|]. split_and!; [|simpl|done].
  - split; [done|simpl; rewrite lookup_alter_eq, Hf0; done|]. simpl. intros i f. rewrite lookup_alter_Some.
    intros [(<- & g & Hg & ->)|[_ Hf]]; [|by eapply cl_files]. simplify_eq. split; [done|]. by apply scannable_record.
  - destruct (hist_last (l_files l1) (append_record (enc_entry ts (stamp o e)))) as (a & Ha & ->).
    rewrite Ha, Hf0. cbn [fmap option_fmap option_map]. rewrite file_entries_record by done. by rewrite app_assoc.
Qed.

(** ** Reading *)
Lemma filter_concat {A} (P : A → Prop) `{!∀ x, Decision (P x)} ls : filter P (concat ls) = concat (filter P <$> ls).
Proof. induction ls as [|l ls IH]; [done|]. simpl. by rewrite filter_app, IH. Qed.

Lemma foldR_concat {A B} (g : A → result (list B)) (h : A → list B) l : ∀ acc,
  (∀ x, g x = Ok (h x)) → foldR (λ acc x, y ← g x; Ok (acc ++ y)) acc l = Ok (acc ++ concat (h <$> l)).
Proof.
  induction l as [|x l IH]; intros acc Hg; simpl; [by rewrite app_nil_r|]. rewrite Hg. simpl. by rewrite IH, <-app_assoc by done.
Qed.

Lemma Read_fine o l f :
  fine o → clean l →
  Read o l f = Ok (limited (fl_Limit f) (reverse (collapseTransactionRevisions (filter (λ e, matchesFilter e f) (hist (l_files l)))))).
Proof.
  intros Ho Hl. unfold Read. rewrite (cl_open _ Hl), (fi_sync _ Ho). cbn [andb negb].
  rewrite (foldR_concat _ (λ i, filter (λ e, matchesFilter e f) (file_entries (l_files l !! i)))).
  - cbn [mbind result_bind app]. unfold hist. by rewrite filter_concat, <-list_fmap_compose.
  - intros i. unfold read_one. destruct (l_files l !! i) as [g|] eqn:E; [|by destruct i].
    rewrite (fi_read _ Ho). unfold readLogFile. rewrite (proj2 (cl_files _ Hl _ _ E)). by destruct i.
Qed.
End writing.

(** ** One entry per transaction *)

(** The hash an entry revises. *)
Definition tx_key (e : Entry) : option string :=
  if bool_decide (e_Type e = TypeTx) && negb (bool_decide (e_TxHash e = "")) then Some (e_TxHash e) else None.

(** The last revision of [e] in a list, under the time of [e]. *)
Definition latest (e : Entry) (later : list Entry) : Entry :=
  foldl (λ r x, if bool_decide (tx_key x = tx_key e) then set_e_Timestamp (e_Timestamp e) x else r) e later.

(** The reference definition: the first entry of each transaction stands for it, in
    its place and at its time, with what its last revision says. *)
Fixpoint collapse_ref (seen : list string) (entries : list Entry) : list Entry :=
  match entries with
  | [] => []
  | e :: rest =>
      match tx_key e with
      | None => e :: collapse_ref seen rest
      | Some hash => if bool_decide (hash ∈ seen) then collapse_ref seen rest
                     else latest e rest :: collapse_ref (hash :: seen) rest
      end
  end.

(** What one more entry does to the reference. *)
Definition revise (e : Entry) (r : Entry) : Entry :=
  match tx_key e with
  | Some _ => if bool_decide (tx_key r = tx_key e) then set_e_Timestamp (e_Timestamp r) e else r
  | None => r
  end.

Lemma tx_key_stamp t e : tx_key (set_e_Timestamp t e) = tx_key e.
Proof. done. Qed.

Lemma latest_key e l : is_Some (tx_key e) → tx_key (latest e l) = tx_key e ∧ e_Timestamp (latest e l) = e_Timestamp e.
Proof.
  intros He. unfold latest. assert (∀ r, tx_key r = tx_key e ∧ e_Timestamp r = e_Timestamp e →
    tx_key (foldl (λ r x, if bool_decide (tx_key x = tx_key e) then set_e_Timestamp (e_Timestamp e) x else r) r l) = tx_key e ∧
    e_Timestamp (foldl (λ r x, if bool_decide (tx_key x = tx_key e) then set_e_Timestamp (e_Timestamp e) x else r) r l) = e_Timestamp e) as Hr.
  { induction l as [|x l IH]; intros r Hr; [done|]. simpl. apply IH. by case_bool_decide. }
  by apply Hr.
Qed.

Lemma latest_snoc e l x :
  latest e (l ++ [x]) = if bool_decide (tx_key x = tx_key e) then set_e_Timestamp (e_Timestamp e) x else latest e l.
Proof. unfold latest. by rewrite foldl_app. Qed.

Lemma collapse_ref_fresh entries : ∀ seen r k, r ∈ collapse_ref seen entries → tx_key r = Some k → k ∉ seen.
Proof.
  induction entries as [|x entries IH]; intros seen r k; simpl; [set_solver|].
  destruct (tx_key x) as [h|] eqn:Ex.
  - case_bool_decide as Hs; [apply IH|]. intros [->|Hr]%elem_of_cons Hk.
    + destruct (latest_key x entries ltac:(by rewrite Ex)) as [Hl _]. congruence.
    + pose proof (IH _ _ _ Hr Hk). set_solver.
  - intros [->|Hr]%elem_of_cons Hk; [congruence|eauto].
Qed.

Lemma revise_other e r : tx_key r ≠ tx_key e → revise e r = r.
Proof. intros Hne. unfold revise. destruct (tx_key e); [|done]. by rewrite bool_decide_eq_false_2. Qed.

Lemma revise_same e r : is_Some (tx_key e) → tx_key r = tx_key e → revise e r = set_e_Timestamp (e_Timestamp r) e.
Proof. intros [k Hk] Heq. unfold revise. rewrite Heq, Hk. by rewrite bool_decide_eq_true_2. Qed.

Lemma revise_fresh e k l seen : tx_key e = Some k → k ∈ seen → revise e <$> collapse_ref seen l = collapse_ref seen l.
Proof.
  intros Hk Hs. rewrite <-(list_fmap_id (collapse_ref seen l)) at 2. apply list_fmap_ext. intros i r Hr.
  apply revise_other. rewrite Hk. intros Heq. apply list_elem_of_lookup_2 in Hr. by destruct (collapse_ref_fresh _ _ _ _ Hr Heq).
Qed.

Definition snoc_ref (e : Entry) (seen : list string) (keys : list (option string)) (l : list Entry) : list Entry :=
  match tx_key e with
  | None => l ++ [e]
  | Some hash => if bool_decide (hash ∈ seen) then l
                 else if bool_decide (Some hash ∈ keys) then revise e <$> l else l ++ [e]
  end.

Lemma snoc_ref_skip e x seen keys l h :
  tx_key x = Some h → h ∈ seen → snoc_ref e seen (Some h :: keys) l = snoc_ref e seen keys l.
Proof.
  intros Hx Hs. unfold snoc_ref. destruct (tx_key e) as [hash|]; [|done]. case_bool_decide as H1; [done|].
  erewrite (bool_decide_ext (Some hash ∈ Some h :: keys) (Some hash ∈ keys)); [done|]. set_solver.
Qed.

Lemma collapse_ref_snoc e entries : ∀ seen,
  collapse_ref seen (entries ++ [e]) = snoc_ref e seen (tx_key <$> entries) (collapse_ref seen entries).
Proof.
  induction entries as [|x entries IH]; intros seen.
  { simpl. unfold snoc_ref. destruct (tx_key e) as [hash|] eqn:E; [|done]. by destruct (bool_decide (hash ∈ seen)). }
  cbn [app collapse_ref]. rewrite fmap_cons. destruct (tx_key x) as [h|] eqn:Ex.
  - destruct (bool_decide (h ∈ seen)) eqn:Hs.
    { apply bool_decide_eq_true in Hs. rewrite IH. symmetry. by eapply snoc_ref_skip. }
    apply bool_decide_eq_false in Hs. rewrite latest_snoc, IH, Ex. unfold snoc_ref.
    destruct (tx_key e) as [hash|] eqn:E; [|done]. destruct (decide (hash = h)) as [->|Hne].
    + rewrite (bool_decide_eq_true_2 (Some h = Some h)), (bool_decide_eq_true_2 (h ∈ h :: seen)) by set_solver.
      rewrite (bool_decide_eq_false_2 (h ∈ seen)), (bool_decide_eq_true_2 (Some h ∈ _)) by set_solver.
      rewrite fmap_cons. destruct (latest_key x entries ltac:(by rewrite Ex)) as [Hk Ht].
      rewrite revise_same by (rewrite ?Hk; congruence || by rewrite E). rewrite Ht.
      f_equal. symmetry. eapply revise_fresh; [done|set_solver].
    + rewrite (bool_decide_eq_false_2 (Some hash = Some h)) by congruence.
      erewrite (bool_decide_ext (hash ∈ h :: seen) (hash ∈ seen)) by set_solver.
      erewrite (bool_decide_ext (Some hash ∈ Some h :: _) (Some hash ∈ tx_key <$> entries)) by set_solver.
      destruct (bool_decide (hash ∈ seen)); [done|]. destruct (bool_decide _); [|done]. rewrite fmap_cons. f_equal.
      symmetry. apply revise_other. destruct (latest_key x entries ltac:(by rewrite Ex)) as [Hk _]. congruence.
  - rewrite IH. unfold snoc_ref. destruct (tx_key e) as [hash|] eqn:E; [|done].
    erewrite (bool_decide_ext (Some hash ∈ None :: _) (Some hash ∈ tx_key <$> entries)) by set_solver.
    destruct (bool_decide (hash ∈ seen)); [done|]. destruct (bool_decide _); [|done]. rewrite fmap_cons. f_equal.
    symmetry. apply revise_other. congruence.
Qed.

(** The loop keeps the reference, and the place of every hash in it. *)
Record collapsing (entries : list Entry) (st : list Entry * gmap string nat) : Prop := {
  co_list : st.1 = collapse_ref [] entries;
  co_index : ∀ h i, st.2 !! h = Some i ↔ ∃ r, st.1 !! i = Some r ∧ tx_key r = Some h;
  co_seen : ∀ h, is_Some (st.2 !! h) ↔ Some h ∈ tx_key <$> entries;
}.

Lemma collapse_step_key st e :
  collapse_step st e =
  match tx_key e with
  | Some h => match st.2 !! h with
              | Some index => (<[index := set_e_Timestamp (default 0%Z (e_Timestamp <$> st.1 !! index)) e]> st.1, st.2)
              | None => (st.1 ++ [e], <[h := length st.1]> st.2)
              end
  | None => (st.1 ++ [e], st.2)
  end.
Proof. destruct st. unfold collapse_step, tx_key. by destruct (_ && _). Qed.

Lemma collapsing_step entries st e : collapsing entries st → collapsing (entries ++ [e]) (collapse_step st e).
Proof.
  intros [Hl Hi Hs]. rewrite collapse_step_key. pose proof (collapse_ref_snoc e entries []) as Hr.
  rewrite <-Hl in Hr. unfold snoc_ref in Hr. destruct (tx_key e) as [h|] eqn:E.
  - rewrite bool_decide_eq_false_2 in Hr by set_solver. destruct (st.2 !! h) as [index|] eqn:Ei.
    + rewrite bool_decide_eq_true_2 in Hr by (apply Hs; eauto).
      destruct (proj1 (Hi h index) Ei) as (r & Hr1 & Hr2). rewrite Hr1.
      change (default 0%Z (e_Timestamp <$> Some r)) with (e_Timestamp r).
      assert (<[index := set_e_Timestamp (e_Timestamp r) e]> st.1 = revise e <$> st.1) as Heq.
      { apply list_eq. intros j. rewrite list_lookup_fmap. destruct (decide (j = index)) as [->|Hj].
        - rewrite list_lookup_insert_eq by (by eapply lookup_lt_Some). rewrite Hr1. simpl. f_equal. symmetry.
          apply revise_same; congruence || by rewrite E.
        - rewrite list_lookup_insert_ne by done. destruct (st.1 !! j) as [x|] eqn:Ej; [|done]. simpl. f_equal. symmetry.
          apply revise_other. rewrite E. intros Hx. apply Hj.
          assert (st.2 !! h = Some j) by (apply Hi; eauto). congruence. }
      rewrite Heq. split; simpl; [by rewrite Hr| |].
      * intros h' i. rewrite Hi, list_lookup_fmap.
        assert (∀ x, tx_key (revise e x) = tx_key x) as Hk.
        { intros x. unfold revise. rewrite E. case_bool_decide as Hx; [|done]. rewrite tx_key_stamp. congruence. }
        destruct (st.1 !! i) as [x|]; simpl; [|naive_solver]. specialize (Hk x).
        split; intros (r' & [= <-] & Hr'); eexists; (split; [reflexivity|congruence]).
      * intros h'. rewrite Hs, fmap_app. simpl. rewrite E. assert (Some h ∈ tx_key <$> entries) by (apply Hs; eauto). set_solver.
    + rewrite bool_decide_eq_false_2 in Hr by (intros Hin; apply Hs in Hin as [? Hin]; congruence).
      split; simpl; [by rewrite Hr| |].
      * intros h' i. destruct (decide (h' = h)) as [->|Hne].
        -- rewrite lookup_insert_eq. split.
           ++ intros [= <-]. exists e. by rewrite lookup_app_r, Nat.sub_diag by lia.
           ++ intros (r & [Hx|[Hge Hx]]%lookup_app_Some & Hk).
              ** assert (st.2 !! h = Some i) by (apply Hi; eauto). congruence.
              ** apply list_lookup_singleton_Some in Hx as [Hx _]. f_equal. lia.
        -- rewrite lookup_insert_ne, Hi by done. split.
           ++ intros (r & Hx & Hk). exists r. split; [by apply lookup_app_l_Some|done].
           ++ intros (r & [Hx|[Hge Hx]]%lookup_app_Some & Hk); [eauto|].
              apply list_lookup_singleton_Some in Hx as [_ <-]. congruence.
      * intros h'. rewrite fmap_app. simpl. rewrite E. destruct (decide (h' = h)) as [->|Hne].
        -- rewrite lookup_insert_eq. set_solver.
        -- rewrite lookup_insert_ne, Hs by done. set_solver.
  - split; simpl; [by rewrite Hr| |].
    + intros h i. rewrite Hi. split.
      * intros (r & Hx & Hk). exists r. split; [by apply lookup_app_l_Some|done].
      * intros (r & [Hx|[Hge Hx]]%lookup_app_Some & Hk); [eauto|].
        apply list_lookup_singleton_Some in Hx as [_ <-]. congruence.
    + intros h. rewrite Hs, fmap_app. simpl. rewrite E. set_solver.
Qed.

Lemma collapsing_all entries : collapsing entries (foldl collapse_step ([], ∅) entries).
Proof.
  induction entries as [|e entries IH] using rev_ind.
  - split; [done| |]; simpl.
    + intros h i. rewrite lookup_empty. naive_solver.
    + intros h. rewrite lookup_empty. split; [by intros []|set_solver].
  - rewrite foldl_app. by apply collapsing_step.
Qed.

Lemma collapse_is_ref entries : collapseTransactionRevisions entries = collapse_ref [] entries.
Proof. apply (co_list _ _ (collapsing_all entries)). Qed.

(** * The action log: the properties *)

(** Decimal nanoseconds as the text of an instant, for the witnesses. *)
#[local] Instance decimal_time : TimeText := {
  time_MarshalJSON := λ t, if in_i64 t then Some (FormatInt t) else None;
  time_Parse := λ s, match ParseInt64 s with Ok t => Some t | _ => None end;
}.
#[local] Instance decimal_laws : TimeLaws.
Proof.
  split. intros t s. unfold time_MarshalJSON, time_Parse, decimal_time. destruct (in_i64 t) eqn:E; [|done].
  intros [= <-]. by rewrite ParseInt64_FormatInt.
Qed.

Lemma smooth_fine now : fine (smooth now).
Proof. by split. Qed.

Definition fresh_log : Logger := MkLogger {[0 := empty_file]} true.
Lemma fresh_clean : clean fresh_log.
Proof. split; [done|by eexists|]. intros i f Hf. unfold fresh_log in Hf. cbn [l_files] in Hf. apply lookup_singleton_Some in Hf as [_ <-]. done. Qed.

Definition deploy_entry : Entry := MkEntry 0 "workflow" "deploy" "" 0 0 0 7 0 0 "" "akash1abc" None 12 "run-1" 0 "create" "" "ok".

(** ** Appending and reading *)


(** whatever system calls fail, during the write or during the rotation, the log
    never invents, changes or reorders entries: what can be read after Log is a
    subsequence of what could be read before, followed by the new entry. *)
Theorem Log_only_loses `{TimeLaws} o l e :
  entry_ok (stamp o e) = true → hist (l_files (Log o l e).1) `sublist_of` hist (l_files l) ++ [stamp o e].
Proof. apply Log_sublist. Qed.
Definition failing : outcome := MkOutcome 5 true true true (λ _, false) false (Some 3) true (λ _, true).
Lemma Log_only_loses_witness : hist (l_files (Log failing fresh_log deploy_entry).1) `sublist_of` hist (l_files fresh_log) ++ [set_e_Timestamp 5 deploy_entry].
Proof. apply (Log_only_loses failing fresh_log deploy_entry). vm_compute. reflexivity. Defined.

(** ** Transactions *)

(** collapsing is exact. The submission and the later revisions of a transaction
    become one entry, in the place and at the time of the first, with the contents of
    the last; every other entry stays where it is. *)
Theorem collapse_exact entries : collapseTransactionRevisions entries = collapse_ref [] entries.
Proof. apply collapse_is_ref. Qed.

(** ** Size *)
Lemma byte_len_app s t : byte_len (s +:+ t) = (byte_len s + byte_len t)%N.
Proof. unfold byte_len. rewrite bytes_of_app, length_app. lia. Qed.

Lemma sizes_app l l' n : foldr (λ b n, line_size b + n)%N n (l ++ l') = foldr (λ b n, line_size b + n)%N (foldr (λ b n, line_size b + n)%N n l') l.
Proof. apply foldr_app. Qed.

Lemma sizes_shift l n k : foldr (λ b n, line_size b + n)%N (n + k)%N l = (foldr (λ b n, line_size b + n)%N n l + k)%N.
Proof. induction l as [|b l IH]; [done|]. simpl. rewrite IH. lia. Qed.

Lemma size_record j f : file_size (append_record j f) = (file_size f + line_size (Text j))%N.
Proof.
  unfold file_size, append_record. cbn [f_lines f_tail]. rewrite sizes_app. cbn [foldr raw_bytes].
  replace (line_size _ + byte_len "")%N with (byte_len (raw_bytes (f_tail f)) + line_size (Text j))%N; [apply sizes_shift|].
  destruct (bytes_empty (f_tail f)) eqn:E.
  - apply bytes_empty_eq in E as ->. cbn [raw_bytes]. change (byte_len "") with 0%N. lia.
  - unfold line_size. cbn [raw_bytes]. rewrite byte_len_app. change (byte_len "") with 0%N. lia.
Qed.

Lemma size_part n j f : (file_size (append_part n j f) ≤ file_size f + line_size (Text j))%N.
Proof.
  unfold append_part. destruct n as [|n]; [lia|]. unfold file_size. cbn [f_lines f_tail]. rewrite <-sizes_shift.
  assert (∀ a b, (a ≤ b)%N → (foldr (λ b n, line_size b + n)%N a (f_lines f) ≤ foldr (λ b n, line_size b + n)%N b (f_lines f))%N) as Hmono.
  { intros a b Hab. induction (f_lines f) as [|x l IH]; simpl; lia. }
  apply Hmono. unfold line_size. destruct (bytes_empty (f_tail f) && _); cbn [raw_bytes]; [lia|].
  rewrite byte_len_app. assert (byte_len (of_bytes (take (S n) (bytes_of (json_text None j)))) ≤ byte_len (json_text None j))%N; [|lia].
  unfold byte_len. rewrite bytes_of_of, length_take. lia.
Qed.

Definition sizes_ok (files : gmap nat file) : Prop := ∀ i f, files !! i = Some f → (file_size f < maxLogSize + maxLogRecordSize)%N.

Lemma shift_current o files : o_rename o 0 = true → shift_files o files !! 0 = None.
Proof.
  intros Ho. unfold shift_files, maxRotatedFiles. cbn [seq reverse rev_append foldl]. set (g := rename o _ 1).
  unfold rename. destruct (g !! 0) eqn:E; [|done]. rewrite Ho. by rewrite lookup_insert_ne, lookup_delete_eq.
Qed.

Lemma maybeRotate_sizes o l l1 :
  o_stat o = true → o_rename o 0 = true → sizes_ok (l_files l) → maybeRotate o l = (l1, None) →
  sizes_ok (l_files l1) ∧ (l_open l1 = true → (current_size l1 < maxLogSize)%N).
Proof.
  intros Hst Hrn Hs. unfold maybeRotate. rewrite Hst, andb_true_r. destruct (l_open l) eqn:Eo; simpl.
  2:{ intros [= <-]. split; [done|congruence]. }
  destruct (N.ltb_spec (current_size l) maxLogSize) as [Hc|Hc]; [intros [= <-]; done|].
  destruct (o_close o); simpl; [|done]. destruct (o_open o); [|done]. intros [= <-].
  pose proof (shift_current o (l_files l) Hrn) as Hz. split; simpl.
  - intros i f. unfold create_file. rewrite Hz, lookup_insert_Some. intros [[_ <-]|[_ Hf]]; [done|].
    apply renames_lookup in Hf as [k Hf]. by eapply Hs.
  - intros _. unfold current_size, create_file. cbn [l_files]. rewrite Hz, lookup_insert_eq. done.
Qed.

(** the log is bounded. As long as the size of the current file can be read and
    the file can be moved aside, no file of the log reaches 20 MiB, whatever else
    fails and however much is logged. *)
Theorem log_bounded `{TimeText} o l e :
  o_stat o = true → o_rename o 0 = true → sizes_ok (l_files l) → sizes_ok (l_files (Log o l e).1).
Proof.
  intros Hst Hrn Hs. unfold Log. destruct (time_MarshalJSON _) as [ts|]; [|done].
  destruct (N.ltb_spec maxLogRecordSize (line_size (Text (enc_entry ts (stamp o e))))) as [_|Hsz]; [done|].
  pose proof (maybeRotate_sizes o l) as Hr. destruct (maybeRotate o l) as [l1 [err|]] eqn:E.
  - simpl. unfold maybeRotate in E. repeat (case_match; simplify_eq/=); try done.
    intros i f Hf. apply renames_lookup in Hf as [k Hf]. by eapply Hs.
  - destruct (Hr l1 Hst Hrn Hs eq_refl) as [Hs1 Hc1]. unfold write_record. destruct (l_open l1) eqn:Eo; [|done].
    specialize (Hc1 eq_refl). unfold current_size in Hc1.
    destruct (o_write o) as [n|]; simpl; intros i f; rewrite lookup_alter_Some; intros [(<- & g & Hg & ->)|[_ Hf]];
      try (by eapply Hs1); rewrite Hg in Hc1; simpl in Hc1.
    + pose proof (size_part n (enc_entry ts (stamp o e)) g). lia.
    + rewrite size_record. lia.
Qed.
Definition torn : outcome := MkOutcome 5 true true true (λ _, true) true (Some 3) true (λ _, true).
Lemma log_bounded_witness : sizes_ok (l_files (Log torn fresh_log deploy_entry).1).
Proof.
  apply (log_bounded torn fresh_log deploy_entry);
    [reflexivity|reflexivity|].
  intros i f Hf. unfold fresh_log in Hf. cbn [l_files] in Hf. apply lookup_singleton_Some in Hf as [_ <-]. vm_compute. reflexivity.
Defined.

(** ** A torn write *)

(** a write that stops in the middle hides the next entry. Log reports the first
    failure; the next Log succeeds, but its record continues the unfinished line and
    no Read returns it. *)
Theorem torn_write_hides_next :
  let l1 := Log torn fresh_log deploy_entry in
  let l2 := Log (smooth 6) l1.1 deploy_entry in
  is_Some l1.2 ∧ l2.2 = None ∧ Read (smooth 7) l2.1 no_filter = Ok [].
Proof. vm_compute. split_and!; [by eexists|done|done]. Qed.
