(* ===== verification/Persist.v ===== *)
(** * Recording workflow outcomes (internal/cli/workflow/persist.go, internal/store/bbolt/open.go)

    What a finished run observed is written to the deployment store of its context.
    The SDK's address and coin parsers, the hash of a file and the conversion of a
    float64 to an integer are parameters; so are the files bbolt opens. A run's
    outputs are decoded JSON, so the case of a typed map of attributes does not
    arise. *)

From Stdlib Require Import Ascii.
From stdpp Require Import sorting base gmap strings pretty option numbers list.
From S2P Require Import Prelude GoStd GoJson Bolt StoreTypes StoreOps StoreExport Sync Context Workflow Steps.

(** ** Opening the store of a context (open.go) *)
Section open.
Context {Tx : Type} `{BoltOps Tx} (fresh : Tx) (migrations : list (Migration Tx)).

(** The databases on disk by path. [mkdir] and [bolt] are the failures of creating
    the directory and of opening the file. *)
Definition OpenContext (mkdir bolt : option error) (disk : gmap string Tx) (root ctxName : string) :
    gmap string Tx * result Tx :=
  let path := StoreDBPath root ctxName in
  match mkdir, bolt with
  | Some e, _ => (disk, Err (Wrapf "create store directory: %w" [] e))
  | None, Some e => (disk, Err (Wrapf "open bbolt database %s: %w" [path] e))
  | None, None =>
      match Open (default fresh (disk !! path)) with
      | (db, Ok _) =>
          match Migrate migrations db with
          | (db, Ok _) => (<[path := db]> disk, Ok db)
          | (db, r) => (<[path := db]> disk, map_err (Wrapf "migrate store %s: %w" [path]) (_ ← r; Ok db))
          end
      | (db, r) => (<[path := db]> disk, _ ← r; Ok db)
      end
  end.
End open.

(** ** Values of a run *)

(** The libraries a run's values go through. *)
Class RunValues : Type := {
  acc_address : string → option string;   (* AccAddressFromBech32(s).String() *)
  parse_coin : string → option string;    (* ParseDecCoin(s).String() *)
  sdlHash : string → option string;       (* the hash of a file that can be read *)
  float_uint64 : string → option N;       (* uint64 of a JSON number, None for a negative one *)
  float_text : string → string;           (* FormatFloat(n, 'f', -1, 64) of a JSON number *)
}.

Section values.
Context `{Floats, RunValues}.

(** [fmt.Sprint]. *)
Definition sprint (v : value) : string := match v with VJson (JStr s) => s | _ => fmt_Sprint v end.
(** A member that is there and not nil. *)
Definition member (key : string) (output : option (gmap string value)) : option value :=
  match output with
  | Some m => match m !! key with Some (VJson JNull) => None | r => r end
  | None => None
  end.

Definition workflowOutputUint64 (output : option (gmap string value)) (key : string) : result N :=
  match member key output with
  | None => failf "workflow output %q is missing" [key]
  | Some v => map_err (Wrapf "workflow output %q is not an unsigned integer: %w" [key]) (ParseUint u64_max (TrimSpace (sprint v)))
  end.

Definition workflowOutputString (r : option StepResult) (key : string) : string :=
  match r with
  | Some r => match member key (sr_Output r) with Some v => TrimSpace (sprint v) | None => "" end
  | None => ""
  end.

Definition scalarString (v : value) : string :=
  match v with
  | VJson JNull => ""
  | VJson (JStr s) => TrimSpace s
  | VJson (JNum lit) => float_text lit
  | _ => TrimSpace (fmt_Sprint v)
  end.

(** [None] is the pair of zero and false. *)
Definition asUint64 (v : option value) : option N :=
  match v with
  | None | Some (VJson JNull) => None
  | Some (VInt z) => if (z <? 0)%Z then None else Some (Z.to_N z)
  | Some (VJson (JNum lit)) => float_uint64 lit
  | Some v => match ParseUint u64_max (scalarString v) with Ok n => Some n | _ => None end
  end.
Definition uint_or_0 (v : option value) : N := default 0%N (asUint64 v).
(** [uint32(n)]. *)
Definition trunc32 (n : N) : N := (n mod 2 ^ 32)%N.

Definition normalizeCoin (raw : string) : string :=
  let raw := TrimSpace raw in
  if bool_decide (raw = "") then "" else default raw (parse_coin raw).

Definition coinString (v : option json) : string :=
  match as_map v with
  | None => ""
  | Some m =>
      let denom := match m !! "denom" with Some (JStr s) => s | _ => "" end in
      let amount := match m !! "amount" with Some j => scalarString (VJson j) | None => "" end in
      if bool_decide (amount = "") || bool_decide (denom = "") then "" else normalizeCoin (amount +:+ denom)
  end.

(** ** Reading a run *)
Definition step (state : RunState) (name : string) : option StepResult := rs_Steps state !! name.
Definition successfulStep (state : RunState) (name : string) : option StepResult :=
  match step state name with
  | Some r => if bool_decide (sr_Status r = "success") then Some r else None
  | None => None
  end.

Definition paramString (state : RunState) (name : string) : string :=
  match rs_Params state !! name with Some (VJson (JStr s)) => TrimSpace s | _ => "" end.
Definition patched (state : RunState) : bool :=
  match rs_Params state !! "patch" with Some (VJson (JBool b)) => b | _ => false end.

Definition first_nonempty (l : list string) : string := foldr (λ s r, if bool_decide (s = "") then r else s) "" l.

Definition runOwner (state : RunState) : string :=
  let v := first_nonempty ((λ name, workflowOutputString (step state name) "owner") <$>
    ["create-deployment"; "update-deployment"; "close-deployment"; "create-lease"; "select-bid"]) in
  if bool_decide (v = "") then default "" (acc_address (TrimSpace (rs_Account state))) else v.

Definition runDSeq (state : RunState) (r : StepResult) : N :=
  match workflowOutputUint64 (sr_Output r) "dseq" with
  | Ok n => if (n =? 0)%N then uint_or_0 (rs_Params state !! "dseq") else n
  | _ => uint_or_0 (rs_Params state !! "dseq")
  end.

Definition leaseField (state : RunState) (key : string) : string :=
  first_nonempty [workflowOutputString (step state "create-lease") key; workflowOutputString (step state "select-bid") key].
Definition leaseProvider (state : RunState) : string := leaseField state "provider".

(** The SDL a run used. *)
Definition sdl_source (state : RunState) : string :=
  foldl (λ path name, let source := workflowOutputString (step state name) "sdl_path" in
                      if bool_decide (source = "") then path else source)
    (paramString state "sdl-file") ["create-deployment"; "update-deployment"].
Definition applySDL (rec : DeploymentRecord) (state : RunState) : DeploymentRecord :=
  if patched state then set_d_SDLHash "" (set_d_SDLPath "" rec)
  else
    let path := sdl_source state in
    if bool_decide (path = "") then rec
    else match sdlHash path with
         | Some hash => set_d_SDLHash hash (set_d_SDLPath path rec)
         | None => set_d_SDLPath path rec
         end.

(** ** Bids *)
Record observedMetadata : Type := MkMetadata { om_attributes : option (gmap string string); om_audited : bool }.
Record observedBid : Type := MkObserved { ob_id : BidID; ob_price : string; ob_attributes : option (gmap string string); ob_audited : bool }.

Definition string_members (m : gmap string json) : gmap string string := omap (λ j, match j with JStr s => Some s | _ => None end) m.
Definition observed_entry (raw : json) : option observedMetadata :=
  match as_map (Some raw) with
  | None => None
  | Some entry =>
      match as_map (entry !! "attributes") with
      | None => None
      | Some attributes =>
          Some (MkMetadata (Some (string_members attributes)) (match entry !! "audited" with Some (JBool b) => b | _ => false end))
      end
  end.
Definition observedProviderMetadata (v : option value) : gmap string observedMetadata :=
  match v with Some (VJson j) => omap observed_entry (default ∅ (as_map (Some j))) | _ => ∅ end.

Definition observed_bid (metadata : gmap string observedMetadata) (i : json) : option observedBid :=
  match as_map (Some i) with
  | None => None
  | Some inner =>
      let inner := default inner (as_map (inner !! "bid")) in
      let id := default inner (as_map (inner !! "id")) in
      let text k := match id !! k with Some (JStr s) => s | _ => "" end in
      let num k := uint_or_0 (VJson <$> id !! k) in
      if bool_decide (text "provider" = "") then None
      else
        let m := default (MkMetadata None false) (metadata !! text "provider") in
        Some (MkObserved (MkBidID (text "owner") (num "dseq") (trunc32 (num "gseq")) (trunc32 (num "oseq")) (text "provider"))
                (coinString (inner !! "price")) (om_attributes m) (om_audited m))
  end.
Definition observedBids (state : RunState) : list observedBid :=
  match successfulStep state "wait-for-bids" with
  | None => []
  | Some r =>
      match sr_Output r with
      | None => []
      | Some output =>
          match output !! "bids" with
          | Some (VJson (JArr l)) => omap (observed_bid (observedProviderMetadata (output !! "provider_metadata"))) l
          | _ => []
          end
      end
  end.

(** ** The records *)
Definition depositAuto : string := "auto".
Definition deploy_record (state : RunState) (created : StepResult) (owner : string) (dseq : N) (now : Z) : DeploymentRecord :=
  let rec := set_d_UpdatedAt now (set_d_CreatedAt now (set_d_CreatedHeight (sr_Height created)
               (set_d_State "active" (set_d_DSeq dseq (set_d_Owner owner zero_deployment))))) in
  let rec := applySDL rec state in
  let dep := paramString state "deposit" in
  if bool_decide (dep = "") || bool_decide (dep = depositAuto) then rec else set_d_Deposit dep rec.

Definition bid_record (winner owner : string) (dseq : N) (now : Z) (b : observedBid) : BidRecord :=
  let id := ob_id b in
  let id := if bool_decide (bid_Owner id = "") then set_bid_Owner owner id else id in
  let id := if (bid_DSeq id =? 0)%N then set_bid_DSeq dseq id else id in
  let won := negb (bool_decide (winner = "")) && bool_decide (bid_Provider id = winner) in
  MkBid id (if won then "matched" else "lost") (ob_price b) (ob_attributes b) (ob_audited b) now 0.

Definition lease_record (state : RunState) (owner : string) (dseq : N) (now : Z) : LeaseRecord :=
  let num k := trunc32 (uint_or_0 (Some (VStr (leaseField state k)))) in
  MkLease (MkLeaseID owner dseq (num "gseq") (num "oseq") (leaseProvider state)) "active"
    (normalizeCoin (workflowOutputString (step state "select-bid") "price")) "" None now 0 0.

(** ** Writing them *)
Context {Tx : Type} `{BoltOps Tx}.

Definition errNoOwner : error := Sentinel "the deployment owner address could not be determined".

Definition persistWonLease (db : Tx) (state : RunState) (owner : string) (dseq : N) (now : Z) : Tx * result unit :=
  match successfulStep state "create-lease" with
  | None => (db, Ok tt)
  | Some _ =>
      if bool_decide (leaseProvider state = "")
      then (db, failf "lease result names no provider, so the lease cannot be recorded locally" [])
      else
        let lease := lease_record state owner dseq now in
        let '(db, r) := PutLease db (Some lease) in
        (db, map_err (Wrapf "record lease %s: %w" [LeaseKey (l_ID lease)]) r)
  end.

(** The loop over the bids stops at the first failure. *)
Fixpoint persist_bids (db : Tx) (bids : list BidRecord) : Tx * result unit :=
  match bids with
  | [] => (db, Ok tt)
  | b :: bids =>
      match PutBid db (Some b) with
      | (db, Ok _) => persist_bids db bids
      | (db, r) => (db, map_err (Wrapf "record bid from %s: %w" [bid_Provider (b_ID b)]) r)
      end
  end.

Definition persistDeploy (db : Tx) (state : RunState) (now : Z) : Tx * result unit :=
  match successfulStep state "create-deployment" with
  | None => (db, Ok tt)
  | Some created =>
      match workflowOutputUint64 (sr_Output created) "dseq" with
      | Ok dseq =>
          if (dseq =? 0)%N then (db, failf "deploy result carries no usable dseq, so it cannot be recorded locally" [])
          else
            let owner := runOwner state in
            if bool_decide (owner = "") then (db, Err errNoOwner)
            else
              match PutDeployment db (Some (deploy_record state created owner dseq now)) with
              | (db, Ok _) =>
                  match persist_bids db (bid_record (leaseProvider state) owner dseq now <$> observedBids state) with
                  | (db, Ok _) => persistWonLease db state owner dseq now
                  | (db, r) => (db, r)
                  end
              | (db, r) => (db, map_err (Wrapf "record deployment %d: %w" [FormatUint dseq]) r)
              end
      | _ => (db, failf "deploy result carries no usable dseq, so it cannot be recorded locally" [])
      end
  end.

Definition existingRunOwner (db : Tx) (state : RunState) (dseq : N) : result string :=
  let owner := runOwner state in
  if bool_decide (owner = "") then
    owner ← UniqueDeploymentOwner (Some db) dseq;
    if bool_decide (owner = "") then Err errNoOwner else Ok owner
  else Ok owner.

Definition update_record (state : RunState) (existing : option DeploymentRecord) (owner : string) (dseq : N) (now : Z) : DeploymentRecord :=
  let rec := default (set_d_CreatedAt now (set_d_State "active" (set_d_DSeq dseq (set_d_Owner owner zero_deployment)))) existing in
  set_d_UpdatedAt now (applySDL rec state).

Definition persistUpdate (db : Tx) (state : RunState) (now : Z) : Tx * result unit :=
  match successfulStep state "update-deployment" with
  | None => (db, Ok tt)
  | Some updated =>
      let dseq := runDSeq state updated in
      if (dseq =? 0)%N then (db, failf "update result carries no usable dseq, so it cannot be recorded locally" [])
      else match existingRunOwner db state dseq with
           | Ok owner =>
               match GetDeployment db owner dseq with
               | Ok existing =>
                   let '(db, r) := PutDeployment db (Some (update_record state existing owner dseq now)) in
                   (db, map_err (Wrapf "record deployment %d: %w" [FormatUint dseq]) r)
               | Err e => (db, Err (Wrapf "read deployment %d: %w" [FormatUint dseq] e))
               | Panic => (db, Panic)
               end
           | Err e => (db, Err e)
           | Panic => (db, Panic)
           end
  end.

Definition persistClose (db : Tx) (state : RunState) (now : Z) : Tx * result unit :=
  match successfulStep state "close-deployment" with
  | None => (db, Ok tt)
  | Some closed =>
      let dseq := runDSeq state closed in
      if (dseq =? 0)%N then (db, failf "close result carries no usable dseq, so it cannot be recorded locally" [])
      else match existingRunOwner db state dseq with
           | Ok owner =>
               let '(db, r) := MarkDeploymentClosed db owner dseq now in
               (db, map_err (Wrapf "record deployment %d close: %w" [FormatUint dseq]) r)
           | Err e => (db, Err e)
           | Panic => (db, Panic)
           end
  end.

Definition createsDeployment (name : string) : bool := bool_decide (name = "deploy") || bool_decide (name = "redeploy").

Definition persistWorkflowOutcome (db : Tx) (state : RunState) (now : Z) : Tx * result unit :=
  if createsDeployment (rs_Workflow state) then persistDeploy db state now
  else if bool_decide (rs_Workflow state = "update") then persistUpdate db state now
  else if bool_decide (rs_Workflow state = "close") then persistClose db state now
  else (db, Ok tt).

(** [recordWorkflowOutcome]: the databases afterwards, and whether a warning was
    printed. Without a context or a run nothing happens. *)
Definition recordWorkflowOutcome (fresh : Tx) (migrations : list (Migration Tx)) (mkdir bolt : option error) (quiet : bool)
    (disk : gmap string Tx) (root ctxName : string) (state : option RunState) (now : Z) : gmap string Tx * option error :=
  match state with
  | None => (disk, None)
  | Some state =>
      if bool_decide (root = "") || bool_decide (ctxName = "") then (disk, None)
      else
        let warn (e : error) := if quiet then None else Some (Wrapf "warning: the local store was not updated: %v" [] e) in
        match OpenContext fresh migrations mkdir bolt disk root ctxName with
        | (disk, Ok db) =>
            let '(db, r) := persistWorkflowOutcome db state now in
            (<[StoreDBPath root ctxName := db]> disk, match r with Err e => warn e | _ => None end)
        | (disk, Err e) => (disk, warn e)
        | (disk, Panic) => (disk, None)
        end
  end.
End values.
