(* ===== verification/PersistProps.v ===== *)
(** * Recording workflow outcomes: the specification and the properties

    A run stands for a plan, a list of store operations and possibly an error. The
    code runs the plan until an operation fails; the abstract store takes the steps
    of the operations that went through. *)

From Stdlib Require Import Ascii.
From stdpp Require Import sorting base gmap strings pretty option numbers list.
From S2P Require Import Prelude GoStd GoJson Bolt StoreTypes StoreOps StoreRep StoreSpec StoreClose StoreRun StoreProps StoreExport Sync.
From S2P Require Import Context Workflow Steps Persist.

(** ** Plans *)
Section plan.
Context {Tx : Type} `{BoltOps Tx} `{Floats, RunValues}.

(** The operations up to the first failure. *)
Fixpoint run_until (db : Tx) (ops : list op) : Tx * result unit :=
  match ops with
  | [] => (db, Ok tt)
  | o :: ops => match run_op db o with (db, Ok _) => run_until db ops | (db, r) => (db, r) end
  end.

Definition lease_plan (state : RunState) (owner : string) (dseq : N) (now : Z) : list op * option error :=
  match successfulStep state "create-lease" with
  | None => ([], None)
  | Some _ => if bool_decide (leaseProvider state = "")
              then ([], Some (Errorf "lease result names no provider, so the lease cannot be recorded locally" []))
              else ([OpPutLease (Some (lease_record state owner dseq now))], None)
  end.

Definition no_dseq (what : string) : error := Errorf (what +:+ " result carries no usable dseq, so it cannot be recorded locally") [].

Definition deploy_plan (state : RunState) (now : Z) : list op * option error :=
  match successfulStep state "create-deployment" with
  | None => ([], None)
  | Some created =>
      match workflowOutputUint64 (sr_Output created) "dseq" with
      | Ok dseq =>
          if (dseq =? 0)%N then ([], Some (no_dseq "deploy"))
          else if bool_decide (runOwner state = "") then ([], Some errNoOwner)
          else
            let owner := runOwner state in
            let '(lease, e) := lease_plan state owner dseq now in
            (OpPutDeployment (Some (deploy_record state created owner dseq now))
             :: (OpPutBid ∘ Some <$> (bid_record (leaseProvider state) owner dseq now <$> observedBids state)) ++ lease, e)
      | _ => ([], Some (no_dseq "deploy"))
      end
  end.

(** An update or a close, once the deployment is known. *)
Definition existing_plan (db : Tx) (state : RunState) (what : string) (ops : string → N → list op) : list op * option error :=
  match successfulStep state (what +:+ "-deployment") with
  | None => ([], None)
  | Some done =>
      let dseq := runDSeq state done in
      if (dseq =? 0)%N then ([], Some (no_dseq what))
      else match existingRunOwner db state dseq with
           | Ok owner => (ops owner dseq, None)
           | Err e => ([], Some e)
           | Panic => ([], None)
           end
  end.

Definition update_ops (db : Tx) (state : RunState) (now : Z) (owner : string) (dseq : N) : list op :=
  match GetDeployment db owner dseq with
  | Ok existing => [OpPutDeployment (Some (update_record state existing owner dseq now))]
  | _ => []
  end.

Definition plan (db : Tx) (state : RunState) (now : Z) : list op * option error :=
  if createsDeployment (rs_Workflow state) then deploy_plan state now
  else if bool_decide (rs_Workflow state = "update") then existing_plan db state "update" (update_ops db state now)
  else if bool_decide (rs_Workflow state = "close")
  then existing_plan db state "close" (λ owner dseq, [OpMarkDeploymentClosed owner dseq now])
  else ([], None).

(** [r] is the outcome of a plan whose operations ended with [r0]. *)
Definition reports (r0 r : result unit) (e : option error) : Prop :=
  match r0 with
  | Ok _ => r = match e with None => Ok tt | Some e => Err e end
  | Err _ => ∃ e', r = Err e'
  | Panic => r = Panic
  end.

Lemma reports_wrap (f : error → error) (r : result unit) : reports r (map_err f r) None.
Proof. destruct r as [[]| |]; simpl; eauto. Qed.

Lemma run_until_single db o : run_until db [o] = ((run_op db o).1, (run_op db o).2).
Proof. simpl. by destruct (run_op db o) as [db' [[]| |]]. Qed.

Lemma run_until_app db l l' db1 r1 :
  run_until db l = (db1, r1) →
  run_until db (l ++ l') = match r1 with Ok _ => run_until db1 l' | _ => (db1, r1) end.
Proof.
  revert db. induction l as [|o l IH]; intros db Hr; simpl in *; [by simplify_eq|].
  destruct (run_op db o) as [db2 [[]| |]]; [by apply IH|by simplify_eq..].
Qed.

Lemma persist_bids_plan bids : ∀ db db' r, persist_bids db bids = (db', r) →
  ∃ r0, run_until db (OpPutBid ∘ Some <$> bids) = (db', r0) ∧ reports r0 r None.
Proof.
  induction bids as [|b bids IH]; intros db db' r Hr; simpl in Hr; [simplify_eq; by exists (Ok tt)|].
  rewrite fmap_cons. cbn [run_until compose run_op]. destruct (PutBid db (Some b)) as [db1 [[]| |]]; [by apply IH| |].
  - simplify_eq. eexists. split; [done|]. simpl. eauto.
  - simplify_eq. by exists Panic.
Qed.

Lemma persistWonLease_plan db state owner dseq now db' r :
  persistWonLease db state owner dseq now = (db', r) →
  ∃ r0, run_until db (lease_plan state owner dseq now).1 = (db', r0) ∧ reports r0 r (lease_plan state owner dseq now).2.
Proof.
  unfold persistWonLease, lease_plan. destruct (successfulStep state "create-lease"); [|intros [= <- <-]; by exists (Ok tt)].
  case_bool_decide; [intros [= <- <-]; by exists (Ok tt)|].
  destruct (PutLease db _) as [db1 r1] eqn:E. intros [= <- <-]. exists r1. cbn [fst snd]. rewrite run_until_single. simpl.
  rewrite E. split; [done|]. apply reports_wrap.
Qed.

Lemma persistDeploy_plan db state now db' r :
  persistDeploy db state now = (db', r) →
  ∃ r0, run_until db (deploy_plan state now).1 = (db', r0) ∧ reports r0 r (deploy_plan state now).2.
Proof.
  unfold persistDeploy, deploy_plan. destruct (successfulStep state "create-deployment") as [created|];
    [|intros [= <- <-]; by exists (Ok tt)].
  destruct (workflowOutputUint64 _ _) as [dseq|e|]; [|intros [= <- <-]; by exists (Ok tt)..].
  destruct (dseq =? 0)%N; [intros [= <- <-]; by exists (Ok tt)|]. case_bool_decide; [intros [= <- <-]; by exists (Ok tt)|].
  destruct (lease_plan state (runOwner state) dseq now) as [lease e] eqn:El. cbn [fst snd run_until run_op].
  destruct (PutDeployment db _) as [db1 [[]|e1|]] eqn:Ep.
  2,3: intros [= <- <-]; eexists; (split; [done|]); simpl; eauto.
  destruct (persist_bids db1 _) as [db2 r2] eqn:Eb. apply persist_bids_plan in Eb as (r0 & Eb & Hr0).
  rewrite (run_until_app _ _ _ _ _ Eb). destruct r2 as [[]| |].
  - intros Hl. apply persistWonLease_plan in Hl as (r3 & Hl & Hr3). rewrite El in Hl, Hr3. simpl in Hl, Hr3.
    destruct r0 as [[]| |]; simpl in Hr0; [|by destruct Hr0|done]. eauto.
  - intros [= <- <-]. destruct r0 as [[]| |]; simpl in Hr0; [done| |done]. eexists. split; [done|]. simpl. eauto.
  - intros [= <- <-]. destruct r0 as [[]| |]; simpl in Hr0; [done|by destruct Hr0|]. eexists. split; [done|]. done.
Qed.
End plan.

(** ** The plan on the abstract store *)
Inductive asteps : astore → list op → astore → Prop :=
| asteps_nil A : asteps A [] A
| asteps_cons A o B l C : astep A o B → asteps B l C → asteps A (o :: l) C.

Section refine.
Context {Tx : Type} `{BoltLaws Tx} `{Floats, RunValues}.

Lemma run_until_sim ops : ∀ db A db' r,
  store_rep db A → Forall (λ o, op_ok o = true) ops → run_until db ops = (db', r) →
  ∃ done rest A', ops = done ++ rest ∧ asteps A done A' ∧ store_rep db' A' ∧ r ≠ Panic ∧ (r = Ok tt ↔ rest = []).
Proof.
  induction ops as [|o ops IH]; intros db A db' r Hr HF Hrun; simpl in Hrun.
  { simplify_eq. exists [], [], A. split_and!; [done|constructor|done|done|done]. }
  apply Forall_cons in HF as [Ho HF]. pose proof (run_op_no_panic db A o Hr Ho) as Hnp.
  destruct (run_op db o) as [db1 r1] eqn:E. simpl in Hnp. destruct r1 as [[]|e|]; [| |done].
  - destruct (run_op_sim _ _ _ _ Hr Ho E) as (B & Hs & HrB).
    destruct (IH _ _ _ _ HrB HF Hrun) as (dn & rest & A' & -> & Hst & Hr' & Hp & Hiff).
    exists (o :: dn), rest, A'. split_and!; [done|by econstructor|done|done|done].
  - simplify_eq. assert (db' = db) as -> by by eapply run_op_atomic.
    exists [], (o :: ops), A. split_and!; [done|constructor|done|done|done].
Qed.

Lemma UniqueDeploymentOwner_no_panic db A dseq : store_rep db A → UniqueDeploymentOwner (Some db) dseq ≠ Panic.
Proof.
  intros Hr. unfold UniqueDeploymentOwner. destruct (_ =? _)%N; [done|].
  change (st_ListDeployments db no_deployment_filter) with (ListDeployments db no_deployment_filter).
  rewrite (ListDeployments_rep _ _ _ Hr). cbn [map_err mbind result_bind]. by destruct (sort_strings _) as [|? [|]].
Qed.

Lemma existingRunOwner_no_panic db A state dseq : store_rep db A → existingRunOwner db state dseq ≠ Panic.
Proof.
  intros Hr. unfold existingRunOwner. case_bool_decide; [|done]. pose proof (UniqueDeploymentOwner_no_panic db A dseq Hr).
  destruct (UniqueDeploymentOwner _ _); simpl; [by case_bool_decide|done|done].
Qed.

Lemma persist_plan db A state now db' r :
  store_rep db A → persistWorkflowOutcome db state now = (db', r) →
  ∃ r0, run_until db (plan db state now).1 = (db', r0) ∧ reports r0 r (plan db state now).2.
Proof.
  intros Hr. unfold persistWorkflowOutcome, plan. destruct (createsDeployment _); [apply persistDeploy_plan|].
  case_bool_decide; [|case_bool_decide; [|intros [= <- <-]; by exists (Ok tt)]].
  - unfold persistUpdate, existing_plan. change ("update" +:+ "-deployment") with "update-deployment".
    destruct (successfulStep _ _) as [u|]; [|intros [= <- <-]; by exists (Ok tt)].
    destruct (_ =? _)%N; [intros [= <- <-]; by exists (Ok tt)|].
    pose proof (existingRunOwner_no_panic db A state (runDSeq state u) Hr).
    destruct (existingRunOwner _ _ _) as [owner| |]; [|intros [= <- <-]; by exists (Ok tt)|done].
    unfold update_ops. rewrite (GetDeployment_rep _ _ _ _ Hr). destruct (PutDeployment db _) as [db1 r1] eqn:E.
    intros [= <- <-]. exists r1. cbn [fst snd]. rewrite run_until_single. simpl. rewrite E. split; [done|]. apply reports_wrap.
  - unfold persistClose, existing_plan. change ("close" +:+ "-deployment") with "close-deployment".
    destruct (successfulStep _ _) as [u|]; [|intros [= <- <-]; by exists (Ok tt)].
    destruct (_ =? _)%N; [intros [= <- <-]; by exists (Ok tt)|].
    pose proof (existingRunOwner_no_panic db A state (runDSeq state u) Hr).
    destruct (existingRunOwner _ _ _) as [owner| |]; [|intros [= <- <-]; by exists (Ok tt)|done].
    destruct (MarkDeploymentClosed db _ _ _) as [db1 r1] eqn:E.
    intros [= <- <-]. exists r1. cbn [fst snd]. rewrite run_until_single. simpl. rewrite E. split; [done|]. apply reports_wrap.
Qed.

(** C6: recording a run refines its plan. The store takes the steps of an initial part
    of the planned operations, in order, and nothing else; the whole plan is carried
    out exactly when the operations report no error, the result is success exactly
    when there is no other error either, and there is no panic. *)
Theorem persist_refines db A state now db' r :
  store_rep db A → Forall (λ o, op_ok o = true) (plan db state now).1 →
  persistWorkflowOutcome db state now = (db', r) →
  ∃ done rest A', (plan db state now).1 = done ++ rest ∧ asteps A done A' ∧ store_rep db' A' ∧
    r ≠ Panic ∧ (r = Ok tt ↔ rest = [] ∧ (plan db state now).2 = None).
Proof.
  intros Hr HF Hp. destruct (persist_plan _ _ _ _ _ _ Hr Hp) as (r0 & Hrun & Hrep).
  destruct (run_until_sim _ _ _ _ _ Hr HF Hrun) as (dn & rest & A' & Hsplit & Hst & Hr' & Hnp & Hiff).
  exists dn, rest, A'. split_and!; [done|done|done| |].
  - destruct r0 as [[]|e|]; simpl in Hrep; [|by destruct Hrep as [? ->]|done]. subst. by destruct (plan _ _ _).2.
  - destruct r0 as [[]|e|]; simpl in Hrep; [| |done].
    + subst r. rewrite <-Hiff. destruct (plan db state now).2; naive_solver.
    + destruct Hrep as [e' ->]. rewrite <-Hiff. naive_solver.
Qed.

(** ** What a plan leaves in the store *)
Lemma asteps_app A l l' C : asteps A (l ++ l') C → ∃ B, asteps A l B ∧ asteps B l' C.
Proof.
  clear. revert A. induction l as [|o l IH]; intros A Hs; simpl in Hs; [exists A; split; [constructor|done]|].
  inversion Hs as [|? ? B ? ? Hs1 Hs2]; subst. destruct (IH _ Hs2) as (B' & Hl & Hr). exists B'. split; [by econstructor|done].
Qed.

Record bids_put (bids : list BidRecord) (A B : astore) : Prop := {
  bp_deps : a_deps B = a_deps A;
  bp_leases : a_leases B = a_leases A;
  bp_sync : a_sync B = a_sync A;
  bp_put : ∀ b, b ∈ bids → ∃ b' v, b' ∈ bids ∧ BidKey (b_ID b') = BidKey (b_ID b) ∧
    a_bids B !! BidKey (b_ID b) = Some (set_b_RecordVersion v b');
  bp_other : ∀ k, (∀ b, b ∈ bids → BidKey (b_ID b) ≠ k) → a_bids B !! k = a_bids A !! k;
}.

Lemma asteps_bids bids : ∀ A B, asteps A (OpPutBid ∘ Some <$> bids) B → bids_put bids A B.
Proof.
  clear. induction bids as [|b bids IH]; intros A B Hs.
  { inversion Hs; subst. split; try done. intros b. by rewrite elem_of_nil. }
  rewrite fmap_cons in Hs. inversion Hs as [|? ? B1 ? ? Hs1 Hs2]; subst. apply IH in Hs2 as [Hd Hl Hy Hp Ho].
  inversion Hs1 as [| |? v Hv| | | |]; subst. split.
  - by rewrite Hd.
  - by rewrite Hl.
  - by rewrite Hy.
  - intros b' [->|Hin]%elem_of_cons.
    + destruct (decide (Exists (λ x, BidKey (b_ID x) = BidKey (b_ID b)) bids)) as [He|Hne].
      * apply Exists_exists in He as (x & Hx & Hk). destruct (Hp x Hx) as (y & v' & Hy1 & Hy2 & Hy3).
        exists y, v'. split_and!; [set_solver|congruence|by rewrite <-Hk].
      * exists b, v. split_and!; [set_solver|done|]. rewrite Ho; [simpl; by rewrite lookup_insert_eq|].
        intros x Hx Hk. apply Hne, Exists_exists. eauto.
    + destruct (Hp b' Hin) as (y & v' & Hy1 & Hy2 & Hy3). exists y, v'. split_and!; [set_solver|done|done].
  - intros k Hk. rewrite Ho by (intros x Hx; apply Hk; set_solver). simpl. rewrite lookup_insert_ne; [done|]. apply Hk. set_solver.
Qed.

(** The lease of a run that made one. *)
Definition won_lease (state : RunState) (owner : string) (dseq : N) (now : Z) : option LeaseRecord :=
  (λ _, lease_record state owner dseq now) <$> successfulStep state "create-lease".

Lemma asteps_lease A l e state owner dseq now C :
  lease_plan state owner dseq now = (l, e) → e = None → asteps A l C →
  a_deps C = a_deps A ∧ a_bids C = a_bids A ∧ a_sync C = a_sync A ∧
  match won_lease state owner dseq now with
  | Some lease => ∃ v, a_leases C = <[LeaseKey (l_ID lease) := set_l_RecordVersion v lease]> (a_leases A)
  | None => a_leases C = a_leases A
  end.
Proof.
  clear. unfold lease_plan, won_lease. destruct (successfulStep _ _); simpl.
  - case_bool_decide; intros [= <- <-] He Hs; [done|]. inversion Hs as [|? ? B ? ? Hs1 Hs2]; subst. inversion Hs2; subst.
    inversion Hs1; subst. simpl. eauto.
  - intros [= <- <-] _ Hs. by inversion Hs; subst.
Qed.

(** a deploy run that is recorded is found again. The deployment it created is in
    the store with the run's SDL, deposit and height, every observed bid is there,
    matched for the provider it leased from and lost otherwise, the lease is there
    when it made one, and every other deployment and lease is untouched. *)
Theorem deploy_recorded db A state now db' created dseq :
  store_rep db A → Forall (λ o, op_ok o = true) (plan db state now).1 → createsDeployment (rs_Workflow state) = true →
  successfulStep state "create-deployment" = Some created → workflowOutputUint64 (sr_Output created) "dseq" = Ok dseq →
  persistWorkflowOutcome db state now = (db', Ok tt) →
  let owner := runOwner state in
  let rec := deploy_record state created owner dseq now in
  let bids := bid_record (leaseProvider state) owner dseq now <$> observedBids state in
  (∃ v, GetDeployment db' (d_Owner rec) (d_DSeq rec) = Ok (Some (set_d_RecordVersion v rec))) ∧
  (∀ b, b ∈ bids → ∃ b' v, b' ∈ bids ∧ BidKey (b_ID b') = BidKey (b_ID b) ∧ GetBid db' (b_ID b) = Ok (Some (set_b_RecordVersion v b'))) ∧
  (∀ o n, DeploymentKey o n ≠ DeploymentKey (d_Owner rec) (d_DSeq rec) → GetDeployment db' o n = GetDeployment db o n) ∧
  match won_lease state owner dseq now with
  | Some lease => (∃ v, GetLease db' (l_ID lease) = Ok (Some (set_l_RecordVersion v lease))) ∧
      ∀ id, LeaseKey id ≠ LeaseKey (l_ID lease) → GetLease db' id = GetLease db id
  | None => ∀ id, GetLease db' id = GetLease db id
  end.
Proof.
  intros Hr HF Hw Hc Hd Hp owner rec bids.
  destruct (persist_plan _ _ _ _ _ _ Hr Hp) as (r0 & Hrun & Hrep).
  destruct (run_until_sim _ _ _ _ _ Hr HF Hrun) as (dn & rest & C & Hsplit & Hst & Hr' & _ & Hiff).
  unfold plan in *. rewrite Hw in *. unfold deploy_plan in *. rewrite Hc, Hd in *.
  destruct (dseq =? 0)%N; [by destruct r0 as [[]| |]; simpl in Hrep; naive_solver|].
  destruct (bool_decide (runOwner state = "")); [by destruct r0 as [[]| |]; simpl in Hrep; naive_solver|].
  destruct (lease_plan state (runOwner state) dseq now) as [l e] eqn:El. cbn [fst snd] in *.
  destruct r0 as [[]| |]; simpl in Hrep; [|naive_solver..]. destruct e; [done|].
  rewrite (proj1 Hiff eq_refl), app_nil_r in Hsplit. subst dn. inversion Hst as [|? ? B1 ? ? Hs1 Hs2]; subst.
  apply asteps_app in Hs2 as (B2 & Hb & Hl). apply asteps_bids in Hb as [D1 L1 _ P1 _].
  destruct (asteps_lease _ _ _ _ _ _ _ _ El eq_refl Hl) as (D2 & B2' & _ & L2).
  inversion Hs1 as [? v Hv| | | | | |]; subst. simpl in D1, L1.
  assert (∀ o n, GetDeployment db' o n = Ok (a_deps C !! DeploymentKey o n)) as HgD by (intros; by apply GetDeployment_rep).
  assert (∀ id, GetLease db' id = Ok (a_leases C !! LeaseKey id)) as HgL by (intros; by apply GetLease_rep).
  split_and!.
  - exists v. rewrite HgD, D2, D1, lookup_insert_eq. done.
  - intros b Hb. destruct (P1 b Hb) as (b' & v' & Hb1 & Hb2 & Hb3). exists b', v'.
    rewrite (GetBid_rep _ _ _ Hr'), B2'. split_and!; [done|done|by rewrite Hb3].
  - intros o n Hne. rewrite HgD, D2, D1, (GetDeployment_rep _ _ _ _ Hr), lookup_insert_ne by done. done.
  - revert L2. unfold owner. destruct (won_lease state (runOwner state) dseq now) as [lease|]; intros L2.
    + destruct L2 as [vl L2]. split.
      * exists vl. by rewrite HgL, L2, lookup_insert_eq.
      * intros id Hne. by rewrite HgL, L2, lookup_insert_ne, L1, (GetLease_rep _ _ _ Hr) by done.
    + intros id. by rewrite HgL, L2, L1, (GetLease_rep _ _ _ Hr).
Qed.

(** ** Updates *)
Lemma applySDL_keeps d state : applySDL d state = set_d_SDLHash (d_SDLHash (applySDL d state)) (set_d_SDLPath (d_SDLPath (applySDL d state)) d).
Proof. unfold applySDL. destruct (patched state); [by destruct d|]. case_bool_decide; [by destruct d|]. destruct (sdlHash _); by destruct d. Qed.

(** An update whose SDL file can no longer be read stores the new path beside the
    hash of the old file; the hash is not emptied. *)
Theorem unreadable_sdl_keeps_hash d state path :
  patched state = false → sdl_source state = path → path ≠ "" → sdlHash path = None →
  applySDL d state = set_d_SDLPath path d ∧ d_SDLHash (applySDL d state) = d_SDLHash d.
Proof. intros Hp Hs Hne Hh. unfold applySDL. rewrite Hp, Hs, (bool_decide_eq_false_2 _ Hne), Hh. by destruct d. Qed.

(** The record an update leaves, whether the deployment was known or not. *)
Lemma update_recorded db A state now db' updated owner existing :
  store_rep db A → Forall (λ o, op_ok o = true) (plan db state now).1 → rs_Workflow state = "update" →
  successfulStep state "update-deployment" = Some updated → existingRunOwner db state (runDSeq state updated) = Ok owner →
  GetDeployment db owner (runDSeq state updated) = Ok existing →
  persistWorkflowOutcome db state now = (db', Ok tt) →
  (∃ v, GetDeployment db' owner (runDSeq state updated) =
          Ok (Some (set_d_RecordVersion v (update_record state existing owner (runDSeq state updated) now)))) ∧
  ∀ o n, DeploymentKey o n ≠ DeploymentKey owner (runDSeq state updated) → GetDeployment db' o n = GetDeployment db o n.
Proof.
  intros Hr HF Hw Hu Ho Hg Hp. destruct (persist_plan _ _ _ _ _ _ Hr Hp) as (r0 & Hrun & Hrep).
  destruct (run_until_sim _ _ _ _ _ Hr HF Hrun) as (dn & rest & C & Hsplit & Hst & Hr' & _ & Hiff).
  unfold plan, existing_plan in *. change ("update" +:+ "-deployment") with "update-deployment" in *.
  unfold createsDeployment in *. rewrite Hw in *. simpl in Hrun, Hrep, Hsplit. rewrite Hu in *.
  destruct (runDSeq state updated =? 0)%N; [by destruct r0 as [[]| |]; simpl in Hrep; naive_solver|].
  rewrite Ho in *. unfold update_ops in *. rewrite Hg in *. cbn [fst snd] in *.
  destruct r0 as [[]| |]; simpl in Hrep; [|naive_solver..].
  rewrite (proj1 Hiff eq_refl), app_nil_r in Hsplit. subst dn. inversion Hst as [|? ? B1 ? ? Hs1 Hs2]; subst.
  inversion Hs2; subst. inversion Hs1 as [? v Hv| | | | | |]; subst.
  assert (d_Owner (update_record state existing owner (runDSeq state updated) now) = owner ∧
    d_DSeq (update_record state existing owner (runDSeq state updated) now) = runDSeq state updated) as [E1 E2].
  { destruct existing as [d|]; unfold update_record; simpl.
    - rewrite (GetDeployment_rep _ _ _ _ Hr) in Hg. injection Hg as Hd.
      destruct (rep_wf_deps _ _ Hr _ _ Hd) as (_ & Hkey & _). simpl in Hkey. apply DeploymentKey_inj_pair in Hkey as [Ho' Hn'].
      rewrite (applySDL_keeps d state), <-Ho', <-Hn'. by destruct d.
    - by rewrite (applySDL_keeps _ state). }
  rewrite E1, E2 in Hr'. split.
  - exists v. rewrite (GetDeployment_rep _ _ _ _ Hr'). simpl. by rewrite lookup_insert_eq.
  - intros o n Hne. rewrite (GetDeployment_rep _ _ _ _ Hr'), (GetDeployment_rep _ _ _ _ Hr). simpl. by rewrite lookup_insert_ne.
Qed.

(** recording an update keeps what the store knew. The record of the updated
    deployment changes in its SDL identity, its time of update and its version only, a
    patched run clears the SDL identity, and no other deployment changes. *)
Theorem update_keeps_record db A state now db' updated owner d :
  store_rep db A → Forall (λ o, op_ok o = true) (plan db state now).1 → rs_Workflow state = "update" →
  successfulStep state "update-deployment" = Some updated → existingRunOwner db state (runDSeq state updated) = Ok owner →
  GetDeployment db owner (runDSeq state updated) = Ok (Some d) →
  persistWorkflowOutcome db state now = (db', Ok tt) →
  (∃ d' path hash v, GetDeployment db' owner (runDSeq state updated) = Ok (Some d') ∧
    d' = set_d_RecordVersion v (set_d_UpdatedAt now (set_d_SDLHash hash (set_d_SDLPath path d))) ∧
    (patched state = true → path = "" ∧ hash = "")) ∧
  ∀ o n, DeploymentKey o n ≠ DeploymentKey owner (runDSeq state updated) → GetDeployment db' o n = GetDeployment db o n.
Proof.
  intros Hr HF Hw Hu Ho Hg Hp. destruct (update_recorded _ _ _ _ _ _ _ _ Hr HF Hw Hu Ho Hg Hp) as [[v Hv] Hrest]. split; [|done].
  eexists _, (d_SDLPath (applySDL d state)), (d_SDLHash (applySDL d state)), v. split_and!; [exact Hv| |].
  - unfold update_record. simpl. by rewrite (applySDL_keeps d state) at 1.
  - intros Hpt. unfold applySDL. rewrite Hpt. by destruct d.
Qed.
End refine.

(** ** The properties at concrete inputs *)
#[local] Instance plain_floats : Floats := {
  float64 := Z; ParseFloat := λ s, match ParseInt64 s with Ok z => Some z | _ => None end;
  FormatFloat := FormatInt; float_lt := Z.ltb; fmt_Sprint := λ _, "";
}.
#[local] Instance plain_values : RunValues := {
  acc_address := λ _, None; parse_coin := λ _, None; sdlHash := λ path, Some ("sha256:" +:+ path);
  float_uint64 := λ s, match ParseUint u64_max s with Ok n => Some n | _ => None end; float_text := λ s, s;
}.

Definition ok_step (name : string) (output : gmap string value) : StepResult :=
  MkStepResult name "tx" "success" (Some output) None None "" 5.
Definition bid_json (provider amount : string) : json :=
  JObj [("bid", JObj [("id", JObj [("owner", JStr "akash1owner"); ("dseq", JNum "9"); ("gseq", JNum "1"); ("oseq", JNum "1"); ("provider", JStr provider)]);
                      ("price", JObj [("denom", JStr "uakt"); ("amount", JStr amount)])])].
Definition deploy_run : RunState := MkRunState "run-1" "deploy" "main"
  {["sdl-file" := VStr "app.yaml"; "deposit" := VStr "auto"]}
  {["create-deployment" := ok_step "create-deployment" {["dseq" := VStr "9"; "owner" := VStr "akash1owner"]};
    "wait-for-bids" := ok_step "wait-for-bids" {["bids" := VJson (JArr [bid_json "akash1prov" "10"; bid_json "akash1dear" "20"])]};
    "create-lease" := ok_step "create-lease" {["provider" := VStr "akash1prov"; "gseq" := VStr "1"; "oseq" := VStr "1"]}]} [].
Definition update_run : RunState := MkRunState "run-2" "update" "main"
  {["dseq" := VStr "7"; "sdl-file" := VStr "new.yaml"]}
  {["update-deployment" := ok_step "update-deployment" {["owner" := VStr "akash1owner"]}]} [].

Lemma all_ok (l : list op) : forallb op_ok l = true → Forall (λ o, op_ok o = true) l.
Proof. intros Hl. apply Forall_forall. intros o Ho. rewrite forallb_forall in Hl. apply Hl. by apply list_elem_of_In. Qed.

Lemma pair_ok {T} (p : T * result unit) : p.2 = Ok tt → p = (p.1, Ok tt).
Proof. destruct p. by intros [= ->]. Qed.

Definition recorded : buckets := (persistWorkflowOutcome demo_db deploy_run 1700000000).1.
Lemma recorded_ok : persistWorkflowOutcome demo_db deploy_run 1700000000 = (recorded, Ok tt).
Proof. apply pair_ok. vm_compute. reflexivity. Qed.

Lemma persist_refines_witness : ∃ done rest A', (plan demo_db deploy_run 1700000000).1 = done ++ rest ∧
  asteps demo_astore done A' ∧ store_rep recorded A' ∧ (Ok tt : result unit) ≠ Panic ∧
  (Ok tt = Ok tt ↔ rest = [] ∧ (plan demo_db deploy_run 1700000000).2 = None).
Proof.
  apply (persist_refines demo_db demo_astore deploy_run 1700000000 recorded (Ok tt));
    [exact demo_rep|apply all_ok; vm_compute; reflexivity|exact recorded_ok].
Defined.

Definition created_step : StepResult := ok_step "create-deployment" {["dseq" := VStr "9"; "owner" := VStr "akash1owner"]}.
Definition deployed : DeploymentRecord := deploy_record deploy_run created_step (runOwner deploy_run) 9 1700000000.
Lemma deploy_recorded_witness : ∃ v, GetDeployment recorded (d_Owner deployed) (d_DSeq deployed) = Ok (Some (set_d_RecordVersion v deployed)).
Proof.
  refine (proj1 (deploy_recorded demo_db demo_astore deploy_run 1700000000 recorded created_step 9 demo_rep _ _ _ _ recorded_ok)).
  - apply all_ok. vm_compute. reflexivity.
  - vm_compute. reflexivity.
  - vm_compute. reflexivity.
  - vm_compute. reflexivity.
Defined.

Definition updated_db : buckets := (persistWorkflowOutcome demo_db update_run 1700000000).1.
Lemma update_run_ok : persistWorkflowOutcome demo_db update_run 1700000000 = (updated_db, Ok tt).
Proof. apply pair_ok. vm_compute. reflexivity. Qed.

Definition updated_step : StepResult := ok_step "update-deployment" {["owner" := VStr "akash1owner"]}.
Lemma update_keeps_record_witness : ∃ d' path hash v,
  GetDeployment updated_db "akash1owner" (runDSeq update_run updated_step) = Ok (Some d') ∧
  d' = set_d_RecordVersion v (set_d_UpdatedAt 1700000000 (set_d_SDLHash hash (set_d_SDLPath path (set_d_RecordVersion 1 demo_deployment)))) ∧
  (patched update_run = true → path = "" ∧ hash = "").
Proof.
  refine (proj1 (update_keeps_record demo_db demo_astore update_run 1700000000 updated_db updated_step "akash1owner"
    (set_d_RecordVersion 1 demo_deployment) demo_rep _ _ _ _ _ update_run_ok)).
  - apply all_ok. vm_compute. reflexivity.
  - reflexivity.
  - vm_compute. reflexivity.
  - vm_compute. reflexivity.
  - vm_compute. reflexivity.
Defined.
