(* ===== verification/GoText.v ===== *)
(** * strings, as far as the command line and the Console client use it

    Prefixes, splitting, replacement and case, on the bytes of a string. *)

From Stdlib Require Import Ascii.
From stdpp Require Import sorting base gmap strings pretty option numbers list.
From S2P Require Import Prelude GoStd GoJson Context.

(** ** Prefixes and suffixes *)
Definition HasPrefix (s p : string) : bool := bool_decide (is_Some (strip_prefix (bytes_of p) (bytes_of s))).
Definition HasSuffix (s p : string) : bool := bool_decide (is_Some (strip_prefix (reverse (bytes_of p)) (reverse (bytes_of s)))).

Lemma strip_prefix_Some p l l' : strip_prefix p l = Some l' ↔ l = p ++ l'.
Proof.
  revert l; induction p as [|a p IH]; intros [|b l]; simpl; [naive_solver..|].
  case_bool_decide; subst; [rewrite IH; naive_solver|naive_solver].
Qed.
Lemma HasPrefix_iff s p : HasPrefix s p = true ↔ ∃ l, bytes_of s = bytes_of p ++ l.
Proof. unfold HasPrefix. rewrite bool_decide_eq_true. split; intros [l Hl]; exists l; by apply strip_prefix_Some. Qed.
Lemma HasPrefix_app p s : HasPrefix (p +:+ s) p = true.
Proof. apply HasPrefix_iff. exists (bytes_of s). apply bytes_of_app. Qed.
(** Two prefixes of one string. *)
Lemma HasPrefix_both s p q : HasPrefix s p = true → HasPrefix s q = true → HasPrefix p q = true ∨ HasPrefix q p = true.
Proof.
  rewrite !HasPrefix_iff. intros [l Hl] [k Hk]. rewrite Hl in Hk.
  apply app_eq_inv in Hk as [(m&->&->)|(m&->&->)]; [left|right]; by exists m.
Qed.

(** ** Splitting: [strings.Split] with a one-byte separator *)
Fixpoint split_on (sep : ascii) (l : list ascii) : list string :=
  match l with
  | [] => [EmptyString]
  | c :: l =>
      if bool_decide (c = sep) then EmptyString :: split_on sep l
      else match split_on sep l with
           | s :: rest => String c s :: rest
           | [] => [String c EmptyString]
           end
  end.

(** ** Case *)
Definition lower_byte (c : ascii) : ascii :=
  let n := N_of_ascii c in if ((65 <=? n) && (n <=? 90))%N then ascii_of_N (n + 32) else c.
(** [strings.ToLower] as far as a comparison with ASCII text sees it: the letters
    whose lower case is an ASCII letter are A to Z, the dotted capital I and the
    Kelvin sign. *)
Fixpoint lower (l : list ascii) : list ascii :=
  match l with
  | [] => []
  | c1 :: t1 =>
      match t1 with
      | c2 :: t2 =>
          if bool_decide (N_of_ascii c1 = 196 ∧ N_of_ascii c2 = 176)%N then "i"%char :: lower t2
          else match t2 with
               | c3 :: t3 => if bool_decide (N_of_ascii c1 = 226 ∧ N_of_ascii c2 = 132 ∧ N_of_ascii c3 = 170)%N
                             then "k"%char :: lower t3 else lower_byte c1 :: lower t1
               | [] => lower_byte c1 :: lower t1
               end
      | [] => lower_byte c1 :: lower t1
      end
  end.
Definition ToLower (s : string) : string := of_bytes (lower (bytes_of s)).
(** [strings.EqualFold] with an ASCII word. *)
Definition EqualFold (s t : string) : bool := name_folds_to s t.

(** ** Replacement: [strings.ReplaceAll] of a string that is not empty *)
Definition is_prefix (p l : list ascii) : bool := bool_decide (p `prefix_of` l).
Fixpoint replace_from (skip : nat) (old new l : list ascii) : list ascii :=
  match l with
  | [] => []
  | c :: t =>
      match skip with
      | S k => replace_from k old new t
      | O => if is_prefix old l then new ++ replace_from (length old - 1) old new t else c :: replace_from 0 old new t
      end
  end.
Definition ReplaceAll (s old new : string) : string := of_bytes (replace_from 0 (bytes_of old) (bytes_of new) (bytes_of s)).

(** [k] is a contiguous part of [l]. *)
Definition occurs (k l : list ascii) : Prop := ∃ x y, l = x ++ k ++ y.

Lemma replace_skip k old new l : replace_from k old new l = replace_from 0 old new (drop k l).
Proof. revert k; induction l as [|c l IH]; intros [|k]; simpl; [done..|]. by rewrite IH. Qed.

Lemma replace_at old new l : old ≠ [] → replace_from 0 old new (old ++ l) = new ++ replace_from 0 old new l.
Proof.
  intros Hne. destruct old as [|a old]; [done|]. cbn [replace_from app].
  unfold is_prefix. rewrite bool_decide_eq_true_2 by by exists l.
  rewrite replace_skip. simpl. by rewrite Nat.sub_0_r, drop_app_length.
Qed.

(** An occurrence does not reach over a byte the text does not hold. *)
Lemma occurs_split k c l1 l2 : k ≠ [] → c ∉ k → occurs k (l1 ++ c :: l2) → occurs k l1 ∨ occurs k l2.
Proof.
  intros Hne Hc (x&y&He). apply app_eq_inv in He as [(z&->&He)|(z&->&He)].
  - apply app_eq_inv in He as [(z'&->&He)|(z'&->&He)]; [|left; by exists x, z'].
    destruct z' as [|c' z']; [left; exists x, []; by rewrite !app_nil_r|].
    exfalso. simplify_list_eq. apply Hc. set_solver.
  - destruct z as [|c' z]; simplify_list_eq; [|right; by exists z, y].
    destruct k; [done|]. simplify_list_eq. exfalso. apply Hc. set_solver.
Qed.

(** Replacing leaves no occurrence, as long as the replacement brings none: it is
    bracketed by bytes the text does not hold, with nothing of it between them. *)
Lemma replace_removes k a b mid l : k ≠ [] → a ∉ k → b ∉ k → ¬ occurs k mid →
  ¬ occurs k (replace_from 0 k (a :: mid ++ [b]) l).
Proof.
  intros Hne Ha Hb Hmid.
  assert (∀ n pre l, length l ≤ n → (∀ x y, pre ++ l = x ++ k ++ y → length pre ≤ length x) →
    ¬ occurs k (pre ++ replace_from 0 k (a :: mid ++ [b]) l)) as Hgen.
  { induction n as [|n IH]; intros pre l' Hlen Hpre Hocc.
    - destruct l' as [|]; [|simpl in Hlen; lia]. simpl in Hocc. rewrite app_nil_r in Hocc. destruct Hocc as (x&y&->).
      specialize (Hpre x y). rewrite app_nil_r, !length_app in Hpre. specialize (Hpre eq_refl). destruct k; [done|]. simpl in Hpre. lia.
    - destruct (decide (k `prefix_of` l')) as [[rest ->]|Hnp].
      + rewrite replace_at in Hocc by done. rewrite <-app_comm_cons in Hocc. apply occurs_split in Hocc as [Hocc|Hocc]; [| |done..].
        * destruct Hocc as (x&y&->). specialize (Hpre x (y ++ k ++ rest)). rewrite <-!app_assoc in Hpre. specialize (Hpre eq_refl).
          rewrite !length_app in Hpre. destruct k; [done|]. simpl in Hpre. lia.
        * rewrite <-app_assoc in Hocc. simpl in Hocc. apply occurs_split in Hocc as [Hocc|Hocc]; [done| |done..].
          apply (IH [] rest); [|intros; simpl; lia|done]. rewrite length_app in Hlen. destruct k; [done|]. simpl in Hlen. lia.
      + destruct l' as [|c t].
        { simpl in Hocc. rewrite app_nil_r in Hocc. destruct Hocc as (x&y&->).
          specialize (Hpre x y). rewrite app_nil_r, !length_app in Hpre. specialize (Hpre eq_refl). destruct k; [done|]. simpl in Hpre. lia. }
        simpl in Hocc. unfold is_prefix in Hocc. rewrite (bool_decide_eq_false_2 _ Hnp), (cons_middle c) in Hocc.
        rewrite (app_assoc pre [c]) in Hocc. apply (IH (pre ++ [c]) t) in Hocc; [done|simpl in Hlen; lia|].
        intros x y He. rewrite <-app_assoc in He. simpl in He. specialize (Hpre x y He).
        rewrite length_app. simpl. destruct (decide (length x = length pre)) as [Heq|]; [|lia].
        apply app_inj_1 in He as [_ He]; [|lia]. exfalso. apply Hnp. by exists y. }
  apply (Hgen (length l) [] l); [done|]. intros; simpl; lia.
Qed.

(** * State and errors

    The small monad of code that threads a state through calls that can fail: a call
    takes a state and gives the next one with a result. An error does not undo what
    was done before it. *)

Definition stateR (S A : Type) : Type := S → S * result A.
#[global] Instance stateR_ret S : MRet (stateR S) := λ A a s, (s, Ok a).
#[global] Instance stateR_bind S : MBind (stateR S) := λ A B f m s,
  match m s with (s, Ok a) => f a s | (s, Err e) => (s, Err e) | (s, Panic) => (s, Panic) end.

Definition lift {S A} (r : result A) : stateR S A := λ s, (s, r).
Definition fail {S A} (e : error) : stateR S A := lift (Err e).
(** [if err := ...; err != nil { return err }]. *)
Definition check {S} (r : option error) : stateR S unit := match r with Some e => fail e | None => mret tt end.
(** The error as a value, where the code looks at it. *)
Definition attempt {S A} (m : stateR S A) : stateR S (result A) := λ s,
  match m s with (s, Panic) => (s, Panic) | (s, r) => (s, Ok r) end.
(** Read the state. *)
Definition gets {S A} (f : S → A) : stateR S A := λ s, (s, Ok (f s)).

(** ** Reading a call backwards *)
Lemma bind_Ok {S A B} (m : stateR S A) (f : A → stateR S B) s s' b :
  (m ≫= f) s = (s', Ok b) → ∃ s1 a, m s = (s1, Ok a) ∧ f a s1 = (s', Ok b).
Proof. unfold mbind, stateR_bind. destruct (m s) as [s1 [a|e|]]; [|done..]. by exists s1, a. Qed.
Lemma attempt_Ok {S A} (m : stateR S A) s s' r : attempt m s = (s', Ok r) → m s = (s', r).
Proof. unfold attempt. destruct (m s) as [s1 [a|e|]]; naive_solver. Qed.
Lemma lift_Ok {S A} (r : result A) (s s' : S) a : lift r s = (s', Ok a) → s' = s ∧ r = Ok a.
Proof. unfold lift. naive_solver. Qed.
Lemma gets_Ok {S A} (f : S → A) s s' a : gets f s = (s', Ok a) → s' = s ∧ a = f s.
Proof. unfold gets. naive_solver. Qed.
