(* ===== verification/Capability.v ===== *)
(** * What a command may run with (internal/capability/capability.go, internal/cli/gating.go, internal/cli/root.go)

    The capabilities a context's configuration gives, the requirement a command
    carries as an annotation, the help listing with unavailable commands marked, the
    refusal of a command whose requirement is not met, and the three predicates that
    decide what startup does before a command runs.

    A command is its name, its annotation and its help; a command line runs the
    command at the end of a path from the root. Flags are their parsed values. *)

From Stdlib Require Import Ascii.
From stdpp Require Import sorting base gmap strings pretty option numbers list.
From S2P Require Import Prelude GoStd Context GoText.

(** ** Capabilities (capability.go) *)
Definition ChainQuery : string := "chain-query".
Definition ChainTx : string := "chain-tx".
Definition Console : string := "console".
Definition Provider : string := "provider".

Record CapSet : Type := MkCapSet { set_ChainQuery : bool; set_ChainTx : bool; set_Console : bool; set_Provider : bool }.
#[global] Instance CapSet_eq_dec : EqDecision CapSet.
Proof. solve_decision. Defined.

Definition resolve_caps (rc : option Context_) : CapSet :=
  match rc with
  | None => MkCapSet false false false false
  | Some rc =>
      let hasRPC := (0 <? length (RPC (net_Endpoints (ctx_Network rc))))%nat in
      let hasKeyring := negb (bool_decide (TrimSpace (kr_Name (ctx_Keyring rc)) = "")) in
      let hasConsoleKey := negb (bool_decide (ctx_ConsoleAPIKey rc = "")) in
      MkCapSet hasRPC (hasRPC && hasKeyring) hasConsoleKey hasRPC
  end.

Definition Has (s : CapSet) (c : string) : bool :=
  if bool_decide (c = ChainQuery) then set_ChainQuery s
  else if bool_decide (c = ChainTx) then set_ChainTx s
  else if bool_decide (c = Console) then set_Console s
  else if bool_decide (c = Provider) then set_Provider s
  else true.

(** The alternatives of a requirement. *)
Definition alternatives (requirement : string) : list string := TrimSpace <$> split_on "|" (bytes_of requirement).

Definition Satisfies (s : CapSet) (requirement : string) : bool :=
  let requirement := TrimSpace requirement in
  bool_decide (requirement = "") || existsb (Has s) (alternatives requirement).

Definition capabilityRemedy (c : string) : option string :=
  if bool_decide (c = ChainQuery ∨ c = Provider) then
    Some "add an RPC endpoint to the context's network (akt context network edit <network> --rpc <url>)"
  else if bool_decide (c = ChainTx) then
    Some "configure a keyring and an RPC endpoint on the context (akt context edit <context> --keyring <keyring>)"
  else if bool_decide (c = Console) then
    Some "configure a Console API key (akt console login, or akt context edit <context> --console-api-key <key>)"
  else None.

(** The alternatives that have a remedy, as they are printed. *)
Definition want (c : string) : option string := (λ remedy, c +:+ " (" +:+ remedy +:+ ")") <$> capabilityRemedy c.

(** An explanation: the alternatives, or the requirement quoted when none is known. *)
Inductive explanation : Type :=
| Wants (l : list string)
| Quoted (requirement : string).
#[global] Instance explanation_eq_dec : EqDecision explanation.
Proof. solve_decision. Defined.

Definition Explain (requirement : string) : explanation :=
  match omap want (alternatives requirement) with
  | [] => Quoted requirement
  | wants => Wants wants
  end.
(** Its text; [quote] is the verb [%q]. *)
Definition explain_text (quote : string → string) (e : explanation) : string :=
  match e with
  | Wants l => "requires " +:+ strings_Join l ", or "
  | Quoted requirement => "requires " +:+ quote requirement
  end.

Inductive Mode : Type := ModeDim | ModeHide | ModeOff.
#[global] Instance Mode_eq_dec : EqDecision Mode.
Proof. solve_decision. Defined.

Definition ParseMode (s : string) : Mode :=
  let s := ToLower (TrimSpace s) in
  if bool_decide (s = "hide") then ModeHide else if bool_decide (s = "off") then ModeOff else ModeDim.

(** ** Commands *)
(** [req] is the annotation, empty when there is none. *)
Inductive Command : Type := Cmd (name req short : string) (hidden : bool) (subs : list Command).
Definition cmd_Name (c : Command) : string := let 'Cmd n _ _ _ _ := c in n.
Definition cmd_Req (c : Command) : string := let 'Cmd _ r _ _ _ := c in r.
Definition cmd_Short (c : Command) : string := let 'Cmd _ _ s _ _ := c in s.
Definition cmd_Hidden (c : Command) : bool := let 'Cmd _ _ _ h _ := c in h.
Definition cmd_Commands (c : Command) : list Command := let 'Cmd _ _ _ _ l := c in l.

(** The command a path of positions leads to, followed by its parents up to the
    root. *)
Fixpoint lineage (root : Command) (path : list nat) (above : list Command) : option (list Command) :=
  match path with
  | [] => Some (root :: above)
  | i :: path => sub ← cmd_Commands root !! i; lineage sub path (root :: above)
  end.

(** The names from the root, with a space between. *)
Definition CommandPath (line : list Command) : string := strings_Join (reverse (cmd_Name <$> line)) " ".

(** ** The help listing (gating.go) *)
Definition unavailable : string := "[unavailable] ".
Definition unmet (s : CapSet) (c : Command) : bool := negb (bool_decide (cmd_Req c = "")) && negb (Satisfies s (cmd_Req c)).
Definition mark (mode : Mode) (s : CapSet) (c : Command) : string * bool :=
  if unmet s c then
    match mode with
    | ModeHide => (cmd_Short c, true)
    | _ => (if HasPrefix (cmd_Short c) unavailable then cmd_Short c else unavailable +:+ cmd_Short c, cmd_Hidden c)
    end
  else (cmd_Short c, cmd_Hidden c).
Fixpoint walk (mode : Mode) (s : CapSet) (c : Command) : Command :=
  let 'Cmd name req _ _ subs := c in Cmd name req (mark mode s c).1 (mark mode s c).2 (List.map (walk mode s) subs).
Definition applyCapabilityGating (root : Command) (s : CapSet) (mode : Mode) : Command :=
  match mode with ModeOff => root | _ => walk mode s root end.

(** ** Overrides of one invocation (gating.go) *)
Definition grantChain (s : CapSet) : CapSet := MkCapSet true true (set_Console s) true.
Definition grantConsole (s : CapSet) : CapSet := MkCapSet (set_ChainQuery s) (set_ChainTx s) true (set_Provider s).

(** An argument that is the flag or sets it. *)
Definition is_flag (flag a : string) : bool := bool_decide (a = flag) || HasPrefix a (flag +:+ "=").

Fixpoint scan_argv (s : CapSet) (argv : list string) : CapSet :=
  match argv with
  | [] => s
  | a :: argv =>
      if bool_decide (a = "--") then s
      else if is_flag "--node" a then scan_argv (grantChain s) argv
      else if is_flag "--console-api-key" a then scan_argv (grantConsole s) argv
      else scan_argv s argv
  end.

(** [line] is [None] for a nil command; [env_key] is the value of the variable. *)
Definition invocationCapabilities (env_key : string) (s : CapSet) (line : option (list Command)) (argv posArgs : list string) : CapSet :=
  let s := scan_argv s argv in
  let s := if bool_decide (env_key = "") then s else grantConsole s in
  match line with
  | Some line => if HasPrefix (CommandPath line) "akt monitor" && (0 <? length posArgs)%nat then grantChain s else s
  | None => s
  end.

Definition unavailable_format : string := "%s is unavailable with the current context configuration: %s".
Fixpoint requirementError (quote : string → string) (line : list Command) (s : CapSet) : option error :=
  match line with
  | [] => None
  | c :: parents =>
      if bool_decide (cmd_Req c = "") || Satisfies s (cmd_Req c) then requirementError quote parents s
      else Some (Errorf unavailable_format [CommandPath line; explain_text quote (Explain (cmd_Req c))])
  end.

(** ** Before a command runs (root.go) *)
Fixpoint helpRequested (args : list string) : bool :=
  match args with
  | [] => false
  | a :: args => if bool_decide (a = "--") then false
                 else bool_decide (a = "--help" ∨ a = "-h") || HasPrefix a "--help=" || helpRequested args
  end.

Definition isHelpInvocation (line : list Command) (args : list string) : bool :=
  match line with
  | c :: _ => bool_decide (cmd_Name c = "help") || helpRequested args
  | [] => helpRequested args
  end.

Definition requiresConfig (path : string) : bool :=
  if HasPrefix path "akt version" then false
  else if HasPrefix path "akt completion" then false
  else if HasPrefix path "akt monitor" then false
  else if HasPrefix path "akt mcp" then false
  else if HasPrefix path "akt sdl" then false
  else if bool_decide (path = "akt context create" ∨ path = "akt context network create") then false
  else true.

Definition requiresContext (path : string) : bool :=
  if bool_decide (path = "akt") then false
  else if HasPrefix path "akt context" then false
  else if HasPrefix path "akt version" then false
  else if HasPrefix path "akt monitor" then false
  else if HasPrefix path "akt completion" then false
  else if HasPrefix path "akt sdl" then false
  else if HasPrefix path "akt console" then false
  else if HasPrefix path "akt mcp" then false
  else true.

Inductive LocalIdentityMode : Type := LocalIdentityNone | LocalIdentityOnDemand | LocalIdentityRequired.
#[global] Instance LocalIdentityMode_eq_dec : EqDecision LocalIdentityMode.
Proof. solve_decision. Defined.

(** The flags of the command that are declared, with their values when they are
    booleans. *)
Definition boolFlag (flags : gmap string (option bool)) (name : string) : bool :=
  match flags !! name with Some (Some b) => b | _ => false end.

Definition localIdentityMode (flags : gmap string (option bool)) (path req : string) : LocalIdentityMode :=
  if bool_decide (path = "akt") then LocalIdentityNone
  else if HasPrefix path "akt sdl" then LocalIdentityNone
  else if HasPrefix path "akt monitor" then LocalIdentityNone
  else if HasPrefix path "akt version" || HasPrefix path "akt completion" then LocalIdentityNone
  else if HasPrefix path "akt context" then LocalIdentityNone
  else if bool_decide (path = "akt store sync") then LocalIdentityOnDemand
  else if HasPrefix path "akt store" then LocalIdentityNone
  else if HasPrefix path "akt console" then LocalIdentityNone
  else if HasPrefix path "akt query" then LocalIdentityOnDemand
  else if bool_decide (req = ChainTx +:+ "|" +:+ Console) then LocalIdentityOnDemand
  else if HasPrefix path "akt faucet" then LocalIdentityOnDemand
  else if bool_decide (path = "akt provider status") then LocalIdentityNone
  else if HasPrefix path "akt provider" then
    if boolFlag flags "dry-run" then LocalIdentityOnDemand else LocalIdentityRequired
  else if HasPrefix path "akt mcp" then LocalIdentityOnDemand
  else if HasPrefix path "akt tx" then
    if boolFlag flags "generate-only" || boolFlag flags "dry-run" then LocalIdentityOnDemand else LocalIdentityRequired
  else if boolFlag flags "dry-run" then LocalIdentityNone
  else LocalIdentityRequired.

(** [viper] is the value of defaults.command-gating there, [configured] the one of
    the loaded configuration. *)
Definition gatingMode (viper configured : string) : string := if bool_decide (viper = "") then configured else viper.

(** The gate of a command whose context [rc] was resolved: the tree the help shows
    and the refusal. *)
Definition gate (quote : string → string) (env_key : string) (root : Command) (path : list nat) (argv posArgs : list string)
    (rc : Context_) (mode : Mode) : Command * option error :=
  match lineage root path [] with
  | Some line =>
      let s := invocationCapabilities env_key (resolve_caps (Some rc)) (Some line) argv posArgs in
      (applyCapabilityGating root s mode,
       if negb (bool_decide (mode = ModeOff)) && negb (isHelpInvocation line argv) then requirementError quote line s else None)
  | None => (root, None)
  end.

(** * What the gate refuses and what the help shows (internal/capability, internal/cli/gating.go, internal/cli/root.go)

    A reference definition of when a command is refused, in terms of the context and
    the command line; the agreement of the help listing with the refusal; and how
    the startup predicates of root.go relate. *)

(** ** Reference definitions *)

(** The arguments the scan looks at. *)
Fixpoint before_dashes (argv : list string) : list string :=
  match argv with
  | [] => []
  | a :: argv => if bool_decide (a = "--") then [] else a :: before_dashes argv
  end.

Section reference.
Context (env_key : string) (line : list Command) (argv posArgs : list string) (rc : Context_).

(** The invocation brings its own endpoint, its own Console key. *)
Definition own_endpoint : Prop :=
  (∃ a, a ∈ before_dashes argv ∧ is_flag "--node" a = true) ∨ (HasPrefix (CommandPath line) "akt monitor" = true ∧ posArgs ≠ []).
Definition own_key : Prop :=
  (∃ a, a ∈ before_dashes argv ∧ is_flag "--console-api-key" a = true) ∨ env_key ≠ "".

Definition no_rpc : Prop := RPC (net_Endpoints (ctx_Network rc)) = [].
Definition no_keyring : Prop := TrimSpace (kr_Name (ctx_Keyring rc)) = "".

(** Neither the context nor the invocation provides the capability. *)
Definition lacking (c : string) : Prop :=
  ((c = ChainQuery ∨ c = Provider) ∧ no_rpc ∧ ¬ own_endpoint) ∨
  (c = ChainTx ∧ (no_rpc ∨ no_keyring) ∧ ¬ own_endpoint) ∨
  (c = Console ∧ ctx_ConsoleAPIKey rc = "" ∧ ¬ own_key).
Definition blocked (c : Command) : Prop := TrimSpace (cmd_Req c) ≠ "" ∧ Forall lacking (alternatives (TrimSpace (cmd_Req c))).
End reference.

(** The line of text an unmet alternative gets. *)
Definition remedy_line (c : string) : string := default "" (want c).

(** What a listed command looks like when it is unavailable. *)
Definition marked (mode : Mode) (c : Command) : bool :=
  match mode with ModeHide => cmd_Hidden c | _ => HasPrefix (cmd_Short c) unavailable end.

(** ** Capabilities *)
Lemma Has_false s c : Has s c = false ↔
  (c = ChainQuery ∧ set_ChainQuery s = false) ∨ (c = ChainTx ∧ set_ChainTx s = false) ∨
  (c = Console ∧ set_Console s = false) ∨ (c = Provider ∧ set_Provider s = false).
Proof. unfold Has. repeat case_bool_decide; subst; split; intros; destruct_or?; destruct_and?; try done; naive_solver. Qed.

Lemma Satisfies_false s req : Satisfies s req = false ↔ TrimSpace req ≠ "" ∧ Forall (λ a, Has s a = false) (alternatives (TrimSpace req)).
Proof.
  unfold Satisfies. cbv zeta. rewrite orb_false_iff, bool_decide_eq_false. apply and_iff_compat_l.
  induction (alternatives (TrimSpace req)) as [|a l IH]; simpl; [by split|].
  rewrite orb_false_iff, IH, Forall_cons. done.
Qed.

(** A capability that can be lacking is one with a remedy. *)
Lemma want_lacking s c : Has s c = false → is_Some (want c).
Proof. intros [[-> _]|[[-> _]|[[-> _]|[-> _]]]]%Has_false; vm_compute; eauto. Qed.

Lemma Explain_unmet s req : TrimSpace req = req → Satisfies s req = false → Explain req = Wants (remedy_line <$> alternatives req).
Proof.
  intros Ht [Hne Hall]%Satisfies_false. rewrite Ht in *. unfold Explain.
  assert (omap want (alternatives req) = remedy_line <$> alternatives req) as ->.
  { clear Hne. revert Hall. generalize (alternatives req). intros l Hl.
    induction Hl as [|a l Ha _ IH]; [done|]. simpl. destruct (want_lacking _ _ Ha) as [w Hw].
    rewrite Hw. unfold remedy_line at 1. rewrite Hw. simpl. by f_equal. }
  assert (alternatives req ≠ []) as Hsome.
  { unfold alternatives. destruct (bytes_of req) as [|c l]; simpl; [done|]. case_bool_decide; [done|]. by destruct (split_on "|" l). }
  by destruct (alternatives req).
Qed.

(** ** Overrides *)
Lemma scan_argv_spec s argv :
  let node := existsb (is_flag "--node") (before_dashes argv) in
  let key := existsb (is_flag "--console-api-key") (before_dashes argv) in
  scan_argv s argv = MkCapSet (set_ChainQuery s || node) (set_ChainTx s || node) (set_Console s || key) (set_Provider s || node).
Proof.
  cbv zeta. revert s; induction argv as [|a argv IH]; intros s; simpl.
  { rewrite !orb_false_r. by destruct s. }
  case_bool_decide; simpl; [rewrite !orb_false_r; by destruct s|].
  destruct (is_flag "--node" a) eqn:E.
  - assert (is_flag "--console-api-key" a = false) as ->.
    { apply not_true_iff_false. intros E'. unfold is_flag in E, E'.
      apply orb_true_iff in E as [->%bool_decide_eq_true|H1]; [by vm_compute in E'|].
      apply orb_true_iff in E' as [->%bool_decide_eq_true|H2]; [by vm_compute in H1|].
      by destruct (HasPrefix_both _ _ _ H1 H2) as [Hb|Hb]; vm_compute in Hb. }
    rewrite IH. simpl. by rewrite !orb_true_r.
  - destruct (is_flag "--console-api-key" a); rewrite IH; simpl; by rewrite ?orb_true_r.
Qed.

Lemma existsb_elem {A} (f : A → bool) l : existsb f l = false ↔ ¬ ∃ a, a ∈ l ∧ f a = true.
Proof. rewrite <-not_true_iff_false, existsb_exists. by setoid_rewrite list_elem_of_In. Qed.

(** The capabilities of an invocation, field by field. *)
Lemma caps_of_invocation env_key line argv posArgs rc :
  let s := invocationCapabilities env_key (resolve_caps (Some rc)) (Some line) argv posArgs in
  let own := existsb (is_flag "--node") (before_dashes argv) || (HasPrefix (CommandPath line) "akt monitor" && (0 <? length posArgs)%nat) in
  let key := existsb (is_flag "--console-api-key") (before_dashes argv) || negb (bool_decide (env_key = "")) in
  s = MkCapSet (set_ChainQuery (resolve_caps (Some rc)) || own) (set_ChainTx (resolve_caps (Some rc)) || own)
        (set_Console (resolve_caps (Some rc)) || key) (set_Provider (resolve_caps (Some rc)) || own).
Proof.
  cbv zeta. unfold invocationCapabilities. cbv zeta. rewrite scan_argv_spec. generalize (resolve_caps (Some rc)). intros s.
  case_bool_decide; simpl; destruct (HasPrefix _ _ && _); unfold grantChain, grantConsole; simpl; by rewrite ?orb_true_r, ?orb_false_r.
Qed.

Lemma own_endpoint_iff line argv posArgs :
  existsb (is_flag "--node") (before_dashes argv) || (HasPrefix (CommandPath line) "akt monitor" && (0 <? length posArgs)%nat) = false ↔
  ¬ own_endpoint line argv posArgs.
Proof.
  unfold own_endpoint. rewrite orb_false_iff, existsb_elem, andb_false_iff, <-(not_true_iff_false (HasPrefix _ _)).
  destruct posArgs; simpl; [naive_solver|]. destruct (HasPrefix _ _); naive_solver.
Qed.
Lemma own_key_iff env_key argv :
  existsb (is_flag "--console-api-key") (before_dashes argv) || negb (bool_decide (env_key = "")) = false ↔ ¬ own_key env_key argv.
Proof. unfold own_key. rewrite orb_false_iff, existsb_elem, negb_false_iff, bool_decide_eq_true. destruct (decide (env_key = "")); naive_solver. Qed.

Lemma lacking_iff env_key line argv posArgs rc c :
  Has (invocationCapabilities env_key (resolve_caps (Some rc)) (Some line) argv posArgs) c = false ↔
  lacking env_key line argv posArgs rc c.
Proof.
  rewrite caps_of_invocation, Has_false. unfold lacking. rewrite <-own_endpoint_iff, <-own_key_iff.
  simpl. rewrite !orb_false_iff, !andb_false_iff, !negb_false_iff, !bool_decide_eq_true.
  assert ((0 <? length (RPC (net_Endpoints (ctx_Network rc))))%nat = false ↔ no_rpc rc) as ->.
  { unfold no_rpc. by destruct (RPC _). }
  unfold no_keyring. tauto.
Qed.

Lemma blocked_iff env_key line argv posArgs rc c :
  let s := invocationCapabilities env_key (resolve_caps (Some rc)) (Some line) argv posArgs in
  unmet s c = true ↔ blocked env_key line argv posArgs rc c.
Proof.
  cbv zeta. unfold unmet, blocked. rewrite andb_true_iff, !negb_true_iff, bool_decide_eq_false, Satisfies_false.
  rewrite (Forall_iff _ _ _ (lacking_iff env_key line argv posArgs rc)).
  split; [naive_solver|]. intros [Hne Hall]. split; [|done]. intros Hreq. by rewrite Hreq in Hne.
Qed.

(** ** Refusals *)

(** The refusal is decided by the nearest unmet requirement. *)
Lemma requirementError_spec quote line s :
  match requirementError quote line s with
  | None => Forall (λ c, unmet s c = false) line
  | Some e => ∃ below c parents, line = below ++ c :: parents ∧ Forall (λ c, unmet s c = false) below ∧ unmet s c = true ∧
      e = Errorf unavailable_format [CommandPath (c :: parents); explain_text quote (Explain (cmd_Req c))]
  end.
Proof.
  induction line as [|c line IH]; [constructor|]. simpl.
  assert (bool_decide (cmd_Req c = "") || Satisfies s (cmd_Req c) = negb (unmet s c)) as ->.
  { unfold unmet. by rewrite negb_andb, !negb_involutive. }
  destruct (unmet s c) eqn:E; simpl; [by exists [], c, line|].
  destruct (requirementError quote line s); [|by constructor].
  destruct IH as (below&d&parents&->&Hb&Hd&->). exists (c :: below), d, parents. split_and!; [done|by constructor|done..].
Qed.

(** ** The tree *)
Lemma Command_ind' (P : Command → Prop) :
  (∀ name req short hidden subs, Forall P subs → P (Cmd name req short hidden subs)) → ∀ c, P c.
Proof.
  intros Hn. fix IH 1. intros [name req short hidden subs]. apply Hn.
  induction subs as [|c subs IHs]; constructor; [apply IH|apply IHs].
Qed.

Lemma walk_fields mode s c : cmd_Name (walk mode s c) = cmd_Name c ∧ cmd_Req (walk mode s c) = cmd_Req c ∧
  cmd_Short (walk mode s c) = (mark mode s c).1 ∧ cmd_Hidden (walk mode s c) = (mark mode s c).2 ∧
  cmd_Commands (walk mode s c) = walk mode s <$> cmd_Commands c.
Proof. by destruct c. Qed.

Lemma lineage_walk mode s root path above :
  lineage (walk mode s root) path (walk mode s <$> above) = fmap (M:=list) (walk mode s) <$> lineage root path above.
Proof.
  revert root above; induction path as [|i path IH]; intros root above; simpl; [done|].
  destruct (walk_fields mode s root) as (_&_&_&_&->). rewrite list_lookup_fmap.
  destruct (cmd_Commands root !! i) as [sub|]; simpl; [|done]. apply (IH sub (root :: above)).
Qed.

Lemma CommandPath_walk mode s line : CommandPath (walk mode s <$> line) = CommandPath line.
Proof.
  unfold CommandPath. do 2 f_equal. rewrite <-list_fmap_compose. apply list_fmap_ext.
  intros i c _. simpl. by destruct (walk_fields mode s c) as (->&_).
Qed.

Lemma unmet_walk mode s c : unmet s (walk mode s c) = unmet s c.
Proof. unfold unmet. by destruct (walk_fields mode s c) as (_&->&_). Qed.

Lemma mark_walk mode s c : mark mode s (walk mode s c) = mark mode s c.
Proof.
  unfold mark at 1. rewrite unmet_walk. destruct (walk_fields mode s c) as (_&_&->&->&_).
  unfold mark. destruct (unmet s c); [|done].
  destruct mode; simpl; try done; (destruct (HasPrefix (cmd_Short c) unavailable) eqn:E; [by rewrite E|by rewrite HasPrefix_app]).
Qed.

Lemma walk_idemp mode s c : walk mode s (walk mode s c) = walk mode s c.
Proof.
  induction c as [name req short hidden subs IH] using Command_ind'.
  change (walk mode s (walk mode s (Cmd name req short hidden subs))) with
    (Cmd name req (mark mode s (walk mode s (Cmd name req short hidden subs))).1
       (mark mode s (walk mode s (Cmd name req short hidden subs))).2 (List.map (walk mode s) (List.map (walk mode s) subs))).
  rewrite mark_walk. simpl. f_equal. rewrite map_map. apply map_ext_in. intros c Hc.
  by eapply Forall_forall in IH; [|by apply list_elem_of_In].
Qed.

Lemma marked_walk mode s c : marked mode c = false → marked mode (walk mode s c) = unmet s c.
Proof.
  intros Hm. unfold marked in *. destruct (walk_fields mode s c) as (_&_&->&->&_). unfold mark.
  destruct (unmet s c); destruct mode; simpl; rewrite ?Hm; try done; apply HasPrefix_app.
Qed.

(** ** Properties *)

(** C20: a resolved command is refused exactly when gating is on, it is no request for
    help, and it or a command above it carries a requirement of which no alternative
    is met: each names a capability that the context's endpoints, keyring and
    Console key do not give and that neither a --node or --console-api-key argument
    before a "--", the environment nor a positional monitor endpoint supplies. The
    refusal names the nearest such command and a remedy for every alternative. *)
Theorem gate_exact quote env_key root path argv posArgs rc mode line :
  lineage root path [] = Some line → Forall (λ c, TrimSpace (cmd_Req c) = cmd_Req c) line →
  match (gate quote env_key root path argv posArgs rc mode).2 with
  | None => mode = ModeOff ∨ isHelpInvocation line argv = true ∨ Forall (λ c, ¬ blocked env_key line argv posArgs rc c) line
  | Some e => mode ≠ ModeOff ∧ isHelpInvocation line argv = false ∧
      ∃ below c parents, line = below ++ c :: parents ∧ Forall (λ c, ¬ blocked env_key line argv posArgs rc c) below ∧
        blocked env_key line argv posArgs rc c ∧
        e = Errorf unavailable_format [CommandPath (c :: parents);
              "requires " +:+ strings_Join (remedy_line <$> alternatives (cmd_Req c)) ", or "]
  end.
Proof.
  intros Hline Htrim. unfold gate. rewrite Hline. cbv zeta iota. cbn [snd].
  set (s := invocationCapabilities env_key (resolve_caps (Some rc)) (Some line) argv posArgs).
  assert (∀ c, unmet s c = false ↔ ¬ blocked env_key line argv posArgs rc c) as Hb.
  { intros c. rewrite <-not_true_iff_false. apply not_iff_compat, blocked_iff. }
  destruct (decide (mode = ModeOff)) as [->|Hm]; [by left|]. rewrite (bool_decide_eq_false_2 _ Hm). simpl.
  destruct (isHelpInvocation line argv) eqn:Hh; simpl; [by right; left|].
  pose proof (requirementError_spec quote line s) as Hr. destruct (requirementError quote line s) as [e|].
  - destruct Hr as (below&c&parents&Hl&Hbelow&Hc&->). split_and!; [done..|]. exists below, c, parents.
    rewrite (Forall_iff _ _ _ Hb) in Hbelow. split_and!; [done..|by apply blocked_iff|].
    do 3 f_equal. rewrite (Explain_unmet s); [done| |].
    + rewrite Forall_forall in Htrim. apply Htrim. rewrite Hl. set_solver.
    + unfold unmet in Hc. by apply andb_true_iff in Hc as [_ Hc%negb_true_iff].
  - right; right. by rewrite (Forall_iff _ _ _ Hb) in Hr.
Qed.

(** help and execution agree. In the gated tree every command is where it was;
    a command is refused exactly when one on its path is marked in the listing
    (hidden in hide mode, prefixed in dim mode) that was not before, and gating the
    tree again changes nothing. *)
Theorem gating_agrees quote root path s mode line :
  mode ≠ ModeOff → lineage root path [] = Some line → Forall (λ c, marked mode c = false) line →
  ∃ line', lineage (applyCapabilityGating root s mode) path [] = Some line' ∧ CommandPath line' = CommandPath line ∧
    (requirementError quote line s ≠ None ↔ ∃ c, c ∈ line' ∧ marked mode c = true) ∧
    applyCapabilityGating (applyCapabilityGating root s mode) s mode = applyCapabilityGating root s mode.
Proof.
  intros Hm Hline Hclean.
  assert (∀ r, applyCapabilityGating r s mode = walk mode s r) as Hg by by destruct mode.
  exists (walk mode s <$> line). rewrite !Hg, walk_idemp. split_and!.
  - pose proof (lineage_walk mode s root path []) as Hl. rewrite Hline in Hl. exact Hl.
  - apply CommandPath_walk.
  - pose proof (requirementError_spec quote line s) as Hr. rewrite Forall_forall in Hclean.
    destruct (requirementError quote line s).
    + split; [intros _|done]. destruct Hr as (below&c&parents&->&_&Hc&_). exists (walk mode s c).
      split; [apply list_elem_of_fmap_2; set_solver|]. rewrite marked_walk; [done|]. apply Hclean. set_solver.
    + split; [done|]. intros (c&(d&->&Hd)%list_elem_of_fmap&Hc). rewrite marked_walk in Hc by by apply Hclean.
      rewrite Forall_forall in Hr. by rewrite Hr in Hc.
  - done.
Qed.

(** the three startup predicates are nested for every command path: a command
    that opens the local signing identity needs a context, and one that needs a
    context needs a configuration, so a command exempt from configuration is never
    asked for a context or a passphrase. *)
Theorem startup_nested flags path req :
  (localIdentityMode flags path req = LocalIdentityRequired → requiresContext path = true) ∧
  (requiresContext path = true → requiresConfig path = true).
Proof.
  split.
  - unfold localIdentityMode, requiresContext. intros Hr.
    destruct (HasPrefix path "akt mcp") eqn:Hmcp.
    + assert (∀ q, HasPrefix "akt mcp" q = false → HasPrefix q "akt mcp" = false → HasPrefix path q = false) as Hno.
      { intros q Hq1 Hq2. apply not_true_iff_false. intros Hq. destruct (HasPrefix_both _ _ _ Hmcp Hq); congruence. }
      exfalso. rewrite (Hno "akt provider") in Hr by by vm_compute.
      repeat (case_bool_decide || case_match); done.
    + repeat (case_bool_decide || case_match); simplify_eq; simpl in *; done.
  - unfold requiresContext, requiresConfig.
    destruct (decide (path = "akt context create" ∨ path = "akt context network create")) as [[-> | ->]|Hp]; [done..|].
    rewrite (bool_decide_eq_false_2 _ Hp). intros Hr. repeat (case_bool_decide || case_match); done.
Qed.

(** ** Examples *)
Definition demo_tx : Command := Cmd "send" "" "Send tokens" false [].
Definition demo_root : Command := Cmd "akt" "" "" false [
  Cmd "tx" "chain-tx" "Transactions subcommands" false [demo_tx];
  Cmd "deploy" "chain-tx|console" "Deploy" false []].
Definition demo_ctx : Context_ := MkContext "main" zero_network (keyring_named "default") "" "" "" [] "" "" "" "" "" "" "" "".
Definition tx_line : list Command := default [] (lineage demo_root [0; 0] []).

Lemma gate_exact_witness : blocked "" tx_line ["tx"; "send"; "--"; "--node"] [] demo_ctx (default demo_root (tx_line !! 1)).
Proof.
  pose proof (gate_exact (λ s, s) "" demo_root [0; 0] ["tx"; "send"; "--"; "--node"] [] demo_ctx ModeDim tx_line eq_refl) as H.
  destruct H as (_&_&below&c&parents&Hl&_&Hc&He).
  { repeat constructor. }
  unfold tx_line in Hl at 1. simpl in Hl. destruct below as [|b1 [|b2 [|b3 below]]]; injection Hl as; subst.
  - by destruct Hc as [[] _].
  - exact Hc.
  - by destruct Hc as [[] _].
  - by destruct below.
Defined.

Lemma gating_agrees_witness : ∃ line', lineage (applyCapabilityGating demo_root (MkCapSet false false true false) ModeHide) [0; 0] [] = Some line' ∧
  ∃ c, c ∈ line' ∧ marked ModeHide c = true.
Proof.
  destruct (gating_agrees (λ s, s) demo_root [0; 0] (MkCapSet false false true false) ModeHide tx_line) as (line'&Hl&_&Hr&_).
  - done.
  - done.
  - repeat constructor.
  - exists line'. split; [done|]. apply Hr. by vm_compute.
Defined.

Lemma startup_nested_witness : requiresConfig "akt tx send" = true.
Proof. apply (startup_nested ∅ "akt tx send" ""), (startup_nested ∅ "akt tx send" ""). by vm_compute. Defined.
