(* ===== verification/ConsoleHttp.v ===== *)
(** * The Console API client: requests and payloads (internal/console/client.go, types.go)

    One call sends requests to a peer and appends entries to the action log. The
    peer, the contexts and the timers are parameters; the requests a call sends are
    kept in order. A payload is a JSON tree, the body of a reply is its bytes. The
    rendering of an error ([Error()]) is a parameter, since it only matters that
    texts go through the redaction. *)

From Stdlib Require Import Ascii.
From stdpp Require Import sorting base gmap strings pretty option numbers list.
From S2P Require Import Prelude GoStd GoJson StoreExport Context Workflow ConfigDoc ActionLog GoText.

Definition DefaultBaseURL : string := "https://console-api.akash.network".
Definition DefaultUIBaseURL : string := "https://console.akash.network".
Definition maxResponseBodyBytes : N := 16777216.

(** ** Errors *)
Definition ErrUnauthorized : error := Sentinel "console: invalid or expired API key".
Definition ErrInsufficientFunds : error := Sentinel "console: insufficient funds".
Definition ErrNotFound : error := Sentinel "console: resource not found".
Definition ErrAlreadyClosed : error := Sentinel "console: deployment already closed".
Definition is_err (e target : error) : bool := match target with Sentinel n => errors_is e n | _ => false end.

Definition http_format : string := "console: unexpected status %d: %s".
Definition HTTPError (status : Z) (body : string) : error := Errorf http_format [FormatInt status; body].
(** [errors.As] for an [HTTPError]: its status and body. *)
Fixpoint as_http (e : error) : option (Z * string) :=
  match e with
  | Errorf f [status; body] =>
      if bool_decide (f = http_format) then match ParseInt64 status with Ok n => Some (n, body) | _ => None end else None
  | Errorf _ _ | Sentinel _ => None
  | Wrapf _ _ e => as_http e
  | Joined e1 e2 => match as_http e1 with Some r => Some r | None => as_http e2 end
  end.

(** [errors.New] of a message. *)
Definition New_error (text : string) : error := Errorf text [].

(** ** The client *)
Record Client : Type := MkClient { c_baseURL : string; c_apiKey : string; c_actionLog : bool; c_sensitive : bool }.
Definition New (baseURL apiKey : string) : Client :=
  MkClient (if bool_decide (baseURL = "") then DefaultBaseURL else baseURL) apiKey false false.
Definition WithActionLog (logger : bool) (c : Client) : Client := MkClient (c_baseURL c) (c_apiKey c) logger (c_sensitive c).
Definition sensitiveClient (c : Client) : Client := MkClient (c_baseURL c) (c_apiKey c) (c_actionLog c) true.

Record request : Type := MkRequest { rq_method : string; rq_url : string; rq_key : string; rq_body : option json }.
(** What [httpClient.Do] and reading the body give: a transport failure with the
    state of both contexts, a body that cannot be read, or a status and a body. *)
Inductive reply : Type :=
| Unreached (caller deadline : option error) (text : string)
| Unread (e : error)
| Reply (status : Z) (body : bytes).

(** The peer and the clock. [p_wait] is the backoff, [p_observe] the pause between
    two observations; both end with the error of a context that is done. *)
Record Peer (E : Type) : Type := MkPeer {
  p_send : E → request → E * reply;
  p_ctx : E → option error;
  p_wait : E → E * option error;
  p_observe : E → E * option error;
  p_url : string → option error;
  p_text : error → string;
}.
Arguments p_send {E}. Arguments p_ctx {E}. Arguments p_wait {E}. Arguments p_observe {E}. Arguments p_url {E}. Arguments p_text {E}.
Arguments MkPeer {E}.

Record world (E : Type) : Type := MkWorld { w_peer : E; w_trace : list request; w_log : list Entry }.
Arguments MkWorld {E}. Arguments w_peer {E}. Arguments w_trace {E}. Arguments w_log {E}.

(** ** Calls: state and errors *)
Abbreviation call E := (stateR (world E)).
Definition on_peer {E A} (f : E → E * A) : call E A := λ w,
  let '(e, a) := f (w_peer w) in (MkWorld e (w_trace w) (w_log w), Ok a).
Definition redactResponseSecret (body secret : string) : string :=
  if bool_decide (secret = "") then body else ReplaceAll body secret "[REDACTED]".

Definition MethodGet : string := "GET".
Definition MethodPost : string := "POST".
Definition MethodPut : string := "PUT".
Definition MethodPatch : string := "PATCH".
Definition MethodDelete : string := "DELETE".

(** [requestTimeout] as it is printed. *)
Definition requestTimeout (method : string) : string :=
  if bool_decide (method ∈ [MethodPost; MethodPut; MethodPatch; MethodDelete]) then "2m0s" else "30s".

Definition retryableStatus (method : string) (status : Z) : bool :=
  if negb (status =? 429)%Z && (status <? 500)%Z then false
  else bool_decide (method ∈ [MethodGet; "HEAD"; MethodPut; MethodDelete]).

Definition maxRetries : nat := 3.

(** [leaseResponseCode] (deployments.go). *)
Definition dec_code : decoder string := dec_struct false [("code", dec_string)].
Definition leaseResponseCode (body : bytes) : string :=
  match body with
  | Text j => match dec_code j "" with
              | Some code => if bool_decide (code ∈ ["manifest_not_delivered"; "provider_unreachable"]) then code else ""
              | None => ""
              end
  | Raw _ => ""
  end.

Definition blank (b : bytes) : bool := match b with Raw s => bool_decide (TrimSpace s = "") | Text _ => false end.

(** ** Errors of calls that carry secrets (deployment_secrets.go) *)
Definition known_codes : list string :=
  ["deployment_definition_changed"; "deployment_resources_changed"; "stored_secrets_unreadable"; "stored_sdl_unreadable";
   "inherited_secrets_unreadable"; "deployment_definition_exists"; "deployment_definition_mismatch"; "manifest_not_delivered"; "provider_unreachable"].
Definition known_errors : list error :=
  [ctx_canceled; DeadlineExceeded; ErrUnauthorized; ErrInsufficientFunds; ErrNotFound; ErrAlreadyClosed].
Definition details_omitted : string := "sensitive response details omitted".

Definition sanitizeSecretError `{Lexer} (e : error) : error :=
  match List.find (is_err e) known_errors with
  | Some known => known
  | None =>
      match as_http e with
      | Some (status, body) =>
          let code := match json_Parse body with Some j => default "" (dec_code j "") | None => "" end in
          let code := if bool_decide (code = "") then body else code in
          HTTPError status (if bool_decide (code ∈ known_codes) then code else details_omitted)
      | None => New_error "console: request failed; sensitive response details omitted"
      end
  end.

(** The outcome of one reply: the payload, an error that ends the call, or one that
    may be retried. *)
Inductive verdict (A : Type) : Type := Done (a : A) | Final (e : error) | Again (e : error).
Arguments Done {A}. Arguments Final {A}. Arguments Again {A}.

Section http.
Context {E : Type} (P : Peer E) `{Lexer}.

(** ** The action log (client.go) *)
Definition recordOutcome (c : Client) (action dseq status : string) (opErr : option error) (params : option json) : call E unit := λ w,
  if c_actionLog c then
    let entry := set_e_Status status (set_e_Action action (set_e_Type "console" zero_entry)) in
    let entry := match ParseUint u64_max dseq with Ok n => set_e_DSeq n entry | _ => entry end in
    let entry := match opErr with
                 | Some e => set_e_Error (redactResponseSecret (p_text P e) (c_apiKey c))
                               (if bool_decide (status = "success") then set_e_Status "failed" entry else entry)
                 | None => entry
                 end in
    (MkWorld (w_peer w) (w_trace w) (w_log w ++ [set_e_Params params entry]), Ok tt)
  else (w, Ok tt).
Definition record (c : Client) (action dseq : string) (opErr : option error) : call E unit := recordOutcome c action dseq "success" opErr None.

(** [c.record(action, dseq, err); return nil, err]. *)
Definition refuse {A} (c : Client) (action dseq : string) (e : error) : call E A := record c action dseq (Some e);; fail e.

(** ** Requests *)
Definition send (rq : request) : call E reply := λ w,
  let '(e, r) := p_send P (w_peer w) rq in (MkWorld e (w_trace w ++ [rq]) (w_log w), Ok r).
Definition ctx_err : call E (option error) := on_peer (λ e, (e, p_ctx P e)).
Definition waitForRetry : call E unit := r ← on_peer (p_wait P); check r.
Definition waitForMutationObservation : call E unit := r ← on_peer (p_observe P); check r.

Definition requestFailure (c : Client) (caller deadline : option error) (method path text : string) : error :=
  match caller with
  | Some e => Wrapf "console: %s %s: %w" [method; path] e
  | None =>
      match deadline with
      | Some e => if is_err e DeadlineExceeded
                  then Wrapf "console: %s %s: request timed out after %s: %w" [method; path; requestTimeout method] e
                  else Errorf "console: %s %s: %s" [method; path; redactResponseSecret text (c_apiKey c)]
      | None => Errorf "console: %s %s: %s" [method; path; redactResponseSecret text (c_apiKey c)]
      end
  end.

Definition judge {A} (c : Client) (method path : string) (wants : bool) (decode : bytes → option A) (status : Z) (body : bytes) : verdict A :=
  let code := leaseResponseCode body in
  if (maxResponseBodyBytes <? byte_len (raw_bytes body))%N
  then Final (Wrapf "console: read response: %w" [] (Errorf "response exceeds %d-byte limit" [FormatUint maxResponseBodyBytes]))
  else if bool_decide (method = MethodPost) && bool_decide (path = "/v1/leases") && (400 <=? status)%Z && negb (bool_decide (code = ""))
  then Final (HTTPError status code)
  else if ((200 <=? status) && (status <? 300))%Z then
    if wants && blank body then Final (Errorf "console: %s %s returned an empty response body" [method; path])
    else match decode body with Some a => Done a | None => Final (Wrapf "console: decode response: %w" [] ErrJSON) end
  else if (status =? 401)%Z then Final (Wrapf "%w (HTTP 401)" [] ErrUnauthorized)
  else if (status =? 402)%Z then Final (Wrapf "%w (HTTP 402)" [] ErrInsufficientFunds)
  else if (status =? 404)%Z then Final (Wrapf "%w (HTTP 404): %s %s" [method; path] ErrNotFound)
  else if (status =? 429)%Z then
    (if retryableStatus method status then Again else Final) (Errorf "console: rate limited (HTTP 429)" [])
  else if (500 <=? status)%Z then
    (if retryableStatus method status then Again else Final) (Errorf "console: server error (HTTP %d)" [FormatInt status])
  else if ((300 <=? status) && (status <? 400))%Z then Final (Errorf "console: HTTP redirects are not allowed (HTTP %d)" [FormatInt status])
  else Final (HTTPError status (redactResponseSecret (raw_bytes body) (c_apiKey c))).

Fixpoint attempts {A} (c : Client) (method path : string) (body : option json) (wants : bool) (decode : bytes → option A) (more : nat) : call E A :=
  match more with
  | O => lift Panic (* never reached: the last attempt returns *)
  | S more =>
      ctx ← ctx_err;
      match ctx with
      | Some e => fail (Wrapf "console: %s %s: %w" [method; path] e)
      | None =>
          match p_url P (c_baseURL c +:+ path) with
          | Some e => fail (Wrapf "console: create request: %w" [] e)
          | None =>
              r ← send (MkRequest method (c_baseURL c +:+ path) (c_apiKey c) body);
              match r with
              | Unreached caller deadline text => fail (requestFailure c caller deadline method path text)
              | Unread e => fail (Wrapf "console: read response: %w" [] e)
              | Reply status b =>
                  match judge c method path wants decode status b with
                  | Done a => mret a
                  | Final e => fail e
                  | Again e => match more with
                               | O => fail e
                               | _ => waitForRetry;; attempts c method path body wants decode more
                               end
                  end
              end
          end
      end
  end.

Definition sanitized {A} (c : Client) (m : call E A) : call E A := λ w,
  let '(w, r) := m w in (w, if c_sensitive c then map_err sanitizeSecretError r else r).

(** A nil result discards the body. *)
Definition doJSON {A} (c : Client) (method path : string) (body : option json) (wants : bool) (decode : bytes → option A) : call E A :=
  sanitized c (attempts c method path body wants decode maxRetries).

Definition envelope (v : json) : json := JObj [("data", v)].

(** The member [data] of a reply; [json.RawMessage] keeps every value. *)
Definition dec_data : decoder (option json) := dec_struct false [("data", λ j _, Some (Some j))].
Definition decode_envelope (b : bytes) : option (option json) := match b with Text j => dec_data j None | Raw _ => None end.

Definition doData {A} (c : Client) (method path : string) (body : option json) (zero : A) (dec : decoder A) : call E A :=
  sanitized c (
    env ← doJSON c method path body true decode_envelope;
    match env with
    | None | Some JNull => fail (Errorf "console: %s %s returned no data envelope" [method; path])
    | Some data => match dec data zero with
                   | Some a => mret a
                   | None => fail (Wrapf "console: decode data envelope for %s %s: %w" [method; path] ErrJSON)
                   end
    end).
End http.
