(* ===== verification/ConsoleTypes.v ===== *)
(** * Payloads of the Console API (internal/console/types.go)

    The records the client decodes, with their JSON tags. Members the client only
    hands on to the output ([json.RawMessage] and float64 fields) are left out,
    except that a member of the wrong shape still fails the decoding. *)

From Stdlib Require Import Ascii.
From stdpp Require Import sorting base gmap strings pretty option numbers list.
From S2P Require Import Prelude GoStd GoJson.

(** [FlexString]: a JSON string or number; null is the empty number. *)
Definition dec_flex : decoder string := λ j _,
  match j with JStr s => Some s | JNum literal => Some literal | JNull => Some "" | _ => None end.

(** A member that is decoded and dropped. *)
Definition drop_number {A} : decoder A := λ j a, match j with JNull | JNum _ => Some a | _ => None end.
Definition drop_int {A} : decoder A := λ j a, (λ _, a) <$> dec_int64 j 0%Z.

Record Price : Type := MkPrice { pr_Denom : string; pr_Amount : string }.
Definition dec_price : decoder Price := dec_struct false [
  ("denom", field pr_Denom (λ v r, MkPrice v (pr_Amount r)) dec_string);
  ("amount", field pr_Amount (λ v r, MkPrice (pr_Denom r) v) dec_flex)].
Definition zero_price : Price := MkPrice "" "".

(** [LeaseID], which is also the identity of a bid. *)
Record MarketID : Type := MkMarketID { mi_Owner : string; mi_DSeq : string; mi_GSeq : N; mi_OSeq : N; mi_Provider : string }.
#[global] Instance MarketID_eq_dec : EqDecision MarketID.
Proof. solve_decision. Defined.
Definition zero_market_id : MarketID := MkMarketID "" "" 0 0 "".
Definition dec_market_id : decoder MarketID := dec_struct false [
  ("owner", field mi_Owner (λ v r, MkMarketID v (mi_DSeq r) (mi_GSeq r) (mi_OSeq r) (mi_Provider r)) dec_string);
  ("dseq", field mi_DSeq (λ v r, MkMarketID (mi_Owner r) v (mi_GSeq r) (mi_OSeq r) (mi_Provider r)) dec_flex);
  ("gseq", field mi_GSeq (λ v r, MkMarketID (mi_Owner r) (mi_DSeq r) v (mi_OSeq r) (mi_Provider r)) (dec_uint u32_max));
  ("oseq", field mi_OSeq (λ v r, MkMarketID (mi_Owner r) (mi_DSeq r) (mi_GSeq r) v (mi_Provider r)) (dec_uint u32_max));
  ("provider", field mi_Provider (λ v r, MkMarketID (mi_Owner r) (mi_DSeq r) (mi_GSeq r) (mi_OSeq r) v) dec_string)].

(** Of [LeaseStatus] the raw services; a lease may have no status. *)
Definition dec_lease_status : decoder (option json) := dec_struct false [("services", λ j _, Some (Some j))].
Record Lease : Type := MkConsoleLease { ls_ID : MarketID; ls_State : string; ls_Price : option Price; ls_Status : option (option json) }.
Definition zero_console_lease : Lease := MkConsoleLease zero_market_id "" None None.
Definition dec_console_lease : decoder Lease := dec_struct false [
  ("id", field ls_ID (λ v r, MkConsoleLease v (ls_State r) (ls_Price r) (ls_Status r)) dec_market_id);
  ("state", field ls_State (λ v r, MkConsoleLease (ls_ID r) v (ls_Price r) (ls_Status r)) dec_string);
  ("price", field ls_Price (λ v r, MkConsoleLease (ls_ID r) (ls_State r) v (ls_Status r)) (dec_ptr zero_price dec_price));
  ("status", field ls_Status (λ v r, MkConsoleLease (ls_ID r) (ls_State r) (ls_Price r) v) (dec_ptr None dec_lease_status))].

Record Deployment : Type := MkConsoleDeployment { dp_Owner : string; dp_DSeq : string; dp_State : string; dp_Hash : string }.
Definition zero_console_deployment : Deployment := MkConsoleDeployment "" "" "" "".
Definition dec_deployment_id : decoder Deployment := dec_struct false [
  ("owner", field dp_Owner (λ v r, MkConsoleDeployment v (dp_DSeq r) (dp_State r) (dp_Hash r)) dec_string);
  ("dseq", field dp_DSeq (λ v r, MkConsoleDeployment (dp_Owner r) v (dp_State r) (dp_Hash r)) dec_flex)].
Definition dec_console_deployment : decoder Deployment := dec_struct false [
  ("id", dec_deployment_id);
  ("state", field dp_State (λ v r, MkConsoleDeployment (dp_Owner r) (dp_DSeq r) v (dp_Hash r)) dec_string);
  ("hash", field dp_Hash (λ v r, MkConsoleDeployment (dp_Owner r) (dp_DSeq r) (dp_State r) v) dec_string)].

Record DeploymentListItem : Type := MkListItem { li_Deployment : Deployment; li_Leases : list Lease }.
Definition zero_list_item : DeploymentListItem := MkListItem zero_console_deployment [].
(** A nil slice is an empty one. *)
Definition dec_leases : decoder (list Lease) := λ j _, default [] <$> dec_slice zero_console_lease dec_console_lease j None.
Definition dec_list_item : decoder DeploymentListItem := dec_struct false [
  ("deployment", field li_Deployment (λ v r, MkListItem v (li_Leases r)) dec_console_deployment);
  ("leases", field li_Leases (λ v r, MkListItem (li_Deployment r) v) dec_leases)].

Record Pagination : Type := MkPagination { pg_Total : Z; pg_Skip : Z; pg_Limit : Z; pg_HasMore : bool }.
Definition dec_pagination : decoder Pagination := dec_struct false [
  ("total", field pg_Total (λ v r, MkPagination v (pg_Skip r) (pg_Limit r) (pg_HasMore r)) dec_int64);
  ("skip", field pg_Skip (λ v r, MkPagination (pg_Total r) v (pg_Limit r) (pg_HasMore r)) dec_int64);
  ("limit", field pg_Limit (λ v r, MkPagination (pg_Total r) (pg_Skip r) v (pg_HasMore r)) dec_int64);
  ("hasMore", field pg_HasMore (λ v r, MkPagination (pg_Total r) (pg_Skip r) (pg_Limit r) v) dec_bool)].
Record DeploymentList : Type := MkDeploymentList { dl_Deployments : list DeploymentListItem; dl_Pagination : Pagination }.
Definition zero_deployment_list : DeploymentList := MkDeploymentList [] (MkPagination 0 0 0 false).
Definition dec_deployment_list : decoder DeploymentList := dec_struct false [
  ("deployments", field dl_Deployments (λ v r, MkDeploymentList v (dl_Pagination r)) (λ j _, default [] <$> dec_slice zero_list_item dec_list_item j None));
  ("pagination", field dl_Pagination (λ v r, MkDeploymentList (dl_Deployments r) v) dec_pagination)].

Record DeploymentDefinition : Type := MkDefinition { df_SDL : string; df_ManifestVersion : string }.
Definition zero_definition : DeploymentDefinition := MkDefinition "" "".
Definition dec_definition : decoder DeploymentDefinition := dec_struct false [
  ("sdl", field df_SDL (λ v r, MkDefinition v (df_ManifestVersion r)) dec_string);
  ("manifestVersion", field df_ManifestVersion (λ v r, MkDefinition (df_SDL r) v) dec_string)].

Record DeploymentDetail : Type := MkDetail {
  dd_Deployment : Deployment; dd_Leases : list Lease; dd_ConsoleSettings : option DeploymentDefinition;
  dd_Name : option string; dd_ManifestVersion : string;
}.
Definition zero_detail : DeploymentDetail := MkDetail zero_console_deployment [] None None "".
Definition dec_detail : decoder DeploymentDetail := dec_struct false [
  ("deployment", field dd_Deployment (λ v r, MkDetail v (dd_Leases r) (dd_ConsoleSettings r) (dd_Name r) (dd_ManifestVersion r)) dec_console_deployment);
  ("leases", field dd_Leases (λ v r, MkDetail (dd_Deployment r) v (dd_ConsoleSettings r) (dd_Name r) (dd_ManifestVersion r)) dec_leases);
  ("consoleSettings", field dd_ConsoleSettings (λ v r, MkDetail (dd_Deployment r) (dd_Leases r) v (dd_Name r) (dd_ManifestVersion r)) (dec_ptr zero_definition dec_definition));
  ("name", field dd_Name (λ v r, MkDetail (dd_Deployment r) (dd_Leases r) (dd_ConsoleSettings r) v (dd_ManifestVersion r)) (dec_ptr "" dec_string));
  ("manifestVersion", field dd_ManifestVersion (λ v r, MkDetail (dd_Deployment r) (dd_Leases r) (dd_ConsoleSettings r) (dd_Name r) v) dec_string)].

(** [SignTx]; its [UnmarshalJSON] keeps whether the code was there. *)
Record SignTx : Type := MkSignTx { st_Code : Z; st_TransactionHash : string; st_RawLog : string; st_codePresent : bool }.
Definition zero_sign_tx : SignTx := MkSignTx 0 "" "" false.
Definition set_code (code : option Z) (r : SignTx) : SignTx :=
  MkSignTx (default 0%Z code) (st_TransactionHash r) (st_RawLog r) (bool_decide (is_Some code)).
Definition dec_sign_tx : decoder SignTx := λ j _, dec_struct false [
  ("code", field (λ r, if st_codePresent r then Some (st_Code r) else None) set_code (dec_ptr 0%Z dec_int64));
  ("transactionHash", field st_TransactionHash (λ v r, MkSignTx (st_Code r) v (st_RawLog r) (st_codePresent r)) dec_string);
  ("rawLog", field st_RawLog (λ v r, MkSignTx (st_Code r) (st_TransactionHash r) v (st_codePresent r)) dec_string)] j zero_sign_tx.

Record CreateDeploymentResult : Type := MkCreateResult { cr_DSeq : string; cr_Manifest : string; cr_SignTx : option SignTx }.
Definition zero_create_result : CreateDeploymentResult := MkCreateResult "" "" None.
Definition dec_create_result : decoder CreateDeploymentResult := dec_struct false [
  ("dseq", field cr_DSeq (λ v r, MkCreateResult v (cr_Manifest r) (cr_SignTx r)) dec_flex);
  ("manifest", field cr_Manifest (λ v r, MkCreateResult (cr_DSeq r) v (cr_SignTx r)) dec_string);
  ("signTx", field cr_SignTx (λ v r, MkCreateResult (cr_DSeq r) (cr_Manifest r) v) (dec_ptr zero_sign_tx dec_sign_tx))].

Record Bid : Type := MkConsoleBid { cbid_ID : MarketID; cbid_State : string; cbid_Price : option Price }.
Definition zero_console_bid : Bid := MkConsoleBid zero_market_id "" None.
Definition dec_console_bid : decoder Bid := dec_struct false [
  ("id", field cbid_ID (λ v r, MkConsoleBid v (cbid_State r) (cbid_Price r)) dec_market_id);
  ("state", field cbid_State (λ v r, MkConsoleBid (cbid_ID r) v (cbid_Price r)) dec_string);
  ("price", field cbid_Price (λ v r, MkConsoleBid (cbid_ID r) (cbid_State r) v) (dec_ptr zero_price dec_price))].
(** [json.Marshal] of a bid; a [FlexString] is written as a string. *)
Definition enc_market_id (i : MarketID) : json :=
  JObj [("owner", enc_string (mi_Owner i)); ("dseq", enc_string (mi_DSeq i)); ("gseq", enc_uint (mi_GSeq i));
        ("oseq", enc_uint (mi_OSeq i)); ("provider", enc_string (mi_Provider i))].
Definition enc_console_bid (b : Bid) : json :=
  JObj ([("id", enc_market_id (cbid_ID b)); ("state", enc_string (cbid_State b))]
        ++ match cbid_Price b with
           | Some p => [("price", JObj [("denom", enc_string (pr_Denom p)); ("amount", enc_string (pr_Amount p))])]
           | None => []
           end).

Record LeaseRequest : Type := MkLeaseRequest { lr_DSeq : string; lr_GSeq : N; lr_OSeq : N; lr_Provider : string }.
Definition enc_lease_request (r : LeaseRequest) : json :=
  JObj [("dseq", enc_string (lr_DSeq r)); ("gseq", enc_uint (lr_GSeq r)); ("oseq", enc_uint (lr_OSeq r)); ("provider", enc_string (lr_Provider r))].

(** [DeploymentSettings] as the update decodes it; the amounts are left out. *)
Record DeploymentSettings : Type := MkSettings { se_DSeq : option string; se_AutoTopUpEnabled : option bool; se_RuntimeLimitHours : option Z; se_RuntimeEndsAt : option string }.
Definition zero_settings : DeploymentSettings := MkSettings None None None None.
Definition dec_settings : decoder DeploymentSettings := dec_struct false [
  ("dseq", field se_DSeq (λ v r, MkSettings v (se_AutoTopUpEnabled r) (se_RuntimeLimitHours r) (se_RuntimeEndsAt r)) (dec_ptr "" dec_flex));
  ("autoTopUpEnabled", field se_AutoTopUpEnabled (λ v r, MkSettings (se_DSeq r) v (se_RuntimeLimitHours r) (se_RuntimeEndsAt r)) (dec_ptr false dec_bool));
  ("estimatedTopUpAmount", drop_number); ("topUpFrequencyMs", drop_int);
  ("runtimeLimitHours", field se_RuntimeLimitHours (λ v r, MkSettings (se_DSeq r) (se_AutoTopUpEnabled r) v (se_RuntimeEndsAt r)) (dec_ptr 0%Z dec_int64));
  ("runtimeEndsAt", field se_RuntimeEndsAt (λ v r, MkSettings (se_DSeq r) (se_AutoTopUpEnabled r) (se_RuntimeLimitHours r) v) (dec_ptr "" dec_string))].
