(* ===== verification/ConsoleDeploy.v ===== *)
(** * Deployments on the Console API (internal/console/deployments.go)

    Creation, listing, updates, closing and leases, with the reconciliation of an
    outcome that a failed request leaves open. The SDL library is a parameter. A
    valid dseq is a number, so it is its own path and query escape. *)

From Stdlib Require Import Ascii.
From stdpp Require Import sorting base gmap strings pretty option numbers list.
From S2P Require Import Prelude GoStd GoJson Context Workflow ConfigDoc GoText ConsoleHttp ConsoleTypes.

(** The SDL library (pkg.akt.dev/go/sdl). [sdl_ReadFile] takes what reading the file
    gives. *)
Class Sdl : Type := {
  sdl_doc : Type;
  sdl_group : Type;
  sdl_Read : string → result sdl_doc;
  sdl_ReadFile : string → result string → result sdl_doc;
  doc_Version : sdl_doc → result string;
  doc_Manifest : sdl_doc → result json;
  doc_Groups : sdl_doc → result (list sdl_group);
  group_Equal : sdl_group → sdl_group → bool;
  group_Denom : sdl_group → string;
  group_Name : sdl_group → string;
}.

Definition base64 (s : string) : string := of_bytes (b64_encode (bytes_of s)).

(** The hash and the manifest of an SDL. *)
Definition deploymentArtifacts `{Sdl} (rawSDL : string) : result (string * json) :=
  doc ← sdl_Read rawSDL;
  version ← map_err (Wrapf "derive version: %w" []) (doc_Version doc);
  mani ← map_err (Wrapf "render manifest: %w" []) (doc_Manifest doc);
  Ok (base64 version, mani).

(** ** Validation *)
Definition validateDSeq (dseq : string) : option error :=
  match ParseUint u64_max dseq with
  | Ok n => if (n =? 0)%N then Some (Errorf "console: invalid dseq %q: must be a positive numeric sequence" [dseq]) else None
  | _ => Some (Errorf "console: invalid dseq %q: must be a positive numeric sequence" [dseq])
  end.
Definition validDeploymentDSeq (dseq : string) : bool := match ParseUint u64_max dseq with Ok n => (0 <? n)%N | _ => false end.

Definition DeploymentURL (c : Client) (dseq : string) : string :=
  let trimmed := of_bytes (reverse (foldl (λ l ch, if bool_decide (l = [] ∧ ch = "/"%char) then l else l ++ [ch]) [] (reverse (bytes_of (c_baseURL c))))) in
  if bool_decide (is_Some (validateDSeq dseq)) || negb (bool_decide (trimmed = DefaultBaseURL)) then ""
  else DefaultUIBaseURL +:+ "/deployments/" +:+ dseq.

Definition validateCreateDeploymentResult (r : CreateDeploymentResult) : option error :=
  if negb (validDeploymentDSeq (cr_DSeq r)) then Some (Errorf "console: POST /v1/deployments returned an invalid dseq %q" [cr_DSeq r])
  else match cr_SignTx r with
       | None => Some (New_error "console: POST /v1/deployments omitted the managed-wallet transaction receipt")
       | Some t =>
           if negb (st_codePresent t) then Some (New_error "console: POST /v1/deployments transaction receipt omitted its code")
           else if negb (st_Code t =? 0)%Z then
             Some (Errorf "console: POST /v1/deployments transaction %s failed with code %d: %s" [st_TransactionHash t; FormatInt (st_Code t); st_RawLog t])
           else if bool_decide (TrimSpace (st_TransactionHash t) = "") then
             Some (New_error "console: POST /v1/deployments transaction receipt omitted its hash")
           else None
       end.

Definition definitiveCreateFailure (e : error) : bool :=
  is_err e ErrUnauthorized || is_err e ErrInsufficientFunds || is_err e ErrNotFound
  || match as_http e with Some (status, _) => ((400 <=? status) && (status <? 500) && negb (status =? 429))%Z | None => false end.

Definition isTransientManifestVersionError (e : error) : bool :=
  match as_http e with
  | Some (status, body) => (status =? 422)%Z && strings_Contains (ToLower body) "manifest version validation failed"
  | None => false
  end.

Definition isAlreadyClosed (e : error) : bool :=
  is_err e ErrNotFound
  || match as_http e with
     | Some (status, body) =>
         (status =? 400)%Z && let body := ToLower body in
         (strings_Contains body "already closed" || strings_Contains body "deployment closed" || strings_Contains body "not found")
     | None => false
     end.

Definition state_closed (d : Deployment) : bool := EqualFold (TrimSpace (dp_State d)) "closed".

(** [strings.ToLower(strings.TrimSpace(state))]; a detail that was read is not nil. *)
Definition requireMutableState (d : DeploymentDetail) (dseq : string) : option error :=
  if bool_decide (ToLower (TrimSpace (dp_State (dd_Deployment d))) = "closed")
  then Some (Errorf "console: deployment %s is closed and cannot be modified" [dseq]) else None.

Definition rejectUnsealedReferences `{Yaml} (rawSDL : string) : option error :=
  match HasReferences rawSDL with
  | Ok false => None
  | Ok true => Some (New_error "console: ac-secret references require explicit deployment secret options")
  | _ => Some (New_error "prepare deployment SDL: invalid deployment SDL")
  end.

(** ** Leases under their deployments *)
Definition index_by_dseq (items : list DeploymentListItem) : gmap string nat :=
  foldl (λ m p, <[dp_DSeq (li_Deployment p.2) := p.1]> m) ∅ (imap (λ i item, (i, item)) items).
Definition file_lease (byDSeq : gmap string nat) (regrouped : list (list Lease)) (lease : Lease) : list (list Lease) :=
  match byDSeq !! mi_DSeq (ls_ID lease) with
  | Some i => alter (λ l, l ++ [lease]) i regrouped
  | None => regrouped
  end.
Definition regroupLeases (items : list DeploymentListItem) : list DeploymentListItem :=
  let regrouped := foldl (file_lease (index_by_dseq items)) (replicate (length items) []) (concat (li_Leases <$> items)) in
  zip_with (λ item leases, MkListItem (li_Deployment item) leases) items regrouped.

Definition requested_active (req : LeaseRequest) (lease : Lease) : bool :=
  bool_decide (mi_DSeq (ls_ID lease) = lr_DSeq req) && (mi_GSeq (ls_ID lease) =? lr_GSeq req)%N && (mi_OSeq (ls_ID lease) =? lr_OSeq req)%N
  && bool_decide (mi_Provider (ls_ID lease) = lr_Provider req) && EqualFold (ls_State lease) "active".
Definition requestedLeasesActive (actual : list Lease) (requested : list LeaseRequest) : bool :=
  forallb (λ req, existsb (requested_active req) actual) requested && (0 <? length requested)%nat.

Definition deploymentCollectionPageSize : Z := 100.
Definition maxDeploymentCollectionPages : nat := 100.
Definition maxDeploymentCollectionRecords : nat := 10000.
Definition deploymentPaginationLimitError : error :=
  Errorf "console: deployment pagination exceeded safety limit (%d pages or %d records)" ["100"; "10000"].

(** 30 s of observation every 2 s: after fifteen pauses the context is done. *)
Definition mutationObservations : nat := 15.

Section deploy.
Context {E : Type} (P : Peer E) `{Lexer} `{Sdl} `{Yaml}.
Abbreviation call := (call E).

(** [err] as the code carries it on. *)
Definition then_check {A} (f : A → option error) (r : result A) : result A :=
  match r with Ok a => match f a with Some e => Err e | None => Ok a end | r => r end.

Definition ListDeployments (c : Client) (skip limit : Z) : call DeploymentList :=
  if (skip <? 0)%Z then fail (Errorf "console: deployment pagination skip must be non-negative, got %d" [FormatInt skip])
  else if (limit <? 1)%Z then fail (Errorf "console: deployment pagination limit must be greater than zero, got %d" [FormatInt limit])
  else
    out ← doData P c MethodGet ("/v1/deployments?skip=" +:+ FormatInt skip +:+ "&limit=" +:+ FormatInt limit) None zero_deployment_list dec_deployment_list;
    mret (MkDeploymentList (regroupLeases (dl_Deployments out)) (dl_Pagination out)).

(** [more] pages may still be asked for. *)
Fixpoint list_pages (c : Client) (more : nat) (skip : Z) (all : list DeploymentListItem) : call (list DeploymentListItem) :=
  match more with
  | O => fail deploymentPaginationLimitError
  | S more =>
      page ← ListDeployments c skip deploymentCollectionPageSize;
      if (maxDeploymentCollectionRecords - length all <? length (dl_Deployments page))%nat then fail deploymentPaginationLimitError
      else
        let all := all ++ dl_Deployments page in
        let p := dl_Pagination page in
        if negb (pg_HasMore p) then mret all
        else
          let step := if (pg_Limit p <=? 0)%Z then Z.of_nat (length (dl_Deployments page)) else pg_Limit p in
          let next := wrap_i64 (pg_Skip p + step) in
          if (step <=? 0)%Z || (next <=? skip)%Z
          then fail (Errorf "console: deployment pagination did not advance from skip %d" [FormatInt skip])
          else list_pages c more next all
  end.
Definition listAllDeployments (c : Client) : call (list DeploymentListItem) := list_pages c maxDeploymentCollectionPages 0 [].

(** A slice expression panics when its bounds are out of order. *)
Definition slice {A} (l : list A) (start stop : Z) : result (list A) :=
  if ((0 <=? start) && (start <=? stop) && (stop <=? Z.of_nat (length l)))%Z
  then Ok (take (Z.to_nat (stop - start)) (drop (Z.to_nat start) l)) else Panic.

Definition ListDeploymentsByState (c : Client) (state : string) (skip limit : Z) : call DeploymentList :=
  if (skip <? 0)%Z then fail (Errorf "console: deployment pagination skip must be non-negative, got %d" [FormatInt skip])
  else if (limit <? 1)%Z then fail (Errorf "console: deployment pagination limit must be greater than zero, got %d" [FormatInt limit])
  else
    let state := ToLower (TrimSpace state) in
    if negb (bool_decide (state = "active")) && negb (bool_decide (state = "closed"))
    then fail (Errorf "console: deployment state must be active or closed, got %q" [state])
    else
      all ← listAllDeployments c;
      let filtered := List.filter (λ item, EqualFold (dp_State (li_Deployment item)) state) all in
      let total := Z.of_nat (length filtered) in
      let start := if (total <? skip)%Z then total else skip in
      let stop := wrap_i64 (start + limit) in
      let stop := if (total <? stop)%Z then total else stop in
      page ← lift (slice filtered start stop);
      mret (MkDeploymentList page (MkPagination total skip limit (stop <? total)%Z)).

Definition GetDeployment (c : Client) (dseq : string) : call DeploymentDetail :=
  check (validateDSeq dseq);;
  doData P c MethodGet ("/v1/deployments/" +:+ dseq) None zero_detail dec_detail.

(** ** Creation without options *)
Definition version_params (versionHash : string) : option json := Some (JObj [("versionHash", enc_string versionHash)]).

(** The deployments that were not there before and carry the hash. *)
Definition created_matches (known : gset string) (versionHash : string) (items : list DeploymentListItem) : list string :=
  List.filter (λ dseq, validDeploymentDSeq dseq)
    (omap (λ item, let d := li_Deployment item in
                   if bool_decide (dp_DSeq d ∈ known) || negb (bool_decide (dp_Hash d = versionHash)) then None else Some (dp_DSeq d)) items).

Fixpoint reconcile_created (c : Client) (known : gset string) (versionHash manifest : string) (more : nat) : call (option CreateDeploymentResult) :=
  match more with
  | O => mret None
  | S more =>
      r ← attempt (listAllDeployments c);
      let again : call (option CreateDeploymentResult) :=
        match more with
        | O => mret None
        | _ => w ← attempt (waitForRetry P); match w with Ok _ => reconcile_created c known versionHash manifest more | _ => mret None end
        end in
      match r with
      | Ok items =>
          match created_matches known versionHash items with
          | [] => again
          | [dseq] => mret (Some (MkCreateResult dseq manifest None))
          | _ => mret None
          end
      | _ => again
      end
  end.
Definition reconcileCreatedDeployment (c : Client) (known : gset string) (versionHash manifest : string) : call (option CreateDeploymentResult) :=
  reconcile_created c known versionHash manifest (maxRetries + 2).

Definition unknown_create : string :=
  "deployment creation outcome unknown after one submission (%w); the request was not replayed: inspect `akt console deployment list` for SDL version %s".

Definition create_plain (c : Client) (sdl : string) : call CreateDeploymentResult :=
  match deploymentArtifacts sdl with
  | Ok (versionHash, manifest_json) =>
      let manifest := json_text None manifest_json in
      match rejectUnsealedReferences sdl with
      | Some e => refuse P c "create-deployment" "" e
      | None =>
          snapshot ← attempt (listAllDeployments c);
          match snapshot with
          | Ok before =>
              let known : gset string := list_to_set ((λ item, dp_DSeq (li_Deployment item)) <$> before) in
              r ← attempt (doData P c MethodPost "/v1/deployments" (Some (envelope (JObj [("sdl", enc_string sdl)]))) zero_create_result dec_create_result);
              match then_check validateCreateDeploymentResult r with
              | Ok out =>
                  recordOutcome P c "create-deployment" (cr_DSeq out) "success" None (version_params versionHash);;
                  mret (if bool_decide (cr_Manifest out = "") then MkCreateResult (cr_DSeq out) manifest (cr_SignTx out) else out)
              | Err e =>
                  if definitiveCreateFailure e then recordOutcome P c "create-deployment" "" "failed" (Some e) (version_params versionHash);; fail e
                  else
                    reconciled ← reconcileCreatedDeployment c known versionHash manifest;
                    match reconciled with
                    | Some out => recordOutcome P c "create-deployment" (cr_DSeq out) "success" None (version_params versionHash);; mret out
                    | None => let unknown := Wrapf unknown_create [versionHash] e in
                              recordOutcome P c "create-deployment" "" "pending" (Some unknown) (version_params versionHash);; fail unknown
                    end
              | Panic => lift Panic
              end
          | Err e => let wrapped := Wrapf "snapshot deployments before create: %w" [] e in
                     recordOutcome P c "create-deployment" "" "failed" (Some wrapped) (version_params versionHash);; fail wrapped
          | Panic => lift Panic
          end
      end
  | Err e => let wrapped := Wrapf "prepare deployment SDL: %w" [] e in
             recordOutcome P c "create-deployment" "" "failed" (Some wrapped) None;; fail wrapped
  | Panic => lift Panic
  end.

(** ** Updates *)
Definition requireMutableDeployment (c : Client) (dseq : string) : call DeploymentDetail :=
  detail ← GetDeployment c dseq; check (requireMutableState detail dseq);; mret detail.

Definition validateDeploymentUpdateResult (dseq expectedHash : string) (d : DeploymentDetail) : option error :=
  if negb (bool_decide (dp_DSeq (dd_Deployment d) = dseq))
  then Some (Errorf "console: deployment update response returned dseq %q, want %q" [dp_DSeq (dd_Deployment d); dseq])
  else if negb (bool_decide (dp_Hash (dd_Deployment d) = expectedHash))
  then Some (Errorf "console: deployment update response returned SDL hash %q, want %q" [dp_Hash (dd_Deployment d); expectedHash])
  else None.

(** The detail when it shows the update. *)
Definition reconcileDeploymentUpdate (c : Client) (dseq expectedHash : string) : call (option DeploymentDetail) :=
  r ← attempt (GetDeployment c dseq);
  mret match then_check (validateDeploymentUpdateResult dseq expectedHash) r with Ok d => Some d | _ => None end.

Fixpoint update_attempts (c : Client) (dseq rawSDL expectedHash : string) (more : nat) : call DeploymentDetail :=
  match more with
  | O => lift Panic (* never reached: the last attempt returns *)
  | S more =>
      r ← attempt (doData P c MethodPut ("/v1/deployments/" +:+ dseq) (Some (envelope (JObj [("sdl", enc_string rawSDL)]))) zero_detail dec_detail);
      match then_check (validateDeploymentUpdateResult dseq expectedHash) r with
      | Ok out => record P c "update-deployment" dseq None;; mret out
      | Err lastErr =>
          reconciled ← reconcileDeploymentUpdate c dseq expectedHash;
          match reconciled with
          | Some detail => record P c "update-deployment" dseq None;; mret detail
          | None =>
              if negb (isTransientManifestVersionError lastErr) || (more =? 0)%nat then refuse P c "update-deployment" dseq lastErr
              else w ← attempt (waitForRetry P);
                   match w with
                   | Err e => refuse P c "update-deployment" dseq e
                   | _ => update_attempts c dseq rawSDL expectedHash more
                   end
          end
      | Panic => lift Panic
      end
  end.
Definition updateDeploymentSDL (c : Client) (dseq rawSDL expectedHash : string) : call DeploymentDetail :=
  update_attempts c dseq rawSDL expectedHash maxRetries.

(** [UpdateDeployment] without options. *)
Definition update_plain (c : Client) (dseq sdl : string) : call DeploymentDetail :=
  match validateDSeq dseq with
  | Some e => refuse P c "update-deployment" dseq e
  | None =>
      match deploymentArtifacts sdl with
      | Ok (expectedHash, _) =>
          match rejectUnsealedReferences sdl with
          | Some e => refuse P c "update-deployment" dseq e
          | None =>
              r ← attempt (requireMutableDeployment c dseq);
              match r with
              | Err e => refuse P c "update-deployment" dseq (Wrapf "preflight deployment update: %w" [] e)
              | _ => updateDeploymentSDL c dseq sdl expectedHash
              end
          end
      | Err e => refuse P c "update-deployment" dseq (Wrapf "prepare deployment SDL: %w" [] e)
      | Panic => lift Panic
      end
  end.
End deploy.
