(* ===== verification/ConsoleLease.v ===== *)
(** * Closing, bids, leases and settings on the Console API (internal/console/deployments.go)

    The second half of the deployment calls. A loop that observes a mutation until
    its 30 s window ends makes at most sixteen observations, two seconds apart; the
    pause after the fifteenth pause finds the context done. *)

From Stdlib Require Import Ascii.
From stdpp Require Import sorting base gmap strings pretty option numbers list.
From S2P Require Import Prelude GoStd GoJson StoreExport Context Workflow ConfigDoc GoText ConsoleHttp ConsoleTypes ConsoleDeploy.

Section lease.
Context {E : Type} (P : Peer E) `{Lexer}.
Abbreviation call := (call E).

(** ** Closing *)

(** What one observation of a closing deployment shows: it is closed, or why that is
    not known. *)
Definition observe_closed (dseq : string) (r : result DeploymentDetail) : option error :=
  match r with
  | Err e => if is_err e ErrNotFound then None else Some e
  | Ok d =>
      if negb (bool_decide (dp_DSeq (dd_Deployment d) = dseq))
      then Some (Errorf "console: close reconciliation returned dseq %q, want %q" [dp_DSeq (dd_Deployment d); dseq])
      else if state_closed (dd_Deployment d) then None
      else Some (Errorf "deployment %s remains %s" [dseq; dp_State (dd_Deployment d)])
  | Panic => None
  end.

Fixpoint reconcileClosedDeploymentUntil (c : Client) (dseq : string) (pauses : nat) : call (option error) :=
  r ← attempt (GetDeployment P c dseq);
  match observe_closed dseq r with
  | None => mret None
  | Some lastErr =>
      match pauses with
      | O => mret (Some (Joined lastErr DeadlineExceeded))
      | S pauses =>
          w ← attempt (waitForMutationObservation P);
          match w with
          | Err e => mret (Some (Joined lastErr e))
          | _ => reconcileClosedDeploymentUntil c dseq pauses
          end
      end
  end.
Definition reconcileClosedDeployment (c : Client) (dseq : string) : call (option error) := reconcileClosedDeploymentUntil c dseq mutationObservations.

Definition already_closed (dseq : string) : error := Wrapf "%w (dseq %s)" [dseq] ErrAlreadyClosed.
Definition unknown_close : string :=
  "close deployment outcome unknown after one submission (%w); the request was not replayed: inspect with `akt console deployment get %s`; if it remains active, retry `akt close %s`".

(** The member [success] of the reply. *)
Definition dec_success : decoder (option bool) := dec_struct false [("success", dec_ptr false dec_bool)].
Definition acknowledged (s : option bool) : option error :=
  if bool_decide (s = Some true) then None else Some (New_error "console: close deployment response did not acknowledge success: true").

Definition CloseDeployment (c : Client) (dseq : string) : call unit :=
  match validateDSeq dseq with
  | Some e => refuse P c "close-deployment" dseq e
  | None =>
      r ← attempt (GetDeployment P c dseq);
      match r with
      | Err e => refuse P c "close-deployment" dseq
                   (if is_err e ErrNotFound then already_closed dseq else Wrapf "preflight close deployment: %w" [] e)
      | Ok detail =>
          if state_closed (dd_Deployment detail) then refuse P c "close-deployment" dseq (already_closed dseq)
          else
            r ← attempt (doData P c MethodDelete ("/v1/deployments/" +:+ dseq) None None dec_success);
            match then_check acknowledged r with
            | Ok _ => record P c "close-deployment" dseq None
            | Err postErr =>
                if isAlreadyClosed postErr then refuse P c "close-deployment" dseq (already_closed dseq)
                else if definitiveCreateFailure postErr then refuse P c "close-deployment" dseq postErr
                else
                  reconciled ← reconcileClosedDeployment c dseq;
                  match reconciled with
                  | None => record P c "close-deployment" dseq None
                  | Some reconcileErr =>
                      let unknown := Wrapf unknown_close [dseq; dseq] (Joined postErr reconcileErr) in
                      recordOutcome P c "close-deployment" dseq "pending" (Some unknown) None;; fail unknown
                  end
            | Panic => lift Panic
            end
      | Panic => lift Panic
      end
  end.

(** ** Bids *)
Definition dec_wrapped_bid : decoder Bid := dec_struct false [("bid", dec_console_bid)].
Definition FetchBids (c : Client) (dseq : string) : call (list Bid) :=
  check (validateDSeq dseq);;
  bids ← doData P c MethodGet ("/v1/bids?dseq=" +:+ dseq) None None (dec_slice zero_console_bid dec_wrapped_bid);
  mret (default [] bids).

(** ** Leases *)
Definition readCreatedLeases (c : Client) (requested : list LeaseRequest) : call DeploymentDetail :=
  match requested with
  | [] => fail (New_error "console: lease reconciliation requires a deployment")
  | first :: rest =>
      if bool_decide (lr_DSeq first = "") then fail (New_error "console: lease reconciliation requires a deployment")
      else if existsb (λ req, negb (bool_decide (lr_DSeq req = lr_DSeq first))) rest
      then fail (New_error "console: lease reconciliation requires one deployment")
      else
        detail ← GetDeployment P c (lr_DSeq first);
        if requestedLeasesActive (dd_Leases detail) requested then mret detail
        else fail (Errorf "deployment %s does not contain every requested active lease" [lr_DSeq first])
  end.

Fixpoint reconcileCreatedLeasesUntil (c : Client) (requested : list LeaseRequest) (pauses : nat) : call (DeploymentDetail + error) :=
  r ← attempt (readCreatedLeases c requested);
  match r with
  | Ok detail => mret (inl detail)
  | Err lastErr =>
      match pauses with
      | O => mret (inr (Joined lastErr DeadlineExceeded))
      | S pauses =>
          w ← attempt (waitForMutationObservation P);
          match w with
          | Err e => mret (inr (Joined lastErr e))
          | _ => reconcileCreatedLeasesUntil c requested pauses
          end
      end
  | Panic => lift Panic
  end.
Definition reconcileCreatedLeases (c : Client) (requested : list LeaseRequest) : call (DeploymentDetail + error) :=
  reconcileCreatedLeasesUntil c requested mutationObservations.

Definition leases_dseq (leases : list LeaseRequest) : string := match leases with l :: _ => lr_DSeq l | [] => "" end.
Definition lease_body (manifest : string) (leases : list LeaseRequest) : json :=
  JObj ([("leases", JArr (enc_lease_request <$> leases))] ++ if bool_decide (manifest = "") then [] else [("manifest", enc_string manifest)]).
Definition check_leases (leases : list LeaseRequest) (out : DeploymentDetail) : option error :=
  if requestedLeasesActive (dd_Leases out) leases then None
  else Some (New_error "console: create lease response omitted a requested active lease").

(** The error that names one of the two recognized codes. *)
Definition lease_code_error (dseq : string) (e : error) : option error :=
  match as_http e with
  | Some (_, body) =>
      if bool_decide (body = "manifest_not_delivered") then
        Some (Wrapf "console: lease for deployment %s exists, but its manifest was not delivered; retry the same lease request or close the deployment to stop paying: %w" [dseq] e)
      else if bool_decide (body = "provider_unreachable") then
        Some (Wrapf "console: provider could not be reached before lease creation; choose another bid: %w" [] e)
      else None
  | None => None
  end.

Definition unknown_delivery : string :=
  "lease creation or manifest delivery outcome unknown after one submission (%w); inspect `akt console deployment get %s`, then retry the same lease request to complete delivery; the request was not replayed".
Definition unknown_lease : string :=
  "lease creation outcome unknown after one submission (%w); the request was not replayed: inspect with `akt console deployment get %s` for the requested active lease".

Definition CreateLease (c : Client) (manifest : string) (leases : list LeaseRequest) : call DeploymentDetail :=
  check (head (omap (λ l, validateDSeq (lr_DSeq l)) leases));;
  let dseq := leases_dseq leases in
  let rc := if bool_decide (manifest = "") then sensitiveClient c else c in
  r ← attempt (doData P rc MethodPost "/v1/leases" (Some (lease_body manifest leases)) zero_detail dec_detail);
  match then_check (check_leases leases) r with
  | Ok out => record P c "create-lease" dseq None;; mret out
  | Err e =>
      match lease_code_error dseq e with
      | Some e => refuse P c "create-lease" dseq e
      | None =>
          if bool_decide (manifest = "") then
            if definitiveCreateFailure e then refuse P c "create-lease" dseq e
            else let unknown := Wrapf unknown_delivery [dseq] e in
                 recordOutcome P c "create-lease" dseq "pending" (Some unknown) None;; fail unknown
          else if definitiveCreateFailure e then
            r ← attempt (readCreatedLeases c leases);
            match r with
            | Ok detail => record P c "create-lease" dseq None;; mret detail
            | _ => refuse P c "create-lease" dseq e
            end
          else
            reconciled ← reconcileCreatedLeases c leases;
            match reconciled with
            | inl detail => record P c "create-lease" dseq None;; mret detail
            | inr reconcileErr =>
                let unknown := Wrapf unknown_lease [dseq] (Joined e reconcileErr) in
                recordOutcome P c "create-lease" dseq "pending" (Some unknown) None;; fail unknown
            end
      end
  | Panic => lift Panic
  end.

(** ** Settings *)
Definition GetDeploymentSettings (c : Client) (dseq : string) : call DeploymentSettings :=
  check (validateDSeq dseq);;
  doData P c MethodGet ("/v2/deployment-settings/" +:+ dseq) None zero_settings dec_settings.

Definition runtimeLimitEchoed (got want : option Z) : bool := bool_decide (got = want).
Definition settings_echoed (dseq : string) (hours : option Z) (out : DeploymentSettings) : option error :=
  if bool_decide (se_DSeq out = Some dseq) && runtimeLimitEchoed (se_RuntimeLimitHours out) hours then None
  else Some (New_error "console: deployment settings response did not echo the requested dseq and runtime limit").

Definition SetDeploymentRuntimeLimit (c : Client) (dseq : string) (hours : option Z) : call DeploymentSettings :=
  match validateDSeq dseq with
  | Some e => refuse P c "update-deployment-settings" dseq e
  | None =>
      match hours with
      | Some h => if (h <? 1)%Z
                  then refuse P c "update-deployment-settings" dseq (Errorf "console: runtime limit must be at least 1 hour, got %d" [FormatInt h])
                  else mret tt
      | None => mret tt
      end;;
      r ← attempt (requireMutableDeployment P c dseq);
      match r with
      | Err e => refuse P c "update-deployment-settings" dseq (Wrapf "preflight deployment settings: %w" [] e)
      | _ =>
          r ← attempt (doData P c MethodPatch ("/v2/deployment-settings/" +:+ dseq)
                         (Some (envelope (JObj [("runtimeLimitHours", match hours with Some h => enc_int h | None => JNull end)]))) zero_settings dec_settings);
          match then_check (settings_echoed dseq hours) r with
          | Ok out => record P c "update-deployment-settings" dseq None;;
                      mret (MkSettings (se_DSeq out) (Some (default false (se_AutoTopUpEnabled out))) (se_RuntimeLimitHours out) (se_RuntimeEndsAt out))
          | Err e => refuse P c "update-deployment-settings" dseq e
          | Panic => lift Panic
          end
      end
  end.
End lease.
