(* ===== verification/ConsoleSecrets.v ===== *)
(** * Deployments with secrets on the Console API (internal/console/deployment_secrets.go, secrets.go)

    Reading a file of secrets, the key material they are sealed with, and the calls
    that use Console's saved definition of a deployment. go-jose is a parameter: the
    key it decodes and the token it produces. *)

From Stdlib Require Import Ascii.
From stdpp Require Import sorting base gmap strings pretty option numbers list.
From S2P Require Import Prelude GoStd GoJson Context Workflow ConfigDoc ConfigPatch ConfigApply ConfigDiff ActionLog GoText ConsoleHttp ConsoleTypes ConsoleDeploy.

(** ** Secret values (secrets.go) *)

(** [None] is the zero value: no source was given. *)
Definition SecretValues : Type := option (gmap string string).
Definition EmptySecretValues : SecretValues := Some ∅.
Definition Supplied (s : SecretValues) : bool := bool_decide (is_Some s).

Definition maxSecretInputBytes : N := 2097152.
Definition maxSecretValueBytes : N := 16384.

Definition name_start (c : ascii) : bool := byte_in 65 90 c || byte_in 97 122 c || bool_decide (c = "_"%char).
Definition name_rest (c : ascii) : bool := name_start c || byte_in 48 57 c.
(** ^[A-Za-z_][A-Za-z0-9_]{0,63}$ *)
Definition valid_secret_name (s : string) : bool :=
  match bytes_of s with c :: l => name_start c && forallb name_rest l && (length l <=? 63)%nat | [] => false end.

(** Nodes with an anchor of their own, which [ynode] does not show. *)
Class Anchors : Type := anchored : ynode → bool.

Definition shape_error : error := New_error "console: secrets must be a JSON or YAML object of strings".
Definition secret_entry `{Anchors} (values : gmap string string) (kv : ynode * ynode) : result (gmap string string) :=
  match kv.1 with
  | YScalar _ "!!str" name _ =>
      if negb (valid_secret_name name)
      then Err (New_error "console: invalid secret name; use 1-64 letters, digits, or underscores, starting with a letter or underscore")
      else if bool_decide (is_Some (values !! name)) then Err (New_error "console: secret names must be unique")
      else match kv.2 with
           | YScalar _ "!!str" v _ =>
               if anchored kv.2 then Err (New_error "console: each secret value must be a string without YAML aliases")
               else if (maxSecretValueBytes <? byte_len (json_quote (json_coerce v)))%N
               then Err (New_error "console: each JSON-encoded secret value must fit within 16 KiB")
               else Ok (<[name := v]> values)
           | _ => Err (New_error "console: each secret value must be a string without YAML aliases")
           end
  | _ => Err (New_error "console: invalid secret name; use 1-64 letters, digits, or underscores, starting with a letter or underscore")
  end.

(** [input] is what reading gives. *)
Definition ReadSecretValues `{Yaml, Anchors} (input : result string) : result SecretValues :=
  match input with
  | Ok raw =>
      if (maxSecretInputBytes <? byte_len raw)%N then Err (New_error "console: secret input exceeds 2 MiB")
      else match yaml_Decode raw with
           | None => Err shape_error
           | Some (_, true) => Err (New_error "console: secret input must contain exactly one document")
           | Some (YMap _ items, false) =>
               if (100 <? length items)%nat then Err (New_error "console: a deployment accepts at most 100 secrets")
               else Some <$> foldR secret_entry ∅ items
           | Some (_, false) => Err shape_error
           end
  | _ => Err (New_error "console: cannot read secret input")
  end.

(** What a path names: a regular file with what opening and reading it gives, or
    something else. *)
Inductive file : Type := Regular (content : result string) | Special.
(** [opened] tells whether opening succeeds and still finds a regular file. *)
Definition ReadSecretValuesFile `{Yaml, Anchors} (files : gmap string file) (opened : option error) (path : string)
    (input : option (result string)) : result SecretValues :=
  if bool_decide (path = "") then Ok None
  else if bool_decide (path = "-") then
    match input with Some r => ReadSecretValues r | None => Err (New_error "console: secret input stream is unavailable") end
  else match files !! path with
       | Some (Regular content) => match opened with Some e => Err e | None => ReadSecretValues content end
       | _ => Err (New_error "console: secrets file must be a readable regular file")
       end.

(** ** The request of a patch (json tags of deploymentconfig.Patch) *)
Definition omit_ptr {A} (name : string) (enc : A → json) (v : option A) : list (string * json) :=
  match v with Some a => [(name, enc a)] | None => [] end.
Definition omit_map {A} (name : string) (enc : A → json) (m : gmap string A) : list (string * json) :=
  if bool_decide (size m = 0) then [] else [(name, JObj ((λ kv, (json_coerce kv.1, enc kv.2)) <$> sorted_members m))].
Definition enc_strings (l : list string) : json := JArr (enc_string <$> l).
Definition enc_http (o : HTTPOptionsPatch) : json := JObj (
  omit_ptr "maxBodySize" enc_uint (ho_MaxBodySize o) ++ omit_ptr "readTimeout" enc_uint (ho_ReadTimeout o)
  ++ omit_ptr "sendTimeout" enc_uint (ho_SendTimeout o) ++ omit_ptr "nextTries" enc_uint (ho_NextTries o)
  ++ omit_ptr "nextTimeout" enc_uint (ho_NextTimeout o) ++ omit_ptr "nextCases" enc_strings (ho_NextCases o)).
Definition enc_expose (e : ExposePatch) : json := JObj (
  omit_ptr "port" enc_uint (ep_Port e) ++ omit_ptr "as" enc_uint (ep_As e) ++ omit_ptr "accept" enc_strings (ep_Accept e)
  ++ omit_ptr "httpOptions" enc_http (ep_HTTPOptions e)).
Definition enc_storage (s : StoragePatch) : json := JObj (omit_ptr "mount" enc_string (sp_Mount s) ++ omit_ptr "readOnly" enc_bool (sp_ReadOnly s)).
Definition enc_service_patch (s : ServicePatch) : json := JObj (
  omit_ptr "image" enc_string (sv_Image s) ++ omit_ptr "command" id (sv_Command s) ++ omit_ptr "args" id (sv_Args s)
  ++ omit_map "env" (enc_ptr enc_string) (sv_Env s) ++ omit_ptr "credentials" id (sv_Credentials s)
  ++ omit_map "expose" enc_expose (sv_Expose s) ++ omit_map "storage" enc_storage (sv_Storage s)).
Definition patch_request (p : Patch) (sealed : string) : json := JObj (
  omit_map "services" enc_service_patch (pt_Services p) ++ omit_ptr "name" enc_string (pt_Name p)
  ++ omit_str "ifManifestVersion" (pt_IfManifestVersion p) ++ omit_str "sealedSecrets" sealed).

(** ** Sealing *)
Record JWK : Type := MkJWK { jwk_rsa : option (Z * Z); jwk_Algorithm : string; jwk_Use : string; jwk_KeyID : string }. (* the bits of N, and E *)
Record SecretsContext : Type := MkSecretsContext { sc_Subject : string; sc_KeyID : string; sc_JWK : JWK; sc_RequiredClaims : list string }.

(** The headers kid, sub and exp, the hash of the SDL when there is one, the key and
    the plaintext; [None] when the encryption fails. *)
Class Jose : Type := {
  dec_jwk : decoder JWK;
  jose_Encrypt : string → string → Z → option string → JWK → json → option string;
  sha256 : string → string; (* base64.RawURLEncoding of the digest *)
}.

Definition validateSecretsContext (v : SecretsContext) : option error :=
  let k := sc_JWK v in
  if match jwk_rsa k with
     | Some (bits, e) => ((bits <? 2048) || (8192 <? bits) || (e <? 3) || (e mod 2 =? 0))%Z
     | None => true
     end
     || negb (bool_decide (jwk_Algorithm k = "RSA-OAEP-256")) || negb (bool_decide (jwk_Use k = "enc"))
     || bool_decide (sc_Subject v = "") || bool_decide (sc_KeyID v = "")
  then Some (New_error "console: invalid secret encryption context")
  else if negb (bool_decide (jwk_KeyID k = "")) && negb (bool_decide (jwk_KeyID k = sc_KeyID v))
  then Some (New_error "console: secret encryption key identifiers disagree")
  else if existsb (λ claim, negb (bool_decide (claim ∈ ["sub"; "kid"; "exp"]))) (sc_RequiredClaims v)
  then Some (New_error "console: secret encryption context requires unsupported claims")
  else if negb (forallb (λ claim, bool_decide (claim ∈ sc_RequiredClaims v)) ["sub"; "kid"; "exp"])
  then Some (New_error "console: secret encryption context omits required claims")
  else None.

Definition sealSecrets_at `{Jose} (v : SecretsContext) (secrets : SecretValues) (rawSDL : string) (now : Z) : result string :=
  match validateSecretsContext v with
  | Some e => Err e
  | None =>
      match jose_Encrypt (sc_KeyID v) (sc_Subject v) (now + 300) (if bool_decide (rawSDL = "") then None else Some (sha256 rawSDL))
              (sc_JWK v) (enc_map (Some (default ∅ secrets))) with
      | Some token => Ok token
      | None => Err (New_error "console: cannot encrypt secrets")
      end
  end.

Definition zero_secrets_context : SecretsContext := MkSecretsContext "" "" (MkJWK None "" "" "") [].
Definition dec_secrets_context `{Jose} : decoder SecretsContext := dec_struct false [
  ("sub", field sc_Subject (λ v r, MkSecretsContext v (sc_KeyID r) (sc_JWK r) (sc_RequiredClaims r)) dec_string);
  ("kid", field sc_KeyID (λ v r, MkSecretsContext (sc_Subject r) v (sc_JWK r) (sc_RequiredClaims r)) dec_string);
  ("jwk", field sc_JWK (λ v r, MkSecretsContext (sc_Subject r) (sc_KeyID r) v (sc_RequiredClaims r)) dec_jwk);
  ("requiredClaims", field sc_RequiredClaims (λ v r, MkSecretsContext (sc_Subject r) (sc_KeyID r) (sc_JWK r) v)
                       (λ j _, default [] <$> dec_slice "" dec_string j None))].

Section secrets.
Context {E : Type} (P : Peer E) `{Lexer} `{Sdl} `{Yaml} `{Jose} (clock : E → Z).
Abbreviation call := (call E).

Definition GetSecretsContext (c : Client) : call SecretsContext :=
  v ← doData P (sensitiveClient c) MethodGet "/v1/sdl-secrets-context" None zero_secrets_context dec_secrets_context;
  check (validateSecretsContext v);; mret v.

Definition sealSecrets (c : Client) (secrets : SecretValues) (rawSDL : string) : call string :=
  v ← GetSecretsContext c;
  now ← on_peer (λ e, (e, clock e));
  lift (sealSecrets_at v secrets rawSDL now).

(** ** Creation *)
Record CreateDeploymentOptions : Type := MkCreateOptions { co_Secrets : SecretValues; co_InheritSecretsFrom : string }.

Definition unknown_sealed_create : string :=
  "deployment creation outcome unknown after one submission (%w); inspect `akt console deployment list` and `akt console deployment get <dseq>` before retrying; the request was not replayed".

Definition create_body (rawSDL seal inherit : string) : json :=
  JObj ((if bool_decide (inherit = "") then [] else [("inheritSecretsFrom", enc_string inherit)])
        ++ [("sdl", enc_string rawSDL); ("sealedSecrets", enc_string seal)]).

Definition createDeploymentWithSecrets (c : Client) (rawSDL : string) (o : CreateDeploymentOptions) : call CreateDeploymentResult :=
  let c := sensitiveClient c in
  match (if bool_decide (co_InheritSecretsFrom o = "") then None else validateDSeq (co_InheritSecretsFrom o)) with
  | Some e => refuse P c "create-deployment" "" e
  | None =>
      match deploymentArtifacts rawSDL with
      | Err _ => refuse P c "create-deployment" "" (New_error "console: invalid deployment SDL; validate its structure before creating")
      | Panic => lift Panic
      | Ok _ =>
          seal ← attempt (sealSecrets c (co_Secrets o) rawSDL);
          match seal with
          | Err e => refuse P c "create-deployment" "" e
          | Panic => lift Panic
          | Ok seal =>
              r ← attempt (doData P c MethodPost "/v1/deployments" (Some (envelope (create_body rawSDL seal (co_InheritSecretsFrom o)))) zero_create_result dec_create_result);
              match then_check (λ out, sanitizeSecretError <$> validateCreateDeploymentResult out) r with
              | Ok out =>
                  record P c "create-deployment" (cr_DSeq out) None;;
                  mret (MkCreateResult (cr_DSeq out) (cr_Manifest out)
                          ((λ t, MkSignTx (st_Code t) (st_TransactionHash t) "" (st_codePresent t)) <$> cr_SignTx out))
              | Err e =>
                  if definitiveCreateFailure e then refuse P c "create-deployment" "" e
                  else let unknown := Wrapf unknown_sealed_create [] e in
                       recordOutcome P c "create-deployment" "" "pending" (Some unknown) None;; fail unknown
              | Panic => lift Panic
              end
          end
      end
  end.

(** [options] has at most one value in the source; more are refused. *)
Definition CreateDeployment (c : Client) (sdl : string) (options : list CreateDeploymentOptions) : call CreateDeploymentResult :=
  match options with
  | [] => create_plain P c sdl
  | [o] => createDeploymentWithSecrets c sdl o
  | _ => fail (New_error "console: provide one deployment create options value")
  end.

Definition saved_definition (d : DeploymentDetail) : option DeploymentDefinition :=
  match dd_ConsoleSettings d with
  | Some f => if bool_decide (df_SDL f = "") || bool_decide (df_ManifestVersion f = "") then None else Some f
  | None => None
  end.

Definition GetDeploymentDefinition (c : Client) (dseq : string) : call DeploymentDefinition :=
  detail ← GetDeployment P c dseq;
  match saved_definition detail with
  | Some f => mret f
  | None => fail (Errorf "console: deployment %s has no saved definition; supply its original SDL file" [dseq])
  end.

(** ** Updates *)
Definition unknown_update : string :=
  "deployment update outcome unknown (%w); inspect `akt console deployment get %s`, then retry the identical update to complete delivery; the patch was not replayed".

Definition check_patched (dseq : string) (renameOnly : bool) (name : option string) (out : DeploymentDetail) : option error :=
  if negb (bool_decide (dp_DSeq (dd_Deployment out) = dseq))
  then Some (New_error "console: deployment patch response did not identify the requested deployment")
  else if renameOnly && negb (bool_decide (is_Some (dd_Name out) ∧ dd_Name out = name))
  then Some (New_error "console: deployment patch response did not acknowledge the requested name")
  else if negb renameOnly && (bool_decide (dd_ManifestVersion out = "") || negb (bool_decide (dp_Hash (dd_Deployment out) = dd_ManifestVersion out)))
  then Some (New_error "console: deployment patch response did not confirm the resulting chain version")
  else None.

(** The patch that is sent, once it is known to be more than a new name. *)
Definition guarded_patch (dseq : string) (patch : Patch) (current : DeploymentDetail) : result Patch :=
  match saved_definition current with
  | None => Err (Errorf "console: deployment %s has no saved definition; supply an ordinary SDL update first" [dseq])
  | Some f =>
      let patch := if bool_decide (pt_IfManifestVersion patch = "") then MkPatch (pt_Services patch) (pt_Name patch) (df_ManifestVersion f) else patch in
      _ ← Apply (df_SDL f) patch; Ok patch
  end.

Definition send_patch (c : Client) (dseq : string) (renameOnly : bool) (patch : Patch) (sealed : string) : call DeploymentDetail :=
  r ← attempt (doData P c MethodPatch ("/v1/deployments/" +:+ dseq) (Some (envelope (patch_request patch sealed))) zero_detail dec_detail);
  match then_check (check_patched dseq renameOnly (pt_Name patch)) r with
  | Ok out => record P c "update-deployment" dseq None;; mret out
  | Err e =>
      if definitiveCreateFailure e then refuse P c "update-deployment" dseq e
      else let unknown := Wrapf unknown_update [dseq] e in
           recordOutcome P c "update-deployment" dseq "pending" (Some unknown) None;; fail unknown
  | Panic => lift Panic
  end.

Definition patchDeploymentDefinition (c : Client) (dseq : string) (patch : Patch) (secrets : SecretValues) (current : DeploymentDetail) : call DeploymentDetail :=
  let patch := MkPatch (pt_Services patch) (TrimSpace <$> pt_Name patch) (pt_IfManifestVersion patch) in
  let renameOnly := negb (HasChanges (MkPatch (pt_Services patch) None (pt_IfManifestVersion patch)))
                    && bool_decide (is_Some (pt_Name patch)) && negb (Supplied secrets) in
  if renameOnly then
    if negb (bool_decide (pt_IfManifestVersion patch = ""))
    then refuse P c "update-deployment" dseq
           (New_error "console: rename-only patches cannot enforce ifManifestVersion; remove the version guard or include a configuration change")
    else send_patch c dseq true (MkPatch ∅ (pt_Name patch) "") ""
  else
    match guarded_patch dseq patch current with
    | Err e => refuse P c "update-deployment" dseq e
    | Panic => lift Panic
    | Ok patch =>
        seal ← attempt (sealSecrets c secrets "");
        match seal with
        | Err e => refuse P c "update-deployment" dseq e
        | Panic => lift Panic
        | Ok seal => send_patch c dseq false patch seal
        end
    end.

Definition updateDeploymentDefinition `{SortMixed} (c : Client) (dseq rawSDL : string) (secrets : SecretValues) : call DeploymentDetail :=
  let c := sensitiveClient c in
  match validateDSeq dseq with
  | Some e => refuse P c "update-deployment" dseq e
  | None =>
      match deploymentArtifacts rawSDL with
      | Err _ => refuse P c "update-deployment" dseq (New_error "prepare deployment SDL: invalid deployment SDL")
      | Panic => lift Panic
      | Ok (expectedHash, _) =>
          r ← attempt (requireMutableDeployment P c dseq);
          match r with
          | Err e => refuse P c "update-deployment" dseq e
          | Panic => lift Panic
          | Ok detail =>
              match dd_ConsoleSettings detail with
              | None =>
                  if match HasReferences rawSDL with Ok b => b | _ => true end || Supplied secrets
                  then refuse P c "update-deployment" dseq
                         (New_error "console: deployment has no saved definition; legacy updates accept only ordinary SDL without Console references or secret input")
                  else updateDeploymentSDL P c dseq rawSDL expectedHash
              | Some f =>
                  match Diff (df_SDL f) rawSDL with
                  | Err e => refuse P c "update-deployment" dseq e
                  | Panic => lift Panic
                  | Ok patch => patchDeploymentDefinition c dseq patch secrets detail
                  end
              end
          end
      end
  end.

(** [UpdateDeploymentOptions] is its secrets. *)
Definition UpdateDeployment `{SortMixed} (c : Client) (dseq sdl : string) (options : list SecretValues) : call DeploymentDetail :=
  match options with
  | [] => update_plain P c dseq sdl
  | [secrets] => updateDeploymentDefinition c dseq sdl secrets
  | _ => fail (New_error "console: provide one deployment update options value")
  end.

Definition PatchDeployment (c : Client) (dseq : string) (patch : Patch) (secrets : SecretValues) : call DeploymentDetail :=
  let c := sensitiveClient c in
  match Validate patch with
  | Some e => refuse P c "update-deployment" dseq e
  | None =>
      if negb (HasChanges patch) && negb (Supplied secrets)
      then refuse P c "update-deployment" dseq (New_error "console: an empty patch requires an explicit secrets file for rotation")
      else
        r ← attempt (requireMutableDeployment P c dseq);
        match r with
        | Err e => refuse P c "update-deployment" dseq e
        | Panic => lift Panic
        | Ok detail => patchDeploymentDefinition c dseq patch secrets detail
        end
  end.
End secrets.
