(* ===== verification/ConsoleAccount.v ===== *)
(** * The account on the Console API (internal/console/wallet.go, apikeys.go, manifests.go, marketplace.go)

    Wallets and their settings, API keys, provider tokens, cached manifests and the
    attributes of a provider (internal/provider/metadata.go). UUIDs are parsed by a
    library, which is a parameter. *)

From Stdlib Require Import Ascii.
From stdpp Require Import sorting base gmap strings pretty option numbers list.
From S2P Require Import Prelude GoStd GoJson Context Workflow ConfigDoc GoText ConsoleHttp ConsoleTypes ConsoleDeploy.

(** ** Payloads *)
Record User : Type := MkUser { us_ID : string; us_UserID : string; us_Username : string; us_Email : string; us_EmailVerified : bool }.
Definition zero_user : User := MkUser "" "" "" "" false.
Definition dec_user : decoder User := dec_struct false [
  ("id", field us_ID (λ v r, MkUser v (us_UserID r) (us_Username r) (us_Email r) (us_EmailVerified r)) dec_string);
  ("userId", field us_UserID (λ v r, MkUser (us_ID r) v (us_Username r) (us_Email r) (us_EmailVerified r)) dec_string);
  ("username", field us_Username (λ v r, MkUser (us_ID r) (us_UserID r) v (us_Email r) (us_EmailVerified r)) dec_string);
  ("email", field us_Email (λ v r, MkUser (us_ID r) (us_UserID r) (us_Username r) v (us_EmailVerified r)) dec_string);
  ("emailVerified", field us_EmailVerified (λ v r, MkUser (us_ID r) (us_UserID r) (us_Username r) (us_Email r) v) dec_bool)].

(** The credit is a float64 that is only printed. *)
Record Wallet : Type := MkWallet { wa_Address : string; wa_IsTrialing : bool; wa_Denom : string }.
Definition zero_wallet : Wallet := MkWallet "" false "".
Definition dec_wallet : decoder Wallet := dec_struct false [
  ("address", field wa_Address (λ v r, MkWallet v (wa_IsTrialing r) (wa_Denom r)) dec_string);
  ("creditAmount", drop_number);
  ("isTrialing", field wa_IsTrialing (λ v r, MkWallet (wa_Address r) v (wa_Denom r)) dec_bool);
  ("denom", field wa_Denom (λ v r, MkWallet (wa_Address r) (wa_IsTrialing r) v) dec_string)].

Record Balances : Type := MkBalances { ba_Balance : Z; ba_Deployments : Z; ba_Total : Z }.
Definition dec_balances : decoder Balances := dec_struct false [
  ("balance", field ba_Balance (λ v r, MkBalances v (ba_Deployments r) (ba_Total r)) dec_int64);
  ("deployments", field ba_Deployments (λ v r, MkBalances (ba_Balance r) v (ba_Total r)) dec_int64);
  ("total", field ba_Total (λ v r, MkBalances (ba_Balance r) (ba_Deployments r) v) dec_int64)].

Record APIKey : Type := MkAPIKey { ak_ID : string; ak_Name : string }.
(** The remaining members are printed only. *)
Definition drop_string {A} : decoder A := λ j a, (λ _, a) <$> dec_string j "".
Definition dec_api_key : decoder APIKey := dec_struct false [
  ("id", field ak_ID (λ v r, MkAPIKey v (ak_Name r)) dec_string); ("name", field ak_Name (λ v r, MkAPIKey (ak_ID r) v) dec_string);
  ("expiresAt", drop_string); ("createdAt", drop_string); ("lastUsedAt", drop_string); ("keyFormat", drop_string)].
Record CreatedAPIKey : Type := MkCreatedAPIKey { ck_ID : string; ck_Name : string; ck_APIKey : string }.
Definition dec_created_key : decoder CreatedAPIKey := dec_struct false [
  ("id", field ck_ID (λ v r, MkCreatedAPIKey v (ck_Name r) (ck_APIKey r)) dec_string);
  ("name", field ck_Name (λ v r, MkCreatedAPIKey (ck_ID r) v (ck_APIKey r)) dec_string);
  ("apiKey", field ck_APIKey (λ v r, MkCreatedAPIKey (ck_ID r) (ck_Name r) v) dec_string)].

(** ** Attributes of a provider (internal/provider/metadata.go) *)
Definition dec_attribute : decoder (string * string) := dec_struct false [
  ("key", field fst (λ v r, (v, r.2)) dec_string); ("value", field snd (λ v r, (r.1, v)) dec_string)].
Definition dec_attributes : decoder (option json) := dec_struct false [("attributes", λ j _, Some (Some j))].
Definition AttributesFromProviderJSON (raw : bytes) : option (gmap string string) :=
  match raw with
  | Text j =>
      match dec_attributes j None with
      | Some (Some attributes) =>
          match dec_slice ("", "") dec_attribute attributes None with
          | Some l => Some (foldl (λ m kv, <[kv.1 := kv.2]> m) ∅ (default [] l))
          | None => match dec_map attributes None with Some m => Some (default ∅ m) | None => None end
          end
      | _ => None
      end
  | Raw _ => None
  end.

(** ** Cached manifests (manifests.go) *)
Definition ManifestPath (root ctxName dseq : string) : result string :=
  match validateDSeq dseq with
  | Some e => Err e
  | None => Ok (Join [root; "contexts"; ctxName; "manifests"; dseq +:+ ".json"])
  end.
(** A failed write may leave part of the content. *)
Definition SaveManifest (mkdir : option error) (write : option (error * option string)) (root ctxName dseq manifest : string) (f : fs) : fs * result unit :=
  match ManifestPath root ctxName dseq with
  | Ok path =>
      match mkdir with
      | Some e => (f, Err (Wrapf "console: create manifests dir: %w" [] e))
      | None =>
          let f := os_MkdirAll (Join [root; "contexts"; ctxName; "manifests"]) f in
          match write with
          | Some (e, part) => (match part with Some data => <[path := NData data]> f | None => f end, Err (Wrapf "console: write manifest: %w" [] e))
          | None => (<[path := NData manifest]> f, Ok tt)
          end
      end
  | Err e => (f, Err e)
  | Panic => (f, Panic)
  end.
Definition ErrNotExist : error := Sentinel "file does not exist".
Definition LoadManifest (root ctxName dseq : string) (f : fs) : result string :=
  path ← ManifestPath root ctxName dseq;
  match f !! path with
  | Some (NData data) => Ok data
  | _ => Err (Wrapf "console: load manifest for dseq %s: %w" [dseq] ErrNotExist)
  end.

Definition MaxJWTTTLSeconds : Z := 3600.

Section account.
Context {E : Type} (P : Peer E) `{Lexer}.
(** [uuid.Parse] in its canonical text, and the escapes of net/url. *)
Context (uuid_Parse : string → string + error) (QueryEscape PathEscape : string → string).
Abbreviation call := (call E).

(** ** Wallets (wallet.go) *)
Definition GetUser (c : Client) : call User := doData P c MethodGet "/v1/user/me" None zero_user dec_user.
Definition GetBalances (c : Client) : call Balances := doData P c MethodGet "/v1/balances" None (MkBalances 0 0 0) dec_balances.
Definition ListWallets (c : Client) (userID : string) : call (list Wallet) :=
  l ← doData P c MethodGet ("/v1/wallets?userId=" +:+ QueryEscape userID) None None (dec_slice zero_wallet dec_wallet);
  mret (default [] l).

Definition wrap_call {A} (f : error → error) (m : call A) : call A := λ w, let '(w, r) := m w in (w, map_err f r).

Definition ManagedWalletAddress (c : Client) : call string :=
  user ← wrap_call (Wrapf "resolve Console managed wallet user: %w" []) (GetUser c);
  if bool_decide (TrimSpace (us_ID user) = "") then fail (New_error "resolve Console managed wallet user: response omitted user ID")
  else
    wallets ← wrap_call (Wrapf "resolve Console managed wallets: %w" []) (ListWallets c (us_ID user));
    match List.find (λ a, negb (bool_decide (a = ""))) ((λ w, TrimSpace (wa_Address w)) <$> wallets) with
    | Some address => mret address
    | None => fail (New_error "console account has no managed wallet address")
    end.

Definition dec_auto_reload : decoder (option bool) := dec_struct false [("autoReloadEnabled", dec_ptr false dec_bool)].
Definition GetWalletSettings (c : Client) : call bool :=
  doData P c MethodGet "/v1/wallet-settings" None false (dec_struct false [("autoReloadEnabled", dec_bool)]).

Definition UpdateWalletSettings (c : Client) (enabled : bool) : call bool :=
  let body := Some (envelope (JObj [("autoReloadEnabled", enc_bool enabled)])) in
  r ← attempt (doData P c MethodPut "/v1/wallet-settings" body None dec_auto_reload);
  r ← match r with
      | Err e => if is_err e ErrNotFound then attempt (doData P c MethodPost "/v1/wallet-settings" body None dec_auto_reload) else mret r
      | _ => mret r
      end;
  match then_check (λ out, if bool_decide (out = Some enabled) then None
                           else Some (New_error "console: wallet settings response did not echo the requested auto-reload value")) r with
  | Ok _ => record P c "update-wallet-settings" "" None;; mret enabled
  | Err e => refuse P c "update-wallet-settings" "" e
  | Panic => lift Panic
  end.

(** ** API keys (apikeys.go) *)
Definition ListAPIKeys (c : Client) : call (list APIKey) :=
  l ← doData P c MethodGet "/v1/api-keys" None None (dec_slice (MkAPIKey "" "") dec_api_key); mret (default [] l).

Definition unknown_key : string :=
  "API key creation outcome unknown after one submission (%w); the request was not replayed because its one-time secret cannot be recovered".
Definition check_created_key (name : string) (k : CreatedAPIKey) : option error :=
  if bool_decide (TrimSpace (ck_ID k) = "") || negb (bool_decide (ck_Name k = name)) || bool_decide (TrimSpace (ck_Name k) = "")
     || bool_decide (TrimSpace (ck_APIKey k) = "")
  then Some (New_error "console: API key response omitted its nonblank ID, requested name, or one-time secret") else None.

Definition CreateAPIKey (c : Client) (name expiresAt : string) : call CreatedAPIKey :=
  if bool_decide (TrimSpace name = "") then refuse P c "create-api-key" "" (New_error "console: API key name must not be blank")
  else
    let payload := JObj ((if bool_decide (expiresAt = "") then [] else [("expiresAt", enc_string expiresAt)]) ++ [("name", enc_string name)]) in
    r ← attempt (doData P c MethodPost "/v1/api-keys" (Some (envelope payload)) (MkCreatedAPIKey "" "" "") dec_created_key);
    match then_check (check_created_key name) r with
    | Ok out => record P c "create-api-key" "" None;; mret out
    | Err e =>
        if definitiveCreateFailure e then refuse P c "create-api-key" "" e
        else let unknown := Wrapf unknown_key [] e in
             recordOutcome P c "create-api-key" "" "pending" (Some unknown) (Some (JObj [("name", enc_string name)]));; fail unknown
    | Panic => lift Panic
    end.

Definition DeleteAPIKey (c : Client) (id : string) : call unit :=
  match uuid_Parse id with
  | inr e => refuse P c "delete-api-key" "" (Wrapf "console: API key ID must be a valid UUID: %w" [] e)
  | inl parsed =>
      r ← attempt (ListAPIKeys c);
      match r with
      | Err e => refuse P c "delete-api-key" "" (Wrapf "console: preflight API key deletion: %w" [] e)
      | Panic => lift Panic
      | Ok keys =>
          if existsb (λ k, match uuid_Parse (ak_ID k) with inl u => bool_decide (u = parsed) | inr _ => false end) keys then
            r ← attempt (doJSON P c MethodDelete ("/v1/api-keys/" +:+ PathEscape parsed) None false (λ _, Some tt));
            match r with
            | Err e => refuse P c "delete-api-key" "" e
            | _ => record P c "delete-api-key" "" None
            end
          else refuse P c "delete-api-key" "" (Wrapf "%w: API key %s" [parsed] ErrNotFound)
      end
  end.

Definition CreateJWTToken (c : Client) (ttl : Z) (scope : list string) : call string :=
  if (ttl <? 1)%Z || (MaxJWTTTLSeconds <? ttl)%Z
  then fail (Errorf "console: JWT TTL must be between 1 and %d seconds, got %d" [FormatInt MaxJWTTTLSeconds; FormatInt ttl])
  else
    token ← doData P c MethodPost "/v1/create-jwt-token"
              (Some (envelope (JObj [("leases", JObj [("access", JStr "scoped"); ("scope", JArr (enc_string <$> scope))]); ("ttl", enc_int ttl)])))
              "" (dec_struct false [("token", dec_string)]);
    if bool_decide (TrimSpace token = "") then fail (New_error "console: JWT response returned a blank token") else mret token.

(** ** Providers (marketplace.go) *)

(** The detail: whether it is audited, and the whole document. *)
Definition drop_bool {A} : decoder A := λ j a, (λ _, a) <$> dec_bool j false.
Definition dec_audited : decoder bool := dec_struct false [
  ("owner", drop_string); ("name", drop_string); ("hostUri", drop_string); ("isOnline", drop_bool); ("isAudited", dec_bool);
  ("uptime1d", drop_number); ("uptime7d", drop_number); ("uptime30d", drop_number)].
Definition GetProvider (c : Client) (address : string) : call (bool * bytes) :=
  raw ← doJSON P c MethodGet ("/v1/providers/" +:+ PathEscape address) None true (λ b, match b with Text j => Some j | Raw _ => None end);
  match dec_audited raw false with
  | Some audited => mret (audited, Text raw)
  | None => fail (Wrapf "console: decode provider detail: %w" [] ErrJSON)
  end.
End account.
