(* ===== verification/ConsoleSpec.v ===== *)
(** * What a Console call sends and logs

    The requests and log entries a call adds, by composition over the call monad: how
    many writes (POST or PATCH) it may send, and that no entry shows the API key. *)

From Stdlib Require Import Ascii.
From stdpp Require Import sorting base gmap strings pretty option numbers list.
From S2P Require Import Prelude GoStd GoJson Context Workflow ConfigDoc ConfigPatch ConfigApply ConfigDiff ActionLog GoText ConsoleHttp ConsoleTypes ConsoleDeploy ConsoleLease ConsoleSecrets ConsoleAccount.

(** A request that creates or changes something and must not be repeated. *)
Definition is_write (rq : request) : bool := bool_decide (rq_method rq = MethodPost) || bool_decide (rq_method rq = MethodPatch).

(** Keys the redaction removes for certain: no brackets, and no part of the word it
    puts in. *)
Definition key_ok (key : string) : Prop :=
  key ≠ "" ∧ "["%char ∉ bytes_of key ∧ "]"%char ∉ bytes_of key ∧ ¬ occurs (bytes_of key) (bytes_of "REDACTED").
Definition shows (key text : string) : Prop := occurs (bytes_of key) (bytes_of text).
Definition hides (key : string) (e : Entry) : Prop := key_ok key → ¬ shows key (e_Error e).

Lemma redacted key text : key_ok key → ¬ shows key (redactResponseSecret text key).
Proof.
  intros (Hne&Ha&Hb&Hm). unfold redactResponseSecret, shows, ReplaceAll.
  rewrite (bool_decide_eq_false_2 (key = "")) by done. rewrite bytes_of_of.
  change (bytes_of "[REDACTED]") with ("["%char :: bytes_of "REDACTED" ++ ["]"%char]).
  apply replace_removes; [|done..]. intros He. apply Hne. by rewrite <-(of_bytes_of key), He.
Qed.

(** [m] sends at most [n] writes and logs nothing that shows the key. *)
Definition effect {E A} (key : string) (n : nat) (m : call E A) : Prop :=
  ∀ w, ∃ l k, w_trace (m w).1 = w_trace w ++ l ∧ w_log (m w).1 = w_log w ++ k ∧
    length (List.filter is_write l) ≤ n ∧ Forall (hides key) k.

Create HintDb effects.

Section effects.
Context {E : Type} (P : Peer E) `{Lexer} (key : string).

Lemma effect_weaken {A} n n' (m : call E A) : n ≤ n' → effect key n m → effect key n' m.
Proof. intros Hn Hm w. destruct (Hm w) as (l&k&?&?&?&?). exists l, k. split_and!; [done..|lia|done]. Qed.

Lemma effect_pure {A} (m : call E A) : (∀ w, (m w).1 = w) → effect key 0 m.
Proof. intros Hm w. exists [], []. rewrite Hm, !app_nil_r. split_and!; [done..|constructor]. Qed.
Lemma effect_ret {A} (a : A) : effect key 0 (mret a : call E A).
Proof. by apply effect_pure. Qed.
Lemma effect_lift {A} (r : result A) : effect key 0 (lift r : call E A).
Proof. by apply effect_pure. Qed.
Lemma effect_fail {A} e : effect key 0 (fail e : call E A).
Proof. by apply effect_pure. Qed.
Lemma effect_check r : effect key 0 (check r : call E unit).
Proof. destruct r; by apply effect_pure. Qed.
Lemma effect_on_peer {A} (f : E → E * A) : effect key 0 (on_peer f).
Proof.
  intros w. exists [], []. unfold on_peer. destruct (f (w_peer w)). simpl. rewrite !app_nil_r. split_and!; [done..|constructor].
Qed.

Lemma effect_bind {A B} n k (m : call E A) (f : A → call E B) : effect key n m → (∀ a, effect key k (f a)) → effect key (n + k) (m ≫= f).
Proof.
  intros Hm Hf w. destruct (Hm w) as (l1&k1&Ht1&Hk1&Hn1&Hh1). unfold mbind, stateR_bind.
  destruct (m w) as [w' [a|e|]]; simpl in Ht1, Hk1.
  - destruct (Hf a w') as (l2&k2&Ht2&Hk2&Hn2&Hh2). exists (l1 ++ l2), (k1 ++ k2).
    rewrite Ht2, Hk2, Ht1, Hk1, !app_assoc. split_and!; [done..| |by apply Forall_app].
    rewrite List.filter_app, length_app. lia.
  - exists l1, k1. simpl. split_and!; [done..|lia|done].
  - exists l1, k1. simpl. split_and!; [done..|lia|done].
Qed.
(** The writes are all in one half. *)
Lemma effect_bind_l {A B} n (m : call E A) (f : A → call E B) : effect key n m → (∀ a, effect key 0 (f a)) → effect key n (m ≫= f).
Proof. intros. rewrite <-(Nat.add_0_r n). by apply effect_bind. Qed.
Lemma effect_bind_r {A B} n (m : call E A) (f : A → call E B) : effect key 0 m → (∀ a, effect key n (f a)) → effect key n (m ≫= f).
Proof. intros. by apply (effect_bind 0 n). Qed.

Lemma effect_attempt {A} n (m : call E A) : effect key n m → effect key n (attempt m).
Proof. intros Hm w. destruct (Hm w) as (l&k&?&?&?&?). exists l, k. unfold attempt. by destruct (m w) as [w' [|?|]]. Qed.
Lemma effect_wrap {A} f n (m : call E A) : effect key n m → effect key n (wrap_call f m).
Proof. intros Hm w. destruct (Hm w) as (l&k&?&?&?&?). exists l, k. unfold wrap_call. by destruct (m w). Qed.
Lemma effect_sanitized {A} c n (m : call E A) : effect key n m → effect key n (sanitized c m).
Proof. intros Hm w. destruct (Hm w) as (l&k&?&?&?&?). exists l, k. unfold sanitized. by destruct (m w). Qed.

Lemma effect_recordOutcome c action dseq status opErr params : c_apiKey c = key → effect key 0 (recordOutcome P c action dseq status opErr params).
Proof.
  intros Hc w. unfold recordOutcome. destruct (c_actionLog c); [|exists [], []; by rewrite !app_nil_r].
  eexists [], _. cbn [fst w_trace w_log]. split_and!; [by rewrite app_nil_r|reflexivity|done|].
  apply Forall_singleton. intros Hk. destruct opErr as [e|].
  - simpl. rewrite Hc. by apply redacted.
  - assert (∀ en, e_Error (set_e_Params params en) = e_Error en) as -> by done.
    assert (e_Error match ParseUint u64_max dseq with
      | Ok n => set_e_DSeq n (set_e_Status status (set_e_Action action (set_e_Type "console" zero_entry)))
      | _ => set_e_Status status (set_e_Action action (set_e_Type "console" zero_entry)) end = "") as -> by by destruct (ParseUint u64_max dseq).
    intros (x&y&He). apply (f_equal length) in He. rewrite !length_app in He. simpl in He. destruct Hk as [Hne _].
    destruct key; [done|]. simpl in He. lia.
Qed.

(** ** Requests *)
Lemma effect_send rq : effect key (if is_write rq then 1 else 0) (send P rq).
Proof.
  intros w. exists [rq], []. unfold send. destruct (p_send P (w_peer w) rq). simpl. rewrite app_nil_r.
  split_and!; [done..| |constructor]. by destruct (is_write rq).
Qed.
Lemma effect_wait : effect key 0 (waitForRetry P).
Proof. apply effect_bind_r; [apply effect_on_peer|intros; apply effect_check]. Qed.
Lemma effect_observe : effect key 0 (waitForMutationObservation P).
Proof. apply effect_bind_r; [apply effect_on_peer|intros; apply effect_check]. Qed.

(** A write is final whatever the reply. *)
Lemma write_final {A} c method path wants (decode : bytes → option A) status body :
  bool_decide (method = MethodPost) || bool_decide (method = MethodPatch) = true →
  ∀ e, judge c method path wants decode status body ≠ Again e.
Proof.
  intros Hw e. unfold judge.
  assert (retryableStatus method status = false) as ->.
  { unfold retryableStatus. destruct (_ && _); [done|].
    by apply orb_true_iff in Hw as [->%bool_decide_eq_true| ->%bool_decide_eq_true]. }
  repeat (destruct (_ && _) || case_match); done.
Qed.

Lemma effect_attempts {A} c method path body wants (decode : bytes → option A) more :
  effect key (if bool_decide (method = MethodPost) || bool_decide (method = MethodPatch) then 1 else 0)
    (attempts P c method path body wants decode more).
Proof.
  set (n := if bool_decide (method = MethodPost) || bool_decide (method = MethodPatch) then 1 else 0). induction more as [|more IH]; [eapply effect_weaken, effect_lift; lia|]. cbn [attempts].
  apply effect_bind_r; [apply effect_on_peer|]. intros [e|]; [eapply effect_weaken, effect_fail; lia|].
  destruct (p_url P _); [eapply effect_weaken, effect_fail; lia|].
  destruct (bool_decide (method = MethodPost) || bool_decide (method = MethodPatch)) eqn:Hw; subst n.
  - apply effect_bind_l.
    { pose proof (effect_send (MkRequest method (c_baseURL c +:+ path) (c_apiKey c) body)) as Hs. unfold is_write in Hs. simpl in Hs. by rewrite Hw in Hs. }
    intros [| |status b]; [apply effect_fail..|].
    pose proof (write_final c method path wants decode status b Hw) as Hf.
    destruct (judge c method path wants decode status b); [apply effect_ret|apply effect_fail|by destruct (Hf e)].
  - apply effect_bind_r.
    { pose proof (effect_send (MkRequest method (c_baseURL c +:+ path) (c_apiKey c) body)) as Hs. unfold is_write in Hs. simpl in Hs. by rewrite Hw in Hs. }
    intros [| |status b]; [apply effect_fail..|].
    destruct (judge c method path wants decode status b); [apply effect_ret|apply effect_fail|].
    destruct more; [apply effect_fail|]. apply effect_bind_r; [apply effect_wait|intros; apply IH].
Qed.

Lemma effect_doJSON {A} c method path body wants (decode : bytes → option A) :
  effect key (if bool_decide (method = MethodPost) || bool_decide (method = MethodPatch) then 1 else 0) (doJSON P c method path body wants decode).
Proof. apply effect_sanitized, effect_attempts. Qed.
Lemma effect_doData {A} c method path body (zero : A) dec :
  effect key (if bool_decide (method = MethodPost) || bool_decide (method = MethodPatch) then 1 else 0) (doData P c method path body zero dec).
Proof.
  apply effect_sanitized, effect_bind_l; [apply effect_doJSON|]. intros [[]|]; try apply effect_fail; (case_match; [apply effect_ret|apply effect_fail]).
Qed.

Lemma effect_get {A} c path body (zero : A) dec : effect key 0 (doData P c MethodGet path body zero dec).
Proof. apply (effect_doData c MethodGet). Qed.
Lemma effect_put {A} c path body (zero : A) dec : effect key 0 (doData P c MethodPut path body zero dec).
Proof. apply (effect_doData c MethodPut). Qed.
Lemma effect_delete {A} c path body (zero : A) dec : effect key 0 (doData P c MethodDelete path body zero dec).
Proof. apply (effect_doData c MethodDelete). Qed.
Lemma effect_post {A} c path body (zero : A) dec : effect key 1 (doData P c MethodPost path body zero dec).
Proof. apply (effect_doData c MethodPost). Qed.
Lemma effect_patch {A} c path body (zero : A) dec : effect key 1 (doData P c MethodPatch path body zero dec).
Proof. apply (effect_doData c MethodPatch). Qed.
Lemma effect_delete_json {A} c path body wants (decode : bytes → option A) : effect key 0 (doJSON P c MethodDelete path body wants decode).
Proof. apply (effect_doJSON c MethodDelete). Qed.
Lemma effect_get_json {A} c path body wants (decode : bytes → option A) : effect key 0 (doJSON P c MethodGet path body wants decode).
Proof. apply (effect_doJSON c MethodGet). Qed.
Lemma effect_record c action dseq opErr : c_apiKey c = key → effect key 0 (record P c action dseq opErr).
Proof. apply effect_recordOutcome. Qed.
Lemma effect_refuse {A} c action dseq e : c_apiKey c = key → effect key 0 (refuse P c action dseq e : call E A).
Proof. intros Hc. apply effect_bind_r; [by apply effect_record|intros; apply effect_fail]. Qed.
End effects.

#[export] Hint Resolve effect_ret effect_lift effect_fail effect_check effect_on_peer effect_get effect_put effect_delete effect_post effect_patch
  effect_delete_json effect_get_json effect_record effect_recordOutcome effect_refuse effect_wait effect_observe : effects.

(** Split a call into its parts; a part that sends nothing may come first. *)
Ltac effect_leaf := first
  [ solve [eauto with effects]
  | solve [eapply effect_weaken; [|solve [eauto with effects]]; lia] ].
Ltac effect_step :=
  lazymatch goal with
  | |- effect _ _ (attempt _) => apply effect_attempt
  | |- effect _ _ (wrap_call _ _) => apply effect_wrap
  | |- effect _ _ (if ?b then _ else _) => destruct b
  | |- effect _ _ (match ?x with _ => _ end) => destruct x
  | |- effect _ _ (let '(_, _) := ?x in _) => destruct x
  | |- ∀ _, effect _ _ _ => intros ?
  end.
Ltac effects :=
  cbv zeta; repeat first
    [ effect_leaf
    | effect_step
    | apply effect_bind_r; [solve [effects]|intros ?]
    | apply effect_bind_l; [|intros ?] ].

Section operations.
Context {E : Type} (P : Peer E) `{Lexer, Sdl, Yaml, Jose, SortMixed} (clock : E → Z) (c : Client).
Abbreviation effect := (effect (c_apiKey c)).

(** Reads. *)
Lemma effect_GetDeployment c' dseq : effect 0 (GetDeployment P c' dseq).
Proof. unfold GetDeployment. effects. Qed.
Lemma effect_ListDeployments c' skip limit : effect 0 (ListDeployments P c' skip limit).
Proof. unfold ListDeployments. effects. Qed.
Hint Resolve effect_GetDeployment effect_ListDeployments : effects.
Lemma effect_list_pages c' more skip all : effect 0 (list_pages P c' more skip all).
Proof. revert skip all; induction more as [|more IH]; intros skip all; simpl; [effects|]. effects. Qed.
Lemma effect_listAll c' : effect 0 (listAllDeployments P c').
Proof. apply effect_list_pages. Qed.
Hint Resolve effect_listAll : effects.
Lemma effect_reconcile_created c' known hash manifest more : effect 0 (reconcile_created P c' known hash manifest more).
Proof. induction more as [|more IH]; simpl; [effects|]. effects. Qed.
Lemma effect_requireMutable c' dseq : effect 0 (requireMutableDeployment P c' dseq).
Proof. unfold requireMutableDeployment. effects. Qed.
Lemma effect_reconcileUpdate c' dseq hash : effect 0 (reconcileDeploymentUpdate P c' dseq hash).
Proof. unfold reconcileDeploymentUpdate. effects. Qed.
Hint Resolve effect_reconcile_created effect_requireMutable effect_reconcileUpdate : effects.
Lemma effect_update_attempts c' dseq sdl hash more : c_apiKey c' = c_apiKey c → effect 0 (update_attempts P c' dseq sdl hash more).
Proof. intros Hc. induction more as [|more IH]; simpl; [effects|]. effects. Qed.
Lemma effect_reconcileClosed c' dseq pauses : effect 0 (reconcileClosedDeploymentUntil P c' dseq pauses).
Proof. induction pauses as [|pauses IH]; simpl; effects. Qed.
Lemma effect_readLeases c' leases : effect 0 (readCreatedLeases P c' leases).
Proof. unfold readCreatedLeases. effects. Qed.
Hint Resolve effect_readLeases : effects.
Lemma effect_reconcileLeases c' leases pauses : effect 0 (reconcileCreatedLeasesUntil P c' leases pauses).
Proof. induction pauses as [|pauses IH]; simpl; effects. Qed.
Lemma effect_sealSecrets c' secrets sdl : effect 0 (sealSecrets P clock c' secrets sdl).
Proof. unfold sealSecrets, GetSecretsContext. effects. Qed.
Hint Resolve effect_update_attempts effect_reconcileClosed effect_reconcileLeases effect_sealSecrets : effects.

(** Writes. *)
Lemma effect_create_plain sdl : effect 1 (create_plain P c sdl).
Proof. unfold create_plain, reconcileCreatedDeployment. effects. Qed.
Lemma effect_create_sealed sdl o : effect 1 (createDeploymentWithSecrets P clock c sdl o).
Proof. unfold createDeploymentWithSecrets. effects. Qed.
Lemma effect_send_patch c' dseq b patch sealed : c_apiKey c' = c_apiKey c → effect 1 (send_patch P c' dseq b patch sealed).
Proof. intros Hc. unfold send_patch. effects. Qed.
Hint Resolve effect_send_patch : effects.
Lemma effect_patchDefinition c' dseq patch secrets d : c_apiKey c' = c_apiKey c → effect 1 (patchDeploymentDefinition P clock c' dseq patch secrets d).
Proof. intros Hc. unfold patchDeploymentDefinition. effects. Qed.
Hint Resolve effect_patchDefinition : effects.
Lemma effect_update_plain dseq sdl : effect 0 (update_plain P c dseq sdl).
Proof. unfold update_plain, updateDeploymentSDL. effects. Qed.
Lemma effect_updateDefinition dseq sdl secrets : effect 1 (updateDeploymentDefinition P clock c dseq sdl secrets).
Proof. unfold updateDeploymentDefinition, updateDeploymentSDL. effects. Qed.
Lemma effect_PatchDeployment dseq patch secrets : effect 1 (PatchDeployment P clock c dseq patch secrets).
Proof. unfold PatchDeployment. effects. Qed.
Lemma effect_CreateLease manifest leases : effect 1 (CreateLease P c manifest leases).
Proof. unfold CreateLease, reconcileCreatedLeases. effects. Qed.
Lemma effect_SetLimit dseq hours : effect 1 (SetDeploymentRuntimeLimit P c dseq hours).
Proof. unfold SetDeploymentRuntimeLimit. effects. Qed.
Lemma effect_CloseDeployment dseq : effect 0 (CloseDeployment P c dseq).
Proof. unfold CloseDeployment, reconcileClosedDeployment. effects. Qed.
Lemma effect_CreateAPIKey name expires : effect 1 (CreateAPIKey P c name expires).
Proof. unfold CreateAPIKey. effects. Qed.
Lemma effect_UpdateWalletSettings enabled : effect 1 (UpdateWalletSettings P c enabled).
Proof. unfold UpdateWalletSettings. effects. Qed.
End operations.
