(* ===== verification/ConsoleProps.v ===== *)
(** * Correctness of the Console API client (internal/console)

    Writes are sent once and the API key stays out of the log; a reported success is
    backed by what the peer said; listings are complete and correctly grouped. *)

From Stdlib Require Import Ascii.
From stdpp Require Import sorting base gmap strings pretty option numbers list.
From S2P Require Import Prelude GoStd GoJson Context Workflow ConfigDoc ConfigPatch ConfigApply ConfigDiff ActionLog GoText ConsoleHttp ConsoleTypes ConsoleDeploy ConsoleLease ConsoleSecrets ConsoleAccount ConsoleSpec.

(** ** The mutations of the client *)
Inductive mutation : Type :=
| Create (sdl : string) (options : list CreateDeploymentOptions)
| Update (dseq sdl : string) (options : list SecretValues)
| PatchIt (dseq : string) (patch : Patch) (secrets : SecretValues)
| Close (dseq : string)
| Lease_ (manifest : string) (leases : list LeaseRequest)
| Limit (dseq : string) (hours : option Z)
| NewKey (name expires : string)
| AutoReload (enabled : bool).

Section runs.
Context {E : Type} (P : Peer E) `{Lexer, Sdl, Yaml, Jose, SortMixed} (clock : E → Z).

Definition ignore {A} (m : call E A) : call E unit := _ ← attempt m; mret tt.
Definition run_mutation (c : Client) (m : mutation) : call E unit :=
  match m with
  | Create sdl options => ignore (CreateDeployment P clock c sdl options)
  | Update dseq sdl options => ignore (UpdateDeployment P clock c dseq sdl options)
  | PatchIt dseq patch secrets => ignore (PatchDeployment P clock c dseq patch secrets)
  | Close dseq => ignore (CloseDeployment P c dseq)
  | Lease_ manifest leases => ignore (CreateLease P c manifest leases)
  | Limit dseq hours => ignore (SetDeploymentRuntimeLimit P c dseq hours)
  | NewKey name expires => ignore (CreateAPIKey P c name expires)
  | AutoReload enabled => ignore (UpdateWalletSettings P c enabled)
  end.
Fixpoint run_session (c : Client) (ms : list mutation) : call E unit :=
  match ms with [] => mret tt | m :: ms => run_mutation c m;; run_session c ms end.

Lemma effect_ignore {A} key n (m : call E A) : effect key n m → effect key n (ignore m).
Proof. intros Hm. apply effect_bind_l; [by apply effect_attempt|]. intros. apply effect_ret. Qed.

Lemma effect_mutation c m : effect (c_apiKey c) 1 (run_mutation c m).
Proof.
  destruct m; simpl; apply effect_ignore.
  - destruct options as [|o [|]]; [apply effect_create_plain|apply effect_create_sealed|eapply effect_weaken, effect_fail; lia].
  - destruct options as [|o [|]]; [eapply effect_weaken, effect_update_plain; lia|apply effect_updateDefinition|eapply effect_weaken, effect_fail; lia].
  - apply effect_PatchDeployment.
  - eapply effect_weaken, effect_CloseDeployment; lia.
  - apply effect_CreateLease.
  - apply effect_SetLimit.
  - apply effect_CreateAPIKey.
  - apply effect_UpdateWalletSettings.
Qed.
Lemma effect_session c ms : effect (c_apiKey c) (length ms) (run_session c ms).
Proof. induction ms as [|m ms IH]; simpl; [apply effect_ret|]. apply (effect_bind _ 1 (length ms)); [apply effect_mutation|done]. Qed.

(** C7: no POST or PATCH is ever repeated: whatever the peer answers, however often a
    reply is lost or fails, a session of [n] operations sends at most [n] requests
    that create or change something (POST or PATCH). Repeats are confined to GET,
    PUT and DELETE. *)
Theorem mutations_sent_once c ms w :
  ∃ sent, w_trace (run_session c ms w).1 = w_trace w ++ sent ∧ length (List.filter is_write sent) ≤ length ms.
Proof. destruct (effect_session c ms w) as (l&k&?&?&?&?). by exists l. Qed.

(** the API key never reaches the action log: no entry a session appends shows
    it in its error, whatever the peer or the transport put into their messages,
    provided the key has no brackets and is no part of the word that replaces it. *)
Theorem log_hides_key c ms w :
  key_ok (c_apiKey c) →
  ∃ entries, w_log (run_session c ms w).1 = w_log w ++ entries ∧ Forall (λ e, ¬ shows (c_apiKey c) (e_Error e)) entries.
Proof.
  intros Hk. destruct (effect_session c ms w) as (l&k&?&?&?&Hh). exists k. split; [done|].
  eapply Forall_impl; [exact Hh|]. intros e He. by apply He.
Qed.
End runs.

(** ** Leases under their deployments *)
Lemma index_by_dseq_spec items i item : NoDup ((λ it, dp_DSeq (li_Deployment it)) <$> items) →
  items !! i = Some item → index_by_dseq items !! dp_DSeq (li_Deployment item) = Some i.
Proof.
  intros Hnd Hi. unfold index_by_dseq.
  assert (∀ l n m, NoDup ((λ it, dp_DSeq (li_Deployment it)) <$> l) → 
    (∀ j it, l !! j = Some it → foldl (λ m p, <[dp_DSeq (li_Deployment p.2):=p.1]> m) m (imap (λ i item, (n + i, item)) l) !! dp_DSeq (li_Deployment it) = Some (n + j)) ∧
    (∀ d, d ∉ (λ it, dp_DSeq (li_Deployment it)) <$> l → foldl (λ m p, <[dp_DSeq (li_Deployment p.2):=p.1]> m) m (imap (λ i item, (n + i, item)) l) !! d = (m : gmap string nat) !! d)) as Hgen.
  { clear. induction l as [|it l IH]; intros n m Hnd; simpl; [split; [done|done]|].
    apply NoDup_cons in Hnd as [Hnew Hnd]. 
    assert (imap ((λ i item, (n + i, item)) ∘ S) l = imap (λ i item, (S n + i, item)) l) as -> by (apply imap_ext; intros; simpl; f_equal; lia).
    destruct (IH (S n) (<[dp_DSeq (li_Deployment it):=n + 0]> m) Hnd) as [IH1 IH2]. split.
    - intros [|j] it' Hj; simplify_eq/=.
      + rewrite IH2 by done. by rewrite lookup_insert_eq.
      + rewrite (IH1 j) by done. f_equal. lia.
    - intros d Hd. apply not_elem_of_cons in Hd as [Hd1 Hd2]. rewrite IH2 by done. by rewrite lookup_insert_ne. }
  destruct (Hgen items 0 ∅ Hnd) as [Hg _]. by apply Hg.
Qed.

Lemma file_leases_spec byDSeq leases acc i l : acc !! i = Some l →
  foldl (file_lease byDSeq) acc leases !! i = Some (l ++ List.filter (λ ls, bool_decide (byDSeq !! mi_DSeq (ls_ID ls) = Some i)) leases).
Proof.
  revert acc l; induction leases as [|ls leases IH]; intros acc l Hi; simpl; [by rewrite app_nil_r|].
  unfold file_lease at 2. destruct (byDSeq !! mi_DSeq (ls_ID ls)) as [j|] eqn:Hj.
  - destruct (decide (j = i)) as [->|Hne].
    + rewrite bool_decide_eq_true_2 by done. rewrite (IH _ (l ++ [ls])).
      * by rewrite <-app_assoc.
      * by rewrite list_lookup_alter_eq, Hi.
    + rewrite bool_decide_eq_false_2 by congruence. apply IH. by rewrite list_lookup_alter_ne.
  - rewrite bool_decide_eq_false_2 by done. by apply IH.
Qed.

Lemma index_by_dseq_sound items d i : index_by_dseq items !! d = Some i → ∃ item, items !! i = Some item ∧ dp_DSeq (li_Deployment item) = d.
Proof.
  unfold index_by_dseq.
  assert (∀ l n m, foldl (λ m p, <[dp_DSeq (li_Deployment p.2):=p.1]> m) m (imap (λ i item, (n + i, item)) l) !! d = Some i →
    (∃ j item, l !! j = Some item ∧ dp_DSeq (li_Deployment item) = d ∧ i = n + j) ∨ (m : gmap string nat) !! d = Some i) as Hgen.
  { clear. induction l as [|it l IH]; intros n m; simpl; [by right|].
    assert (imap ((λ i item, (n + i, item)) ∘ S) l = imap (λ i item, (S n + i, item)) l) as -> by (apply imap_ext; intros; simpl; f_equal; lia).
    intros [(j&item&Hj&Hd&->)|Hm]%IH.
    - left. exists (S j), item. split_and!; [done..|lia].
    - destruct (decide (dp_DSeq (li_Deployment it) = d)) as [<-|Hne].
      + rewrite lookup_insert_eq in Hm. simplify_eq. left. by exists 0, it.
      + rewrite lookup_insert_ne in Hm by done. by right. }
  intros [(j&item&Hj&Hd&->)|Hm]%(Hgen items 0 ∅); [by exists item|by rewrite lookup_empty in Hm].
Qed.

(** regrouping files every lease of a page under the deployment its own dseq
    names. Each deployment keeps its place and gets, in the order of the page,
    exactly the leases of the whole page that carry its dseq, however the page had
    them paired; a lease of a deployment that is not on the page is dropped. *)
Theorem regroup_exact items :
  NoDup ((λ it, dp_DSeq (li_Deployment it)) <$> items) →
  regroupLeases items =
    (λ it, MkListItem (li_Deployment it)
             (List.filter (λ l, bool_decide (mi_DSeq (ls_ID l) = dp_DSeq (li_Deployment it))) (concat (li_Leases <$> items)))) <$> items.
Proof.
  intros Hnd. unfold regroupLeases. apply list_eq. intros i. rewrite lookup_zip_with, list_lookup_fmap.
  destruct (items !! i) as [it|] eqn:Hi; simpl; [|done].
  rewrite (file_leases_spec _ _ _ i []) by (apply lookup_replicate; split; [done|by eapply lookup_lt_Some]).
  simpl. do 2 f_equal. apply List.filter_ext. intros l. apply bool_decide_ext. split.
  - intros (it'&Hi'&Hd)%index_by_dseq_sound. by simplify_eq.
  - intros ->. by apply index_by_dseq_spec.
Qed.

(** ** Reading a call backwards *)
Lemma record_ok {E} (P : Peer E) c action dseq status e params w :
  ∃ w', recordOutcome P c action dseq status e params w = (w', Ok tt).
Proof. unfold recordOutcome. destruct (c_actionLog c); eauto. Qed.
Lemma after_record {E A} (P : Peer E) c action dseq status e params (m : call E A) w w' r :
  (recordOutcome P c action dseq status e params;; m) w = (w', r) → ∃ w1, m w1 = (w', r).
Proof. unfold mbind, stateR_bind. destruct (record_ok P c action dseq status e params w) as [w1 ->]. eauto. Qed.
Lemma refuse_not_ok {E A} (P : Peer E) c action dseq e w w' (a : A) : refuse P c action dseq e w ≠ (w', Ok a).
Proof. intros Hr. apply after_record in Hr as [w1 Hr]. done. Qed.
Lemma fail_record_not_ok {E A} (P : Peer E) c action dseq status e params e' w w' (a : A) :
  (recordOutcome P c action dseq status e params;; fail e') w ≠ (w', Ok a).
Proof. intros Hr. apply after_record in Hr as [w1 Hr]. done. Qed.
Lemma then_check_Ok {A} f (r : result A) a : then_check f r = Ok a → r = Ok a ∧ f a = None.
Proof. destruct r as [b|e|]; simpl; [|done..]. destruct (f b) eqn:Hf; naive_solver. Qed.

(** Drop the branches of a call that cannot succeed. *)
Ltac no_success :=
  match goal with
  | H : refuse _ _ _ _ _ _ = (_, Ok _) |- _ => by apply refuse_not_ok in H
  | H : (recordOutcome _ _ _ _ _ _ _;; fail _) _ = (_, Ok _) |- _ => by apply fail_record_not_ok in H
  | H : lift Panic _ = (_, Ok _) |- _ => done
  | H : fail _ _ = (_, Ok _) |- _ => done
  end.

Section backed.
Context {E : Type} (P : Peer E) `{Lexer, Sdl, Yaml, Jose, SortMixed} (clock : E → Z).

(** ** Creation *)
Definition receipt (out : CreateDeploymentResult) : Prop :=
  ∃ t, cr_SignTx out = Some t ∧ st_codePresent t = true ∧ st_Code t = 0%Z ∧ TrimSpace (st_TransactionHash t) ≠ "".

Lemma validate_create out : validateCreateDeploymentResult out = None → validDeploymentDSeq (cr_DSeq out) = true ∧ receipt out.
Proof.
  unfold validateCreateDeploymentResult, receipt. destruct (validDeploymentDSeq (cr_DSeq out)); simpl; [|done].
  destruct (cr_SignTx out) as [t|]; [|done]. destruct (st_codePresent t) eqn:Hp; simpl; [|done].
  destruct (st_Code t =? 0)%Z eqn:Hc; simpl; [|done]. case_bool_decide; [done|]. intros _. split; [done|]. exists t.
  split_and!; [done..|by apply Z.eqb_eq|done].
Qed.

Lemma created_matches_elem known hash items dseq :
  dseq ∈ created_matches known hash items ↔
  validDeploymentDSeq dseq = true ∧ ∃ it, it ∈ items ∧ dp_DSeq (li_Deployment it) = dseq ∧ dseq ∉ known ∧ dp_Hash (li_Deployment it) = hash.
Proof.
  unfold created_matches. rewrite list_elem_of_In, filter_In, <-list_elem_of_In, list_elem_of_omap. split.
  - intros [(it&Hit&Hd) Hv]. split; [done|]. exists it. revert Hd. case_bool_decide; [done|]. simpl.
    case_bool_decide; [|done]. simpl. intros [= <-]. done.
  - intros (Hv&it&Hit&<-&Hn&Hh). split; [|done]. exists it. split; [done|].
    rewrite (bool_decide_eq_false_2 _ Hn), (bool_decide_eq_true_2 _ Hh). done.
Qed.

(** What reconciling an open creation rests on: one deployment, not there before,
    that carries the hash of the SDL. *)
Definition sole_new (before items : list DeploymentListItem) (hash dseq : string) : Prop :=
  let new it := it ∈ items ∧ validDeploymentDSeq (dp_DSeq (li_Deployment it)) = true ∧
                dp_DSeq (li_Deployment it) ∉ ((λ b, dp_DSeq (li_Deployment b)) <$> before) ∧ dp_Hash (li_Deployment it) = hash in
  (∃ it, new it ∧ dp_DSeq (li_Deployment it) = dseq) ∧ ∀ it, new it → dp_DSeq (li_Deployment it) = dseq.

Lemma reconcile_created_sound c before hash manifest more w w' out :
  reconcile_created P c (list_to_set ((λ it, dp_DSeq (li_Deployment it)) <$> before)) hash manifest more w = (w', Ok (Some out)) →
  validDeploymentDSeq (cr_DSeq out) = true ∧ ∃ w1 w2 items, listAllDeployments P c w1 = (w2, Ok items) ∧ sole_new before items hash (cr_DSeq out).
Proof.
  revert w; induction more as [|more IH]; intros w; simpl; [done|].
  intros (w1&r&Hr%attempt_Ok&Hk)%bind_Ok.
  assert (∀ w2, (match more with
    | 0 => mret None
    | S _ => x ← attempt (waitForRetry P); match x with
        | Ok _ => reconcile_created P c (list_to_set ((λ it, dp_DSeq (li_Deployment it)) <$> before)) hash manifest more | _ => mret None end
    end : call E (option CreateDeploymentResult)) w2 = (w', Ok (Some out)) →
    validDeploymentDSeq (cr_DSeq out) = true ∧ ∃ w1 w2 items, listAllDeployments P c w1 = (w2, Ok items) ∧ sole_new before items hash (cr_DSeq out)) as Hagain.
  { intros w2. destruct more as [|m]; [done|]. intros (w3&x&_&Hx)%bind_Ok. destruct x; [by apply IH in Hx|done..]. }
  destruct r as [items|e|]; [|by apply Hagain in Hk..].
  destruct (created_matches _ hash items) as [|dseq [|]] eqn:Hm; [by apply Hagain in Hk| |done].
  injection Hk as <- <-. simpl.
  assert (∀ d, d ∈ [dseq] ↔ d ∈ created_matches (list_to_set ((λ it, dp_DSeq (li_Deployment it)) <$> before)) hash items) as He by by rewrite Hm.
  destruct (proj1 (created_matches_elem _ _ _ _) (proj1 (He dseq) ltac:(set_solver))) as (Hv&it&Hit&<-&Hn&Hh).
  split; [done|]. exists w, w1, items. split; [done|]. rewrite elem_of_list_to_set in Hn. split.
  - exists it. split; [done|done].
  - intros it' (Hi1&Hi2&Hi3&Hi4). symmetry. apply list_elem_of_singleton, list_elem_of_singleton.
    assert (dp_DSeq (li_Deployment it') ∈ [dp_DSeq (li_Deployment it)]) as Hin.
    { apply He, created_matches_elem. split; [done|]. exists it'. rewrite elem_of_list_to_set. done. }
    apply list_elem_of_singleton in Hin. by rewrite Hin.
Qed.

(** a creation that is reported as done is backed by the peer: the result names a
    positive dseq and carries a receipt with code zero and a transaction hash, or,
    for a plain creation whose reply was lost, two listings show exactly one valid
    deployment with the hash of the SDL that was not there before the request. *)
Theorem create_backed c sdl options w w' out :
  CreateDeployment P clock c sdl options w = (w', Ok out) →
  validDeploymentDSeq (cr_DSeq out) = true ∧
  (receipt out ∨
   options = [] ∧ ∃ hash mani before items w1 w2 w3 w4, deploymentArtifacts sdl = Ok (hash, mani) ∧
     listAllDeployments P c w1 = (w2, Ok before) ∧ listAllDeployments P c w3 = (w4, Ok items) ∧ sole_new before items hash (cr_DSeq out)).
Proof.
  intros Hc. destruct options as [|o [|]]; simpl in Hc; [| |done].
  - unfold create_plain in Hc. destruct (deploymentArtifacts sdl) as [[hash mani]|e|] eqn:Ha; [|no_success..].
    destruct (rejectUnsealedReferences sdl); [no_success|].
    apply bind_Ok in Hc as (w1&[before|e|]&Hs%attempt_Ok&Hc); [|no_success..].
    apply bind_Ok in Hc as (w2&r&_&Hc). destruct (then_check _ r) as [res|e|] eqn:Hr; [| |no_success].
    + apply after_record in Hc as [w3 Hc]. injection Hc as <- <-. apply then_check_Ok in Hr as [_ Hr%validate_create].
      case_bool_decide; [|naive_solver]. destruct Hr as [Hv (t&Ht)]. split; [done|]. left. by exists t.
    + destruct (definitiveCreateFailure e); [no_success|].
      apply bind_Ok in Hc as (w3&[res|]&Hrec&Hc); [|no_success]. apply after_record in Hc as [w4 Hc]. injection Hc as <- <-.
      apply reconcile_created_sound in Hrec as (Hv&wa&wb&items&Hl&Hn). split; [done|]. right. split; [done|].
      exists hash, mani, before, items, w, w1, wa, wb. done.
  - unfold createDeploymentWithSecrets in Hc. case_match; [no_success|].
    destruct (deploymentArtifacts sdl); [|no_success..].
    apply bind_Ok in Hc as (w1&[seal|e|]&_&Hc); [|no_success..].
    apply bind_Ok in Hc as (w2&r&_&Hc). destruct (then_check _ r) as [res|e|] eqn:Hr; [| |no_success].
    + apply after_record in Hc as [w3 Hc]. injection Hc as <- <-. apply then_check_Ok in Hr as [_ Hr].
      destruct (validateCreateDeploymentResult res) eqn:Hv; [done|]. apply validate_create in Hv as [Hv (t&Ht1&Ht2&Ht3&Ht4)].
      split; [done|]. left. rewrite Ht1. eexists. split; [done|]. done.
    + destruct (definitiveCreateFailure e); no_success.
Qed.
End backed.

(** ** Closing *)
Section close.
Context {E : Type} (P : Peer E) `{Lexer}.

Lemma reconcileClosed_sound c dseq pauses w w' :
  reconcileClosedDeploymentUntil P c dseq pauses w = (w', Ok None) →
  ∃ w1 w2, (∃ e, GetDeployment P c dseq w1 = (w2, Err e) ∧ is_err e ErrNotFound = true) ∨
           (∃ d, GetDeployment P c dseq w1 = (w2, Ok d) ∧ dp_DSeq (dd_Deployment d) = dseq ∧ state_closed (dd_Deployment d) = true).
Proof.
  revert w; induction pauses as [|pauses IH]; intros w; cbn [reconcileClosedDeploymentUntil]; intros (w1&r&Hr&Hk)%bind_Ok.
  all: destruct (observe_closed dseq r) as [e|] eqn:Ho.
  1: done.
  2: { apply bind_Ok in Hk as (w2&x&_&Hk). destruct x; [by apply IH in Hk|done|by apply IH in Hk]. }
  all: unfold attempt in Hr; destruct (GetDeployment P c dseq w) as [w2 g] eqn:Hg; exists w, w2; rewrite Hg.
  all: destruct g as [d|e|]; simplify_eq; cbn [observe_closed] in Ho.
  - right. exists d. case_bool_decide; [|done]. simpl in Ho. revert Ho. by destruct (state_closed (dd_Deployment d)).
  - left. exists e. split; [done|]. revert Ho. by destruct (is_err e ErrNotFound).
  - right. exists d. case_bool_decide; [|done]. simpl in Ho. revert Ho. by destruct (state_closed (dd_Deployment d)).
  - left. exists e. split; [done|]. revert Ho. by destruct (is_err e ErrNotFound).
Qed.

(** closing reports success only for a deployment it found open, and only when
    the peer acknowledged the deletion or a later read shows the deployment closed
    or gone; an absent or closed target is reported as such before anything is
    deleted. *)
Theorem close_backed c dseq w w' :
  CloseDeployment P c dseq w = (w', Ok tt) →
  ∃ w1 d, GetDeployment P c dseq w = (w1, Ok d) ∧ state_closed (dd_Deployment d) = false ∧
    ((∃ w2, doData P c MethodDelete ("/v1/deployments/" +:+ dseq) None None dec_success w1 = (w2, Ok (Some true))) ∨
     (∃ w2 w3 e, GetDeployment P c dseq w2 = (w3, Err e) ∧ is_err e ErrNotFound = true) ∨
     (∃ w2 w3 d, GetDeployment P c dseq w2 = (w3, Ok d) ∧ dp_DSeq (dd_Deployment d) = dseq ∧ state_closed (dd_Deployment d) = true)).
Proof.
  unfold CloseDeployment. destruct (validateDSeq dseq); [intros Hc; no_success|].
  intros (w1&r&Hr%attempt_Ok&Hc)%bind_Ok. destruct r as [d|e|]; [|no_success..].
  destruct (state_closed (dd_Deployment d)) eqn:Hs; [no_success|]. exists w1, d. split_and!; [done..|].
  apply bind_Ok in Hc as (w2&x&Hx%attempt_Ok&Hc). destruct (then_check acknowledged x) as [s|e|] eqn:Hk; [| |no_success].
  - left. exists w2. apply then_check_Ok in Hk as [-> Hk]. unfold acknowledged in Hk. by case_bool_decide; simplify_eq.
  - right. destruct (isAlreadyClosed e); [no_success|]. destruct (definitiveCreateFailure e); [no_success|].
    apply bind_Ok in Hc as (w3&[re|]&Hrec&Hc); [no_success|].
    apply reconcileClosed_sound in Hrec as (wa&wb&[(e'&?&?)|(d'&?&?&?)]); [left|right]; eauto 10.
Qed.
End close.

(** ** Listings *)
Section listing.
Context {E : Type} (P : Peer E) `{Lexer}.

(** What [ListDeploymentsByState] promises: the window of the deployments in that
    state. *)
Definition state_window (all : list DeploymentListItem) (state : string) (skip limit : Z) : DeploymentList :=
  let filtered := List.filter (λ item, EqualFold (dp_State (li_Deployment item)) state) all in
  MkDeploymentList (take (Z.to_nat limit) (drop (Z.to_nat skip) filtered))
    (MkPagination (Z.of_nat (length filtered)) skip limit (skip + limit <? Z.of_nat (length filtered))%Z).

(** listing by state returns the window of the deployments in that state out of
    the whole collection, as long as the window's end is an int; past that the slice
    bounds wrap around and the command panics. *)
Theorem ListDeploymentsByState_window c state skip limit w w' all :
  let state' := ToLower (TrimSpace state) in
  let total := Z.of_nat (length (List.filter (λ item, EqualFold (dp_State (li_Deployment item)) state') all)) in
  (0 ≤ skip)%Z → (1 ≤ limit ≤ i64_max)%Z → state' = "active" ∨ state' = "closed" → (total ≤ i64_max)%Z →
  listAllDeployments P c w = (w', Ok all) →
  ListDeploymentsByState P c state skip limit w =
    (w', if (Z.min skip total + limit <=? i64_max)%Z then Ok (state_window all state' skip limit) else Panic).
Proof.
  cbv zeta. intros Hskip Hlimit Hstate Htotal Hall. unfold ListDeploymentsByState.
  rewrite (proj2 (Z.ltb_ge _ _) Hskip), (proj2 (Z.ltb_ge _ _) (proj1 Hlimit)).
  assert (negb (bool_decide (ToLower (TrimSpace state) = "active")) && negb (bool_decide (ToLower (TrimSpace state) = "closed")) = false) as ->.
  { destruct Hstate as [-> | ->]; done. }
  unfold mbind, stateR_bind. rewrite Hall. unfold state_window.
  set (filtered := List.filter _ all) in *. set (total := Z.of_nat (length filtered)) in *.
  assert ((if (total <? skip)%Z then total else skip) = Z.min skip total) as -> by (destruct (Z.ltb_spec total skip); lia).
  set (start := Z.min skip total). assert (0 ≤ start ≤ total)%Z as Hs by (subst start total; lia).
  unfold lift, slice. destruct (Z.leb_spec (start + limit) i64_max) as [Hle|Hgt].
  - rewrite (wrap_i64_id (start + limit)) by (unfold in_i64, i64_min; apply andb_true_iff; split; apply Z.leb_le; unfold i64_max in *; lia).
    set (stop := if (total <? start + limit)%Z then total else (start + limit)%Z).
    assert (stop = Z.min total (start + limit)) as Hstop by (subst stop; destruct (Z.ltb_spec total (start + limit)); lia).
    rewrite Hstop. clear stop Hstop.
    assert ((0 <=? start) && (start <=? Z.min total (start + limit)) && (Z.min total (start + limit) <=? Z.of_nat (length filtered)) = true)%Z as ->.
    { rewrite !andb_true_iff, !Z.leb_le. fold total. lia. }
    assert (take (Z.to_nat (Z.min total (start + limit) - start)) (drop (Z.to_nat start) filtered) =
            take (Z.to_nat limit) (drop (Z.to_nat skip) filtered)) as ->.
    { destruct (Z.le_gt_cases skip total) as [Hc|Hc].
      - assert (start = skip) as -> by lia. destruct (Z.le_gt_cases total (skip + limit)) as [Hc'|Hc'].
        + rewrite Z.min_l by lia. rewrite !take_ge; [done|rewrite length_drop; lia..].
        + rewrite Z.min_r by lia. f_equal. lia.
      - assert (start = total) as -> by lia. rewrite !(drop_ge filtered) by lia. by rewrite !take_nil. }
    assert ((Z.min total (start + limit) <? total) = (skip + limit <? total))%Z as ->; [|done].
    destruct (Z.ltb_spec (Z.min total (start + limit)) total), (Z.ltb_spec (skip + limit) total); [done|lia..|done].
  - assert (wrap_i64 (start + limit) < 0)%Z as Hneg.
    { unfold wrap_i64, i64_max in *. rewrite <-(Z.mod_unique (start + limit + 2 ^ 63) (2 ^ 64) 1 (start + limit + 2 ^ 63 - 2 ^ 64)); lia. }
    assert ((total <? wrap_i64 (start + limit)) = false)%Z as -> by (apply Z.ltb_ge; lia).
    assert ((0 <=? start) && (start <=? wrap_i64 (start + limit)) && (wrap_i64 (start + limit) <=? Z.of_nat (length filtered)) = false)%Z as ->.
    { apply andb_false_iff. left. apply andb_false_iff. right. apply Z.leb_gt. lia. }
    done.
Qed.
End listing.

(** ** Calls that carry secrets *)
Definition safe_error (e : error) : Prop :=
  e ∈ known_errors ∨ (∃ status code, code ∈ details_omitted :: known_codes ∧ e = HTTPError status code) ∨
  e = New_error "console: request failed; sensitive response details omitted".

Section sensitive.
Context {E : Type} (P : Peer E) `{Lexer}.

Lemma sanitize_safe e : safe_error (sanitizeSecretError e).
Proof.
  unfold sanitizeSecretError. destruct (List.find (is_err e) known_errors) as [known|] eqn:Hf.
  - left. apply List.find_some in Hf as [Hf _]. by apply list_elem_of_In.
  - right. destruct (as_http e) as [[status body]|]; [left|by right]. eexists status, _. split; [|reflexivity].
    case_bool_decide; [by right|by left].
Qed.

Lemma sanitized_safe {A} c (m : call E A) w w' e : c_sensitive c = true → sanitized c m w = (w', Err e) → safe_error e.
Proof.
  intros Hc. unfold sanitized. destruct (m w) as [w1 [a|e'|]]; rewrite Hc; simpl; [done| |done].
  intros [= _ <-]. apply sanitize_safe.
Qed.

(** A safe error never says that a manifest version was refused. *)
Lemma safe_not_transient e : safe_error e → isTransientManifestVersionError e = false.
Proof.
  intros [Hk|[(status&code&Hc&->)| ->]]; [| |done].
  - unfold known_errors in Hk. rewrite !elem_of_cons in Hk. by destruct_or! Hk; subst; [..|inversion Hk].
  - unfold isTransientManifestVersionError, HTTPError. simpl. destruct (ParseInt64 (FormatInt status)); [|done..].
    apply andb_false_iff. right. unfold known_codes in Hc. rewrite !elem_of_cons in Hc.
    by destruct_or! Hc; subst; [..|inversion Hc].
Qed.


(** an update through the options, which is the only way the commands use, never
    retries a manifest version that Console does not know yet: the sanitized error
    has lost the text the retry looks for, so three attempts are one. *)
Theorem sealed_update_never_retries c dseq sdl hash n w :
  update_attempts P (sensitiveClient c) dseq sdl hash (S n) w = update_attempts P (sensitiveClient c) dseq sdl hash 1 w.
Proof.
  cbn [update_attempts]. unfold mbind, stateR_bind. unfold attempt at 1 3.
  destruct (doData P (sensitiveClient c) MethodPut _ _ _ _ w) as [w1 [d|e|]] eqn:Hd; [| |done]; cbn [then_check].
  - destruct (validateDeploymentUpdateResult dseq hash d) as [e|] eqn:Hv; [|done].
    destruct (reconcileDeploymentUpdate P (sensitiveClient c) dseq hash w1) as [w2 [[detail|]|e'|]]; [done| |done..].
    assert (isTransientManifestVersionError e = false) as ->; [|done].
    unfold validateDeploymentUpdateResult in Hv. repeat case_bool_decide; simplify_eq/=; done.
  - destruct (reconcileDeploymentUpdate P (sensitiveClient c) dseq hash w1) as [w2 [[detail|]|e'|]]; [done| |done..].
    apply sanitized_safe, safe_not_transient in Hd; [|done]. by rewrite Hd.
Qed.
End sensitive.

(** ** Examples *)
#[local] Instance no_lexer : Lexer := { json_Parse _ := None }.
Definition demo_client : Client := MkClient DefaultBaseURL "k3y" true false.
Definition demo_world : world nat := MkWorld 0 [] [].

Definition dep_json (dseq state hash : string) : json :=
  JObj [("id", JObj [("owner", JStr "akash1x"); ("dseq", JStr dseq)]); ("state", JStr state); ("hash", JStr hash)].
Definition detail_json (dseq state hash : string) : json := JObj [("deployment", dep_json dseq state hash); ("leases", JArr [])].
Definition list_json (l : list json) : json :=
  JObj [("deployments", JArr l); ("pagination", JObj [("total", JNum "1"); ("skip", JNum "0"); ("limit", JNum "100"); ("hasMore", JBool false)])].
Definition item_json (dseq state hash : string) : json := JObj [("deployment", dep_json dseq state hash); ("leases", JArr [])].

(** A peer that answers by method; nothing is ever done or late, except that an
    observation finds its window over. *)
Definition demo_peer (answer : nat → request → reply) : Peer nat := MkPeer
  (λ n rq, (S n, answer n rq)) (λ _, None) (λ n, (n, None)) (λ n, (n, Some StoreExport.DeadlineExceeded)) (λ _, None) (λ _, "refused: k3y").
Definition data (j : json) : reply := Reply 200 (Text (JObj [("data", j)])).

(** A Console whose deletions fail with a server error. *)
Definition failing_close : Peer nat := demo_peer (λ _ rq, if bool_decide (rq_method rq = MethodGet) then data (detail_json "7" "active" "h") else Reply 500 (Raw "")).

(** closing repeats its request. When the deletion fails with a server error it
    is sent three times, and then reported with the text "after one submission ...;
    the request was not replayed". *)
Theorem close_repeats_delete :
  rq_method <$> w_trace (CloseDeployment failing_close demo_client "7" demo_world).1 =
    [MethodGet; MethodDelete; MethodDelete; MethodDelete; MethodGet] ∧
  ∃ args cause, (CloseDeployment failing_close demo_client "7" demo_world).2 = Err (Wrapf unknown_close args cause) ∧
    strings_Contains unknown_close "after one submission" = true ∧ strings_Contains unknown_close "the request was not replayed" = true.
Proof. split; [by vm_compute|]. eexists _, _. split; [vm_compute; reflexivity|]. by vm_compute. Qed.

(** ** Witnesses *)
#[local] Instance demo_sdl : Sdl := {|
  sdl_doc := string; sdl_group := string; sdl_Read s := Ok s; sdl_ReadFile _ r := r; doc_Version _ := Ok "v"; doc_Manifest _ := Ok JNull;
  doc_Groups _ := Ok []; group_Equal _ _ := true; group_Denom g := g; group_Name g := g |}.
#[local] Instance demo_yaml : Yaml := {| yaml_Decode _ := Some (YMap 0 [], false); yaml_Marshal _ := "" |}.
#[local] Instance demo_jose : Jose := {| dec_jwk _ k := Some k; jose_Encrypt _ _ _ _ _ _ := Some "token"; sha256 s := s |}.
#[local] Instance demo_sort : SortMixed := λ l, l.

(** The reply to a creation is lost; the second listing shows the deployment. *)
Definition losing_create : Peer nat := demo_peer (λ n rq,
  if bool_decide (rq_method rq = MethodGet)
  then data (list_json (if (n =? 0)%nat then [item_json "4" "active" (base64 "v")] else [item_json "4" "active" (base64 "v"); item_json "7" "active" (base64 "v")]))
  else Reply 503 (Raw "")).

Lemma create_backed_witness :
  ∃ out, (CreateDeployment losing_create (λ _, 0%Z) demo_client "sdl" [] demo_world).2 = Ok out ∧ cr_DSeq out = "7" ∧
    validDeploymentDSeq (cr_DSeq out) = true.
Proof.
  eexists. split; [vm_compute; reflexivity|]. split; [done|].
  refine (proj1 (create_backed losing_create (λ _, 0%Z) demo_client "sdl" [] demo_world _ _ _)). vm_compute. reflexivity.
Defined.

Lemma key_ok_demo : key_ok "k3y".
Proof.
  assert ("3"%char ∉ bytes_of "REDACTED") as Hno by (apply (bool_decide_unpack _); vm_compute; exact I).
  split_and!; [done|apply (bool_decide_unpack _); vm_compute; exact I..|]. intros (x&y&He). apply Hno. rewrite He. set_solver.
Qed.
Lemma log_hides_key_witness :
  ∃ entries, w_log (run_session losing_create (λ _, 0%Z) demo_client [Close "7"; Limit "0" None] demo_world).1 = entries ∧
    length entries = 2 ∧ Forall (λ e, ¬ shows "k3y" (e_Error e)) entries.
Proof.
  destruct (log_hides_key losing_create (λ _, 0%Z) demo_client [Close "7"; Limit "0" None] demo_world key_ok_demo) as (entries&He&Hh).
  exists entries. split_and!; [exact He| |exact Hh].
  change (w_log demo_world ++ entries) with entries in He. rewrite <-He. vm_compute. reflexivity.
Defined.

Definition lease_of (dseq : string) : Lease := MkConsoleLease (MkMarketID "o" dseq 1 1 "p") "active" None None.
Definition swapped : list DeploymentListItem :=
  [MkListItem (MkConsoleDeployment "o" "1" "active" "") [lease_of "2"]; MkListItem (MkConsoleDeployment "o" "2" "active" "") [lease_of "1"; lease_of "9"]].
Lemma regroup_exact_witness : li_Leases <$> regroupLeases swapped = [[lease_of "1"]; [lease_of "2"]].
Proof.
  rewrite (regroup_exact swapped); [vm_compute; reflexivity|].
  apply (bool_decide_unpack _). vm_compute. exact I.
Defined.

Definition closing : Peer nat := demo_peer (λ n rq,
  if bool_decide (rq_method rq = MethodGet) then data (detail_json "7" (if (n =? 0)%nat then "active" else "closed") "h") else Reply 500 (Raw "")).
Lemma close_backed_witness : ∃ w1 d, GetDeployment closing demo_client "7" demo_world = (w1, Ok d) ∧ state_closed (dd_Deployment d) = false.
Proof.
  destruct (close_backed closing demo_client "7" demo_world (CloseDeployment closing demo_client "7" demo_world).1) as (w1&d&Hg&Hs&_).
  - vm_compute. reflexivity.
  - exists w1, d. exact (conj Hg Hs).
Defined.

Lemma ListDeploymentsByState_window_witness :
  (ListDeploymentsByState losing_create demo_client "Active" 1 9223372036854775807 demo_world).2 = Panic.
Proof.
  rewrite (ListDeploymentsByState_window losing_create demo_client "Active" 1 9223372036854775807 demo_world
             (listAllDeployments losing_create demo_client demo_world).1 [MkListItem (MkConsoleDeployment "akash1x" "4" "active" (base64 "v")) []]).
  - vm_compute. reflexivity.
  - lia.
  - unfold i64_max. lia.
  - left. vm_compute. reflexivity.
  - vm_compute. discriminate.
  - vm_compute. reflexivity.
Defined.

Definition leaking : Peer nat := demo_peer (λ _ _, Reply 400 (Raw "password=hunter2")).
