(* ===== verification/Adapters.v ===== *)
(** * The chain rail of a workflow (internal/workflow/adapters: chain.go, msgs.go, deployment_inputs.go, metadata.go)

    The adapter that gives the workflow steps a chain client: it prepares the SDL of
    a deployment, builds the message, broadcasts it and answers queries. The node is
    a record of the calls it takes; the SDL library, the coins and the basic
    validation of a message are parameters. The files on disk, the stores of the
    contexts and the SDLs a run has prepared are the state. *)

From Stdlib Require Import Ascii.
From stdpp Require Import sorting base gmap strings pretty option numbers list.
From S2P Require Import Prelude GoStd GoJson Bolt StoreTypes StoreOps StoreExport Sync Context Workflow Steps ConfigDoc ConfigPatch ConfigApply GoText ConsoleDeploy ConsoleSecrets Persist.

Definition msgCreateDeployment : string := "deployment.MsgCreateDeployment".
Definition msgUpdateDeployment : string := "deployment.MsgUpdateDeployment".
Definition msgCloseDeployment : string := "deployment.MsgCloseDeployment".
Definition msgCreateLease : string := "market.MsgCreateLease".
Definition queryMarketBids : string := "market.bids".
Definition queryMarketLeases : string := "market.leases".
Definition queryDeployments : string := "deployment.deployments".

(** ** Parameters of a step (msgs.go) *)
Definition requiredUint64Param (params : gmap string string) (key : string) : result N :=
  let v := param params key in
  if bool_decide (v = "") then failf "required param %q missing" [key]
  else map_err (Wrapf "parse param %q: %w" [key]) (ParseUint u64_max v).
Definition optionalUint64Param (params : gmap string string) (key : string) : result N :=
  if bool_decide (param params key = "") then Ok 0%N else requiredUint64Param params key.
Definition uint32ParamWithDefault (params : gmap string string) (key : string) (def : N) : result N :=
  let v := param params key in
  if bool_decide (v = "") then Ok def else map_err (Wrapf "parse param %q: %w" [key]) (ParseUint u32_max v).
Definition optionalUint32Param (params : gmap string string) (key : string) : result N := uint32ParamWithDefault params key 0.

(** ** SDL text (console.go, provider.go) *)
Definition looksLikeSDLPath (s : string) : bool :=
  if has_byte (ascii_of_N 10) s then false else HasSuffix s ".yaml" || HasSuffix s ".yml" || has_byte "/" s.

Definition sdlContent (files : gmap string file) (p : string) : result string :=
  let s := TrimSpace p in
  if bool_decide (s = "") then failf "required param %q missing" ["sdl"]
  else match files !! s with
       | Some (Regular content) => map_err (Wrapf "read SDL file %q: %w" [s]) content
       | _ => if looksLikeSDLPath s then failf "SDL file %q does not exist" [s] else Ok p
       end.

Definition readSDL `{Sdl} (files : gmap string file) (data : string) : result sdl_doc :=
  let s := TrimSpace data in
  if bool_decide (s = "") then failf "empty SDL" []
  else match files !! s with
       | Some (Regular content) => map_err (Wrapf "read SDL file %q: %w" [s]) (sdl_ReadFile s content)
       | _ => map_err (Wrapf "parse SDL: %w" []) (sdl_Read data)
       end.

(** ** Messages *)
Inductive Msg `{Sdl} : Type :=
| MsgCreateDeployment (owner : string) (dseq : N) (hash : string) (groups : list sdl_group) (deposit : string)
| MsgUpdateDeployment (owner : string) (dseq : N) (hash : string)
| MsgCloseDeployment (owner : string) (dseq : N)
| MsgCreateLease (id : BidID).

Class ChainSDK `{Sdl} : Type := {
  coin_Normalized : string → result string;   (* ParseCoinNormalized *)
  dec_coin_denom : string → result string;    (* the denomination of ParseDecCoin *)
  ValidateBasic : Msg → option error;
}.

Section messages.
Context `{Sdl} `{!ChainSDK} (files : gmap string file) (owner : string).

Definition buildCreateDeploymentMsg (sdl : string) (dseq : N) (dep : string) : result Msg :=
  if bool_decide (sdl = "") then failf "%s: required param %q missing" [msgCreateDeployment; "sdl"]
  else if (dseq =? 0)%N then failf "%s: dseq must be non-zero" [msgCreateDeployment]
  else
    doc ← map_err (Wrapf "read deployment SDL: %w" []) (readSDL files sdl);
    groups ← doc_Groups doc;
    version ← doc_Version doc;
    let msg := MsgCreateDeployment owner dseq version groups dep in
    match ValidateBasic msg with Some e => Err e | None => Ok msg end.

(** [prepared] is there in every call of the source. *)
Definition buildUpdateDeploymentMsg (params : gmap string string) (prepared : string) : result (N * Msg * list sdl_group) :=
  if bool_decide (prepared = "") then failf "%s: required param %q missing" [msgUpdateDeployment; "sdl"]
  else
    dseq ← map_err (Wrapf "%s: %w" [msgUpdateDeployment]) (requiredUint64Param params "dseq");
    doc ← map_err (Wrapf "read deployment SDL: %w" []) (readSDL files prepared);
    hash ← doc_Version doc;
    groups ← doc_Groups doc;
    Ok (dseq, MsgUpdateDeployment owner dseq hash, groups).

Definition buildCloseDeploymentMsg (params : gmap string string) : result (N * Msg) :=
  dseq ← map_err (Wrapf "%s: %w" [msgCloseDeployment]) (requiredUint64Param params "dseq");
  Ok (dseq, MsgCloseDeployment owner dseq).

Definition buildCreateLeaseMsg (params : gmap string string) : result BidID :=
  dseq ← map_err (Wrapf "%s: %w" [msgCreateLease]) (requiredUint64Param params "dseq");
  let provider := param params "provider" in
  if bool_decide (provider = "") then failf "%s: required param %q missing" [msgCreateLease; "provider"]
  else
    gseq ← map_err (Wrapf "%s: %w" [msgCreateLease]) (uint32ParamWithDefault params "gseq" 1);
    oseq ← map_err (Wrapf "%s: %w" [msgCreateLease]) (uint32ParamWithDefault params "oseq" 1);
    let id := MkBidID owner dseq gseq oseq provider in
    match ValidateBasic (MsgCreateLease id) with Some e => Err e | None => Ok id end.

(** The sources of a deposit are always grant, then balance. *)
Definition depositFromString (s : string) : result string := map_err (Wrapf "parse deposit %q: %w" [s]) (coin_Normalized s).
End messages.

(** ** The state and the node *)

(** [en_sdls] are the SDLs a run has prepared, by deployment ([DeploymentInputs.sdls]). *)
Record env (Nd Tx : Type) : Type := MkEnv { en_node : Nd; en_files : gmap string file; en_disk : gmap string Tx; en_sdls : gmap N string }.
Arguments MkEnv {Nd Tx}. Arguments en_node {Nd Tx}. Arguments en_files {Nd Tx}. Arguments en_disk {Nd Tx}. Arguments en_sdls {Nd Tx}.

(** The fields of [DeploymentInputs] that do not change; an adapter without inputs
    has empty ones. *)
Record DeploymentInputs : Type := MkInputs { di_root : string; di_context : string }.
Definition selectDeploymentInputs (inputs : list (option DeploymentInputs)) (root contextName : string) : DeploymentInputs :=
  match inputs with Some d :: _ => d | _ => MkInputs root contextName end.

Record filters : Type := MkFilters { fi_Owner : string; fi_Provider : string; fi_State : string; fi_DSeq : N; fi_GSeq : N; fi_OSeq : N }.

(** The node. A broadcast answers with the response, [None] for one of another type.
    Of a response to a query only its JSON and its providers matter; [n_codec] is
    the codec of the client, when it has one that succeeds. *)
Record tx_response : Type := MkTxResponse { tr_Hash : string; tr_Height : Z; tr_Code : N; tr_RawLog : string }.
Record Node `{Sdl} (Nd : Type) : Type := MkNode {
  n_response : Type;
  n_from : string;
  n_SyncInfo : Nd → Nd * result (bool * Z);
  n_Params : Nd → Nd * result (list (string * string));
  n_Groups : Nd → string → N → Nd * result (list sdl_group);
  n_Broadcast : Nd → Msg → Nd * result (option tx_response);
  n_Bids : Nd → filters → Nd * result (n_response * list string);
  n_Leases : Nd → filters → Nd * result n_response;
  n_Deployments : Nd → filters → Nd * result n_response;
  n_codec : n_response → option bytes;
  n_json : n_response → result bytes;
  n_Attributes : Nd → string → result (list (string * string));
  n_AuditCount : Nd → string → result nat;
}.
Arguments n_response {_ Nd}. Arguments n_from {_ Nd}. Arguments n_SyncInfo {_ Nd}. Arguments n_Params {_ Nd}. Arguments n_Groups {_ Nd}.
Arguments n_Broadcast {_ Nd}. Arguments n_Bids {_ Nd}. Arguments n_Leases {_ Nd}. Arguments n_Deployments {_ Nd}. Arguments n_codec {_ Nd}.
Arguments n_json {_ Nd}. Arguments n_Attributes {_ Nd}. Arguments n_AuditCount {_ Nd}.

(** ** Provider metadata (metadata.go) *)
Definition enc_metadata (m : gmap string Metadata) : json :=
  JObj ((λ kv, (json_coerce kv.1, JObj [("attributes", enc_map (Some (md_Attributes kv.2))); ("audited", enc_bool (md_Audited kv.2))])) <$> sorted_members m).
(** The members of the document as a map: of two with one name the later counts. A
    document that is null is a nil map, and setting a member of it panics. *)
Definition attachProviderMetadata (raw : bytes) (metadata : gmap string Metadata) : result bytes :=
  if bool_decide (metadata = ∅) then Ok raw
  else match raw with
       | Text (JObj kvs) => Ok (Text (JObj ((λ kv, (json_coerce kv.1, kv.2)) <$> sorted_members (<["provider_metadata" := enc_metadata metadata]> (members kvs)))))
       | Text JNull => Panic
       | _ => Err ErrJSON
       end.

Section chain.
Context `{Sdl} `{!ChainSDK} `{Yaml} {Nd Tx : Type} `{BoltOps Tx} (node : Node Nd).
(** bbolt and the file system around the store ([OpenContext]); [stat_store] is a
    failure to look at the file that is not its absence. *)
Context (fresh : Tx) (migrations : list (Migration Tx)) (mkdir bolt : option error) (stat_store : string → option error).
Abbreviation act := (stateR (env Nd Tx)).

Definition ask {A} (f : Nd → Nd * result A) : act A := λ e,
  let '(n, r) := f (en_node e) in (MkEnv n (en_files e) (en_disk e) (en_sdls e), r).
Definition open_store (root ctxName : string) : act Tx := λ e,
  let '(disk, r) := OpenContext fresh migrations mkdir bolt (en_disk e) root ctxName in (MkEnv (en_node e) (en_files e) disk (en_sdls e), r).

(** ** Where the SDL of a deployment comes from (deployment_inputs.go) *)
Definition missing_sdl (dseq flag : string) : error := Errorf "deployment %s has no readable local SDL; supply --%s" [dseq; flag].

Definition sourcePath (d : DeploymentInputs) (owner dseq override flag : string) : act string :=
  match ParseUint u64_max dseq with
  | Ok sequence =>
      if (sequence =? 0)%N then fail (Errorf "source deployment sequence must be a positive integer" [])
      else if negb (bool_decide (override = "")) then mret override
      else if bool_decide (di_root d = "") || bool_decide (di_context d = "") then fail (missing_sdl dseq flag)
      else
        let path := StoreDBPath (di_root d) (di_context d) in
        match stat_store path with
        | Some e => fail (Wrapf "read deployment store: %w" [] e)
        | None =>
            disk ← gets en_disk;
            if bool_decide (is_Some (disk !! path)) then
              db ← open_store (di_root d) (di_context d);
              owner ← lift (if bool_decide (owner = "") then UniqueDeploymentOwner (Some db) sequence else Ok owner);
              rec ← lift (StoreOps.GetDeployment db owner sequence);
              match rec with
              | Some r => if bool_decide (d_SDLPath r = "") then fail (missing_sdl dseq flag) else mret (d_SDLPath r)
              | None => fail (missing_sdl dseq flag)
              end
            else fail (missing_sdl dseq flag)
        end
  | _ => fail (Errorf "source deployment sequence must be a positive integer" [])
  end.

Definition read_sdl (p : string) : act string := files ← gets en_files; lift (sdlContent files p).

(** The SDL of a patched deployment: the base it applies to, and the result. *)
Definition apply_patch (d : DeploymentInputs) (owner : string) (params : gmap string string) (raw : string) : act (string * string) :=
  patch ← lift (ParsePatch raw);
  if bool_decide (is_Some (pt_Name patch)) || negb (bool_decide (pt_IfManifestVersion patch = ""))
  then fail (Errorf "patch name and ifManifestVersion require a Console context" [])
  else if negb (HasChanges patch) then fail (Errorf "deployment patch contains no changes" [])
  else
    path ← sourcePath d owner (param params "dseq") (param params "base-sdl") "base-sdl";
    base ← read_sdl path;
    raw ← lift (Apply base patch);
    mret (raw, path).

(** The SDL, and the file it came from when it is one. *)
Definition prepareChain (d : DeploymentInputs) (owner : string) (params : gmap string string) : act (string * string) :=
  if negb (bool_decide (param params "secrets-file" = ""))
  then fail (Errorf "--secrets-file requires a Console context; switch with `akt context edit --deploy-via console`" [])
  else
    path ← (if bool_decide (param params "source-dseq" = "") then mret (param params "sdl")
            else sourcePath d owner (param params "source-dseq") (param params "sdl") "sdl-file");
    raw ← read_sdl path;
    '(raw, path) ← (if bool_decide (param params "patch" = "true") then apply_patch d owner params raw else mret (raw, path));
    references ← lift (HasReferences raw);
    if (references : bool)
    then fail (Errorf "ac-secret:// references require a Console context; switch with `akt context edit --deploy-via console`" [])
    else
      files ← gets en_files;
      mret (raw, match files !! path with Some (Regular _) => path | _ => "" end).

(** Groups with another denomination than the deposit. *)
Definition ValidateChain (d : DeploymentInputs) (owner : string) (params : gmap string string) : act unit :=
  '(raw, _) ← prepareChain d owner params;
  files ← gets en_files;
  document ← lift (readSDL files raw);
  let deposit := param params "deposit" in
  if bool_decide (deposit = "") || bool_decide (deposit = depositAuto) then mret tt
  else
    denom ← lift (map_err (Wrapf "parse resolved deployment deposit: %w" []) (dec_coin_denom deposit));
    match List.find (λ g, negb (bool_decide (group_Denom g = denom))) (match doc_Groups document with Ok l => l | _ => [] end) with
    | Some g => fail (Errorf "SDL price denomination %q does not match the effective deposit denomination %q for deployment group %q; set the SDL pricing denomination to %s or supply a matching deposit"
                        [group_Denom g; denom; group_Name g; denom])
    | None => mret tt
    end.

Definition remember (dseq : N) (raw : string) : act unit := λ e,
  (MkEnv (en_node e) (en_files e) (en_disk e) (<[dseq := raw]> (en_sdls e)), Ok tt).
Definition providerSDL (sdls : gmap N string) (dseq : N) (fallback : string) : string := default fallback (sdls !! dseq).

(** ** Transactions (chain.go) *)
Definition deriveDSeq (params : gmap string string) : act N :=
  let v := param params "dseq" in
  if negb (bool_decide (v = "")) then lift (map_err (Wrapf "parse param %q: %w" ["dseq"]) (ParseUint u64_max v))
  else
    '(catchingUp, height) ← ask (n_SyncInfo node);
    if (catchingUp : bool) then fail (Errorf "cannot generate DSEQ from last block height. node is catching up" [])
    else mret (uint_of_int height).

Definition ResolveChainDepositValue (depositStr : string) : act string :=
  if negb (bool_decide (depositStr = "")) && negb (bool_decide (depositStr = depositAuto)) then mret depositStr
  else
    coins ← ask (n_Params node);
    match List.find (λ c : string * string, bool_decide (c.2 = "uact")) coins with
    | Some (amount, denom) => mret (amount +:+ denom)
    | None => fail (Errorf "chain deployment parameters contain no uact minimum deposit" [])
    end.
Definition resolveDeposit (depositStr : string) : act string := resolved ← ResolveChainDepositValue depositStr; lift (depositFromString resolved).

Definition errDeploymentUpdateGroupsChanged : error :=
  Wrapf "%w: groups are different than existing deployment, you cannot update groups" [] (Sentinel "deployment update failed").
Definition verifyGroupsUnchanged (dseq : N) (groups : list sdl_group) : act unit :=
  existing ← ask (λ n, n_Groups node n (n_from node) dseq);
  if (length existing =? length groups)%nat && forallb (λ p : sdl_group * sdl_group, group_Equal p.1 p.2) (zip existing groups)
  then mret tt else fail errDeploymentUpdateGroupsChanged.

Definition broadcast (msg : Msg) (data : gmap string string) : act TxResult :=
  res ← ask (λ n, n_Broadcast node n msg);
  match res with
  | None => fail (Errorf "unexpected broadcast response type %T" [])
  | Some r =>
      if negb (tr_Code r =? 0)%N then fail (Errorf "tx failed with code %d: %s" [FormatUint (tr_Code r); tr_RawLog r])
      else mret (MkTxResult (tr_Hash r) (tr_Height r) (tr_Code r) (Some (Text (enc_map (Some data)))))
  end.

Definition id_data (dseq : N) : gmap string string := <["dseq" := FormatUint dseq]> {["owner" := n_from node]}.
Definition with_path (path : string) (data : gmap string string) : gmap string string :=
  if bool_decide (path = "") then data else <["sdl_path" := path]> data.

Definition BroadcastTx (d : DeploymentInputs) (msgType : string) (params : gmap string string) : act TxResult :=
  let owner := n_from node in
  if bool_decide (msgType = msgCreateDeployment) then
    '(rawSDL, path) ← prepareChain d owner params;
    dseq ← deriveDSeq params;
    dep ← resolveDeposit (param params "deposit");
    files ← gets en_files;
    m ← lift (buildCreateDeploymentMsg files owner rawSDL dseq dep);
    remember dseq rawSDL;;
    broadcast m (with_path path (id_data dseq))
  else if bool_decide (msgType = msgUpdateDeployment) then
    '(rawSDL, path) ← prepareChain d owner params;
    files ← gets en_files;
    '(dseq, m, groups) ← lift (buildUpdateDeploymentMsg files owner params rawSDL);
    verifyGroupsUnchanged dseq groups;;
    remember dseq rawSDL;;
    broadcast m (if bool_decide (param params "patch" = "true") then id_data dseq else with_path path (id_data dseq))
  else if bool_decide (msgType = msgCloseDeployment) then
    '(dseq, m) ← lift (buildCloseDeploymentMsg owner params);
    broadcast m (id_data dseq)
  else if bool_decide (msgType = msgCreateLease) then
    id ← lift (buildCreateLeaseMsg owner params);
    broadcast (MsgCreateLease id)
      (<["provider" := bid_Provider id]> (<["oseq" := FormatUint (bid_OSeq id)]> (<["gseq" := FormatUint (bid_GSeq id)]> (id_data (bid_DSeq id)))))
  else fail (Errorf "unsupported workflow tx message %q" [msgType]).

(** ** Queries (chain.go) *)
Definition marshalJSON (r : n_response node) : result bytes := match n_codec node r with Some b => Ok b | None => n_json node r end.

Definition order_filters (params : gmap string string) : result filters :=
  dseq ← optionalUint64Param params "dseq";
  gseq ← optionalUint32Param params "gseq";
  oseq ← optionalUint32Param params "oseq";
  Ok (MkFilters (param params "owner") (param params "provider") (param params "state") dseq gseq oseq).

Definition ask_query {A} (path : string) (f : Nd → Nd * result A) : act A := λ e,
  let '(e, r) := ask f e in (e, map_err (Wrapf "query %s: %w" [path]) r).

Definition Query (path : string) (params : gmap string string) : act bytes :=
  if bool_decide (path = queryMarketBids) then
    fs ← lift (order_filters params);
    '(res, providers) ← ask_query path (λ n, n_Bids node n fs);
    raw ← lift (marshalJSON res);
    nd ← gets en_node;
    lift (attachProviderMetadata raw (FetchChainMetadata (n_Attributes node nd) (n_AuditCount node nd) providers))
  else if bool_decide (path = queryMarketLeases) then
    fs ← lift (order_filters params);
    res ← ask_query path (λ n, n_Leases node n fs);
    lift (marshalJSON res)
  else if bool_decide (path = queryDeployments) then
    dseq ← lift (optionalUint64Param params "dseq");
    res ← ask_query path (λ n, n_Deployments node n (MkFilters (param params "owner") "" (param params "state") dseq 0 0));
    lift (marshalJSON res)
  else fail (Errorf "unsupported workflow query path %q" [path]).

(** The client the steps use: a panic ends the program, which the interface of the
    steps has no value for. *)
Definition to_sum {A} (r : result A) : A + error := match r with Ok a => inl a | Err e => inr e | Panic => inr (Sentinel "panic") end.
Definition NewChainClient (inputs : list (option DeploymentInputs)) : ChainClient (env Nd Tx) :=
  let d := selectDeploymentInputs inputs "" "" in
  MkChainClient (λ e msgType params, let '(e, r) := BroadcastTx d msgType params e in (e, to_sum r))
                (λ e path params, let '(e, r) := Query path params e in (e, to_sum r)).
End chain.
