(* ===== verification/ProviderAdapter.v ===== *)
(** * Manifests and lease status for a workflow (internal/workflow/adapters/provider.go)

    The provider client of the steps. The gateway and the chain queries it needs are a
    record; the manifest of an SDL comes from the SDL library. The loop over the
    pages of active leases has no bound of its own: [fuel] is the number of pages it
    may ask for. *)

From Stdlib Require Import Ascii.
From stdpp Require Import sorting base gmap strings pretty option numbers list.
From S2P Require Import Prelude GoStd GoJson Bolt StoreTypes Context Workflow Steps ConfigDoc GoText ConsoleDeploy ConsoleSecrets Adapters.

Definition defaultGSeq : N := 1.
Definition defaultOSeq : N := 1.

(** [gw_leases owner dseq key] is a page of the active leases: their providers and
    the next key; [None] is an empty response. [gw_open] is the failure to create a
    client for a host. *)
Record Gateway (Nd : Type) : Type := MkGateway {
  gw_address : string → option error;
  gw_host : Nd → string → Nd * result string;
  gw_open : Nd → string → option error;
  gw_submit : Nd → string → N → json → Nd * option error;
  gw_status : Nd → string → LeaseID → Nd * result bytes;
  gw_leases : Nd → string → N → string → Nd * result (option (list string * option string));
  gw_ctx : Nd → option error;
}.
Arguments gw_address {Nd}. Arguments gw_host {Nd}. Arguments gw_open {Nd}. Arguments gw_submit {Nd}. Arguments gw_status {Nd}.
Arguments gw_leases {Nd}. Arguments gw_ctx {Nd}. Arguments MkGateway {Nd}.

Definition manifestFromSDL `{Sdl} (files : gmap string file) (data : string) : result json :=
  doc ← readSDL files data;
  map_err (Wrapf "build manifest from SDL: %w" []) (doc_Manifest doc).

Section provider.
Context `{Sdl} {Nd Tx : Type} (gw : Gateway Nd) (from : string).
Abbreviation act := (stateR (env Nd Tx)).

(** The host of a provider a client can be created for. *)
Definition gatewayClient (provider : string) : act string :=
  match gw_address gw provider with
  | Some e => fail (Wrapf "invalid provider address %q: %w" [provider] e)
  | None =>
      r ← attempt (ask (λ n, gw_host gw n provider));
      match r with
      | Ok host =>
          if bool_decide (host = "") then fail (Errorf "provider %s has no host URI on chain" [provider])
          else nd ← gets en_node;
               match gw_open gw nd host with
               | Some e => fail (Wrapf "create provider gateway client: %w" [] e)
               | None => mret host
               end
      | Err e => fail (Wrapf "query provider %s: %w" [provider] e)
      | Panic => lift Panic
      end
  end.

Definition submitManifest (provider : string) (dseq : N) (mani : json) : act unit :=
  host ← gatewayClient provider;
  r ← ask (λ n, let '(n, r) := gw_submit gw n host dseq mani in (n, Ok r));
  match r with Some e => fail (Wrapf "submit manifest: %w" [] e) | None => mret tt end.

Definition prepared (dseq : N) (sdlData : string) : act json :=
  sdls ← gets en_sdls;
  files ← gets en_files;
  lift (manifestFromSDL files (providerSDL sdls dseq sdlData)).

Definition SendManifest (provider : string) (dseq : N) (sdlData : string) : act unit :=
  if (dseq =? 0)%N then fail (Errorf "send manifest: dseq is required" [])
  else mani ← prepared dseq sdlData; submitManifest provider dseq mani.

(** ** All providers with an active lease *)
Definition leases_error (dseq : N) (e : error) : error := Wrapf "query active leases for deployment %d: %w" [FormatUint dseq] e.

Fixpoint lease_pages (owner : string) (dseq : N) (fuel : nat) (key : string) (seen providers : gset string) : act (option (gset string)) :=
  match fuel with
  | O => mret None
  | S fuel =>
      r ← attempt (ask (λ n, gw_leases gw n owner dseq key));
      match r with
      | Err e => fail (leases_error dseq e)
      | Panic => lift Panic
      | Ok None => fail (Errorf "query active leases for deployment %d: empty response" [FormatUint dseq])
      | Ok (Some (page, next)) =>
          let providers : gset string := providers ∪ list_to_set (List.filter (λ p, negb (bool_decide (p = ""))) page) in
          let next := default "" next in
          if bool_decide (next = "") then mret (Some providers)
          else if bool_decide (next ∈ seen) then fail (Errorf "query active leases for deployment %d: repeated pagination key" [FormatUint dseq])
          else lease_pages owner dseq fuel next (seen ∪ {[ next ]}) providers
      end
  end.
Definition activeLeaseProviders (fuel : nat) (owner : string) (dseq : N) : act (option (list string)) :=
  r ← lease_pages owner dseq fuel "" ∅ ∅;
  mret ((λ s, sort_strings (elements s)) <$> r).

(** [errors.Join] of the failures, [None] when there are none. *)
Fixpoint join_errors (l : list error) : option error :=
  match l with [] => None | [e] => Some e | e :: l => match join_errors l with Some e' => Some (Joined e e') | None => Some e end end.

Fixpoint send_each (dseq : N) (mani : json) (providers : list string) (sent : list string) (failures : list error) : act (list string * list error) :=
  match providers with
  | [] => mret (sent, failures)
  | provider :: providers =>
      nd ← gets en_node;
      match gw_ctx gw nd with
      | Some e => mret (sent, failures ++ [e])
      | None =>
          r ← attempt (submitManifest provider dseq mani);
          match r with
          | Ok _ => send_each dseq mani providers (sent ++ [provider]) failures
          | Err e => send_each dseq mani providers sent (failures ++ [Wrapf "provider %s: %w" [provider] e])
          | Panic => lift Panic
          end
      end
  end.
(** The providers that accepted the manifest, and the failures. *)
Definition sendManifestToProviders (dseq : N) (mani : json) (providers : list string) : act (list string * option error) :=
  '(sent, failures) ← send_each dseq mani providers [] []; mret (sent, join_errors failures).

Definition SendManifestToActiveLeases (fuel : nat) (dseq : N) (sdlData : string) : act (option (list string * option error)) :=
  if (dseq =? 0)%N then fail (Errorf "send manifest to active leases: dseq is required" [])
  else if bool_decide (from = "") then fail (Errorf "send manifest to active leases: owner address is required" [])
  else
    mani ← prepared dseq sdlData;
    providers ← activeLeaseProviders fuel from dseq;
    match providers with
    | None => mret None
    | Some providers => r ← sendManifestToProviders dseq mani providers; mret (Some r)
    end.

Definition LeaseStatus (provider : string) (dseq : N) : act bytes :=
  if (dseq =? 0)%N then fail (Errorf "lease status: dseq is required" [])
  else
    host ← gatewayClient provider;
    r ← attempt (ask (λ n, gw_status gw n host (MkLeaseID from dseq defaultGSeq defaultOSeq provider)));
    match r with
    | Ok status => mret status
    | Err e => fail (Wrapf "query lease status: %w" [] e)
    | Panic => lift Panic
    end.
End provider.
