(* ===== verification/ConsoleAdapter.v ===== *)
(** * The Console rail of a workflow (internal/workflow/adapters/console.go, metadata.go)

    The adapter that routes the transactions of a workflow to the Console API. Its
    state is that of the Console client; queries go to a chain client when there is
    one. *)

From Stdlib Require Import Ascii.
From stdpp Require Import sorting base gmap strings pretty option numbers list.
From S2P Require Import Prelude GoStd GoJson StoreExport Sync Context Workflow Steps ConfigDoc ConfigPatch ConfigApply ConfigDiff ActionLog GoText ConsoleHttp ConsoleTypes ConsoleDeploy ConsoleLease ConsoleSecrets ConsoleAccount Adapters.

Section console.
Context {E : Type} (P : Peer E) `{Lexer, Sdl, Yaml, Jose, SortMixed, Anchors} (clock : E → Z) (PathEscape : string → string).
(** The files, opening the file of secrets, and the input stream of the run. *)
Context (files : gmap string file) (opened : option error) (input : option (result string)).
Context (cc : Client) (chainQueries : option (ChainClient (world E))).
Abbreviation call := (call E).

(** A non-zero code is a failed broadcast. *)
Definition consoleTxResult (signTx : option SignTx) (data : gmap string string) : result TxResult :=
  match signTx with
  | Some t =>
      if negb (st_Code t =? 0)%Z then failf "tx %s failed with code %d: %s" [st_TransactionHash t; FormatInt (st_Code t); st_RawLog t]
      else Ok (MkTxResult (st_TransactionHash t) 0 0 (Some (Text (enc_map (Some data)))))
  | None => Ok (MkTxResult "" 0 0 (Some (Text (enc_map (Some data)))))
  end.

Definition requiredDSeqParam (params : gmap string string) (msgType : string) : result string :=
  _ ← map_err (Wrapf "%s: %w" [msgType]) (requiredUint64Param params "dseq"); Ok (param params "dseq").

Definition read_secrets (params : gmap string string) : call SecretValues := lift (ReadSecretValuesFile files opened (param params "secrets-file") input).

Definition console_create (params : gmap string string) : call TxResult :=
  let source := param params "source-dseq" in
  sdlInput ← (if negb (bool_decide (source = "")) && bool_decide (param params "sdl" = "")
              then f ← wrap_call (Wrapf "read source deployment definition: %w" []) (GetDeploymentDefinition P cc source); mret (df_SDL f)
              else mret (param params "sdl"));
  sdl ← lift (map_err (Wrapf "%s: %w" [msgCreateDeployment]) (sdlContent files sdlInput));
  secrets ← read_secrets params;
  res ← CreateDeployment P clock cc sdl [MkCreateOptions secrets source];
  lift (consoleTxResult (cr_SignTx res) (<["auto_top_up" := "daily"]> (<["rail" := "console"]> {["dseq" := cr_DSeq res]}))).

Definition console_update (params : gmap string string) : call TxResult :=
  dseq ← lift (requiredDSeqParam params msgUpdateDeployment);
  sdl ← lift (map_err (Wrapf "%s: %w" [msgUpdateDeployment]) (sdlContent files (param params "sdl")));
  secrets ← read_secrets params;
  (if bool_decide (param params "patch" = "true")
   then patch ← lift (ParsePatch sdl); PatchDeployment P clock cc dseq patch secrets
   else UpdateDeployment P clock cc dseq sdl [secrets]);;
  lift (consoleTxResult None {["dseq" := dseq]}).

Definition console_close (params : gmap string string) : call TxResult :=
  dseq ← lift (requiredDSeqParam params msgCloseDeployment);
  CloseDeployment P cc dseq;;
  lift (consoleTxResult None {["dseq" := dseq]}).

Definition console_lease (params : gmap string string) : call TxResult :=
  dseq ← lift (requiredDSeqParam params msgCreateLease);
  let provider := param params "provider" in
  if bool_decide (provider = "") then fail (Errorf "%s: required param %q missing" [msgCreateLease; "provider"])
  else
    gseq ← lift (map_err (Wrapf "%s: %w" [msgCreateLease]) (uint32ParamWithDefault params "gseq" 1));
    oseq ← lift (map_err (Wrapf "%s: %w" [msgCreateLease]) (uint32ParamWithDefault params "oseq" 1));
    CreateLease P cc "" [MkLeaseRequest dseq gseq oseq provider];;
    lift (consoleTxResult None (<["provider" := provider]> (<["oseq" := FormatUint oseq]> (<["gseq" := FormatUint gseq]> {["dseq" := dseq]})))).

Definition console_BroadcastTx (msgType : string) (params : gmap string string) : call TxResult :=
  if bool_decide (msgType = msgCreateDeployment) then console_create params
  else if bool_decide (msgType = msgUpdateDeployment) then console_update params
  else if bool_decide (msgType = msgCloseDeployment) then console_close params
  else if bool_decide (msgType = msgCreateLease) then console_lease params
  else fail (Errorf "command %q is not supported on the Console workflow rail; set the context's preferred workflow rail with --deploy-via chain" [msgType]).

(** ** Queries *)
Fixpoint provider_details (owners : list string) (metadata : gmap string Metadata) : call (gmap string Metadata) :=
  match owners with
  | [] => mret metadata
  | owner :: owners =>
      r ← attempt (GetProvider P PathEscape cc owner);
      provider_details owners match r with
                              | Ok (audited, raw) => <[owner := MkMetadata (default ∅ (AttributesFromProviderJSON raw)) audited]> metadata
                              | _ => metadata
                              end
  end.
Definition fetchConsoleProviderMetadata (bids : list Bid) : call (gmap string Metadata) :=
  let unique : gset string := list_to_set (List.filter (λ p, negb (bool_decide (p = ""))) ((λ b, mi_Provider (cbid_ID b)) <$> bids)) in
  provider_details (sort_strings (elements unique)) ∅.

Definition console_Query (path : string) (params : gmap string string) : call bytes :=
  match chainQueries with
  | Some chain => λ w, match cc_Query chain w path params with (w, inl b) => (w, Ok b) | (w, inr e) => (w, Err e) end
  | None =>
      if bool_decide (path = queryMarketBids) then
        let dseq := param params "dseq" in
        if bool_decide (dseq = "") then fail (Errorf "query %s via Console requires a %q filter" [path; "dseq"])
        else
          bids ← wrap_call (Wrapf "fetch bids for dseq %s: %w" [dseq]) (FetchBids P cc dseq);
          metadata ← fetchConsoleProviderMetadata bids;
          mret (Text (JObj [("bids", JArr ((λ b, JObj [("bid", enc_console_bid b)]) <$> bids)); ("provider_metadata", enc_metadata metadata)]))
      else fail (Errorf "query %q is not supported on the Console workflow rail without chain access; add a network with an RPC endpoint to the context" [path])
  end.

Definition NewConsoleChainClient : ChainClient (world E) :=
  MkChainClient (λ w msgType params, let '(w, r) := console_BroadcastTx msgType params w in (w, to_sum r))
                (λ w path params, let '(w, r) := console_Query path params w in (w, to_sum r)).
End console.
