(* ===== verification/AdapterProps.v ===== *)
(** * Correctness of the workflow adapters (internal/workflow/adapters)

    The message of a transaction and the manifest a provider gets come from one SDL
    without secrets; a redeployment takes the SDL the store recorded, and none after
    a patch. *)

From Stdlib Require Import Ascii.
From stdpp Require Import sorting base gmap strings pretty option numbers list.
From S2P Require Import Prelude GoStd GoJson Bolt StoreTypes StoreOps StoreRep StoreSpec StoreClose StoreRun StoreProps StoreExport Sync.
From S2P Require Import Context Workflow Steps ConfigDoc ConfigPatch ConfigApply GoText ConsoleDeploy ConsoleSecrets Persist PersistProps Adapters ProviderAdapter.

Section chain_props.
Context `{Sdl} `{!ChainSDK} `{Yaml} {Nd Tx : Type} `{BoltOps Tx} (node : Node Nd).
Context (fresh : Tx) (migrations : list (Migration Tx)) (mkdir bolt : option error) (stat_store : string → option error).
Abbreviation act := (stateR (env Nd Tx)).
Abbreviation prepareChain := (prepareChain (Nd:=Nd) fresh migrations mkdir bolt stat_store).
Abbreviation BroadcastTx := (BroadcastTx node fresh migrations mkdir bolt stat_store).

(** ** The files do not change *)
Definition keeps_files {A} (m : act A) : Prop := ∀ e, en_files (m e).1 = en_files e.
Lemma keeps_bind {A B} (m : act A) (f : A → act B) : keeps_files m → (∀ a, keeps_files (f a)) → keeps_files (m ≫= f).
Proof.
  intros Hm Hf e. specialize (Hm e). unfold mbind, stateR_bind. destruct (m e) as [e1 [a|er|]]; simpl in *; [|done..].
  by rewrite Hf.
Qed.
Lemma keeps_lift {A} (r : result A) : keeps_files (lift r).
Proof. done. Qed.
Lemma keeps_gets {A} (f : env Nd Tx → A) : keeps_files (gets f).
Proof. done. Qed.
Lemma keeps_open root ctx : keeps_files (open_store (Nd:=Nd) fresh migrations mkdir bolt root ctx).
Proof. intros e. unfold open_store. by destruct (OpenContext _ _ _ _ _ _ _). Qed.
Hint Resolve keeps_lift keeps_gets keeps_open : core.
Ltac keeps := repeat first [done | solve [auto] | apply keeps_bind; [|intros ?] | case_match].
Lemma keeps_sourcePath d owner dseq override flag : keeps_files (sourcePath (Nd:=Nd) fresh migrations mkdir bolt stat_store d owner dseq override flag).
Proof. unfold sourcePath. keeps. Qed.
Hint Resolve keeps_sourcePath : core.
Lemma keeps_prepare d owner params : keeps_files (prepareChain d owner params).
Proof. unfold Adapters.prepareChain, apply_patch, read_sdl. keeps. Qed.

(** ** What a success went through *)
Lemma ask_Ok {A} (f : Nd → Nd * result A) (e e' : env Nd Tx) a :
  ask f e = (e', Ok a) → ∃ n, f (en_node e) = (n, Ok a) ∧ e' = MkEnv n (en_files e) (en_disk e) (en_sdls e).
Proof. unfold ask. destruct (f (en_node e)) as [n r]. intros [= <- ->]. by exists n. Qed.

Lemma broadcast_Ok msg data (e e' : env Nd Tx) r : broadcast node msg data e = (e', Ok r) →
  ∃ n resp, n_Broadcast node (en_node e) msg = (n, Ok (Some resp)) ∧ tr_Code resp = 0%N ∧
    e' = MkEnv n (en_files e) (en_disk e) (en_sdls e) ∧ tx_Data r = Some (Text (enc_map (Some data))).
Proof.
  intros (e1&res&(n&Hn&->)%ask_Ok&Hb)%bind_Ok. destruct res as [resp|]; [|done].
  destruct (tr_Code resp =? 0)%N eqn:Hc; [|done]. injection Hb as <- <-. exists n, resp. split_and!; [done|by apply N.eqb_eq|done..].
Qed.

Lemma prepareChain_Ok d owner params e e' raw path : prepareChain d owner params e = (e', Ok (raw, path)) →
  param params "secrets-file" = "" ∧ HasReferences raw = Ok false ∧ en_files e' = en_files e.
Proof.
  intros Hp. split_and!; [| |pose proof (keeps_prepare d owner params e) as Hk; by rewrite Hp in Hk].
  - unfold Adapters.prepareChain in Hp. by destruct (bool_decide (param params "secrets-file" = "")) eqn:Hs; [apply bool_decide_eq_true in Hs|].
  - unfold Adapters.prepareChain in Hp. destruct (negb _); [done|].
    apply bind_Ok in Hp as (e1&p&_&Hp). apply bind_Ok in Hp as (e2&raw1&_&Hp). apply bind_Ok in Hp as (e3&[raw2 p2]&_&Hp).
    apply bind_Ok in Hp as (e4&b&[-> Hb]%lift_Ok&Hp). destruct b; [done|].
    apply bind_Ok in Hp as (e5&fl&[-> ->]%gets_Ok&Hp). by injection Hp as <- <- <-.
Qed.

(** The message of a deployment, by dseq and hash. *)
Definition deploys (m : Msg) (dseq : N) (hash : string) : Prop :=
  match m with
  | MsgCreateDeployment _ d h _ _ | MsgUpdateDeployment _ d h => d = dseq ∧ h = hash
  | _ => False
  end.

(** C8: on the chain rail, the transaction and the manifest are of one SDL. A create
    or update that succeeds broadcast a message with the hash of one SDL that parses
    and holds no reference to a Console secret, without a file of secrets; and any
    provider that is then sent the manifest of that deployment gets the manifest of
    the same SDL, whatever SDL the provider step was given. *)
Theorem manifest_matches_tx d msgType params e e' r :
  BroadcastTx d msgType params e = (e', Ok r) → msgType = msgCreateDeployment ∨ msgType = msgUpdateDeployment →
  ∃ raw doc dseq hash msg n n' resp,
    readSDL (en_files e) raw = Ok doc ∧ doc_Version doc = Ok hash ∧ deploys msg dseq hash ∧
    n_Broadcast node n msg = (n', Ok (Some resp)) ∧ tr_Code resp = 0%N ∧
    param params "secrets-file" = "" ∧ HasReferences raw = Ok false ∧
    ∀ fallback, manifestFromSDL (en_files e') (providerSDL (en_sdls e') dseq fallback) =
                map_err (Wrapf "build manifest from SDL: %w" []) (doc_Manifest doc).
Proof.
  intros Hb Hm. unfold Adapters.BroadcastTx in Hb. destruct Hm as [-> | ->].
  - rewrite (bool_decide_eq_true_2 (msgCreateDeployment = msgCreateDeployment) eq_refl) in Hb.
    apply bind_Ok in Hb as (e1&[raw path]&Hp&Hb). apply prepareChain_Ok in Hp as (Hs&Href&Hf).
    apply bind_Ok in Hb as (e2&dseq&Hd&Hb). assert (en_files e2 = en_files e1) as Hf2.
    { unfold deriveDSeq in Hd. destruct (negb _).
      - by apply lift_Ok in Hd as [-> _].
      - apply bind_Ok in Hd as (ea&[b h]&(n&_&->)%ask_Ok&Hd). destruct b; [done|]. by injection Hd as <- <-. }
    apply bind_Ok in Hb as (e3&dep&Hdep&Hb). assert (en_files e3 = en_files e2) as Hf3.
    { unfold resolveDeposit, ResolveChainDepositValue in Hdep. apply bind_Ok in Hdep as (ea&v&Hv&[-> _]%lift_Ok).
      destruct (negb _ && negb _); [by injection Hv as <- <-|].
      apply bind_Ok in Hv as (eb&coins&(n&_&->)%ask_Ok&Hv). destruct (List.find _ coins) as [[]|]; [|done]. by injection Hv as <- <-. }
    apply bind_Ok in Hb as (e4&files&[-> ->]%gets_Ok&Hb). apply bind_Ok in Hb as (e5&m&[-> Hbuild]%lift_Ok&Hb).
    apply bind_Ok in Hb as (e6&[]&Hrem&Hb). injection Hrem as <-.
    apply broadcast_Ok in Hb as (n'&resp&Hn&Hc&->&_). cbn [en_files en_sdls en_node] in *.
    unfold buildCreateDeploymentMsg in Hbuild. case_bool_decide; [done|]. destruct (dseq =? 0)%N; [done|].
    apply bind_ok in Hbuild as (doc&Hdoc%map_err_ok&Hbuild). apply bind_ok in Hbuild as (groups&Hg&Hbuild).
    apply bind_ok in Hbuild as (version&Hver&Hbuild). cbv zeta in Hbuild. destruct (ValidateBasic _); [done|]. injection Hbuild as <-.
    rewrite Hf3, Hf2, Hf in Hdoc. exists raw, doc, dseq, version. eexists _, (en_node e3), n', resp. split_and!; [done|done| |exact Hn|done..|].
    + done.
    + intros fallback. unfold providerSDL. rewrite lookup_insert_eq. simpl. unfold manifestFromSDL. by rewrite Hf3, Hf2, Hf, Hdoc.
  - rewrite (bool_decide_eq_false_2 (msgUpdateDeployment = msgCreateDeployment)), (bool_decide_eq_true_2 (msgUpdateDeployment = msgUpdateDeployment) eq_refl) in Hb by done.
    apply bind_Ok in Hb as (e1&[raw path]&Hp&Hb). apply prepareChain_Ok in Hp as (Hs&Href&Hf).
    apply bind_Ok in Hb as (e2&files&[-> ->]%gets_Ok&Hb). apply bind_Ok in Hb as (e3&[[dseq m] groups]&[-> Hbuild]%lift_Ok&Hb).
    apply bind_Ok in Hb as (e4&[]&Hv&Hb). apply bind_Ok in Hv as (ea&ex&(n&_&->)%ask_Ok&Hv).
    destruct (_ && _); [|done]. injection Hv as <-.
    apply bind_Ok in Hb as (e6&[]&Hrem&Hb). injection Hrem as <-.
    apply broadcast_Ok in Hb as (n'&resp&Hn&Hc&->&_). cbn [en_files en_sdls en_node] in *.
    unfold buildUpdateDeploymentMsg in Hbuild. case_bool_decide; [done|].
    apply bind_ok in Hbuild as (dq&Hdq&Hbuild). apply bind_ok in Hbuild as (doc&Hdoc%map_err_ok&Hbuild).
    apply bind_ok in Hbuild as (version&Hver&Hbuild). apply bind_ok in Hbuild as (gs&Hg&Hbuild). injection Hbuild as <- <- <-.
    rewrite Hf in Hdoc. exists raw, doc, dq, version. eexists _, n, n', resp. split_and!; [done|done| |exact Hn|done..|].
    + done.
    + intros fallback. unfold providerSDL. rewrite lookup_insert_eq. simpl. unfold manifestFromSDL. by rewrite Hf, Hdoc.
Qed.
End chain_props.

(** ** Redeploying from a recorded deployment *)
Section redeploy.
Context `{Sdl} `{!ChainSDK} `{Yaml} {Nd Tx : Type} `{BoltLaws Tx} `{Floats, RunValues}.
Context (fresh : Tx) (migrations : list (Migration Tx)) (mkdir bolt : option error) (stat_store : string → option error).
Abbreviation sourcePath := (sourcePath (Nd:=Nd) fresh migrations mkdir bolt stat_store).

(** The source of a deployment the store has a record of. *)
Lemma sourcePath_recorded d owner dseq flag e disk' db r :
  (0 < dseq ≤ u64_max)%N → owner ≠ "" → di_root d ≠ "" → di_context d ≠ "" →
  let path := StoreDBPath (di_root d) (di_context d) in
  stat_store path = None → is_Some (en_disk e !! path) →
  OpenContext fresh migrations mkdir bolt (en_disk e) (di_root d) (di_context d) = (disk', Ok db) →
  StoreOps.GetDeployment db owner dseq = Ok (Some r) →
  (sourcePath d owner (FormatUint dseq) "" flag e).2 =
    if bool_decide (d_SDLPath r = "") then Err (missing_sdl (FormatUint dseq) flag) else Ok (d_SDLPath r).
Proof.
  intros Hn Ho Hroot Hctx path Hstat Hdisk Hopen Hget. unfold Adapters.sourcePath.
  rewrite ParseUint_FormatUint by lia. rewrite (proj2 (N.eqb_neq dseq 0)) by lia.
  rewrite (bool_decide_eq_false_2 (di_root d = "") Hroot), (bool_decide_eq_false_2 (di_context d = "") Hctx).
  change (StoreDBPath (di_root d) (di_context d)) with path. rewrite Hstat.
  rewrite bool_decide_eq_true_2 by done. cbn [negb orb]. unfold mbind, stateR_bind, gets.
  rewrite (bool_decide_eq_true_2 (is_Some (en_disk e !! path)) Hdisk). unfold open_store, lift. rewrite Hopen.
  rewrite (bool_decide_eq_false_2 (owner = "") Ho), Hget. by case_bool_decide.
Qed.

(** C35: a redeployment takes the SDL the last update recorded, and never a stale one.
    Once an update is recorded and the store reopened, a redeployment of it without
    an SDL of its own starts from the SDL of the update; after a patched update,
    whose result no file holds, it fails and asks for the SDL. *)
Theorem redeploy_after_update db A state now db' updated owner existing d e disk' reopened flag :
  store_rep db A → Forall (λ o, op_ok o = true) (plan db state now).1 → rs_Workflow state = "update" →
  successfulStep state "update-deployment" = Some updated → existingRunOwner db state (runDSeq state updated) = Ok owner →
  StoreOps.GetDeployment db owner (runDSeq state updated) = Ok existing →
  persistWorkflowOutcome db state now = (db', Ok tt) →
  let dseq := runDSeq state updated in
  let path := StoreDBPath (di_root d) (di_context d) in
  (0 < dseq ≤ u64_max)%N → owner ≠ "" → di_root d ≠ "" → di_context d ≠ "" → stat_store path = None → is_Some (en_disk e !! path) →
  OpenContext fresh migrations mkdir bolt (en_disk e) (di_root d) (di_context d) = (disk', Ok reopened) →
  StoreOps.GetDeployment reopened owner dseq = StoreOps.GetDeployment db' owner dseq →
  (patched state = true → (sourcePath d owner (FormatUint dseq) "" flag e).2 = Err (missing_sdl (FormatUint dseq) flag)) ∧
  (patched state = false → sdl_source state ≠ "" → (sourcePath d owner (FormatUint dseq) "" flag e).2 = Ok (sdl_source state)).
Proof.
  intros Hr HF Hw Hu Ho Hg Hp dseq path Hn Hne Hroot Hctx Hstat Hdisk Hopen Hsame.
  destruct (update_recorded _ _ _ _ _ _ _ _ Hr HF Hw Hu Ho Hg Hp) as [[v Hv] _]. unfold dseq in Hsame. rewrite Hv in Hsame.
  rewrite (sourcePath_recorded _ _ _ flag _ _ _ _ Hn Hne Hroot Hctx Hstat Hdisk Hopen Hsame).
  unfold update_record, applySDL. split.
  - intros Hpt. rewrite Hpt. by destruct (default _ existing).
  - intros Hpt Hsrc. rewrite Hpt, (bool_decide_eq_false_2 (sdl_source state = "") Hsrc).
    destruct (sdlHash _); destruct (default _ existing); simpl; by rewrite (bool_decide_eq_false_2 (sdl_source state = "") Hsrc).
Qed.
End redeploy.

(** ** Manifests to every provider with a lease *)
Section provider_props.
Context `{Sdl} {Nd Tx : Type} (gw : Gateway Nd) (from : string).

Lemma lease_pages_stop (keys : gset string) owner dseq fuel : 
  (∀ n key n' page next, gw_leases gw n owner dseq key = (n', Ok (Some (page, Some next))) → next ∈ keys ∪ {[ "" ]}) →
  ∀ key seen providers (e : env Nd Tx), seen ⊆ keys → (size (keys ∖ seen) < fuel)%nat →
  ∀ e', lease_pages gw owner dseq fuel key seen providers e ≠ (e', Ok None).
Proof.
  intros Hkeys. induction fuel as [|fuel IH]; intros key seen providers e Hseen Hfuel e'; [lia|].
  cbn [lease_pages]. unfold mbind at 1, stateR_bind at 1, attempt, ask.
  destruct (gw_leases gw (en_node e) owner dseq key) as [n [[[page next]|]| |]] eqn:E; cbn; [|done..].
  case_bool_decide as Hz; [done|]. case_bool_decide as Hs; [done|]. apply IH.
  - destruct next as [next|]; [|done]. apply Hkeys in E. simpl in *. set_solver.
  - destruct next as [next|]; [|done]. apply Hkeys in E. simpl in *.
    assert (next ∈ keys ∖ seen) as Hin by set_solver.
    assert (size (keys ∖ (seen ∪ {[next]})) < size (keys ∖ seen))%nat; [|lia].
    apply subset_size. set_solver.
Qed.

(** the loop over the pages of leases ends. A node that answers with at most [n]
    different keys is asked at most [n] + 1 times, because a key that comes again is
    an error; so with that many pages the loop always has a result. *)
Theorem activeLeaseProviders_terminates (keys : gset string) owner dseq fuel (e e' : env Nd Tx) :
  (∀ n key n' page next, gw_leases gw n owner dseq key = (n', Ok (Some (page, Some next))) → next ∈ keys ∪ {[ "" ]}) →
  (size keys < fuel)%nat → activeLeaseProviders gw fuel owner dseq e ≠ (e', Ok None).
Proof.
  intros Hkeys Hf Ha. unfold activeLeaseProviders in Ha. apply bind_Ok in Ha as (e1&r&Hl&Hr).
  destruct r; [done|]. apply (lease_pages_stop keys) in Hl; [done|done|set_solver|].
  assert (keys ∖ ∅ = keys) as -> by set_solver. done.
Qed.
End provider_props.

(** ** The properties at concrete inputs *)
#[local] Existing Instances plain_floats plain_values.
#[local] Instance text_sdl : Sdl := {|
  sdl_doc := string; sdl_group := string; sdl_Read s := Ok s; sdl_ReadFile _ r := r; doc_Version s := Ok ("hash of " +:+ s);
  doc_Manifest s := Ok (JStr s); doc_Groups _ := Ok []; group_Equal _ _ := true; group_Denom g := g; group_Name g := g |}.
#[local] Instance empty_yaml : Yaml := {| yaml_Decode _ := Some (YMap 0 [], false); yaml_Marshal _ := "" |}.
#[local] Instance lax_sdk : ChainSDK := {| coin_Normalized s := Ok s; dec_coin_denom s := Ok s; ValidateBasic _ := None |}.
Definition quiet_node : Node unit := {|
  n_response := unit; n_from := "akash1owner"; n_SyncInfo n := (n, Ok (false, 9%Z)); n_Params n := (n, Ok [("5", "uact")]);
  n_Groups n _ _ := (n, Ok []); n_Broadcast n _ := (n, Ok (Some (MkTxResponse "AB" 12 0 ""))); n_Bids n _ := (n, Ok (tt, []));
  n_Leases n _ := (n, Ok tt); n_Deployments n _ := (n, Ok tt); n_codec _ := None; n_json _ := Ok (Text JNull);
  n_Attributes _ _ := Ok []; n_AuditCount _ _ := Ok 0%nat |}.
Definition demo_inputs : DeploymentInputs := MkInputs "/akt" "main".
Definition demo_path : string := StoreDBPath "/akt" "main".
Definition demo_env (db : buckets) : env unit buckets := MkEnv tt {["app.yaml" := Regular (Ok "services: {}")]} {[demo_path := db]} ∅.
Definition create_params : gmap string string := {["sdl" := "app.yaml"]}.
Abbreviation demo_broadcast := (BroadcastTx quiet_node (demo_db : buckets) [] None None (λ _, None) demo_inputs).

Lemma snd_ok {S A} (p : S * result A) a : p.2 = Ok a → p = (p.1, Ok a).
Proof. destruct p. by intros [= ->]. Qed.
Definition broadcast_env : env unit buckets := (demo_broadcast msgCreateDeployment create_params (demo_env demo_db)).1.

Lemma manifest_matches_tx_witness : ∃ raw doc dseq, readSDL (en_files (demo_env demo_db)) raw = Ok doc ∧ HasReferences raw = Ok false ∧
  ∀ fallback, manifestFromSDL (en_files broadcast_env) (providerSDL (en_sdls broadcast_env) dseq fallback) =
    map_err (Wrapf "build manifest from SDL: %w" []) (doc_Manifest doc).
Proof.
  assert (∃ r, demo_broadcast msgCreateDeployment create_params (demo_env demo_db) = (broadcast_env, Ok r)) as [r Hr]
    by (eexists; apply snd_ok; vm_compute; reflexivity).
  destruct (manifest_matches_tx quiet_node demo_db [] None None (λ _, None) demo_inputs msgCreateDeployment create_params
    (demo_env demo_db) broadcast_env r Hr (or_introl eq_refl))
    as (raw & doc & dseq & hash & msg & n & n' & resp & Hdoc & _ & _ & _ & _ & _ & Href & Hm).
  exists raw, doc, dseq. split; [exact Hdoc|split; [exact Href|exact Hm]].
Defined.

Definition patched_run : RunState := MkRunState "run-3" "update" "main"
  {["dseq" := VStr "7"; "sdl-file" := VStr "change.yaml"; "patch" := VJson (JBool true)]}
  {["update-deployment" := ok_step "update-deployment" {["owner" := VStr "akash1owner"]}]} [].
Definition patched_db : buckets := (persistWorkflowOutcome demo_db patched_run 1700000000).1.
Abbreviation demo_source := (sourcePath (Nd:=unit) (demo_db : buckets) [] None None (λ _, None) demo_inputs "akash1owner" "7" "").

Lemma path_known db : is_Some (en_disk (demo_env db) !! StoreDBPath (di_root demo_inputs) (di_context demo_inputs)).
Proof. exists db. apply lookup_singleton_eq. Qed.
Definition reopen (db : buckets) : gmap string buckets * result buckets :=
  OpenContext (demo_db : buckets) [] None None (en_disk (demo_env db)) (di_root demo_inputs) (di_context demo_inputs).
Definition reopened (db : buckets) : buckets := match (reopen db).2 with Ok db => db | _ => ∅ end.
Lemma reopened_ok db : is_ok (reopen db).2 = true → reopen db = ((reopen db).1, Ok (reopened db)).
Proof. unfold reopened. by destruct (reopen db) as [disk [ | | ]]. Qed.

Lemma redeploy_after_update_witness :
  (demo_source "sdl-file" (demo_env updated_db)).2 = Ok "new.yaml" ∧
  (demo_source "sdl-file" (demo_env patched_db)).2 = Err (missing_sdl "7" "sdl-file").
Proof.
  split.
  - refine (proj2 (redeploy_after_update (Nd:=unit) demo_db [] None None (λ _, None) demo_db demo_astore update_run 1700000000 updated_db
      updated_step "akash1owner" (Some (set_d_RecordVersion 1 demo_deployment)) demo_inputs (demo_env updated_db)
      (reopen updated_db).1 (reopened updated_db) "sdl-file" demo_rep (all_ok _ _) _ _ _ _ update_run_ok _ _ _ _ _ (path_known updated_db) (reopened_ok updated_db _) _) _ _);
      by vm_compute.
  - refine (proj1 (redeploy_after_update (Nd:=unit) demo_db [] None None (λ _, None) demo_db demo_astore patched_run 1700000000 patched_db
      updated_step "akash1owner" (Some (set_d_RecordVersion 1 demo_deployment)) demo_inputs (demo_env patched_db)
      (reopen patched_db).1 (reopened patched_db) "sdl-file" demo_rep (all_ok _ _) _ _ _ _ (pair_ok _ _) _ _ _ _ _ (path_known patched_db) (reopened_ok patched_db _) _) _);
      by vm_compute.
Defined.

(** Two pages with one key. *)
Definition two_pages : Gateway unit := {|
  gw_address _ := None; gw_host n _ := (n, Ok "host"); gw_open _ _ := None; gw_submit n _ _ _ := (n, None);
  gw_status n _ _ := (n, Ok (Text JNull)); gw_ctx _ := None;
  gw_leases n _ _ key := (n, Ok (Some (if bool_decide (key = "") then (["akash1b"], Some "k") else (["akash1a"; "akash1b"], None)))) |}.
Lemma activeLeaseProviders_terminates_witness :
  activeLeaseProviders two_pages 2 "akash1owner" 7 (demo_env demo_db) ≠ (demo_env demo_db, Ok None).
Proof.
  apply (activeLeaseProviders_terminates two_pages {["k"]}); [|vm_compute; lia].
  intros n key n' page next. simpl. case_bool_decide; intros [= <- <- <-]. set_solver.
Defined.
