(* ===== verification/WorkflowParams.v ===== *)
(** * The parameters of a workflow command (internal/cli/workflow: params.go, commands.go)

    A workflow definition becomes a command: required files are arguments, the other
    parameters are flags. This file collects the values of an invocation, checks them
    against the definition and translates them for the rail of the context. Cobra and
    pflag are reduced to the flags with their values; the SDL library, the coin
    parser and time.ParseDuration are parameters. *)

From Stdlib Require Import Ascii.
From stdpp Require Import sorting base gmap strings pretty option numbers list.
From S2P Require Import Prelude GoStd GoJson Bolt StoreTypes StoreOps StoreExport Sync Context Workflow Steps ConfigDoc ConfigPatch ConfigApply GoText ConsoleDeploy ConsoleSecrets Persist Adapters.

Definition ParamString : string := "string".
Definition ParamInt : string := "int".
Definition ParamBool : string := "bool".
Definition ParamDuration : string := "duration".
Definition ParamFile : string := "file".
Definition ParamSDL : string := "sdl".
Definition ParamDeposit : string := "deposit".
Definition ParamBidSelection : string := "bid-selection".
Definition FlagDeposit : string := "deposit".

(** ** Flags (pflag) *)
Inductive flag_value : Type := FStr (s : string) | FInt (z : Z) | FBool (b : bool).
Record flag : Type := MkFlag { fg_Value : flag_value; fg_Changed : bool }.
Abbreviation flags := (gmap string flag).

(** A flag that is missing or of another type reads as the zero value. *)
Definition GetString (fs : flags) (name : string) : string := match fg_Value <$> fs !! name with Some (FStr s) => s | _ => "" end.
Definition GetInt (fs : flags) (name : string) : Z := match fg_Value <$> fs !! name with Some (FInt z) => z | _ => 0%Z end.
Definition GetBool (fs : flags) (name : string) : bool := match fg_Value <$> fs !! name with Some (FBool b) => b | _ => false end.
Definition Changed (fs : flags) (name : string) : bool := match fs !! name with Some f => fg_Changed f | None => false end.

(** ** The command of a definition *)
Definition sortedParamNames (params : gmap string ParamDef) : list string := sort_strings (map_to_list params).*1.

Definition param_of (def : WorkflowDef) (name : string) (t : string) : bool :=
  match wf_Params def !! name with Some p => bool_decide (pd_Type p = t) | None => false end.
Definition is_positional (def : WorkflowDef) (name : string) : bool :=
  (param_of def name ParamFile || param_of def name ParamSDL) && match wf_Params def !! name with Some p => pd_Required p | None => false end.
Definition positionalParams (def : WorkflowDef) : list string := List.filter (is_positional def) (sortedParamNames (wf_Params def)).
Definition depositParam (def : WorkflowDef) : option string :=
  if bool_decide (wf_Name def = "deploy") && param_of def FlagDeposit ParamDeposit then Some FlagDeposit else None.
Definition dseqParam (def : WorkflowDef) : option string := if param_of def "dseq" ParamInt then Some "dseq" else None.

Definition use_line (def : WorkflowDef) : string :=
  foldl (λ use name, use +:+ " <" +:+ name +:+ ">") (wf_Name def) (positionalParams def)
  +:+ match depositParam def with Some _ => " [deposit]" | None => "" end
  +:+ match dseqParam def with Some _ => " [dseq]" | None => "" end.

(** How many arguments the command takes. *)
Definition min_args (def : WorkflowDef) : nat := length (positionalParams def).
Definition max_args (def : WorkflowDef) : nat :=
  min_args def + (if depositParam def then 1 else 0) + (if dseqParam def then 1 else 0).

(** [strconv.Atoi] without its error: a number out of range is the nearest one. *)
Definition atoi (s : string) : Z :=
  match ParseInt64 s with
  | Ok z => z
  | Err e => if bool_decide (e = ErrRange) then if HasPrefix s "-" then (- 2 ^ 63)%Z else (2 ^ 63 - 1)%Z else 0%Z
  | Panic => 0%Z
  end.

(** The flag of a parameter that is no argument, with its default. *)
Definition flag_of (p : ParamDef) : option flag_value :=
  if bool_decide (pd_Type p ∈ [ParamString; ParamFile; ParamSDL; ParamDeposit; ParamBidSelection; ParamDuration]) then Some (FStr (pd_Default p))
  else if bool_decide (pd_Type p = ParamInt) then Some (FInt (if bool_decide (pd_Default p = "") then 0%Z else atoi (pd_Default p)))
  else if bool_decide (pd_Type p = ParamBool) then Some (FBool (bool_decide (pd_Default p = "true")))
  else None.
Definition param_flags (def : WorkflowDef) : gmap string flag_value :=
  map_imap (λ name p, if is_positional def name then None else flag_of p) (wf_Params def).

(** ** Collecting the values of an invocation *)
Definition VBool (b : bool) : value := VJson (JBool b).
Definition twice (name : string) : error := Errorf "%s supplied both positionally and with --%s; use one form" [name; name].

Definition collect_deposit (fs : flags) (name : string) (rest : list string) (params : gmap string value) : result (gmap string value * list string) :=
  match rest with
  | a :: rest => if Changed fs name then Err (twice name) else Ok (<[name := VStr a]> params, rest)
  | [] => Ok (<[name := VStr (GetString fs name)]> params, [])
  end.
Definition collect_dseq (fs : flags) (name : string) (rest : list string) (params : gmap string value) : result (gmap string value) :=
  match rest with
  | a :: _ =>
      if Changed fs name then Err (twice name)
      else dseq ← map_err (Wrapf "invalid dseq %q: %w" [a]) (ParseInt64 a); Ok (<[name := VInt dseq]> params)
  | [] => Ok (if Changed fs name then <[name := VInt (GetInt fs name)]> params else params)
  end.

(** The value of a parameter that only has a flag. *)
Definition flag_param (fs : flags) (name : string) (p : ParamDef) : option value :=
  if bool_decide (pd_Type p ∈ [ParamString; ParamFile; ParamSDL; ParamDeposit; ParamBidSelection; ParamDuration]) then Some (VStr (GetString fs name))
  else if bool_decide (pd_Type p = ParamInt) then Some (VInt (GetInt fs name))
  else if bool_decide (pd_Type p = ParamBool) then Some (VBool (GetBool fs name))
  else None.
Definition collect_flag (def rt : WorkflowDef) (fs : flags) (params : gmap string value) (name : string) : gmap string value :=
  if is_positional def name || bool_decide (depositParam def = Some name) || bool_decide (dseqParam def = Some name) then params
  else match p ← wf_Params rt !! name; flag_param fs name p with Some v => <[name := v]> params | None => params end.

(** [def] is the definition the command was made of, [rt] the one that is loaded
    when it runs. *)
Definition collect_params (def rt : WorkflowDef) (fs : flags) (args : list string) : result (gmap string value) :=
  let names := positionalParams def in
  let params := foldl (λ m kv, <[kv.1 := VStr kv.2]> m) ∅ (zip names args) in
  '(params, rest) ← match depositParam def with
                    | Some d => collect_deposit fs d (drop (length names) args) params
                    | None => Ok (params, drop (length names) args)
                    end;
  params ← match dseqParam def with Some d => collect_dseq fs d rest params | None => Ok params end;
  Ok (foldl (collect_flag def rt fs) params (sortedParamNames (wf_Params rt))).

(** ** Checking them (params.go) *)
Definition workflowParamEmpty (v : value) : bool := match v with VJson (JStr s) => bool_decide (TrimSpace s = "") | _ => false end.
Definition isSequenceParam (name : string) : bool := bool_decide (name ∈ ["dseq"; "gseq"; "oseq"]).

Definition as_string (v : option value) : option string := match v with Some (VJson (JStr s)) => Some s | _ => None end.
Definition as_bool (v : option value) : option bool := match v with Some (VJson (JBool b)) => Some b | _ => None end.
Definition patch_given (params : gmap string value) : bool := default false (as_bool (params !! "patch")).

(** A regular file is opened; [ENOENT] is the error of a path that names nothing. *)
Definition ENOENT : error := Sentinel "no such file or directory".
Definition validateReadableFile (files : gmap string file) (v : value) : result string :=
  match as_string (Some v) with
  | None => failf "must be a file path" []
  | Some path =>
      match files !! path with
      | None => Err (Wrapf "read file %q: %w" [path] ENOENT)
      | Some Special => failf "file %q is not a regular file" [path]
      | Some (Regular (Err e)) => Err (Wrapf "read file %q: %w" [path] e)
      | Some (Regular _) => Ok path
      end
  end.

Definition os_ReadFile_of (files : gmap string file) (path : string) : result string :=
  match files !! path with
  | Some (Regular content) => content
  | Some Special => Err (Sentinel "is a directory")
  | None => Err ENOENT
  end.

Definition validatePatchFile `{Yaml} (files : gmap string file) (v : value) : result unit :=
  path ← validateReadableFile files v;
  data ← map_err (Wrapf "read patch file: %w" []) (os_ReadFile_of files path);
  _ ← ParsePatch data; Ok tt.

Definition validateSDLFile `{Sdl} (files : gmap string file) (v : value) : result unit :=
  path ← validateReadableFile files v;
  doc ← map_err (Wrapf "invalid SDL %q: %w" [path]) (sdl_ReadFile path (os_ReadFile_of files path));
  _ ← map_err (Wrapf "invalid SDL %q manifest: %w" [path]) (doc_Manifest doc);
  _ ← map_err (Wrapf "invalid SDL %q deployment groups: %w" [path]) (doc_Groups doc);
  _ ← map_err (Wrapf "invalid SDL %q version: %w" [path]) (doc_Version doc);
  Ok tt.

(** Values of the sum and result types of the components as one. *)
Definition of_sum {A} (x : A + error) : result A := match x with inl a => Ok a | inr e => Err e end.
Definition of_verdict (e : option error) : result unit := match e with Some e => Err e | None => Ok tt end.

Section params.
Context `{Sdl} `{!ChainSDK} `{Yaml} `{Bech32} (ParseDuration : string → Z + error).

Definition ParseDecCoin (s : string) : bool := is_ok (dec_coin_denom s).

Definition check_typed (files : gmap string file) (patch : bool) (name t : string) (v : value) : result unit :=
  let text := as_string (Some v) in
  if bool_decide (t = ParamString) then match text with Some _ => Ok tt | None => failf "must be a string" [] end
  else if bool_decide (t = ParamInt) then
    match v with
    | VInt z => if isSequenceParam name && (z <=? 0)%Z then failf "must be greater than zero" [] else Ok tt
    | _ => failf "must be a base-10 integer" []
    end
  else if bool_decide (t = ParamBool) then match as_bool (Some v) with Some _ => Ok tt | None => failf "must be a boolean" [] end
  else if bool_decide (t = ParamDuration) then
    match text with
    | None => failf "must be a duration" []
    | Some s => match ParseDuration s with
                | inr e => Err (Wrapf "invalid duration %q: %w" [s] e)
                | inl d => if (d <=? 0)%Z then failf "duration must be greater than zero" [] else Ok tt
                end
    end
  else if bool_decide (t = ParamFile) then
    if bool_decide (name = "secrets-file") && bool_decide (text = Some "-") then Ok tt else _ ← validateReadableFile files v; Ok tt
  else if bool_decide (t = ParamSDL) then
    if patch && bool_decide (name = "sdl-file") then validatePatchFile files v else validateSDLFile files v
  else if bool_decide (t = ParamDeposit) then
    match text with None => failf "must be a deposit string" [] | Some s => _ ← of_sum (ParseDeposit ParseDecCoin s); Ok tt end
  else if bool_decide (t = ParamBidSelection) then
    match text with None => failf "must be a bid selection string" [] | Some s => of_verdict (ValidateBidSelection s) end
  else failf "uses unsupported type %q" [t].

Definition check_param (files : gmap string file) (params : gmap string value) (name : string) (p : ParamDef) : result unit :=
  match params !! name with
  | Some v =>
      if workflowParamEmpty v then (if pd_Required p then failf "workflow parameter %q is required" [name] else Ok tt)
      else map_err (Wrapf "invalid workflow parameter %q: %w" [name]) (check_typed files (patch_given params) name (pd_Type p) v)
  | None => if pd_Required p then failf "workflow parameter %q is required" [name] else Ok tt
  end.
Definition validateWorkflowParams (files : gmap string file) (def : WorkflowDef) (params : gmap string value) : result unit :=
  foldR (λ _ name, match wf_Params def !! name with Some p => check_param files params name p | None => Ok tt end)
    tt (sortedParamNames (wf_Params def)).

(** ** Translating them for the rail (commands.go) *)
Definition is_console (rc : Context_) : bool := bool_decide (ctx_AuthMethod rc = AuthMethodConsoleAPI).

Definition mismatch_error (rc : Context_) (g : sdl_group) (denom : string) : error :=
  Errorf "SDL price denomination %q does not match the effective deposit denomination %q for deployment group %q; the chain would reject deployment creation: %s"
    [group_Denom g; denom; group_Name g;
     if is_console rc then "set the SDL pricing denomination to " +:+ denom
     else "set the SDL pricing denomination to " +:+ denom +:+ " or pass --deposit with a " +:+ group_Denom g +:+ " coin"].

(** The denomination a deployment is paid in, [None] when the check is skipped. *)
Definition deposit_denom (rc : Context_) (params : gmap string value) : result (option string) :=
  if is_console rc then Ok (Some "uact")
  else match as_string (params !! FlagDeposit) with
       | None => Ok None
       | Some deposit =>
           if bool_decide (TrimSpace deposit = "") then Ok None
           else denom ← map_err (Wrapf "resolve deployment deposit denomination from %q: %w" [deposit]) (dec_coin_denom deposit); Ok (Some denom)
       end.

Definition validateDeploymentDenominations (files : gmap string file) (rc : Context_) (params : gmap string value) : result unit :=
  match as_string (params !! "sdl-file") with
  | None => Ok tt
  | Some path =>
      if bool_decide (TrimSpace path = "") then Ok tt
      else
        denom ← deposit_denom rc params;
        match denom with
        | None => Ok tt
        | Some denom =>
            doc ← map_err (Wrapf "read SDL %q for deployment denomination preflight: %w" [path]) (sdl_ReadFile path (os_ReadFile_of files path));
            let groups := match doc_Groups doc with Ok l => l | _ => [] end in
            match List.find (λ g, negb (bool_decide (group_Denom g = denom))) groups with
            | Some g => Err (mismatch_error rc g denom)
            | None => Ok tt
            end
        end
  end.

Definition secrets_hint (what name : string) : error :=
  Errorf "%s a Console context; use `akt context edit %s --deploy-via console`" [what; name].

(** On the chain rail: no file of secrets, and no reference to one in the SDL. *)
Definition reject_secrets (files : gmap string file) (rc : Context_) (params : gmap string value) : result unit :=
  if negb (bool_decide (default "" (as_string (params !! "secrets-file")) = "")) then Err (secrets_hint "--secrets-file requires" (ctx_Name rc))
  else
    let path := default "" (as_string (params !! "sdl-file")) in
    if bool_decide (path = "") || patch_given params then Ok tt
    else
      data ← map_err (Wrapf "read SDL: %w" []) (os_ReadFile_of files path);
      refs ← HasReferences data;
      if (refs : bool) then Err (secrets_hint "secret references require" (ctx_Name rc)) else Ok tt.

Context {Nd Tx : Type} `{BoltOps Tx} (node : Node Nd).
Abbreviation act := (stateR (env Nd Tx)).

(** [light] is a failure to get a client for queries. *)
Definition rail_deposit_value (light : option error) (rc : Context_) (d : Deposit) : act string :=
  if is_console rc then lift (of_sum (RailValue d KindConsole))
  else
    resolved ← lift (of_sum (RailValue d KindChain));
    if dep_Auto d then
      match light with
      | Some e => fail (Wrapf "resolve chain auto deposit: %w" [] e)
      | None => ResolveChainDepositValue node resolved
      end
    else mret resolved.

Definition resolveWorkflowParams (light : option error) (rc : option Context_) (params : gmap string value) : act (gmap string value) :=
  files ← gets en_files;
  match rc with
  | None => mret params
  | Some rc =>
      lift (if is_console rc then Ok tt else reject_secrets files rc params);;
      match as_string (params !! FlagDeposit) with
      | None => mret params
      | Some raw =>
          parsed ← lift (of_sum (ParseDeposit ParseDecCoin raw));
          resolved ← rail_deposit_value light rc parsed;
          let params := <[FlagDeposit := VStr resolved]> params in
          lift (validateDeploymentDenominations files rc params);;
          mret params
      end
  end.

(** [fmt.Sprint] of a parameter. *)
Definition sprint_param `{Floats} (v : value) : string :=
  match v with
  | VJson (JStr s) => s
  | VInt z => FormatInt z
  | VJson (JBool b) => if b then "true" else "false"
  | _ => fmt_Sprint v
  end.

(** The parameters [ValidateChain] gets. *)
Definition chain_values `{Floats} (name : string) (params : gmap string value) : gmap string string :=
  let values : gmap string string :=
    foldl (λ m key, match params !! key with Some v => <[key := sprint_param v]> m | None => m end) ∅
      ["dseq"; "patch"; "base-sdl"; "secrets-file"; "deposit"] in
  let values := <["sdl" := default "" (as_string (params !! "sdl-file"))]> values in
  if bool_decide (name = "redeploy") then <["source-dseq" := param values "dseq"]> values else values.

Definition validatePreparedDeployment `{Floats} (fresh : Tx) (migrations : list (Migration Tx)) (mkdir bolt : option error) (stat_store : string → option error)
    (name : string) (params : gmap string value) (rc : option Context_) : act unit :=
  let patch := patch_given params in
  let console := match rc with Some rc => is_console rc | None => false end in
  let base := negb (bool_decide (default "" (as_string (params !! "base-sdl")) = "")) in
  if base && negb patch then fail (Errorf "--base-sdl requires --patch" [])
  else if base && console
  then fail (Errorf "--base-sdl is only used on the chain rail; Console patches use the saved deployment definition" [])
  else match rc with
       | None => mret tt
       | Some rc =>
           if is_console rc || (negb (bool_decide (name = "redeploy")) && negb patch) then mret tt
           else ValidateChain fresh migrations mkdir bolt stat_store (MkInputs (ctx_Root rc) (ctx_Name rc)) "" (chain_values name params)
       end.
End params.
