(* ===== verification/WorkflowReport.v ===== *)
(** * What a workflow command does after a run (internal/cli/workflow/commands.go)

    Waiting until a new deployment is ready, the advice after a failed deployment,
    and the reports: JSON lines, the lines of a finished deployment and the progress
    of a wait for bids. [W] is the world; loops that wait take the number of rounds
    as fuel. *)

From Stdlib Require Import Ascii.
From stdpp Require Import sorting base gmap strings pretty option numbers list.
From S2P Require Import Prelude GoStd GoJson StoreOps Context Workflow Steps ConfigPatch GoText ConsoleTypes Persist WorkflowParams.

(** ** Readiness *)
Record deploymentServiceStatus : Type := MkService { ss_Available : Z; ss_Total : Z; ss_URIs : option (list string) }.
Definition dec_service : decoder deploymentServiceStatus := dec_struct false [
  ("available", field ss_Available (λ v r, MkService v (ss_Total r) (ss_URIs r)) dec_int64);
  ("total", field ss_Total (λ v r, MkService (ss_Available r) v (ss_URIs r)) dec_int64);
  ("uris", field ss_URIs (λ v r, MkService (ss_Available r) (ss_Total r) v) (dec_slice "" dec_string))].

(** [map[string]T]: members are added to what is there, each one decoded afresh. *)
Definition dec_map_of {A} (zero : A) (dec : decoder A) : decoder (option (gmap string A)) := λ j old,
  match j with
  | JNull => Some None
  | JObj kvs =>
      vs ← mapM (λ kv, (λ v, (kv.1, v)) <$> dec kv.2 zero) kvs;
      Some (Some (foldl (λ m kv, <[kv.1 := kv.2]> m) (default ∅ old) vs))
  | _ => None
  end.
Definition dec_runtime_status : decoder (option (gmap string deploymentServiceStatus)) :=
  dec_struct false [("services", dec_map_of (MkService 0 0 None) dec_service)].

Definition service_ready (s : deploymentServiceStatus) : bool := (0 <? ss_Total s)%Z && (ss_Total s <=? ss_Available s)%Z.
Definition service_uris (s : deploymentServiceStatus) : option (list string) :=
  match ss_URIs s with Some ((_ :: _) as l) => Some l | _ => None end.

Abbreviation uris := (gmap string (list string)).
(** [None] is a deployment that is not ready. *)
Definition deploymentReady (raw : bytes) : result (option uris) :=
  status ← map_err (Wrapf "decode deployment service status: %w" []) (Unmarshal dec_runtime_status raw None);
  let services : gmap string deploymentServiceStatus := default ∅ status in
  if bool_decide (services = ∅) then Ok None
  else if forallb (λ kv, service_ready kv.2) (map_to_list services) then Ok (Some (omap service_uris services))
  else Ok None.

(** The services of all leases in one object; of two with one name the later lease
    counts. *)
Definition consoleRuntimeStatus (detail : DeploymentDetail) : result bytes :=
  services ← foldR (λ (services : gmap string json) lease,
      match ls_Status lease with
      | Some (Some (JObj kvs)) => Ok (foldl (λ m kv, <[kv.1 := kv.2]> m) services kvs)
      | Some (Some JNull) | Some None | None => Ok services
      | Some (Some _) => Err (Wrapf "decode Console lease services: %w" [] ErrJSON)
      end) ∅ (dd_Leases detail);
  Ok (Text (JObj [("services", JObj ((λ kv, (json_coerce kv.1, kv.2)) <$> sorted_members services))])).

Section readiness.
Context {W : Type}.
(** [fetch] reads the status; [done] waits for the ticker or the deadline and tells
    whether it was the deadline. *)
Context (fetch : W → W * (bytes + error)) (done : W → W * bool) (timeout : string).

Definition not_ready (lastErr : option error) : error :=
  match lastErr with
  | Some e => Wrapf "deployment did not become ready within %s: %w" [timeout] e
  | None => Errorf "deployment did not become ready within %s" [timeout]
  end.

Fixpoint waitForDeploymentReadiness (fuel : nat) (lastRaw : option bytes) (w : W) : option (W * (option uris * option bytes * option error)) :=
  match fuel with
  | O => None
  | S fuel =>
      let again lastRaw lastErr w :=
        match done w with
        | (w, true) => Some (w, (None, lastRaw, Some (not_ready lastErr)))
        | (w, false) => waitForDeploymentReadiness fuel lastRaw w
        end in
      match fetch w with
      | (w, inr e) => again lastRaw (Some e) w
      | (w, inl raw) =>
          match deploymentReady raw with
          | Ok (Some uris) => Some (w, (Some uris, Some raw, None))
          | Ok None => again (Some raw) None w
          | Err e => again (Some raw) (Some e) w
          | Panic => again (Some raw) None w
          end
      end
  end.
End readiness.

(** ** Completing a deploy run *)
Definition enc_uris (u : option uris) : json :=
  match u with
  | None => JNull
  | Some u => JObj ((λ kv, (json_coerce kv.1, JArr (enc_string <$> kv.2))) <$> sorted_members u)
  end.

Definition set_sr_Output (o : option (gmap string value)) (r : StepResult) : StepResult :=
  MkStepResult (sr_Name r) (sr_Type r) (sr_Status r) o (sr_RawResult r) (sr_Error r) (sr_TxHash r) (sr_Height r).
Definition set_rs_Steps (steps : gmap string StepResult) (s : RunState) : RunState :=
  MkRunState (rs_WorkflowID s) (rs_Workflow s) (rs_Account s) (rs_Params s) steps (rs_StepOrder s).

Definition mergeCompletionOutput (completion : gmap string value) (state : RunState) : RunState :=
  match step state "display-result" with
  | None => state
  | Some r => set_rs_Steps (<["display-result" := set_sr_Output (Some (completion ∪ default ∅ (sr_Output r))) r]> (rs_Steps state)) state
  end.

Section completion.
Context {W : Type} `{FL : Floats, RunValues} (done : W → W * bool) (ParseDuration : string → Z + error) (duration_text : Z → string).

(** The provider of the lease, or of the selected bid. *)
Definition run_provider (state : RunState) : string :=
  let p := workflowOutputString (step state "create-lease") "provider" in
  if bool_decide (p = "") then workflowOutputString (step state "select-bid") "provider" else p.

Definition set_if (b : bool) (k : string) (v : value) (m : gmap string value) : gmap string value := if b then <[k := v]> m else m.

(** [link] is the Console page of the deployment, empty for none. *)
Definition base_completion (state : RunState) (console : bool) (link : string) (dseq : N) : gmap string value :=
  let price := StepOutput_of state "select-bid" "price" in
  set_if (console && negb (bool_decide (link = ""))) "console_url" (VStr link)
    (set_if console "auto_top_up" (VStr "daily")
       (set_if (match price with VJson JNull => false | _ => true end) "price" price
          (<["ready" := VBool false]> (<["provider" := VStr (run_provider state)]> {["dseq" := VStr (FormatUint dseq)]})))).

Definition ready_step (status : string) (output : gmap string value) (raw : option bytes) (e : option error) : StepResult :=
  MkStepResult "wait-for-ready" StepWait status (Some output) raw e "" 0.

(** [fetch] is the status call of the rail, or why there is none. *)
Definition enrichDeployCompletion (fuel : nat) (console : bool) (link : N → string) (fetch : N → (W → W * (bytes + error)) + error)
    (state : RunState) (w : W) : option (W * RunState * option error) :=
  if negb (createsDeployment (rs_Workflow state)) then Some (w, state, None)
  else match rs_Params state !! "ready-timeout" with
  | None => Some (w, state, None)
  | Some readyTimeout =>
      match step state "create-deployment" with
      | None => Some (w, state, Some (Errorf "prepare deployment readiness: create-deployment result is missing" []))
      | Some created =>
          match workflowOutputUint64 (sr_Output created) "dseq" with
          | Err e => Some (w, state, Some (Wrapf "prepare deployment readiness: %w" [] e))
          | Panic => Some (w, state, None)
          | Ok dseq =>
              let completion := base_completion state console (link dseq) dseq in
              if default false (as_bool (rs_Params state !! "no-wait-active")) then
                let completion := <["readiness" := VStr "not-waited"]> completion in
                Some (w, SetStepResult "wait-for-ready" (ready_step "skipped" completion None None) (mergeCompletionOutput completion state), None)
              else match as_string (Some readyTimeout) with
              | None => Some (w, state, Some (Errorf "invalid ready-timeout %v" [sprint_param readyTimeout]))
              | Some text =>
                  match ParseDuration text with
                  | inr _ => Some (w, state, Some (Errorf "invalid ready-timeout %q" [text]))
                  | inl timeout =>
                      if (timeout <=? 0)%Z then Some (w, state, Some (Errorf "invalid ready-timeout %q" [text]))
                      else match fetch dseq with
                      | inr e => Some (w, state, Some e)
                      | inl fetch =>
                          r ← waitForDeploymentReadiness fetch done (duration_text timeout) fuel None w;
                          let '(w, (us, raw, e)) := r in
                          let completion := <["ready" := VBool (bool_decide (e = None))]> (<["uris" := VJson (enc_uris us)]> completion) in
                          let result := ready_step (if e then "failed" else "success") completion raw e in
                          Some (w, SetStepResult "wait-for-ready" result (mergeCompletionOutput completion state), e)
                      end
                  end
              end
          end
      end
  end.

Definition enrichSuccessfulDeploy (fuel : nat) (console : bool) (link : N → string) (fetch : N → (W → W * (bytes + error)) + error)
    (runErr : option error) (state : RunState) (w : W) : option (W * RunState * option error) :=
  match runErr with
  | Some e => Some (w, state, Some e)
  | None => enrichDeployCompletion fuel console link fetch state w
  end.
End completion.

(** ** Advice after a failure *)
Definition dquote : string := String (ascii_of_N 34) "".
(** A quote inside is written as quote, double quote, quote, double quote, quote. *)
Definition escaped_quote : string := "'" +:+ dquote +:+ "'" +:+ dquote +:+ "'".
Definition shellQuote (s : string) : string := "'" +:+ ReplaceAll s "'" escaped_quote +:+ "'".

Record workflowRecovery : Type := MkRecovery { wr_DSeq : N; wr_Provider : string; wr_Recovery : string; wr_Cleanup : string }.

Section advice.
Context `{Floats, RunValues}.

Definition deployRecoveryAdvice (state : RunState) (runErr : option error) : option workflowRecovery :=
  match runErr with
  | None => None
  | Some _ =>
      if negb (createsDeployment (rs_Workflow state)) then None
      else
        created ← successfulStep state "create-deployment";
        match workflowOutputUint64 (sr_Output created) "dseq" with
        | Ok dseq =>
            if (dseq =? 0)%N then None
            else
              let provider := run_provider state in
              let manifest_failed := match step state "send-manifest" with Some m => bool_decide (sr_Status m = "failed") | None => false end in
              let sdl := default "" (as_string (rs_Params state !! "sdl-file")) in
              Some (MkRecovery dseq provider
                (if negb (bool_decide (provider = "")) && manifest_failed && negb (bool_decide (TrimSpace sdl = ""))
                 then "akt provider send-manifest " +:+ shellQuote sdl +:+ " --dseq " +:+ FormatUint dseq +:+ " --provider " +:+ provider
                 else "")
                ("akt close " +:+ FormatUint dseq))
        | _ => None
        end
  end.
End advice.

Definition open_format : string :=
  "workflow %q failed: %w" +:+ newline_string +:+
  "deployment DSEQ %d%s remains open; escrow may continue to be consumed.%s" +:+ newline_string +:+ "explicit cleanup: %s".
Definition workflowFailureError (workflow : string) (runErr : error) (recovery : option workflowRecovery) : error :=
  match recovery with
  | None => Wrapf "workflow %q failed: %w" [workflow] runErr
  | Some r =>
      Wrapf open_format
        [workflow; FormatUint (wr_DSeq r); if bool_decide (wr_Provider r = "") then "" else " with provider " +:+ wr_Provider r;
         if bool_decide (wr_Recovery r = "") then "" else newline_string +:+ "retry manifest delivery: " +:+ wr_Recovery r; wr_Cleanup r] runErr
  end.

(** ** JSON lines *)
Record jsonlTx : Type := MkJsonlTx { jt_Hash : string; jt_Height : option Z }.
(** The text of an error stands for the error it is of. *)
Record jsonlLine : Type := MkJsonlLine {
  jl_Workflow : string; jl_ID : string; jl_Step : string; jl_Result : string; jl_Errors : list error; jl_Txs : list jsonlTx;
  jl_Outputs : option (gmap string value); jl_DSeq : N; jl_Provider : string; jl_Recovery : string; jl_Cleanup : string;
}.

Definition step_line (state : RunState) (recovery : option workflowRecovery) (sr : StepResult) : jsonlLine :=
  let result := if bool_decide (sr_Status sr = "success") then "completed"
                else if bool_decide (sr_Status sr = "skipped") then "skipped" else "error" in
  let r := if bool_decide (result = "error") then default (MkRecovery 0 "" "" "") recovery else MkRecovery 0 "" "" "" in
  MkJsonlLine (rs_Workflow state) (rs_WorkflowID state) (sr_Name sr) result (match sr_Error sr with Some e => [e] | None => [] end)
    (if bool_decide (sr_TxHash sr = "") then [] else [MkJsonlTx (sr_TxHash sr) (if (0 <? sr_Height sr)%Z then Some (sr_Height sr) else None)])
    (sr_Output sr) (wr_DSeq r) (wr_Provider r) (wr_Recovery r) (wr_Cleanup r).
Definition run_lines (state : RunState) (recovery : option workflowRecovery) : list jsonlLine :=
  step_line state recovery <$> omap (step state) (rs_StepOrder state).

(** One line per planned step of a dry run. *)
Definition plan_line (def : WorkflowDef) (runID : string) (params : gmap string value) (s : StepDef) : jsonlLine :=
  MkJsonlLine (wf_Name def) runID (sd_Name s) "planned" [] []
    (if bool_decide (sd_Name s = "create-deployment") then (λ d, {[FlagDeposit := d]}) <$> params !! FlagDeposit else None) 0 "" "" "".
Definition plan_lines (def : WorkflowDef) (runID : string) (params : gmap string value) : list jsonlLine := plan_line def runID params <$> wf_Steps def.

(** Writing lines until one fails; a short write without an error is one. *)
Definition ErrShortWrite : error := Sentinel "short write".
Definition complete_write (written len : nat) (e : option error) : option error :=
  match e with None => if (written =? len)%nat then None else Some ErrShortWrite | e => e end.
Section emit.
Context {W : Type} (encode : W → jsonlLine → W * option error).
Fixpoint emit_lines (wrap : error → error) (lines : list jsonlLine) (w : W) : W * option error :=
  match lines with
  | [] => (w, None)
  | line :: lines => match encode w line with (w, None) => emit_lines wrap lines w | (w, Some e) => (w, Some (wrap e)) end
  end.
Definition emitJSONL (state : RunState) (recovery : option workflowRecovery) : W → W * option error :=
  emit_lines (Wrapf "write workflow JSONL report: %w" []) (run_lines state recovery).
Definition emitDryRunJSONL (def : WorkflowDef) (runID : string) (params : gmap string value) : W → W * option error :=
  emit_lines (Wrapf "render workflow dry-run JSONL: %w" []) (plan_lines def runID params).
End emit.

(** ** The lines of a finished deployment *)
Section next.
Context `{Floats}.

(** [strings.TrimSpace(fmt.Sprint(output[key]))]; a missing value prints as nil. *)
Definition output_text (output : gmap string value) (key : string) : string :=
  match output !! key with Some (VJson JNull) | None => "<nil>" | Some v => TrimSpace (sprint_param v) end.
Definition shown (s : string) : bool := negb (bool_decide (s = "")) && negb (bool_decide (s = "<nil>")).

Definition uri_lines (v : option value) : list string :=
  match v with
  | Some (VJson (JObj kvs)) =>
      concat ((λ kv, match kv.2 with
                     | JArr l => (λ u, "  URI (" +:+ kv.1 +:+ "): " +:+ match u with JStr s => s | _ => "" end) <$> l
                     | _ => []
                     end) <$> kvs)
  | _ => []
  end.

Definition disable_line (dseq : string) : string := "  Disable: akt console deployment settings " +:+ dseq +:+ " false".
Definition renderDeployNext (state : RunState) : list string :=
  match step state "display-result" ≫= sr_Output with
  | None => []
  | Some output =>
      let dseq := output_text output "dseq" in
      let provider := output_text output "provider" in
      let link := output_text output "console_url" in
      if negb (createsDeployment (rs_Workflow state)) || negb (shown dseq) then []
      else
        [""; "Deployment:"; "  DSEQ: " +:+ dseq]
        ++ (if shown provider then ["  Provider: " +:+ provider] else [])
        ++ match as_bool (output !! "ready") with
           | Some true => ["  Ready: yes"]
           | Some false => if bool_decide (as_string (output !! "readiness") = Some "not-waited") then ["  Ready: not checked"] else []
           | None => []
           end
        ++ uri_lines (output !! "uris")
        ++ (if shown link then ["  Console: " +:+ link] else [])
        ++ [""; "Next:"]
        ++ match output !! "auto_top_up" with
           | Some _ => ["  Status:  akt console status " +:+ dseq; "  Logs:    akt console logs " +:+ dseq; "  Auto top-up: enabled daily"; disable_line dseq]
           | None =>
               if shown provider
               then ["  Status:  akt provider lease-status " +:+ dseq +:+ " --provider " +:+ provider;
                     "  Logs:    akt provider lease-logs " +:+ dseq +:+ " --provider " +:+ provider]
               else []
           end
        ++ ["  Close:   akt close " +:+ dseq]
  end.
End next.

(** ** The report of a run and its plan

    The lines of a report: texts, formats with their arguments, and texts that end
    with the text of an error. *)
Inductive report_line : Type := RText (s : string) | RFormat (format : string) (args : list string) | RError (s : string) (e : error).

(** [%-*s]: padded on the right to a number of runes. *)
Definition pad_right (n : nat) (s : string) : string := s +:+ of_bytes (replicate (n - rune_count 0 (bytes_of s)) " "%char).

Section report.
Context `{Floats}.

Definition result_line (sr : StepResult) : report_line :=
  let text := "  " +:+ pad_right 20 (sr_Name sr) +:+ " " +:+ pad_right 9 (sr_Status sr)
              +:+ (if bool_decide (sr_TxHash sr = "") then "" else "  tx: " +:+ sr_TxHash sr) in
  match sr_Error sr with Some e => RError (text +:+ "  error: ") e | None => RText text end.

Definition recovery_lines (r : workflowRecovery) : list string :=
  [""; "Partial deployment state:"; "  DSEQ: " +:+ FormatUint (wr_DSeq r)]
  ++ (if bool_decide (wr_Provider r = "") then [] else ["  Provider: " +:+ wr_Provider r])
  ++ ["  WARNING: This deployment remains open; escrow may continue to be consumed."]
  ++ (if bool_decide (wr_Recovery r = "") then [] else ["  Recovery: " +:+ wr_Recovery r])
  ++ ["  Explicit cleanup: " +:+ wr_Cleanup r].

Definition printResults (state : RunState) (runErr : option error) (recovery : option workflowRecovery) : list report_line :=
  [RText ""; RText "Results:"] ++ (result_line <$> omap (step state) (rs_StepOrder state))
  ++ match runErr, recovery with
     | None, _ => [RText ""; RFormat "Workflow %q completed successfully." [rs_Workflow state]] ++ (RText <$> renderDeployNext state)
     | Some _, Some r => RText <$> recovery_lines r
     | Some _, None => []
     end.

Definition consolePlanAction (msg : string) : string :=
  if bool_decide (msg = "deployment.MsgCreateDeployment") then "Console API create deployment"
  else if bool_decide (msg = "deployment.MsgUpdateDeployment") then "Console API update deployment"
  else if bool_decide (msg = "deployment.MsgCloseDeployment") then "Console API close deployment"
  else if bool_decide (msg = "market.MsgCreateLease") then "Console API create lease"
  else "unsupported Console action " +:+ msg.

Definition plan_step (rail : string) (i : nat) (s : StepDef) : string :=
  let console := bool_decide (rail = KindConsole) in
  let provider := bool_decide (sd_Type s = StepProvider) in
  "  " +:+ FormatUint (N.of_nat (S i)) +:+ ". [" +:+ sd_Type s +:+ "] " +:+ sd_Name s
  +:+ (if console && negb (bool_decide (sd_Msg s = "")) then " -> " +:+ consolePlanAction (sd_Msg s)
       else if console && provider then " -> handled by Console during lease creation"
       else if negb (bool_decide (sd_Msg s = "")) then " -> " +:+ sd_Msg s else "")
  +:+ (if negb (bool_decide (sd_Action s = "")) && (negb console || negb provider) then " -> " +:+ sd_Action s else "")
  +:+ (if bool_decide (sd_OnError s = "") then "" else " (on-error: " +:+ sd_OnError s +:+ ")")
  +:+ match sd_Retry s with Some r => " (retry: " +:+ FormatInt (rd_Max r) +:+ "x, " +:+ rd_Delay r +:+ " delay)" | None => "" end.

(** [params] are the parameters in the order the map gives them. *)
Definition printPlan (def : WorkflowDef) (params : list (string * value)) (rail : string) : list string :=
  ["Workflow: " +:+ wf_Name def +:+ " (v" +:+ FormatInt (wf_Version def) +:+ ")"; "  " +:+ wf_Description def; ""]
  ++ (if bool_decide (rail = "") then [] else ["Rail: " +:+ rail; ""])
  ++ ["Parameters:"] ++ ((λ kv, "  " +:+ pad_right 16 (kv.1 +:+ ":") +:+ " " +:+ sprint_param kv.2) <$> params)
  ++ [""; "Steps (" +:+ FormatUint (N.of_nat (length (wf_Steps def))) +:+ "):"] ++ imap (plan_step rail) (wf_Steps def).
End report.

(** [write] writes a text and tells how much of it was written. *)
Definition writeWorkflowReport {W} (write : W → list report_line → W * option error) (lines : list report_line) (format : string) (w : W) : W * option error :=
  let '(w, e) := write w lines in (w, Wrapf ("write workflow " +:+ format +:+ " report: %w") [] <$> e).

(** The argument of [akt console deployment settings] (internal/cli/console/deployment.go). *)
Definition parseRuntimeLimit (value : string) : result (option Z) :=
  let text := ToLower (TrimSpace value) in
  if bool_decide (text = "none") then Ok None
  else match ParseInt64 text with
       | Ok hours => if (hours <? 1)%Z then failf "runtime limit must be at least 1 hour, got %d" [FormatInt hours] else Ok (Some hours)
       | _ => failf "runtime limit must be a whole number of hours or `none`, got %q" [value]
       end.

(** ** Progress of a wait for bids

    [elapsed] and [remaining] are rounded to seconds; the state is the last count and
    the time of the next report without a change. *)
Definition seconds (n : Z) : Z := (n * second)%Z.
Definition bid_wait_report (duration_text : Z → string) (st : Z * Z) (query : string) (result : bytes) (elapsed remaining : Z) : (Z * Z) * option string :=
  if negb (bool_decide (query = "market.bids")) then (st, None)
  else match Unmarshal (dec_struct false [("bids", dec_slice tt (λ _ _, Some tt))]) result None with
       | Ok bids =>
           let count := Z.of_nat (length (default [] bids)) in
           if (count =? st.1)%Z && (elapsed <? st.2)%Z then (st, None)
           else ((count, (elapsed / seconds 30 + 1) * seconds 30)%Z,
                 Some ("Waiting for bids: " +:+ FormatInt count +:+ " received, " +:+ duration_text elapsed +:+ " elapsed, " +:+ duration_text remaining +:+ " remaining"))
       | _ => (st, None)
       end.
