(* ===== verification/WorkflowReportProps.v ===== *)
(** * Properties of the reports of a workflow command

    The recovery command reads back, word by word, as the arguments it is meant for;
    a deployment counts as ready exactly when each of its services is, and the wait
    for it ends at its deadline with either a ready status or an error. *)

From Stdlib Require Import Ascii.
From stdpp Require Import sorting base gmap strings pretty option numbers list.
From S2P Require Import Prelude GoStd GoJson StoreOps Context Workflow Steps GoText ConsoleTypes Persist WorkflowParams WorkflowReport.

(** ** A shell reading a command line

    The words of a POSIX shell line: quotes of both kinds, and blanks between words.
    Whatever else has a meaning for the shell gives [None]. *)
Inductive sh_mode : Type := Plain | Single | Double.
Definition sh_special (c : ascii) : bool :=
  bool_decide (N_of_ascii c ∈ [9; 10; 33; 34; 35; 36; 38; 39; 40; 41; 42; 59; 60; 62; 63; 91; 92; 93; 94; 96; 123; 124; 125; 126; 32]%N).
Definition single_quote : ascii := ascii_of_N 39.
Definition double_quote : ascii := ascii_of_N 34.

(** [cur] is the word being read, [None] between words. *)
Fixpoint sh_read (mode : sh_mode) (cur : option (list ascii)) (l : list ascii) : option (list (list ascii)) :=
  match l with
  | [] => match mode with Plain => Some (match cur with Some w => [w] | None => [] end) | _ => None end
  | c :: l =>
      let add := Some (default [] cur ++ [c]) in
      match mode with
      | Plain =>
          if bool_decide (c = single_quote) then sh_read Single (Some (default [] cur)) l
          else if bool_decide (c = double_quote) then sh_read Double (Some (default [] cur)) l
          else if bool_decide (c = " "%char) then
            match cur with Some w => cons w <$> sh_read Plain None l | None => sh_read Plain None l end
          else if sh_special c then None else sh_read Plain add l
      | Single => if bool_decide (c = single_quote) then sh_read Plain cur l else sh_read Single add l
      | Double =>
          if bool_decide (c = double_quote) then sh_read Plain cur l
          else if bool_decide (N_of_ascii c ∈ [36; 92; 96; 33]%N) then None else sh_read Double add l
      end
  end.
Definition sh_words (line : string) : option (list string) :=
  match sh_read Plain None (bytes_of line) with Some words => Some (of_bytes <$> words) | None => None end.

(** Words the shell takes as they are. *)
Definition sh_plain (s : string) : Prop := Forall (λ c, sh_special c = false) (bytes_of s).
#[global] Instance sh_plain_dec s : Decision (sh_plain s).
Proof. unfold sh_plain. apply _. Defined.

Ltac sh_concrete := done || (by apply (bool_decide_unpack _); vm_compute).

Lemma sh_plain_step c cur l : sh_special c = false → sh_read Plain cur (c :: l) = sh_read Plain (Some (default [] cur ++ [c])) l.
Proof.
  intros Hc. cbn [sh_read]. rewrite Hc.
  by repeat (rewrite bool_decide_eq_false_2 by (intros ->; vm_compute in Hc; discriminate)).
Qed.

Lemma sh_read_plain w l : ∀ cur, Forall (λ c, sh_special c = false) w →
  sh_read Plain (Some cur) (w ++ l) = sh_read Plain (Some (cur ++ w)) l.
Proof.
  induction w as [|c w IH]; intros cur Hw; [by rewrite app_nil_r|]. apply Forall_cons in Hw as [Hc Hw].
  rewrite <-app_comm_cons, sh_plain_step by done. cbn [default]. rewrite IH by done. by rewrite <-app_assoc.
Qed.

(** A word the shell takes as it is, followed by a blank. *)
Lemma sh_read_word s l : s ≠ "" → sh_plain s →
  sh_read Plain None (bytes_of s ++ " "%char :: l) = cons (bytes_of s) <$> sh_read Plain None l.
Proof.
  unfold sh_plain. intros Hne Hs. destruct s as [|c s]; [done|]. rewrite bytes_of_cons in *. apply Forall_cons in Hs as [Hc Hs].
  rewrite <-app_comm_cons, sh_plain_step by done. cbn [default]. rewrite sh_read_plain by done. done.
Qed.
Lemma sh_read_last s : s ≠ "" → sh_plain s → sh_read Plain None (bytes_of s) = Some [bytes_of s].
Proof.
  unfold sh_plain. intros Hne Hs. destruct s as [|c s]; [done|]. rewrite bytes_of_cons in *. apply Forall_cons in Hs as [Hc Hs].
  rewrite sh_plain_step by done. rewrite <-(app_nil_r (bytes_of s)), sh_read_plain by done. cbn. by rewrite app_nil_r.
Qed.

Lemma sh_read_quoted s l : ∀ cur,
  sh_read Single (Some cur) (replace_from 0 [single_quote] (bytes_of escaped_quote) s ++ single_quote :: l) = sh_read Plain (Some (cur ++ s)) l.
Proof.
  induction s as [|c s IH]; intros cur; [by rewrite app_nil_r|]. cbn [replace_from]. unfold is_prefix. case_bool_decide as Hp.
  - destruct Hp as [k [= ->]]. rewrite replace_skip. cbn [length Nat.sub drop].
    replace (cur ++ single_quote :: s) with ((cur ++ [single_quote]) ++ s) by (by rewrite <-app_assoc). by rewrite <-IH.
  - rewrite <-app_comm_cons. cbn [sh_read]. rewrite bool_decide_eq_false_2.
    + rewrite IH. cbn [default]. by rewrite <-app_assoc.
    + intros ->. apply Hp. by exists s.
Qed.

(** A quoted text is one word of the shell, whatever the text. *)
Lemma sh_read_shellQuote s l :
  sh_read Plain None (bytes_of (shellQuote s) ++ " "%char :: l) = cons (bytes_of s) <$> sh_read Plain None l.
Proof.
  unfold shellQuote, ReplaceAll. rewrite !bytes_of_app, bytes_of_of. cbn [bytes_of]. rewrite <-!app_assoc. cbn [app].
  change (sh_read Plain None ("'"%char :: ?k)) with (sh_read Single (Some []) k).
  change ["'"%char] with [single_quote].
  change ("'"%char :: " "%char :: l) with (single_quote :: " "%char :: l). by rewrite sh_read_quoted.
Qed.

Lemma sh_plain_digits n : sh_plain (FormatUint n).
Proof.
  unfold sh_plain. eapply Forall_impl; [apply pretty_digits|]. intros c [d Hd].
  destruct c as [[] [] [] [] [] [] [] []]; vm_compute in Hd |- *; done.
Qed.

(** ** The recovery command *)
Definition retry_command (sdl : string) (dseq : N) (provider : string) : string :=
  "akt provider send-manifest " +:+ shellQuote sdl +:+ " --dseq " +:+ FormatUint dseq +:+ " --provider " +:+ provider.

Lemma sh_words_retry sdl dseq provider : provider ≠ "" → sh_plain provider →
  sh_words (retry_command sdl dseq provider) =
    Some ["akt"; "provider"; "send-manifest"; sdl; "--dseq"; FormatUint dseq; "--provider"; provider].
Proof.
  intros Hne Hp. unfold sh_words, retry_command. rewrite !bytes_of_app.
  change (bytes_of "akt provider send-manifest ") with (bytes_of "akt" ++ " "%char :: bytes_of "provider" ++ " "%char :: bytes_of "send-manifest" ++ [" "%char]).
  change (bytes_of " --dseq ") with (" "%char :: bytes_of "--dseq" ++ [" "%char]).
  change (bytes_of " --provider ") with (" "%char :: bytes_of "--provider" ++ [" "%char]).
  rewrite <-?app_assoc, <-?app_comm_cons, <-?app_assoc, <-?app_comm_cons, <-?app_assoc. cbn [app].
  do 3 (rewrite sh_read_word by sh_concrete). rewrite sh_read_shellQuote, sh_read_word by sh_concrete.
  rewrite sh_read_word by (done || apply pretty_N_nonempty || apply sh_plain_digits).
  rewrite sh_read_word, sh_read_last by sh_concrete. cbn. by rewrite !of_bytes_of.
Qed.

Lemma sh_words_cleanup dseq : sh_words ("akt close " +:+ FormatUint dseq) = Some ["akt"; "close"; FormatUint dseq].
Proof.
  unfold sh_words. rewrite bytes_of_app.
  change (bytes_of "akt close ") with (bytes_of "akt" ++ " "%char :: bytes_of "close" ++ [" "%char]).
  rewrite <-?app_assoc, <-?app_comm_cons, <-?app_assoc, <-?app_comm_cons. cbn [app].
  do 2 (rewrite sh_read_word by sh_concrete).
  rewrite sh_read_last by (apply pretty_N_nonempty || apply sh_plain_digits). cbn. by rewrite !of_bytes_of.
Qed.

Section advice.
Context `{Floats, RunValues}.

(** the commands a failed deployment is told to run are, to a POSIX shell, the
    words they are meant to be, whatever the path of the SDL holds (blanks, quotes,
    dollars): the retry names the file, the deployment and the provider, and the
    cleanup closes the deployment that was created. *)
Theorem advice_reads_back state e r : deployRecoveryAdvice state e = Some r → sh_plain (wr_Provider r) →
  sh_words (wr_Cleanup r) = Some ["akt"; "close"; FormatUint (wr_DSeq r)] ∧
  (wr_Recovery r ≠ "" → ∃ sdl, as_string (rs_Params state !! "sdl-file") = Some sdl ∧
     sh_words (wr_Recovery r) = Some ["akt"; "provider"; "send-manifest"; sdl; "--dseq"; FormatUint (wr_DSeq r); "--provider"; wr_Provider r]).
Proof.
  unfold deployRecoveryAdvice. destruct e as [e|]; [|done]. destruct (negb _); [done|].
  destruct (successfulStep state "create-deployment") as [created|]; [cbn [mbind option_bind]|done].
  destruct (workflowOutputUint64 _ _) as [dseq| |]; [|done..]. destruct (dseq =? 0)%N; [done|].
  destruct (as_string _) as [sdl|] eqn:Hs; cbn [default]; intros [= <-] Hp; cbn [wr_Cleanup wr_DSeq wr_Recovery wr_Provider] in *;
    (split; [apply sh_words_cleanup|]).
  - destruct (_ && negb _) eqn:Hb; [|done]. intros _. exists sdl. split; [done|].
    apply sh_words_retry; [|done]. intros E. by rewrite E in Hb.
  - by rewrite andb_false_r.
Qed.
End advice.

(** ** Readiness *)

(** What it is for a deployment to run: some service, and all replicas of each. *)
Definition all_available (services : gmap string deploymentServiceStatus) : Prop :=
  services ≠ ∅ ∧ ∀ name s, services !! name = Some s → (0 < ss_Total s ∧ ss_Total s ≤ ss_Available s)%Z.

Lemma forallb_map_to_list {A} (P : A → bool) (m : gmap string A) :
  forallb (λ kv, P kv.2) (map_to_list m) = true ↔ ∀ k a, m !! k = Some a → P a = true.
Proof.
  rewrite forallb_forall. split.
  - intros Hf k a Ha. apply (Hf (k, a)). apply list_elem_of_In. by apply elem_of_map_to_list.
  - intros Hf [k a] Hin%list_elem_of_In. apply elem_of_map_to_list in Hin. eauto.
Qed.

Lemma deploymentReady_some raw us : deploymentReady raw = Ok (Some us) ↔
  ∃ services, Unmarshal dec_runtime_status raw None = Ok (Some services) ∧ all_available services ∧ us = omap service_uris services.
Proof.
  unfold deploymentReady, all_available. destruct (Unmarshal _ _ _) as [[services|]| |] eqn:Hd; cbn; [|naive_solver..].
  assert (forallb (λ kv, service_ready kv.2) (map_to_list services) = true ↔
          ∀ name s, services !! name = Some s → (0 < ss_Total s ∧ ss_Total s ≤ ss_Available s)%Z) as Hf.
  { rewrite forallb_map_to_list. unfold service_ready. setoid_rewrite andb_true_iff.
    by setoid_rewrite Z.ltb_lt; setoid_rewrite Z.leb_le. }
  destruct (bool_decide_reflect (services = ∅)) as [Hn|Hn]; [split; [done|intros (?&[= <-]&[? _]&_); done]|].
  destruct (forallb _ _).
  - split; [intros [= <-]; exists services; split_and!; [done..|by apply Hf|done]|by intros (?&[= <-]&_&->)].
  - split; [done|]. intros (?&[= <-]&[_ Ha]&_). apply Hf in Ha. done.
Qed.

Section wait.
Context {W : Type} (fetch : W → W * (bytes + error)) (done : W → W * bool) (timeout : string).

(** The deadline comes after at most [n] ticks. *)
Fixpoint deadline_within (n : nat) (w : W) : Prop :=
  match done (fetch w).1 with
  | (_, true) => True
  | (w, false) => match n with O => False | S n => deadline_within n w end
  end.

Lemma wait_step fuel last w : waitForDeploymentReadiness fetch done timeout (S fuel) last w =
  match fetch w with
  | (w, inl raw) =>
      match deploymentReady raw with
      | Ok (Some us) => Some (w, (Some us, Some raw, None))
      | r => match done w with
             | (w, true) => Some (w, (None, Some raw, Some (not_ready timeout (match r with Err e => Some e | _ => None end))))
             | (w, false) => waitForDeploymentReadiness fetch done timeout fuel (Some raw) w
             end
      end
  | (w, inr e) => match done w with
                  | (w, true) => Some (w, (None, last, Some (not_ready timeout (Some e))))
                  | (w, false) => waitForDeploymentReadiness fetch done timeout fuel last w
                  end
  end.
Proof. cbn. destruct (fetch w) as [w1 [raw|e]]; [|done]. by destruct (deploymentReady raw) as [[us|]| |]. Qed.

(** C28: the wait for a deployment always ends, one tick after its deadline at the
    latest, and its success is real: the last status fetched names at least one
    service and every replica of each service was available, the URIs being those of
    the services that have one; otherwise it is the error that names the deadline. *)
Theorem readiness_wait n last w : deadline_within n w →
  ∃ w' us raw e, waitForDeploymentReadiness fetch done timeout (S n) last w = Some (w', (us, raw, e)) ∧
  match e with
  | None => ∃ v status services, (fetch v).2 = inl status ∧ raw = Some status ∧
      Unmarshal dec_runtime_status status None = Ok (Some services) ∧ all_available services ∧ us = Some (omap service_uris services)
  | Some e => us = None ∧ ∃ cause, e = not_ready timeout cause
  end.
Proof.
  revert last w. induction n as [|n IH]; intros last w Hd; rewrite wait_step; cbn [deadline_within] in Hd.
  all: destruct (fetch w) as [w1 r] eqn:Hf; cbn [fst] in Hd; destruct (done w1) as [w2 []] eqn:Hw; try done.
  all: destruct r as [raw|e]; [destruct (deploymentReady raw) as [[us|]|e|] eqn:Hr|]; cbv iota beta; rewrite ?Hw.
  all: first [ (eapply IH; exact Hd)
             | (apply deploymentReady_some in Hr as (services&Hu&Ha&->); do 4 eexists; split; [reflexivity|]; exists w, raw, services; by rewrite Hf)
             | (do 4 eexists; split; [reflexivity|]; split; [reflexivity|]; eexists; reflexivity) ].
Qed.
End wait.

(** ** The hint of a Console deployment *)
Section next.
Context `{Floats}.

(** a Console deployment reports the command that is to disable its funding, and
    the command it names refuses the argument printed: the settings command reads a
    number of hours or none. *)
Theorem disable_hint_refused state output : createsDeployment (rs_Workflow state) = true →
  (step state "display-result" ≫= sr_Output) = Some output → shown (output_text output "dseq") = true → output !! "auto_top_up" ≠ None →
  disable_line (output_text output "dseq") ∈ renderDeployNext state ∧
  parseRuntimeLimit "false" = Err (Errorf "runtime limit must be a whole number of hours or `none`, got %q" ["false"]).
Proof.
  intros Hc Ho Hs Ha. split; [|by vm_compute]. unfold renderDeployNext. rewrite Ho, Hc, Hs. cbn [negb orb].
  destruct (output !! "auto_top_up"); [|done]. rewrite !elem_of_app. do 6 right. left. set_solver.
Qed.
End next.

(** ** The properties at concrete inputs *)
#[local] Instance report_floats : Floats := {
  float64 := Z; ParseFloat := λ s, match ParseInt64 s with Ok z => Some z | _ => None end;
  FormatFloat := FormatInt; float_lt := Z.ltb; fmt_Sprint := λ _, "";
}.
#[local] Instance report_values : RunValues := {
  acc_address := λ _, None; parse_coin := λ _, None; sdlHash := λ path, Some ("sha256:" +:+ path);
  float_uint64 := λ s, match ParseUint u64_max s with Ok n => Some n | _ => None end; float_text := λ s, s;
}.

Definition report_step (name status : string) (output : gmap string value) : StepResult :=
  MkStepResult name "tx" status (Some output) None None "" 5.
Definition shown_output : gmap string value := {["dseq" := VStr "9"; "auto_top_up" := VStr "daily"]}.
(** A deployment whose manifest was refused; the SDL is a file with a quote and a
    blank in its name. *)
Definition failed_deploy : RunState := MkRunState "run-1" "deploy" "main" {["sdl-file" := VStr "it's $HOME/my app.yaml"]}
  {["create-deployment" := report_step "create-deployment" "success" {["dseq" := VStr "9"]};
    "create-lease" := report_step "create-lease" "success" {["provider" := VStr "akash1prov"]};
    "send-manifest" := report_step "send-manifest" "failed" ∅;
    "display-result" := report_step "display-result" "success" shown_output]} [].
Definition failed_advice : workflowRecovery :=
  MkRecovery 9 "akash1prov" (retry_command "it's $HOME/my app.yaml" 9 "akash1prov") "akt close 9".

Lemma advice_reads_back_witness : ∃ sdl, as_string (rs_Params failed_deploy !! "sdl-file") = Some sdl ∧
  sh_words (wr_Recovery failed_advice) = Some ["akt"; "provider"; "send-manifest"; sdl; "--dseq"; "9"; "--provider"; "akash1prov"].
Proof.
  refine (proj2 (advice_reads_back failed_deploy (Some ErrShortWrite) failed_advice _ _) _).
  - vm_compute. reflexivity.
  - by apply (bool_decide_unpack _); vm_compute.
  - by vm_compute.
Defined.

Lemma disable_hint_refused_witness : disable_line (output_text shown_output "dseq") ∈ renderDeployNext failed_deploy.
Proof.
  refine (proj1 (disable_hint_refused failed_deploy shown_output _ _ _ _)).
  - reflexivity.
  - exact (eq_refl (Some shown_output)).
  - vm_compute. reflexivity.
  - vm_compute. discriminate.
Defined.

(** A deployment whose second replica comes up after one tick; the deadline is the
    third. *)
Definition web_status (available : string) : bytes :=
  Text (JObj [("services", JObj [("web", JObj [("available", JNum available); ("total", JNum "2"); ("uris", JArr [JStr "web.example"])])])]).
Definition status_at (n : nat) : nat * (bytes + error) := (n, inl (web_status (if (n =? 0)%nat then "1" else "2"))).
Definition tick (n : nat) : nat * bool := (S n, (2 <=? n)%nat).
Example replicas_arrive :
  match waitForDeploymentReadiness status_at tick "1m0s" 3 None 0 with
  | Some (_, (Some us, _, None)) => us !! "web"
  | _ => None
  end = Some ["web.example"].
Proof. vm_compute. reflexivity. Qed.
Lemma readiness_wait_witness : ∃ w' us raw e, waitForDeploymentReadiness status_at tick "1m0s" 3 None 0 = Some (w', (us, raw, e)) ∧
  match e with
  | None => ∃ v status services, (status_at v).2 = inl status ∧ raw = Some status ∧
      Unmarshal dec_runtime_status status None = Ok (Some services) ∧ all_available services ∧ us = Some (omap service_uris services)
  | Some e => us = None ∧ ∃ cause, e = not_ready "1m0s" cause
  end.
Proof. exact (readiness_wait status_at tick "1m0s" 2 None 0 I). Defined.
