(* ===== verification/WorkflowCommand.v ===== *)
(** * Running a workflow command (internal/cli/workflow/commands.go)

    [RunE] of a generated command and [executeWorkflow]: collect and check the
    parameters, build the clients of the context's rail, run the engine, wait for the
    deployment, record the outcome in the store and report. The world is the state of
    the adapters (node, files, stores, prepared SDLs) beside that of the Console
    client. *)

From Stdlib Require Import Ascii.
From stdpp Require Import sorting base gmap strings pretty option numbers list.
From S2P Require Import Prelude GoStd GoJson Bolt StoreTypes StoreOps StoreExport Sync Context Manager Workflow Steps ConfigDoc ConfigPatch ConfigApply ConfigDiff ActionLog GoText.
From S2P Require Import ConsoleHttp ConsoleTypes ConsoleDeploy ConsoleLease ConsoleSecrets ConsoleAccount Persist Adapters ProviderAdapter ConsoleAdapter WorkflowParams WorkflowReport.

(** ** The world *)
Record cli_world (Nd Tx E : Type) : Type := MkCliWorld { cw_env : env Nd Tx; cw_console : world E }.
Arguments MkCliWorld {Nd Tx E}. Arguments cw_env {Nd Tx E}. Arguments cw_console {Nd Tx E}.

Section lenses.
Context {Nd Tx E : Type}.
Abbreviation W := (cli_world Nd Tx E).
Definition on_env {A} (f : env Nd Tx → env Nd Tx * A) (w : W) : W * A :=
  let '(e, a) := f (cw_env w) in (MkCliWorld e (cw_console w), a).
Definition on_console {A} (f : world E → world E * A) (w : W) : W * A :=
  let '(c, a) := f (cw_console w) in (MkCliWorld (cw_env w) c, a).
Definition set_disk (disk : gmap string Tx) (w : W) : W :=
  MkCliWorld (MkEnv (en_node (cw_env w)) (en_files (cw_env w)) disk (en_sdls (cw_env w))) (cw_console w).

Definition env_chain (c : ChainClient (env Nd Tx)) : ChainClient W :=
  MkChainClient (λ w m p, on_env (λ e, cc_BroadcastTx c e m p) w) (λ w q p, on_env (λ e, cc_Query c e q p) w).
Definition console_chain (c : ChainClient (world E)) : ChainClient W :=
  MkChainClient (λ w m p, on_console (λ e, cc_BroadcastTx c e m p) w) (λ w q p, on_console (λ e, cc_Query c e q p) w).
End lenses.

(** ** Skipping provider steps *)
Section filter.
Context {W : Type} (note : W → report_line → W * option error).
Fixpoint keep_steps (steps : list StepDef) (w : W) : W * (list StepDef + error) :=
  match steps with
  | [] => (w, inl [])
  | s :: steps =>
      if bool_decide (sd_Type s = StepProvider) then
        match note w (RFormat "note: skipping step %q (manifest submission handled by Console)" [sd_Name s]) with
        | (w, Some e) => (w, inr e)
        | (w, None) => keep_steps steps w
        end
      else let '(w, r) := keep_steps steps w in (w, ebind (λ kept, inl (s :: kept)) r)
  end.
Definition set_wf_Steps (steps : list StepDef) (def : WorkflowDef) : WorkflowDef :=
  MkWorkflowDef (wf_Name def) (wf_Description def) (wf_Long def) (wf_Example def) (wf_Version def) (wf_Params def) steps.
Definition filterProviderSteps (def : WorkflowDef) (w : W) : W * (WorkflowDef + error) :=
  let '(w, r) := keep_steps (wf_Steps def) w in (w, ebind (λ kept, inl (set_wf_Steps kept def)) r).
End filter.

Section command.
Context `{Sdl} `{!ChainSDK} `{Yaml} `{Bech32} `{Lexer} `{Jose} `{SortMixed} `{Anchors} `{TemplateEngine} `{FL : Floats} `{RunValues}.
Context {Nd Tx E : Type} `{BoltOps Tx}.
Abbreviation W := (cli_world Nd Tx E).

(** The rest of the world a run needs: the node and the gateway behind the chain
    client ([cf_signer] is the address it signs for, or why there is no client), the
    Console peer, the engine's clock, the terminal, the action log, the file system
    around the store, and the time. *)
Context (node : Node Nd) (gw : Gateway Nd) (signer : string + error) (discoverErr : option error).
Context (peer : Peer E) (clock : E → Z) (PathEscape : string → string) (opened : option error) (input : option (result string)) (console_log : bool).
Context (engine_env : Env W) (sys : System W) (stuck : error) (fuel : nat) (logger : string → option (string → nat → StepResult → W → W)).
Context (fresh : Tx) (migrations : list (Migration Tx)) (mkdir bolt : option error) (stat_store : string → option error).
Context (ready_done : W → W * bool) (note : W → report_line → W * option error) (encode : W → jsonlLine → W * option error)
        (report : W → list report_line → W * option error) (now : W → Z) (newID : W → W * string) (quiet : bool).

(** ** Clients *)
Definition provider_client (d : DeploymentInputs) (from : string) : ProviderClient W :=
  MkProviderClient
    (λ w provider dseq sdl, let '(w, r) := on_env (SendManifest gw provider dseq sdl) w in (w, match r with Err e => Some e | _ => None end))
    (λ w dseq sdl, let '(w, r) := on_env (SendManifestToActiveLeases gw from fuel dseq sdl) w in
                   (w, match r with Ok (Some (sent, e)) => (Some sent, e) | Ok None => (None, Some stuck) | Err e => (None, Some e) | Panic => (None, Some stuck) end))
    (λ w provider dseq, let '(w, r) := on_env (LeaseStatus gw from provider dseq) w in (w, to_sum r)).

Definition chain_client (inputs : list (option DeploymentInputs)) : ChainClient W :=
  rail_client ParseDecCoin (newChainTransport (env_chain (NewChainClient node fresh migrations mkdir bolt stat_store inputs))).

(** Queries go to the chain when there is a client. *)
Definition console_client (cc : Client) (files : gmap string file) : ChainClient W :=
  let inner := console_chain (NewConsoleChainClient peer clock PathEscape files opened input cc None) in
  rail_client ParseDecCoin (newConsoleTransport
    (MkChainClient (cc_BroadcastTx inner) (match signer with inl _ => cc_Query (chain_client []) | inr _ => cc_Query inner end))).

(** Output steps print nothing beside JSON lines; only the pretty format reports
    progress. *)
Definition sys_for (jsonl pretty : bool) : System W :=
  MkSystem (if jsonl then λ w s, (w, (String.length s, None)) else sys_write sys) (sys_shell sys) (sys_select sys)
    (if pretty then sys_progress sys else None) (sys_read_line sys) (sys_duration_text sys).

(** ** Execution *)
Definition run_engine (jsonl pretty : bool) (def : WorkflowDef) (account : string) (params : gmap string value)
    (chain : ChainClient W) (provider : option (ProviderClient W)) (w : W) : W * RunState * option error :=
  let registry := NewRegistry (sys_for jsonl pretty) (env_ParseDuration engine_env) stuck fuel (Some chain) provider in
  let '(w, id) := newID w in
  Engine_Run engine_env (MkEngine registry (logger (wf_Name def))) id def account params w.

(** The status of a deployment, through the Console or its provider. *)
Definition console_status (cc : Client) (dseq : N) (w : W) : W * (bytes + error) :=
  let '(w, r) := on_console (GetDeployment peer cc (FormatUint dseq)) w in (w, to_sum (r ≫= consoleRuntimeStatus)).
Definition provider_status (pc : ProviderClient W) (provider : string) (dseq : N) : (W → W * (bytes + error)) + error :=
  if bool_decide (provider = "") then inr (Errorf "provider readiness client or selected provider is unavailable" [])
  else inl (λ w, pc_LeaseStatus pc w provider dseq).

(** What is left once the clients are there: the run, the wait for readiness, the
    record, the report and the error. *)
Definition finish_run (jsonl pretty : bool) (rc : Context_) (def : WorkflowDef) (account : string) (params : gmap string value) (chain : ChainClient W)
    (provider : option (ProviderClient W)) (link : N → string) (status : RunState → N → (W → W * (bytes + error)) + error) (w : W) : option (W * result unit) :=
  let '(w, state, runErr) := run_engine jsonl pretty def account params chain provider w in
  completed ← enrichSuccessfulDeploy ready_done (env_ParseDuration engine_env) (sys_duration_text sys) fuel (is_console rc) link (status state) runErr state w;
  let '(w, state, runErr) := completed in
  let recovery := deployRecoveryAdvice state runErr in
  let '(disk, warning) := recordWorkflowOutcome fresh migrations mkdir bolt quiet (en_disk (cw_env w)) (ctx_Root rc) (ctx_Name rc) (Some state) (now w) in
  let w := set_disk disk w in
  let w := match warning with Some e => (note w (RError "" e)).1 | None => w end in
  let '(w, renderErr) := if jsonl then emitJSONL encode state recovery w else writeWorkflowReport report (printResults state runErr recovery) "pretty" w in
  Some (w, match runErr, renderErr with
           | Some e, None => Err (workflowFailureError (wf_Name def) e recovery)
           | Some e, Some r => Err (Joined (workflowFailureError (wf_Name def) e recovery) r)
           | None, Some r => Err r
           | None, None => Ok tt
           end).

Definition no_credential (rc : Context_) : error :=
  Errorf ("context %q uses console-api auth but no Console credential is available." +:+ newline_string +:+
          "Set %s, store a key with `akt context edit %s --console-api-key <key>`, or switch to a keyring context")
    [ctx_Name rc; "AKT_CONSOLE_API_KEY"; ctx_Name rc].
Definition no_client (rc : Context_) (e : error) : error :=
  Wrapf ("no wallet/chain client available for context %q (chain workflow rail): %v." +:+ newline_string +:+
         "Chain execution needs a reachable RPC node and a configured key; check the context's network endpoints and keyring, or run akt context edit %q --deploy-via console")
    [ctx_Name rc; ctx_Name rc] e.
Definition no_signer (rc : Context_) : error :=
  Errorf ("context %q prefers the chain workflow rail, but no signer was selected before workflow execution." +:+ newline_string +:+
          "Set one with `akt context edit %s --default-account <key-or-address>`, pass `--from <key-or-address>`, or switch with `akt context edit %s --deploy-via console`")
    [ctx_Name rc; ctx_Name rc; ctx_Name rc].

Definition execute_console (jsonl pretty : bool) (rc : Context_) (def : WorkflowDef) (params : gmap string value) (w : W) : option (W * result unit) :=
  if bool_decide (ctx_ConsoleAPIKey rc = "") then Some (w, Err (no_credential rc))
  else
    let cc := WithActionLog console_log (ConsoleHttp.New (ctx_ConsoleAPIURL rc) (ctx_ConsoleAPIKey rc)) in
    match filterProviderSteps note def w with
    | (w, inr e) => Some (w, Err (Wrapf "report skipped Console workflow step: %w" [] e))
    | (w, inl def) =>
        finish_run jsonl pretty rc def (ctx_DefaultAccount rc) params (console_client cc (en_files (cw_env w))) None
          (λ dseq, DeploymentURL cc (FormatUint dseq)) (λ _ dseq, inl (console_status cc dseq)) w
    end.

Definition execute_chain (jsonl pretty : bool) (rc : Context_) (def : WorkflowDef) (params : gmap string value) (w : W) : option (W * result unit) :=
  match signer with
  | inr e => Some (w, Err (no_client rc (default e discoverErr)))
  | inl from =>
      if bool_decide (from = "") then Some (w, Err (no_signer rc))
      else
        let inputs := MkInputs (ctx_Root rc) (ctx_Name rc) in
        let pc := provider_client inputs from in
        finish_run jsonl pretty rc def from params (chain_client [Some inputs]) (Some pc)
          (λ _, "") (λ state dseq, provider_status pc (run_provider state) dseq) w
  end.

Definition executeWorkflow (getenv : string → string) (mgr : option Manager) (ctxName : string) (jsonl pretty : bool)
    (def : WorkflowDef) (params : gmap string value) (w : W) : option (W * result unit) :=
  match mgr with
  | None => Some (w, failf "no configuration loaded; workflow execution requires a configured context (create one with `akt context create`)" [])
  | Some m =>
      match Resolve getenv m ctxName with
      | Err e => Some (w, Err (Wrapf "no usable context for workflow execution: %w" [] e))
      | Panic => Some (w, Panic)
      | Ok rc => if is_console rc then execute_console jsonl pretty rc def params w else execute_chain jsonl pretty rc def params w
      end
  end.

(** ** The command ([RunE])

    [def] is the definition the command was generated from, [loaded] what loading it
    again gives; [range] is the order in which the runtime gives the parameters. *)
Definition resolveContext (getenv : string → string) (mgr : option Manager) (ctxName : string) : option Context_ :=
  m ← mgr; match Resolve getenv m ctxName with Ok rc => Some rc | _ => None end.

Definition workflowRail (rc : option Context_) : string :=
  match rc with None => "" | Some rc => if is_console rc then KindConsole else KindChain end.

Definition chainDryRunNeedsDepositQuery (raw : string) : bool :=
  match ParseDeposit ParseDecCoin raw with inl d => dep_Auto d | inr _ => false end.

(** What [PreRunE] looks for before the command runs: nothing, a client for queries
    (a dry run whose deposit the chain has to work out), or a client that signs.
    [seeded] tells that the command runs under the root command. *)
Inductive discovery : Type := NoClient | QueryClient | SigningClient.
Definition PreRunE (rc : option Context_) (def : WorkflowDef) (fs : flags) (args : list string) (dryRun seeded : bool) : discovery :=
  match rc with
  | None => NoClient
  | Some rc =>
      if is_console rc then NoClient
      else if dryRun then
        match fs !! FlagDeposit with
        | None => NoClient
        | Some f =>
            let positional := if depositParam def then args !! min_args def else None in
            match positional with
            | Some deposit => if fg_Changed f then NoClient else if chainDryRunNeedsDepositQuery deposit then QueryClient else NoClient
            | None => if chainDryRunNeedsDepositQuery (GetString fs FlagDeposit) then QueryClient else NoClient
            end
        end
      else if seeded then SigningClient else NoClient
  end.

Definition run_command (getenv : string → string) (mgr : option Manager) (ctxName : string) (light : option error)
    (def : WorkflowDef) (loaded : result WorkflowDef) (range : gmap string value → list (string * value))
    (fs : flags) (args : list string) (dryRun jsonl pretty : bool) (w : W) : option (W * result unit) :=
  let rc := resolveContext getenv mgr ctxName in
  let prepared : stateR (env Nd Tx) (WorkflowDef * gmap string value) :=
    rt ← lift (map_err (Wrapf "load workflow %q: %w" [wf_Name def]) loaded);
    params ← lift (collect_params def rt fs args);
    files ← gets en_files;
    lift (validateWorkflowParams (env_ParseDuration engine_env) files rt params);;
    params ← resolveWorkflowParams node light rc params;
    validatePreparedDeployment fresh migrations mkdir bolt stat_store (wf_Name rt) params rc;;
    mret (rt, params) in
  match on_env prepared w with
  | (w, Err e) => Some (w, Err e)
  | (w, Panic) => Some (w, Panic)
  | (w, Ok (rt, params)) =>
      let plan := writeWorkflowReport report (RText <$> printPlan rt (range params) (workflowRail rc)) "plan" in
      if dryRun then
        let '(w, e) := if jsonl then let '(w, id) := newID w in emitDryRunJSONL encode rt id params w
                       else match plan w with
                            | (w, None) => writeWorkflowReport report [RText ""; RText "Dry run — no transactions broadcast."] "dry-run" w
                            | failed => failed
                            end in
        Some (w, of_verdict e)
      else
        match (if jsonl then (w, None) else plan w) with
        | (w, Some e) => Some (w, Err e)
        | (w, None) => executeWorkflow getenv mgr ctxName jsonl pretty rt params w
        end
  end.
End command.
