(* ===== verification/WorkflowCommandProps.v ===== *)
(** * Properties of the workflow commands

    A deployment that was created is never lost, whatever fails afterwards; an
    invocation that passes the checks has well-typed parameters, a deposit its rail
    understands, and an SDL priced in the denomination the deployment is paid in. *)

From Stdlib Require Import Ascii.
From stdpp Require Import sorting base gmap strings pretty option numbers list.
From S2P Require Import Prelude GoStd GoJson Bolt StoreTypes StoreOps StoreExport Sync Context Manager Workflow Steps ConfigDoc ConfigPatch ConfigApply GoText.
From S2P Require Import ConsoleHttp ConsoleTypes ConsoleDeploy ConsoleSecrets Persist StoreRep StoreSpec StoreProps Adapters WorkflowProps WorkflowParams WorkflowReport WorkflowCommand.

(** ** Runs keep what they are about *)
Section runs.
Context {W : Type} (env : Env W) (e : WorkflowEngine W).

Lemma record_step_workflow id i step o st w : rs_Workflow (record_step e id i step o st w).1.2 = rs_Workflow st.
Proof. unfold record_step. destruct (o.1), (o.2); cbn; try case_bool_decide; done. Qed.

Lemma run_steps_workflow id steps : ∀ i st w, rs_Workflow (run_steps env e id i steps st w).1.2 = rs_Workflow st.
Proof.
  induction steps as [|step steps IH]; intros i st w; [done|]. cbn [run_steps].
  destruct (env_done env w) as [w1 [err|]]; [done|]. destruct (executeStep _ _ _ _ _) as [w2 o].
  pose proof (record_step_workflow id i step o st w2) as Hr. destruct (record_step _ _ _ _ _ _ _) as [[w3 st'] [err|]]; [done|].
  cbn in Hr. by rewrite IH.
Qed.
End runs.

(** ** Completion adds to a run *)
Definition keeps_run (st st' : RunState) : Prop :=
  rs_Workflow st' = rs_Workflow st ∧ rs_Params st' = rs_Params st ∧
  ∀ name, name ≠ "display-result" → name ≠ "wait-for-ready" → rs_Steps st' !! name = rs_Steps st !! name.

Lemma keeps_run_refl st : keeps_run st st.
Proof. done. Qed.
Lemma keeps_run_merge completion r st : keeps_run st (SetStepResult "wait-for-ready" r (mergeCompletionOutput completion st)).
Proof.
  unfold mergeCompletionOutput, SetStepResult, keeps_run, step. destruct (rs_Steps st !! "display-result"); cbn; split_and!; try done.
  all: intros name H1 H2; by rewrite !lookup_insert_ne by done.
Qed.
Create HintDb runs.
#[export] Hint Resolve keeps_run_refl keeps_run_merge : runs.
Ltac same_run := intros; simplify_eq; auto with runs.

Section enrich.
Context {W : Type} `{FL : Floats, RunValues} (done : W → W * bool) (ParseDuration : string → Z + error) (duration_text : Z → string).
Context (fuel : nat) (console : bool) (link : N → string) (fetch : N → (W → W * (bytes + error)) + error).

Lemma enrich_keeps st w w' st' err :
  enrichDeployCompletion done ParseDuration duration_text fuel console link fetch st w = Some (w', st', err) → keeps_run st st'.
Proof.
  unfold enrichDeployCompletion. destruct (negb _); [by same_run|].
  destruct (rs_Params st !! "ready-timeout") as [t|]; [|by same_run].
  destruct (step st "create-deployment") as [c|]; [|by same_run].
  destruct (workflowOutputUint64 _ _) as [dseq| |]; [|by same_run..].
  destruct (default false _); [by same_run|].
  destruct (as_string _) as [text|]; [|by same_run].
  destruct (ParseDuration text) as [d|]; [|by same_run].
  destruct (d <=? 0)%Z; [by same_run|].
  destruct (fetch dseq) as [f|]; [|by same_run].
  destruct (waitForDeploymentReadiness _ _ _ _ _ _) as [[w1 [[us raw] e]]|]; [|done]. cbn. by same_run.
Qed.
End enrich.

Section outcome.
Context `{!Bech32, !Lexer, !TemplateEngine, FL : !Floats, !RunValues} {Nd Tx E : Type} `{BoltOps Tx}.
Abbreviation W := (cli_world Nd Tx E).
Context (engine_env : Env W) (sys : System W) (stuck : error) (fuel : nat) (logger : string → option (string → nat → StepResult → W → W)).
Context (fresh : Tx) (migrations : list (Migration Tx)) (mkdir bolt : option error).
Context (ready_done : W → W * bool) (note : W → report_line → W * option error) (encode : W → jsonlLine → W * option error)
        (report : W → list report_line → W * option error) (now : W → Z) (newID : W → W * string) (quiet : bool).
Context (jsonl pretty : bool) (rc : Context_) (def : WorkflowDef) (account : string) (params : gmap string value) (chain : ChainClient W)
        (provider : option (ProviderClient W)) (link : N → string) (status : RunState → N → (W → W * (bytes + error)) + error).

(** Writing to the terminal leaves the stores alone. *)
Class TerminalLaws : Prop := {
  note_disk : ∀ w s, en_disk (cw_env (note w s).1) = en_disk (cw_env w);
  encode_disk : ∀ w l, en_disk (cw_env (encode w l).1) = en_disk (cw_env w);
  report_disk : ∀ w l, en_disk (cw_env (report w l).1) = en_disk (cw_env w);
}.

Lemma emit_lines_disk `{!TerminalLaws} wrap lines : ∀ w, en_disk (cw_env (emit_lines encode wrap lines w).1) = en_disk (cw_env w).
Proof.
  induction lines as [|l lines IH]; intros w; [done|]. cbn. pose proof (encode_disk w l) as He.
  destruct (encode w l) as [w' [e|]]; [done|]. by rewrite IH.
Qed.

Definition store_path : string := StoreDBPath (ctx_Root rc) (ctx_Name rc).
Definition opened_store (disk : gmap string Tx) : result Tx := (OpenContext fresh migrations mkdir bolt disk (ctx_Root rc) (ctx_Name rc)).2.
Abbreviation the_run := (run_engine engine_env sys stuck fuel logger newID jsonl pretty def account params chain provider).
Abbreviation the_command := (finish_run engine_env sys stuck fuel logger fresh migrations mkdir bolt ready_done note encode report now newID quiet
  jsonl pretty rc def account params chain provider link status).

Lemma recorded_on_disk disk st at_ db : ctx_Root rc ≠ "" → ctx_Name rc ≠ "" → opened_store disk = Ok db →
  (recordWorkflowOutcome fresh migrations mkdir bolt quiet disk (ctx_Root rc) (ctx_Name rc) (Some st) at_).1 !! store_path =
    Some (persistWorkflowOutcome db st at_).1.
Proof.
  intros Hroot Hname Hopen. unfold opened_store in Hopen. unfold recordWorkflowOutcome. rewrite !bool_decide_eq_false_2 by done. cbn [orb].
  destruct (OpenContext _ _ _ _ _ _ _) as [disk' res]. cbn in Hopen. subst res.
  destruct (persistWorkflowOutcome db st at_) as [db' r]. by apply lookup_insert_eq.
Qed.

Lemma reported_disk `{!TerminalLaws} st err recovery w :
  en_disk (cw_env (if jsonl then emitJSONL encode st recovery w else writeWorkflowReport report (printResults st err recovery) "pretty" w).1) =
    en_disk (cw_env w).
Proof.
  destruct jsonl; [apply emit_lines_disk|]. unfold writeWorkflowReport. pose proof (report_disk w (printResults st err recovery)) as Hr.
  by destruct (report _ _).
Qed.

Lemma advice_given st e created dseq : createsDeployment (rs_Workflow st) = true → successfulStep st "create-deployment" = Some created →
  workflowOutputUint64 (sr_Output created) "dseq" = Ok dseq → dseq ≠ 0%N →
  ∃ advice, deployRecoveryAdvice st (Some e) = Some advice ∧ wr_DSeq advice = dseq ∧ wr_Cleanup advice = "akt close " +:+ FormatUint dseq.
Proof.
  intros Hc Hs Hd Hn. unfold deployRecoveryAdvice. rewrite Hc, Hs. cbn [negb mbind option_bind]. rewrite Hd.
  destruct (N.eqb_spec dseq 0); [done|]. eexists. split; [reflexivity|done].
Qed.

(** The error a command ends with: the failure of the run, with that of the report if
    there is one. *)
Definition reports_failure (f e : error) : Prop := e = f ∨ ∃ r, e = Joined f r.

End outcome.

(** ** The parameters of an invocation *)
Section params.
Context `{Sdl} `{!ChainSDK} `{Yaml} `{Workflow.Bech32} (ParseDuration : string → Z + error).

Definition readable (files : gmap string file) (path : string) : Prop :=
  ∃ content, files !! path = Some (Regular content) ∧ ∀ e, content ≠ Err e.
Definition deployable (files : gmap string file) (path : string) : Prop :=
  ∃ doc, sdl_ReadFile path (os_ReadFile_of files path) = Ok doc ∧
    is_ok (doc_Manifest doc) = true ∧ is_ok (doc_Groups doc) = true ∧ is_ok (doc_Version doc) = true.
Definition patches (files : gmap string file) (path : string) : Prop :=
  ∃ data, os_ReadFile_of files path = Ok data ∧ is_ok (ParsePatch data) = true.

(** The values of a type. *)
Inductive param_typed (files : gmap string file) (patch : bool) (name : string) : string → value → Prop :=
| TString s : param_typed files patch name ParamString (VStr s)
| TInt z : (isSequenceParam name = true → (0 < z)%Z) → param_typed files patch name ParamInt (VInt z)
| TBool b : param_typed files patch name ParamBool (VBool b)
| TDuration s d : ParseDuration s = inl d → (0 < d)%Z → param_typed files patch name ParamDuration (VStr s)
| TStdin : name = "secrets-file" → param_typed files patch name ParamFile (VStr "-")
| TFile path : readable files path → param_typed files patch name ParamFile (VStr path)
| TPatch path : patch = true → name = "sdl-file" → readable files path → patches files path → param_typed files patch name ParamSDL (VStr path)
| TSDL path : ¬ (patch = true ∧ name = "sdl-file") → readable files path → deployable files path → param_typed files patch name ParamSDL (VStr path)
| TDeposit s d : ParseDeposit ParseDecCoin s = inl d → param_typed files patch name ParamDeposit (VStr s)
| TBids s : ValidateBidSelection s = None → param_typed files patch name ParamBidSelection (VStr s).

Lemma as_string_iff v s : as_string (Some v) = Some s ↔ v = VStr s.
Proof. split; [|by intros ->]. destruct v as [[]| | |]; cbn; intros; by simplify_eq. Qed.

Lemma validateReadableFile_iff files v path : validateReadableFile files v = Ok path ↔ v = VStr path ∧ readable files path.
Proof.
  unfold validateReadableFile, readable. destruct (as_string (Some v)) as [s|] eqn:Hs.
  - apply as_string_iff in Hs as ->. destruct (files !! s) as [[[c|e|]|]|] eqn:Ef; cbn; split; intros Hx; destruct_and?; simplify_eq; naive_solver.
  - split; [done|]. by intros [-> _].
Qed.

Lemma validatePatchFile_iff files v : validatePatchFile files v = Ok tt ↔ ∃ path, v = VStr path ∧ readable files path ∧ patches files path.
Proof.
  unfold validatePatchFile, patches. split.
  - intros (path&(->&Hr)%validateReadableFile_iff&Hd)%bind_ok. apply bind_ok in Hd as (data&Hd%map_err_ok&(x&Hp&_)%bind_ok).
    exists path. split_and!; [done..|]. exists data. by rewrite Hp.
  - intros (path&->&Hr&data&Hd&Hp). rewrite (proj2 (validateReadableFile_iff _ _ path)) by done. cbn. rewrite Hd. cbn.
    by destruct (ParsePatch data).
Qed.

Lemma validateSDLFile_iff files v : validateSDLFile files v = Ok tt ↔ ∃ path, v = VStr path ∧ readable files path ∧ deployable files path.
Proof.
  unfold validateSDLFile, deployable. split.
  - intros (path&(->&Hr)%validateReadableFile_iff&Hd)%bind_ok. exists path. split_and!; [done..|].
    apply bind_ok in Hd as (doc&Hd%map_err_ok&(?&Hm%map_err_ok&(?&Hg%map_err_ok&(?&Hv%map_err_ok&_)%bind_ok)%bind_ok)%bind_ok).
    exists doc. by rewrite Hm, Hg, Hv.
  - intros (path&->&Hr&doc&Hd&Hm&Hg&Hv). rewrite (proj2 (validateReadableFile_iff _ _ path)) by done. cbn. rewrite Hd. cbn.
    destruct (doc_Manifest doc); [|done..]. destruct (doc_Groups doc); [|done..]. by destruct (doc_Version doc).
Qed.

Lemma as_bool_iff v b : as_bool (Some v) = Some b ↔ v = VBool b.
Proof. split; [|by intros ->]. destruct v as [[]| | |]; cbn; intros; by simplify_eq. Qed.

(** The check of a value is its type. *)
Lemma check_typed_sound files patch name t v : check_typed ParseDuration files patch name t v = Ok tt → param_typed files patch name t v.
Proof.
  unfold check_typed. case_bool_decide; [subst; destruct (as_string _) eqn:Hs; [|done]; apply as_string_iff in Hs as ->; intros _; constructor|].
  case_bool_decide; [subst; destruct v; try done; destruct (isSequenceParam name) eqn:Hq, (z <=? 0)%Z eqn:Hz; try done; intros _; apply TInt; intros; (lia || congruence)|].
  case_bool_decide; [subst; destruct (as_bool _) eqn:Hs; [|done]; apply as_bool_iff in Hs as ->; intros _; constructor|].
  case_bool_decide.
  { subst. destruct (as_string _) as [s|] eqn:Hs; [|done]. apply as_string_iff in Hs as ->.
    destruct (ParseDuration s) as [d|] eqn:Hd; [|done]. destruct (Z.leb_spec d 0); [done|]. intros _. by eapply TDuration. }
  case_bool_decide.
  { subst. destruct (_ && _) eqn:Hx.
    - apply andb_true_iff in Hx as [Hn%bool_decide_eq_true Hs%bool_decide_eq_true]. apply as_string_iff in Hs as ->. intros _. by apply TStdin.
    - intros (path&(->&Hr)%validateReadableFile_iff&_)%bind_ok. by apply TFile. }
  case_bool_decide.
  { subst. destruct (_ && _) eqn:Hx.
    - apply andb_true_iff in Hx as [-> Hn%bool_decide_eq_true]. intros (path&->&?&?)%validatePatchFile_iff. by apply TPatch.
    - intros (path&->&?&?)%validateSDLFile_iff. apply TSDL; [|done..]. intros [-> ->]. done. }
  case_bool_decide.
  { subst. destruct (as_string _) as [s|] eqn:Hs; [|done]. apply as_string_iff in Hs as ->.
    destruct (ParseDeposit _ s) eqn:Hd; [|done]. intros _. by eapply TDeposit. }
  case_bool_decide; [|done]. subst. destruct (as_string _) as [s|] eqn:Hs; [|done]. apply as_string_iff in Hs as ->.
  destruct (ValidateBidSelection s) eqn:Hb; [done|]. intros _. by apply TBids.
Qed.

Lemma check_typed_complete files patch name t v : param_typed files patch name t v → check_typed ParseDuration files patch name t v = Ok tt.
Proof.
  unfold check_typed. destruct 1 as [s|z Hz|b|s d Hd Hp|Hn|path Hr|path Hp Hn Hr Ha|path Hx Hr Ha|s d Hd|s Hb];
    cbn -[validateReadableFile validatePatchFile validateSDLFile ValidateBidSelection ParseDeposit bool_decide].
  - done.
  - destruct (isSequenceParam name); [|done]. cbn. destruct (Z.leb_spec z 0); [|done]. specialize (Hz eq_refl). lia.
  - done.
  - rewrite Hd. destruct (Z.leb_spec d 0); [lia|done].
  - by subst.
  - destruct (_ && _); [done|]. by rewrite (proj2 (validateReadableFile_iff _ _ path)).
  - rewrite (bool_decide_eq_true_2 (name = "sdl-file")) by done. subst. cbn [andb]. apply validatePatchFile_iff. eauto.
  - rewrite (proj2 (validateSDLFile_iff _ _)) by eauto. destruct patch; [|done]. by rewrite (bool_decide_eq_false_2 (name = "sdl-file")) by naive_solver.
  - by rewrite Hd.
  - by rewrite Hb.
Qed.

Lemma foldR_each {A} (f : A → result unit) l : foldR (λ _ x, f x) tt l = Ok tt ↔ ∀ x, x ∈ l → f x = Ok tt.
Proof.
  induction l as [|x l IH]; cbn [foldR]; [set_solver|]. split.
  - intros ([]&Hx&Hl)%bind_ok y [->|Hy]%elem_of_cons; [done|]. by apply IH.
  - intros Hf. rewrite (Hf x) by set_solver. apply IH. set_solver.
Qed.

(** C29: an invocation passes the check exactly when its parameters are of the types
    its definition declares: a required one is given and not blank, and one that is
    given and not blank is a string, an integer (positive for a sequence number), a
    boolean, a positive duration, a readable file (or standard input for secrets), a
    patch that parses, an SDL that deploys, a deposit or a bid selection. *)
Theorem params_typed files (def : WorkflowDef) params : validateWorkflowParams ParseDuration files def params = Ok tt ↔
  ∀ name p, wf_Params def !! name = Some p →
    match params !! name with
    | None => pd_Required p = false
    | Some v => if workflowParamEmpty v then pd_Required p = false else param_typed files (patch_given params) name (pd_Type p) v
    end.
Proof.
  unfold validateWorkflowParams. rewrite foldR_each. unfold sortedParamNames. setoid_rewrite sort_strings_elem.
  assert (∀ name p, wf_Params def !! name = Some p → name ∈ (map_to_list (wf_Params def)).*1) as Hin.
  { intros name p Hp. apply list_elem_of_fmap. exists (name, p). split; [done|]. by apply elem_of_map_to_list. }
  assert (∀ name p, check_param ParseDuration files params name p = Ok tt ↔ match params !! name with
    | None => pd_Required p = false
    | Some v => if workflowParamEmpty v then pd_Required p = false else param_typed files (patch_given params) name (pd_Type p) v end) as Hc.
  { intros name p. unfold check_param. destruct (params !! name) as [v|]; [|by destruct (pd_Required p)].
    destruct (workflowParamEmpty v); [by destruct (pd_Required p)|]. rewrite map_err_ok.
    split; [apply check_typed_sound|apply check_typed_complete]. }
  split.
  - intros Hf name p Hp. apply Hc. specialize (Hf name (Hin _ _ Hp)). by rewrite Hp in Hf.
  - intros Hf name _. destruct (wf_Params def !! name) as [p|] eqn:Hp; [|done]. apply Hc. by apply Hf.
Qed.
End params.

(** ** Deposits and denominations *)
Section rails.
Context `{Sdl} `{!ChainSDK} `{Yaml} `{Workflow.Bech32} {Nd Tx : Type} `{BoltOps Tx} (node : Node Nd).

Lemma uact_not_auto amount : amount +:+ "uact" ≠ depositAuto.
Proof.
  intros Hx%(f_equal bytes_of). rewrite bytes_of_app in Hx. apply (f_equal last) in Hx. rewrite last_app in Hx. discriminate.
Qed.

(** A deposit for a rail is one the chain can take as it is. *)
Lemma rail_deposit_value_Ok light rc raw d (e e' : env Nd Tx) v : ParseDeposit ParseDecCoin raw = inl d →
  rail_deposit_value node light rc d e = (e', Ok v) → if is_console rc then v = "" else v ≠ "" ∧ v ≠ depositAuto.
Proof.
  intros Hp. pose proof Hp as (Hraw&Hc)%ParseDeposit_cases. unfold rail_deposit_value, RailValue.
  destruct (is_console rc) eqn:Hcon.
  { intros [_ Hv]%lift_Ok. rewrite (bool_decide_eq_false_2 (KindConsole = KindChain)), (bool_decide_eq_true_2 (KindConsole = KindConsole)) in Hv by done.
    destruct (dep_Auto d); cbn in Hv; [by simplify_eq|done]. }
  rewrite (bool_decide_eq_true_2 (KindChain = KindChain)) by done.
  intros (e1&x&(->&Hx)%lift_Ok&Hk)%bind_Ok. destruct (dep_Auto d) eqn:Ha; cbn in Hx; simplify_eq.
  - destruct light; [done|]. destruct Hc as [(_&_&_&Hr)|[(?&_)|(?&_)]]; [|done..]. unfold ResolveChainDepositValue in Hk.
    assert (negb (bool_decide (dep_Raw d = "")) && negb (bool_decide (dep_Raw d = depositAuto)) = false) as Hb
      by (destruct Hr as [-> | ->]; done).
    rewrite Hb in Hk. apply bind_Ok in Hk as (e2&coins&_&Hk). destruct (List.find _ coins) as [[amount denom]|] eqn:Hf; [|done].
    apply List.find_some in Hf as [_ Hd%bool_decide_eq_true]. cbn in Hd. subst denom. injection Hk as _ <-.
    split; [by destruct amount|apply uact_not_auto].
  - destruct Hc as [(?&_)|[(_&_&Hcoin)|(_&_&Hcoin&Hne&_)]]; [done| |].
    + rewrite Hcoin in Hx. cbn in Hx. by destruct (dep_Bare d).
    + rewrite Hcoin, bool_decide_eq_false_2 in Hx by done. injection Hx as <-. injection Hk as _ <-. split; [done|].
      intros Hau. revert Hp. unfold ParseDeposit. rewrite <-Hraw. rewrite bool_decide_eq_true_2 by (right; exact Hau).
      intros E. injection E as E. by rewrite <-E in Ha.
Qed.

Definition pays (rc : Context_) (deposit denom : string) : Prop :=
  if is_console rc then denom = "uact" else dec_coin_denom deposit = Ok denom.

Lemma denominations_Ok files rc params deposit path :
  as_string (params !! FlagDeposit) = Some deposit → (is_console rc = false → TrimSpace deposit ≠ "") →
  as_string (params !! "sdl-file") = Some path → TrimSpace path ≠ "" →
  validateDeploymentDenominations files rc params = Ok tt →
  ∃ denom doc, pays rc deposit denom ∧ sdl_ReadFile path (os_ReadFile_of files path) = Ok doc ∧
    ∀ groups, doc_Groups doc = Ok groups → ∀ g, g ∈ groups → group_Denom g = denom.
Proof.
  intros Hd Ht Hp Hb. unfold validateDeploymentDenominations. rewrite Hp, bool_decide_eq_false_2 by done.
  intros (od&Hden&Hk)%bind_ok. assert (∃ denom, od = Some denom ∧ pays rc deposit denom) as (denom&->&Hpay).
  { unfold deposit_denom in Hden. unfold pays. destruct (is_console rc); [simplify_eq; eauto|]. rewrite Hd, bool_decide_eq_false_2 in Hden by auto.
    apply bind_ok in Hden as (denom&Hden%map_err_ok&[= <-]). eauto. }
  apply bind_ok in Hk as (doc&Hdoc%map_err_ok&Hk). exists denom, doc. split_and!; [done..|]. intros groups Hg g Hin. rewrite Hg in Hk.
  destruct (List.find _ groups) eqn:Hf; [done|]. apply list_elem_of_In in Hin. apply (List.find_none _ _ Hf) in Hin.
  apply negb_false_iff in Hin. by apply bool_decide_eq_true in Hin.
Qed.

(** parameters that were translated for a rail can be paid there. On the Console
    rail the deposit is empty and every group of the SDL is priced in uact; on the
    chain rail the deposit is a coin, never left to be worked out later, and every
    group of the SDL is priced in its denomination. Other parameters are as given. *)
Theorem rail_params_payable light rc params (e e' : env Nd Tx) params' raw path :
  resolveWorkflowParams node light (Some rc) params e = (e', Ok params') →
  as_string (params !! FlagDeposit) = Some raw → as_string (params !! "sdl-file") = Some path → TrimSpace path ≠ "" →
  ∃ deposit, params' = <[FlagDeposit := VStr deposit]> params ∧
    (if is_console rc then deposit = "" else deposit ≠ "" ∧ deposit ≠ depositAuto) ∧
    ((is_console rc = false → TrimSpace deposit ≠ "") → ∃ denom doc, pays rc deposit denom ∧
       sdl_ReadFile path (os_ReadFile_of (en_files e) path) = Ok doc ∧
       ∀ groups, doc_Groups doc = Ok groups → ∀ g, g ∈ groups → group_Denom g = denom).
Proof.
  intros Hr Hraw Hpath Hb. unfold resolveWorkflowParams in Hr. apply bind_Ok in Hr as (e1&files&(->&->)%gets_Ok&Hr).
  apply bind_Ok in Hr as (e2&[]&(->&_)%lift_Ok&Hr). rewrite Hraw in Hr. apply bind_Ok in Hr as (e3&d&(->&Hd)%lift_Ok&Hr).
  apply bind_Ok in Hr as (e4&deposit&Hdep&Hr). apply bind_Ok in Hr as (e5&[]&(->&Hden)%lift_Ok&Hr). injection Hr as _ <-.
  assert (ParseDeposit ParseDecCoin raw = inl d) as Hp by (unfold of_sum in Hd; destruct (ParseDeposit _ raw); [by simplify_eq|done]).
  exists deposit. split; [done|]. split; [by eapply rail_deposit_value_Ok|]. intros Ht.
  apply (denominations_Ok (en_files e) rc (<[FlagDeposit := VStr deposit]> params)); [by rewrite lookup_insert_eq|done| |done|done]. by rewrite lookup_insert_ne.
Qed.
End rails.

(** ** The properties at concrete inputs *)
Module Demo.
#[local] Existing Instances Toy.toy_templates Toy.toy_floats Toy.toy_bech32 Toy.toy_lexer.
#[local] Instance values : RunValues := {
  acc_address := λ _, None; parse_coin := λ _, None; sdlHash := λ path, Some ("sha256:" +:+ path);
  float_uint64 := λ s, match ParseUint u64_max s with Ok n => Some n | _ => None end; float_text := λ s, s;
}.
Abbreviation W := (cli_world unit buckets unit).
Definition rc : Context_ := MkContext "main" zero_network (keyring_named "default") "" "" "" [] "" "" "" "" "" "" "/akt" "".
Definition create : StepDef :=
  MkStepDef "create-deployment" StepTx "ok" "" "" "" "" "" "" [] "" "" "" "" ∅ {["dseq" := "9"; "owner" := "akash1owner"]} "" None "".
Definition def : WorkflowDef := MkWorkflowDef "deploy" "" "" "" 1 ∅ [create; Toy.step "send-manifest" StepTx "bad" "" None].
Definition chain : ChainClient W := MkChainClient
  (λ w msg _, (w, if bool_decide (msg = "bad") then inr (Sentinel "refused") else inl (MkTxResult "AB12" 7 0 None)))
  (λ w _ _, (w, inl (Text JNull))).
Definition sys : System W := MkSystem (λ w s, (w, (length (bytes_of s), None))) (λ w _, (w, inr (Sentinel "sh", "")))
  (λ w, (w, Deadline)) None (λ w _, (w, "")) (λ _, "5m0s").
Definition engine_env : Env W := Workflow.MkEnv (λ w, (w, None)) (λ _ w, (w, None)) (λ _, inl 1%Z).
Definition start : W := MkCliWorld (Adapters.MkEnv tt ∅ {[StoreDBPath "/akt" "main" := demo_db]} ∅) (MkWorld tt [] []).
Definition silent {A} (w : W) (_ : A) : W * option error := (w, None).
Definition run : W → W * RunState * option error :=
  run_engine engine_env sys (Sentinel "stuck") 5 (λ _, None) (λ w, (w, "id")) true false def "akash1owner" ∅ chain None.
Definition command : W → option (W * result unit) :=
  finish_run engine_env sys (Sentinel "stuck") 5 (λ _, None) demo_db [] None None (λ w, (w, true)) silent silent silent (λ _, 1700000000%Z)
    (λ w, (w, "id")) false true false rc def "akash1owner" ∅ chain None (λ _, "") (λ _ _, inr (Sentinel "no status")).
#[export] Instance silent_laws : TerminalLaws (Nd:=unit) (Tx:=buckets) (E:=unit) silent silent silent.
Proof. by constructor. Qed.
Definition created : StepResult := default (failed_result create ErrShortWrite) (successfulStep (run start).1.2 "create-deployment").
Definition final : W := from_option fst start (command start).

Lemma triple_eta {A B C} (p : A * B * C) : p = (p.1.1, p.1.2, p.2).
Proof. by destruct p as [[]]. Qed.
Lemma some_pair {A} (f : A) {B} (o : option (A * B)) b : snd <$> o = Some b → o = Some (from_option fst f o, b).
Proof. destruct o as [[a' b']|]; cbn; [by intros [= ->]|done]. Qed.


(** An SDL whose text is the denomination of its one group. *)
#[local] Instance priced_sdl : Sdl := {|
  sdl_doc := string; sdl_group := string; sdl_Read s := Ok s; sdl_ReadFile _ r := r; doc_Version s := Ok s;
  doc_Manifest s := Ok (JStr s); doc_Groups s := Ok [s]; group_Equal _ _ := true; group_Denom g := g; group_Name g := g |}.
#[local] Instance empty_doc : Yaml := {| yaml_Decode _ := Some (YMap 0 [], false); yaml_Marshal _ := "" |}.
#[local] Instance uact_sdk : ChainSDK := {| coin_Normalized s := Ok s; ValidateBasic _ := None;
  dec_coin_denom s := if bool_decide (s = "5uact") then Ok "uact" else Err ErrShortWrite |}.
Definition priced_node : Node unit := {|
  n_response := unit; n_from := "akash1owner"; n_SyncInfo n := (n, Ok (false, 9%Z)); n_Params n := (n, Ok [("5", "uact")]);
  n_Groups n _ _ := (n, Ok []); n_Broadcast n _ := (n, Ok None); n_Bids n _ := (n, Ok (tt, []));
  n_Leases n _ := (n, Ok tt); n_Deployments n _ := (n, Ok tt); n_codec _ := None; n_json _ := Ok (Text JNull);
  n_Attributes _ _ := Ok []; n_AuditCount _ _ := Ok 0%nat |}.
Definition priced_files : gmap string file := {["app.yaml" := Regular (Ok "uact")]}.
Definition priced_env : env unit buckets := Adapters.MkEnv tt priced_files ∅ ∅.
Definition priced_params : gmap string value := {["sdl-file" := VStr "app.yaml"; FlagDeposit := VStr "auto"]}.
Definition prepared : env unit buckets * result (gmap string value) := resolveWorkflowParams priced_node None (Some rc) priced_params priced_env.
Definition prepared_params : gmap string value := match prepared.2 with Ok p => p | _ => ∅ end.

Lemma rail_params_payable_witness : ∃ deposit, prepared_params = <[FlagDeposit := VStr deposit]> priced_params ∧
  (deposit ≠ "" ∧ deposit ≠ depositAuto) ∧
  ((is_console rc = false → TrimSpace deposit ≠ "") → ∃ denom doc, pays rc deposit denom ∧
     sdl_ReadFile "app.yaml" (os_ReadFile_of priced_files "app.yaml") = Ok doc ∧
     ∀ groups, doc_Groups doc = Ok groups → ∀ g, g ∈ groups → group_Denom g = denom).
Proof.
  assert (is_ok prepared.2 = true) as Hok by (vm_compute; reflexivity).
  apply (rail_params_payable priced_node None rc priced_params priced_env prepared.1 prepared_params "auto" "app.yaml").
  - unfold prepared_params. change (prepared = (prepared.1, Ok (match prepared.2 with Ok p => p | _ => ∅ end))).
    by destruct prepared as [? [| |]].
  - vm_compute. reflexivity.
  - vm_compute. reflexivity.
  - vm_compute. discriminate.
Defined.
End Demo.
