(* ===== verification/MonitorCache.v ===== *)
(** * The provider cache of the monitor (internal/monitor/cache)

    Providers and monikers in a bbolt database. Times are nanoseconds since the zero
    time, which is 0; [time_binary] is [MarshalBinary]. Errors of the database are
    dropped by the code: an operation gives the database it leaves. *)

From Stdlib Require Import Ascii.
From stdpp Require Import sorting base gmap strings pretty option numbers list.
From S2P Require Import Prelude GoStd GoJson Bolt StoreTypes StoreOps Workflow ActionLog ActionLogProps GoText.

Definition minute : Z := (60 * second)%Z.
Definition OnlineCheckInterval : Z := minute.
Definition RecentOfflineInterval : Z := (5 * minute)%Z.
Definition LongTermOfflineInterval : Z := (360 * minute)%Z.
Definition LongTermOfflineThreshold : Z := 5.

Definition bucketProviders : string := "providers".
Definition bucketMeta : string := "meta".
Definition keyLastSync : string := "last_chain_sync".
Definition bucketMonikers : string := "monikers".

(** ** Records *)
Record CachedProvider : Type := MkCached {
  cp_HostURI : string;
  cp_Name : string;
  cp_Country : string;
  cp_Attributes : option (gmap string string);
  cp_IsOnline : bool;
  cp_Version : string;
  cp_CPUAvailable : N;
  cp_CPUTotal : N;
  cp_MemAvailable : N;
  cp_MemTotal : N;
  cp_GPUAvailable : N;
  cp_GPUTotal : N;
  cp_GPUModels : option (list string);
  cp_LastSeenOnline : Z;
  cp_LastChecked : Z;
  cp_ConsecutiveFailures : Z;
}.
Definition set_cp_HostURI (v : string) (r : CachedProvider) : CachedProvider := MkCached v (cp_Name r) (cp_Country r) (cp_Attributes r) (cp_IsOnline r) (cp_Version r) (cp_CPUAvailable r) (cp_CPUTotal r) (cp_MemAvailable r) (cp_MemTotal r) (cp_GPUAvailable r) (cp_GPUTotal r) (cp_GPUModels r) (cp_LastSeenOnline r) (cp_LastChecked r) (cp_ConsecutiveFailures r).
Definition set_cp_Name (v : string) (r : CachedProvider) : CachedProvider := MkCached (cp_HostURI r) v (cp_Country r) (cp_Attributes r) (cp_IsOnline r) (cp_Version r) (cp_CPUAvailable r) (cp_CPUTotal r) (cp_MemAvailable r) (cp_MemTotal r) (cp_GPUAvailable r) (cp_GPUTotal r) (cp_GPUModels r) (cp_LastSeenOnline r) (cp_LastChecked r) (cp_ConsecutiveFailures r).
Definition set_cp_Country (v : string) (r : CachedProvider) : CachedProvider := MkCached (cp_HostURI r) (cp_Name r) v (cp_Attributes r) (cp_IsOnline r) (cp_Version r) (cp_CPUAvailable r) (cp_CPUTotal r) (cp_MemAvailable r) (cp_MemTotal r) (cp_GPUAvailable r) (cp_GPUTotal r) (cp_GPUModels r) (cp_LastSeenOnline r) (cp_LastChecked r) (cp_ConsecutiveFailures r).
Definition set_cp_Attributes (v : option (gmap string string)) (r : CachedProvider) : CachedProvider := MkCached (cp_HostURI r) (cp_Name r) (cp_Country r) v (cp_IsOnline r) (cp_Version r) (cp_CPUAvailable r) (cp_CPUTotal r) (cp_MemAvailable r) (cp_MemTotal r) (cp_GPUAvailable r) (cp_GPUTotal r) (cp_GPUModels r) (cp_LastSeenOnline r) (cp_LastChecked r) (cp_ConsecutiveFailures r).
Definition set_cp_IsOnline (v : bool) (r : CachedProvider) : CachedProvider := MkCached (cp_HostURI r) (cp_Name r) (cp_Country r) (cp_Attributes r) v (cp_Version r) (cp_CPUAvailable r) (cp_CPUTotal r) (cp_MemAvailable r) (cp_MemTotal r) (cp_GPUAvailable r) (cp_GPUTotal r) (cp_GPUModels r) (cp_LastSeenOnline r) (cp_LastChecked r) (cp_ConsecutiveFailures r).
Definition set_cp_Version (v : string) (r : CachedProvider) : CachedProvider := MkCached (cp_HostURI r) (cp_Name r) (cp_Country r) (cp_Attributes r) (cp_IsOnline r) v (cp_CPUAvailable r) (cp_CPUTotal r) (cp_MemAvailable r) (cp_MemTotal r) (cp_GPUAvailable r) (cp_GPUTotal r) (cp_GPUModels r) (cp_LastSeenOnline r) (cp_LastChecked r) (cp_ConsecutiveFailures r).
Definition set_cp_CPUAvailable (v : N) (r : CachedProvider) : CachedProvider := MkCached (cp_HostURI r) (cp_Name r) (cp_Country r) (cp_Attributes r) (cp_IsOnline r) (cp_Version r) v (cp_CPUTotal r) (cp_MemAvailable r) (cp_MemTotal r) (cp_GPUAvailable r) (cp_GPUTotal r) (cp_GPUModels r) (cp_LastSeenOnline r) (cp_LastChecked r) (cp_ConsecutiveFailures r).
Definition set_cp_CPUTotal (v : N) (r : CachedProvider) : CachedProvider := MkCached (cp_HostURI r) (cp_Name r) (cp_Country r) (cp_Attributes r) (cp_IsOnline r) (cp_Version r) (cp_CPUAvailable r) v (cp_MemAvailable r) (cp_MemTotal r) (cp_GPUAvailable r) (cp_GPUTotal r) (cp_GPUModels r) (cp_LastSeenOnline r) (cp_LastChecked r) (cp_ConsecutiveFailures r).
Definition set_cp_MemAvailable (v : N) (r : CachedProvider) : CachedProvider := MkCached (cp_HostURI r) (cp_Name r) (cp_Country r) (cp_Attributes r) (cp_IsOnline r) (cp_Version r) (cp_CPUAvailable r) (cp_CPUTotal r) v (cp_MemTotal r) (cp_GPUAvailable r) (cp_GPUTotal r) (cp_GPUModels r) (cp_LastSeenOnline r) (cp_LastChecked r) (cp_ConsecutiveFailures r).
Definition set_cp_MemTotal (v : N) (r : CachedProvider) : CachedProvider := MkCached (cp_HostURI r) (cp_Name r) (cp_Country r) (cp_Attributes r) (cp_IsOnline r) (cp_Version r) (cp_CPUAvailable r) (cp_CPUTotal r) (cp_MemAvailable r) v (cp_GPUAvailable r) (cp_GPUTotal r) (cp_GPUModels r) (cp_LastSeenOnline r) (cp_LastChecked r) (cp_ConsecutiveFailures r).
Definition set_cp_GPUAvailable (v : N) (r : CachedProvider) : CachedProvider := MkCached (cp_HostURI r) (cp_Name r) (cp_Country r) (cp_Attributes r) (cp_IsOnline r) (cp_Version r) (cp_CPUAvailable r) (cp_CPUTotal r) (cp_MemAvailable r) (cp_MemTotal r) v (cp_GPUTotal r) (cp_GPUModels r) (cp_LastSeenOnline r) (cp_LastChecked r) (cp_ConsecutiveFailures r).
Definition set_cp_GPUTotal (v : N) (r : CachedProvider) : CachedProvider := MkCached (cp_HostURI r) (cp_Name r) (cp_Country r) (cp_Attributes r) (cp_IsOnline r) (cp_Version r) (cp_CPUAvailable r) (cp_CPUTotal r) (cp_MemAvailable r) (cp_MemTotal r) (cp_GPUAvailable r) v (cp_GPUModels r) (cp_LastSeenOnline r) (cp_LastChecked r) (cp_ConsecutiveFailures r).
Definition set_cp_GPUModels (v : option (list string)) (r : CachedProvider) : CachedProvider := MkCached (cp_HostURI r) (cp_Name r) (cp_Country r) (cp_Attributes r) (cp_IsOnline r) (cp_Version r) (cp_CPUAvailable r) (cp_CPUTotal r) (cp_MemAvailable r) (cp_MemTotal r) (cp_GPUAvailable r) (cp_GPUTotal r) v (cp_LastSeenOnline r) (cp_LastChecked r) (cp_ConsecutiveFailures r).
Definition set_cp_LastSeenOnline (v : Z) (r : CachedProvider) : CachedProvider := MkCached (cp_HostURI r) (cp_Name r) (cp_Country r) (cp_Attributes r) (cp_IsOnline r) (cp_Version r) (cp_CPUAvailable r) (cp_CPUTotal r) (cp_MemAvailable r) (cp_MemTotal r) (cp_GPUAvailable r) (cp_GPUTotal r) (cp_GPUModels r) v (cp_LastChecked r) (cp_ConsecutiveFailures r).
Definition set_cp_LastChecked (v : Z) (r : CachedProvider) : CachedProvider := MkCached (cp_HostURI r) (cp_Name r) (cp_Country r) (cp_Attributes r) (cp_IsOnline r) (cp_Version r) (cp_CPUAvailable r) (cp_CPUTotal r) (cp_MemAvailable r) (cp_MemTotal r) (cp_GPUAvailable r) (cp_GPUTotal r) (cp_GPUModels r) (cp_LastSeenOnline r) v (cp_ConsecutiveFailures r).
Definition set_cp_ConsecutiveFailures (v : Z) (r : CachedProvider) : CachedProvider := MkCached (cp_HostURI r) (cp_Name r) (cp_Country r) (cp_Attributes r) (cp_IsOnline r) (cp_Version r) (cp_CPUAvailable r) (cp_CPUTotal r) (cp_MemAvailable r) (cp_MemTotal r) (cp_GPUAvailable r) (cp_GPUTotal r) (cp_GPUModels r) (cp_LastSeenOnline r) (cp_LastChecked r) v.

Definition zero_provider : CachedProvider := MkCached "" "" "" None false "" 0 0 0 0 0 0 None 0 0 0.

(** [rpc.OnChainProvider]. *)
Record OnChainProvider : Type := MkOnChain { oc_Owner : string; oc_HostURI : string; oc_Attributes : option (gmap string string); oc_IsOnline : bool }.

Section codec.
Context `{TimeText}.

Definition provider_fields : fields CachedProvider := [
  ("host_uri", field cp_HostURI set_cp_HostURI dec_string);
  ("name", field cp_Name set_cp_Name dec_string);
  ("country", field cp_Country set_cp_Country dec_string);
  ("attributes", field cp_Attributes set_cp_Attributes dec_map);
  ("is_online", field cp_IsOnline set_cp_IsOnline dec_bool);
  ("version", field cp_Version set_cp_Version dec_string);
  ("cpu_available", field cp_CPUAvailable set_cp_CPUAvailable (dec_uint u64_max));
  ("cpu_total", field cp_CPUTotal set_cp_CPUTotal (dec_uint u64_max));
  ("mem_available", field cp_MemAvailable set_cp_MemAvailable (dec_uint u64_max));
  ("mem_total", field cp_MemTotal set_cp_MemTotal (dec_uint u64_max));
  ("gpu_available", field cp_GPUAvailable set_cp_GPUAvailable (dec_uint u64_max));
  ("gpu_total", field cp_GPUTotal set_cp_GPUTotal (dec_uint u64_max));
  ("gpu_models", field cp_GPUModels set_cp_GPUModels (dec_slice "" dec_string));
  ("last_seen_online", field cp_LastSeenOnline set_cp_LastSeenOnline dec_time);
  ("last_checked", field cp_LastChecked set_cp_LastChecked dec_time);
  ("consecutive_failures", field cp_ConsecutiveFailures set_cp_ConsecutiveFailures dec_int64)
].
Definition dec_provider : decoder CachedProvider := dec_struct false provider_fields.

(** The times are given as their texts. *)
Definition enc_provider (seen checked : string) (p : CachedProvider) : json := JObj (
  [("host_uri", enc_string (cp_HostURI p));
   ("name", enc_string (cp_Name p));
   ("country", enc_string (cp_Country p));
   ("attributes", enc_map (cp_Attributes p));
   ("is_online", enc_bool (cp_IsOnline p));
   ("version", enc_string (cp_Version p));
   ("cpu_available", enc_uint (cp_CPUAvailable p));
   ("cpu_total", enc_uint (cp_CPUTotal p));
   ("mem_available", enc_uint (cp_MemAvailable p));
   ("mem_total", enc_uint (cp_MemTotal p));
   ("gpu_available", enc_uint (cp_GPUAvailable p));
   ("gpu_total", enc_uint (cp_GPUTotal p))]
  ++ omit (bool_decide (default [] (cp_GPUModels p) = [])) "gpu_models" (enc_slice enc_string (cp_GPUModels p))
  ++ [("last_seen_online", JStr seen); ("last_checked", JStr checked); ("consecutive_failures", enc_int (cp_ConsecutiveFailures p))]).

(** [json.Marshal]: a time beyond the year 9999 has no text. *)
Definition marshal_provider (p : CachedProvider) : result bytes :=
  match time_MarshalJSON (cp_LastSeenOnline p), time_MarshalJSON (cp_LastChecked p) with
  | Some seen, Some checked => Ok (Text (enc_provider seen checked p))
  | _, _ => Err ErrJSON
  end.

(** A row that cannot be read is skipped. *)
Definition read_provider (data : bytes) : option CachedProvider :=
  match Unmarshal dec_provider data zero_provider with Ok p => Some p | _ => None end.
End codec.

(** ** Operations *)
Definition attribute (p : OnChainProvider) (name : string) : string := default "" (oc_Attributes p ≫= lookup name).

Definition TrimPrefix (p s : string) : string := default s (CutPrefix p s).
(** The text before the first byte of a set ([IndexAny]). *)
Fixpoint before_any (stop : list ascii) (l : list ascii) : list ascii :=
  match l with [] => [] | c :: l => if bool_decide (c ∈ stop) then [] else c :: before_any stop l end.
Definition extractHostname (hostURI : string) : string :=
  let host := TrimPrefix "http://" (TrimPrefix "https://" hostURI) in
  of_bytes (before_any [":"; "/"]%char (bytes_of host)).

Definition calculatePriority (p : CachedProvider) : Z :=
  if (cp_LastChecked p =? 0)%Z then 0
  else if cp_IsOnline p then 1
  else if (cp_ConsecutiveFailures p <? LongTermOfflineThreshold)%Z then 2 else 3.

Definition check_interval (p : CachedProvider) : Z :=
  if cp_IsOnline p then OnlineCheckInterval
  else if (LongTermOfflineThreshold <=? cp_ConsecutiveFailures p)%Z then LongTermOfflineInterval else RecentOfflineInterval.

(** [Time.Sub]: a difference that is no duration is the nearest one. *)
Definition time_Sub (t u : Z) : Z := Z.max (- 2 ^ 63) (Z.min (2 ^ 63 - 1) (t - u)).
Definition due (now : Z) (p : CachedProvider) : bool := (check_interval p <=? time_Sub now (cp_LastChecked p))%Z.

(** [sort.Slice]: the order of equal elements is not specified. *)
Class SortSlice : Type := sort_Slice : ∀ {A}, (A → A → bool) → list A → list A.

Section cache.
Context {Tx : Type} `{BoltOps Tx} `{TimeText} (time_binary : Z → string).

Definition ensureBucket (name : string) (t : Tx * list error) : Tx * list error :=
  match tx_create_if_absent t.1 name with Ok t' => (t', t.2) | Err e => (t.1, t.2 ++ [e]) | Panic => t end.
Definition joined (t : Tx * list error) : result Tx :=
  match t.2 with [] => Ok t.1 | e :: l => Err (foldl Joined e l) end.
Definition ensureProviderBuckets (t : Tx) : Tx * list error := ensureBucket bucketMeta (ensureBucket bucketProviders (t, [])).
Definition ensureMonikerBucket (t : Tx * list error) : Tx * list error := ensureBucket bucketMonikers t.

Definition Open (db : Tx) : Tx * result unit := db_Update db (λ t, joined (ensureProviderBuckets t)).
Definition OpenStores (db : Tx) : Tx * result unit := db_Update db (λ t, joined (ensureMonikerBucket (ensureProviderBuckets t))).
Definition OpenMonikerCache (db : Tx) : Tx * result unit := db_Update db (λ t, joined (ensureMonikerBucket (t, []))).

(** The rows that can be read, by key. *)
Definition scan (db : Tx) : list (string * CachedProvider) :=
  if tx_bucket db bucketProviders then omap (λ kv, (λ p, (kv.1, p)) <$> read_provider kv.2) (tx_foreach db bucketProviders) else [].

Definition ProviderCount (db : Tx) : nat := if tx_bucket db bucketProviders then length (tx_foreach db bucketProviders) else 0.
Definition HasProviders (db : Tx) : bool := (0 <? ProviderCount db)%nat.
Definition GetProvider (db : Tx) (owner : string) : option CachedProvider :=
  if tx_bucket db bucketProviders then tx_get db bucketProviders owner ≫= read_provider else None.
Definition GetAllProviders (db : Tx) : gmap string CachedProvider := foldl (λ m kv, <[kv.1 := kv.2]> m) ∅ (scan db).
Definition GetOnlineProviders (db : Tx) : list CachedProvider := List.filter cp_IsOnline (scan db).*2.
Definition OnlineCount (db : Tx) : nat := length (GetOnlineProviders db).

Definition putProvider (t : Tx) (owner : string) (p : CachedProvider) : result Tx :=
  data ← marshal_provider p; tx_put t bucketProviders owner data.

(** Change the row of an owner; nothing happens without a readable one. *)
Definition edit (db : Tx) (owner : string) (f : CachedProvider → CachedProvider) : Tx :=
  (db_Update db (λ t,
     if negb (tx_bucket t bucketProviders) then Ok t
     else match tx_get t bucketProviders owner ≫= read_provider with
          | None => Ok t
          | Some p => putProvider t owner (f p)
          end)).1.

(** What a provider reports of its resources: available and total. *)
Record report : Type := MkReport { rp_Version : string; rp_CPU : N * N; rp_Mem : N * N; rp_GPU : N * N; rp_GPUModels : option (list string) }.

(** [seen] and [checked] are the two readings of the clock. *)
Definition online (r : report) (seen checked : Z) (p : CachedProvider) : CachedProvider :=
  MkCached (cp_HostURI p) (cp_Name p) (cp_Country p) (cp_Attributes p) true (rp_Version r)
    (rp_CPU r).1 (rp_CPU r).2 (rp_Mem r).1 (rp_Mem r).2 (rp_GPU r).1 (rp_GPU r).2 (rp_GPUModels r) seen checked 0.
Definition MarkProviderOnline (db : Tx) (owner : string) (r : report) (seen checked : Z) : Tx := edit db owner (online r seen checked).

(** A counter of an [int] wraps around. *)
Definition offline (checked : Z) (p : CachedProvider) : CachedProvider :=
  set_cp_ConsecutiveFailures (wrap_i64 (cp_ConsecutiveFailures p + 1)) (set_cp_LastChecked checked (set_cp_IsOnline false p)).
Definition MarkProviderOffline (db : Tx) (owner : string) (checked : Z) : Tx := edit db owner (offline checked).

Definition new_provider (now : Z) (o : OnChainProvider) : CachedProvider :=
  let name := attribute o "organization" in
  MkCached (oc_HostURI o) (if bool_decide (name = "") then extractHostname (oc_HostURI o) else name) (attribute o "country") (oc_Attributes o)
    (oc_IsOnline o) "" 0 0 0 0 0 0 None (if oc_IsOnline o then now else 0%Z) 0 0.
Definition refresh (o : OnChainProvider) (p : CachedProvider) : CachedProvider :=
  let name := attribute o "organization" in
  let country := attribute o "country" in
  let p := set_cp_Attributes (oc_Attributes o) (set_cp_HostURI (oc_HostURI o) p) in
  let p := if bool_decide (name = "") then p else set_cp_Name name p in
  if bool_decide (country = "") then p else set_cp_Country country p.

(** A failure to write is ignored. *)
Definition put_ignoring (t : Tx) (owner : string) (p : CachedProvider) : Tx := match putProvider t owner p with Ok t' => t' | _ => t end.

Definition sync_one (st : Tx * list string) (now_o : Z * OnChainProvider) : Tx * list string :=
  let '(t, found) := st in
  let '(now, o) := now_o in
  match tx_get t bucketProviders (oc_Owner o) with
  | None => (put_ignoring t (oc_Owner o) (new_provider now o), found ++ [oc_Owner o])
  | Some existing =>
      match read_provider existing with
      | None => (t, found)
      | Some p => (put_ignoring t (oc_Owner o) (refresh o p), found)
      end
  end.

(** [l] pairs each provider with the clock when it is reached; [finish] is the clock
    at the end. *)
Definition sync_tx (l : list (Z * OnChainProvider)) (finish : Z) (t : Tx) : Tx * list string :=
  if negb (tx_bucket t bucketProviders) then (t, [])
  else
    let '(t, found) := foldl sync_one (t, []) l in
    (if tx_bucket t bucketMeta then match tx_put t bucketMeta keyLastSync (Raw (time_binary finish)) with Ok t' => t' | _ => t end else t, found).
Definition SyncWithChain (db : Tx) (l : list (Z * OnChainProvider)) (finish : Z) : Tx * list string :=
  ((db_Update db (λ t, Ok (sync_tx l finish t).1)).1, (sync_tx l finish db).2).

Definition GetProvidersDueForCheck (db : Tx) (now : Z) : list string := (List.filter (λ kv, due now kv.2) (scan db)).*1.

Definition priority_less (a b : string * CachedProvider) : bool :=
  if (calculatePriority a.2 =? calculatePriority b.2)%Z then (cp_LastChecked a.2 <? cp_LastChecked b.2)%Z
  else (calculatePriority a.2 <? calculatePriority b.2)%Z.
Definition GetProvidersByPriority `{SortSlice} (db : Tx) : list string := (sort_Slice priority_less (scan db)).*1.

(** ** Monikers (moniker.go) *)
Definition Moniker_Get (db : Tx) : gmap string bytes :=
  if tx_bucket db bucketMonikers then foldl (λ m kv, <[kv.1 := kv.2]> m) ∅ (tx_foreach db bucketMonikers) else ∅.
Definition HasMonikers (db : Tx) : bool := if tx_bucket db bucketMonikers then (0 <? length (tx_foreach db bucketMonikers))%nat else false.

(** [l] are the monikers in the order the map gives them. Deleting the old bucket may
    fail, which is ignored. *)
Definition Moniker_Set (db : Tx) (l : list (string * string)) : Tx :=
  (db_Update db (λ t,
     let t := match tx_delete_bucket t bucketMonikers with Ok t' => t' | _ => t end in
     t ← tx_create t bucketMonikers;
     foldR (λ t kv, tx_put t bucketMonikers kv.1 (Raw kv.2)) t l)).1.
End cache.

(** * Properties of the provider cache of the monitor

    The cache behaves as a map from owners to providers; when a provider is checked
    again depends on its recent checks alone; the order of checks is by priority and
    loses no provider. *)

(** ** What is written is read back *)
Section codec.
Context `{TimeLaws}.

Definition time_ok (t : Z) : bool := bool_decide (is_Some (time_MarshalJSON t)).
Definition provider_ok (p : CachedProvider) : bool :=
  utf8_ok (cp_HostURI p) && utf8_ok (cp_Name p) && utf8_ok (cp_Country p) && map_ok (cp_Attributes p) && utf8_ok (cp_Version p)
  && in_u64 (cp_CPUAvailable p) && in_u64 (cp_CPUTotal p) && in_u64 (cp_MemAvailable p) && in_u64 (cp_MemTotal p)
  && in_u64 (cp_GPUAvailable p) && in_u64 (cp_GPUTotal p) && slice_ok utf8_ok (cp_GPUModels p)
  && negb (bool_decide (cp_GPUModels p = Some [])) && time_ok (cp_LastSeenOnline p) && time_ok (cp_LastChecked p) && in_i64 (cp_ConsecutiveFailures p).

Lemma dec_time_text t s old : time_MarshalJSON t = Some s → dec_time (JStr s) old = Some t.
Proof. intros Ht. cbn. by apply time_roundtrip. Qed.
#[local] Hint Resolve dec_time_text : codec.

Lemma dec_enc_provider p seen checked : provider_ok p = true →
  time_MarshalJSON (cp_LastSeenOnline p) = Some seen → time_MarshalJSON (cp_LastChecked p) = Some checked →
  dec_provider (enc_provider seen checked p) zero_provider = Some p.
Proof.
  unfold provider_ok. intros Hok Hs Hc. repeat match goal with H : _ && _ = true |- _ => apply andb_prop in H as [? ?] end.
  unfold dec_provider, enc_provider, dec_struct, zero_provider. cbn [app].
  do 12 codec_member p. destruct (bool_decide (default [] (cp_GPUModels p) = [])) eqn:Hm; unfold omit; cbn [app].
  - do 3 codec_member p. destruct p as [? ? ? ? ? ? ? ? ? ? ? ? [[|]|] ? ? ?]; done.
  - do 4 codec_member p. by destruct p.
Qed.

(** The row of a provider is the provider. *)
Lemma read_marshal p : provider_ok p = true → ∃ data, marshal_provider p = Ok data ∧ read_provider data = Some p.
Proof.
  intros Hok. pose proof Hok as Ht. unfold provider_ok in Ht. repeat match goal with H : _ && _ = true |- _ => apply andb_prop in H as [? ?] end.
  unfold time_ok in *. repeat match goal with H : bool_decide (is_Some _) = true |- _ => apply bool_decide_eq_true in H as [? ?] end.
  unfold marshal_provider. destruct (time_MarshalJSON (cp_LastSeenOnline p)) eqn:Hs; [|done]. destruct (time_MarshalJSON (cp_LastChecked p)) eqn:Hc; [|done].
  eexists. split; [done|]. unfold read_provider, Unmarshal. by rewrite dec_enc_provider.
Qed.
End codec.

(** ** The cache as a map *)
Lemma alter_present {A} (f : A → A) k (m : gmap string A) a : m !! k = Some a → alter f k m = <[k := f a]> m.
Proof.
  intros Ha. apply map_eq. intros j. destruct (decide (k = j)) as [<-|Hne];
    [by rewrite lookup_alter_eq, Ha, lookup_insert_eq|by rewrite lookup_alter_ne, lookup_insert_ne].
Qed.
Lemma alter_absent {A} (f : A → A) k (m : gmap string A) : m !! k = None → alter f k m = m.
Proof.
  intros Ha. apply map_eq. intros j. destruct (decide (k = j)) as [<-|Hne]; [by rewrite lookup_alter_eq, Ha|by rewrite lookup_alter_ne].
Qed.

Section refinement.
Context {Tx : Type} `{BoltLaws Tx} `{!BoltHealthy Tx} `{TimeLaws} (time_binary : Z → string).

Record cache_rep (db : Tx) (m : gmap string CachedProvider) : Prop := {
  cr_bucket : is_Some (view db !! bucketProviders);
  cr_rows : ∀ b, view db !! bucketProviders = Some b → ∀ k, read_provider <$> b !! k = Some <$> m !! k;
  cr_ok : ∀ k p, m !! k = Some p → provider_ok p = true ∧ key_fits k = true;
}.

Lemma rep_bucket db m : cache_rep db m → tx_bucket db bucketProviders = true.
Proof. intros Hr. rewrite law_bucket. apply bool_decide_eq_true_2, (cr_bucket _ _ Hr). Qed.

Lemma rep_get db m k : cache_rep db m → tx_get db bucketProviders k ≫= read_provider = m !! k.
Proof.
  intros Hr. rewrite law_get. destruct (cr_bucket _ _ Hr) as [b Hb]. rewrite Hb. cbn. pose proof (cr_rows _ _ Hr b Hb k) as Hk.
  destruct (b !! k), (m !! k); cbn in *; naive_solver.
Qed.

Lemma rep_absent db m k : cache_rep db m → tx_get db bucketProviders k = None ↔ m !! k = None.
Proof.
  intros Hr. rewrite law_get. destruct (cr_bucket _ _ Hr) as [b Hb]. rewrite Hb. cbn. pose proof (cr_rows _ _ Hr b Hb k) as Hk.
  destruct (b !! k), (m !! k); cbn in *; naive_solver.
Qed.

Lemma put_rep t m owner p : cache_rep t m → key_fits owner = true → provider_ok p = true →
  ∃ t', putProvider t owner p = Ok t' ∧ cache_rep t' (<[owner := p]> m).
Proof.
  intros Hr Hk Hp. destruct (read_marshal p Hp) as (data&Hd&Hread). destruct (cr_bucket _ _ Hr) as [b Hb].
  destruct (law_put t bucketProviders b owner data Hb Hk (healthy_value data)) as (t'&Ht&Hv).
  exists t'. unfold putProvider. rewrite Hd. split; [exact Ht|]. split.
  - rewrite Hv, lookup_insert_eq. eauto.
  - intros b'. rewrite Hv, lookup_insert_eq. intros [= <-] k. destruct (decide (k = owner)) as [->|Hne].
    + rewrite !lookup_insert_eq. cbn. by rewrite Hread.
    + rewrite !lookup_insert_ne by done. by apply (cr_rows _ _ Hr).
  - intros k q. rewrite lookup_insert_Some. intros [[<- <-]|[_ Hq]]; [done|by apply (cr_ok _ _ Hr)].
Qed.

Lemma edit_rep db m owner f : cache_rep db m → (∀ p, provider_ok p = true → provider_ok (f p) = true) →
  cache_rep (edit db owner f) (alter f owner m).
Proof.
  intros Hr Hf. unfold edit. destruct (m !! owner) as [p|] eqn:Hm.
  - destruct (cr_ok _ _ Hr owner p Hm) as [Hp Hk]. destruct (put_rep db m owner (f p) Hr Hk (Hf p Hp)) as (t'&Ht&Hr').
    rewrite (db_Update_healthy db t').
    + by rewrite (alter_present f owner m p).
    + by rewrite (rep_bucket _ _ Hr), (rep_get _ _ _ Hr), Hm.
  - rewrite (db_Update_healthy db db); [|by rewrite (rep_bucket _ _ Hr), (rep_get _ _ _ Hr), Hm].
    by rewrite alter_absent.
Qed.

(** ** A history of the cache

    Checks of a provider, and synchronizations with the chain. *)
Inductive event : Type :=
| Online (owner : string) (r : report) (seen checked : Z)
| Offline (owner : string) (checked : Z)
| Synced (l : list (Z * OnChainProvider)) (finish : Z).

Definition do_event (db : Tx) (e : event) : Tx :=
  match e with
  | Online owner r seen checked => MarkProviderOnline db owner r seen checked
  | Offline owner checked => MarkProviderOffline db owner checked
  | Synced l finish => (SyncWithChain time_binary db l finish).1
  end.

(** The same on a map. *)
Definition upsert (m : gmap string CachedProvider) (no : Z * OnChainProvider) : gmap string CachedProvider :=
  <[oc_Owner no.2 := match m !! oc_Owner no.2 with None => new_provider no.1 no.2 | Some p => refresh no.2 p end]> m.
Definition spec_event (m : gmap string CachedProvider) (e : event) : gmap string CachedProvider :=
  match e with
  | Online owner r seen checked => alter (online r seen checked) owner m
  | Offline owner checked => alter (offline checked) owner m
  | Synced l _ => foldl upsert m l
  end.

(** Values that can be written: the report as it would be recorded for a blank
    provider, and the providers of the chain as they would be recorded when new. *)
Definition event_ok (e : event) : bool :=
  match e with
  | Online _ r seen checked => provider_ok (online r seen checked zero_provider)
  | Offline _ checked => time_ok checked
  | Synced l _ => forallb (λ no, key_fits (oc_Owner no.2) && provider_ok (new_provider no.1 no.2)) l
  end.

Ltac split_ok := unfold provider_ok in *; repeat match goal with H : _ && _ = true |- _ => apply andb_prop in H as [? ?] end.
Ltac join_ok := rewrite !andb_true_iff; split_and!; done.

Lemma online_ok r seen checked p : provider_ok (online r seen checked zero_provider) = true → provider_ok p = true →
  provider_ok (online r seen checked p) = true.
Proof. intros Ha Hb. split_ok. cbn in *. join_ok. Qed.
Lemma offline_ok checked p : time_ok checked = true → provider_ok p = true → provider_ok (offline checked p) = true.
Proof. intros Ha Hb. split_ok. cbn in *. rewrite wrap_i64_range. join_ok. Qed.
Lemma refresh_ok now o p : provider_ok (new_provider now o) = true → provider_ok p = true → provider_ok (refresh o p) = true.
Proof.
  intros Ha Hb. split_ok. unfold refresh, new_provider in *. cbn -[extractHostname attribute] in *.
  destruct (bool_decide (attribute o "organization" = "")), (bool_decide (attribute o "country" = "")); cbn -[attribute]; join_ok.
Qed.

Lemma sync_one_rep t m found now o : cache_rep t m → key_fits (oc_Owner o) = true → provider_ok (new_provider now o) = true →
  cache_rep (sync_one (t, found) (now, o)).1 (upsert m (now, o)) ∧
  (sync_one (t, found) (now, o)).2 = found ++ (if m !! oc_Owner o then [] else [oc_Owner o]).
Proof.
  intros Hr Hk Hp. unfold sync_one, upsert. cbn [fst snd]. pose proof (rep_get t m (oc_Owner o) Hr) as Hg. pose proof (rep_absent t m (oc_Owner o) Hr) as Hn.
  destruct (tx_get t bucketProviders (oc_Owner o)) as [data|].
  - cbn in Hg. rewrite Hg. destruct (m !! oc_Owner o) as [p|] eqn:Hm; [|by destruct Hn as [_ Hn]; specialize (Hn eq_refl)].
    destruct (cr_ok _ _ Hr _ _ Hm) as [Hpo _].
    destruct (put_rep t m (oc_Owner o) (refresh o p) Hr Hk (refresh_ok now o p Hp Hpo)) as (t'&Ht&Hr').
    unfold put_ignoring. rewrite Ht. by rewrite app_nil_r.
  - destruct Hn as [Hn _]. rewrite (Hn eq_refl). destruct (put_rep t m (oc_Owner o) (new_provider now o) Hr Hk Hp) as (t'&Ht&Hr').
    unfold put_ignoring. by rewrite Ht.
Qed.

(** The owners a synchronization meets for the first time. *)
Fixpoint newcomers (m : gmap string CachedProvider) (l : list (Z * OnChainProvider)) : list string :=
  match l with [] => [] | no :: l => (if m !! oc_Owner no.2 then [] else [oc_Owner no.2]) ++ newcomers (upsert m no) l end.

Lemma sync_rep l : ∀ t m found, cache_rep t m → event_ok (Synced l 0) = true →
  cache_rep (foldl sync_one (t, found) l).1 (foldl upsert m l) ∧ (foldl sync_one (t, found) l).2 = found ++ newcomers m l.
Proof.
  induction l as [|[now o] l IH]; intros t m found Hr Hok; cbn [foldl newcomers]; [by rewrite app_nil_r|].
  cbn in Hok. apply andb_prop in Hok as [[Hk Hp]%andb_prop Hok]. destruct (sync_one_rep t m found now o Hr Hk Hp) as [Hr' Hf].
  destruct (sync_one (t, found) (now, o)) as [t' found'] eqn:Hs. cbn [fst snd] in *. subst found'.
  destruct (IH t' (upsert m (now, o)) (found ++ (if m !! oc_Owner o then [] else [oc_Owner o])) Hr' Hok) as [Hr'' Hf'].
  split; [exact Hr''|]. by rewrite Hf', app_assoc.
Qed.

Lemma meta_rep t m b data : cache_rep t m → view t !! bucketMeta = Some b →
  ∃ t', tx_put t bucketMeta keyLastSync data = Ok t' ∧ cache_rep t' m.
Proof.
  intros Hr Hb. destruct (law_put t bucketMeta b keyLastSync data Hb eq_refl (healthy_value data)) as (t'&Ht&Hv).
  exists t'. split; [done|]. assert (view t' !! bucketProviders = view t !! bucketProviders) as He by (by rewrite Hv, lookup_insert_ne).
  split; [rewrite He; apply (cr_bucket _ _ Hr)|rewrite He; apply (cr_rows _ _ Hr)|apply (cr_ok _ _ Hr)].
Qed.

Lemma SyncWithChain_rep db m l finish : cache_rep db m → event_ok (Synced l finish) = true →
  cache_rep (SyncWithChain time_binary db l finish).1 (foldl upsert m l) ∧ (SyncWithChain time_binary db l finish).2 = newcomers m l.
Proof.
  intros Hr Hok. destruct (sync_rep l db m [] Hr Hok) as [Hr' Hf]. unfold SyncWithChain.
  rewrite (db_Update_healthy db (sync_tx time_binary l finish db).1) by done. cbn [fst snd]. unfold sync_tx. rewrite (rep_bucket _ _ Hr). cbn [negb].
  destruct (foldl sync_one (db, []) l) as [t found]. cbn [fst snd] in *. split; [|done].
  rewrite law_bucket. case_bool_decide as Hm; [|done]. destruct Hm as [b Hb].
  destruct (meta_rep t (foldl upsert m l) b (Raw (time_binary finish)) Hr' Hb) as (t'&Ht&Hr2). rewrite Ht. exact Hr2.
Qed.

Lemma do_event_rep db m e : cache_rep db m → event_ok e = true → cache_rep (do_event db e) (spec_event m e).
Proof.
  intros Hr Hok. destruct e as [owner r seen checked|owner checked|l finish]; cbn [do_event spec_event] in *.
  - apply edit_rep; [done|]. intros p. by apply online_ok.
  - apply edit_rep; [done|]. intros p. by apply offline_ok.
  - by apply SyncWithChain_rep.
Qed.

Lemma do_events_rep l : ∀ db m, cache_rep db m → forallb event_ok l = true → cache_rep (foldl do_event db l) (foldl spec_event m l).
Proof.
  induction l as [|e l IH]; intros db m Hr Hok; [done|]. cbn in *. apply andb_prop in Hok as [He Hl]. apply IH; [|done]. by apply do_event_rep.
Qed.

(** ** What the readers see *)
Lemma omap_read {A B} (f : A → option B) (l : list (string * A)) (l' : list (string * B)) :
  prod_map id f <$> l = prod_map id Some <$> l' → omap (λ kv, (λ b, (kv.1, b)) <$> f kv.2) l = l'.
Proof.
  revert l'. induction l as [|[k a] l IH]; intros [|[k' b] l'] He; cbn in *; try done.
  injection He as -> Hf He. rewrite Hf. cbn. f_equal. by apply IH.
Qed.

Lemma scan_rep db m : cache_rep db m → scan db = sorted_members m.
Proof.
  intros Hr. unfold scan. rewrite (rep_bucket _ _ Hr). destruct (cr_bucket _ _ Hr) as [b Hb]. rewrite (foreach_sorted_members db _ b Hb).
  apply omap_read. rewrite <-!sorted_members_fmap. f_equal. apply map_eq. intros k. rewrite !lookup_fmap. by apply (cr_rows _ _ Hr).
Qed.

Lemma scan_elem db m k p : cache_rep db m → (k, p) ∈ scan db ↔ m !! k = Some p.
Proof. intros Hr. rewrite (scan_rep _ _ Hr). apply sorted_members_elem. Qed.

Lemma count_rep db m : cache_rep db m → ProviderCount db = size m.
Proof.
  intros Hr. unfold ProviderCount. rewrite (rep_bucket _ _ Hr). destruct (cr_bucket _ _ Hr) as [b Hb].
  rewrite (law_foreach db _ b Hb), length_map_to_list. rewrite <-(map_size_fmap read_provider b), <-(map_size_fmap Some m). f_equal.
  apply map_eq. intros k. rewrite !lookup_fmap. by apply (cr_rows _ _ Hr).
Qed.


(** ** Scheduling *)

(** The checks of one provider, in order: whether it answered, and when. *)
Definition check_of (owner : string) (e : event) : option (bool * Z) :=
  match e with
  | Online o _ _ checked => if bool_decide (o = owner) then Some (true, checked) else None
  | Offline o checked => if bool_decide (o = owner) then Some (false, checked) else None
  | Synced _ _ => None
  end.
Definition checks_of (owner : string) (l : list event) : list (bool * Z) := omap (check_of owner) l.

Definition status (p : CachedProvider) : bool * Z * Z := (cp_IsOnline p, cp_LastChecked p, cp_ConsecutiveFailures p).
Definition checked (st : bool * Z * Z) (c : bool * Z) : bool * Z * Z := (c.1, c.2, if c.1 then 0%Z else wrap_i64 (st.2 + 1)).

Lemma upsert_status m no owner p : m !! owner = Some p → ∃ p', upsert m no !! owner = Some p' ∧ status p' = status p.
Proof.
  intros Hp. unfold upsert. destruct (decide (oc_Owner no.2 = owner)) as [->|Hne]; [|rewrite lookup_insert_ne by done; eauto].
  rewrite lookup_insert_eq, Hp. eexists. split; [done|]. unfold refresh. by repeat case_bool_decide.
Qed.

Lemma events_status l owner : ∀ m p, m !! owner = Some p →
  ∃ p', foldl spec_event m l !! owner = Some p' ∧ status p' = foldl checked (status p) (checks_of owner l).
Proof.
  induction l as [|e l IH]; intros m p Hp; [by exists p|]. cbn [foldl]. unfold checks_of in *.
  destruct e as [o r seen t|o t|chain finish]; cbn [omap list_omap check_of spec_event].
  - case_bool_decide; subst.
    + destruct (IH (alter (online r seen t) owner m) (online r seen t p)) as (p'&Hp'&Hs); [by rewrite lookup_alter_eq, Hp|]. by exists p'.
    + apply IH. by rewrite lookup_alter_ne.
  - case_bool_decide; subst.
    + destruct (IH (alter (offline t) owner m) (offline t p)) as (p'&Hp'&Hs); [by rewrite lookup_alter_eq, Hp|]. by exists p'.
    + apply IH. by rewrite lookup_alter_ne.
  - assert (∃ p', foldl upsert m chain !! owner = Some p' ∧ status p' = status p) as (p'&Hp'&<-); [|by apply IH].
    clear IH. revert m p Hp. induction chain as [|no chain IHc]; intros m p Hp; [by exists p|]. cbn [foldl].
    destruct (upsert_status m no owner p Hp) as (p1&Hp1&Hs1). destruct (IHc _ _ Hp1) as (p2&Hp2&Hs2). exists p2. by rewrite Hs2.
Qed.

Definition failed_at (t : Z) : bool * Z := (false, t).

Lemma trailing_status offs st t : (Z.of_nat (length offs) < 2 ^ 63)%Z →
  foldl checked st ((true, t) :: (failed_at <$> offs)) = (bool_decide (offs = []), default t (last offs), Z.of_nat (length offs)).
Proof.
  intros Hlen. cbn [foldl]. change (checked st (true, t)) with (true, t, 0%Z). clear st. revert Hlen.
  induction offs as [|o offs IH] using rev_ind; intros Hlen; [done|]. rewrite length_app in Hlen. cbn in Hlen.
  rewrite fmap_app, foldl_app, IH by lia. rewrite last_snoc. cbn. unfold checked. cbn. f_equal; [f_equal|].
  - by destruct offs.
  - rewrite length_app. cbn. rewrite wrap_i64_id; [lia|]. unfold in_i64, i64_min, i64_max. apply andb_true_intro. split; lia.
Qed.

(** How long a provider is left alone, by the number of its failures since it last
    answered. *)
Definition backoff (failures : nat) : Z := match failures with O => minute | _ => if (failures <? 5)%nat then 5 * minute else 360 * minute end.

Lemma due_iff now p : due now p = true ↔ (cp_LastChecked p + check_interval p ≤ now)%Z.
Proof.
  unfold due, time_Sub. rewrite Z.leb_le. assert (0 < check_interval p < 2 ^ 63)%Z; [|lia].
  unfold check_interval. repeat case_match; vm_compute; done.
Qed.

Lemma due_elem db m now owner : cache_rep db m → owner ∈ GetProvidersDueForCheck db now ↔ ∃ p, m !! owner = Some p ∧ due now p = true.
Proof.
  intros Hr. unfold GetProvidersDueForCheck. rewrite list_elem_of_fmap. split.
  - intros ([k p]&->&Hin). apply list_elem_of_In, List.filter_In in Hin as [Hin Hd]. exists p. split; [|done].
    apply (scan_elem db m); [done|]. by apply list_elem_of_In.
  - intros (p&Hp&Hd). exists (owner, p). split; [done|]. apply list_elem_of_In, List.filter_In. split; [|done].
    apply list_elem_of_In. by apply (scan_elem db m).
Qed.

(** when a provider is checked again is decided by its checks since it last
    answered, whatever synchronizations and checks of others happen in between: one
    minute after an answer, five minutes after the last of fewer than five failures
    in a row, six hours after the fifth and later ones. *)
Theorem check_schedule db m l owner p pre t offs now : cache_rep db m → forallb event_ok l = true → m !! owner = Some p →
  checks_of owner l = pre ++ (true, t) :: (failed_at <$> offs) → (Z.of_nat (length offs) < 2 ^ 63)%Z →
  owner ∈ GetProvidersDueForCheck (foldl do_event db l) now ↔ (default t (last offs) + backoff (length offs) ≤ now)%Z.
Proof.
  intros Hr Hok Hp Hc Hlen. pose proof (do_events_rep l db m Hr Hok) as Hr'. destruct (events_status l owner m p Hp) as (p'&Hp'&Hs).
  rewrite Hc, foldl_app, trailing_status in Hs by done. injection Hs as Hon Hlast Hf.
  rewrite (due_elem _ _ _ _ Hr'). rewrite Hp'. setoid_rewrite due_iff.
  assert (check_interval p' = backoff (length offs)) as Hi.
  { unfold check_interval, backoff. rewrite Hon, Hf. destruct offs as [|o offs]; [done|]. rewrite bool_decide_eq_false_2 by done.
    unfold LongTermOfflineThreshold. destruct (Nat.ltb_spec (length (o :: offs)) 5), (Z.leb_spec 5 (Z.of_nat (length (o :: offs)))); (lia || done). }
  rewrite <-Hi, <-Hlast. naive_solver.
Qed.

(** ** Order of checks *)

(** What the documentation of [sort.Slice] promises: for a strict weak order, a
    permutation in which no element is less than one before it. *)
Record strict_weak {A} (less : A → A → bool) : Prop := {
  sw_irrefl : ∀ a, less a a = false;
  sw_trans : ∀ a b c, less a b = true → less b c = true → less a c = true;
  sw_incomparable : ∀ a b c, less a b = false → less b c = false → less a c = false;
}.
Class SortSliceLaws `{SortSlice} : Prop := {
  sort_Slice_perm : ∀ {A} (less : A → A → bool) l, sort_Slice less l ≡ₚ l;
  sort_Slice_sorted : ∀ {A} (less : A → A → bool) l, strict_weak less → StronglySorted (λ a b, less b a = false) (sort_Slice less l);
}.

Lemma priority_weak : strict_weak priority_less.
Proof. unfold priority_less. split; intros; repeat case_match; lia. Qed.

Lemma StronglySorted_lookup {A} (R : A → A → Prop) l : StronglySorted R l →
  ∀ i j a b, i < j → l !! i = Some a → l !! j = Some b → R a b.
Proof.
  induction 1 as [|x l _ IH HF]; intros i j a b Hij Ha Hb; [done|]. destruct j as [|j]; [lia|]. destruct i as [|i]; cbn in *.
  - injection Ha as ->. rewrite Forall_forall in HF. eapply HF, list_elem_of_lookup_2, Hb.
  - eapply (IH i j); [lia|done..].
Qed.

(** The order in which providers are checked. *)
Definition checked_before (p q : CachedProvider) : Prop :=
  (calculatePriority p < calculatePriority q ∨ calculatePriority p = calculatePriority q ∧ cp_LastChecked p ≤ cp_LastChecked q)%Z.

(** the order of checks lists every provider of the cache once, those of a lower
    priority number first (never checked, online, recently offline, long offline) and
    within a priority those first that were checked longest ago. *)
Theorem priority_order `{SortSliceLaws} db m : cache_rep db m →
  NoDup (GetProvidersByPriority db) ∧ (∀ owner, owner ∈ GetProvidersByPriority db ↔ is_Some (m !! owner)) ∧
  ∀ i j a b p q, i < j → GetProvidersByPriority db !! i = Some a → GetProvidersByPriority db !! j = Some b →
    m !! a = Some p → m !! b = Some q → checked_before p q.
Proof.
  intros Hr. unfold GetProvidersByPriority. set (l := sort_Slice priority_less (scan db)).
  assert (l ≡ₚ map_to_list m) as Hl by (unfold l; by rewrite sort_Slice_perm, (scan_rep _ _ Hr), sorted_members_perm).
  assert (∀ k p, (k, p) ∈ l ↔ m !! k = Some p) as Hin by (intros; by rewrite Hl, elem_of_map_to_list).
  split_and!.
  - rewrite Hl. apply NoDup_fst_map_to_list.
  - intros owner. rewrite list_elem_of_fmap. split; [intros ([k p]&->&Hk%Hin); eauto|intros [p Hp%Hin]; by exists (owner, p)].
  - intros i j a b p q Hij Ha Hb Hp Hq. rewrite list_lookup_fmap in Ha, Hb.
    destruct (l !! i) as [[a' p']|] eqn:Hi; [|done]. destruct (l !! j) as [[b' q']|] eqn:Hj; [|done]. cbn in Ha, Hb. injection Ha as ->. injection Hb as ->.
    assert (p' = p) as -> by (apply list_elem_of_lookup_2, Hin in Hi; congruence).
    assert (q' = q) as -> by (apply list_elem_of_lookup_2, Hin in Hj; congruence).
    pose proof (StronglySorted_lookup _ l (sort_Slice_sorted priority_less (scan db) priority_weak) i j _ _ Hij Hi Hj) as Hs.
    cbn in Hs. unfold priority_less in Hs. cbn in Hs. unfold checked_before. case_match; lia.
Qed.
End refinement.

(** ** The properties at concrete inputs *)
Module Sample.
#[export] Instance decimal_time : TimeText := {
  time_MarshalJSON t := if in_i64 t then Some (FormatInt t) else None;
  time_Parse s := match ParseInt64 s with Ok t => Some t | _ => None end;
}.
#[export] Instance decimal_laws : TimeLaws.
Proof. constructor. cbn. intros t s. destruct (in_i64 t) eqn:Ht; [|done]. intros [= <-]. by rewrite ParseInt64_FormatInt. Qed.

(** Insertion sort by a boolean order. *)
Fixpoint insert_by {A} (less : A → A → bool) (a : A) (l : list A) : list A :=
  match l with [] => [a] | b :: l' => if less b a then b :: insert_by less a l' else a :: l end.
#[export] Instance insertion : SortSlice := λ A less l, foldr (insert_by less) [] l.

Lemma insert_by_perm {A} (less : A → A → bool) a l : insert_by less a l ≡ₚ a :: l.
Proof. induction l as [|b l IH]; cbn; [done|]. destruct (less b a); [|done]. rewrite IH. apply Permutation_swap. Qed.
Lemma insert_by_sorted {A} (less : A → A → bool) a l : strict_weak less →
  StronglySorted (λ a b, less b a = false) l → StronglySorted (λ a b, less b a = false) (insert_by less a l).
Proof.
  intros Hw. induction 1 as [|b l Hs IH HF]; cbn; [by repeat constructor|]. destruct (less b a) eqn:Hb.
  - constructor; [done|]. rewrite insert_by_perm. constructor; [|done].
    destruct (less a b) eqn:Hab; [|done]. pose proof (sw_trans _ Hw _ _ _ Hab Hb). by rewrite (sw_irrefl _ Hw) in *.
  - constructor; [by constructor|]. constructor; [done|]. eapply Forall_impl; [exact HF|]. intros c Hc. cbn in *. by eapply (sw_incomparable _ Hw).
Qed.
#[export] Instance insertion_laws : SortSliceLaws.
Proof.
  constructor; unfold sort_Slice, insertion; intros A less l.
  - induction l as [|a l IH]; cbn; [done|]. by rewrite insert_by_perm, IH.
  - intros Hw. induction l; cbn; [constructor|by apply insert_by_sorted].
Qed.

Definition empty_db : buckets := {[bucketProviders := ∅; bucketMeta := ∅]}.
Lemma empty_rep : cache_rep empty_db ∅.
Proof. split; [by eexists|by intros b [= <-]|done]. Qed.

Definition on_chain (owner : string) : OnChainProvider := MkOnChain owner "https://host.example:8443" (Some {["country" := "CH"]}) false.
Definition blank_report : report := MkReport "v0.6" (1, 2)%N (3, 4)%N (0, 0)%N None.
Definition synced : event := Synced [(1, on_chain "akash1a"); (2, on_chain "akash1b"); (3, on_chain "akash1a")]%Z 4.
Definition history : list event := [Online "akash1a" blank_report 10 11; Offline "akash1b" 12; Offline "akash1a" 20; synced; Offline "akash1a" 30]%Z.
Definition filled : buckets := do_event (λ _, "") empty_db synced.
Definition filled_map : gmap string CachedProvider := spec_event ∅ synced.

Lemma filled_rep : cache_rep filled filled_map.
Proof. apply do_event_rep; [exact empty_rep|vm_compute; reflexivity]. Qed.


Lemma check_schedule_witness : "akash1a" ∈ GetProvidersDueForCheck (foldl (do_event (λ _, "")) filled history) (30 + 5 * minute) ∧
  "akash1a" ∉ GetProvidersDueForCheck (foldl (do_event (λ _, "")) filled history) (29 + 5 * minute).
Proof.
  assert (∃ p, filled_map !! "akash1a" = Some p) as [p Hp] by (eexists; vm_compute; reflexivity).
  assert (∀ now, "akash1a" ∈ GetProvidersDueForCheck (foldl (do_event (λ _, "")) filled history) now ↔ (30 + 5 * minute ≤ now)%Z) as Hd.
  { intros now. apply (check_schedule (λ _, "") filled filled_map history "akash1a" p [] 11 [20; 30]%Z now filled_rep); [| exact Hp | |];
      vm_compute; reflexivity. }
  split; [apply Hd; lia|]. rewrite Hd. lia.
Defined.

Lemma priority_order_witness : NoDup (GetProvidersByPriority filled) ∧ ("akash1b" ∈ GetProvidersByPriority filled).
Proof.
  destruct (priority_order filled filled_map filled_rep) as (Hn&Hm&_). split; [exact Hn|]. apply Hm. eexists. vm_compute. reflexivity.
Defined.
End Sample.
