(* ===== verification/Consensus.v ===== *)
(** * The consensus state of the monitor (internal/monitor/consensus/consensus.go)

    The answer of a node's consensus_state endpoint as the state that is displayed.
    The two regular expressions are scanned by hand: each match is tried from left to
    right, and none of their repetitions has to give a byte back. Fractions are kept
    as a type [F] with the value of a text that is no number. *)

From Stdlib Require Import Ascii.
From stdpp Require Import sorting base gmap strings pretty option numbers list.
From S2P Require Import Prelude GoStd Context GoText WorkflowParams MonitorCache.

Record HeightVote : Type := MkVotes {
  hv_Round : Z; hv_Prevotes : list string; hv_PrevotesBitArray : string; hv_Precommits : list string; hv_PrecommitsBitArray : string;
}.
Record RoundState : Type := MkRound {
  rs_HeightRoundStep : string; rs_StartTime : Z; rs_HeightVoteSet : list HeightVote; rs_ProposerAddress : string; rs_ProposerIndex : Z;
}.
Record Validator : Type := MkValidator { va_Address : string; va_PubKey : string; va_VotingPower : string }.
Record ValidatorStatus : Type := MkStatus {
  vs_Index : Z; vs_Address : string; vs_PubKey : string; vs_VotingPower : Z; vs_Prevoted : bool; vs_Precommited : bool; vs_IsProposer : bool;
}.

(** ** Height, round and step *)
Definition nonnegative (what : string) (s : string) : result Z :=
  z ← map_err (Wrapf ("invalid " +:+ what +:+ ": %w") []) (ParseInt64 s);
  if (z <? 0)%Z then failf ("invalid " +:+ what +:+ " %d: must be nonnegative") [FormatInt z] else Ok z.

Definition ParseHeightRoundStep (hrs : string) : result (Z * Z * Z) :=
  match split_on "/"%char (bytes_of hrs) with
  | [h; r; s] =>
      height ← nonnegative "height" h;
      round ← nonnegative "round" r;
      step ← nonnegative "step" s;
      Ok (height, round, step)
  | _ => failf "invalid height/round/step format: %s" [hrs]
  end.

(** ** Bit arrays *)
Definition is_digit (c : ascii) : bool := bool_decide (is_Some (digit_val c)).
Definition is_vote (c : ascii) : bool := bool_decide (c = "x"%char) || bool_decide (c = "_"%char).
Definition is_fraction (c : ascii) : bool := is_digit c || bool_decide (c = "."%char).
Definition is_blank (c : ascii) : bool := bool_decide (N_of_ascii c ∈ [9; 10; 12; 13; 32]%N).

(** [x*]: the longest prefix of bytes of a class, and the rest. *)
Fixpoint span (p : ascii → bool) (l : list ascii) : list ascii * list ascii :=
  match l with
  | [] => ([], [])
  | c :: t => if p c then let '(a, b) := span p t in (c :: a, b) else ([], l)
  end.
(** [x+]. *)
Definition some_of (p : ascii → bool) (l : list ascii) : option (list ascii * list ascii) :=
  match span p l with ([], _) => None | r => Some r end.
Definition byte (c : ascii) (l : list ascii) : option (list ascii) :=
  match l with c' :: t => if bool_decide (c = c') then Some t else None | [] => None end.

(** The first position where a match begins. *)
Fixpoint find_match {A} (m : list ascii → option A) (l : list ascii) : option A :=
  match m l with
  | Some a => Some a
  | None => match l with [] => None | _ :: t => find_match m t end
  end.

Definition match_pattern (l : list ascii) : option (list ascii) :=
  l ← byte "B"%char l; l ← byte "A"%char l; l ← byte "{"%char l;
  '(_, l) ← some_of is_digit l;
  l ← byte ":"%char l;
  '(pattern, l) ← some_of is_vote l;
  _ ← byte "}"%char l;
  Some pattern.

Definition match_stats (l : list ascii) : option (list ascii * list ascii * list ascii) :=
  '(voted, l) ← some_of is_digit l;
  l ← byte "/"%char l;
  '(total, l) ← some_of is_digit l;
  l ← byte "="%char (span is_blank l).2;
  '(fraction, _) ← some_of is_fraction (span is_blank l).2;
  Some (voted, total, fraction).

Section state.
Context {F : Type} (ParseFloat : string → F) (zero : F).

Definition ParseBitArray (bitArray : string) : string * Z * Z * F :=
  let l := bytes_of bitArray in
  let pattern := of_bytes (default [] (find_match match_pattern l)) in
  match find_match match_stats l with
  | Some (voted, total, fraction) => (pattern, atoi (of_bytes voted), atoi (of_bytes total), ParseFloat (of_bytes fraction))
  | None => (pattern, 0%Z, 0%Z, zero)
  end.

(** ** Votes *)
Definition voted (vote : string) : bool := negb (bool_decide (vote = "nil-Vote")).
Definition CountVotes (votes : list string) : nat := foldl (λ n v, if voted v then S n else n) 0 votes.

(** The indices that voted. *)
Definition vote_map (votes : list string) : gmap nat bool :=
  foldl (λ m iv, if voted iv.2 then <[iv.1 := true]> m else m) ∅ (imap pair votes).

Definition status_of (prevotes precommits : gmap nat bool) (proposerIndex : Z) (i : nat) (v : Validator) : ValidatorStatus :=
  MkStatus (Z.of_nat i) (va_Address v) (va_PubKey v) (atoi (va_VotingPower v))
    (default false (prevotes !! i)) (default false (precommits !! i)) (Z.of_nat i =? proposerIndex)%Z.
Definition buildValidatorStatusNoVotes (validators : list Validator) (proposerIndex : Z) : list ValidatorStatus :=
  imap (status_of ∅ ∅ proposerIndex) validators.
Definition buildValidatorStatus (validators : list Validator) (votes : HeightVote) (proposerIndex : Z) : list ValidatorStatus :=
  imap (status_of (vote_map (hv_Prevotes votes)) (vote_map (hv_Precommits votes)) proposerIndex) validators.

(** ** The state that is shown *)
Record State : Type := MkState {
  st_Height : Z; st_Round : Z; st_Step : Z; st_StartTime : Z; st_Elapsed : Z; st_ProposerAddress : string; st_ProposerIndex : Z;
  st_TotalValidators : nat; st_TotalVotingPower : Z;
  st_PrevoteCount : nat; st_PrevotePower : Z; st_PrevotePercent : F; st_PrevoteBitArray : string;
  st_PrecommitCount : nat; st_PrecommitPower : Z; st_PrecommitPercent : F; st_PrecommitBitArray : string;
  st_Validators : list ValidatorStatus;
}.

(** [None] is a response that is missing. *)
Definition ParseConsensusState (now : Z) (resp : option RoundState) (validators : list Validator) : result State :=
  match resp with
  | None => failf "consensus response is nil" []
  | Some rs =>
      '(height, round, step) ← ParseHeightRoundStep (rs_HeightRoundStep rs);
      let state total power pc pp ppc pb cc cp cpc cb vals :=
        MkState height round step (rs_StartTime rs) (time_Sub now (rs_StartTime rs)) (rs_ProposerAddress rs) (rs_ProposerIndex rs)
          total power pc pp ppc pb cc cp cpc cb vals in
      Ok match List.find (λ v, (hv_Round v =? round)%Z) (rs_HeightVoteSet rs) with
         | None => state (length validators) 0%Z 0 0%Z zero "" 0 0%Z zero "" (buildValidatorStatusNoVotes validators (rs_ProposerIndex rs))
         | Some votes =>
             let '(pb, pp, power, ppc) := ParseBitArray (hv_PrevotesBitArray votes) in
             let '(cb, cp, _, cpc) := ParseBitArray (hv_PrecommitsBitArray votes) in
             state (match hv_Prevotes votes with [] => length validators | l => length l end) power
               (CountVotes (hv_Prevotes votes)) pp ppc pb (CountVotes (hv_Precommits votes)) cp cpc cb
               (buildValidatorStatus validators votes (rs_ProposerIndex rs))
         end
  end.
End state.

(** * Properties of the consensus state of the monitor

    What a node prints is read back, and the list of validators agrees with the
    counts of votes. *)

(** ** Scanning *)
Lemma span_app p a l : Forall (λ c, p c = true) a → (∀ c, head l = Some c → p c = false) → span p (a ++ l) = (a, l).
Proof.
  intros Ha Hl. induction Ha as [|c a Hc _ IH]; cbn.
  - destruct l as [|c l]; [done|]. cbn. by rewrite (Hl c).
  - by rewrite Hc, IH.
Qed.
Lemma some_of_app p a l : a ≠ [] → Forall (λ c, p c = true) a → (∀ c, head l = Some c → p c = false) → some_of p (a ++ l) = Some (a, l).
Proof. intros Hne Ha Hl. unfold some_of. rewrite span_app by done. by destruct a. Qed.

Lemma byte_here c l : byte c (c :: l) = Some l.
Proof. cbn. by rewrite bool_decide_eq_true_2. Qed.
Lemma find_here {A} (m : list ascii → option A) l a : m l = Some a → find_match m l = Some a.
Proof. intros Ha. destruct l; cbn; by rewrite Ha. Qed.

Lemma digits_of n : Forall (λ c, is_digit c = true) (bytes_of (FormatUint n)).
Proof. eapply Forall_impl; [apply pretty_digits|]. intros c Hc. by apply bool_decide_eq_true_2. Qed.
Lemma digits_nonempty n : bytes_of (FormatUint n) ≠ [].
Proof. intros E. apply (pretty_N_nonempty n). apply bytes_of_inj. by rewrite E. Qed.

(** No statistics begin at a byte that is no digit, nor in a number that no slash
    follows. *)
Lemma stats_skip c l : is_digit c = false → find_match match_stats (c :: l) = find_match match_stats l.
Proof. intros Hc. cbn [find_match]. unfold match_stats at 1, some_of. cbn [span]. by rewrite Hc. Qed.
Lemma stats_skip_all a l : Forall (λ c, is_digit c = false) a → find_match match_stats (a ++ l) = find_match match_stats l.
Proof. induction 1 as [|c a Hc _ IH]; [done|]. rewrite <-app_comm_cons. by rewrite stats_skip. Qed.
Lemma stats_skip_number ds c l : Forall (λ c, is_digit c = true) ds → is_digit c = false → c ≠ "/"%char →
  find_match match_stats (ds ++ c :: l) = find_match match_stats l.
Proof.
  intros Hds Hc Hn. induction Hds as [|d ds Hd Hds IH]; [by apply stats_skip|]. rewrite <-app_comm_cons. cbn [find_match].
  replace (match_stats (d :: ds ++ c :: l)) with (@None (list ascii * list ascii * list ascii)); [exact IH|].
  unfold match_stats. rewrite app_comm_cons, some_of_app; [|done|by constructor|by intros ? [= <-]]. cbn. by rewrite bool_decide_eq_false_2.
Qed.

Lemma is_blank_digit c : is_digit c = true → is_blank c = false.
Proof. destruct c as [[] [] [] [] [] [] [] []]; vm_compute; done. Qed.
Lemma vote_not_digit c : is_vote c = true → is_digit c = false.
Proof. destruct c as [[] [] [] [] [] [] [] []]; vm_compute; done. Qed.
Lemma fraction_not_blank c : is_fraction c = true → is_blank c = false.
Proof. destruct c as [[] [] [] [] [] [] [] []]; vm_compute; done. Qed.

(** A bit array as CometBFT prints it: the number of bits, the bits, the power that
    voted of the total, and the fraction. *)
Definition print_bits (n : N) (pattern : string) (voted total : N) (fraction : string) : string :=
  "BA{" +:+ FormatUint n +:+ ":" +:+ pattern +:+ "} " +:+ FormatUint voted +:+ "/" +:+ FormatUint total +:+ " = " +:+ fraction.

Lemma bits_bytes n pattern voted total fraction : bytes_of (print_bits n pattern voted total fraction) =
  ["B"; "A"; "{"]%char ++ bytes_of (FormatUint n) ++ ":"%char :: bytes_of pattern ++ "}"%char :: " "%char ::
  bytes_of (FormatUint voted) ++ "/"%char :: bytes_of (FormatUint total) ++ " "%char :: "="%char :: " "%char :: bytes_of fraction.
Proof. unfold print_bits. by rewrite !bytes_of_app. Qed.

Lemma match_pattern_bits ds pattern l : ds ≠ [] → Forall (λ c, is_digit c = true) ds → pattern ≠ [] → Forall (λ c, is_vote c = true) pattern →
  match_pattern (["B"; "A"; "{"]%char ++ ds ++ ":"%char :: pattern ++ "}"%char :: l) = Some pattern.
Proof.
  intros Hd1 Hd Hp1 Hp. unfold match_pattern. cbn [app]. do 3 (rewrite byte_here; cbn [mbind option_bind]).
  rewrite some_of_app; [|done|done|by intros ? [= <-]]. cbn [mbind option_bind]. rewrite byte_here. cbn [mbind option_bind].
  rewrite some_of_app; [|done|done|by intros ? [= <-]]. cbn [mbind option_bind]. by rewrite byte_here.
Qed.

Lemma match_stats_bits v t f : v ≠ [] → Forall (λ c, is_digit c = true) v → t ≠ [] → Forall (λ c, is_digit c = true) t →
  f ≠ [] → Forall (λ c, is_fraction c = true) f →
  match_stats (v ++ "/"%char :: t ++ " "%char :: "="%char :: " "%char :: f) = Some (v, t, f).
Proof.
  intros Hv1 Hv Ht1 Ht Hf1 Hf. unfold match_stats. rewrite some_of_app; [|done|done|by intros ? [= <-]]. cbn [mbind option_bind].
  rewrite byte_here. cbn [mbind option_bind]. rewrite some_of_app; [|done|done|by intros ? [= <-]]. cbn [mbind option_bind].
  change (span is_blank (" "%char :: "="%char :: " "%char :: f)) with ([" "%char], "="%char :: " "%char :: f). cbn [snd].
  rewrite byte_here. cbn [mbind option_bind].
  change (" "%char :: f) with ([" "%char] ++ f). rewrite span_app; [|by repeat constructor|].
  - cbn [snd]. rewrite <-(app_nil_r f) at 1. by rewrite some_of_app.
  - destruct Hf as [|c f Hc _]; [done|]. intros ? [= <-]. by apply fraction_not_blank.
Qed.

Lemma atoi_uint n : (n < 2 ^ 63)%N → atoi (FormatUint n) = Z.of_N n.
Proof.
  intros Hn. unfold atoi. replace (FormatUint n) with (FormatInt (Z.of_N n)); [rewrite ParseInt64_FormatInt; [done|]|].
  - unfold in_i64, i64_min, i64_max. apply andb_true_intro. split; lia.
  - unfold FormatInt, FormatUint. by destruct n.
Qed.

(** a bit array as a node prints it is read back: its bits, the power that voted,
    the total power and the fraction, whatever the numbers are (as long as they are
    64-bit powers) and whatever the number in the header says. *)
Theorem bit_array_roundtrip {F} (ParseFloat : string → F) zero n pattern voted total fraction :
  pattern ≠ "" → Forall (λ c, is_vote c = true) (bytes_of pattern) → (voted < 2 ^ 63)%N → (total < 2 ^ 63)%N →
  fraction ≠ "" → Forall (λ c, is_fraction c = true) (bytes_of fraction) →
  ParseBitArray ParseFloat zero (print_bits n pattern voted total fraction) = (pattern, Z.of_N voted, Z.of_N total, ParseFloat fraction).
Proof.
  intros Hp1 Hp Hv Ht Hf1 Hf. assert (bytes_of pattern ≠ []) as Hp2 by (intros E; apply Hp1, bytes_of_inj; by rewrite E).
  assert (bytes_of fraction ≠ []) as Hf2 by (intros E; apply Hf1, bytes_of_inj; by rewrite E).
  unfold ParseBitArray. rewrite bits_bytes.
  assert (find_match match_pattern (["B"; "A"; "{"]%char ++ bytes_of (FormatUint n) ++ ":"%char :: bytes_of pattern ++ "}"%char :: " "%char ::
    bytes_of (FormatUint voted) ++ "/"%char :: bytes_of (FormatUint total) ++ " "%char :: "="%char :: " "%char :: bytes_of fraction) = Some (bytes_of pattern)) as ->.
  { apply find_here, match_pattern_bits; (done || apply digits_nonempty || apply digits_of). }
  rewrite stats_skip_all by by repeat constructor. rewrite stats_skip_number; [|apply digits_of|done|done].
  rewrite stats_skip_all by (eapply Forall_impl; [exact Hp|]; apply vote_not_digit). rewrite !stats_skip by done.
  erewrite find_here; [|apply match_stats_bits; (done || apply digits_nonempty || apply digits_of)].
  cbn [default]. cbv iota beta. rewrite !of_bytes_of, !atoi_uint by done. unfold id. by rewrite of_bytes_of.
Qed.

(** ** Height, round and step *)
Lemma split_on_skip sep a l : sep ∉ a → split_on sep (a ++ sep :: l) = of_bytes a :: split_on sep l.
Proof.
  induction a as [|c a IH]; cbn; intros Hn; [by rewrite bool_decide_eq_true_2|].
  rewrite bool_decide_eq_false_2 by set_solver. rewrite IH by set_solver. done.
Qed.
Lemma split_on_last sep a : sep ∉ a → split_on sep a = [of_bytes a].
Proof. induction a as [|c a IH]; cbn; intros Hn; [done|]. rewrite bool_decide_eq_false_2 by set_solver. rewrite IH by set_solver. done. Qed.

Lemma nonnegative_Ok what s z : nonnegative what s = Ok z → ParseInt64 s = Ok z ∧ (0 ≤ z)%Z.
Proof.
  unfold nonnegative. intros (z'&Hz%map_err_ok&Hc)%bind_ok. destruct (Z.ltb_spec z' 0); [done|]. by injection Hc as <-.
Qed.
Lemma nonnegative_uint what n : (n < 2 ^ 63)%N → nonnegative what (FormatUint n) = Ok (Z.of_N n).
Proof.
  intros Hn. unfold nonnegative. replace (FormatUint n) with (FormatInt (Z.of_N n)) by (unfold FormatInt, FormatUint; by destruct n).
  rewrite ParseInt64_FormatInt by (unfold in_i64, i64_min, i64_max; apply andb_true_intro; split; lia). cbn.
  destruct (Z.ltb_spec (Z.of_N n) 0); [lia|done].
Qed.

(** the height, round and step a node prints are read back, and nothing else is
    read as one: a reading is three numbers separated by slashes, none negative. *)
Theorem height_round_step_exact :
  (∀ h r s, (h < 2 ^ 63)%N → (r < 2 ^ 63)%N → (s < 2 ^ 63)%N →
     ParseHeightRoundStep (FormatUint h +:+ "/" +:+ FormatUint r +:+ "/" +:+ FormatUint s) = Ok (Z.of_N h, Z.of_N r, Z.of_N s)) ∧
  (∀ hrs h r s, ParseHeightRoundStep hrs = Ok (h, r, s) → (0 ≤ h ∧ 0 ≤ r ∧ 0 ≤ s)%Z ∧
     ∃ a b c, split_on "/"%char (bytes_of hrs) = [a; b; c] ∧ ParseInt64 a = Ok h ∧ ParseInt64 b = Ok r ∧ ParseInt64 c = Ok s).
Proof.
  split.
  - intros h r s Hh Hr Hs. unfold ParseHeightRoundStep. rewrite !bytes_of_app. change (bytes_of "/") with ["/"%char]. cbn [app].
    rewrite !split_on_skip, split_on_last by (by apply FormatUint_no_byte). rewrite !of_bytes_of, !nonnegative_uint by done. done.
  - intros hrs h r s. unfold ParseHeightRoundStep. destruct (split_on _ _) as [|a [|b [|c [|]]]]; try done.
    intros (h'&[Ha Hh]%nonnegative_Ok&(r'&[Hb Hr]%nonnegative_Ok&(s'&[Hc Hs]%nonnegative_Ok&[= -> -> ->])%bind_ok)%bind_ok)%bind_ok.
    split; [done|]. by exists a, b, c.
Qed.

(** ** Votes *)
Lemma vote_map_lookup votes i : default false (vote_map votes !! i) = match votes !! i with Some v => voted v | None => false end.
Proof.
  unfold vote_map. induction votes as [|v votes IH] using rev_ind; [by rewrite lookup_nil|]. rewrite imap_app, foldl_app. cbn.
  rewrite Nat.add_0_r. destruct (decide (i = length votes)) as [->|Hne].
  - rewrite list_lookup_middle by done. destruct (voted v); [by rewrite lookup_insert_eq|]. rewrite IH, lookup_ge_None_2 by lia. done.
  - assert ((votes ++ [v]) !! i = votes !! i) as ->.
    { destruct (decide (i < length votes)); [by rewrite lookup_app_l|]. rewrite !lookup_ge_None_2; [done|lia|rewrite length_app; cbn; lia]. }
    destruct (voted v); [rewrite lookup_insert_ne by done|]; apply IH.
Qed.

Lemma CountVotes_filter votes : CountVotes votes = length (List.filter voted votes).
Proof.
  unfold CountVotes. induction votes as [|v votes IH] using rev_ind; [done|]. rewrite foldl_app, List.filter_app, length_app, IH. cbn.
  destruct (voted v); cbn; lia.
Qed.

Definition votes_of (votes : list string) (i : nat) : bool := match votes !! i with Some v => voted v | None => false end.

Lemma count_statuses {A} (f : nat → bool) (l : list A) (g : nat → A → ValidatorStatus) (sel : ValidatorStatus → bool) :
  (∀ i a, sel (g i a) = f i) → length (List.filter sel (imap g l)) = length (List.filter f (seq 0 (length l))).
Proof.
  intros Hs. induction l as [|a l IH] using rev_ind; [done|]. rewrite imap_app, List.filter_app, !length_app, IH. cbn [length].
  rewrite Nat.add_1_r, seq_S, List.filter_app, length_app. cbn. rewrite Hs, Nat.add_0_r. by destruct (f (length l)).
Qed.
Lemma count_votes_seq votes : length (List.filter (votes_of votes) (seq 0 (length votes))) = CountVotes votes.
Proof.
  rewrite CountVotes_filter. induction votes as [|v votes IH] using rev_ind; [done|]. rewrite length_app. cbn [length].
  rewrite Nat.add_1_r, seq_S, !List.filter_app, !length_app. cbn. f_equal.
  - rewrite <-IH. f_equal. apply List.filter_ext_in. intros i Hi. apply in_seq in Hi. unfold votes_of. by rewrite lookup_app_l by lia.
  - unfold votes_of. rewrite list_lookup_middle by done. by destruct (voted v).
Qed.

(** the list of validators agrees with the votes of the round that is shown: each
    validator is listed once, in order, and marked as having voted exactly when the
    vote at its index is there; when the node reports a vote for each validator, as
    many are marked as are counted. *)
Theorem votes_consistent {F} (ParseFloat : string → F) zero now rs validators st votes :
  ParseConsensusState ParseFloat zero now (Some rs) validators = Ok st →
  List.find (λ v, (hv_Round v =? st_Round st)%Z) (rs_HeightVoteSet rs) = Some votes →
  length (st_Validators st) = length validators ∧
  (∀ i s, st_Validators st !! i = Some s → vs_Index s = Z.of_nat i ∧
     vs_Prevoted s = votes_of (hv_Prevotes votes) i ∧ vs_Precommited s = votes_of (hv_Precommits votes) i ∧
     vs_IsProposer s = (Z.of_nat i =? rs_ProposerIndex rs)%Z) ∧
  (length (hv_Prevotes votes) = length validators → length (List.filter vs_Prevoted (st_Validators st)) = st_PrevoteCount st) ∧
  (length (hv_Precommits votes) = length validators → length (List.filter vs_Precommited (st_Validators st)) = st_PrecommitCount st).
Proof.
  unfold ParseConsensusState. intros ([[h r] s]&_&Hst)%bind_ok Hf. assert (st_Round st = r) as Hr.
  { destruct (List.find _ _); injection Hst as <-; [|done]. by destruct (ParseBitArray _ _ _) as [[[]]], (ParseBitArray _ _ _) as [[[]]]. }
  rewrite Hr in Hf. rewrite Hf in Hst.
  assert (st_Validators st = buildValidatorStatus validators votes (rs_ProposerIndex rs) ∧
    st_PrevoteCount st = CountVotes (hv_Prevotes votes) ∧ st_PrecommitCount st = CountVotes (hv_Precommits votes)) as (Hv&Hp&Hc).
  { injection Hst as <-. by destruct (ParseBitArray _ _ _) as [[[]]], (ParseBitArray _ _ _) as [[[]]]. }
  rewrite Hv, Hp, Hc. unfold buildValidatorStatus. split_and!.
  - apply length_imap.
  - intros i v. rewrite list_lookup_imap. destruct (validators !! i); cbn; [|done]. intros [= <-]. cbn. unfold votes_of. by rewrite !vote_map_lookup.
  - intros Hl. rewrite (count_statuses (votes_of (hv_Prevotes votes))), <-Hl; [apply count_votes_seq|].
    intros i a. cbn. apply vote_map_lookup.
  - intros Hl. rewrite (count_statuses (votes_of (hv_Precommits votes))), <-Hl; [apply count_votes_seq|].
    intros i a. cbn. apply vote_map_lookup.
Qed.

(** ** The properties at concrete inputs *)
Lemma bit_array_roundtrip_witness :
  ParseBitArray id "" (print_bits 99 "xx_x" 63976000 106137430 "0.60") = ("xx_x", 63976000%Z, 106137430%Z, "0.60").
Proof.
  apply (bit_array_roundtrip id "" 99 "xx_x" 63976000 106137430 "0.60");
    [discriminate|by apply (bool_decide_unpack _); vm_compute|reflexivity|reflexivity|discriminate|by apply (bool_decide_unpack _); vm_compute].
Defined.

Definition two_validators : list Validator := [MkValidator "A" "keyA" "10"; MkValidator "B" "keyB" "20"].
Definition second_round : HeightVote := MkVotes 1 ["Vote{0:A}"; "nil-Vote"] "BA{2:x_} 10/30 = 0.33" ["nil-Vote"; "nil-Vote"] "BA{2:__} 0/30 = 0.00".
Definition sample_round : RoundState := MkRound "7/1/6" 100 [MkVotes 0 [] "" [] ""; second_round] "A" 0.
Definition sample_state : State (F:=string) := match ParseConsensusState id "" 200 (Some sample_round) two_validators with Ok st => st | _ =>
  MkState 0 0 0 0 0 "" 0 0 0 0 0 "" "" 0 0 "" "" [] end.
Lemma votes_consistent_witness : length (List.filter vs_Prevoted (st_Validators sample_state)) = st_PrevoteCount sample_state ∧
  st_PrevoteCount sample_state = 1.
Proof.
  split; [|vm_compute; reflexivity].
  apply (votes_consistent id "" 200 sample_round two_validators sample_state second_round); vm_compute; reflexivity.
Defined.
