(* ===== verification/KeyringMgr.v ===== *)
(** * Keyrings (internal/keyring: backend.go, manager.go, deferred.go)

    Named keyrings are opened when they are first used and kept for the process. The
    Cosmos SDK and the credential stores of the host are parameters: a world [W], a
    type [K] of open keyrings, opening one, and probing a credential store. *)

From Stdlib Require Import Ascii.
From stdpp Require Import sorting base gmap strings pretty option numbers list.
From S2P Require Import Prelude GoStd Context.

Definition BackendOS : string := "os".
Definition BackendFile : string := "file".
Definition BackendTest : string := "test".
Definition BackendKWallet : string := "kwallet".
Definition BackendPass : string := "pass".
Definition BackendMemory : string := "memory".

(** ** Backends (backend.go) *)
Definition Backends : list string := [BackendOS; BackendFile; BackendTest; BackendKWallet; BackendPass; BackendMemory].

Definition ValidateBackend (backend : string) : result unit :=
  if bool_decide (backend = "") || bool_decide (backend ∈ Backends) then Ok tt
  else failf "unknown keyring backend %q; valid backends: %s" [backend; strings_Join Backends ", "].

Definition or_os (backend : string) : string := if bool_decide (backend = "") then BackendOS else backend.

Definition ApplyOverrides (keyrings : list Keyring) (backend dir : string) : list Keyring :=
  if bool_decide (backend = "") && bool_decide (dir = "") then keyrings
  else (λ kr, MkKeyring (kr_Name kr) (if bool_decide (backend = "") then kr_Backend kr else backend)
                        (if bool_decide (dir = "") then kr_Dir kr else dir)) <$> keyrings.

(** The stores that may serve the system backend on a platform. *)
Definition systemBackends (goos : string) : list string :=
  if bool_decide (goos = "darwin") then ["keychain"]
  else if bool_decide (goos = "windows") then ["wincred"]
  else if bool_decide (goos = "linux") then ["secret-service"; "kwallet"] else [].
Definition SystemBackendNames (goos : string) : list string := systemBackends goos.

(** ** The host *)
Class Host (W K : Type) : Type := {
  GOOS : string;
  registered : list string;                                  (* krbackend.AvailableBackends() *)
  probe : W → string → string → W * bool;                    (* a pinned open of a store, with the directory *)
  MkdirAll : W → string → W * option error;
  sdk_New : W → string → string → W * result K;              (* sdkkeyring.New: backend, directory *)
}.

Section keyrings.
Context {W K : Type} `{Host W K}.

Fixpoint resolve_among (stores : list string) (dir : string) (w : W) : W * string :=
  match stores with
  | [] => (w, "")
  | s :: stores =>
      if bool_decide (s ∈ registered) then
        match probe w s dir with
        | (w, true) => (w, s)
        | (w, false) => resolve_among stores dir w
        end
      else resolve_among stores dir w
  end.
Definition resolveSystemBackend (dir : string) (w : W) : W * string := resolve_among (systemBackends GOOS) dir w.
Definition SystemKeyringAvailable (w : W) : W * bool :=
  let '(w, s) := resolveSystemBackend "" w in (w, negb (bool_decide (s = ""))).

Definition EffectiveBackend (root : string) (kr : Keyring) (w : W) : W * option string :=
  let backend := or_os (kr_Backend kr) in
  if negb (bool_decide (backend = BackendOS)) then (w, Some backend)
  else let '(w, s) := resolveSystemBackend (KeyringDir root kr) w in (w, if bool_decide (s = "") then None else Some s).

(** [UnavailableBackendError]: the keyring, its backend, and what was looked for. *)
Definition unavailable_format : string :=
  "keyring %q is configured with backend %q, but this host provides no system credential store (looked for %s)" +:+ newline_string +:+
  "akt will not silently store keys somewhere else; select a backend this host has:" +:+ newline_string +:+
  "  akt --keyring-backend file ...            (this invocation only)" +:+ newline_string +:+
  "  akt context keyring set %s file           (persist the change)".
Definition UnavailableBackendError (name backend : string) (expected : list string) : error :=
  Errorf unavailable_format [name; backend; match expected with [] => "none on this platform" | _ => strings_Join expected " or " end; name].
Definition is_unavailable (e : error) : bool := match e with Errorf f _ => bool_decide (f = unavailable_format) | _ => false end.

(** ** The manager (manager.go) *)
Record kmgr : Type := MkKmgr { km_root : string; km_cache : gmap string K; km_configs : gmap string Keyring }.

Definition configs_of (keyrings : list Keyring) : gmap string Keyring := foldl (λ m kr, <[kr_Name kr := kr]> m) ∅ keyrings.
Definition NewManager (root : string) (keyrings : list Keyring) : kmgr := MkKmgr root ∅ (configs_of keyrings).

(** [open]: refuse an unknown backend, refuse the system backend where the host has
    none, create the directory of the file backends, then ask the SDK. *)
Definition open_keyring (root : string) (cfg : Keyring) (w : W) : W * result K :=
  let backend := or_os (kr_Backend cfg) in
  let dir := KeyringDir root cfg in
  match ValidateBackend backend with
  | Err e => (w, Err e)
  | Panic => (w, Panic)
  | Ok _ =>
      let '(w, available) := if bool_decide (backend = BackendOS)
                             then let '(w, e) := EffectiveBackend root cfg w in (w, match e with Some _ => true | None => false end)
                             else (w, true) in
      if negb available then
        (w, Err (UnavailableBackendError (if bool_decide (kr_Name cfg = "") then "default" else kr_Name cfg) backend (SystemBackendNames GOOS)))
      else
        let '(w, e) := if bool_decide (backend = BackendFile) || bool_decide (backend = BackendTest) then MkdirAll w dir else (w, None) in
        match e with
        | Some e => (w, Err (Wrapf "create keyring dir %s: %w" [dir] e))
        | None => sdk_New w backend dir
        end
  end.

Definition km_Get (m : kmgr) (name : string) (w : W) : kmgr * W * result K :=
  match km_cache m !! name with
  | Some k => (m, w, Ok k)
  | None =>
      match km_configs m !! name with
      | None => (m, w, failf "keyring %q not found in config" [name])
      | Some cfg =>
          match open_keyring (km_root m) cfg w with
          | (w, Ok k) => (MkKmgr (km_root m) (<[name := k]> (km_cache m)) (km_configs m), w, Ok k)
          | (w, Err e) => (m, w, Err (if is_unavailable e then e else Wrapf "open keyring %q: %w" [name] e))
          | (w, Panic) => (m, w, Panic)
          end
      end
  end.

(** A configuration that is gone or has another backend or directory. *)
Definition changed (new : gmap string Keyring) (name : string) (old : Keyring) : bool :=
  match new !! name with
  | None => true
  | Some cfg => negb (bool_decide (kr_Backend cfg = kr_Backend old)) || negb (bool_decide (kr_Dir cfg = kr_Dir old))
  end.
Definition Reload (m : kmgr) (keyrings : list Keyring) : kmgr :=
  let new := configs_of keyrings in
  MkKmgr (km_root m)
    (map_fold (λ name old cache, if changed new name old then delete name cache else cache) (km_cache m) (km_configs m)) new.

Definition Names (m : kmgr) : list string := (map_to_list (km_configs m)).*1.
Definition km_EffectiveBackend (m : kmgr) (name : string) (w : W) : W * option string :=
  match km_configs m !! name with None => (w, None) | Some cfg => EffectiveBackend (km_root m) cfg w end.

(** ** Deferred keyrings (deferred.go)

    [d_loaded] is what the loader gave when it was first needed. *)
Record deferred : Type := MkDeferred { d_backend : string; d_name : string; d_loaded : option (result K) }.

(** [Manager.Deferred]; the loader is [Get] of the name. *)
Definition Deferred (m : kmgr) (name : string) : deferred :=
  MkDeferred (or_os (default "" (kr_Backend <$> km_configs m !! name))) name None.

Definition resolve (d : deferred) (m : kmgr) (w : W) : deferred * kmgr * W * result K :=
  match d_loaded d with
  | Some r => (d, m, w, r)
  | None => let '(m, w, r) := km_Get m (d_name d) w in (MkDeferred (d_backend d) (d_name d) (Some r), m, w, r)
  end.

Definition Deferred_Backend (d : deferred) : string := d_backend d.

(** Every key operation of the proxy: resolve, then the operation of the keyring. *)
Definition via {A} (op : K → W → W * result A) (d : deferred) (m : kmgr) (w : W) : deferred * kmgr * W * result A :=
  match resolve d m w with
  | (d, m, w, Ok k) => let '(w, r) := op k w in (d, m, w, r)
  | (d, m, w, Err e) => (d, m, w, Err e)
  | (d, m, w, Panic) => (d, m, w, Panic)
  end.
End keyrings.
Arguments kmgr : clear implicits. Arguments deferred : clear implicits.

(** * Properties of the keyrings

    The keyring a name gives is the one its current configuration names, never
    another store; a deferred keyring is opened once, when it is first needed. *)

(** What the SDK promises: a keyring is the one of the backend and the directory it
    was opened with. *)
Class HostLaws (W K : Type) `{Host W K} : Type := {
  place : K → string * string;
  New_place : ∀ w backend dir w' k, sdk_New w backend dir = (w', Ok k) → place k = (backend, dir);
}.

Section props.
Context {W K : Type} `{HostLaws W K}.
Implicit Types (m : kmgr K).

(** Where a configuration keeps its keys. *)
Definition configured (root : string) (cfg : Keyring) : string * string := (or_os (kr_Backend cfg), KeyringDir root cfg).

Lemma open_place root cfg w w' k : open_keyring root cfg w = (w', Ok k) → place k = configured root cfg.
Proof.
  unfold open_keyring. destruct (ValidateBackend _); [|done..].
  destruct (if bool_decide (or_os (kr_Backend cfg) = BackendOS) then _ else _) as [w1 available]. destruct (negb available); [done|].
  destruct (if _ || _ then _ else _) as [w2 [e|]]; [done|]. apply New_place.
Qed.

(** ** The invariant of the manager *)
Record km_wf m : Prop := {
  kw_names : ∀ name cfg, km_configs m !! name = Some cfg → kr_Name cfg = name;
  kw_cache : ∀ name k, km_cache m !! name = Some k → ∃ cfg, km_configs m !! name = Some cfg ∧ place k = configured (km_root m) cfg;
}.

Lemma configs_of_names l name cfg : configs_of l !! name = Some cfg → kr_Name cfg = name.
Proof.
  unfold configs_of.
  induction l as [|x l IH] using rev_ind; [done|]. rewrite foldl_app. cbn. rewrite lookup_insert_Some. naive_solver.
Qed.

Lemma New_wf root l : km_wf (NewManager root l).
Proof. split; [apply configs_of_names|done]. Qed.

Lemma Get_wf m name w : km_wf m → km_wf (km_Get m name w).1.1.
Proof.
  intros [Hn Hc]. unfold km_Get. destruct (km_cache m !! name); [done|]. destruct (km_configs m !! name) as [cfg|] eqn:Hcfg; [|done].
  destruct (open_keyring _ cfg w) as [w' [k|e|]] eqn:Ho; [|done..]. split; [done|]. cbn. intros n k'. rewrite lookup_insert_Some.
  intros [[<- <-]|[_ Hk]]; [|by apply Hc]. exists cfg. split; [done|]. by eapply open_place.
Qed.

(** What is left in the cache: the keyrings whose configuration did not change. *)
Lemma Reload_cache m l name k : km_cache (Reload m l) !! name = Some k ↔
  km_cache m !! name = Some k ∧ ∀ old, km_configs m !! name = Some old → changed (configs_of l) name old = false.
Proof.
  unfold Reload. cbn.
  set (f := λ (name : string) (old : Keyring) (cache : gmap string K), if changed (configs_of l) name old then delete name cache else cache).
  apply (map_fold_weak_ind (λ (cache : gmap string K) cfgs, cache !! name = Some k ↔
    km_cache m !! name = Some k ∧ ∀ old, cfgs !! name = Some old → changed (configs_of l) name old = false)).
  - naive_solver.
  - intros n old cfgs cache Hn IH. unfold f. destruct (decide (n = name)) as [->|Hne].
    + rewrite lookup_insert_eq. rewrite Hn in IH. destruct (changed (configs_of l) name old) eqn:Hch.
      * rewrite lookup_delete_eq. split; [done|]. intros [_ Hf]. specialize (Hf old eq_refl). congruence.
      * rewrite IH. split; intros [Hk _]; (split; [done|]); [|done]. by intros old' [= <-].
    + rewrite lookup_insert_ne by done. destruct (changed _ n old); [rewrite lookup_delete_ne by done|]; exact IH.
Qed.

Lemma Reload_wf m l : km_wf m → km_wf (Reload m l).
Proof.
  intros [Hn Hc]. split; [apply configs_of_names|]. intros name k [Hk Hch]%Reload_cache. destruct (Hc name k Hk) as (old&Hold&Hp).
  specialize (Hch old Hold). unfold changed in Hch. destruct (configs_of l !! name) as [cfg|] eqn:Hcfg; [|done].
  apply orb_false_iff in Hch as [Hb%negb_false_iff%bool_decide_eq_true Hd%negb_false_iff%bool_decide_eq_true].
  exists cfg. split; [done|]. rewrite Hp. unfold configured, KeyringDir. cbn. by rewrite Hb, Hd, (Hn _ _ Hold), (configs_of_names _ _ _ Hcfg).
Qed.

(** ** A session *)
Inductive kop : Type := KGet (name : string) | KReload (keyrings : list Keyring).
Definition do_kop (mw : kmgr K * W) (o : kop) : kmgr K * W :=
  match o with
  | KGet name => (km_Get mw.1 name mw.2).1
  | KReload l => (Reload mw.1 l, mw.2)
  end.

Lemma session_wf ops : ∀ mw, km_wf mw.1 → km_wf (foldl do_kop mw ops).1.
Proof.
  induction ops as [|o ops IH]; intros [m w] Hm; [done|]. cbn [foldl]. apply IH. destruct o as [name|l]; cbn.
  - by apply Get_wf.
  - by apply Reload_wf.
Qed.

Lemma session_root ops mw : km_root (foldl do_kop mw ops).1 = km_root mw.1.
Proof.
  revert mw. induction ops as [|o ops IH]; intros [m w]; [done|]. cbn [foldl]. rewrite IH. destruct o as [name|l]; cbn; [|done].
  unfold km_Get. destruct (km_cache m !! name); [done|]. destruct (km_configs m !! name); [|done]. by destruct (open_keyring _ _ _) as [? []].
Qed.


(** ** No fallback *)
Lemma resolve_among_none stores dir : (∀ w s d, (probe (W:=W) (K:=K) w s d).2 = false) → ∀ w, (resolve_among (W:=W) (K:=K) stores dir w).2 = "".
Proof.
  intros Hp. induction stores as [|s stores IH]; intros w; [done|]. cbn. case_bool_decide; [|apply IH].
  specialize (Hp w s dir). destruct (probe w s dir) as [w' b]. cbn in Hp. subst. apply IH.
Qed.

(** on a host without a credential store, a keyring of the system backend that is
    not open yet is refused with an error that names the keyring; it is never opened
    somewhere else, and the failure is not remembered. *)
Theorem system_store_required m name cfg w : (∀ w s d, (probe (W:=W) (K:=K) w s d).2 = false) →
  km_cache m !! name = None → km_configs m !! name = Some cfg → or_os (kr_Backend cfg) = BackendOS →
  ∃ w', km_Get m name w = (m, w', Err (UnavailableBackendError (if bool_decide (kr_Name cfg = "") then "default" else kr_Name cfg) BackendOS (SystemBackendNames GOOS))).
Proof.
  intros Hp Hk Hc Hb. unfold km_Get. rewrite Hk, Hc. unfold open_keyring. rewrite Hb. cbn [ValidateBackend].
  replace (ValidateBackend BackendOS) with (Ok tt) by done. rewrite (bool_decide_eq_true_2 (BackendOS = BackendOS)) by done.
  unfold EffectiveBackend. rewrite Hb, (bool_decide_eq_true_2 (BackendOS = BackendOS)) by done. cbn [negb].
  unfold resolveSystemBackend. pose proof (resolve_among_none (systemBackends GOOS) (KeyringDir (km_root m) cfg) Hp w) as Hr.
  destruct (resolve_among _ _ w) as [w' s]. cbn in Hr. subst s. cbn [negb]. exists w'. done.
Qed.

(** ** Deferred keyrings *)

(** a deferred keyring is opened by the first operation that needs it and then
    never again: whatever happens to the manager in between, every later operation
    works on the same keyring or gets the same error, and before it has been used the
    configured backend is known without opening anything. *)
Theorem deferred_once {A} m name w (op : K → W → W * result A) d m1 w1 r :
  via op (Deferred m name) m w = (d, m1, w1, r) →
  let loaded := (km_Get m name w).2 in
  r = match loaded with Ok k => (op k (km_Get m name w).1.2).2 | Err e => Err e | Panic => Panic end ∧
  m1 = (km_Get m name w).1.1 ∧ Deferred_Backend (Deferred m name) = or_os (default "" (kr_Backend <$> km_configs m !! name)) ∧
  ∀ {B} (op' : K → W → W * result B) m' w', via op' d m' w' =
    (d, m', match loaded with Ok k => (op' k w').1 | _ => w' end, match loaded with Ok k => (op' k w').2 | Err e => Err e | Panic => Panic end).
Proof.
  unfold via, resolve. cbn [d_loaded d_name Deferred]. destruct (km_Get m name w) as [[m0 w0] r0]. cbn [fst snd].
  intros Hv. assert (d = MkDeferred (or_os (default "" (kr_Backend <$> km_configs m !! name))) name (Some r0) ∧ m1 = m0 ∧
    r = match r0 with Ok k => (op k w0).2 | Err e => Err e | Panic => Panic end) as (->&->&->).
  { destruct r0 as [k|e|]; [destruct (op k w0) as [w' r']|..]; by injection Hv as <- <- <- <-. }
  split_and!; try done. intros B op' m' w'. cbn. destruct r0 as [k|e|]; [|done..]. by destruct (op' k w').
Qed.
End props.

(** ** The properties at concrete inputs *)
Module SampleHost.
(** A host that counts what it opens, and one without a credential store. *)
#[local] Instance counting : Host nat (string * string) := {|
  GOOS := "linux"; registered := ["kwallet"]; probe w _ _ := (w, true); MkdirAll w _ := (w, None); sdk_New w b d := (S w, Ok (b, d)) |}.
#[local] Instance counting_laws : HostLaws nat (string * string).
Proof. refine {| place := id |}. cbn. by intros w b d w' k [= _ <-]. Defined.

Definition main : Keyring := MkKeyring "main" "file" "/keys".
Definition moved : Keyring := MkKeyring "main" "file" "/other".
Definition ops : list kop := [KGet "main"; KReload [moved]].

#[local] Instance bare : Host unit (string * string) := {|
  GOOS := "linux"; registered := ["kwallet"]; probe w _ _ := (w, false); MkdirAll w _ := (w, None); sdk_New w b d := (w, Ok (b, d)) |}.
Lemma system_store_required_witness : ∃ w', km_Get (W:=unit) (MkKmgr "/akt" ∅ {["main" := MkKeyring "main" "" ""]}) "main" tt =
  (MkKmgr "/akt" ∅ {["main" := MkKeyring "main" "" ""]}, w', Err (UnavailableBackendError "main" "os" ["secret-service"; "kwallet"])).
Proof.
  refine (system_store_required (W:=unit) (K:=string * string) (MkKmgr "/akt" ∅ {["main" := MkKeyring "main" "" ""]}) "main" (MkKeyring "main" "" "") tt _ _ _ _);
    reflexivity.
Defined.

Lemma deferred_once_witness : via (W:=nat) (λ k w, (w, Ok k)) (MkDeferred "file" "main" (Some (Ok ("file", "/keys")))) (MkKmgr "/akt" ∅ ∅) 7 =
  (MkDeferred "file" "main" (Some (Ok ("file", "/keys"))), MkKmgr "/akt" ∅ ∅, 7, Ok ("file", "/keys")).
Proof.
  refine (proj2 (proj2 (proj2 (deferred_once (W:=nat) (NewManager "/akt" [main]) "main" 0 (λ k w, (w, Ok k)) _
    (MkKmgr "/akt" {["main" := ("file", "/keys")]} {["main" := main]}) 1 (Ok ("file", "/keys")) _))) _ (λ k w, (w, Ok k)) (MkKmgr "/akt" ∅ ∅) 7).
  vm_compute. reflexivity.
Defined.
End SampleHost.
