(* ===== verification/StoreCommands.v ===== *)
(** * The store commands (internal/cli/store: commands.go, sync.go)

    [akt store status], [sync], [export] and [import] over the stores on disk. The
    Cosmos keyring and address codec, the chain client, the terminal and the calls of
    the operating system are parameters. *)

From Stdlib Require Import Ascii.
From stdpp Require Import sorting base gmap strings pretty option numbers list.
From S2P Require Import Prelude GoStd GoJson Bolt StoreTypes StoreOps StoreRep StoreExport ExportSpec ExportProps Sync Context Workflow Persist GoText.

(** ** Accounts (sync.go) *)
Definition trackAllAccounts : string := "*".

(** A key of the keyring, by what its address is. *)
Record krecord : Type := MkKrecord { krec_GetAddress : result string }.
Record kring : Type := MkKring { kg_Key : string → result krecord; kg_List : result (list krecord) }.

Section accounts.
(** [AccAddressFromBech32(s)] printed again. *)
Context (AccAddress : string → result string).

Definition accountAddress (entry : string) (kr : option kring) : result string :=
  match AccAddress entry with
  | Ok addr => Ok addr
  | _ =>
      match kr with
      | None => failf "account %q is not an address and no keyring is configured to look it up in" [entry]
      | Some kr =>
          rec ← map_err (Wrapf "account %q is neither an address nor a key in the context's keyring: %w" [entry]) (kg_Key kr entry);
          map_err (Wrapf "key %q has no address: %w" [entry]) (krec_GetAddress rec)
      end
  end.

(** Every address of the keyring; a key without one is left out. *)
Definition keyringAddresses (kr : option kring) : result (list string) :=
  match kr with
  | None => failf "tracked-accounts is %q but the context has no keyring to enumerate" [trackAllAccounts]
  | Some kr =>
      recs ← map_err (Wrapf "list keyring accounts: %w" []) (kg_List kr);
      let owners := omap (λ rec, match krec_GetAddress rec with Ok a => Some a | _ => None end) recs in
      match owners with
      | [] => failf "tracked-accounts is %q but the context's keyring holds no accounts" [trackAllAccounts]
      | _ => Ok (sort_strings owners)
      end
  end.

(** [from] is the signer of the client context, if there is one. *)
Definition defaultAccountAddress (rc : option Context_) (from : option string) (kr : option kring) : result string :=
  match from with
  | Some addr => Ok addr
  | None =>
      let account := default "" (ctx_DefaultAccount <$> rc) in
      if bool_decide (account = "") then
        failf "no account to sync: name one (`akt store sync <address|key>`), set the context's default-account, or list accounts in its tracked-accounts" []
      else accountAddress account kr
  end.

Definition track_one (kr : option kring) (owners : list string) (entry : string) : result (list string) :=
  if bool_decide (entry = trackAllAccounts)
  then failf "tracked-accounts: %q selects every keyring account and cannot be combined with other entries" [trackAllAccounts]
  else
    addr ← accountAddress entry kr;
    Ok (if bool_decide (addr ∈ owners) then owners else owners ++ [addr]).

Definition resolveTrackedAccounts (rc : option Context_) (override : string) (from : option string) (kr : option kring) : result (list string) :=
  let entries := if bool_decide (override = "") then default [] (ctx_TrackedAccounts <$> rc) else [override] in
  match entries with
  | [] => owner ← defaultAccountAddress rc from kr; Ok [owner]
  | _ =>
      if bool_decide (entries = [trackAllAccounts]) then keyringAddresses kr
      else owners ← foldR (track_one kr) [] entries; Ok (sort_strings owners)
  end.

(** Whether a Console context says nothing about its accounts. *)
Definition owners_from_store (rc : option Context_) (override : string) (from : option string) : bool :=
  match rc with
  | None => false
  | Some rc =>
      bool_decide (override = "") && bool_decide (ctx_AuthMethod rc = AuthMethodConsoleAPI) && bool_decide (ctx_TrackedAccounts rc = [])
      && bool_decide (ctx_DefaultAccount rc = "") && bool_decide (from = None)
  end.

Definition local_owner (seen : list string) (d : DeploymentRecord) : result (list string) :=
  if bool_decide (d_Owner d = "") then Ok seen
  else
    addr ← map_err (Wrapf "local deployment %d has invalid owner %q: %w" [FormatUint (d_DSeq d); d_Owner d]) (AccAddress (d_Owner d));
    Ok (if bool_decide (addr ∈ seen) then seen else addr :: seen).

Context {Tx : Type} `{BoltOps Tx}.

Definition resolveOwnersForSync (rc : option Context_) (override : string) (from : option string) (kr : option kring) (db : Tx) : result (list string) :=
  if negb (owners_from_store rc override from) then resolveTrackedAccounts rc override from kr
  else
    records ← map_err (Wrapf "list local deployments for Console owners: %w" []) (StoreOps.ListDeployments db no_deployment_filter);
    seen ← foldR local_owner [] records;
    match seen with
    | [] => failf "no account to sync: pass one explicitly (`akt store sync <address>`); this Console context has no local deployment owners yet" []
    | _ => Ok (sort_strings seen)
    end.

(** ** The commands *)
Context (fresh : Tx) (migrations : list (Migration Tx)) (mkdir bolt : option error) (root ctxName : string).
Abbreviation disk := (gmap string Tx).

Definition openStore (d : disk) : disk * result Tx :=
  let '(d, r) := OpenContext fresh migrations mkdir bolt d root ctxName in (d, map_err (Wrapf "open store: %w" []) r).
Definition storePath : string := StoreDBPath root ctxName.

(** [light] is the client for queries, or why there is none. *)
Definition sync_RunE (light : option error) (q : Querier) (rc : option Context_) (account : string) (from : option string) (kr : option kring)
    (now : clock) (d : disk) : disk * result (list string * ReconcileStats) :=
  match light with
  | Some e => (d, Err (Wrapf "store sync needs a chain connection: %w" [] e))
  | None =>
      match openStore d with
      | (d, Ok db) =>
          match resolveOwnersForSync rc account from kr db with
          | Ok owners =>
              let '(db, stats, r) := ReconcileNow (New owners) q now db in
              (<[storePath := db]> d, _ ← map_err (Wrapf "reconcile store with chain state: %w" []) r; Ok (owners, stats))
          | Err e => (d, Err e)
          | Panic => (d, Panic)
          end
      | (d, Err e) => (d, Err e)
      | (d, Panic) => (d, Panic)
      end
  end.

(** *** status *)
Definition formatStateCounts (total : Z) (counts : list (string * Z)) : string :=
  if (total =? 0)%Z then "0"
  else
    let known := foldl (λ k c, (k + c.2)%Z) 0%Z counts in
    let parts := omap (λ c : string * Z, if (0 <? c.2)%Z then Some (FormatInt c.2 +:+ " " +:+ c.1) else None) counts
                 ++ (if (0 <? total - known)%Z then [FormatInt (total - known) +:+ " other"] else []) in
    match parts with
    | [] => FormatInt total
    | _ => FormatInt total +:+ " (" +:+ strings_Join parts ", " +:+ ")"
    end.

Record reconciliationStatus : Type := MkReconciliation { rc_Status : string; rc_LastBlockHeight : Z; rc_LastRun : string; rc_Command : string }.
(** [rfc3339] prints a Unix time. *)
Definition describeReconciliation (rfc3339 : Z → string) (ss : option SyncState) : reconciliationStatus :=
  match ss with
  | None => MkReconciliation "not_yet_run" 0 "" "akt store sync"
  | Some ss =>
      if (ss_LastBlockHeight ss =? 0)%Z then MkReconciliation "not_yet_run" 0 "" "akt store sync"
      else MkReconciliation "completed" (ss_LastBlockHeight ss) (rfc3339 (ss_LastSyncTime ss)) ""
  end.

Record store_status : Type := MkStoreStatus {
  sst_Context : string; sst_StorePath : string; sst_SchemaVersion : N; sst_Records : StoreStats; sst_Reconciliation : reconciliationStatus;
}.
(** The size of the file aside. *)
Definition status_RunE (rfc3339 : Z → string) (d : disk) : disk * result store_status :=
  match openStore d with
  | (d, Ok db) =>
      (d, stats ← map_err (Wrapf "read stats: %w" []) (Stats db);
          ss ← map_err (Wrapf "read sync state: %w" []) (GetSyncState db);
          schema ← SchemaVersion db;
          Ok (MkStoreStatus ctxName storePath schema stats (describeReconciliation rfc3339 ss)))
  | (d, Err e) => (d, Err e)
  | (d, Panic) => (d, Panic)
  end.

Context {Y : Type} `{YamlOps Y} `{StoreExport.Bech32} (exportedAt : string).

(** *** export

    Files by path. [temp] is the name of a new file; [Write] is what one write to it
    does, the other fields are failures of the operating system. *)
Abbreviation texts := (gmap string string).
Record export_io : Type := MkExportIO {
  xio_CreateTemp : option error; xio_Write : string → string → string * result unit;
  xio_Sync : option error; xio_Close : option error; xio_Rename : option error;
}.

Definition writeStoreExport (io : export_io) (ctx : goctx) (db : Tx) (format : ExportFormat) : string * result unit :=
  let '(content, r) := export (xio_Write io) exportedAt ctx db "" format ctxName in
  (content, _ ← r; _ ← os_check (xio_Sync io) (Wrapf "flush temporary export: %w" []);
            os_check (xio_Close io) (Wrapf "close temporary export: %w" [])).

Definition exportFileAtomically (io : export_io) (ctx : goctx) (db : Tx) (temp destination : string) (format : ExportFormat) (fs : texts) : texts * result unit :=
  match xio_CreateTemp io with
  | Some e => (fs, Err (Wrapf "create temporary export: %w" [] e))
  | None =>
      let '(content, r) := writeStoreExport io ctx db format in
      let fs := <[temp := content]> fs in
      match r with
      | Ok _ =>
          match xio_Rename io with
          | Some e => (delete temp fs, Err (Wrapf "replace export file: %w" [] e))
          | None => (delete temp (<[destination := content]> fs), Ok tt)
          end
      | r => (delete temp fs, r)
      end
  end.

Definition export_RunE {O} (Write : O → string → O * result unit) (io : export_io) (ctx : goctx) (temp file output : string)
    (d : disk) (fs : texts) (out : O) : disk * texts * O * result unit :=
  let format := if bool_decide (output = "json") then FormatJSON else FormatYAML in
  match openStore d with
  | (d, Ok db) =>
      if bool_decide (file = "") then
        let '(out, r) := export Write exportedAt ctx db out format ctxName in (d, fs, out, r)
      else let '(fs, r) := exportFileAtomically io ctx db temp file format fs in (d, fs, out, r)
  | (d, Err e) => (d, fs, out, Err e)
  | (d, Panic) => (d, fs, out, Panic)
  end.

(** *** import *)

(** [None] is a prompt that cannot be written or answered; the answer is what was
    read up to the end of the line. *)
Definition confirmStoreReplacement (prompt : option error) (answer : string + error) : result bool :=
  match prompt, answer with
  | Some e, _ => Err (Wrapf "write replacement confirmation: %w" [] e)
  | None, inr e => Err (Wrapf "read replacement confirmation: %w" [] e)
  | None, inl answer => let answer := TrimSpace answer in Ok (EqualFold answer "y" || EqualFold answer "yes")
  end.

Record import_flags : Type := MkImportFlags { if_merge : bool; if_replace : bool; if_dryRun : bool; if_yes : bool }.

Definition stored (stat : option error) (d : disk) : source_file Tx :=
  match stat, d !! storePath with
  | Some e, _ => SourceStatError e
  | None, Some db => SourceDatabase db
  | None, None => SourceMissing
  end.

(** [notice] is the failure of the last message on the terminal, if any. *)
Definition import_RunE (fl : import_flags) (path : string) (file : input Y + error) (snapshot : snapshot_io) (stat : option error)
    (prompt : option error) (answer : string + error) (notice : option error) (ctx : goctx) (d : disk) : disk * result unit :=
  let format := if bool_decide (Ext path = ".json") then FormatJSON else FormatYAML in
  let merge := negb (if_replace fl) in
  let done (d : disk) : disk * result unit := (d, match notice with Some e => Err e | None => Ok tt end) in
  if negb (if_merge fl) && negb (if_replace fl) then (d, failf "replacing store contents requires the explicit --replace flag" [])
  else match file with
  | inr e => (d, Err (Wrapf "open import file: %w" [] e))
  | inl f =>
      if if_dryRun fl then
        match map_err (Wrapf "validate import: %w" []) (validateImportSnapshot snapshot fresh migrations ctx storePath (stored stat d) f format merge) with
        | Ok _ => done d
        | Err e => (d, Err e)
        | Panic => (d, Panic)
        end
      else
        match (if if_replace fl && negb (if_yes fl) then confirmStoreReplacement prompt answer else Ok true) with
        | Err e => (d, Err e)
        | Panic => (d, Panic)
        | Ok false => done d
        | Ok true =>
            match openStore d with
            | (d, Ok db) =>
                let '(db, r) := importData ctx db f format merge in
                match map_err (Wrapf "import: %w" []) r with
                | Ok _ => done (<[storePath := db]> d)
                | r => (<[storePath := db]> d, r)
                end
            | (d, Err e) => (d, Err e)
            | (d, Panic) => (d, Panic)
            end
        end
  end.
End accounts.

(** * Properties of the store commands

    The accounts a sync covers, the safety of an import and of its dry run, and the
    atomic replacement of an export file. *)

(** ** Accounts *)
Section owners.
Context (AccAddress : string → result string).
Implicit Types (kr : option kring).

(** The entries a sync resolves. *)
Definition tracked_entries (rc : option Context_) (override : string) : list string :=
  if bool_decide (override = "") then default [] (ctx_TrackedAccounts <$> rc) else [override].

Lemma track_all_spec kr entries : ∀ acc owners,
  foldR (track_one AccAddress kr) acc entries = Ok owners → NoDup acc →
  NoDup owners ∧ trackAllAccounts ∉ entries ∧ acc ⊆ owners ∧
  (∀ e, e ∈ entries → ∃ a, accountAddress AccAddress e kr = Ok a ∧ a ∈ owners) ∧
  (∀ a, a ∈ owners → a ∈ acc ∨ ∃ e, e ∈ entries ∧ accountAddress AccAddress e kr = Ok a).
Proof.
  induction entries as [|e entries IH]; intros acc owners Hf Hnd.
  - cbn [foldR] in Hf. injection Hf as ->. split_and!; [done|by apply not_elem_of_nil|done|by intros e ?%not_elem_of_nil|by left].
  - cbn [foldR] in Hf. destruct (track_one AccAddress kr acc e) as [acc'| |] eqn:Et; cbn [mbind result_bind] in Hf; [|done..].
    unfold track_one in Et. case_bool_decide as Hstar; [done|].
    destruct (accountAddress AccAddress e kr) as [a| |] eqn:Ea; cbn [mbind result_bind] in Et; [|done..].
    injection Et as <-. case_bool_decide as Hin.
    + destruct (IH _ _ Hf Hnd) as (? & ? & Hsub & Hall & Hex).
      split_and!; [done|by apply not_elem_of_cons|done| |].
      * intros e' [->|He']%elem_of_cons; [exists a; split; [done|by apply Hsub]|by apply Hall].
      * intros a' [?|(e' & He' & Ha')]%Hex; [by left|right; exists e'; split; [by right|done]].
    + assert (NoDup (acc ++ [a])) as Hnd' by (apply NoDup_app; split_and!; [done|by intros x Hx ->%list_elem_of_singleton|apply NoDup_singleton]).
      destruct (IH _ _ Hf Hnd') as (? & ? & Hsub & Hall & Hex).
      split_and!; [done|by apply not_elem_of_cons|by intros x Hx; apply Hsub, elem_of_app; left| |].
      * intros e' [->|He']%elem_of_cons; [exists a; split; [done|apply Hsub, elem_of_app; right; by apply list_elem_of_singleton]|by apply Hall].
      * intros a' [[Ha'|Ha'%list_elem_of_singleton]%elem_of_app|(e' & He' & Ha')]%Hex; [by left|right; exists e; rewrite Ha'; split; [left|done]|right; exists e'; split; [by right|done]].
Qed.

(** Nobody is left out of a sync and nobody is added. When the accounts of a
    context resolve, the owners are in order, none of them twice, and there is at least
    one. With an explicit list they are exactly the addresses of its entries, each of
    which resolved, and "*" is not among the entries; with "*" alone they are the keys
    of the keyring that have an address; with neither, the account of the client or the
    default account of the context alone. *)
Theorem tracked_accounts_exact rc override from kr owners :
  resolveTrackedAccounts AccAddress rc override from kr = Ok owners →
  let entries := tracked_entries rc override in
  StronglySorted String.le owners ∧ owners ≠ [] ∧
  (entries = [] → ∃ owner, owners = [owner] ∧
     (from = Some owner ∨ from = None ∧ accountAddress AccAddress (default "" (ctx_DefaultAccount <$> rc)) kr = Ok owner)) ∧
  (entries = [trackAllAccounts] → ∃ k recs, kr = Some k ∧ kg_List k = Ok recs ∧
     ∀ a, a ∈ owners ↔ ∃ rec, rec ∈ recs ∧ krec_GetAddress rec = Ok a) ∧
  (entries ≠ [] → entries ≠ [trackAllAccounts] → NoDup owners ∧ trackAllAccounts ∉ entries ∧
     (∀ e, e ∈ entries → ∃ a, accountAddress AccAddress e kr = Ok a) ∧
     ∀ a, a ∈ owners ↔ ∃ e, e ∈ entries ∧ accountAddress AccAddress e kr = Ok a).
Proof.
  unfold resolveTrackedAccounts. fold (tracked_entries rc override). intros Hr.
  destruct (tracked_entries rc override) as [|e0 rest] eqn:Ee.
  - unfold defaultAccountAddress in Hr. destruct from as [addr|]; cbn [mbind result_bind] in Hr.
    + injection Hr as <-. split_and!; [repeat constructor|done|eauto|done..].
    + case_bool_decide as Hacc; [done|].
      destruct (accountAddress _ _ _) as [a| |] eqn:Ea; cbn [mbind result_bind] in Hr; [|done..]. injection Hr as <-.
      split_and!; [repeat constructor|done|eauto|done..].
  - rewrite <- Ee in *. case_bool_decide as Hall.
    + unfold keyringAddresses in Hr. destruct kr as [k|]; [|done].
      destruct (kg_List k) as [recs| |] eqn:El; cbn [map_err mbind result_bind] in Hr; [|done..].
      destruct (omap _ recs) as [|a0 l] eqn:Eo; [done|]. injection Hr as <-. split_and!.
      * apply sort_strings_sorted.
      * intros Hn. apply (f_equal length) in Hn. by rewrite sort_strings_perm in Hn.
      * intros Hn. by rewrite Ee in Hn.
      * intros _. exists k, recs. split_and!; [done..|]. intros a. rewrite sort_strings_elem, <- Eo, list_elem_of_omap.
        split; intros (rec & Hin & Hrec); exists rec; split; try done; [by destruct (krec_GetAddress rec); simplify_eq|by rewrite Hrec].
      * done.
    + destruct (foldR _ _ _) as [os| |] eqn:Ef; cbn [mbind result_bind] in Hr; [|done..]. injection Hr as <-.
      destruct (track_all_spec _ _ _ _ Ef (NoDup_nil_2)) as (Hnd & Hstar & _ & Hres & Hex). split_and!.
      * apply sort_strings_sorted.
      * intros Hn. destruct (Hres e0) as (a & _ & Ha); [rewrite Ee; left|].
        apply (sort_strings_elem a os) in Ha. rewrite Hn in Ha. by apply not_elem_of_nil in Ha.
      * intros Hn. by rewrite Ee in Hn.
      * done.
      * intros _ _. split_and!; [by rewrite sort_strings_perm|done|naive_solver|].
        intros a. rewrite sort_strings_elem. split.
        -- intros [Ha|Ha]%Hex; [by apply not_elem_of_nil in Ha|done].
        -- intros (e & He & Ha). destruct (Hres e He) as (a' & Ha' & Hin). by rewrite Ha in Ha'; injection Ha' as ->.
Qed.
End owners.

(** ** Import *)
Section commands.
Context {Tx : Type} `{BoltOps Tx} {Y : Type} `{YamlOps Y} `{StoreExport.Bech32}.
Context (fresh : Tx) (migrations : list (Migration Tx)) (mkdir bolt : option error) (root ctxName : string).
Abbreviation import_cmd := (import_RunE fresh migrations mkdir bolt root ctxName (Y := Y)).
Abbreviation path := (StoreDBPath root ctxName).
Implicit Types (d : gmap string Tx).

(** Opening writes the store of the context alone. *)
Lemma openStore_frame d d' r p : openStore fresh migrations mkdir bolt root ctxName d = (d', r) → p ≠ path → d' !! p = d !! p.
Proof.
  unfold openStore, OpenContext. intros Ho Hp. repeat case_match; simplify_eq/=; try done; by rewrite lookup_insert_ne.
Qed.
Lemma openStore_lookup d d' db : openStore fresh migrations mkdir bolt root ctxName d = (d', Ok db) → d' !! path = Some db.
Proof.
  unfold openStore, OpenContext. intros Ho. destruct mkdir; [done|]. destruct bolt; [done|].
  destruct (StoreOps.Open _) as [db1 [[]| |]]; cbn in Ho; try done.
  destruct (Migrate migrations db1) as [db2 [[]| |]]; cbn in Ho; try done.
  injection Ho as <- <-. apply lookup_insert_eq.
Qed.
Lemma importData_fails ctx (db db' : Tx) (f : input Y) format merge res :
  importData ctx db f format merge = (db', res) → res ≠ Ok tt → db' = db.
Proof. unfold importData. destruct (decodeImportEnvelope f format); [apply db_Update_atomic|by intros [= <- <-]..]. Qed.

(** Whether the answer is a yes. *)
Definition confirmed (fl : import_flags) (prompt : option error) (answer : string + error) : Prop :=
  if_replace fl = false ∨ if_yes fl = true ∨ confirmStoreReplacement prompt answer = Ok true.

Lemma confirmed_asks fl prompt answer : confirmed fl prompt answer ↔
  (if if_replace fl && negb (if_yes fl) then confirmStoreReplacement prompt answer else Ok true) = Ok true.
Proof. unfold confirmed. destruct (if_replace fl), (if_yes fl); cbn; split; auto; by intros [?|[?|?]]. Qed.

(** C18: What [akt store import] may change. A command without either mode, a dry run, a
    file that does not open and a replacement that was not confirmed leave every store
    as it was; no command touches the store of another context; and one that opened
    the store but could not import leaves it as opening left it, so no import is ever
    half done. *)
Theorem import_command_safe fl file path_ snapshot stat prompt answer notice ctx d d' r :
  import_cmd fl path_ file snapshot stat prompt answer notice ctx d = (d', r) →
  (if_merge fl = false ∧ if_replace fl = false ∨ if_dryRun fl = true ∨ ¬ confirmed fl prompt answer ∨ (∃ e, file = inr e) → d' = d) ∧
  (∀ p, p ≠ path → d' !! p = d !! p) ∧
  (∀ f, file = inl f → if_dryRun fl = false → confirmed fl prompt answer → if_merge fl || if_replace fl = true →
     let '(opened, o) := openStore fresh migrations mkdir bolt root ctxName d in
     match o with
     | Ok db =>
         let '(db', i) := importData ctx db f (if bool_decide (Ext path_ = ".json") then FormatJSON else FormatYAML) (negb (if_replace fl)) in
         d' = <[path := db']> opened ∧ (i ≠ Ok tt → d' = opened ∧ r ≠ Ok tt) ∧ (i = Ok tt → notice = None → r = Ok tt)
     | _ => d' = opened ∧ r ≠ Ok tt
     end).
Proof.
  unfold import_RunE, storePath. intros Hr.
  destruct (negb (if_merge fl) && negb (if_replace fl)) eqn:Hmode.
  { simplify_eq. split_and!; [done..|]. intros f _ _ _ Hm. by destruct (if_merge fl), (if_replace fl). }
  assert (if_merge fl || if_replace fl = true) as Hm by (by destruct (if_merge fl), (if_replace fl)).
  assert (¬ (if_merge fl = false ∧ if_replace fl = false)) as Hm' by (intros [Ha Hb]; by rewrite Ha, Hb in Hm).
  destruct file as [f|e]; [|by simplify_eq].
  destruct (if_dryRun fl).
  { assert (d' = d) as -> by (by destruct (map_err _ _); simplify_eq). split_and!; done. }
  destruct (if if_replace fl && negb (if_yes fl) then confirmStoreReplacement prompt answer else Ok true) as [c| |] eqn:Hc.
  - destruct c.
    + apply confirmed_asks in Hc. split; [by intros [Hx|[Hx|[Hx|[e Hx]]]]|].
      destruct (openStore fresh migrations mkdir bolt root ctxName d) as [opened o] eqn:Ho.
      destruct o as [db| |]; [|simplify_eq; split; [intros p Hp; by eapply openStore_frame|done]..].
      destruct (importData ctx db f _ _) as [db' i] eqn:Hi.
      assert (d' = <[path := db']> opened) as -> by (by destruct (map_err _ i); simplify_eq).
      split; [intros p Hp; rewrite lookup_insert_ne by done; by eapply openStore_frame|].
      intros f' [= <-] _ _ _. rewrite Hi. split_and!; [done| |].
      * intros Hne. split; [|by destruct i as [[]| |]; simplify_eq/=].
        rewrite (importData_fails _ _ _ _ _ _ _ Hi Hne). apply insert_id. by eapply openStore_lookup.
      * intros -> ->. by simplify_eq/=.
    + assert (d' = d) as -> by (by injection Hr as <- <-). split_and!; [done..|]. intros f' _ _ Hco _. apply confirmed_asks in Hco. by rewrite Hc in Hco.
  - assert (d' = d) as -> by (by injection Hr as <- <-). split_and!; [done..|]. intros f' _ _ Hco _. apply confirmed_asks in Hco. by rewrite Hc in Hco.
  - assert (d' = d) as -> by (by injection Hr as <- <-). split_and!; [done..|]. intros f' _ _ Hco _. apply confirmed_asks in Hco. by rewrite Hc in Hco.
Qed.

(** ** The dry run *)

(** Nothing of the operating system fails around the copy. *)
Definition quiet_snapshot (io : snapshot_io) : Prop :=
  io_createTemp io = None ∧ io_deadline io = None ∧ io_openSource io storeSnapshotLockTimeout = None ∧ io_writeTo io = None ∧
  io_closeSource io = None ∧ io_closeTemp io = None ∧ io_openTemp io = None ∧ io_closeSnapshot io = None.

Lemma copy_quiet io source : quiet_snapshot io → copyStoreSnapshotWithOpen io None source = Ok None.
Proof.
  intros (_ & Hd & Ho & Hw & Hc & _). unfold copyStoreSnapshotWithOpen. cbn [ctx_Err mbind result_bind].
  rewrite Hd. cbn [mbind result_bind]. rewrite Ho, Hw. cbn [os_check mbind result_bind ctx_Err]. by rewrite Hc.
Qed.

(** The copy is opened and migrated as the store itself is. *)
Lemma snapshot_quiet io d f format merge : quiet_snapshot io →
  validateImportSnapshot (Y := Y) io fresh migrations None path (stored root ctxName None d) f format merge = Ok tt ↔
  ∃ db1 db2, StoreOps.Open (default fresh (d !! path)) = (db1, Ok tt) ∧ Migrate migrations db1 = (db2, Ok tt) ∧
    (validateImportData None db2 f format merge).2 = Ok tt.
Proof.
  intros Hio. pose proof (copy_quiet io path Hio) as Hcopy. destruct Hio as (Ht & _ & _ & _ & _ & Hct & Hot & Hcs).
  assert (match stored root ctxName None d with
          | SourceDatabase db => ctx ← copyStoreSnapshotWithOpen io None path; Ok (ctx, db)
          | SourceEmpty | SourceMissing => Ok (None, fresh)
          | SourceStatError e => Err (Wrapf "inspect store %s: %w" [path] e)
          end = Ok (None, default fresh (d !! path))) as Hsrc.
  { unfold stored, storePath. rewrite Hcopy. by destruct (d !! path). }
  unfold validateImportSnapshot. cbn [ctx_Err mbind result_bind]. rewrite Ht. cbn [os_check]. rewrite Hsrc, Hct, Hot, Hcs. cbn [os_check].
  cbn [mbind result_bind]. unfold Migrate. destruct (StoreOps.Open _) as [db1 [[]| |]]; cbn; [|by split; [|intros (? & ? & [=] & _)]..].
  destruct (migrate migrations db1) as [db2 [[]| |]] eqn:Em; cbn;
    [|by split; [|intros (? & ? & [= <-] & Hm & _); rewrite Em in Hm]..].
  split.
  - intros Hv. exists db1, db2. split_and!; [done..|]. by destruct (validateImportData None db2 f format merge).2 as [[]| |].
  - intros (? & ? & [= <-] & Hm & Hv). rewrite Em in Hm. injection Hm as <-. by rewrite Hv.
Qed.

(** The transaction of an import succeeds exactly when its dry run does. *)
Lemma import_iff_dry_run `{!BoltHealthy Tx} (db : Tx) (f : input Y) format merge :
  (importData None db f format merge).2 = Ok tt ↔ (validateImportData None db f format merge).2 = Ok tt.
Proof.
  unfold importData, validateImportData. destruct (decodeImportEnvelope f format) as [env| |]; [|done..].
  destruct (applyImportTx None db env merge) as [t| |] eqn:Ea; [by rewrite (db_Update_healthy db t)| |];
    unfold db_Update; by rewrite Ea.
Qed.

(** A dry run predicts the import. On a disk where nothing fails and with the
    replacement confirmed, [akt store import --dry-run] succeeds exactly when the same
    command without the flag does, whatever the store of the context holds, whichever
    migrations it still needs, and even when there is no store yet. *)
Theorem import_dry_run_predicts `{!BoltHealthy Tx} fl path_ file io prompt answer d :
  quiet_snapshot io → mkdir = None → bolt = None → if_dryRun fl = false → confirmed fl prompt answer →
  (import_cmd (MkImportFlags (if_merge fl) (if_replace fl) true (if_yes fl)) path_ file io None prompt answer None None d).2 = Ok tt ↔
  (import_cmd fl path_ file io None prompt answer None None d).2 = Ok tt.
Proof.
  intros Hio Hmk Hbo Hdry Hconf. apply confirmed_asks in Hconf. unfold import_RunE, storePath. cbn [if_merge if_replace if_dryRun if_yes].
  destruct (negb (if_merge fl) && negb (if_replace fl)); [done|]. destruct file as [f|e]; [|done].
  rewrite Hdry, Hconf. set (format := if bool_decide _ then _ else _). set (merge := negb _).
  trans (validateImportSnapshot (Y := Y) io fresh migrations None path (stored root ctxName None d) f format merge = Ok tt).
  { destruct (validateImportSnapshot _ _ _ _ _ _ _ _ _) as [[]| |]; done. }
  rewrite snapshot_quiet by done. unfold openStore, OpenContext. rewrite Hmk, Hbo.
  destruct (StoreOps.Open _) as [db1 [[]| |]]; cbn; [|by split; [intros (? & ? & [=] & _)|]..].
  destruct (Migrate migrations db1) as [db2 [[]| |]] eqn:Em; cbn;
    [|by split; [intros (? & ? & [= <-] & Hm & _); rewrite Em in Hm|]..].
  pose proof (import_iff_dry_run db2 f format merge) as Hiff.
  trans ((importData None db2 f format merge).2 = Ok tt);
    [|by destruct (importData None db2 f format merge) as [db3 [[]| |]]].
  rewrite Hiff. split; [intros (? & ? & [= <-] & Hm & Hv)|intros Hv; exists db1, db2; done].
  rewrite Em in Hm. by injection Hm as <-.
Qed.

(** ** Export to a file *)
Section file.
Context (exportedAt : string).

(** An export replaces its file at once or not at all. When the command reports
    success the destination holds the complete export and every other file is as it
    was; when anything fails, creating the temporary file, reading the store, a short
    write, the flush, the close or the rename, no file has changed. The temporary file
    is gone in both cases. *)
Theorem export_file_atomic io ctx (db : Tx) temp destination format (fs fs' : gmap string string) r :
  fs !! temp = None → temp ≠ destination →
  exportFileAtomically ctxName exportedAt (Y := Y) io ctx db temp destination format fs = (fs', r) →
  (r = Ok tt → ∃ content, export (Y := Y) (xio_Write io) exportedAt ctx db "" format ctxName = (content, Ok tt) ∧
     fs' = <[destination := content]> fs) ∧
  (r ≠ Ok tt → fs' = fs).
Proof.
  intros Hfree Hne. unfold exportFileAtomically, writeStoreExport.
  destruct (xio_CreateTemp io); [intros [= <- <-]; done|].
  destruct (export _ _ _ _ _ _ _) as [content res] eqn:Ex.
  assert (∀ c : string, delete temp (<[temp := c]> fs) = fs) as Hdel.
  { intros c. rewrite delete_insert_eq. by apply delete_id. }
  destruct res as [[]| |]; cbn [mbind result_bind]; [|intros [= <- <-]; split; [done|intros _; apply Hdel]..].
  destruct (xio_Sync io); cbn [os_check mbind result_bind]; [intros [= <- <-]; split; [done|intros _; apply Hdel]|].
  destruct (xio_Close io); cbn [os_check]; [intros [= <- <-]; split; [done|intros _; apply Hdel]|].
  destruct (xio_Rename io); intros [= <- <-]; (split; [|done || (intros _; apply Hdel)]); [done|].
  intros _. exists content. split; [done|]. rewrite delete_insert_ne by done. by rewrite Hdel.
Qed.
End file.
End commands.

(** ** The properties at concrete inputs *)
Module SampleStore.
Definition address (s : string) : result string := if bool_decide (String.length s = 4%nat) then Ok s else failf "not an address" [].
Definition ring : option kring :=
  Some (MkKring (λ name, if bool_decide (name = "alice") then Ok (MkKrecord (Ok "ak01")) else failf "no key" [])
                (Ok [MkKrecord (Ok "ak02"); MkKrecord (failf "locked" []); MkKrecord (Ok "ak01")])).

Lemma tracked_accounts_exact_witness :
  resolveTrackedAccounts address None "alice" None ring = Ok ["ak01"] ∧ NoDup ["ak01"].
Proof.
  assert (resolveTrackedAccounts address None "alice" None ring = Ok ["ak01"]) as E by reflexivity. split; [exact E|].
  apply (tracked_accounts_exact address None "alice" None ring ["ak01"] E); discriminate.
Defined.

Definition no_failure : snapshot_io := MkSnapshotIO None None (λ _, None) None None None None None.
Definition file : input unit + error := inl (json_input (env_of Toy.store "main" "now") tt).
Definition import_of (fl : import_flags) (answer : string) : gmap string buckets * result unit :=
  import_RunE (Y := unit) (buckets_of empty_astore) [] None None "root" "main" fl "backup.json" file no_failure None None (inl answer) None None ∅.
Definition replacing (dry : bool) : import_flags := MkImportFlags true true dry false.

Lemma import_command_safe_witness :
  (import_of (replacing false) "no").1 = ∅ ∧ (import_of (replacing false) "no").2 = Ok tt ∧ (import_of (replacing false) "Yes").2 = Ok tt.
Proof.
  split; [|split; vm_compute; reflexivity].
  apply (import_command_safe (Y := unit) (buckets_of empty_astore) [] None None "root" "main" (replacing false) file "backup.json"
    no_failure None None (inl "no") None None ∅ _ _ (surjective_pairing _)).
  right; right; left. intros [E|[E|E]]; discriminate.
Defined.

Lemma import_dry_run_predicts_witness : (import_of (replacing true) "yes").2 = Ok tt.
Proof.
  apply (import_dry_run_predicts (Y := unit) (buckets_of empty_astore) [] None None "root" "main" (replacing false) "backup.json"
    file no_failure None (inl "yes") ∅).
  - split_and!; reflexivity.
  - reflexivity.
  - reflexivity.
  - reflexivity.
  - right; right. reflexivity.
  - vm_compute. reflexivity.
Defined.

(** A disk that takes ten bytes of a write. *)
Definition short : export_io := MkExportIO None (λ s p, (s +:+ String.substring 0 10 p, failf "short write" [])) None None None.
Definition old : gmap string string := {[ "backup.json" := "old" ]}.

Lemma export_file_atomic_witness :
  (exportFileAtomically (Y := unit) "main" "now" short None Toy.db "tmp" "backup.json" FormatJSON old).1 = old.
Proof.
  apply (export_file_atomic (Y := unit) "main" "now" short None Toy.db "tmp" "backup.json" FormatJSON old _ _
    eq_refl ltac:(discriminate) (surjective_pairing _)).
  vm_compute. discriminate.
Defined.
End SampleStore.
