(* ===== verification/Bootstrap.v ===== *)
(** * The first-run wizard (internal/bootstrap)

    Fetching the networks, the menus, the Console step and the configuration they
    lead to. The terminal is what its reads return, GitHub is what it answers to a
    request; drawing the menus and the check of a Console key, whose result is only
    printed, are left out. *)

From Stdlib Require Import Ascii.
From stdpp Require Import sorting base gmap strings pretty option numbers list.
From S2P Require Import Prelude GoStd GoJson Context ConfigDoc Workflow GoText ConsoleTypes WorkflowReport KeyringMgr.

Definition netRepoAPI : string := "https://api.github.com/repos/akash-network/net/contents".
Definition netRepoRaw : string := "https://raw.githubusercontent.com/akash-network/net/main".
Definition defaultKeyringName : string := "default".
Definition pendingSuffix : string := "  (created on first use)".

(** ** Fetching networks *)
Record githubEntry : Type := MkEntry { ge_Name : string; ge_Type : string }.
Definition dec_entry : decoder githubEntry := dec_struct false [
  ("name", field ge_Name (λ v r, MkEntry v (ge_Type r)) dec_string);
  ("type", field ge_Type (λ v r, MkEntry (ge_Name r) v) dec_string)].

(** float64 gas prices; [price_text] is [%g]. *)
Class GasPriceOps : Type := {
  gas_price : Type;
  parse_price : string → option gas_price;
  price_positive : gas_price → bool;
  price_text : gas_price → string;
}.

(** What the server answers to a request: a failure, or a status with a body that
    can fail to be read and need not be JSON. *)
Abbreviation github := (string → error + Z * (error + option json)).

Section meta.
Context `{GasPriceOps}.

(** [None] is a price that was never set. *)
Record feeToken : Type := MkFeeToken { ft_Denom : string; ft_HighGasPrice : option gas_price }.

Record metaJSON : Type := MkMeta {
  me_ChainID : string; me_FeeTokens : list feeToken; me_RPC : list string; me_REST : list string; me_GRPC : list string; me_Faucets : list string;
}.
Definition zero_meta : metaJSON := MkMeta "" [] [] [] [] [].

Definition dec_fee_price : decoder (option gas_price) := λ j old,
  match j with JNull => Some old | JNum lit => Some <$> parse_price lit | _ => None end.
Definition dec_fee_token : decoder feeToken := dec_struct false [
  ("denom", field ft_Denom (λ v r, MkFeeToken v (ft_HighGasPrice r)) dec_string);
  ("high_gas_price", field ft_HighGasPrice (λ v r, MkFeeToken (ft_Denom r) v) dec_fee_price)].
(** A slice of structs with one string member. *)
Definition dec_each (name : string) : decoder (list string) := λ j _,
  default [] <$> dec_slice "" (dec_struct false [(name, dec_string)]) j None.
Definition dec_fees : decoder (list feeToken) := dec_struct false [
  ("fee_tokens", λ j _, default [] <$> dec_slice (MkFeeToken "" None) dec_fee_token j None)].
Definition dec_apis : decoder metaJSON := dec_struct false [
  ("rpc", field me_RPC (λ v r, MkMeta (me_ChainID r) (me_FeeTokens r) v (me_REST r) (me_GRPC r) (me_Faucets r)) (dec_each "address"));
  ("rest", field me_REST (λ v r, MkMeta (me_ChainID r) (me_FeeTokens r) (me_RPC r) v (me_GRPC r) (me_Faucets r)) (dec_each "address"));
  ("grpc", field me_GRPC (λ v r, MkMeta (me_ChainID r) (me_FeeTokens r) (me_RPC r) (me_REST r) v (me_Faucets r)) (dec_each "address"))].
Definition drop_string {A} : decoder A := λ j a, (λ _, a) <$> dec_string j "".
Definition dec_meta : decoder metaJSON := dec_struct false [
  ("chain_name", drop_string);
  ("chain_id", field me_ChainID (λ v r, MkMeta v (me_FeeTokens r) (me_RPC r) (me_REST r) (me_GRPC r) (me_Faucets r)) dec_string);
  ("pretty_name", drop_string); ("network_type", drop_string); ("status", drop_string);
  ("fees", field me_FeeTokens (λ v r, MkMeta (me_ChainID r) v (me_RPC r) (me_REST r) (me_GRPC r) (me_Faucets r)) dec_fees);
  ("apis", dec_apis);
  ("faucets", field me_Faucets (λ v r, MkMeta (me_ChainID r) (me_FeeTokens r) (me_RPC r) (me_REST r) (me_GRPC r) v) (dec_each "url"))].

Definition nonempty (l : list string) : list string := List.filter (λ s, negb (bool_decide (s = ""))) l.

Definition metaToNetwork (dirName : string) (meta : metaJSON) : Network :=
  MkNetwork dirName (me_ChainID meta)
    (MkEndpoints (nonempty (me_RPC meta)) (nonempty (me_REST meta)) (nonempty (me_GRPC meta)))
    (match me_FeeTokens meta with
     | MkFeeToken denom (Some price) :: _ =>
         if price_positive price && negb (bool_decide (denom = "")) then price_text price +:+ denom else ""
     | _ => ""
     end)
    "1.5" (match me_Faucets meta with url :: _ => url | [] => "" end).

Definition get_json {A} (get : github) (url format : string) (dec : decoder A) (zero : A) : result A :=
  match get url with
  | inl e => Err e
  | inr (status, body) =>
      if negb (status =? 200)%Z then failf format [FormatInt status]
      else match body with
           | inl e => Err e
           | inr j => match j ≫= λ j, dec j zero with Some a => Ok a | None => Err ErrJSON end
           end
  end.

Definition listRepoDirs (get : github) : result (list string) :=
  entries ← get_json get netRepoAPI "GitHub API returned %d" (dec_slice (MkEntry "" "") dec_entry) None;
  Ok (ge_Name <$> List.filter (λ e, bool_decide (ge_Type e = "dir")) (default [] entries)).
Definition fetchMeta (get : github) (dir : string) : result metaJSON :=
  get_json get (netRepoRaw +:+ "/" +:+ dir +:+ "/meta.json") "meta.json returned %d" dec_meta zero_meta.

(** A directory without usable metadata, or whose metadata has no chain, is skipped. *)
Definition fetch_network (get : github) (dir : string) : option Network :=
  match fetchMeta get dir with
  | Ok meta => let n := metaToNetwork dir meta in if bool_decide (net_ChainID n = "") then None else Some n
  | _ => None
  end.
Definition fetchAllNetworks (get : github) : result (list Network) :=
  dirs ← listRepoDirs get; Ok (omap (fetch_network get) (dirs : list string)).
End meta.

(** ** Menus

    A prompt reads until it has its answer: [pi_raw] tells whether the terminal can be
    put in raw mode, [pi_reads] holds what the reads return; the read after the last
    one fails. [Exit] ends the process, [Crash] is an index out of range. *)
Record prompt_input : Type := MkPrompt { pi_raw : bool; pi_reads : list (list ascii) }.
Inductive answer (A : Type) : Type := Answer (a : A) | Exit | Crash.
Arguments Answer {A}. Arguments Exit {A}. Arguments Crash {A}.

(** The keys the menus know, from the bytes of one read. *)
Inductive key : Type := KSpace | KEnter | KDown | KUp | KQuit | KOther.
Definition key_of (buf : list ascii) : key :=
  match N_of_ascii <$> buf with
  | [32%N] => KSpace
  | [13%N] | [10%N] => KEnter
  | [106%N] | [27%N; 91%N; 66%N] => KDown
  | [107%N] | [27%N; 91%N; 65%N] => KUp
  | [113%N] | [3%N] => KQuit
  | _ => KOther
  end.

Definition allSelected (checked : list bool) : bool := forallb id checked.
Definition chosen {A} (items : list A) (checked : list bool) : list A :=
  omap (λ p : A * bool, if p.2 then Some p.1 else None) (zip items checked).

(** Row 0 is "Select all". *)
Definition toggle (cursor : nat) (checked : list bool) : option (list bool) :=
  match cursor with
  | O => Some ((λ _, negb (allSelected checked)) <$> checked)
  | S i => match checked !! i with Some b => Some (<[i := negb b]> checked) | None => None end
  end.

Fixpoint multi_loop (networks : list Network) (cursor : nat) (checked : list bool) (reads : list (list ascii)) : answer (list Network) :=
  let totalItems := S (length networks) in
  match reads with
  | [] => Answer (chosen networks checked)
  | buf :: reads =>
      match key_of buf with
      | KSpace => match toggle cursor checked with
                  | Some checked => multi_loop networks cursor checked reads
                  | None => Crash
                  end
      | KEnter => Answer (chosen networks checked)
      | KDown => multi_loop networks ((cursor + 1) mod totalItems) checked reads
      | KUp => multi_loop networks ((cursor + totalItems - 1) mod totalItems) checked reads
      | KQuit => Exit
      | KOther => multi_loop networks cursor checked reads
      end
  end.
Definition multiSelect (p : prompt_input) (networks : list Network) : answer (list Network) :=
  if pi_raw p then multi_loop networks 0 (replicate (length networks) true) (pi_reads p) else Answer networks.

Record selectOption : Type := MkOption { so_value : string; so_label : string; so_desc : string; so_unavailable : bool }.

Definition usable (options : list selectOption) (i : nat) : bool :=
  match options !! i with Some o => negb (so_unavailable o) | None => false end.
Definition value_at (options : list selectOption) (i : nat) : answer string :=
  match options !! i with Some o => Answer (so_value o) | None => Crash end.

(** [next] is one move of the cursor; at most [n] are made. *)
Fixpoint skip_unavailable (options : list selectOption) (next : nat → nat) (n cursor : nat) : nat :=
  match n with
  | O => cursor
  | S n => let cursor := next cursor in if usable options cursor then cursor else skip_unavailable options next n cursor
  end.
Definition forward (total cursor : nat) : nat := (cursor + 1) mod total.
Definition backward (total cursor : nat) : nat := (cursor + total - 1) mod total.

Fixpoint single_loop (options : list selectOption) (cursor : nat) (reads : list (list ascii)) : answer string :=
  let totalItems := length options in
  match reads with
  | [] => value_at options cursor
  | buf :: reads =>
      match key_of buf with
      | KEnter => value_at options cursor
      | KDown => single_loop options (skip_unavailable options (forward totalItems) totalItems cursor) reads
      | KUp => single_loop options (skip_unavailable options (backward totalItems) totalItems cursor) reads
      | KQuit => Exit
      | KSpace | KOther => single_loop options cursor reads
      end
  end.

(** The loop before the menu is drawn: on while the row is unavailable. *)
Fixpoint first_usable (options : list selectOption) (n cursor : nat) : nat :=
  match n with
  | O => cursor
  | S n => if usable options cursor then cursor else first_usable options n (forward (length options) cursor)
  end.

Definition singleSelect (p : prompt_input) (options : list selectOption) (initial : nat) : answer string :=
  match options with
  | [] => Answer ""
  | _ =>
      let initial := if (length options <=? initial)%nat then 0 else initial in
      let cursor := first_usable options (length options) initial in
      if negb (usable options cursor) then Answer ""
      else if pi_raw p then single_loop options cursor (pi_reads p) else value_at options cursor
  end.

Definition backend_options (systemKeyring : bool) : list selectOption := [
  MkOption "os" "os" (if systemKeyring then "System keyring (recommended)" else "System keyring — unavailable on this host") (negb systemKeyring);
  MkOption "file" "file" "File-based encrypted keyring" false;
  MkOption "test" "test" "Unencrypted test keyring (development only)" false].
Definition selectKeyringBackend (p : prompt_input) (systemKeyring : bool) : answer string := singleSelect p (backend_options systemKeyring) 0.

Definition isMainnetName (name : string) : bool := strings_Contains (ToLower name) "mainnet".
Definition networkRisk (name : string) : string :=
  let lower := ToLower name in
  if isMainnetName lower then "live network - transactions spend real AKT"
  else if strings_Contains lower "sandbox" || strings_Contains lower "testnet" || strings_Contains lower "test" then "test network - tokens have no value"
  else "".

(** The first of [networks] that is not mainnet and has [want] in its name. *)
Definition recognized (networks : list Network) (want : string) : option string :=
  net_Name <$> List.find (λ n, negb (isMainnetName (net_Name n)) && strings_Contains (ToLower (net_Name n)) want) networks.
Definition pickInitialContext (networks : list Network) : string :=
  match networks with
  | [] => ""
  | n0 :: _ =>
      match omap (recognized networks) ["sandbox"; "testnet"; "test"] with
      | name :: _ => name
      | [] => match List.find (λ n, negb (isMainnetName (net_Name n))) networks with Some n => net_Name n | None => net_Name n0 end
      end
  end.

Definition context_option (n : Network) : selectOption :=
  MkOption (net_Name n) (net_Name n) (TrimSpace (pad_right 14 (net_ChainID n) +:+ " " +:+ networkRisk (net_Name n))) false.
(** The last row with the preferred name. *)
Fixpoint row_of (preferred : string) (i initial : nat) (networks : list Network) : nat :=
  match networks with
  | [] => initial
  | n :: networks => row_of preferred (S i) (if bool_decide (net_Name n = preferred) then i else initial) networks
  end.
Definition selectActiveContext (p : prompt_input) (networks : list Network) : answer string :=
  match networks with
  | [] => Answer ""
  | _ => singleSelect p (context_option <$> networks) (row_of (pickInitialContext networks) 0 0 networks)
  end.

(** ** The Console step (console.go) *)
Definition parseYesNo (input : string) (def : bool) : bool :=
  let s := ToLower (TrimSpace input) in
  if bool_decide (s ∈ ["y"; "yes"]) then true else if bool_decide (s ∈ ["n"; "no"]) then false else def.
(** [None] is a read that fails. *)
Definition promptYesNo (line : option string) (def : bool) : bool := match line with Some line => parseYesNo line def | None => def end.
Definition promptSecret (data : option string) : string := match data with Some s => TrimSpace s | None => "" end.

Record console_answers : Type := MkConsoleAnswers { ca_configure : option string; ca_secret : option string; ca_route : option string }.
Definition consoleOnboarding (terminal : bool) (a : console_answers) : string * bool :=
  if negb terminal then ("", false)
  else if negb (promptYesNo (ca_configure a) false) then ("", false)
  else
    let key := promptSecret (ca_secret a) in
    if bool_decide (key = "") then ("", false) else (key, promptYesNo (ca_route a) false).

(** ** The wizard *)
Definition new_context (name : string) : Context_ :=
  MkContext name (network_named name) (keyring_named defaultKeyringName) "" "" "" [] "auto" "" "jwt" "" "" "" "" "".
Definition set_ctx_AuthMethod (v : string) (c : Context_) : Context_ :=
  let 'MkContext a b d _ f g h i j k l m n o p := c in MkContext a b d v f g h i j k l m n o p.

Definition wizard_config (selected : list Network) (backend currentCtx : string) (routeConsole : bool) : config :=
  let contexts := new_context ∘ net_Name <$> selected in
  MkConfig ConfigVersion currentCtx selected [MkKeyring defaultKeyringName backend ""]
    (if routeConsole then (λ c, if bool_decide (ctx_Name c = currentCtx) then set_ctx_AuthMethod AuthMethodConsoleAPI c else c) <$> contexts else contexts)
    (MkTUI "" "" ∅ "") (MkPlugins [] []) (MkDefaults "pretty" "sync" "").

Definition chainIDOf (networks : list Network) (name : string) : string :=
  match List.find (λ n, bool_decide (net_Name n = name)) networks with Some n => net_ChainID n | None => "" end.

Definition dquote : string := String (ascii_of_N 34) "".
Definition KeyringServiceName : string := "akt".
Definition LegacyKeyringServiceName : string := "akash".

Definition destinationLines (cfgRoot : string) : list string := [
  "Configuration directory:  " +:+ cfgRoot;
  "Config file to write:     " +:+ ConfigPath cfgRoot;
  "";
  "Override the location with --home <dir> or AKT_HOME=<dir>";
  "(resolution order: --home, AKT_HOME, $XDG_CONFIG_HOME/akt, ~/.config/akt).";
  "Nothing is written until the prompts below are complete."].

Definition keyringLocation (cfgRoot backend : string) : string :=
  if bool_decide (backend = "os") then "system keyring, service " +:+ dquote +:+ KeyringServiceName +:+ dquote
  else KeyringDir cfgRoot (keyring_named defaultKeyringName) +:+ pendingSuffix.

Definition summaryLines (cfgRoot currentCtx chainID backend : string) : list string :=
  let active := if bool_decide (chainID = "") then currentCtx else currentCtx +:+ " (" +:+ chainID +:+ ")" in
  let kv label value := "  " +:+ pad_right 16 label +:+ " " +:+ value in
  [kv "Config" (ConfigPath cfgRoot); kv "Active Context" active;
   kv "Context Dir" (ContextDir cfgRoot currentCtx +:+ pendingSuffix); kv "Store" (StoreDir cfgRoot currentCtx +:+ pendingSuffix);
   kv "Action Log" (ActionLogPath cfgRoot currentCtx +:+ pendingSuffix); kv "Keyring" (keyringLocation cfgRoot backend);
   "";
   "No account is configured yet. Next:";
   "  akt context keys add <name>              create a new account";
   "  akt context keys add <name> --recover    import an existing mnemonic";
   "  akt context show                         review this context"].

(** *** The home of the legacy CLI (legacy.go)

    The two questions the probe may ask: whether a path is a directory, and the paths
    a pattern matches ([None] is an error). *)
Record probes : Type := MkProbes { pb_isDir : string → bool; pb_Glob : string → option (list string) }.
Definition legacyDirName : string := ".akash".
Definition legacyKeyringFileDir : string := "keyring-file".
Definition legacyKeyringTestDir : string := "keyring-test".

Record legacyHome : Type := MkLegacy { lh_Path : string; lh_Exists : bool; lh_Certs : list string; lh_KeyringFile : bool; lh_KeyringTest : bool }.
Definition Found (l : legacyHome) : bool :=
  lh_Exists l && (negb (bool_decide (lh_Certs l = [])) || lh_KeyringFile l || lh_KeyringTest l).

(** [filepath.Base], over the reversed path. *)
Fixpoint strip_slashes (rev : list ascii) : list ascii :=
  match rev with c :: r => if bool_decide (c = "/"%char) then strip_slashes r else rev | [] => [] end.
Fixpoint until_slash (rev : list ascii) : list ascii :=
  match rev with c :: r => if bool_decide (c = "/"%char) then [] else c :: until_slash r | [] => [] end.
Definition Base (p : string) : string :=
  if bool_decide (p = "") then "."
  else match strip_slashes (reverse (bytes_of p)) with
       | [] => "/"
       | rev => of_bytes (reverse (until_slash rev))
       end.

Definition detectLegacyHome (pb : probes) (homeDir : string) : legacyHome :=
  if bool_decide (homeDir = "") then MkLegacy "" false [] false false
  else
    let path := Join [homeDir; legacyDirName] in
    if negb (pb_isDir pb path) then MkLegacy path false [] false false
    else MkLegacy path true (Base <$> default [] (pb_Glob pb (Join [path; "*.pem"])))
           (pb_isDir pb (Join [path; legacyKeyringFileDir])) (pb_isDir pb (Join [path; legacyKeyringTestDir])).

Definition quoted (s : string) : string := dquote +:+ s +:+ dquote.
Definition found_lines (l : legacyHome) : list string :=
  ((λ name, "  " +:+ Join [lh_Path l; name] +:+ "  (client certificate)") <$> lh_Certs l)
  ++ (if lh_KeyringFile l then ["  " +:+ Join [lh_Path l; legacyKeyringFileDir] +:+ "  (file keyring)"] else [])
  ++ (if lh_KeyringTest l then ["  " +:+ Join [lh_Path l; legacyKeyringTestDir] +:+ "  (test keyring)"] else []).
Definition legacyNoticeLines (l : legacyHome) (cfgRoot backend : string) : list string :=
  if negb (Found l) then []
  else
    ["An existing Akash CLI home was found at " +:+ lh_Path l;
     "Nothing in it is carried over automatically, and there is no import";
     "command. akt never reads, modifies, or deletes anything inside it.";
     "";
     "Found:"]
    ++ found_lines l
    ++ ["";
        "Why none of it is visible to akt:";
        "  os keyring    the legacy CLI stores entries under the system keyring";
        "                service " +:+ quoted LegacyKeyringServiceName +:+ "; akt uses " +:+ quoted KeyringServiceName;
        "  file keyring  akt keeps keyrings in " +:+ KeyringDir cfgRoot (keyring_named defaultKeyringName);
        "  certificates  akt looks for <address>.pem in " +:+ cfgRoot;
        "";
        "Recovering your account (same address, same on-chain identity):";
        "  akt context keys add <name> --recover";
        "";
        "Your published certificate is still valid. It is on-chain state, not a";
        "local file. Confirm it with:";
        "  akt query cert list <address>";
        "";
        "Only the local half is in the wrong place. Once the key is in akt's";
        "keyring, copy it across:";
        "  cp " +:+ Join [lh_Path l; "<address>.pem"] +:+ " " +:+ Join [cfgRoot; "<address>.pem"];
        "";
        "The PEM password is derived from a keyring signature over the address, so";
        "the copy works as-is: no re-publish, no transaction. Regenerating instead";
        "broadcasts a transaction and pays a fee:";
        "  akt tx cert generate client";
        "  akt tx cert publish client"]
    ++ (if bool_decide (backend = "os") then
          ["";
           "You chose the os keyring backend, so a recovered key is written to the";
           "system keyring under service " +:+ quoted KeyringServiceName +:+ ". The legacy " +:+ quoted LegacyKeyringServiceName +:+ " entries are left";
           "untouched."]
        else []).

(** *** Run *)
Record wizard_input : Type := MkWizard {
  wi_terminal : bool; wi_networks : prompt_input; wi_backend : prompt_input; wi_context : prompt_input; wi_console : console_answers;
  wi_save : faults; wi_key : key_faults; wi_home : option string; wi_probes : probes;
}.
Inductive outcome : Type := Finished (r : result unit) | Exited | Crashed.

Section run.
Context `{GasPriceOps} {W K : Type} `{Host W K}.

(** [f] are the files, [w] the host; the result carries the closing lines. *)
Definition Run (get : github) (i : wizard_input) (cfgRoot : string) (f : fs) (w : W) : fs * list string * outcome :=
  if negb (wi_terminal i) then (f, [], Finished (Ok tt))
  else match map_err (Wrapf "fetch networks: %w" []) (fetchAllNetworks get) with
  | Err e => (f, [], Finished (Err e))
  | Panic => (f, [], Crashed)
  | Ok [] => (f, [], Finished (failf "no networks found in akash-network/net repo" []))
  | Ok networks =>
      match multiSelect (wi_networks i) networks with
      | Exit => (f, [], Exited)
      | Crash => (f, [], Crashed)
      | Answer [] => (f, [], Exited)
      | Answer selected =>
          match selectKeyringBackend (wi_backend i) (SystemKeyringAvailable w).2 with
          | Exit => (f, [], Exited)
          | Crash => (f, [], Crashed)
          | Answer backend =>
              match selectActiveContext (wi_context i) selected with
              | Exit => (f, [], Exited)
              | Crash => (f, [], Crashed)
              | Answer currentCtx =>
                  let '(consoleKey, routeConsole) := consoleOnboarding (wi_terminal i) (wi_console i) in
                  let '(f, saved) := SaveConfig (wi_save i) cfgRoot f (wizard_config selected backend currentCtx routeConsole) in
                  match map_err (Wrapf "write config: %w" []) saved with
                  | Ok _ =>
                      let '(f, stored) := if bool_decide (consoleKey = "") then (f, Ok tt) else SetConsoleAPIKey (wi_key i) cfgRoot currentCtx consoleKey f in
                      match map_err (Wrapf "store console api key: %w" []) stored with
                      | Ok _ =>
                          (f, summaryLines cfgRoot currentCtx (chainIDOf selected currentCtx) backend
                              ++ match wi_home i with
                                 | Some home => legacyNoticeLines (detectLegacyHome (wi_probes i) home) cfgRoot backend
                                 | None => []
                                 end, Finished (Ok tt))
                      | r => (f, [], Finished r)
                      end
                  | r => (f, [], Finished r)
                  end
              end
          end
      end
  end.
End run.
