(* ===== verification/BootstrapProps.v ===== *)
(** * Properties of the first-run wizard

    The menus never answer with a row that cannot be had, the active context is never
    mainnet by accident, and the configuration the wizard leaves is well formed and
    resolves. *)

From Stdlib Require Import Ascii.
From stdpp Require Import sorting base gmap strings pretty option numbers list.
From S2P Require Import Prelude GoStd GoJson Context ContextSpec Manager ManagerSpec ManagerProps ConfigDoc Workflow GoText KeyringMgr Bootstrap.

(** ** Moving through a menu *)
Section menu.
Context (options : list selectOption).
Abbreviation total := (length options).
Implicit Types (c n : nat).

Lemma usable_lt c : usable options c = true → c < total.
Proof. unfold usable. destruct (options !! c) eqn:E; [|done]. intros _. by eapply lookup_lt_Some. Qed.

Lemma skip_spec next n : ∀ c, usable options (skip_unavailable options next n c) = true ∨ skip_unavailable options next n c = Nat.iter n next c.
Proof.
  induction n as [|n IH]; intros c; [by right|]. cbn [skip_unavailable]. destruct (usable options (next c)) eqn:E; [by left|].
  rewrite Nat.iter_succ_r. apply IH.
Qed.

Lemma iter_forward n c : c < total → Nat.iter n (forward total) c = (c + n) mod total.
Proof.
  intros Hc. induction n as [|n IH]; [by rewrite Nat.add_0_r, Nat.mod_small|]. cbn [Nat.iter nat_rect]. fold (Nat.iter n (forward total) c).
  rewrite IH. unfold forward. rewrite Nat.Div0.add_mod_idemp_l. f_equal. lia.
Qed.
Lemma iter_backward n c : c < total → Nat.iter n (backward total) c = (c + n * (total - 1)) mod total.
Proof.
  intros Hc. induction n as [|n IH]; [by rewrite Nat.add_0_r, Nat.mod_small|]. cbn [Nat.iter nat_rect]. fold (Nat.iter n (backward total) c).
  rewrite IH. unfold backward. replace (_ mod _ + total - 1) with ((c + n * (total - 1)) mod total + (total - 1)) by lia.
  rewrite Nat.Div0.add_mod_idemp_l. f_equal. lia.
Qed.

(** A full turn comes back to where it started. *)
Lemma full_turn c : c < total → Nat.iter total (forward total) c = c ∧ Nat.iter total (backward total) c = c.
Proof.
  intros Hc. rewrite iter_forward, iter_backward by done. split.
  - replace (c + total) with (c + 1 * total) by lia. by rewrite Nat.Div0.mod_add, Nat.mod_small.
  - rewrite (Nat.mul_comm total), Nat.Div0.mod_add. by apply Nat.mod_small.
Qed.

Lemma move_usable next c : next = forward total ∨ next = backward total → usable options c = true →
  usable options (skip_unavailable options next total c) = true.
Proof.
  intros Hn Hc. destruct (skip_spec next total c) as [|E]; [done|]. rewrite E.
  destruct (full_turn c (usable_lt c Hc)) as [Hf Hb]. destruct Hn as [->| ->]; [by rewrite Hf|by rewrite Hb].
Qed.

(** What a menu may answer. *)
Definition offered (a : answer string) : Prop :=
  match a with Answer v => ∃ o, o ∈ options ∧ so_value o = v ∧ so_unavailable o = false | Exit => True | Crash => False end.

Lemma value_at_offered c : usable options c = true → offered (value_at options c).
Proof.
  unfold usable, value_at. destruct (options !! c) as [o|] eqn:E; [|done]. intros Hu%negb_true_iff. exists o. split_and!; [|done..].
  by eapply list_elem_of_lookup_2.
Qed.

Lemma single_loop_offered reads : ∀ c, usable options c = true → offered (single_loop options c reads).
Proof.
  induction reads as [|buf reads IH]; intros c Hc; cbn [single_loop]; [by apply value_at_offered|].
  destruct (key_of buf); [by apply IH|by apply value_at_offered|apply IH, move_usable; auto..|done|by apply IH].
Qed.

(** Every row has been looked at. *)
Lemma first_usable_spec n : ∀ c, c < total → usable options (first_usable options n c) = true ∨ ∀ k, k < n → usable options ((c + k) mod total) = false.
Proof.
  induction n as [|n IH]; intros c Hc; [right; lia|]. cbn [first_usable]. destruct (usable options c) eqn:Eu; [by left|].
  destruct (IH (forward total c)) as [|Hk]; [apply Nat.mod_upper_bound; lia|by left|]. right. intros [|k] Hlt.
  - by rewrite Nat.add_0_r, Nat.mod_small.
  - rewrite <- (Hk k) by lia. unfold forward. rewrite Nat.Div0.add_mod_idemp_l. do 2 f_equal. lia.
Qed.

Lemma first_usable_none c : c < total → usable options (first_usable options total c) = false → Forall (λ o, so_unavailable o = true) options.
Proof.
  intros Hc Hn. destruct (first_usable_spec total c Hc) as [He|Hk]; [by rewrite Hn in He|].
  apply Forall_lookup_2. intros i o Hi. pose proof (lookup_lt_Some _ _ _ Hi) as Hlt.
  assert (usable options i = false) as Hu.
  { rewrite <- (Hk ((i + total - c) mod total)) by (apply Nat.mod_upper_bound; lia). f_equal.
    rewrite Nat.Div0.add_mod_idemp_r. replace (c + (i + total - c)) with (i + 1 * total) by lia.
    by rewrite Nat.Div0.mod_add, Nat.mod_small. }
  unfold usable in Hu. rewrite Hi in Hu. by apply negb_false_iff in Hu.
Qed.

Lemma first_usable_id n c : usable options c = true → first_usable options n c = c.
Proof. destruct n; cbn [first_usable]; [done|]. by intros ->. Qed.
End menu.

(** A prompt answered with the enter key, or not at all. *)
Definition accepted (p : prompt_input) : Prop :=
  pi_raw p = false ∨ pi_reads p = [] ∨ ∃ buf reads, pi_reads p = buf :: reads ∧ key_of buf = KEnter.

Lemma single_select_spec (p : prompt_input) (options : list selectOption) (initial : nat) : options ≠ [] →
  (Forall (λ o, so_unavailable o = true) options ∧ singleSelect p options initial = Answer "" ∨ offered options (singleSelect p options initial)) ∧
  (∀ o, options !! initial = Some o → so_unavailable o = false → accepted p → singleSelect p options initial = Answer (so_value o)).
Proof.
  intros Hne. assert (∀ i, i < length options → (length options <=? i)%nat = false) as Hle by (intros i Hi; apply Nat.leb_gt; lia).
  assert (0 < length options) as Hpos by (destruct options; [done|cbn; lia]).
  unfold singleSelect. destruct options as [|o0 rest] eqn:Eo; [done|]. rewrite <- Eo in *. split.
  - set (c0 := if (length options <=? initial)%nat then 0 else initial). assert (c0 < length options) as Hc0.
    { unfold c0. destruct (length options <=? initial)%nat eqn:El; [done|]. apply Nat.leb_gt in El. lia. }
    destruct (usable options (first_usable options (length options) c0)) eqn:Eu; cbn [negb].
    + right. destruct (pi_raw p); [by apply single_loop_offered|by apply value_at_offered].
    + left. split; [|done]. by eapply first_usable_none.
  - intros o Hi Hu Hp. rewrite Hle by (by eapply lookup_lt_Some).
    assert (usable options initial = true) as Hus by (unfold usable; by rewrite Hi, Hu).
    rewrite first_usable_id, Hus by done. cbn [negb].
    assert (value_at options initial = Answer (so_value o)) as Hv by (unfold value_at; by rewrite Hi).
    destruct (pi_raw p) eqn:Er; [|done]. destruct Hp as [Hp|[Hp|(buf & reads & Hp & Hk)]]; [by rewrite Er in Hp|by rewrite Hp|].
    rewrite Hp. cbn [single_loop]. by rewrite Hk.
Qed.

(** A menu never answers with a row the host cannot provide and never indexes out
    of its rows, whatever keys are pressed and however the terminal behaves. It
    answers with nothing exactly when every row is unavailable; accepted as it is
    drawn it answers with the row it was to start on, when that row can be had. *)
Theorem single_select_safe (p : prompt_input) (options : list selectOption) (initial : nat) : options ≠ [] →
  (Forall (λ o, so_unavailable o = true) options ∧ singleSelect p options initial = Answer "" ∨ offered options (singleSelect p options initial)) ∧
  (∀ o, options !! initial = Some o → so_unavailable o = false → accepted p → singleSelect p options initial = Answer (so_value o)).
Proof. apply single_select_spec. Qed.

(** ** The active context *)
Lemma recognized_spec networks want name : recognized networks want = Some name →
  ∃ n, n ∈ networks ∧ net_Name n = name ∧ isMainnetName name = false.
Proof.
  unfold recognized. destruct (List.find _ _) as [n|] eqn:E; [|done]. intros [= <-].
  apply List.find_some in E as [Hin [Hm _]%andb_true_iff]. exists n. rewrite list_elem_of_In. apply negb_true_iff in Hm. done.
Qed.

(** The preferred context is one of the networks, and not mainnet while there is another. *)
Lemma pickInitialContext_spec networks : networks ≠ [] →
  ∃ n, n ∈ networks ∧ net_Name n = pickInitialContext networks ∧
    (isMainnetName (net_Name n) = true → Forall (λ n, isMainnetName (net_Name n) = true) networks).
Proof.
  intros Hne. unfold pickInitialContext. destruct networks as [|n0 rest] eqn:En; [done|]. rewrite <- En in *.
  destruct (omap (recognized networks) _) as [|name l] eqn:Eo.
  - destruct (List.find _ networks) as [n|] eqn:Ef.
    + apply List.find_some in Ef as [Hin Hm%negb_true_iff]. exists n. rewrite list_elem_of_In. split_and!; [done..|]. by rewrite Hm.
    + exists n0. split_and!; [rewrite En; left|done|]. intros _. apply Forall_forall. intros n Hn%list_elem_of_In.
      by apply (List.find_none _ _ Ef), negb_false_iff in Hn.
  - assert (name ∈ omap (recognized networks) ["sandbox"; "testnet"; "test"]) as (want & _ & Hw)%list_elem_of_omap by (rewrite Eo; left).
    apply recognized_spec in Hw as (n & Hin & <- & Hm). exists n. split_and!; [done..|]. by rewrite Hm.
Qed.

Lemma row_of_spec preferred networks : ∀ i initial, preferred ∈ net_Name <$> networks →
  ∃ j n, row_of preferred i initial networks = (i + j)%nat ∧ networks !! j = Some n ∧ net_Name n = preferred.
Proof.
  induction networks as [|n networks IH]; intros i initial Hin; [by apply not_elem_of_nil in Hin|]. cbn [row_of].
  destruct (decide (preferred ∈ net_Name <$> networks)) as [Hl|Hl].
  - destruct (IH (S i) (if bool_decide (net_Name n = preferred) then i else initial) Hl) as (j & n' & Hr & Hj & Hn').
    exists (S j), n'. split_and!; [rewrite Hr; lia|done..].
  - csimpl in Hin. apply elem_of_cons in Hin as [->|?]; [|done]. rewrite bool_decide_eq_true_2 by done. exists 0, n.
    split_and!; [|done..]. clear -Hl. rewrite Nat.add_0_r. revert Hl. generalize (S i) as k. induction networks as [|m networks IH]; intros k Hl; [done|].
    csimpl in Hl. apply not_elem_of_cons in Hl as [Hm Hl]. cbn [row_of]. rewrite bool_decide_eq_false_2 by done. by apply IH.
Qed.

Lemma context_options networks : Forall (λ o, so_unavailable o = false) (context_option <$> networks).
Proof. apply Forall_fmap, Forall_forall. done. Qed.

Lemma active_context_spec p networks : networks ≠ [] →
  match selectActiveContext p networks with
  | Answer name => name ∈ net_Name <$> networks ∧
      (accepted p → isMainnetName name = true → Forall (λ n, isMainnetName (net_Name n) = true) networks)
  | Exit => True
  | Crash => False
  end.
Proof.
  intros Hne. destruct (pickInitialContext_spec networks Hne) as (n & Hin & Hpick & Hmain).
  assert (pickInitialContext networks ∈ net_Name <$> networks) as Hp by (rewrite <- Hpick; by apply list_elem_of_fmap_2).
  destruct (row_of_spec _ _ 0 0 Hp) as (j & m & Hrow & Hj & Hm). cbn [Nat.add] in Hrow.
  assert (selectActiveContext p networks = singleSelect p (context_option <$> networks) j) as ->.
  { unfold selectActiveContext. rewrite Hrow. by destruct networks. }
  destruct (single_select_spec p (context_option <$> networks) j) as [Hs Ha].
  { intros E%fmap_nil_inv. done. }
  destruct Hs as [[Hall _]|Hs].
  { exfalso. destruct networks as [|x l]; [done|]. apply Forall_cons in Hall as [Hx _]. done. }
  assert (accepted p → singleSelect p (context_option <$> networks) j = Answer (net_Name m)) as Hacc.
  { intros Hac. apply (Ha (context_option m)); [by rewrite list_lookup_fmap, Hj|done..]. }
  destruct (singleSelect _ _ _) as [name| |]; [|done..]. destruct Hs as (o & (x & -> & Hx)%list_elem_of_fmap & <- & _). split.
  - by apply (list_elem_of_fmap_2 net_Name).
  - intros Hac. specialize (Hacc Hac). injection Hacc as Hv. change (net_Name x = net_Name m) in Hv.
    change (so_value (context_option x)) with (net_Name x). by rewrite Hv, Hm, <- Hpick.
Qed.

(** The active context is always one of the networks the user selected, and a
    prompt accepted as it is drawn, or a terminal that cannot be read, never makes it
    mainnet while another network was selected: spending real tokens takes a
    deliberate key. *)
Theorem active_context_safe p networks : networks ≠ [] →
  match selectActiveContext p networks with
  | Answer name => name ∈ net_Name <$> networks ∧
      (accepted p → isMainnetName name = true → Forall (λ n, isMainnetName (net_Name n) = true) networks)
  | Exit => True
  | Crash => False
  end.
Proof. apply active_context_spec. Qed.

(** ** The networks *)
Lemma chosen_sublist {A} (items : list A) : ∀ checked, chosen items checked `sublist_of` items.
Proof.
  unfold chosen. induction items as [|x items IH]; intros [|b checked]; cbn; [done..|apply sublist_nil_l|].
  destruct b; cbn; [apply sublist_skip, IH|apply sublist_cons, IH].
Qed.

Lemma toggle_length cursor checked : cursor ≤ length checked → ∃ checked', toggle cursor checked = Some checked' ∧ length checked' = length checked.
Proof.
  intros Hc. destruct cursor as [|i]; cbn [toggle]; [eexists; split; [done|apply length_fmap]|].
  destruct (lookup_lt_is_Some_2 checked i) as [b ->]; [lia|]. eexists. split; [done|apply length_insert].
Qed.

Lemma multi_loop_spec networks reads : ∀ cursor checked, cursor ≤ length networks → length checked = length networks →
  match multi_loop networks cursor checked reads with Answer l => l `sublist_of` networks | Exit => True | Crash => False end.
Proof.
  induction reads as [|buf reads IH]; intros cursor checked Hc Hl; cbn [multi_loop]; [apply chosen_sublist|].
  destruct (key_of buf); [|apply chosen_sublist| | |done|by apply IH].
  - destruct (toggle_length cursor checked) as (checked' & -> & Hl'); [lia|]. apply IH; [done|by rewrite Hl'].
  - apply IH; [|done]. apply Nat.lt_succ_r, Nat.mod_upper_bound. lia.
  - apply IH; [|done]. apply Nat.lt_succ_r, Nat.mod_upper_bound. lia.
Qed.

Lemma multiSelect_spec p networks :
  match multiSelect p networks with Answer l => l `sublist_of` networks | Exit => True | Crash => False end.
Proof. unfold multiSelect. destruct (pi_raw p); [|done]. apply multi_loop_spec; [lia|apply length_replicate]. Qed.

Section wizard.
Context `{GasPriceOps} {W K : Type} `{Host W K}.
Implicit Types (get : github).

Lemma fetch_network_spec get dir n : fetch_network get dir = Some n → net_Name n = dir ∧ net_ChainID n ≠ "".
Proof.
  unfold fetch_network. destruct (fetchMeta get dir) as [meta| |]; [|done..]. case_bool_decide as Hc; [done|]. by intros [= <-].
Qed.

Lemma fetched_names get dirs : net_Name <$> omap (fetch_network get) dirs `sublist_of` dirs.
Proof.
  induction dirs as [|d dirs IH]; [done|]. cbn [omap list_omap]. destruct (fetch_network get d) as [n|] eqn:E; csimpl; [|by apply sublist_cons].
  destruct (fetch_network_spec _ _ _ E) as [-> _]. by apply sublist_skip.
Qed.

Lemma fetchAllNetworks_no_panic get : fetchAllNetworks get ≠ Panic.
Proof.
  unfold fetchAllNetworks, listRepoDirs, get_json. destruct (get netRepoAPI) as [e|[status body]]; [done|].
  destruct (negb _); [done|]. destruct body as [e|j]; [done|]. by destruct (j ≫= _).
Qed.

(** What the user selected: fetched networks with distinct plain names and a chain. *)
Record selection (l : list Network) : Prop := {
  sel_some : l ≠ [];
  sel_names : NoDup (net_Name <$> l);
  sel_plain : Forall plain (net_Name <$> l);
  sel_chain : Forall (λ n, net_ChainID n ≠ "") l;
}.

Lemma selected_ok get dirs l : listRepoDirs get = Ok dirs → NoDup dirs → Forall plain dirs →
  l ≠ [] → l `sublist_of` omap (fetch_network get) dirs → selection l.
Proof.
  intros Hd Hnd Hp Hne Hs. assert (net_Name <$> l `sublist_of` dirs) as Hnames.
  { etrans; [|apply fetched_names]. by apply fmap_sublist. }
  split; [done|by eapply sublist_NoDup| |].
  - apply Forall_forall. intros x Hx. rewrite Forall_forall in Hp. apply Hp. by eapply elem_of_sublist.
  - apply Forall_forall. intros n Hn. pose proof (elem_of_sublist _ _ _ Hn Hs) as (d & _ & Hf)%list_elem_of_omap.
    apply (fetch_network_spec _ _ _ Hf).
Qed.

(** ** The configuration *)
Lemma wizard_context_names l backend current route : context_names (wizard_config l backend current route) = net_Name <$> l.
Proof.
  unfold context_names, wizard_config. cbn [cfg_Contexts]. destruct route; rewrite <- ?list_fmap_compose; apply list_fmap_ext; intros i n _; [|done].
  cbn. by case_bool_decide.
Qed.

Lemma wizard_config_wf l backend current route : selection l → current ∈ net_Name <$> l → cfg_wf (wizard_config l backend current route).
Proof.
  intros [_ Hnd _ _] Hc. split.
  - done.
  - apply NoDup_singleton.
  - by rewrite wizard_context_names.
  - assert (∀ c n, n ∈ l → ctx_Network c = network_named (net_Name n) → ctx_Keyring c = keyring_named defaultKeyringName →
              ctx_ProviderAuthType c = "jwt" → refs_ok (net_Name <$> l) [defaultKeyringName] c) as Hrefs.
    { intros c n Hn Hnet Hkr Ha. split; [right; rewrite Hnet; cbn; by apply (list_elem_of_fmap_2 net_Name)|rewrite Hkr; by left|rewrite Ha; right; by left]. }
    unfold wizard_config. cbn [cfg_Contexts]. destruct route; rewrite <- ?list_fmap_compose; apply Forall_fmap, Forall_forall; intros n Hn;
      apply (Hrefs _ n Hn); cbn; try case_bool_decide; done.
  - right. by rewrite wizard_context_names.
Qed.

(** Nothing of it is lost on the way to the disk and back. *)
Lemma wizard_config_reloaded l backend current route :
  cfg_of (doc_of (wizard_config l backend current route)) = wizard_config l backend current route.
Proof.
  unfold cfg_of, doc_of, wizard_config, with_contexts. cbn. f_equal. destruct route; rewrite <- !list_fmap_compose; [|done].
  apply list_fmap_ext. intros i n _. cbn. by case_bool_decide.
Qed.

Lemma key_path_apart root name : plain name → ConsoleAPIKeyPath root name ≠ ConfigPath root.
Proof.
  intros Hn E. assert (Forall plain ["console-api-key"]) as Hk by (repeat constructor; try done; by apply (bool_decide_unpack _)).
  unfold ConsoleAPIKeyPath in E. rewrite Join_root, ConfigPath_prefix in E by done. apply (f_equal (λ s, last (bytes_of s))) in E.
  rewrite !bytes_of_app, !last_app in E. done.
Qed.

Lemma wizard_MkdirAll_keeps p (f : fs) q x : f !! q = Some x → os_MkdirAll p f !! q = Some x.
Proof.
  intros Hq. unfold os_MkdirAll. destruct (f !! Clean p) eqn:E; [done|]. rewrite lookup_insert_ne; [done|]. intros <-. by rewrite E in Hq.
Qed.

Lemma SetConsoleAPIKey_keeps fl root name key (f f' : fs) r x : plain name → SetConsoleAPIKey fl root name key f = (f', r) →
  key ≠ "" → f !! ConfigPath root = Some x → f' !! ConfigPath root = Some x.
Proof.
  intros Hp Hs Hk Hx. unfold SetConsoleAPIKey in Hs. rewrite bool_decide_eq_false_2 in Hs by done.
  pose proof (key_path_apart root name Hp) as Hne. pose proof (wizard_MkdirAll_keeps (ContextDir root name) f _ x Hx) as Hm.
  repeat case_match; simplify_eq; try done; by rewrite lookup_insert_ne.
Qed.

Lemma SaveConfig_Ok fl root (f f' : fs) cfg : SaveConfig fl root f cfg = (f', Ok tt) → f' !! ConfigPath root = Some (NConfig (Parsed (doc_of cfg))).
Proof.
  unfold SaveConfig. intros Hs. repeat case_match; simplify_eq; try done; by rewrite lookup_insert_eq.
Qed.

Lemma wizard_context l backend current route root (f : fs) name c :
  GetContext (MkManager root (wizard_config l backend current route) f) name = Some c →
  ctx_Network c = network_named name ∧ ctx_Keyring c = keyring_named defaultKeyringName.
Proof.
  unfold GetContext. destruct (getContext _ name) as [[i c']|] eqn:Ec; [|done]. intros [= <-].
  apply find_some in Ec as [Hi Hn]. cbn [m_cfg wizard_config cfg_Contexts] in Hi.
  destruct route; rewrite ?list_lookup_fmap in Hi; destruct (l !! i) as [n|]; cbn in Hi; try done; injection Hi as <-; revert Hn; cbn;
    try case_bool_decide; cbn; by intros ->.
Qed.

(** The active context resolves to its network, with the keyring of the wizard. *)
Lemma wizard_resolves env l backend current route root (f : fs) : selection l → current ∈ net_Name <$> l →
  ∃ ctx, Resolve env (MkManager root (wizard_config l backend current route) f) "" = Ok ctx ∧ ctx_Name ctx = current ∧
    ctx_Network ctx ∈ l ∧ net_Name (ctx_Network ctx) = current ∧ ctx_Keyring ctx = MkKeyring defaultKeyringName backend "".
Proof.
  intros Hsel Hc. pose proof (wizard_config_wf l backend current route Hsel Hc) as Hwf.
  pose proof (Resolve_exact env (MkManager root (wizard_config l backend current route) f) "" Hwf) as Hr.
  change (effective _ "") with current in Hr.
  assert (plain current) as Hpl by (destruct Hsel as [_ _ Hp _]; rewrite Forall_forall in Hp; by apply Hp).
  assert (current ≠ "") as Hne by apply Hpl. rewrite bool_decide_eq_false_2 in Hr by done.
  destruct (GetContext _ current) as [c|] eqn:Eg.
  2: { exfalso. unfold GetContext in Eg. destruct (getContext _ current) as [[]|] eqn:Ec; [done|].
       apply find_none in Ec. apply Ec. by rewrite <- (wizard_context_names l backend current route) in Hc. }
  apply wizard_context in Eg as [Hcn Hck]. destruct Hr as (ctx & Hres & Hname & Hnet & Hkr & _). exists ctx.
  rewrite Hcn in Hnet. rewrite Hck in Hkr. cbn in Hnet. rewrite bool_decide_eq_false_2 in Hnet by done.
  destruct (list_find _ l) as [[j n]|] eqn:En; [|done]. injection Hnet as <-. apply find_some in En as [Hj Hjn].
  split_and!; [done..|by eapply list_elem_of_lookup_2|done|by injection Hkr as <-].
Qed.

Lemma selectKeyringBackend_spec p available :
  match selectKeyringBackend p available with
  | Answer v => v ∈ ["os"; "file"; "test"] ∧ (v = "os" → available = true)
  | Exit => True
  | Crash => False
  end.
Proof.
  unfold selectKeyringBackend. destruct (single_select_spec p (backend_options available) 0) as [Hs _]; [done|].
  destruct Hs as [[Hall _]|Hs]; [by apply Forall_cons in Hall as [_ [[=] _]%Forall_cons]|].
  destruct (singleSelect _ _ _) as [v| |]; [|done..]. destruct Hs as (o & Ho & <- & Hu).
  apply elem_of_cons in Ho as [->|[->|[->|[]%not_elem_of_nil]%elem_of_cons]%elem_of_cons]; cbn in *; (split; [set_solver|]); [|done..].
  intros _. by apply negb_false_iff in Hu.
Qed.

(** What a finished run leaves on the disk. *)
Definition configured_by (root : string) (f : fs) (w : W) : Prop :=
  ∃ m backend, Manager.NewManager root f = Ok m ∧ cfg_wf (m_cfg m) ∧ backend ∈ ["os"; "file"; "test"] ∧
    (backend = "os" → (SystemKeyringAvailable w).2 = true) ∧
    ∀ env, ∃ ctx, Resolve env m "" = Ok ctx ∧ net_Name (ctx_Network ctx) = ctx_Name ctx ∧ net_ChainID (ctx_Network ctx) ≠ "" ∧
      ctx_Keyring ctx = MkKeyring defaultKeyringName backend "".

Lemma saved_configured root (f : fs) (w : W) l backend current route : selection l → current ∈ net_Name <$> l →
  backend ∈ ["os"; "file"; "test"] → (backend = "os" → (SystemKeyringAvailable w).2 = true) →
  f !! ConfigPath root = Some (NConfig (Parsed (doc_of (wizard_config l backend current route)))) → configured_by root f w.
Proof.
  intros Hsel Hc Hb Hos Hf. exists (MkManager root (wizard_config l backend current route) f), backend. split_and!.
  - unfold Manager.NewManager. rewrite (Load_saved root f _ Hf) by done. by rewrite wizard_config_reloaded.
  - by apply wizard_config_wf.
  - done.
  - done.
  - intros env. destruct (wizard_resolves env l backend current route root f Hsel Hc) as (ctx & Hr & Hn & Hin & Hnn & Hk).
    exists ctx. split_and!; [done|by rewrite Hn|  |done]. destruct Hsel as [_ _ _ Hch]. rewrite Forall_forall in Hch. by apply Hch.
Qed.

End wizard.

(** ** The properties at concrete inputs *)
Module FirstRun.
#[global] Instance prices : GasPriceOps := {| gas_price := string; parse_price s := Some s; price_positive s := negb (bool_decide (s = "0")); price_text s := s |}.
#[global] Instance headless : Host unit unit := {|
  GOOS := "linux"; registered := []; probe w _ _ := (w, false); MkdirAll w _ := (w, None); sdk_New w _ _ := (w, Ok tt) |}.

Definition entry (name kind : string) : json := JObj [("name", JStr name); ("type", JStr kind)].
Definition meta (chain : string) : json := JObj [("chain_id", JStr chain)].
Definition repo : github := λ url,
  if bool_decide (url = netRepoAPI) then inr (200%Z, inr (Some (JArr [entry "mainnet" "dir"; entry "README.md" "file"; entry "sandbox" "dir"])))
  else if bool_decide (url = netRepoRaw +:+ "/mainnet/meta.json") then inr (200%Z, inr (Some (meta "akashnet-2")))
  else if bool_decide (url = netRepoRaw +:+ "/sandbox/meta.json") then inr (200%Z, inr (Some (meta "sandbox-2")))
  else inr (404%Z, inr None).

Definition enter : prompt_input := MkPrompt true [[ascii_of_N 13]].
Definition quit : prompt_input := MkPrompt true [["j"%char]; ["q"%char]].
Definition no_probes : probes := MkProbes (λ _, false) (λ _, None).
Definition input (backend : prompt_input) : wizard_input :=
  MkWizard true enter backend enter (MkConsoleAnswers None None None) no_faults (MkKeyFaults None None None None) None no_probes.

Definition networks : list Network := [metaToNetwork "mainnet" (MkMeta "akashnet-2" [] [] [] [] []); metaToNetwork "sandbox" (MkMeta "sandbox-2" [] [] [] [] [])].

Lemma single_select_safe_witness : singleSelect enter (backend_options false) 1 = Answer "file".
Proof.
  apply (proj2 (single_select_safe enter (backend_options false) 1 ltac:(discriminate)) (MkOption "file" "file" "File-based encrypted keyring" false)).
  - reflexivity.
  - reflexivity.
  - right; right. exists [ascii_of_N 13], []. split; reflexivity.
Defined.

Lemma active_context_safe_witness : selectActiveContext enter networks = Answer "sandbox" ∧ "sandbox" ∈ net_Name <$> networks.
Proof.
  assert (selectActiveContext enter networks = Answer "sandbox") as E by (vm_compute; reflexivity).
  split; [exact E|]. pose proof (active_context_safe enter networks ltac:(discriminate)) as Hs. rewrite E in Hs. exact (proj1 Hs).
Defined.

Lemma repo_dirs dirs : listRepoDirs repo = Ok dirs → NoDup dirs ∧ Forall plain dirs.
Proof.
  assert (listRepoDirs repo = Ok ["mainnet"; "sandbox"]) as -> by (vm_compute; reflexivity). intros [= <-]. split.
  - apply (bool_decide_unpack _). vm_compute. exact I.
  - repeat constructor; try done; by apply (bool_decide_unpack _).
Qed.

End FirstRun.
