(* ===== verification/McpArgs.v ===== *)
(** * Arguments of the MCP tools (internal/mcp/argcheck.go, internal/mcp/marshal)

    The check of a call against the schema its tool declares, and the readers the
    handlers use. Arguments are decoded JSON, so every number is a float64: not a
    number, an infinity, or a dyadic fraction. Printing a float64 and dividing two of
    them are parameters. *)

From Stdlib Require Import Ascii.
From stdpp Require Import sorting base gmap strings pretty option numbers list.
From S2P Require Import Prelude GoStd GoJson Context Workflow.

(** ** float64 *)
Inductive f64 : Type := FNaN | FInf (negative : bool) | FFin (m e : Z). (* m * 2^e *)

Definition fin_compare (m1 e1 m2 e2 : Z) : comparison :=
  let e := Z.min e1 e2 in (m1 * 2 ^ (e1 - e) ?= m2 * 2 ^ (e2 - e))%Z.
(** [None] when one of them is not a number. *)
Definition f_compare (x y : f64) : option comparison :=
  match x, y with
  | FNaN, _ | _, FNaN => None
  | FInf a, FInf b => Some (match a, b with true, false => Lt | false, true => Gt | _, _ => Eq end)
  | FInf a, FFin _ _ => Some (if a then Lt else Gt)
  | FFin _ _, FInf b => Some (if b then Gt else Lt)
  | FFin m1 e1, FFin m2 e2 => Some (fin_compare m1 e1 m2 e2)
  end.
Definition f_lt (x y : f64) : bool := match f_compare x y with Some Lt => true | _ => false end.
Definition f_le (x y : f64) : bool := match f_compare x y with Some Lt | Some Eq => true | _ => false end.
Definition f_eq (x y : f64) : bool := match f_compare x y with Some Eq => true | _ => false end.

Definition fin_trunc (m e : Z) : Z := if (0 <=? e)%Z then (m * 2 ^ e)%Z else Z.quot m (2 ^ (- e)).
Definition Trunc (x : f64) : f64 := match x with FFin m e => if (0 <=? e)%Z then x else FFin (fin_trunc m e) 0 | _ => x end.
Definition IsNaN (x : f64) : bool := match x with FNaN => true | _ => false end.
Definition IsInf (x : f64) : bool := match x with FInf _ => true | _ => false end.
(** [uint64(x)] of a float64 in range. *)
Definition f_uint (x : f64) : N := match x with FFin m e => Z.to_N (fin_trunc m e) | _ => 0 end.
Definition f_int (z : Z) : f64 := FFin z 0.

(** [float64(1<<53 - 1)] and [math.Exp2(float64(bits))]. *)
Definition maxSafeJSONInteger : f64 := f_int (2 ^ 53 - 1).
Definition Exp2 (bits : Z) : f64 := FFin 1 bits.

(** ** Arguments and schemas *)
Inductive arg : Type := PStr (s : string) | PNum (x : f64) | PBool (b : bool) | PArr (l : list json) | PObj (m : list (string * json)) | PNull.
(** The arguments in the order a range over the map visits them. *)
Abbreviation arguments := (list (string * arg)).
Definition argument (args : arguments) (name : string) : option arg := snd <$> List.find (λ kv, bool_decide (kv.1 = name)) args.

Record property : Type := MkProperty {
  ps_type : string; ps_minimum : option f64; ps_maximum : option f64; ps_multipleOf : option f64; ps_minLength : option f64;
  ps_enum : option (list string);
}.
Record ToolInputSchema : Type := MkSchema { ts_Properties : gmap string property; ts_Required : list string }.

Class FloatText : Type := {
  fmt_v : arg → string;                (* %v of a value that is not a string *)
  fmt_g : f64 → string;                (* %g *)
  fmt_f : f64 → string;                (* FormatFloat(x, 'f', -1, 64) *)
  near_multiple : f64 → f64 → bool;    (* the quotient is a whole number within the tolerance *)
}.

Definition blank (s : string) : bool := bool_decide (TrimSpace s = "").
Definition blank_arg (v : arg) : bool := match v with PStr s => blank s | _ => false end.

Definition jsonTypeMatches (want : string) (v : arg) : bool :=
  if bool_decide (want = "string") then match v with PStr _ => true | _ => false end
  else if bool_decide (want = "number" ∨ want = "integer") then match v with PNum _ => true | _ => false end
  else if bool_decide (want = "boolean") then match v with PBool _ => true | _ => false end
  else if bool_decide (want = "array") then match v with PArr _ => true | _ => false end
  else if bool_decide (want = "object") then match v with PObj _ => true | _ => false end
  else true.

Definition f_positive (o : option f64) : bool := match o with Some x => f_lt (f_int 0) x | None => false end.
Definition requiresNonBlankString (schema : ToolInputSchema) (name : string) (spec : property) : bool :=
  f_positive (ps_minLength spec) || bool_decide (name ∈ ts_Required schema).

Section check.
Context `{FloatText}.

Definition whole_error (name : string) : result unit := failf "parameter %s must be a whole number" [name].
Definition check_multiple (name : string) (spec : property) (value : f64) : result unit :=
  match ps_multipleOf spec with
  | Some multiple =>
      if f_lt (f_int 0) multiple then
        if f_eq multiple (f_int 1) then (if negb (f_eq value (Trunc value)) then whole_error name else Ok tt)
        else if negb (near_multiple value multiple) then failf "parameter %s must be a multiple of %g" [name; fmt_g multiple] else Ok tt
      else Ok tt
  | None => Ok tt
  end.
Definition check_range (name : string) (spec : property) (value : f64) : result unit :=
  _ ← (match ps_minimum spec with
       | Some lo => if f_lt value lo then failf "parameter %s must be greater than or equal to %g" [name; fmt_g lo] else Ok tt
       | None => Ok tt
       end);
  match ps_maximum spec with
  | Some hi => if f_lt hi value then failf "parameter %s must be less than or equal to %s" [name; fmt_f hi] else Ok tt
  | None => Ok tt
  end.

Definition checkNumber (name : string) (spec : property) (raw : arg) : result unit :=
  if negb (bool_decide (ps_type spec = "number" ∨ ps_type spec = "integer")) then Ok tt
  else match raw with
       | PNum value =>
           if IsNaN value || IsInf value then failf "parameter %s must be a finite number" [name]
           else if bool_decide (ps_type spec = "integer") && negb (f_eq value (Trunc value)) then whole_error name
           else _ ← check_range name spec value; check_multiple name spec value
       | _ => Ok tt
       end.

Definition text_of (v : arg) : string := match v with PStr s => s | _ => fmt_v v end.
Definition checkEnum (name : string) (spec : property) (raw : arg) : result unit :=
  match ps_enum spec with
  | None | Some [] => Ok tt
  | Some names => if bool_decide (text_of raw ∈ names) then Ok tt else failf "parameter %s must be one of %s" [name; strings_Join names ", "]
  end.

Definition check_arg (schema : ToolInputSchema) (kv : string * arg) : result unit :=
  let '(name, raw) := kv in
  match ts_Properties schema !! name with
  | None => Ok tt
  | Some spec =>
      if negb (bool_decide (ps_type spec = "")) && negb (jsonTypeMatches (ps_type spec) raw)
      then failf "parameter %s must be a %s" [name; ps_type spec]
      else if bool_decide (ps_type spec = "string") && blank_arg raw then
        if requiresNonBlankString schema name spec then failf "parameter %s must not be empty" [name] else Ok tt
      else _ ← checkNumber name spec raw; checkEnum name spec raw
  end.

Definition checkArgs (schema : ToolInputSchema) (args : arguments) : result unit :=
  _ ← foldR (λ _ name, if bool_decide (name ∈ args.*1) then Ok tt else failf "missing required parameter: %s" [name]) tt (ts_Required schema);
  match sort_strings (List.filter (λ name, negb (bool_decide (is_Some (ts_Properties schema !! name)))) args.*1) with
  | unknown :: _ => failf "unknown parameter: %s" [unknown]
  | [] => foldR (λ _, check_arg schema) tt args
  end.

Definition normalizedOptionalStrings (schema : ToolInputSchema) (args : arguments) : arguments :=
  List.filter (λ kv : string * arg, negb (blank_arg kv.2 && negb (bool_decide (kv.1 ∈ ts_Required schema)))) args.
End check.

(** ** Reading arguments (marshal.go) *)
Definition missing {A} (key : string) : result A := failf "missing required parameter: %s" [key].

Definition RequireString (args : arguments) (key : string) : result string :=
  match argument args key with
  | None => missing key
  | Some (PStr s) => if blank s then failf "parameter %s must not be empty" [key] else Ok s
  | Some _ => failf "parameter %s must be a string" [key]
  end.
Definition OptionalString (args : arguments) (key : string) : string := match argument args key with Some (PStr s) => s | _ => "" end.

Definition nonNegativeUint (key : string) (value : f64) (bits : Z) : result N :=
  if IsNaN value || IsInf value then failf "parameter %s must be a finite number" [key]
  else if f_lt value (f_int 0) then failf "parameter %s must be greater than or equal to zero" [key]
  else if negb (f_eq value (Trunc value)) then failf "parameter %s must be a whole number" [key]
  else if f_lt maxSafeJSONInteger value then failf "parameter %s must be less than or equal to %.0f" [key; "9007199254740991"]
  else if f_le (Exp2 bits) value then failf "parameter %s is out of range for uint%d" [key; FormatInt bits]
  else Ok (f_uint value).
Definition positiveUint (key : string) (value : f64) (bits : Z) : result N :=
  if f_le value (f_int 0) then failf "parameter %s must be greater than zero" [key] else nonNegativeUint key value bits.

Definition require_uint (bits : Z) (args : arguments) (key : string) : result N :=
  match argument args key with
  | None => missing key
  | Some (PNum f) => positiveUint key f bits
  | Some _ => failf "parameter %s must be a number" [key]
  end.
Definition RequireUint64 := require_uint 64.
Definition RequireUint32 := require_uint 32.
(** [None] is an argument that is not there. *)
Definition OptionalUint64 (args : arguments) (key : string) : result (option N) :=
  match argument args key with
  | None => Ok None
  | Some (PNum f) => n ← nonNegativeUint key f 64; Ok (Some n)
  | Some _ => failf "parameter %s must be a number" [key]
  end.

(** ** Declaring arguments (mcp.WithString, mcp.WithNumber and the options used) *)
Definition string_property : property := MkProperty "string" None None None None None.
Definition Enum (names : list string) (p : property) : property := MkProperty (ps_type p) (ps_minimum p) (ps_maximum p) (ps_multipleOf p) (ps_minLength p) (Some names).
Definition integer_from (lo : Z) : property := MkProperty "number" (Some (f_int lo)) (Some maxSafeJSONInteger) (Some (f_int 1)) None None.
Definition PositiveInteger : property := integer_from 1.
Definition NonNegativeInteger : property := integer_from 0.

(** The properties with whether each is required. *)
Definition schema_of (l : list (string * property * bool)) : ToolInputSchema :=
  MkSchema (list_to_map ((λ p, p.1) <$> l)) ((λ p, p.1.1) <$> List.filter (λ p, p.2) l).
