(* ===== verification/McpTools.v ===== *)
(** * The MCP tools (internal/mcp/tools, internal/provider/client.go)

    Every tool with the schema it declares and its handler. A handler is a program
    that reads its arguments and makes requests; what it asked is its state, and the
    peers (the node, the gateways, the Console client) answer from everything asked so
    far. *)

From Stdlib Require Import Ascii.
From stdpp Require Import sorting base gmap strings pretty option numbers list.
From S2P Require Import Prelude GoStd GoJson Context Workflow GoText McpArgs.

(** ** The account of the client (internal/client/context.go) *)
Record key_record : Type := MkKeyRecord { kx_PubKey : bool; kx_GetAddress : result string }.
(** The SDK's client context: the keyring by name and by address, [None] without one. *)
Record client_ctx : Type := MkClientCtx {
  cc_NodeURI : string; cc_FromAddress : option string; cc_From : string;
  cc_Keyring : option ((string → result (option key_record)) * (string → bool));
}.

Definition in_quotes (s : string) : string := String (ascii_of_N 34) s +:+ String (ascii_of_N 34) "".

Section tools.
(** [AccAddressFromBech32(s)] printed again. *)
Context (AccAddress : string → result string).

Definition resolveKeyringAddress (kr : option ((string → result (option key_record)) * (string → bool))) (from : string) : result string :=
  match kr with
  | None => failf "resolve account %q: keyring is unavailable" [from]
  | Some (Key, _) =>
      record ← map_err (Wrapf "resolve account %q: %w" [from]) (Key from);
      match record with
      | None => failf "resolve account %q: keyring returned no record" [from]
      | Some r =>
          if negb (kx_PubKey r) then failf "resolve account %q address: keyring record has no public key" [from]
          else map_err (Wrapf "resolve account %q address: %w" [from]) (kx_GetAddress r)
      end
  end.
(** The empty string is the empty address. *)
Definition ResolveAccountAddress (cctx : client_ctx) : result string :=
  match cc_FromAddress cctx with
  | Some addr => Ok addr
  | None =>
      let from := TrimSpace (cc_From cctx) in
      if bool_decide (from = "") then Ok ""
      else match AccAddress from with Ok addr => Ok addr | _ => resolveKeyringAddress (cc_Keyring cctx) from end
  end.
Definition AddressOrDefault (cctx : client_ctx) (explicit : string) : result string :=
  if bool_decide (explicit = "") then ResolveAccountAddress cctx else Ok explicit.

(** ** Requests *)
Record bid_id : Type := MkBid { b_Owner : string; b_DSeq : N; b_GSeq : N; b_OSeq : N; b_Provider : string }.
Record PermissionDeployment : Type := MkPermission { pd_Scope : list string; pd_DSeq : N; pd_GSeq : N; pd_OSeq : N; pd_Services : list string }.
(** The claims of a token with granular access to one provider; times in nanoseconds. *)
Record scoped_claims : Type := MkClaims {
  sc_Issuer : string; sc_IssuedAt : Z; sc_NotBefore : Z; sc_ExpiresAt : Z; sc_Version : string; sc_Provider : string; sc_Deployments : list PermissionDeployment;
}.
(** How a gateway call is authenticated: by the local certificate, or by a token. *)
Inductive gateway_auth : Type := AuthMTLS | AuthToken (claims : scoped_claims).

Inductive request : Type :=
| SyncInfo | CurrentBlockHeight
| Balance (address denom : string) | AllBalances (address : string)
| Deployments (owner state : string) | Deployment_ (owner : string) (dseq : N) | Group (owner : string) (dseq gseq : N)
| Orders (owner state : string) | Order (owner : string) (dseq gseq oseq : N)
| Bids (owner state : string) (dseq : N) | Bid (id : bid_id)
| Leases (owner state provider : string) (dseq : N) | Lease_ (id : bid_id)
| Providers | Provider (owner : string)
| Certificates (owner state : string)
| ProviderAuditorAttributes (owner auditor : string) | ProviderAttributes (owner : string) | AuditorAttributes (auditor : string) | AllProvidersAttributes
| GatewayStatus (url : string) | GatewayLeaseStatus (url : string) (auth : gateway_auth) (dseq gseq oseq : N)
| GatewayServiceStatus (url : string) (auth : gateway_auth) (dseq gseq oseq : N) (service : string)
| ConsoleListDeployments (skip limit : Z) | ConsoleGetDeployment (dseq : string) | ConsoleFetchBids (dseq : string) | ConsoleGetBalances
| ConsoleGetUser | ConsoleListWallets (user : string) | ConsoleUsageHistory (address start_date end_date : string)
| ConsoleListProviders (scope : string) (addresses : list string) | ConsoleGetProvider (address : string) | ConsoleGPUPrices
(* requests that change something *)
| TxCloseDeployment (owner : string) (dseq : N) | TxCreateLease (id : bid_id) | TxCloseLease (id : bid_id)
| GatewaySubmitManifest (url : string) (auth : gateway_auth) (dseq : N) (manifest : json)
| ConsoleCloseDeployment (dseq : string)
(* an entry of the action log *)
| RecordAction (action provider : string) (dseq : N) (failed : option error).

Definition writes (r : request) : bool :=
  match r with
  | TxCloseDeployment _ _ | TxCreateLease _ | TxCloseLease _ | GatewaySubmitManifest _ _ _ _ | ConsoleCloseDeployment _ => true
  | _ => false
  end.

(** The peers, and the members the handlers read of their answers. *)
Class McpPeers : Type := {
  respond : list request → request → result json;
  host_uri : json → string;                 (* Provider.HostURI *)
  user_id : json → string;
  wallet_addresses : json → list string;    (* in the order of the answer *)
  usd_balances : json → json;               (* the three balances in dollars *)
  parse_manifest : string → result json;    (* json.Unmarshal *)
  validate_manifest : json → option error;
  manifest_services : json → list string;   (* the service names, group by group *)
  parse_date : string → option error;       (* time.Parse of YYYY-MM-DD *)
  load_certificate : option error;          (* the mTLS certificate of the account *)
  validate_leases : scoped_claims → option error;
  sign_token : scoped_claims → option error;
  new_rest_client : string → option error;  (* rest.NewClient and the URL of the gateway *)
}.
Context `{McpPeers} (cctx : client_ctx) (authType : string) (now : Z).

Abbreviation program := (stateR (list request)).
Definition ask (r : request) : program json := λ asked, (asked ++ [r], respond asked r).
(** A call with its failure wrapped. *)
Definition ask_or (format : string) (args : list string) (r : request) : program json := λ asked,
  let '(asked, a) := ask r asked in (asked, map_err (Wrapf format args) a).
Definition log (e : request) : program unit := λ asked, (asked ++ [e], Ok tt).

(** ** Gateway clients (internal/provider/client.go) *)
Definition ValidateGatewayAuthentication (addr : string) : result unit :=
  if negb (bool_decide (authType ∈ ["jwt"; ""; "mtls"])) then failf ("unsupported auth type %q (expected " +:+ in_quotes "jwt" +:+ " or " +:+ in_quotes "mtls" +:+ ")") [authType]
  else if bool_decide (addr = "") then failf "provider gateway authentication requires a configured default account" []
  else match cc_Keyring cctx with
       | None => failf "provider gateway authentication requires a keyring" []
       | Some (_, has) =>
           if has addr then Ok tt
           else failf "provider gateway authentication selected account %s is not present in the configured keyring; import that key or change the context default account" [addr]
       end.

Definition newScopedJWT (addr providerAddress : string) (perm : PermissionDeployment) : result scoped_claims :=
  let claims := MkClaims addr now now (now + 900 * second) "v1" providerAddress [perm] in
  match validate_leases claims with
  | Some e => Err (Wrapf "validate scoped provider JWT: %w" [] e)
  | None => match sign_token claims with Some e => Err (Wrapf "sign scoped provider JWT: %w" [] e) | None => Ok claims end
  end.
(** A certificate needs no claim. *)
Definition NewScopedGatewayClient (addr providerURL providerAddress : string) (perm : PermissionDeployment) : result gateway_auth :=
  _ ← ValidateGatewayAuthentication addr;
  if bool_decide (providerAddress = "") then failf "provider gateway authentication requires a provider address" []
  else
    auth ← (if bool_decide (authType = "mtls") then
              match load_certificate with Some e => Err (Wrapf "load mTLS certificate: %w" [] e) | None => Ok AuthMTLS end
            else claims ← newScopedJWT addr providerAddress perm; Ok (AuthToken claims));
    match new_rest_client providerURL with Some e => Err e | None => Ok auth end.

(** [gatewayClient] of the provider tools. *)
Definition gatewayClient (providerURL providerAddress : string) (perm : PermissionDeployment) : result gateway_auth :=
  addr ← ResolveAccountAddress cctx; NewScopedGatewayClient addr providerURL providerAddress perm.

(** ** Node and bank *)
Definition HandleNodeStatus (args : arguments) : program json := ask_or "failed to get sync info: %v" [] SyncInfo.
Definition HandleBlockHeight (args : arguments) : program json :=
  height ← ask_or "failed to get block height: %v" [] CurrentBlockHeight; mret (JObj [("block_height", height)]).

Definition owner_or (format : string) (empty : string) (explicit : string) : program string :=
  owner ← lift (map_err (Wrapf format []) (AddressOrDefault cctx explicit));
  if bool_decide (owner = "") then fail (Errorf empty []) else mret owner.
Definition owner_hint : string := "owner address is required: pass owner, or configure a default account for the active context".
Definition owner_of (args : arguments) (empty : string) : program string :=
  owner_or "failed to resolve owner address: %v" empty (OptionalString args "owner").

Definition HandleAccountBalance (args : arguments) : program json :=
  addr ← owner_or "failed to resolve account address: %v" "no address provided and no default account configured" (OptionalString args "address");
  let denom := OptionalString args "denom" in
  if bool_decide (denom = "") then ask_or "failed to query balances: %v" [] (AllBalances addr)
  else ask_or "failed to query balance: %v" [] (Balance addr denom).

(** ** Deployments *)
Definition HandleListDeployments (args : arguments) : program json :=
  owner ← owner_of args owner_hint;
  ask_or "failed to list deployments: %v" [] (Deployments owner (OptionalString args "state")).
Definition HandleGetDeployment (args : arguments) : program json :=
  owner ← owner_of args "owner address is required";
  dseq ← lift (RequireUint64 args "dseq");
  ask_or "failed to get deployment: %v" [] (Deployment_ owner dseq).
Definition HandleGetGroup (args : arguments) : program json :=
  owner ← owner_of args "owner address is required";
  dseq ← lift (RequireUint64 args "dseq");
  gseq ← lift (RequireUint32 args "gseq");
  ask_or "failed to get group: %v" [] (Group owner dseq gseq).
Definition HandleCloseDeployment (args : arguments) : program json :=
  dseq ← lift (RequireUint64 args "dseq");
  owner ← owner_or "failed to resolve owner address: %v" "owner address is required: configure a default account" "";
  ask_or "failed to close deployment: %v" [] (TxCloseDeployment owner dseq).

(** ** The market *)
Definition HandleListOrders (args : arguments) : program json :=
  owner ← owner_of args owner_hint;
  ask_or "failed to list orders: %v" [] (Orders owner (OptionalString args "state")).
Definition HandleGetOrder (args : arguments) : program json :=
  owner ← lift (RequireString args "owner");
  dseq ← lift (RequireUint64 args "dseq");
  gseq ← lift (RequireUint32 args "gseq");
  oseq ← lift (RequireUint32 args "oseq");
  ask_or "failed to get order: %v" [] (Order owner dseq gseq oseq).
Definition HandleListBids (args : arguments) : program json :=
  owner ← owner_of args owner_hint;
  dseq ← lift (OptionalUint64 args "dseq");
  ask_or "failed to list bids: %v" [] (Bids owner (OptionalString args "state") (default 0%N dseq)).

(** The five arguments that name a bid or a lease. *)
Definition required_bid (args : arguments) : program bid_id :=
  owner ← lift (RequireString args "owner");
  dseq ← lift (RequireUint64 args "dseq");
  gseq ← lift (RequireUint32 args "gseq");
  oseq ← lift (RequireUint32 args "oseq");
  provider ← lift (RequireString args "provider");
  mret (MkBid owner dseq gseq oseq provider).
Definition HandleGetBid (args : arguments) : program json := id ← required_bid args; ask_or "failed to get bid: %v" [] (Bid id).
Definition HandleListLeases (args : arguments) : program json :=
  owner ← owner_of args owner_hint;
  dseq ← lift (OptionalUint64 args "dseq");
  ask_or "failed to list leases: %v" [] (Leases owner (OptionalString args "state") (OptionalString args "provider") (default 0%N dseq)).
Definition HandleGetLease (args : arguments) : program json := id ← required_bid args; ask_or "failed to get lease: %v" [] (Lease_ id).
Definition HandleCreateLease (args : arguments) : program json := id ← required_bid args; ask_or "failed to create lease: %v" [] (TxCreateLease id).
Definition HandleCloseLease (args : arguments) : program json := id ← required_bid args; ask_or "failed to close lease: %v" [] (TxCloseLease id).

(** ** Certificates and audits *)
Definition HandleListCertificates (args : arguments) : program json :=
  owner ← owner_of args owner_hint;
  ask_or "failed to list certificates: %v" [] (Certificates owner (OptionalString args "state")).
Definition HandleListAuditedProviders (args : arguments) : program json :=
  let owner := OptionalString args "owner" in
  let auditor := OptionalString args "auditor" in
  if negb (bool_decide (owner = "")) && negb (bool_decide (auditor = "")) then
    ask_or "failed to query provider auditor attributes: %v" [] (ProviderAuditorAttributes owner auditor)
  else if negb (bool_decide (owner = "")) then ask_or "failed to query provider attributes: %v" [] (ProviderAttributes owner)
  else if negb (bool_decide (auditor = "")) then ask_or "failed to query auditor attributes: %v" [] (AuditorAttributes auditor)
  else ask_or "failed to list audited providers: %v" [] AllProvidersAttributes.

(** ** Providers *)
Definition HandleListProviders (args : arguments) : program json := ask_or "failed to list providers: %v" [] Providers.
Definition HandleGetProvider (args : arguments) : program json :=
  owner ← lift (RequireString args "owner"); ask_or "failed to get provider: %v" [] (Provider owner).

(** The query client is always there for a registered tool. *)
Definition registeredProviderURL (owner : string) : program string :=
  answer ← ask_or "query provider %s: %w" [owner] (Provider owner);
  if bool_decide (host_uri answer = "") then fail (Errorf "provider %s has no registered host URI" [owner]) else mret (host_uri answer).
Definition provider_address (s : string) : result string := map_err (Wrapf "invalid provider address %q: %w" [s]) (AccAddress s).
Definition resolveRegisteredProvider (args : arguments) : program (string * string) :=
  address ← lift (RequireString args "provider");
  owner ← lift (provider_address address);
  url ← registeredProviderURL owner;
  mret (owner, url).
(** A program with its error wrapped. *)
Definition wrapped {A} (format : string) (p : program A) : program A := λ asked, let '(asked, r) := p asked in (asked, map_err (Wrapf format []) r).

Definition HandleProviderStatus (args : arguments) : program json :=
  '(_, url) ← wrapped "resolve provider gateway: %v" (resolveRegisteredProvider args);
  _ ← check (Wrapf "failed to create provider client: %v" [] <$> new_rest_client url);
  ask_or "failed to get provider status: %v" [] (GatewayStatus url).

Definition scope_status : string := "status".
Definition scope_send_manifest : string := "send-manifest".
Definition HandleLeaseStatus (args : arguments) : program json :=
  '(owner, url) ← wrapped "resolve provider gateway: %v" (resolveRegisteredProvider args);
  dseq ← lift (RequireUint64 args "dseq");
  gseq ← lift (RequireUint32 args "gseq");
  oseq ← lift (RequireUint32 args "oseq");
  auth ← wrapped "failed to create provider client: %v" (lift (gatewayClient url owner (MkPermission [scope_status] dseq gseq oseq ["*"])));
  ask_or "failed to get lease status: %v" [] (GatewayLeaseStatus url auth dseq gseq oseq).
Definition HandleServiceStatus (args : arguments) : program json :=
  '(owner, url) ← wrapped "resolve provider gateway: %v" (resolveRegisteredProvider args);
  dseq ← lift (RequireUint64 args "dseq");
  gseq ← lift (RequireUint32 args "gseq");
  oseq ← lift (RequireUint32 args "oseq");
  service ← lift (RequireString args "service");
  auth ← wrapped "failed to create provider client: %v" (lift (gatewayClient url owner (MkPermission [scope_status] dseq gseq oseq [service])));
  ask_or "failed to get service status: %v" [] (GatewayServiceStatus url auth dseq gseq oseq service).

(** Each name once, in the order of first use. *)
Definition manifestServiceNames (names : list string) : list string :=
  foldl (λ l n, if bool_decide (n ∈ l) then l else l ++ [n]) [] names.

Definition HandleSubmitManifest (args : arguments) : program json :=
  address ← lift (RequireString args "provider");
  owner ← lift (provider_address address);
  dseq ← lift (RequireUint64 args "dseq");
  text ← lift (RequireString args "manifest_json");
  manifest ← lift (map_err (Wrapf "invalid manifest JSON: %v" []) (parse_manifest text));
  _ ← check (validate_manifest manifest);
  let recorded {A} (r : result A) : program unit := log (RecordAction scope_send_manifest owner dseq match r with Err e => Some e | _ => None end) in
  url ← attempt (registeredProviderURL owner);
  match url with
  | Ok url =>
      match gatewayClient url owner (MkPermission [scope_send_manifest] dseq 0 0 (manifestServiceNames (manifest_services manifest))) with
      | Ok auth =>
          sent ← attempt (ask (GatewaySubmitManifest url auth dseq manifest));
          _ ← recorded sent;
          _ ← lift (map_err (Wrapf "failed to submit manifest: %v" []) sent);
          mret (JObj [("status", JStr "manifest submitted successfully")])
      | r => _ ← recorded r; lift (map_err (Wrapf "failed to create provider client: %v" []) (_ ← r; Ok JNull))
      end
  | r => _ ← recorded r; lift (map_err (Wrapf "resolve provider gateway: %v" []) (_ ← r; Ok JNull))
  end.

(** ** The Console *)
Definition defaultListLimit : N := 50.
Definition maxListLimit : N := 200.
Definition list_limit (v : option N) : N :=
  match v with Some v => if (0 <? v)%N then N.min v maxListLimit else defaultListLimit | None => defaultListLimit end.

Definition console_HandleListDeployments (args : arguments) : program json :=
  skip ← lift (OptionalUint64 args "skip");
  if (Z.to_N i64_max <? default 0%N skip)%N
  then fail (Errorf "parameter skip is out of range for this platform" [])
  else
    limit ← lift (OptionalUint64 args "limit");
    ask_or "failed to list deployments: %v" [] (ConsoleListDeployments (Z.of_N (default 0%N skip)) (Z.of_N (list_limit limit))).
Definition console_HandleGetDeployment (args : arguments) : program json :=
  dseq ← lift (RequireString args "dseq"); ask_or "failed to get deployment %s: %v" [dseq] (ConsoleGetDeployment dseq).
Definition console_HandleListBids (args : arguments) : program json :=
  dseq ← lift (RequireString args "dseq");
  bids ← ask_or "failed to fetch bids for %s: %v" [dseq] (ConsoleFetchBids dseq);
  match bids with
  | JArr [] | JNull => _ ← ask_or "no bids for %s: %v" [dseq] (ConsoleGetDeployment dseq); mret bids
  | _ => mret bids
  end.
Definition HandleWalletBalance (args : arguments) : program json :=
  answer ← ask_or "failed to get wallet balance: %v" [] ConsoleGetBalances; mret (usd_balances answer).

Definition check_date (kv : string * string) : result unit :=
  if bool_decide (kv.2 = "") then Ok tt
  else match parse_date kv.2 with Some e => Err (Wrapf "parameter %s must use YYYY-MM-DD: %v" [kv.1] e) | None => Ok tt end.
Definition HandleUsageHistory (args : arguments) : program json :=
  let startDate := OptionalString args "start_date" in
  let endDate := OptionalString args "end_date" in
  _ ← lift (foldR (λ _, check_date) tt [("start_date", startDate); ("end_date", endDate)]);
  user ← ask_or "get user: %v" [] ConsoleGetUser;
  wallets ← ask_or "list wallets: %v" [] (ConsoleListWallets (user_id user));
  match List.filter (λ a, negb (bool_decide (a = ""))) (wallet_addresses wallets) with
  | address :: _ => ask_or "failed to get usage history: %v" [] (ConsoleUsageHistory address startDate endDate)
  | [] => fail (Errorf "no managed wallet with an on-chain address was found" [])
  end.

Definition comma_list (s : string) : list string :=
  List.filter (λ a, negb (bool_decide (a = ""))) (TrimSpace <$> split_on ","%char (bytes_of s)).
Definition truncated_list (l : list json) (limit : nat) : json :=
  JObj [("note", JStr "raise `limit` or filter with `addresses` to see more"); ("providers", JArr (take limit l));
        ("returned", JNum (FormatInt (Z.of_nat limit))); ("total", JNum (FormatInt (Z.of_nat (length l)))); ("truncated", JBool true)].
Definition console_HandleListProviders (args : arguments) : program json :=
  let raw := OptionalString args "addresses" in
  let addresses := if bool_decide (raw = "") then [] else comma_list raw in
  answer ← ask_or "failed to list providers: %v" [] (ConsoleListProviders (OptionalString args "scope") addresses);
  limit ← lift (OptionalUint64 args "limit");
  let limit := N.to_nat (list_limit limit) in
  match answer with
  | JArr l => mret (if (limit <? length l)%nat then truncated_list l limit else answer)
  | _ => mret answer
  end.
Definition console_HandleGetProvider (args : arguments) : program json :=
  address ← lift (RequireString args "address"); ask_or "failed to get provider %s: %v" [address] (ConsoleGetProvider address).
Definition HandleGPUPrices (args : arguments) : program json := ask_or "failed to get GPU prices: %v" [] ConsoleGPUPrices.
Definition console_HandleCloseDeployment (args : arguments) : program json :=
  dseq ← lift (RequireString args "dseq");
  _ ← ask_or "failed to close deployment %s: %v" [dseq] (ConsoleCloseDeployment dseq);
  mret (JObj [("dseq", JStr dseq); ("status", JStr "closed")]).
End tools.

(** * The MCP server (internal/mcp/server.go)

    Which tools a server registers, with their declarations, and what a call does:
    the schema check before the handler. The transport and the library that finds a
    tool by its name are reduced to a map of tools. *)

(** ** Declarations *)
Definition str (name : string) : string * property * bool := (name, string_property, false).
Definition required_str (name : string) : string * property * bool := (name, string_property, true).
Definition one_of (name : string) (names : list string) : string * property * bool := (name, Enum names string_property, false).
Definition positive (name : string) : string * property * bool := (name, PositiveInteger, false).
Definition required_positive (name : string) : string * property * bool := (name, PositiveInteger, true).
Definition non_negative (name : string) : string * property * bool := (name, NonNegativeInteger, false).
Definition order_sequence : list (string * property * bool) := [required_positive "dseq"; required_positive "gseq"; required_positive "oseq"].

(** [mcp.NewTool] without its descriptions. *)
Record tool_decl : Type := MkDecl { td_Name : string; td_InputSchema : ToolInputSchema }.

Definition ToolNodeStatus := MkDecl "akash_node_status" (schema_of []).
Definition ToolBlockHeight := MkDecl "akash_block_height" (schema_of []).
Definition ToolAccountBalance := MkDecl "akash_account_balance" (schema_of [str "address"; str "denom"]).
Definition ToolListDeployments := MkDecl "akash_list_deployments" (schema_of [str "owner"; one_of "state" ["active"; "closed"]]).
Definition ToolGetDeployment := MkDecl "akash_get_deployment" (schema_of [str "owner"; required_positive "dseq"]).
Definition ToolGetGroup := MkDecl "akash_get_group" (schema_of [str "owner"; required_positive "dseq"; required_positive "gseq"]).
Definition ToolCloseDeployment := MkDecl "akash_close_deployment" (schema_of [required_positive "dseq"]).
Definition ToolListOrders := MkDecl "akash_list_orders" (schema_of [str "owner"; one_of "state" ["open"; "active"; "closed"]]).
Definition ToolGetOrder := MkDecl "akash_get_order" (schema_of (required_str "owner" :: order_sequence)).
Definition ToolListBids := MkDecl "akash_list_bids" (schema_of [str "owner"; positive "dseq"; one_of "state" ["open"; "active"; "lost"; "closed"]]).
Definition bid_schema : ToolInputSchema := schema_of (required_str "owner" :: order_sequence ++ [required_str "provider"]).
Definition ToolGetBid := MkDecl "akash_get_bid" bid_schema.
Definition ToolListLeases :=
  MkDecl "akash_list_leases" (schema_of [str "owner"; positive "dseq"; one_of "state" ["active"; "closed"; "insufficient_funds"]; str "provider"]).
Definition ToolGetLease := MkDecl "akash_get_lease" bid_schema.
Definition ToolCreateLease := MkDecl "akash_create_lease" bid_schema.
Definition ToolCloseLease := MkDecl "akash_close_lease" bid_schema.
Definition ToolListProviders := MkDecl "akash_list_providers" (schema_of []).
Definition ToolGetProvider := MkDecl "akash_get_provider" (schema_of [required_str "owner"]).
Definition ToolProviderStatus := MkDecl "akash_provider_status" (schema_of [required_str "provider"]).
Definition ToolLeaseStatus := MkDecl "akash_lease_status" (schema_of (required_str "provider" :: order_sequence)).
Definition ToolServiceStatus := MkDecl "akash_service_status" (schema_of (required_str "provider" :: order_sequence ++ [required_str "service"])).
Definition ToolSubmitManifest :=
  MkDecl "akash_submit_manifest" (schema_of [required_str "provider"; required_positive "dseq"; required_str "manifest_json"]).
Definition ToolListAuditedProviders := MkDecl "akash_list_audited_providers" (schema_of [str "owner"; str "auditor"]).
Definition ToolListCertificates := MkDecl "akash_list_certificates" (schema_of [str "owner"; one_of "state" ["valid"; "revoked"]]).

Definition console_ToolListDeployments := MkDecl "console_list_deployments" (schema_of [non_negative "skip"; non_negative "limit"]).
Definition console_ToolGetDeployment := MkDecl "console_get_deployment" (schema_of [required_str "dseq"]).
Definition console_ToolListBids := MkDecl "console_list_bids" (schema_of [required_str "dseq"]).
Definition ToolWalletBalance := MkDecl "console_wallet_balance" (schema_of []).
Definition ToolUsageHistory := MkDecl "console_usage_history" (schema_of [str "start_date"; str "end_date"]).
Definition console_ToolListProviders := MkDecl "console_list_providers" (schema_of [one_of "scope" ["all"; "trial"]; str "addresses"; non_negative "limit"]).
Definition console_ToolGetProvider := MkDecl "console_get_provider" (schema_of [required_str "address"]).
Definition ToolGPUPrices := MkDecl "console_gpu_prices" (schema_of []).
Definition console_ToolCloseDeployment := MkDecl "console_close_deployment" (schema_of [required_str "dseq"]).

(** ** Registration *)
Abbreviation handler := (arguments → stateR (list request) json).
Record annotations : Type := MkAnnotations { an_ReadOnly : bool; an_Destructive : bool; an_Idempotent : bool; an_OpenWorld : bool }.
Definition queryToolAnnotations : annotations := MkAnnotations true false true true.
Definition writeToolAnnotations : annotations := MkAnnotations false true false true.

(** [sv_schemas] is kept beside the library's own registry. *)
Record Server : Type := MkServer { sv_tools : gmap string (annotations * handler); sv_schemas : gmap string ToolInputSchema }.
Definition empty_server : Server := MkServer ∅ ∅.

Definition add_tool (a : annotations) (s : Server) (t : tool_decl * handler) : Server :=
  MkServer (<[td_Name t.1 := (a, t.2)]> (sv_tools s)) (<[td_Name t.1 := td_InputSchema t.1]> (sv_schemas s)).
Definition addQueryTool := add_tool queryToolAnnotations.
Definition addWriteTool := add_tool writeToolAnnotations.

Section server.
Context (AccAddress : string → result string) `{McpPeers, FloatText} (cctx : client_ctx) (authType : string) (now : Z).

Definition query_tools : list (tool_decl * handler) := [
  (ToolNodeStatus, HandleNodeStatus); (ToolBlockHeight, HandleBlockHeight);
  (ToolAccountBalance, HandleAccountBalance AccAddress cctx);
  (ToolListDeployments, HandleListDeployments AccAddress cctx); (ToolGetDeployment, HandleGetDeployment AccAddress cctx);
  (ToolGetGroup, HandleGetGroup AccAddress cctx);
  (ToolListOrders, HandleListOrders AccAddress cctx); (ToolGetOrder, HandleGetOrder);
  (ToolListBids, HandleListBids AccAddress cctx); (ToolGetBid, HandleGetBid);
  (ToolListLeases, HandleListLeases AccAddress cctx); (ToolGetLease, HandleGetLease);
  (ToolListProviders, HandleListProviders); (ToolGetProvider, HandleGetProvider);
  (ToolProviderStatus, HandleProviderStatus AccAddress); (ToolLeaseStatus, HandleLeaseStatus AccAddress cctx authType now);
  (ToolServiceStatus, HandleServiceStatus AccAddress cctx authType now);
  (ToolListAuditedProviders, HandleListAuditedProviders); (ToolListCertificates, HandleListCertificates AccAddress cctx)].
Definition write_tools : list (tool_decl * handler) := [
  (ToolCloseDeployment, HandleCloseDeployment AccAddress cctx); (ToolCreateLease, HandleCreateLease); (ToolCloseLease, HandleCloseLease);
  (ToolSubmitManifest, HandleSubmitManifest AccAddress cctx authType now)].
Definition console_query_tools : list (tool_decl * handler) := [
  (console_ToolListDeployments, console_HandleListDeployments); (console_ToolGetDeployment, console_HandleGetDeployment);
  (console_ToolListBids, console_HandleListBids); (ToolWalletBalance, HandleWalletBalance); (ToolUsageHistory, HandleUsageHistory);
  (console_ToolListProviders, console_HandleListProviders); (console_ToolGetProvider, console_HandleGetProvider); (ToolGPUPrices, HandleGPUPrices)].
Definition console_write_tools : list (tool_decl * handler) := [(console_ToolCloseDeployment, console_HandleCloseDeployment)].

Definition registerQueryTools (s : Server) : Server := foldl addQueryTool s query_tools.
Definition registerWriteTools (s : Server) : Server := foldl addWriteTool s write_tools.
Definition registerConsoleQueryTools (s : Server) : Server := foldl addQueryTool s console_query_tools.
Definition registerConsoleWriteTools (s : Server) : Server := foldl addWriteTool s console_write_tools.

(** [light] and [signer] are the failures of building the two chain clients. *)
Definition registerChainTools (light signer : option error) (enableWrites : bool) (s : Server) : Server * result unit :=
  if bool_decide (cc_NodeURI cctx = "") then (s, failf "no chain RPC endpoint configured for the active context" [])
  else match light with
       | Some e => (s, Err e)
       | None =>
           let s := registerQueryTools s in
           if negb enableWrites then (s, Ok tt)
           else match signer with Some _ => (s, Ok tt) | None => (registerWriteTools s, Ok tt) end
       end.

(** [console] tells whether a Console API key resolved. *)
Definition New (light signer : option error) (enableWrites console : bool) : result Server :=
  let chainWritesEnabled := enableWrites && match cc_Keyring cctx with Some _ => true | None => false end in
  let '(s, chainErr) := registerChainTools light signer chainWritesEnabled empty_server in
  let s := if console then (let s := registerConsoleQueryTools s in if enableWrites then registerConsoleWriteTools s else s) else s in
  match chainErr with
  | Err e => if console then Ok s
             else Err (Wrapf "no tools available: chain client unavailable (%w) and no Console API key configured" [] e)
  | _ => Ok s
  end.

(** ** Calls *)

(** The middleware: a call whose arguments contradict the schema does not reach the
    handler. *)
Definition validateArguments (s : Server) (next : handler) (name : string) (args : arguments) : stateR (list request) json :=
  match sv_schemas s !! name with
  | None => next args
  | Some schema => _ ← lift (checkArgs schema args); next (normalizedOptionalStrings schema args)
  end.

Definition CallTool (s : Server) (name : string) (args : arguments) : stateR (list request) json :=
  match sv_tools s !! name with
  | Some (_, h) => validateArguments s h name args
  | None => fail (Errorf "tool %q not found" [name])
  end.
End server.
