(* ===== verification/McpProps.v ===== *)
(** * Properties of the MCP server

    Numbers are read exactly; the schema check accepts what the schema describes; a
    server started without consent to write never makes a request that changes
    something; and gateway tokens carry no more than the call needs. *)

From Stdlib Require Import Ascii.
From stdpp Require Import sorting base gmap strings pretty option numbers list.
From S2P Require Import Prelude GoStd GoJson Context Workflow GoText McpArgs McpTools.

(** ** Numbers *)

(** The float64 is the integer [z]. *)
Definition exact (x : f64) (z : Z) : Prop :=
  match x with
  | FFin m e => (0 ≤ e ∧ m * 2 ^ e = z)%Z ∨ (e < 0 ∧ m = z * 2 ^ (- e))%Z
  | _ => False
  end.

Lemma exact_scaled m e z k : exact (FFin m e) z → (k ≤ e)%Z → (k < 0)%Z → (m * 2 ^ (e - k) = z * 2 ^ (- k))%Z.
Proof.
  intros [[He <-]|[He ->]] Hk Hn.
  - rewrite <- Z.mul_assoc, <- Z.pow_add_r by lia. by replace (e + - k)%Z with (e - k)%Z by lia.
  - rewrite <- Z.mul_assoc, <- Z.pow_add_r by lia. by replace (- e + (e - k))%Z with (- k)%Z by lia.
Qed.

Lemma compare_scale (a b p : Z) : (0 < p)%Z → (a * p ?= b * p)%Z = (a ?= b)%Z.
Proof.
  intros Hp. destruct (Z.compare_spec a b) as [->|Hlt|Hgt]; [apply Z.compare_refl|apply Z.compare_lt_iff; nia|apply Z.compare_gt_iff; nia].
Qed.

(** Comparing exact numbers compares the integers. *)
Lemma compare_exact x y a b : exact x a → exact y b → f_compare x y = Some (a ?= b)%Z.
Proof.
  destruct x as [| |m1 e1]; [done..|]. destruct y as [| |m2 e2]; [done..|]. intros Hx Hy. cbn [f_compare]. f_equal. unfold fin_compare.
  set (e := Z.min e1 e2). destruct (Z_lt_dec e 0) as [He|He].
  - rewrite (exact_scaled m1 e1 a e), (exact_scaled m2 e2 b e) by (done || lia). apply compare_scale. lia.
  - destruct Hx as [[H1 <-]|[? _]]; [|lia]. destruct Hy as [[H2 <-]|[? _]]; [|lia].
    rewrite <- (compare_scale (m1 * 2 ^ (e1 - e)) (m2 * 2 ^ (e2 - e)) (2 ^ e)) by lia.
    rewrite <- !Z.mul_assoc, <- !Z.pow_add_r by lia. by rewrite !Z.sub_add.
Qed.

Lemma exact_int z : exact (f_int z) z.
Proof. left. split; [lia|]. change (2 ^ 0)%Z with 1%Z. lia. Qed.
Lemma exact_Exp2 bits : (0 ≤ bits)%Z → exact (Exp2 bits) (2 ^ bits).
Proof. intros Hb. left. split; [done|]. lia. Qed.

Lemma exact_trunc m e z : exact (FFin m e) z → fin_trunc m e = z.
Proof.
  unfold fin_trunc. intros [[He <-]|[He ->]].
  - by rewrite (proj2 (Z.leb_le 0 e)) by lia.
  - rewrite (proj2 (Z.leb_gt 0 e)) by lia. apply Z.quot_mul. lia.
Qed.

(** A number is whole when truncating leaves it alone. *)
Lemma whole_exact x : f_eq x (Trunc x) = true → IsInf x = false → ∃ m e, x = FFin m e ∧ exact x (fin_trunc m e).
Proof.
  destruct x as [| |m e]; [done..|]. intros Hw _. exists m, e. split; [done|]. unfold f_eq, Trunc in Hw.
  destruct (0 <=? e)%Z eqn:He.
  - left. split; [lia|]. unfold fin_trunc. by rewrite He.
  - right. split; [lia|]. cbn [f_compare] in Hw. unfold fin_compare in Hw. rewrite Z.min_l in Hw by lia.
    rewrite Z.sub_diag in Hw. change (2 ^ 0)%Z with 1%Z in Hw. rewrite Z.mul_1_r, Z.sub_0_l in Hw.
    destruct (Z.compare_spec m (fin_trunc m e * 2 ^ (- e))); [done|congruence..].
Qed.
Lemma exact_whole x z : exact x z → f_eq x (Trunc x) = true.
Proof.
  intros Hx. unfold f_eq. assert (exact (Trunc x) z) as Ht.
  { destruct x as [| |m e]; [done..|]. unfold Trunc. destruct (0 <=? e)%Z; [done|]. rewrite (exact_trunc _ _ _ Hx). apply exact_int. }
  by rewrite (compare_exact _ _ _ _ Hx Ht), Z.compare_refl.
Qed.

Lemma f_lt_exact x y a b : exact x a → exact y b → f_lt x y = (a <? b)%Z.
Proof. intros Hx Hy. unfold f_lt. rewrite (compare_exact _ _ _ _ Hx Hy). unfold Z.ltb. by destruct (a ?= b)%Z. Qed.
Lemma f_le_exact x y a b : exact x a → exact y b → f_le x y = (a <=? b)%Z.
Proof. intros Hx Hy. unfold f_le. rewrite (compare_exact _ _ _ _ Hx Hy). unfold Z.leb. by destruct (a ?= b)%Z. Qed.

Lemma nonNegativeUint_exact key x bits n : (0 ≤ bits)%Z →
  nonNegativeUint key x bits = Ok n ↔ exact x (Z.of_N n) ∧ (n < 2 ^ 53)%N ∧ (Z.of_N n < 2 ^ bits)%Z.
Proof.
  intros Hb. unfold nonNegativeUint, maxSafeJSONInteger. split.
  - destruct (IsNaN x || IsInf x) eqn:Ef; [done|]. apply orb_false_iff in Ef as [_ Hinf].
    destruct (f_lt x (f_int 0)) eqn:E0; [done|]. destruct (f_eq x (Trunc x)) eqn:Ew; cbn [negb]; [|done].
    destruct (f_lt (f_int (2 ^ 53 - 1)) x) eqn:Em; [done|]. destruct (f_le (Exp2 bits) x) eqn:Eb; [done|]. intros [= <-].
    apply whole_exact in Ew as (m & e & -> & Hx); [|done].
    rewrite (f_lt_exact _ _ _ _ Hx (exact_int 0)) in E0. rewrite (f_lt_exact _ _ _ _ (exact_int (2 ^ 53 - 1)) Hx) in Em.
    rewrite (f_le_exact _ _ _ _ (exact_Exp2 bits Hb) Hx) in Eb. unfold f_uint. rewrite Z2N.id by lia. split_and!; [done|lia|lia].
  - intros (Hx & H53 & Hbits). destruct x as [| |m e]; [done..|]. cbn [IsNaN IsInf orb].
    rewrite (f_lt_exact _ _ _ _ Hx (exact_int 0)), (proj2 (Z.ltb_ge _ _)) by lia.
    rewrite (exact_whole _ _ Hx). cbn [negb]. rewrite (f_lt_exact _ _ _ _ (exact_int (2 ^ 53 - 1)) Hx), (proj2 (Z.ltb_ge _ _)) by lia.
    rewrite (f_le_exact _ _ _ _ (exact_Exp2 bits Hb) Hx), (proj2 (Z.leb_gt _ _)) by lia. unfold f_uint.
    rewrite (exact_trunc _ _ _ Hx). by rewrite N2Z.id.
Qed.

(** Sequence numbers are read exactly or not at all. A required number of 32 or 64
    bits reads as [n] exactly when the argument is there, is the integer [n], and [n] is
    positive, below 2^53 and in range of the type: no float is rounded, truncated or
    wrapped on the way, and neither a fraction, an infinity nor a value past the
    integers JSON can carry is taken for another one. *)
Theorem require_uint_exact (bits : Z) args key n : (0 ≤ bits)%Z →
  require_uint bits args key = Ok n ↔
  ∃ x, argument args key = Some (PNum x) ∧ exact x (Z.of_N n) ∧ (0 < n < 2 ^ 53)%N ∧ (Z.of_N n < 2 ^ bits)%Z.
Proof.
  intros Hb. unfold require_uint, positiveUint. split.
  - destruct (argument args key) as [[| x | | | |]|] eqn:Ea; try done. destruct (f_le x (f_int 0)) eqn:E0; [done|].
    intros (Hx & H53 & Hr)%nonNegativeUint_exact; [|done]. exists x.
    rewrite (f_le_exact _ _ _ _ Hx (exact_int 0)) in E0. split_and!; [done..|lia|done|done].
  - intros (x & -> & Hx & [H0 H53] & Hr). rewrite (f_le_exact _ _ _ _ Hx (exact_int 0)), (proj2 (Z.leb_gt _ _)) by lia.
    by apply nonNegativeUint_exact.
Qed.

(** ** The schema *)
Section schema.
Context `{FloatText}.

(** What a schema asks of a number that is not of the wrong type. *)
Record number_ok (p : property) (x : f64) : Prop := {
  no_finite : IsNaN x = false ∧ IsInf x = false;
  no_integer : ps_type p = "integer" → f_eq x (Trunc x) = true;
  no_minimum : ∀ lo, ps_minimum p = Some lo → f_lt x lo = false;
  no_maximum : ∀ hi, ps_maximum p = Some hi → f_lt hi x = false;
  no_multiple : ∀ k, ps_multipleOf p = Some k → f_lt (f_int 0) k = true →
    if f_eq k (f_int 1) then f_eq x (Trunc x) = true else near_multiple x k = true;
}.
(** A blank string counts as an argument that is not there. *)
Definition arg_ok (schema : ToolInputSchema) (name : string) (p : property) (v : arg) : Prop :=
  (ps_type p ≠ "" → jsonTypeMatches (ps_type p) v = true) ∧
  if bool_decide (ps_type p = "string") && blank_arg v then ¬ (f_positive (ps_minLength p) = true ∨ name ∈ ts_Required schema)
  else (∀ x, v = PNum x → ps_type p = "number" ∨ ps_type p = "integer" → number_ok p x) ∧
       (∀ names, ps_enum p = Some names → names ≠ [] → text_of v ∈ names).
Record conforms (schema : ToolInputSchema) (args : arguments) : Prop := {
  cf_required : ∀ name, name ∈ ts_Required schema → name ∈ args.*1;
  cf_known : ∀ name, name ∈ args.*1 → is_Some (ts_Properties schema !! name);
  cf_each : ∀ name v p, (name, v) ∈ args → ts_Properties schema !! name = Some p → arg_ok schema name p v;
}.

Lemma foldR_all {A} (f : A → result unit) l : foldR (λ _, f) tt l = Ok tt ↔ ∀ x, x ∈ l → f x = Ok tt.
Proof.
  induction l as [|x l IH]; cbn [foldR]; [split; [by intros _ x ?%not_elem_of_nil|done]|].
  destruct (f x) as [[]|e|] eqn:E; cbn [mbind result_bind].
  - rewrite IH. split; [intros Ha y [->|Hy]%elem_of_cons; auto|]. intros Ha y Hy. apply Ha. by right.
  - split; [done|]. intros Ha. rewrite <- E. apply Ha. by left.
  - split; [done|]. intros Ha. rewrite <- E. apply Ha. by left.
Qed.

Lemma check_range_ok name p x : check_range name p x = Ok tt ↔
  (∀ lo, ps_minimum p = Some lo → f_lt x lo = false) ∧ (∀ hi, ps_maximum p = Some hi → f_lt hi x = false).
Proof.
  unfold check_range. destruct (ps_minimum p) as [lo|]; [destruct (f_lt x lo) eqn:El|]; cbn [mbind result_bind];
    [split; [done|intros [Hl _]; by rewrite (Hl lo eq_refl) in El]|..];
    (destruct (ps_maximum p) as [hi|]; [destruct (f_lt hi x) eqn:Eh|]);
    try (split; [done|intros [_ Hh]; by rewrite (Hh hi eq_refl) in Eh]); split; try done; intros _; split; intros ? [= <-]; done.
Qed.

Lemma check_multiple_ok name p x : check_multiple name p x = Ok tt ↔
  ∀ k, ps_multipleOf p = Some k → f_lt (f_int 0) k = true → if f_eq k (f_int 1) then f_eq x (Trunc x) = true else near_multiple x k = true.
Proof.
  unfold check_multiple. destruct (ps_multipleOf p) as [k|]; [|split; [by intros _ k|done]].
  destruct (f_lt (f_int 0) k) eqn:Ep; [|split; [intros _ ? [= <-]; by rewrite Ep|done]].
  destruct (f_eq k (f_int 1)) eqn:E1.
  - destruct (f_eq x (Trunc x)) eqn:Ew; cbn [negb]; split; try done; [intros _ ? [= <-] _; by rewrite E1|].
    intros Ha. specialize (Ha k eq_refl Ep). rewrite E1 in Ha. congruence.
  - destruct (near_multiple x k) eqn:Ew; cbn [negb]; split; try done; [intros _ ? [= <-] _; by rewrite E1|].
    intros Ha. specialize (Ha k eq_refl Ep). rewrite E1 in Ha. congruence.
Qed.

Lemma checkNumber_ok name p v : checkNumber name p v = Ok tt ↔ ∀ x, v = PNum x → ps_type p = "number" ∨ ps_type p = "integer" → number_ok p x.
Proof.
  unfold checkNumber. destruct (decide (ps_type p = "number" ∨ ps_type p = "integer")) as [Ht|Ht].
  2: { rewrite bool_decide_eq_false_2 by done. split; [by intros _ x _ ?|done]. }
  rewrite bool_decide_eq_true_2 by done. cbn [negb]. destruct v as [|x| | | |]; try (split; [by intros _ x|done]).
  destruct (IsNaN x || IsInf x) eqn:Ef.
  { split; [done|]. intros Ha. destruct (Ha x eq_refl Ht) as [[Hn Hi] _ _ _ _]. by rewrite Hn, Hi in Ef. }
  apply orb_false_iff in Ef. destruct (bool_decide (ps_type p = "integer") && negb (f_eq x (Trunc x))) eqn:Ew.
  { split; [done|]. intros Ha. destruct (Ha x eq_refl Ht) as [_ Hw _ _ _]. apply andb_true_iff in Ew as [Hi%bool_decide_eq_true Hn].
    by rewrite (Hw Hi) in Hn. }
  assert (ps_type p = "integer" → f_eq x (Trunc x) = true) as Hw.
  { intros Hi. rewrite bool_decide_eq_true_2 in Ew by done. by apply negb_false_iff in Ew. }
  pose proof (check_range_ok name p x) as Hr. pose proof (check_multiple_ok name p x) as Hm.
  destruct (check_range name p x) as [[]| |]; cbn [mbind result_bind].
  - rewrite Hm. destruct (proj1 Hr eq_refl) as [Hl Hh]. split.
    + intros Hk x' [= <-] _. by split.
    + intros Ha. apply (Ha x eq_refl Ht).
  - split; [done|]. intros Ha. destruct (Ha x eq_refl Ht) as [_ _ Hl Hh _]. by pose proof (proj2 Hr (conj Hl Hh)).
  - split; [done|]. intros Ha. destruct (Ha x eq_refl Ht) as [_ _ Hl Hh _]. by pose proof (proj2 Hr (conj Hl Hh)).
Qed.

Lemma checkEnum_ok name p v : checkEnum name p v = Ok tt ↔ ∀ names, ps_enum p = Some names → names ≠ [] → text_of v ∈ names.
Proof.
  unfold checkEnum. destruct (ps_enum p) as [[|n names]|]; [split; [by intros _ ? [= <-]|done]| |split; [by intros _ ?|done]].
  case_bool_decide as Hin; split; try done; [by intros _ ? [= <-]|]. intros Ha. destruct Hin. by apply Ha.
Qed.

Lemma check_arg_ok schema name v p : ts_Properties schema !! name = Some p → check_arg schema (name, v) = Ok tt ↔ arg_ok schema name p v.
Proof.
  intros Hp. unfold check_arg, arg_ok. rewrite Hp.
  destruct (negb (bool_decide (ps_type p = "")) && negb (jsonTypeMatches (ps_type p) v)) eqn:Et.
  { apply andb_true_iff in Et as [Hne%negb_true_iff Hj%negb_true_iff]. apply bool_decide_eq_false in Hne. split; [done|].
    intros [Hx _]. by rewrite Hx in Hj. }
  assert (ps_type p ≠ "" → jsonTypeMatches (ps_type p) v = true) as Hty.
  { intros Hne. rewrite bool_decide_eq_false_2 in Et by done. by apply negb_false_iff in Et. }
  destruct (bool_decide (ps_type p = "string") && blank_arg v); cbv iota.
  { unfold requiresNonBlankString. destruct (f_positive (ps_minLength p)); cbn [orb]; [split; [done|intros [_ Hx]; exfalso; apply Hx; by left]|].
    clear Et. case_bool_decide as Hin.
    - split; [done|]. intros [_ Hx]. exfalso. apply Hx. by right.
    - split; [|done]. intros _. split; [done|]. by intros [?|?]. }
  pose proof (checkNumber_ok name p v) as Hn. pose proof (checkEnum_ok name p v) as Hen.
  destruct (checkNumber name p v) as [[]| |]; cbn [mbind result_bind].
  - rewrite Hen. split; [intros He; split; [done|split; [by apply Hn|done]]|by intros [_ [_ He]]].
  - split; [done|]. intros [_ [Hx _]]. by pose proof (proj2 Hn Hx).
  - split; [done|]. intros [_ [Hx _]]. by pose proof (proj2 Hn Hx).
Qed.

Lemma checkArgs_conforms schema args : checkArgs schema args = Ok tt ↔ conforms schema args.
Proof.
  unfold checkArgs. pose proof (foldR_all (λ name, if bool_decide (name ∈ args.*1) then Ok tt else failf "missing required parameter: %s" [name]) (ts_Required schema)) as Hreq.
  assert (foldR (λ _ name, if bool_decide (name ∈ args.*1) then Ok tt else failf "missing required parameter: %s" [name]) tt (ts_Required schema) = Ok tt ↔
    ∀ name, name ∈ ts_Required schema → name ∈ args.*1) as Hr.
  { rewrite Hreq. split; intros Ha name Hn; specialize (Ha name Hn); [by case_bool_decide|by rewrite bool_decide_eq_true_2]. }
  destruct (foldR _ tt (ts_Required schema)) as [[]| |] eqn:Ef; cbn [mbind result_bind].
  2,3: split; [done|]; intros [Hq _ _]; by apply Hr in Hq.
  destruct (sort_strings _) as [|u us] eqn:Es.
  2: { split; [done|]. intros [_ Hk _]. exfalso. assert (u ∈ sort_strings (List.filter (λ name, negb (bool_decide (is_Some (ts_Properties schema !! name)))) args.*1)) as Hu
         by (rewrite Es; left).
       rewrite sort_strings_elem, list_elem_of_In, List.filter_In, <- list_elem_of_In, negb_true_iff in Hu.
       destruct Hu as [Hin Hne]. apply Hk in Hin. by rewrite bool_decide_eq_true_2 in Hne. }
  assert (∀ name, name ∈ args.*1 → is_Some (ts_Properties schema !! name)) as Hknown.
  { intros name Hn. destruct (decide (is_Some (ts_Properties schema !! name))) as [|Hno]; [done|]. exfalso.
    assert (name ∈ sort_strings (List.filter (λ name, negb (bool_decide (is_Some (ts_Properties schema !! name)))) args.*1)) as Hu.
    { rewrite sort_strings_elem, list_elem_of_In, List.filter_In, <- list_elem_of_In. split; [done|]. by rewrite bool_decide_eq_false_2. }
    rewrite Es in Hu. by apply not_elem_of_nil in Hu. }
  rewrite foldR_all. split.
  - intros Ha. split; [by apply Hr|done|]. intros name v p Hin Hp. eapply check_arg_ok; [done|]. by apply Ha.
  - intros [_ _ He] [name v] Hin. destruct (Hknown name) as [p Hp]; [by apply (list_elem_of_fmap_2 fst _ (name, v))|].
    apply (check_arg_ok _ _ _ _ Hp). by eapply He.
Qed.

(** The schema check is the schema. A call passes exactly when every required
    argument is there, no argument is unknown, and each one has the declared type, is
    not blank where it must not be, lies within the declared bounds, is a multiple and
    is one of the listed values where the schema says so; the order in which the
    arguments are visited makes no difference to that. *)
Theorem checkArgs_exact schema args args' : args ≡ₚ args' →
  (checkArgs schema args = Ok tt ↔ conforms schema args) ∧ (checkArgs schema args = Ok tt ↔ checkArgs schema args' = Ok tt).
Proof.
  intros Hperm. split; [apply checkArgs_conforms|]. rewrite !checkArgs_conforms.
  split; intros [Hr Hk He]; split.
  1,4: intros name Hn; (rewrite <- Hperm || rewrite Hperm); by apply Hr.
  1,3: intros name Hn; apply Hk; (rewrite <- Hperm in Hn || rewrite Hperm in Hn); done.
  1,2: intros name v p Hin; apply He; (by rewrite Hperm || by rewrite <- Hperm).
Qed.
End schema.

(** ** What a call may ask

    [only P p]: whatever was asked before, [p] adds only requests with [P]. *)
Section only.
Context (P : request → Prop).
Definition only {A} (p : stateR (list request) A) : Prop :=
  ∀ asked asked' r, p asked = (asked', r) → ∃ new, asked' = asked ++ new ∧ Forall P new.

Lemma only_same {A} (p : stateR (list request) A) : (∀ asked, (p asked).1 = asked) → only p.
Proof. intros Hs asked asked' r E. exists []. rewrite app_nil_r. split; [|done]. specialize (Hs asked). by rewrite E in Hs. Qed.
Lemma only_ret {A} (a : A) : only (mret a).
Proof. by apply only_same. Qed.
Lemma only_lift {A} (r : result A) : only (lift r).
Proof. by apply only_same. Qed.
Lemma only_fail {A} e : only (A := A) (fail e).
Proof. by apply only_same. Qed.
Lemma only_check o : only (check o).
Proof. by destruct o; apply only_same. Qed.
Lemma only_bind {A B} (p : stateR (list request) A) (f : A → stateR (list request) B) : only p → (∀ a, only (f a)) → only (p ≫= f).
Proof.
  intros Hp Hf asked asked' r. unfold mbind, stateR_bind. destruct (p asked) as [asked1 [a|e|]] eqn:E; [|intros [= <- <-]; by eapply Hp..].
  intros Hr. destruct (Hp _ _ _ E) as (n1 & -> & H1). destruct (Hf a _ _ _ Hr) as (n2 & -> & H2).
  exists (n1 ++ n2). rewrite app_assoc, Forall_app. done.
Qed.
Lemma only_attempt {A} (p : stateR (list request) A) : only p → only (attempt p).
Proof. intros Hp asked asked' r. unfold attempt. destruct (p asked) as [asked1 [a|e|]] eqn:E; intros [= <- <-]; by eapply Hp. Qed.
Lemma only_wrapped {A} format (p : stateR (list request) A) : only p → only (wrapped format p).
Proof. intros Hp asked asked' r. unfold wrapped. destruct (p asked) as [asked1 r1] eqn:E. intros [= <- <-]. by eapply Hp. Qed.

Context `{McpPeers}.
Lemma only_ask q : P q → only (ask q).
Proof. intros Hq asked asked' r [= <- <-]. exists [q]. split; [done|by repeat constructor]. Qed.
Lemma only_ask_or format args q : P q → only (ask_or format args q).
Proof. intros Hq asked asked' r [= <- <-]. exists [q]. split; [done|by repeat constructor]. Qed.
Lemma only_log q : P q → only (log q).
Proof. intros Hq asked asked' r [= <- <-]. exists [q]. split; [done|by repeat constructor]. Qed.
End only.

(** Past a computation, its value is known. *)
Lemma only_lift_bind P {A B} (r : result A) (f : A → stateR (list request) B) : (∀ a, r = Ok a → only P (f a)) → only P (lift r ≫= f).
Proof.
  intros Hf asked asked' res. unfold mbind, stateR_bind, lift. destruct r as [a|e|]; [by apply Hf|..];
    intros [= <- <-]; exists []; by rewrite app_nil_r.
Qed.
Lemma only_wrapped_lift_bind P {A B} format (r : result A) (f : A → stateR (list request) B) :
  (∀ a, r = Ok a → only P (f a)) → only P (wrapped format (lift r) ≫= f).
Proof.
  intros Hf asked asked' res. unfold mbind, stateR_bind, wrapped, lift. destruct r as [a|e|]; [by apply Hf|..];
    intros [= <- <-]; exists []; by rewrite app_nil_r.
Qed.

Create HintDb mcp.
#[export] Hint Resolve only_ret only_lift only_fail only_check only_ask only_ask_or only_log only_attempt only_wrapped : mcp.

(** Take a program apart; what is left are the requests it makes. *)
Ltac only_steps :=
  repeat match goal with
  | |- only _ (lift _ ≫= _) => apply only_lift_bind; intros ? ?
  | |- only _ (wrapped _ (lift _) ≫= _) => apply only_wrapped_lift_bind; intros ? ?
  | |- only _ (_ ≫= _) => apply only_bind; [|intros ?]
  | |- only _ (let '(_, _) := ?x in _) => destruct x
  | |- only _ (if ?b then _ else _) => destruct b
  | |- only _ (wrapped _ _) => apply only_wrapped
  | |- only _ (attempt _) => apply only_attempt
  | |- only _ (match ?x with _ => _ end) => destruct x eqn:?
  end; auto with mcp.

Section server_props.
Context (AccAddress : string → result string) `{McpPeers, FloatText} (cctx : client_ctx) (authType : string) (now : Z).
Abbreviation NewServer := (New AccAddress cctx authType now).
Abbreviation read_only := (λ q, writes q = false).

Lemma owner_or_only P format empty explicit : only P (owner_or AccAddress cctx format empty explicit).
Proof. unfold owner_or. only_steps. Qed.
Lemma required_bid_only P args : only P (required_bid args).
Proof. unfold required_bid. only_steps. Qed.
Lemma registeredProviderURL_only P owner : P (Provider owner) → only P (registeredProviderURL owner).
Proof. intros HP. unfold registeredProviderURL. only_steps. Qed.
Lemma resolveRegisteredProvider_only P args : (∀ owner, P (Provider owner)) → only P (resolveRegisteredProvider AccAddress args).
Proof. intros HP. unfold resolveRegisteredProvider. only_steps. by apply registeredProviderURL_only. Qed.
Local Hint Resolve owner_or_only required_bid_only registeredProviderURL_only resolveRegisteredProvider_only : mcp.

Lemma query_tools_read t : t ∈ query_tools AccAddress cctx authType now → ∀ args, only read_only (t.2 args).
Proof.
  intros Ht args. unfold query_tools in Ht. rewrite !elem_of_cons, elem_of_nil in Ht.
  destruct_or! Ht; subst t; cbn [snd];
    unfold HandleNodeStatus, HandleBlockHeight, HandleAccountBalance, HandleListDeployments, HandleGetDeployment, HandleGetGroup, HandleListOrders,
      HandleGetOrder, HandleListBids, HandleGetBid, HandleListLeases, HandleGetLease, HandleListProviders, HandleGetProvider, HandleProviderStatus,
      HandleLeaseStatus, HandleServiceStatus, HandleListAuditedProviders, HandleListCertificates, owner_of; only_steps; done.
Qed.
Lemma console_query_tools_read t : t ∈ console_query_tools → ∀ args, only read_only (t.2 args).
Proof.
  intros Ht args. unfold console_query_tools in Ht. rewrite !elem_of_cons, elem_of_nil in Ht.
  destruct_or! Ht; subst t; cbn [snd];
    unfold console_HandleListDeployments, console_HandleGetDeployment, console_HandleListBids, HandleWalletBalance, HandleUsageHistory,
      console_HandleListProviders, console_HandleGetProvider, HandleGPUPrices; only_steps; done.
Qed.

(** ** Registration *)
Section registered.
Context (Q : annotations → ToolInputSchema → handler → Prop).

(** Every tool has a schema, and [Q] of its annotations, schema and handler. *)
Definition registered (s : Server) : Prop := ∀ name a h, sv_tools s !! name = Some (a, h) → ∃ schema, sv_schemas s !! name = Some schema ∧ Q a schema h.

Lemma add_tools_registered a l : ∀ s, registered s → (∀ t, t ∈ l → Q a (td_InputSchema t.1) t.2) → registered (foldl (add_tool a) s l).
Proof.
  induction l as [|t l IH]; intros s Hs Hl; [done|]. cbn [foldl]. apply IH; [|by intros t' Ht'; apply Hl; right].
  intros name a' h'. cbn [add_tool sv_tools sv_schemas]. intros [[<- [= <- <-]]|[Hne Ht]]%lookup_insert_Some.
  - exists (td_InputSchema t.1). rewrite lookup_insert_eq. split; [done|]. apply Hl. by left.
  - rewrite lookup_insert_ne by done. by apply Hs in Ht.
Qed.

Lemma New_registered light signer enableWrites console s : NewServer light signer enableWrites console = Ok s →
  (∀ t, t ∈ query_tools AccAddress cctx authType now ++ console_query_tools → Q queryToolAnnotations (td_InputSchema t.1) t.2) →
  (enableWrites = true → ∀ t, t ∈ write_tools AccAddress cctx authType now ++ console_write_tools → Q writeToolAnnotations (td_InputSchema t.1) t.2) →
  registered s.
Proof.
  intros HN Hq Hw. assert (registered empty_server) as He by done.
  assert (∀ s, registered s → registered (registerQueryTools AccAddress cctx authType now s)) as H1.
  { intros s0 Hs. apply add_tools_registered; [done|]. intros t Ht. apply Hq, elem_of_app. by left. }
  assert (∀ s, registered s → registered (registerConsoleQueryTools s)) as H2.
  { intros s0 Hs. apply add_tools_registered; [done|]. intros t Ht. apply Hq, elem_of_app. by right. }
  assert (∀ s, enableWrites = true → registered s → registered (registerWriteTools AccAddress cctx authType now s)) as H3.
  { intros s0 Hen Hs. apply add_tools_registered; [done|]. intros t Ht. apply Hw, elem_of_app; [done|by left]. }
  assert (∀ s, enableWrites = true → registered s → registered (registerConsoleWriteTools s)) as H4.
  { intros s0 Hen Hs. apply add_tools_registered; [done|]. intros t Ht. apply Hw, elem_of_app; [done|by right]. }
  unfold New in HN. destruct (registerChainTools _ _ _ _ _ _ _) as [s0 chainErr] eqn:Ec.
  assert (registered s0) as Hs0.
  { revert Ec. unfold registerChainTools. case_bool_decide; [by intros [= <- _]|]. destruct light; [by intros [= <- _]|].
    set (s1 := registerQueryTools _ _ _ _ _). assert (registered s1) as Hs1 by (by apply H1).
    destruct (negb _) eqn:En; [by intros [= <- _]|]. destruct signer; [by intros [= <- _]|]. intros [= <- _]. apply H3; [|done].
    by destruct enableWrites. }
  assert (registered (if console then (let s := registerConsoleQueryTools s0 in if enableWrites then registerConsoleWriteTools s else s) else s0)) as Hs1.
  { destruct console; [|done]. destruct enableWrites; auto. }
  destruct chainErr; [by injection HN as <-| |by injection HN as <-]. destruct console; [by injection HN as <-|done].
Qed.
End registered.

Lemma query_tool_read t : t ∈ query_tools AccAddress cctx authType now ++ console_query_tools → ∀ args, only read_only (t.2 args).
Proof. intros [Ht|Ht]%elem_of_app; [by apply query_tools_read|by apply console_query_tools_read]. Qed.

(** A call to a registered tool: the schema decides whether the handler runs. *)
Lemma CallTool_registered Q s name a h : registered Q s → sv_tools s !! name = Some (a, h) →
  ∃ schema, sv_schemas s !! name = Some schema ∧ Q a schema h ∧
    ∀ args asked, CallTool s name args asked =
      match checkArgs schema args with Ok _ => h (normalizedOptionalStrings schema args) asked | Err e => (asked, Err e) | Panic => (asked, Panic) end.
Proof.
  intros Hs Ht. destruct (Hs _ _ _ Ht) as (schema & Hsch & HQ). exists schema. split_and!; [done..|]. intros args asked.
  unfold CallTool, validateArguments. rewrite Ht, Hsch. unfold mbind, stateR_bind, lift. by destruct (checkArgs schema args).
Qed.

Lemma CallTool_only P Q s : registered Q s → (∀ a schema h, Q a schema h → ∀ args, only P (h args)) → ∀ name args, only P (CallTool s name args).
Proof.
  intros Hs HP name args asked asked' r. destruct (sv_tools s !! name) as [[a h]|] eqn:Et.
  - destruct (CallTool_registered Q s name a h Hs Et) as (schema & _ & HQ & Hcall). rewrite Hcall.
    destruct (checkArgs schema args); [by eapply HP|intros [= <- <-]; exists []; by rewrite app_nil_r..].
  - unfold CallTool. rewrite Et. intros [= <- <-]. exists []. by rewrite app_nil_r.
Qed.

(** C15: Writes need consent. A server started without it makes no request that changes
    anything, whatever tool is called with whatever arguments and whatever the peers
    answer: no transaction, no manifest, no Console close. With consent, a tool that is
    annotated read-only still makes none. *)
Theorem writes_need_consent light signer enableWrites console s name args asked asked' r :
  NewServer light signer enableWrites console = Ok s → CallTool s name args asked = (asked', r) →
  ∃ new, asked' = asked ++ new ∧
    (enableWrites = false ∨ (∃ a h, sv_tools s !! name = Some (a, h) ∧ an_ReadOnly a = true) → Forall read_only new).
Proof.
  intros HN HC. set (Q := λ a (_ : ToolInputSchema) (h : handler), an_ReadOnly a = true → ∀ args, only read_only (h args)).
  assert (registered Q s) as Hreg.
  { eapply New_registered; [done|intros t Ht _; by apply query_tool_read|by intros _ t _]. }
  assert (∃ new, asked' = asked ++ new) as [new ->].
  { destruct (CallTool_only (λ _, True) (λ _ _ h, ∀ args, only (λ _, True) (h args)) s) with name args asked asked' r as (new & -> & _); [|done|done|by exists new].
    eapply New_registered; [done| |].
    - intros t Ht a1 as1 as2 r1 E1. destruct (query_tool_read t Ht a1 _ _ _ E1) as (n & -> & _). exists n. split; [done|]. by apply Forall_true.
    - intros Hen t Ht args1. unfold write_tools, console_write_tools in Ht. cbn [app] in Ht. rewrite !elem_of_cons, elem_of_nil in Ht.
      destruct_or! Ht; subst t; cbn [snd]; unfold HandleCloseDeployment, HandleCreateLease, HandleCloseLease, HandleSubmitManifest, console_HandleCloseDeployment;
        only_steps. }
  exists new. split; [done|]. intros [->|(a & h & Ht & Ha)].
  - assert (registered (λ _ _ h, ∀ args, only read_only (h args)) s) as Hall.
    { eapply New_registered; [done|intros t Ht; by apply query_tool_read|done]. }
    destruct (CallTool_only _ _ s Hall (λ a sch h Hh, Hh) name args asked (asked ++ new) r HC) as (n & E & Hn).
    by apply app_inv_head in E as ->.
  - destruct (CallTool_registered Q s name a h Hreg Ht) as (schema & _ & HQ & Hcall). rewrite Hcall in HC.
    destruct (checkArgs schema args).
    + destruct (HQ Ha _ _ _ _ HC) as (n & E & Hn). by apply app_inv_head in E as ->.
    + injection HC as E _. rewrite <- (app_nil_r asked) in E at 1. by apply app_inv_head in E as <-.
    + injection HC as E _. rewrite <- (app_nil_r asked) in E at 1. by apply app_inv_head in E as <-.
Qed.

(** Handlers only ever see arguments their schema describes. On every server that
    was started, a call to a tool it has runs the handler exactly when the arguments
    conform to the schema the tool declared, with the blank optional strings taken out;
    any other call is answered with an error and asks nothing of any peer. *)
Theorem handlers_see_valid_arguments light signer enableWrites console s name a h :
  NewServer light signer enableWrites console = Ok s → sv_tools s !! name = Some (a, h) →
  ∃ schema, sv_schemas s !! name = Some schema ∧ ∀ args asked,
    (conforms schema args → CallTool s name args asked = h (normalizedOptionalStrings schema args) asked) ∧
    (¬ conforms schema args → (CallTool s name args asked).1 = asked ∧ is_ok (CallTool s name args asked).2 = false) ∧
    (∀ key s0, (key, PStr s0) ∈ normalizedOptionalStrings schema args → blank s0 = true → key ∈ ts_Required schema).
Proof.
  intros HN Ht. assert (registered (λ _ _ _, True) s) as Hreg by (eapply New_registered; [done|done|done]).
  destruct (CallTool_registered _ s name a h Hreg Ht) as (schema & Hs & _ & Hcall). exists schema. split; [done|]. intros args asked. rewrite Hcall. split_and!.
  - intros Hc%checkArgs_conforms. by rewrite Hc.
  - intros Hc. assert (checkArgs schema args ≠ Ok tt) as Hn by (by intros ?%checkArgs_conforms). by destruct (checkArgs schema args) as [[]| |].
  - intros key s0 Hin Hb. unfold normalizedOptionalStrings in Hin. rewrite list_elem_of_In, List.filter_In in Hin. destruct Hin as [_ Hk]. cbn in Hk.
    rewrite Hb in Hk. cbn in Hk. case_bool_decide; done.
Qed.

(** ** Gateway tokens *)

(** The authentication of a gateway call for [scope] on [dseq], [gseq] and [oseq]. *)
Definition auth_ok (scope : string) (dseq gseq oseq : N) (auth : gateway_auth) : Prop :=
  match auth with
  | AuthMTLS => authType = "mtls"
  | AuthToken c =>
      ResolveAccountAddress AccAddress cctx = Ok (sc_Issuer c) ∧ sc_Issuer c ≠ "" ∧ sc_Provider c ≠ "" ∧
      (∃ services, sc_Deployments c = [MkPermission [scope] dseq gseq oseq services]) ∧
      sc_NotBefore c = now ∧ sc_ExpiresAt c = (now + 900 * second)%Z
  end.
Definition least_privilege (q : request) : Prop :=
  match q with
  | GatewayLeaseStatus _ auth dseq gseq oseq | GatewayServiceStatus _ auth dseq gseq oseq _ => auth_ok scope_status dseq gseq oseq auth
  | GatewaySubmitManifest _ auth dseq _ => auth_ok scope_send_manifest dseq 0 0 auth
  | _ => True
  end.

Lemma gatewayClient_ok url provider scope dseq gseq oseq services auth :
  gatewayClient AccAddress cctx authType now url provider (MkPermission [scope] dseq gseq oseq services) = Ok auth → auth_ok scope dseq gseq oseq auth.
Proof.
  unfold gatewayClient, NewScopedGatewayClient. intros (addr & Ha & HN)%bind_ok. apply bind_ok in HN as ([] & Hv & HN).
  case_bool_decide as Hp; [done|]. apply bind_ok in HN as (auth' & Hauth & HN). destruct (new_rest_client url); [done|]. injection HN as <-.
  case_bool_decide as Hm; [destruct load_certificate; [done|]; by injection Hauth as <-|].
  apply bind_ok in Hauth as (claims & Hc & Hauth). injection Hauth as <-. unfold newScopedJWT in Hc.
  destruct (validate_leases _); [done|]. destruct (sign_token _); [done|]. injection Hc as <-. cbn. split_and!; [done| |done|by exists services|done..].
  unfold ValidateGatewayAuthentication in Hv. destruct (negb _); [done|]. by case_bool_decide.
Qed.
Local Hint Resolve gatewayClient_ok : mcp.
Local Hint Extern 1 (least_privilege _) => exact I : mcp.

Lemma gateway_tools_scoped t :
  t ∈ (query_tools AccAddress cctx authType now ++ console_query_tools) ++ write_tools AccAddress cctx authType now ++ console_write_tools →
  ∀ args, only least_privilege (t.2 args).
Proof.
  intros Ht args. unfold query_tools, console_query_tools, write_tools, console_write_tools in Ht. cbn [app] in Ht.
  rewrite !elem_of_cons, elem_of_nil in Ht. destruct_or! Ht; subst t; cbn [snd];
    unfold HandleNodeStatus, HandleBlockHeight, HandleAccountBalance, HandleListDeployments, HandleGetDeployment, HandleGetGroup, HandleListOrders,
      HandleGetOrder, HandleListBids, HandleGetBid, HandleListLeases, HandleGetLease, HandleListProviders, HandleGetProvider, HandleProviderStatus,
      HandleLeaseStatus, HandleServiceStatus, HandleListAuditedProviders, HandleListCertificates, owner_of,
      console_HandleListDeployments, console_HandleGetDeployment, console_HandleListBids, HandleWalletBalance, HandleUsageHistory,
      console_HandleListProviders, console_HandleGetProvider, HandleGPUPrices,
      HandleCloseDeployment, HandleCreateLease, HandleCloseLease, console_HandleCloseDeployment; only_steps; try done.
  all: try (apply only_ask_or; first [exact I|cbn [least_privilege]; by eapply gatewayClient_ok]).
  unfold HandleSubmitManifest. only_steps; try done. apply only_ask. cbn [least_privilege]. by eapply gatewayClient_ok.
Qed.

(** Gateway calls carry no more authority than they need. Every call a tool makes
    to a provider that needs authentication is made with the certificate of the
    account, when the context says so, or with a token of the account for one provider
    and one deployment: the status operation on the lease that was asked for, or the
    manifest operation on the deployment, valid for a quarter of an hour. *)
Theorem gateway_calls_scoped light signer enableWrites console s name args asked asked' r :
  NewServer light signer enableWrites console = Ok s → CallTool s name args asked = (asked', r) →
  ∃ new, asked' = asked ++ new ∧ Forall least_privilege new.
Proof.
  intros HN HC. assert (registered (λ _ _ h, ∀ args, only least_privilege (h args)) s) as Hreg.
  { eapply New_registered; [done|intros t Ht; apply gateway_tools_scoped, elem_of_app; by left|].
    intros _ t Ht. apply gateway_tools_scoped, elem_of_app. by right. }
  by eapply (CallTool_only _ _ s Hreg (λ a sch h Hh, Hh)).
Qed.
End server_props.

(** ** The properties at concrete inputs *)
Module McpDemo.
#[global] Instance peers : McpPeers := {|
  respond _ _ := Ok JNull; host_uri _ := "https://gateway"; user_id _ := "u"; wallet_addresses _ := []; usd_balances j := j;
  parse_manifest _ := Ok JNull; validate_manifest _ := None; manifest_services _ := ["web"]; parse_date _ := None; load_certificate := None;
  validate_leases _ := None; sign_token _ := None; new_rest_client _ := None |}.
#[global] Instance texts : FloatText := {| fmt_v _ := ""; fmt_g _ := ""; fmt_f _ := ""; near_multiple _ _ := false |}.

Definition address (s : string) : result string := Ok s.
Definition cctx : client_ctx := MkClientCtx "tcp://node:26657" (Some "akash1me") "" (Some (λ _, Ok None, λ _, true)).
Definition started (writes : bool) : result Server := New address cctx "jwt" 0 None None writes false.
Definition server (writes : bool) : Server := match started writes with Ok s => s | _ => empty_server end.
Lemma started_ok writes : started writes = Ok (server writes).
Proof. by destruct writes. Qed.

Definition lease_args : arguments := [("provider", PStr "akash1prov"); ("dseq", PNum (f_int 7)); ("gseq", PNum (FFin 4 (-2))); ("oseq", PNum (f_int 1))].

Lemma require_uint_exact_witness : require_uint 32 lease_args "gseq" = Ok 1%N.
Proof.
  apply (require_uint_exact 32 lease_args "gseq" 1); [lia|]. exists (FFin 4 (-2)).
  split_and!; [reflexivity|right; split; [lia|reflexivity]|lia|lia|lia].
Defined.

Lemma checkArgs_exact_witness : conforms (td_InputSchema ToolLeaseStatus) lease_args.
Proof. apply (checkArgs_exact (td_InputSchema ToolLeaseStatus) lease_args lease_args (Permutation_refl _)). vm_compute. reflexivity. Defined.

Lemma writes_need_consent_witness :
  Forall (λ q, writes q = false) (CallTool (server false) "akash_close_deployment" [("dseq", PNum (f_int 7))] []).1.
Proof.
  destruct (writes_need_consent address cctx "jwt" 0 None None false false (server false) "akash_close_deployment" [("dseq", PNum (f_int 7))] [] _ _
    (started_ok false) (surjective_pairing _)) as (new & E & Hn).
  rewrite E. apply Hn. left. reflexivity.
Defined.

Lemma handlers_see_valid_arguments_witness :
  (CallTool (server true) "akash_close_deployment" [("dseq", PNum (FFin 3 (-1)))] []).1 = [].
Proof.
  assert (∃ a h, sv_tools (server true) !! "akash_close_deployment" = Some (a, h)) as (a & h & Ht) by (eexists _, _; vm_compute; reflexivity).
  destruct (handlers_see_valid_arguments address cctx "jwt" 0 None None true false (server true) "akash_close_deployment" a h (started_ok true) Ht)
    as (schema & Hs & Hall).
  assert (schema = td_InputSchema ToolCloseDeployment) as -> by (vm_compute in Hs |- *; congruence).
  destruct (Hall [("dseq", PNum (FFin 3 (-1)))] []) as (_ & Hno & _). apply Hno. intros Hc.
  apply checkArgs_conforms in Hc. vm_compute in Hc. discriminate Hc.
Defined.

Lemma gateway_calls_scoped_witness :
  Forall (least_privilege address cctx "jwt" 0) (CallTool (server false) "akash_lease_status" lease_args []).1 ∧
  length (CallTool (server false) "akash_lease_status" lease_args []).1 = 2.
Proof.
  destruct (gateway_calls_scoped address cctx "jwt" 0 None None false false (server false) "akash_lease_status" lease_args [] _ _
    (started_ok false) (surjective_pairing _)) as (new & E & Hn).
  split; [rewrite E; exact Hn|vm_compute; reflexivity].
Defined.
End McpDemo.
