(* ===== verification/Gateway.v ===== *)
(** * The boundary to provider gateways (internal/provider: boundary.go, gateway.go)

    One-shot requests with bounded bodies, the sanitizing of everything a gateway can
    put into an error, and the reading of log and event streams. The HTTP transport,
    JSON decoding of answers, ANSI stripping and the REST library's texts are
    parameters. *)

From Stdlib Require Import Ascii.
From stdpp Require Import sorting base gmap strings pretty option numbers list.
From S2P Require Import Prelude GoStd GoJson Context ConfigDoc Workflow GoText.

Definition gatewayResponseBodyLimit : N := 16777216.
Definition gatewayStreamMessageLimit : N := 16777216.
Definition gatewayErrorBodyLimit : N := 65536.
Definition gatewayErrorDetailLimit : Z := 4096.
Definition gatewayContentTypeJSON : string := "application/json; charset=UTF-8".
Definition gatewayTruncatedDetailLabel : string := "... [truncated]".
Definition redacted : string := "[REDACTED]".

(** ** Bounding a text *)
Definition strlen (s : string) : Z := Z.of_nat (length (bytes_of s)).
Definition first_bytes (n : Z) (s : string) : string := of_bytes (take (Z.to_nat n) (bytes_of s)).

(** [for !utf8.ValidString(detail) { detail = detail[:len(detail)-1] }]; the empty
    text is valid. *)
Fixpoint trim_invalid (rev : list ascii) : list ascii :=
  match rev with
  | [] => []
  | _ :: rest => if utf8_ok (of_bytes (reverse rev)) then rev else trim_invalid rest
  end.
Definition valid_prefix (s : string) : string := of_bytes (reverse (trim_invalid (reverse (bytes_of s)))).

Definition boundGatewayDetail (detail : string) (limit : Z) (truncated : bool) : string :=
  if (limit <=? 0)%Z then ""
  else if (strlen detail <=? limit)%Z && negb truncated then detail
  else if (limit <? strlen gatewayTruncatedDetailLabel)%Z then first_bytes limit gatewayTruncatedDetailLabel
  else
    let contentLimit := (limit - strlen gatewayTruncatedDetailLabel)%Z in
    let detail := if (contentLimit <? strlen detail)%Z then valid_prefix (first_bytes contentLimit detail) else detail in
    TrimSpace detail +:+ gatewayTruncatedDetailLabel.

(** ** Sanitizing a text *)

(** [strings.Map] with a function that keeps a rune or makes it a space: control
    characters become spaces, bytes that are no rune become U+FFFD. *)
Definition ascii_control (c : ascii) : bool := byte_in 0 31 c || byte_in 127 127 c.
Definition c1_control (c1 c2 : ascii) : bool := byte_in 194 194 c1 && byte_in 128 159 c2.
Fixpoint blank_controls (l : list ascii) : list ascii :=
  match l with
  | [] => []
  | c1 :: t1 =>
      if ascii_control c1 then " "%char :: blank_controls t1
      else match t1 with
           | c2 :: t2 => if c1_control c1 c2 then " "%char :: blank_controls t2 else c1 :: blank_controls t1
           | [] => [c1]
           end
  end.
Definition map_controls (s : string) : string := of_bytes (blank_controls (utf8_coerce (bytes_of s))).

(** *** Regular expressions: the rests after each match, the preferred one first. *)
Abbreviation matcher := (list ascii → list (list ascii)).
Definition m_byte (p : ascii → bool) : matcher := λ l, match l with c :: t => if p c then [t] else [] | [] => [] end.
Definition m_seq (m1 m2 : matcher) : matcher := λ l, m1 l ≫= m2.
Definition m_opt (m : matcher) : matcher := λ l, m l ++ [l].
Fixpoint m_star (p : ascii → bool) (l : list ascii) : list (list ascii) :=
  match l with c :: t => if p c then m_star p t ++ [l] else [l] | [] => [l] end.
Definition m_plus (p : ascii → bool) : matcher := m_seq (m_byte p) (m_star p).
Definition m_all (ms : list matcher) : matcher := foldr m_seq (λ l, [l]) ms.
(** A letter of either case; [k] also matches the Kelvin sign. *)
Definition m_letter (c : ascii) : matcher := λ l,
  m_byte (λ x, bool_decide (lower_byte x = c)) l
  ++ (if bool_decide (c = "k"%char) then match strip_prefix (ascii_of_N <$> [226; 132; 170]%N) l with Some t => [t] | None => [] end else []).
Definition m_word (s : string) : matcher := m_all (m_letter <$> bytes_of s).
Definition quote_char (c : ascii) : bool := bool_decide (N_of_ascii c = 34 ∨ N_of_ascii c = 39)%N.
Definition re_space (c : ascii) : bool := bool_decide (N_of_ascii c ∈ [9; 10; 12; 13; 32]%N).
Definition one_char (s : string) (c : ascii) : bool := bool_decide (c ∈ bytes_of s).
(** What ends a credential: white space, a comma, a semicolon, a quote, or a closing
    or angle bracket. *)
Definition credential_byte (c : ascii) : bool := negb (re_space c || quote_char c || one_char ",;<>}]" c).

Definition assigned : list matcher := [m_opt (m_byte quote_char); m_star re_space; m_byte (one_char ":="); m_star re_space; m_opt (m_byte quote_char)].
Definition authorization_re : matcher :=
  m_all ([m_word "authorization"] ++ assigned ++ [m_opt (m_seq (m_word "bearer") (m_plus re_space)); m_plus credential_byte]).
Definition bearer_re : matcher := m_all [m_word "bearer"; m_plus re_space; m_plus credential_byte].
Definition api_key_re : matcher :=
  m_all ([m_opt (m_word "x-"); m_word "api"; m_opt (m_byte (one_char "-_ ")); m_word "key"] ++ assigned ++ [m_plus credential_byte]).

(** [ReplaceAllString] of an expression that matches no empty text; [skip] counts the
    bytes of a match still to be passed over. *)
Fixpoint re_replace (m : matcher) (new : list ascii) (skip : nat) (l : list ascii) : list ascii :=
  match l with
  | [] => []
  | c :: t =>
      match skip with
      | S k => re_replace m new k t
      | O => match m l with
             | rest :: _ => new ++ re_replace m new (length t - length rest) t
             | [] => c :: re_replace m new 0 t
             end
      end
  end.
Definition ReplaceAllString (m : matcher) (new s : string) : string := of_bytes (re_replace m (bytes_of new) 0 (bytes_of s)).

Definition credentialPatterns : list (matcher * string) := [
  (authorization_re, "Authorization: [REDACTED]"); (bearer_re, "Bearer [REDACTED]"); (api_key_re, "api-key: [REDACTED]")].

(** *** [strings.Fields] *)
Definition flush (word : list ascii) (words : list (list ascii)) : list (list ascii) :=
  match word with [] => words | _ => reverse word :: words end.
(** [word] is the word being read, reversed. *)
Fixpoint fields (fuel : nat) (word l : list ascii) : list (list ascii) :=
  match fuel with
  | O => flush word []
  | S fuel =>
      match l with
      | [] => flush word []
      | c :: t => match first_space space_runes l with
                  | Some rest => flush word (fields fuel [] rest)
                  | None => fields fuel (c :: word) t
                  end
      end
  end.
Definition Fields (s : string) : list string := of_bytes <$> fields (S (length (bytes_of s))) [] (bytes_of s).

Section sanitize.
Context (ansi_Strip : string → string).

Definition redact_secret (detail secret : string) : string := if bool_decide (secret = "") then detail else ReplaceAll detail secret redacted.
Definition sanitizeGatewayDetail (detail : string) (secrets : list string) : string :=
  let detail := map_controls (ansi_Strip detail) in
  let detail := foldl redact_secret detail secrets in
  let detail := foldl (λ d p, ReplaceAllString p.1 p.2 d) detail credentialPatterns in
  strings_Join (Fields detail) " ".

(** ** Errors

    [EResponse] is the REST library's [ClientResponseError], [EText] an error that is
    only its text, [EBoundary] the boundary's own. *)
Inductive gerror : Type := EResponse (status : Z) (message : string) | EText (text : string) | EBoundary (message : string) (cause : gerror).
Context (response_text : Z → string → string).
Definition error_text (e : gerror) : string := match e with EResponse s m => response_text s m | EText t => t | EBoundary m _ => m end.
Fixpoint as_response (e : gerror) : option (Z * string) :=
  match e with EResponse s m => Some (s, m) | EText _ => None | EBoundary _ c => as_response c end.

(** [append(client.redactionSecrets, secrets...)]. *)
Definition sanitizeError (redactionSecrets : list string) (e : gerror) (secrets : list string) : gerror :=
  let clean s := boundGatewayDetail (sanitizeGatewayDetail s (redactionSecrets ++ secrets)) gatewayErrorDetailLimit false in
  match as_response e with
  | Some (status, message) => EResponse status (clean message)
  | None => EBoundary (clean (error_text e)) e
  end.

(** One reason of a stream that closed. *)
Definition sanitize_reason (redactionSecrets : list string) (reason : string) : string :=
  boundGatewayDetail (sanitizeGatewayDetail reason redactionSecrets) gatewayErrorDetailLimit false.

(** ** One-shot requests *)

(** A body: what arrives, and the error that ends it, if it does not end by itself. *)
Record body : Type := MkBody { by_data : string; by_error : option gerror }.
Definition readGatewayBody (b : body) (limit : N) : string * bool + gerror :=
  let n := byte_len (by_data b) in
  if (limit <? n)%N then inl (of_bytes (take (N.to_nat limit) (bytes_of (by_data b))), true)
  else match by_error b with Some e => inr e | None => inl (by_data b, false) end.

(** The request as it was sent. *)
Record http_request : Type := MkRequest { hr_method : string; hr_uri : string; hr_body : option string; hr_token : string }.
(** What a one-shot call goes through: encoding the payload, the URI, the request, the
    token, the transport, and decoding the answer. *)
Record one_shot_io : Type := MkOneShot {
  os_payload : option (string + gerror); os_uri : string + gerror; os_request : option gerror; os_authorization : option (string + gerror);
  os_do : http_request → gerror + Z * body; os_decode : string → option gerror;
}.

Definition bad_status (redactionSecrets : list string) (token : string) (status : Z) (b : body) : gerror :=
  match readGatewayBody b gatewayErrorBodyLimit with
  | inr e => sanitizeError redactionSecrets e [token]
  | inl (detail, truncated) =>
      EResponse status (boundGatewayDetail (sanitizeGatewayDetail detail (redactionSecrets ++ [token])) gatewayErrorDetailLimit truncated)
  end.

(** [result] tells whether the caller wants the answer decoded; [inl] is the requests
    sent with the text that was decoded. *)
Definition doOneShot (redactionSecrets : list string) (io : one_shot_io) (method : string) (result : bool) : list http_request * (option string + gerror) :=
  match os_payload io with
  | Some (inr e) => ([], inr e)
  | payload =>
      let encoded := match payload with Some (inl text) => Some text | _ => None end in
      match os_uri io with
      | inr e => ([], inr (sanitizeError redactionSecrets e []))
      | inl uri =>
          match os_request io with
          | Some e => ([], inr (sanitizeError redactionSecrets e []))
          | None =>
              match os_authorization io with
              | Some (inr e) => ([], inr (sanitizeError redactionSecrets e []))
              | authorization =>
                  let token := match authorization with Some (inl token) => token | _ => "" end in
                  let req := MkRequest method uri encoded token in
                  match os_do io req with
                  | inl e => ([req], inr (sanitizeError redactionSecrets e [token]))
                  | inr (status, b) =>
                      if negb (status =? 200)%Z then ([req], inr (bad_status redactionSecrets token status b))
                      else match readGatewayBody b gatewayResponseBodyLimit with
                           | inr e => ([req], inr (sanitizeError redactionSecrets e [token]))
                           | inl (_, true) => ([req], inr (EText ("provider gateway response exceeds " +:+ FormatUint gatewayResponseBodyLimit +:+ "-byte limit")))
                           | inl (text, false) =>
                               if negb result then ([req], inl None)
                               else match os_decode io text with
                                    | Some e => ([req], inr (sanitizeError redactionSecrets e [token]))
                                    | None => ([req], inl (Some text))
                                    end
                           end
                  end
              end
          end
      end
  end.

(** ** Setting up a stream *)

(** A websocket that could not be opened: the error, whether it is the bad handshake,
    and the answer with its body, if there was one. *)
Record dial_failure : Type := MkDialFailure { df_error : gerror; df_handshake : bool; df_response : option (Z * option body) }.
Definition gatewayStreamSetupError (redactionSecrets : list string) (f : dial_failure) (token : string) : gerror :=
  match df_handshake f, df_response f with
  | true, Some (status, None) => EResponse status ""
  | true, Some (status, Some b) =>
      match readGatewayBody b gatewayErrorBodyLimit with
      | inr e => sanitizeError redactionSecrets (EBoundary ("read provider websocket handshake response: " +:+ error_text e) e) [token]
      | inl (detail, truncated) =>
          EResponse status (boundGatewayDetail (sanitizeGatewayDetail detail (redactionSecrets ++ [token])) gatewayErrorDetailLimit truncated)
      end
  | _, _ => sanitizeError redactionSecrets (df_error f) [token]
  end.

(** What an open websocket delivers: messages, then the error that ends it. *)
Inductive frame : Type := FText (message : string) | FOther.
Inductive read_error : Type := ReadClosed (code : Z) (text : string) | ReadFailed (text : string).
Record websocket : Type := MkWebsocket { ws_frames : list frame; ws_end : read_error }.

Definition CloseNormalClosure : Z := 1000.
Definition gatewayStreamReadReason (e : read_error) : string :=
  match e with
  | ReadClosed code text =>
      if bool_decide (code = CloseNormalClosure) then ""
      else if bool_decide (text = "") then "websocket close code " +:+ FormatInt code else text
  | ReadFailed text => text
  end.

(** [readGatewayStream] while its context lives: the records it sends and the one
    reason it sends before both channels close. *)
Fixpoint readGatewayStream {T} (decode : string → T + string) (frames : list frame) (finish : read_error) : list T * string :=
  match frames with
  | [] => ([], gatewayStreamReadReason finish)
  | FOther :: rest => readGatewayStream decode rest finish
  | FText message :: rest =>
      match decode message with
      | inr e => ([], e)
      | inl r => let '(records, reason) := readGatewayStream decode rest finish in (r :: records, reason)
      end
  end.

(** What opening a stream goes through: the scheme and the rest of the host, the
    token, the dialing and the first deadline. *)
Record stream_io : Type := MkStreamIo {
  si_scheme : string; si_authorization : option (string + gerror);
  si_dial : string → string → dial_failure + websocket; si_deadline : option gerror;
}.
Definition openGatewayStream {T} (decode : string → T + string) (redactionSecrets : list string) (io : stream_io) : (list T * string) + gerror :=
  if bool_decide (si_scheme io ∈ ["https"; "wss"]) then
    match si_authorization io with
    | Some (inr e) => inr (sanitizeError redactionSecrets e [])
    | authorization =>
        let token := match authorization with Some (inl token) => token | _ => "" end in
        match si_dial io "wss" token with
        | inl f => inr (gatewayStreamSetupError redactionSecrets f token)
        | inr ws =>
            match si_deadline io with
            | Some e => inr (sanitizeError redactionSecrets e [token])
            | None => inl (readGatewayStream decode (ws_frames ws) (ws_end ws))
            end
        end
    end
  else inr (EText ("invalid uri scheme " +:+ si_scheme io +:+ ". supported schemes http|https|ws|wss")).

(** [LeaseLogs] and [LeaseEvents]: the stream with its close reasons sanitized. *)
Definition lease_stream {T} (decode : string → T + string) (redactionSecrets : list string) (io : stream_io) : (list T * list string) + gerror :=
  match openGatewayStream decode redactionSecrets io with
  | inl (records, reason) => inl (records, [sanitize_reason redactionSecrets reason])
  | inr e => inr e
  end.

(** ** Errors for the user (gateway.go) *)
Definition GatewayError (action : string) (e : option gerror) : option gerror :=
  match e with
  | None => None
  | Some e =>
      let plain := EBoundary (action +:+ ": " +:+ error_text e) e in
      Some match as_response e with
           | Some (_, message) =>
               let detail := TrimSpace message in
               if bool_decide (detail = "") then plain else EBoundary (action +:+ ": " +:+ error_text e +:+ ": " +:+ detail) e
           | None => plain
           end
  end.
Definition GatewayErrorForProvider (action provider : string) (e : option gerror) : option gerror :=
  match GatewayError action e with
  | None => None
  | Some wrapped =>
      let provider := TrimSpace provider in
      if bool_decide (provider = "") then Some wrapped
      else Some (EBoundary (error_text wrapped +:+ "; inspect on-chain provider attributes with `akt query provider " +:+ provider +:+ "`") wrapped)
  end.

(** [status] and [shell] are the two gateway calls; the shell starts only for a lease
    the gateway knows. *)
Definition CheckLease (status : option gerror) : option gerror := GatewayError "query lease status" status.
Definition RunLeaseShell {S} (status : option gerror) (shell : S → S * option gerror) (s : S) : S * option gerror :=
  match CheckLease status with
  | Some e => (s, Some e)
  | None => let '(s, e) := shell s in (s, GatewayError "open lease shell" e)
  end.
End sanitize.

(** ** Streams (gateway.go) *)
Definition StreamCloseError (kind reason : string) (follow : bool) : option error :=
  if bool_decide (reason = "") then None
  else if negb follow && strings_Contains (ToLower reason) "eof" then None
  else Some (Errorf "%s stream closed: %s" [kind; reason]).

(** A channel as its reader sees it: what is still to come, then closed. [None] is the
    nil channel, from which nothing comes. *)
Record consumer (T S : Type) : Type := MkConsumer { cs_stream : option (list T); cs_onClose : option (list string); cs_reason : string; cs_out : S }.
Arguments MkConsumer {T S}. Arguments cs_stream {T S}. Arguments cs_onClose {T S}. Arguments cs_reason {T S}. Arguments cs_out {T S}.

Section consume.
Context {T S : Type} (emit : S → T → S + error) (kind : string) (follow : bool) (ctx_err : option error).
Implicit Types (c : consumer T S).

(** [ConsumeStream]: the turns of its loop, whichever ready channel the select takes;
    [inr] is the value it returns. [ctx_err] is the error of the context if it can be
    done while the loop runs. *)
Inductive consume_step : consumer T S → consumer T S + (option error * S) → Prop :=
| cs_cancelled c e : ctx_err = Some e → cs_stream c ≠ None ∨ cs_onClose c ≠ None → consume_step c (inr (Some e, cs_out c))
| cs_record c r rest s : cs_stream c = Some (r :: rest) → emit (cs_out c) r = inl s →
    consume_step c (inl (MkConsumer (Some rest) (cs_onClose c) (cs_reason c) s))
| cs_emit_error c r rest e : cs_stream c = Some (r :: rest) → emit (cs_out c) r = inr e → consume_step c (inr (Some e, cs_out c))
| cs_stream_closed c : cs_stream c = Some [] → consume_step c (inl (MkConsumer None (cs_onClose c) (cs_reason c) (cs_out c)))
| cs_close_reason c reason rest : cs_onClose c = Some (reason :: rest) →
    consume_step c (inl (MkConsumer (cs_stream c) (Some rest) (if bool_decide (reason = "") then cs_reason c else reason) (cs_out c)))
| cs_onClose_closed c : cs_onClose c = Some [] → consume_step c (inl (MkConsumer (cs_stream c) None (cs_reason c) (cs_out c)))
| cs_done c : cs_stream c = None → cs_onClose c = None → consume_step c (inr (StreamCloseError kind (cs_reason c) follow, cs_out c)).

Inductive consume_run : consumer T S → option error * S → Prop :=
| cr_return c r : consume_step c (inr r) → consume_run c r
| cr_step c c' r : consume_step c (inl c') → consume_run c' r → consume_run c r.
End consume.

Definition ValidateLogTail (follow : bool) (tail : Z) : option error :=
  if (tail <? -1)%Z then Some (Errorf "--tail must be -1 or greater" [])
  else if follow && (0 <=? tail)%Z then Some (Errorf "--tail cannot be combined with --follow" [])
  else None.

Definition RetainTail {T} (records : list T) (record : T) (limit : Z) : list T :=
  if (limit <=? 0)%Z then []
  else
    let records := records ++ [record] in
    if (limit <? Z.of_nat (length records))%Z then drop (length records - Z.to_nat limit) records else records.

Definition MatchesService (name service : string) : bool :=
  if bool_decide (service = "") then true
  else
    let podPrefix := service +:+ "-" in
    bool_decide (name = service) || (HasPrefix name podPrefix && (length (bytes_of podPrefix) <? length (bytes_of name))%nat).

(** Whether a shell advertises its input; [None] is no reader. *)
Definition SelectShellStdin {R} (reader : option R) (interactive inputIsTerminal : bool) (override : option bool) : option R :=
  match reader with
  | None => None
  | Some r => if default (interactive || negb inputIsTerminal) override then Some r else None
  end.
