(* ===== verification/ContextCommands.v ===== *)
(** * The context commands (internal/cli/context, internal/cli/network)

    `akt context create, use, list, edit, delete, rename, log`, `akt context network`
    and `akt context keyring`. A command is a function of its flags, its arguments, the
    answers it reads and the manager; what it records is the list of the entries it
    hands to the action log of a context, whose writing is best effort and belongs to
    the action log. A flag that can tell whether it was given is an option. Rendering
    is left out: a listing is its rows, or the hint printed in their place. *)

From Stdlib Require Import Ascii.
From stdpp Require Import sorting base gmap strings pretty option numbers list.
From S2P Require Import Prelude GoStd GoJson Context StoreOps Workflow ActionLog GoText KeyringMgr Manager.

Definition set_ctx_AuthMethod (v : string) (c : Context_) : Context_ :=
  let 'MkContext a b d _ f g h i j k l m n o p := c in MkContext a b d v f g h i j k l m n o p.
Definition set_ctx_ConsoleAPIURL (v : string) (c : Context_) : Context_ :=
  let 'MkContext a b d e _ g h i j k l m n o p := c in MkContext a b d e v g h i j k l m n o p.
Definition set_ctx_DefaultAccount (v : string) (c : Context_) : Context_ :=
  let 'MkContext a b d e f _ h i j k l m n o p := c in MkContext a b d e f v h i j k l m n o p.
Definition set_ctx_Fees (v : string) (c : Context_) : Context_ :=
  let 'MkContext a b d e f g h i _ k l m n o p := c in MkContext a b d e f g h i v k l m n o p.

(** ** Recording (actionlog.go) *)
Definition TypeContext : string := "context".
Definition TypeProvider : string := "provider".
Definition TypeConsole : string := "console".
Definition TypeFaucet : string := "faucet".
Definition TypeError : string := "error".

Abbreviation details := (gmap string string).
(** The entries handed to the logs, each with the context whose log it is for. *)
Abbreviation records := (list (string * Entry)).

Definition context_entry (action status error_text : string) (d : details) : Entry :=
  MkEntry 0 TypeContext action "" 0 0 0 0 0 0 "" "" (if bool_decide (d = ∅) then None else Some (enc_map (Some d))) 0 "" 0 "" error_text status.
Definition recordContextResult (root target action : string) (failure : option string) (d : details) : records :=
  if bool_decide (root = "" ∨ target = "") then []
  else [(target, match failure with
                 | None => context_entry action "success" "" d
                 | Some text => context_entry action "failed" text d
                 end)].
Definition recordContextAction (root target action : string) (d : details) : records := recordContextResult root target action None d.

(** A JSON value as [any]: the last member of a name counts, members are sorted. *)
Fixpoint any_of (j : json) : json :=
  match j with
  | JArr l => JArr (List.map any_of l)
  | JObj l => JObj (sorted_members (list_to_map (reverse (List.map (λ kv, match kv with (k, v) => (k, any_of v) end) l)) : gmap string json))
  | _ => j
  end.
Definition paramValue (j : json) : string := match j with JStr s => s | JNull => "" | _ => json_text None j end.
Definition paramPairs (params : option json) : list string :=
  match any_of <$> params with
  | Some (JObj l) => (λ kv, kv.1 +:+ ": " +:+ paramValue kv.2) <$> l
  | _ => []
  end.
Definition entrySummary (e : Entry) : string :=
  let head := e_Action e in
  let head := if bool_decide (e_Type e = TypeWorkflow) && negb (bool_decide (e_StepName e = "")) then head +:+ "/" +:+ e_StepName e else head in
  let head := if bool_decide (e_Provider e = "") then head else head +:+ " -> " +:+ e_Provider e in
  let ds := if (e_DSeq e =? 0)%N then [] else ["dseq: " +:+ FormatUint (e_DSeq e)] in
  let ds := ds ++ (if bool_decide (e_Type e = TypeWorkflow) && negb (bool_decide (e_WorkflowID e = "")) then ["run " +:+ e_WorkflowID e] else []) in
  match (ds ++ paramPairs (e_Params e))%list with
  | [] => head
  | ds => head +:+ " (" +:+ strings_Join ds ", " +:+ ")"
  end.

(** ** Which context (cliutil/context.go): the flag when it was given, or the variable *)
Definition SelectedContextName (flag : option string) (env : string → string) (m : Manager) : string :=
  ActiveContext m (default (env "AKT_CONTEXT") flag).

(** ** Flags *)
Definition preferredWorkflowAuthMethod (deployVia authMethod : option string) : result string :=
  match deployVia with
  | Some rail =>
      if bool_decide (rail = "chain") then Ok AuthMethodKeyring
      else if bool_decide (rail = "console") then Ok AuthMethodConsoleAPI
      else failf "invalid deploy rail %q: must be %q or %q" [rail; "chain"; "console"]
  | None =>
      let method := default "" authMethod in
      if bool_decide (method = "" ∨ method = AuthMethodKeyring ∨ method = AuthMethodConsoleAPI) then Ok method
      else failf "invalid auth-method %q: must be %q or %q" [method; AuthMethodKeyring; AuthMethodConsoleAPI]
  end.
Definition deployRailName (authMethod : string) : string := if bool_decide (authMethod = AuthMethodConsoleAPI) then "console" else "chain".

Record create_flags : Type := MkCreateFlags {
  cf_keyringBackend : bool; cf_network : string; cf_keyring : string; cf_defaultAccount : string; cf_gas : string; cf_fees : string;
  cf_providerAuthType : string; cf_deployVia : option string; cf_authMethod : option string; cf_consoleAPIURL : string;
  cf_consoleAPIKey : string; cf_setCurrent : bool;
}.
Record created : Type := MkCreated { cr_Name : string; cr_Network : string; cr_AuthMethod : string; cr_Current : bool }.

Definition lift_mgr {A} (r : result unit) (m : Manager) (rs : records) (next : Manager * records * result A) : Manager * records * result A :=
  match r with Ok _ => next | Err e => (m, rs, Err e) | Panic => (m, rs, Panic) end.

Definition new_context (name authMethod : string) (fg : create_flags) : Context_ :=
  MkContext name (network_named (cf_network fg)) (keyring_named (cf_keyring fg)) authMethod (cf_consoleAPIURL fg) (cf_defaultAccount fg)
    [] (cf_gas fg) (cf_fees fg) (cf_providerAuthType fg) "" "" "" "" "".

(** [fl2] are the faults of the second save, when the context is made current. *)
Definition create_RunE (fl fl2 : faults) (kf : key_faults) (m : Manager) (name : string) (fg : create_flags) : Manager * records * result created :=
  if cf_keyringBackend fg then
    (m, [], failf "--keyring-backend applies only to this invocation and cannot be persisted by context create; use `akt context keyring set <keyring> <backend>`" [])
  else match preferredWorkflowAuthMethod (cf_deployVia fg) (cf_authMethod fg) with
       | Err e => (m, [], Err e)
       | Panic => (m, [], Panic)
       | Ok authMethod =>
           if bool_decide (cf_network fg = "") && negb (bool_decide (authMethod = AuthMethodConsoleAPI))
           then (m, [], failf "--network is required unless --deploy-via console is used" [])
           else
             let '(m, r) := CreateContext fl m (new_context name authMethod fg) in
             lift_mgr r m [] (
               let '(f, r) := if bool_decide (cf_consoleAPIKey fg = "") then (m_fs m, Ok tt)
                              else SetConsoleAPIKey kf (m_root m) name (cf_consoleAPIKey fg) (m_fs m) in
               let m := set_fs f m in
               lift_mgr r m [] (
                 let rs := recordContextAction (m_root m) name "create" (<["network" := cf_network fg]> {["keyring" := cf_keyring fg]}) in
                 let previous := CurrentContext m in
                 let '(m, r) := if cf_setCurrent fg then UseContext fl2 m name else (m, Ok tt) in
                 lift_mgr r m rs (
                   let rs := if cf_setCurrent fg then rs ++ recordContextAction (m_root m) name "switch" (<["from" := previous]> {["to" := name]}) else rs in
                   (m, rs, Ok (MkCreated name (if bool_decide (cf_network fg = "") then "none" else cf_network fg)
                                 (if bool_decide (authMethod = "") then AuthMethodKeyring else authMethod) (cf_setCurrent fg))))))
       end.

Definition use_RunE (fl : faults) (m : Manager) (name : string) : Manager * records * result unit :=
  let previous := CurrentContext m in
  let '(m, r) := UseContext fl m name in
  lift_mgr r m [] (m, recordContextAction (m_root m) name "switch" (<["from" := previous]> {["to" := name]}), Ok tt).

Definition rename_RunE (fl : faults) (m : Manager) (old new : string) : Manager * records * result unit :=
  let '(m, r) := RenameContext fl m old new in
  lift_mgr r m [] (m, recordContextAction (m_root m) new "rename" (<["from" := old]> {["to" := new]}), Ok tt).

(** What a prompt goes through: writing the question, the line that was read, and the
    error that ended it. *)
Record prompt : Type := MkPrompt { pr_write : option error; pr_line : string; pr_read : option error }.

(** The deletion a user agreed to; [written] tells whether the farewell can be
    written. *)
Definition confirmed (answer : string) : bool := EqualFold answer "y" || EqualFold answer "yes".
Definition delete_RunE (fl : faults) (m : Manager) (name : string) (yes keepData : bool) (p : prompt) (farewell : option error)
    : Manager * records * result unit :=
  let answer := TrimSpace (pr_line p) in
  let asked : option (result unit) :=
    if yes then None
    else match pr_write p with
         | Some e => Some (Err e)
         | None => match pr_read p with
                   | Some e => if bool_decide (answer = "") then Some (Err (Wrapf "read delete confirmation: %w" [] e))
                               else if confirmed answer then None else Some match farewell with Some e => Err e | None => Ok tt end
                   | None => if confirmed answer then None else Some match farewell with Some e => Err e | None => Ok tt end
                   end
         end in
  match asked with
  | Some r => (m, [], r)
  | None =>
      let '(m, r) := DeleteContext fl m name keepData in
      lift_mgr r m [] (
        let current := CurrentContext m in
        let rs := if negb (bool_decide (current = "")) && negb (bool_decide (current = name))
                  then recordContextAction (m_root m) current "delete" {["context" := name]} else [] in
        (m, rs, Ok tt))
  end.

(** ** Editing *)
Record edit_flags : Type := MkEditFlags {
  ef_forkNetwork : bool; ef_yes : bool;
  ef_network : option string; ef_keyring : option string; ef_defaultAccount : option string; ef_gas : option string; ef_fees : option string;
  ef_providerAuthType : option string; ef_authMethod : option string; ef_deployVia : option string; ef_consoleAPIURL : option string;
  ef_consoleAPIKey : option string;
  ef_rpc : option (list string); ef_api : option (list string); ef_grpc : option (list string);
  ef_gasPrices : option string; ef_gasAdjustment : option string;
}.
Definition given {A} (o : option A) : bool := match o with Some _ => true | None => false end.
Definition hasNetworkChanges (fg : edit_flags) : bool :=
  given (ef_rpc fg) || given (ef_api fg) || given (ef_grpc fg) || given (ef_gasPrices fg) || given (ef_gasAdjustment fg).

(** Setting one field, with the detail that is recorded for it. *)
Definition apply_opt {A B} (o : option A) (set : A → B → B) (x : B) : B := match o with Some v => set v x | None => x end.
Definition note {A} (key : string) (text : A → string) (o : option A) (d : details) : details := match o with Some v => <[key := text v]> d | None => d end.

Definition applyContext (preferredAuth : string) (fg : edit_flags) (c : Context_) : Context_ * result unit :=
  let c := apply_opt (ef_network fg) (λ v, set_ctx_Network (network_named v)) c in
  let c := apply_opt (ef_keyring fg) (λ v, set_ctx_Keyring (keyring_named v)) c in
  let c := apply_opt (ef_defaultAccount fg) set_ctx_DefaultAccount c in
  let c := apply_opt (ef_gas fg) set_ctx_Gas c in
  let c := apply_opt (ef_fees fg) set_ctx_Fees c in
  let c := apply_opt (ef_providerAuthType fg) set_ctx_ProviderAuthType c in
  let c := if given (ef_authMethod fg) || given (ef_deployVia fg) then set_ctx_AuthMethod preferredAuth c else c in
  (apply_opt (ef_consoleAPIURL fg) set_ctx_ConsoleAPIURL c, Ok tt).
Definition context_changes (preferredAuth : string) (fg : edit_flags) : details :=
  let d := note "network" id (ef_network fg) ∅ in
  let d := note "keyring" id (ef_keyring fg) d in
  let d := note "default-account" id (ef_defaultAccount fg) d in
  let d := note "gas" id (ef_gas fg) d in
  let d := note "fees" id (ef_fees fg) d in
  let d := note "provider-auth-type" id (ef_providerAuthType fg) d in
  let d := if given (ef_authMethod fg) || given (ef_deployVia fg) then <["auth-method" := preferredAuth]> d else d in
  note "console-api-url" id (ef_consoleAPIURL fg) d.

Definition set_rpc (l : list string) (n : Network) : Network :=
  MkNetwork (net_Name n) (net_ChainID n) (MkEndpoints l (API (net_Endpoints n)) (GRPC (net_Endpoints n))) (net_GasPrices n) (net_GasAdjustment n) (net_Faucet n).
Definition set_api (l : list string) (n : Network) : Network :=
  MkNetwork (net_Name n) (net_ChainID n) (MkEndpoints (RPC (net_Endpoints n)) l (GRPC (net_Endpoints n))) (net_GasPrices n) (net_GasAdjustment n) (net_Faucet n).
Definition set_grpc (l : list string) (n : Network) : Network :=
  MkNetwork (net_Name n) (net_ChainID n) (MkEndpoints (RPC (net_Endpoints n)) (API (net_Endpoints n)) l) (net_GasPrices n) (net_GasAdjustment n) (net_Faucet n).
Definition set_GasPrices (v : string) (n : Network) : Network :=
  MkNetwork (net_Name n) (net_ChainID n) (net_Endpoints n) v (net_GasAdjustment n) (net_Faucet n).
Definition set_GasAdjustment (v : string) (n : Network) : Network :=
  MkNetwork (net_Name n) (net_ChainID n) (net_Endpoints n) (net_GasPrices n) v (net_Faucet n).
Definition set_ChainID (v : string) (n : Network) : Network :=
  MkNetwork (net_Name n) v (net_Endpoints n) (net_GasPrices n) (net_GasAdjustment n) (net_Faucet n).
Definition set_Faucet (v : string) (n : Network) : Network :=
  MkNetwork (net_Name n) (net_ChainID n) (net_Endpoints n) (net_GasPrices n) (net_GasAdjustment n) v.

Definition applyNetwork (fg : edit_flags) (n : Network) : Network * result unit :=
  let n := apply_opt (ef_rpc fg) set_rpc n in
  let n := apply_opt (ef_api fg) set_api n in
  let n := apply_opt (ef_grpc fg) set_grpc n in
  let n := apply_opt (ef_gasPrices fg) set_GasPrices n in
  (apply_opt (ef_gasAdjustment fg) set_GasAdjustment n, Ok tt).
Definition comma (l : list string) : string := strings_Join l ",".
Definition network_changes (fg : edit_flags) (d : details) : details :=
  let d := note "rpc" comma (ef_rpc fg) d in
  let d := note "api" comma (ef_api fg) d in
  let d := note "grpc" comma (ef_grpc fg) d in
  let d := note "gas-prices" id (ef_gasPrices fg) d in
  note "gas-adjustment" id (ef_gasAdjustment fg) d.

Definition networkSharedAfterContextUpdate (m : Manager) (network contextName : string) : bool :=
  existsb (λ c, negb (bool_decide (ctx_Name c = contextName)) && bool_decide (net_Name (ctx_Network c) = network)) (ListContexts m).

(** [true] is the fork. *)
Definition promptNetworkEditMode (p : prompt) : result bool :=
  match pr_write p with
  | Some e => Err e
  | None =>
      let line := TrimSpace (pr_line p) in
      match pr_read p with
      | Some e => if bool_decide (line = "") then Err (Wrapf "read network edit selection: %w" [] e)
                  else if bool_decide (line = "1") then Ok false else if bool_decide (line = "2") then Ok true
                  else failf "invalid selection %q: enter 1 to edit the parent or 2 to fork" [line]
      | None => if bool_decide (line = "" ∨ line = "1") then Ok false else if bool_decide (line = "2") then Ok true
                else failf "invalid selection %q: enter 1 to edit the parent or 2 to fork" [line]
      end
  end.

(** The checks before anything is changed: the network that will be edited, and
    whether it is forked first. *)
Definition edit_plan (m : Manager) (name : string) (fg : edit_flags) (terminal : bool) (p : prompt) : result (string * bool) :=
  if ef_forkNetwork fg && given (ef_network fg) then
    failf "cannot use --fork-network with --network; use akt context network create to fork manually" []
  else if ef_forkNetwork fg && negb (hasNetworkChanges fg) then
    failf "--fork-network requires at least one network field: --rpc, --api, --grpc, --gas-prices, or --gas-adjustment" []
  else if ef_yes fg && negb (hasNetworkChanges fg) then failf "--yes is only used when editing shared network fields" []
  else match GetContext m name with
       | None => failf "context %q not found" [name]
       | Some current =>
           let target := default (net_Name (ctx_Network current)) (ef_network fg) in
           if hasNetworkChanges fg && bool_decide (target = "") then failf "context %q has no network to edit" [name]
           else if hasNetworkChanges fg && negb (ef_forkNetwork fg) && negb (ef_yes fg) && networkSharedAfterContextUpdate m target name && terminal
           then fork ← promptNetworkEditMode p; Ok (target, fork)
           else Ok (target, ef_forkNetwork fg)
       end.

Definition edit_RunE (fl : faults) (kf : key_faults) (m : Manager) (name : string) (fg : edit_flags) (terminal : bool) (p : prompt)
    : Manager * records * result unit :=
  match edit_plan m name fg terminal p with
  | Err e => (m, [], Err e)
  | Panic => (m, [], Panic)
  | Ok (target, fork) =>
      let forkName := if fork : bool then target +:+ "-" +:+ name else "" in
      match preferredWorkflowAuthMethod (ef_deployVia fg) (ef_authMethod fg) with
      | Err e => (m, [], Err e)
      | Panic => (m, [], Panic)
      | Ok preferredAuth =>
          let '(m, r) := UpdateContextAndNetwork fl m name forkName (Some (applyContext preferredAuth fg))
                           (if hasNetworkChanges fg then Some (applyNetwork fg) else None) in
          lift_mgr r m [] (
            let changed := context_changes preferredAuth fg in
            let changed := if hasNetworkChanges fg then network_changes fg changed else changed in
            let changed := if bool_decide (forkName = "") then changed else <["fork-network" := target]> (<["network" := forkName]> changed) in
            match ef_consoleAPIKey fg with
            | None => (m, recordContextAction (m_root m) name "edit" changed, Ok tt)
            | Some key =>
                let '(f, r) := SetConsoleAPIKey kf (m_root m) name key (m_fs m) in
                let m := set_fs f m in
                lift_mgr r m [] (
                  (m, recordContextAction (m_root m) name "edit"
                        (<["console-api-key" := if bool_decide (key = "") then "removed" else "updated"]> changed), Ok tt))
            end)
      end
  end.

(** ** Listings *)
Inductive format : Type := Table | Structured.
Inductive listing (R : Type) : Type := Rows (rows : list R) | Hint (line : string).
Arguments Rows {R}. Arguments Hint {R}.

Record contextRow : Type := MkContextRow {
  row_Current : bool; row_Name : string; row_Network : string; row_Keyring : string; row_DefaultAccount : string; row_ChainID : string }.
Definition context_row (m : Manager) (c : Context_) : contextRow :=
  MkContextRow (bool_decide (ctx_Name c = CurrentContext m)) (ctx_Name c) (net_Name (ctx_Network c)) (kr_Name (ctx_Keyring c)) (ctx_DefaultAccount c)
    (default "" (net_ChainID <$> GetNetwork m (net_Name (ctx_Network c)))).
Definition list_contexts (f : format) (m : Manager) : listing contextRow :=
  match ListContexts m, f with
  | [], Table => Hint "No contexts configured. Create one with: akt context create <name> --network <network>"
  | ctxs, _ => Rows (context_row m <$> ctxs)
  end.

Record networkRow : Type := MkNetworkRow { nr_Name : string; nr_ChainID : string; nr_RPC : list string; nr_UsedBy : list string }.
Definition network_row (m : Manager) (n : Network) : networkRow :=
  MkNetworkRow (net_Name n) (net_ChainID n) (RPC (net_Endpoints n)) (NetworkUsers m (net_Name n)).
Definition list_networks (f : format) (m : Manager) : listing networkRow :=
  match ListNetworks m, f with
  | [], Table => Hint "No networks configured. Create one with: akt context network create <name> --template mainnet"
  | nets, _ => Rows (network_row m <$> nets)
  end.

Record keyringRow : Type := MkKeyringRow { kw_Name : string; kw_Backend : string; kw_Effective : option string; kw_Dir : string; kw_UsedBy : list string }.
Section keyring_list.
Context {W K : Type} `{Host W K}.
Fixpoint keyring_rows (m : Manager) (krs : list Keyring) (w : W) : W * list keyringRow :=
  match krs with
  | [] => (w, [])
  | kr :: krs =>
      let backend := if bool_decide (kr_Backend kr = "") then kr_Backend DefaultKeyring else kr_Backend kr in
      let '(w, effective) := EffectiveBackend (K := K) (m_root m) kr w in
      let '(w, rows) := keyring_rows m krs w in
      (w, MkKeyringRow (kr_Name kr) backend effective (KeyringDir (m_root m) kr) (KeyringUsers m (kr_Name kr)) :: rows)
  end.
(** The format is not looked at when there is nothing to list. *)
Definition list_keyrings (f : format) (m : Manager) (w : W) : W * listing keyringRow :=
  match ListKeyrings m with
  | [] => (w, Hint "No keyrings configured. Create one with: akt context keyring create default file")
  | krs => let '(w, rows) := keyring_rows m krs w in (w, Rows rows)
  end.
End keyring_list.

(** ** Networks (internal/cli/network/commands.go) *)
Record network_flags : Type := MkNetworkFlags {
  nf_template : string; nf_chainID : string; nf_rpc : list string; nf_api : list string; nf_grpc : list string;
  nf_gasPrices : string; nf_gasAdjustment : string; nf_faucet : string }.
Definition network_create_RunE (fl : faults) (m : Manager) (name : string) (fg : network_flags) : Manager * result unit :=
  if negb (bool_decide (nf_template fg = "")) then CreateNetworkFromTemplate fl m name (nf_template fg)
  else if bool_decide (nf_chainID fg = "") then (m, failf "--chain-id is required when not using --template" [])
  else match nf_rpc fg with
       | [] => (m, failf "at least one --rpc endpoint is required" [])
       | rpc => CreateNetwork fl m (MkNetwork name (nf_chainID fg) (MkEndpoints rpc (nf_api fg) (nf_grpc fg)) (nf_gasPrices fg) (nf_gasAdjustment fg) (nf_faucet fg))
       end.

Record network_edits : Type := MkNetworkEdits {
  ne_chainID : option string; ne_rpc : option (list string); ne_api : option (list string); ne_grpc : option (list string);
  ne_gasPrices : option string; ne_gasAdjustment : option string; ne_faucet : option string }.
Definition apply_network_edits (fg : network_edits) (n : Network) : Network * result unit :=
  let n := apply_opt (ne_chainID fg) set_ChainID n in
  let n := apply_opt (ne_rpc fg) set_rpc n in
  let n := apply_opt (ne_api fg) set_api n in
  let n := apply_opt (ne_grpc fg) set_grpc n in
  let n := apply_opt (ne_gasPrices fg) set_GasPrices n in
  let n := apply_opt (ne_gasAdjustment fg) set_GasAdjustment n in
  (apply_opt (ne_faucet fg) set_Faucet n, Ok tt).
Definition network_edit_RunE (fl : faults) (m : Manager) (name : string) (fg : network_edits) : Manager * result unit :=
  UpdateNetwork fl m name (apply_network_edits fg).
Definition network_delete_RunE (fl : faults) (m : Manager) (name : string) : Manager * result unit := DeleteNetwork fl m name.
Definition network_show (m : Manager) (name : string) : result (Network * list string) :=
  match GetNetwork m name with
  | None => failf "network %q not found" [name]
  | Some n => Ok (n, NetworkUsers m (net_Name n))
  end.

(** ** Keyrings (keyring.go) *)
Definition keyring_create_RunE (fl : faults) (active : string) (m : Manager) (name backend dir : string) : Manager * records * result unit :=
  match ValidateBackend backend with
  | Ok _ =>
      let '(m, r) := CreateKeyring fl m (MkKeyring name backend dir) in
      lift_mgr r m [] (m, recordContextAction (m_root m) active "keyring-create" (<["keyring" := name]> {["backend" := backend]}), Ok tt)
  | Err e => (m, [], Err e)
  | Panic => (m, [], Panic)
  end.

(** The result tells the backend whose keys are not carried over, if it changed. *)
Definition keyring_set_RunE (fl : faults) (active : string) (m : Manager) (name backend : string) (dir : option string)
    : Manager * records * result (option string) :=
  match ValidateBackend backend with
  | Ok _ =>
      let previous := default "" (kr_Backend <$> GetKeyring m name) in
      let '(m, r) := UpdateKeyring fl m name (λ kr, (MkKeyring (kr_Name kr) backend (default (kr_Dir kr) dir), Ok tt)) in
      lift_mgr r m [] (
        (m, recordContextAction (m_root m) active "keyring-set" (<["keyring" := name]> (<["backend" := backend]> {["previous" := previous]})),
         Ok (if negb (bool_decide (previous = "")) && negb (bool_decide (previous = backend)) then Some previous else None)))
  | Err e => (m, [], Err e)
  | Panic => (m, [], Panic)
  end.

(** ** The log *)
Definition validActionType (value : string) : bool :=
  bool_decide (value ∈ [""; TypeTx; TypeWorkflow; TypeProvider; TypeContext; TypeConsole; TypeFaucet; TypeError]).

(** [hex.DecodeString]. *)
Definition hex_digit (c : ascii) : option N :=
  if byte_in 48 57 c then Some (N_of_ascii c - 48)%N
  else if byte_in 97 102 c then Some (N_of_ascii c - 87)%N
  else if byte_in 65 70 c then Some (N_of_ascii c - 55)%N else None.
Fixpoint hex_decode (l : list ascii) : option (list ascii) :=
  match l with
  | [] => Some []
  | a :: b :: l =>
      match hex_digit a, hex_digit b, hex_decode l with
      | Some x, Some y, Some rest => Some (ascii_of_N (16 * x + y) :: rest)
      | _, _, _ => None
      end
  | [_] => None
  end.

Record TxResponse : Type := MkTxResponse { tr_Height : Z; tr_GasUsed : Z; tr_Code : N; tr_RawLog : string }.
Abbreviation lookup_tx := (list ascii → option TxResponse).

(** What the node says about a pending transaction, as the entry that settles it;
    [None] for an entry that stays as it is. *)
Definition settle (lookup : lookup_tx) (e : Entry) : option Entry :=
  if bool_decide (e_Type e = TypeTx) && bool_decide (e_Status e = "pending") && negb (bool_decide (e_TxHash e = "")) then
    match hex_decode (bytes_of (e_TxHash e)) ≫= lookup with
    | Some response =>
        if (tr_Height response <=? 0)%Z then None
        else
          let revision := set_e_ResultCode (tr_Code response) (set_e_GasUsed (tr_GasUsed response) (set_e_Height (tr_Height response) e)) in
          Some (if (tr_Code response =? 0)%N then set_e_Status "success" (set_e_Error "" revision)
                else set_e_Error (tr_RawLog response) (set_e_Status "failed" revision))
    | None => None
    end
  else None.

Section log.
Context `{TimeText}.

(** [os] are the system calls of each write. *)
Fixpoint reconcilePendingTransactions (lookup : lookup_tx) (os : nat → outcome) (l : Logger) (entries : list Entry) : Logger * nat :=
  match entries with
  | [] => (l, 0)
  | e :: entries =>
      match settle lookup e with
      | None => reconcilePendingTransactions lookup os l entries
      | Some revision =>
          let '(l, err) := Log (os (length entries)) l revision in
          let '(l, n) := reconcilePendingTransactions lookup os l entries in
          (l, match err with None => S n | Some _ => n end)
      end
  end.

Context (ParseDuration parse_RFC3339 parse_date : string → option Z).

Definition parse_since (now : Z) (since : string) : result Z :=
  if bool_decide (since = "") then Ok 0%Z
  else match ParseDuration since with
       | Some d => Ok (now - d)%Z
       | None => match parse_RFC3339 since with
                 | Some t => Ok t
                 | None => match parse_date since with
                           | Some t => Ok t
                           | None => failf "invalid --since value %q: use a duration (1h) or date (2006-01-02)" [since]
                           end
                 end
       end.

Record log_flags : Type := MkLogFlags { lf_limit : Z; lf_type : string; lf_workflowID : string; lf_since : string }.
Definition log_filter (now : Z) (fg : log_flags) : result Filter :=
  if negb (validActionType (lf_type fg))
  then failf "invalid --type %q: must be tx, workflow, provider, context, console, or error" [lf_type fg]
  else since ← parse_since now (lf_since fg); Ok (MkFilter (lf_type fg) since (lf_limit fg) 0 "" (lf_workflowID fg)).

(** [node] is the lookup of the selected chain, when there is a client; [o1] and [o2]
    are the system calls of the two reads. *)
Definition view_log (o1 o2 : outcome) (os : nat → outcome) (node : option lookup_tx) (l : Logger) (f : Filter) : Logger * result (list Entry) :=
  match Read o1 l f with
  | Ok entries =>
      let '(l, n) := match node with Some lookup => reconcilePendingTransactions lookup os l entries | None => (l, 0) end in
      match n with
      | O => (l, Ok entries)
      | _ => (l, Read o2 l f)
      end
  | r => (l, r)
  end.

(** The entries shown; [files] tells the log files of a context. *)
Definition log_RunE (env : string → string) (flag : option string) (m : Manager) (files : string → gmap nat file) (now : Z) (fg : log_flags)
    (o o1 o2 : outcome) (os : nat → outcome) (node : option lookup_tx) : option Logger * result (list Entry) :=
  let current := SelectedContextName flag env m in
  if bool_decide (current = "") then (None, failf "no current context set" [])
  else match Resolve env m current with
       | Err e => (None, Err e)
       | Panic => (None, Panic)
       | Ok resolved =>
           match Open o (files (ActionLogPath (m_root m) (ctx_Name resolved))) with
           | Err e => (None, Err e)
           | Panic => (None, Panic)
           | Ok l =>
               match log_filter now fg with
               | Err e => (Some l, Err e)
               | Panic => (Some l, Panic)
               | Ok f => let '(l, r) := view_log o1 o2 os node l f in (Some l, r)
               end
           end
       end.
End log.

(** The status cell of a row. *)
Definition truncate (s : string) (maxLen : nat) : string :=
  if (length (bytes_of s) <=? maxLen)%nat then s else of_bytes (take (maxLen - 3) (bytes_of s)) +:+ "...".
Definition status_cell (e : Entry) : string := if bool_decide (e_Error e = "") then e_Status e else "error: " +:+ truncate (e_Error e) 40.
