(* ===== verification/ContextCommandsProps.v ===== *)
(** * What the context commands guarantee *)

From Stdlib Require Import Ascii.
From stdpp Require Import sorting base gmap strings pretty option numbers list.
From S2P Require Import Prelude GoStd GoJson Context ContextSpec StoreTypes StoreOps Workflow ActionLog ActionLogProps GoText KeyringMgr Manager ManagerSpec ManagerProps ContextCommands.

(** ** The log shows settled transactions *)
Section settled.
Context `{TimeLaws} (lookup : lookup_tx).

Lemma settle_key e r : settle lookup e = Some r →
  is_Some (tx_key e) ∧ tx_key r = tx_key e ∧ e_Timestamp r = e_Timestamp e ∧ ∀ f, matchesFilter r f = matchesFilter e f.
Proof.
  unfold settle. destruct (bool_decide (e_Type e = TypeTx)) eqn:E1; [|done]. destruct (bool_decide (e_Status e = "pending")); [|done].
  destruct (bool_decide (e_TxHash e = "")) eqn:E2; [done|]. simpl. destruct (_ ≫= lookup) as [res|]; [|done].
  destruct (_ <=? 0)%Z; [done|]. intros [= <-]. split; [unfold tx_key; by rewrite E1, E2|].
  destruct (tr_Code res =? 0)%N; by split_and!.
Qed.
(** A settled entry is not settled again: it is no longer pending. *)
Lemma settle_done e r : settle lookup e = Some r → settle lookup r = None.
Proof.
  unfold settle at 1. destruct (_ && _ && _); [|done]. destruct (_ ≫= lookup) as [res|]; [|done]. destruct (_ <=? 0)%Z; [done|].
  intros [= <-]. unfold settle. destruct (tr_Code res =? 0)%N; simpl; by rewrite andb_false_r.
Qed.

Definition record_size (e : Entry) : N :=
  match time_MarshalJSON (e_Timestamp e) with Some ts => line_size (Text (enc_entry ts e)) | None => 0%N end.
Definition revisions_size (entries : list Entry) : N :=
  foldr (λ e n, match settle lookup e with Some r => record_size r + n | None => n end)%N 0%N entries.

(** An entry with its time that fits the current file goes to the end of it. *)
Lemma Log_fits o l e :
  fine o → clean l → e_Timestamp e ≠ 0%Z → entry_ok e = true → is_Some (time_MarshalJSON (e_Timestamp e)) →
  (current_size l + record_size e < maxLogSize)%N →
  ∃ l', Log o l e = (l', None) ∧ clean l' ∧ hist (l_files l') = hist (l_files l) ++ [e] ∧ current_size l' = (current_size l + record_size e)%N.
Proof.
  intros Ho Hl Ht Hok [ts Hts] Hsz. unfold record_size in *. rewrite Hts in *.
  assert (stamp o e = e) as Hst by (unfold stamp; by rewrite (proj2 (Z.eqb_neq _ _) Ht)).
  assert (line_size (Text (enc_entry ts e)) ≤ maxLogRecordSize)%N as Hfit by (unfold maxLogRecordSize; lia).
  destruct (Log_fine o l e ts) as (l' & kept & HL & Hc & Hh & Hk); [done|done|by rewrite Hst..|].
  assert (rotates l = false) as Hr by (unfold rotates; apply N.leb_gt; lia). rewrite Hr in Hk. simpl in Hk. rewrite <-Hk, Hst in Hh.
  exists l'. split_and!; [done..|]. unfold Log in HL. rewrite Hst, Hts, (proj2 (N.ltb_ge _ _) Hfit) in HL. unfold maybeRotate in HL.
  rewrite (cl_open _ Hl), (fi_stat _ Ho) in HL. cbn [andb negb] in HL. rewrite (proj2 (N.ltb_lt _ _)) in HL by lia.
  unfold write_record in HL. rewrite (cl_open _ Hl), (fi_write _ Ho) in HL. cbn [negb] in HL. injection HL as <-.
  destruct (cl_current _ Hl) as [f0 Hf0]. unfold current_size. cbn [l_files]. rewrite lookup_alter_eq, Hf0. simpl. by rewrite size_record.
Qed.

(** What is on screen. *)
Definition view (f : Filter) (history : list Entry) : list Entry :=
  limited (fl_Limit f) (reverse (collapse_ref [] (filter (λ e, matchesFilter e f) history))).

Lemma Read_view o l f : fine o → clean l → Read o l f = Ok (view f (hist (l_files l))).
Proof. intros Ho Hl. rewrite Read_fine by done. unfold view. by rewrite collapse_is_ref. Qed.

Lemma limited_sub n (l : list Entry) x : x ∈ limited n l → x ∈ l.
Proof. unfold limited. destruct (_ && _); [|done]. intros Hx. eapply elem_of_prefix; [done|]. apply prefix_take. Qed.
Lemma limited_fmap n (g : Entry → Entry) l : limited n (g <$> l) = g <$> limited n l.
Proof. unfold limited. rewrite length_fmap. destruct (_ && _); [|done]. by rewrite fmap_take. Qed.

Lemma collapse_keys l : ∀ seen e, e ∈ collapse_ref seen l → tx_key e ∈ tx_key <$> l.
Proof.
  induction l as [|x l IH]; intros seen e; simpl; [set_solver|]. destruct (tx_key x) as [h|] eqn:Ex.
  - case_bool_decide; [intros He; right; by eapply IH|]. intros [->|He]%elem_of_cons; [|right; by eapply IH].
    destruct (latest_key x l ltac:(by rewrite Ex)) as [-> _]. rewrite Ex. left.
  - intros [->|He]%elem_of_cons; [rewrite Ex; left|right; by eapply IH].
Qed.
Lemma collapse_nodup l : ∀ seen, NoDup (omap tx_key (collapse_ref seen l)).
Proof.
  induction l as [|x l IH]; intros seen; [constructor|]. cbn [collapse_ref]. destruct (tx_key x) as [h|] eqn:Ex.
  - case_bool_decide; [done|]. cbn [omap list_omap]. destruct (latest_key x l ltac:(by rewrite Ex)) as [-> _]. rewrite Ex.
    constructor; [|done]. intros (e & He & Hk)%list_elem_of_omap. apply (collapse_ref_fresh _ _ _ _ He Hk). left.
  - cbn [omap list_omap]. by rewrite Ex.
Qed.
Lemma limited_prefix n (l : list Entry) : ∃ rest, l = limited n l ++ rest.
Proof. unfold limited. destruct (_ && _); [|exists []; by rewrite app_nil_r]. exists (drop (Z.to_nat n) l). by rewrite take_drop. Qed.
Lemma omap_reverse {A B} (g : A → option B) (l : list A) : omap g (reverse l) = reverse (omap g l).
Proof.
  induction l as [|x l IH]; [done|]. rewrite reverse_cons, omap_app, IH. cbn [omap list_omap]. destruct (g x); cbn [omap list_omap].
  - by rewrite reverse_cons.
  - by rewrite app_nil_r.
Qed.
Lemma view_nodup f history : NoDup (omap tx_key (view f history)).
Proof.
  unfold view. set (l := collapse_ref _ _). destruct (limited_prefix (fl_Limit f) (reverse l)) as [rest E].
  assert (NoDup (omap tx_key (reverse l))) as Hd by (rewrite omap_reverse, reverse_Permutation; apply collapse_nodup).
  rewrite E, omap_app in Hd. by apply NoDup_app in Hd as (? & _).
Qed.

(** The last revision of an entry matches when the entry and its revisions do. *)
Lemma latest_matches f x l : matchesFilter x f = true → Forall (λ e, matchesFilter e f = true) l → matchesFilter (latest x l) f = true.
Proof.
  intros Hx Hl. unfold latest. assert (∀ r, matchesFilter r f = true ∧ e_Timestamp r = e_Timestamp x →
    matchesFilter (foldl (λ r y, if bool_decide (tx_key y = tx_key x) then set_e_Timestamp (e_Timestamp x) y else r) r l) f = true) as Hg; [|by apply Hg].
  induction Hl as [|y l Hy Hl IH]; intros r [Hr Ht]; [done|]. simpl. apply IH. case_bool_decide; [|done]. split; [|done].
  revert Hx Hy. unfold matchesFilter. simpl. rewrite !andb_true_iff. tauto.
Qed.
Lemma collapse_matches f l : Forall (λ e, matchesFilter e f = true) l → ∀ seen, Forall (λ e, matchesFilter e f = true) (collapse_ref seen l).
Proof.
  induction 1 as [|x l Hx Hl IH]; intros seen; [constructor|]. cbn [collapse_ref]. destruct (tx_key x) as [h|].
  - case_bool_decide; [done|]. constructor; [by apply latest_matches|done].
  - by constructor.
Qed.
Lemma view_matches f history e : e ∈ view f history → matchesFilter e f = true.
Proof.
  intros He. unfold view in He. apply limited_sub in He. rewrite elem_of_reverse in He. revert e He. apply Forall_forall, collapse_matches, Forall_forall.
  intros e [He%Is_true_true _]%list_elem_of_filter. done.
Qed.

(** Appending the revision of an entry on screen replaces that entry alone. *)
Lemma view_snoc f history pre e post r : view f history = pre ++ e :: post → settle lookup e = Some r →
  view f (history ++ [r]) = pre ++ r :: post.
Proof.
  intros Hv Hs. destruct (settle_key e r Hs) as ([h Hh] & Hk & Ht & Hm).
  assert (e ∈ view f history) as He by (rewrite Hv; set_solver).
  assert (matchesFilter r f = true) as Hr by (rewrite Hm; by eapply view_matches).
  unfold view. rewrite filter_app, filter_cons_True by by apply Is_true_true. cbn [filter list_filter]. rewrite collapse_ref_snoc. unfold snoc_ref. rewrite Hk, Hh.
  rewrite bool_decide_eq_false_2 by set_solver. unfold view in He. apply limited_sub in He. rewrite elem_of_reverse in He.
  apply collapse_keys in He. rewrite Hh in He. rewrite bool_decide_eq_true_2 by done.
  rewrite <-fmap_reverse, limited_fmap. change (revise r <$> view f history = pre ++ r :: post). pose proof (view_nodup f history) as Hd.
  rewrite Hv in Hd |- *. rewrite omap_app in Hd. cbn [omap list_omap] in Hd. rewrite Hh in Hd.
  apply NoDup_app in Hd as (_ & Hpre & Hpost). apply NoDup_cons in Hpost as [Hpost _].
  rewrite fmap_app, fmap_cons. f_equal; [|f_equal].
  - rewrite <-(list_fmap_id pre) at 2. apply list_fmap_ext. intros i x Hx. apply revise_other. rewrite Hk, Hh. intros Hx'.
    apply (Hpre h); [apply list_elem_of_omap; exists x; split; [by eapply list_elem_of_lookup_2|done]|left].
  - rewrite revise_same by (rewrite ?Hk; done || by rewrite Hh). rewrite <-Ht. by destruct r.
  - rewrite <-(list_fmap_id post) at 2. apply list_fmap_ext. intros i x Hx. apply revise_other. rewrite Hk, Hh. intros Hx'.
    apply Hpost, list_elem_of_omap. exists x. split; [by eapply list_elem_of_lookup_2|done].
Qed.

(** What settling leaves of an entry. *)
Definition settled (e : Entry) : Entry := default e (settle lookup e).
Definition loggable (e : Entry) : Prop :=
  ∀ r, settle lookup e = Some r → e_Timestamp r ≠ 0%Z ∧ entry_ok r = true ∧ is_Some (time_MarshalJSON (e_Timestamp r)).

Lemma reconcile_view os f : (∀ i, fine (os i)) → ∀ todo pre l,
  clean l → view f (hist (l_files l)) = pre ++ todo → Forall loggable todo → (current_size l + revisions_size todo < maxLogSize)%N →
  ∃ l', reconcilePendingTransactions lookup os l todo = (l', length (omap (settle lookup) todo)) ∧ clean l' ∧
    view f (hist (l_files l')) = pre ++ (settled <$> todo).
Proof.
  intros Hos. induction todo as [|e todo IH]; intros pre l Hl Hv Hok Hsz; [exists l; by rewrite app_nil_r in Hv |- *|].
  apply Forall_cons in Hok as [He Hok]. cbn [reconcilePendingTransactions revisions_size foldr] in *. rewrite fmap_cons. unfold settled at 1.
  cbn [omap list_omap]. destruct (settle lookup e) as [r|] eqn:Es.
  - destruct (He r Es) as (Ht & Hr & Hts).
    destruct (Log_fits (os (length todo)) l r) as (l' & HL & Hc & Hh & Hz); [done..|fold (revisions_size todo) in Hsz; lia|]. rewrite HL.
    destruct (IH (pre ++ [r]) l') as (l2 & HR & Hc2 & Hv2); [done| |done|fold (revisions_size todo) in Hsz; lia|].
    { rewrite Hh, <-app_assoc. by eapply view_snoc. }
    exists l2. rewrite HR. split; [done|]. split; [done|]. rewrite Hv2, <-app_assoc. done.
  - destruct (IH (pre ++ [e]) l) as (l2 & HR & Hc2 & Hv2); [done|by rewrite <-app_assoc|done|done|].
    exists l2. split; [done|]. split; [done|]. rewrite Hv2, <-app_assoc. done.
Qed.

Lemma omap_settle_nil l : length (omap (settle lookup) l) = 0 → settled <$> l = l.
Proof.
  induction l as [|e l IH]; [done|]. cbn [omap list_omap]. rewrite fmap_cons. unfold settled at 1. destruct (settle lookup e); [done|].
  intros Hl. by rewrite IH.
Qed.
End settled.

(** `akt context log` shows what became of pending transactions. On a clean log
    with room for the revisions and no failing system call, the entries shown are the
    filtered, collapsed and limited history in which every pending transaction the
    node knows carries its height, gas, code and final status, and everything else is
    as it was; the revisions are appended, so a later reading shows the same. *)
Theorem log_shows_settled `{TimeLaws} (lookup : lookup_tx) o1 o2 os l f :
  fine o1 → fine o2 → (∀ i, fine (os i)) → clean l →
  Forall (loggable lookup) (view f (hist (l_files l))) →
  (current_size l + revisions_size lookup (view f (hist (l_files l))) < maxLogSize)%N →
  ∃ l', view_log o1 o2 os (Some lookup) l f = (l', Ok (settled lookup <$> view f (hist (l_files l)))) ∧ clean l' ∧
    ∀ o, fine o → Read o l' f = Ok (settled lookup <$> view f (hist (l_files l))).
Proof.
  intros H1 H2 Hos Hl Hok Hsz. destruct (reconcile_view lookup os f Hos _ [] l Hl eq_refl Hok Hsz) as (l' & HR & Hc & Hv). simpl in Hv.
  assert (∀ o, fine o → Read o l' f = Ok (settled lookup <$> view f (hist (l_files l)))) as Hread by (intros o Ho; by rewrite Read_view, Hv).
  exists l'. split; [|done]. unfold view_log. rewrite Read_view, HR by done.
  destruct (length _) eqn:E; [by rewrite omap_settle_nil|]. by rewrite Hread.
Qed.

(** ** Editing *)
Section named_update.
Context {X : Type} (name_of : X → string).
Abbreviation by_name n l := (snd <$> list_find (λ x, name_of x = n) l).

Lemma by_name_insert (l : list X) i x y n : l !! i = Some x → name_of x ≠ n → name_of y ≠ n → by_name n (<[i := y]> l) = by_name n l.
Proof.
  revert i. induction l as [|z l IH]; intros [|i] Hi Hx Hy; simplify_eq/=.
  - rewrite !decide_False by done. done.
  - destruct (decide (name_of z = n)); [done|]. specialize (IH i Hi Hx Hy).
    destruct (list_find _ (<[i := y]> l)) as [[]|], (list_find _ l) as [[]|]; simplify_eq/=; done.
Qed.
Lemma by_name_inserted (l : list X) i x y n : NoDup (name_of <$> l) → l !! i = Some x → name_of x = n → name_of y = n → by_name n (<[i := y]> l) = Some y.
Proof.
  intros HN Hi Hx Hy. rewrite (find_unique name_of (<[i := y]> l) n i y); [done| | |done].
  - by rewrite (names_insert name_of l i x y) by congruence.
  - apply list_lookup_insert_eq. by eapply lookup_lt_Some.
Qed.
Lemma by_name_snoc (l : list X) y n : name_of y ≠ n → by_name n (l ++ [y]) = by_name n l.
Proof.
  intros Hy. induction l as [|z l IH]; simpl; [by rewrite decide_False|]. destruct (decide (name_of z = n)); [done|].
  destruct (list_find _ (l ++ [y])) as [[]|], (list_find _ l) as [[]|]; simplify_eq/=; done.
Qed.
Lemma by_name_snoced (l : list X) y n : n ∉ name_of <$> l → name_of y = n → by_name n (l ++ [y]) = Some y.
Proof.
  intros Hn Hy. induction l as [|z l IH]; simpl; [by rewrite decide_True|]. rewrite fmap_cons in Hn.
  rewrite decide_False by (intros <-; apply Hn; left). specialize (IH ltac:(intros H; apply Hn; by right)).
  destruct (list_find _ (l ++ [y])) as [[]|]; simplify_eq/=; done.
Qed.
End named_update.

(** The context after the edit, before the provider's authentication is resolved. *)
Definition edited_context (preferredAuth forkName : string) (fg : edit_flags) (c : Context_) : Context_ :=
  let c := (applyContext preferredAuth fg c).1 in
  if bool_decide (forkName = "") then c else set_ctx_Network (network_named forkName) c.
Definition edited_network (forkName : string) (fg : edit_flags) (n : Network) : Network :=
  (applyNetwork fg (if bool_decide (forkName = "") then n else set_net_Name forkName n)).1.

(** A field an option does not set is as it was. *)
Lemma apply_opt_keeps {A B C} (proj : B → C) o (set : A → B → B) x : (∀ v y, proj (set v y) = proj y) → proj (apply_opt o set x) = proj x.
Proof. intros Hs. by destruct o; simpl. Qed.
Lemma set_AuthMethod_keeps b v c : net_Name (ctx_Network (if b : bool then set_ctx_AuthMethod v c else c)) = net_Name (ctx_Network c) ∧
  ctx_Name (if b then set_ctx_AuthMethod v c else c) = ctx_Name c.
Proof. by destruct b, c. Qed.
Lemma applyContext_network a fg c : net_Name (ctx_Network (applyContext a fg c).1) = default (net_Name (ctx_Network c)) (ef_network fg).
Proof.
  unfold applyContext. cbn [fst]. rewrite (apply_opt_keeps (λ c, net_Name (ctx_Network c))) by (by intros ? []). rewrite (proj1 (set_AuthMethod_keeps _ _ _)).
  repeat rewrite (apply_opt_keeps (λ c, net_Name (ctx_Network c))) by (by intros ? []). destruct (ef_network fg); [|done]. by destruct c.
Qed.
Lemma applyContext_name a fg c : ctx_Name (applyContext a fg c).1 = ctx_Name c.
Proof.
  unfold applyContext. cbn [fst]. rewrite (apply_opt_keeps ctx_Name) by (by intros ? []). rewrite (proj2 (set_AuthMethod_keeps _ _ _)).
  by repeat rewrite (apply_opt_keeps ctx_Name) by (by intros ? []).
Qed.
Lemma applyNetwork_name fg n : net_Name (applyNetwork fg n).1 = net_Name n.
Proof. unfold applyNetwork. cbn [fst]. by repeat rewrite (apply_opt_keeps net_Name) by (by intros ? []). Qed.

(** What a planned edit puts in place of what. *)
Lemma plan_edit cfg name forkName a fg i c u :
  plan_update cfg name forkName (Some (applyContext a fg)) (if hasNetworkChanges fg then Some (applyNetwork fg) else None) = Ok (i, c, u) →
  ∃ c0 auth, getContext cfg name = Some (i, c0) ∧ ResolveProviderAuthType (ctx_ProviderAuthType (edited_context a forkName fg c0)) = Ok auth ∧
    c = set_ctx_ProviderAuthType auth (edited_context a forkName fg c0) ∧
    if hasNetworkChanges fg then
      ∃ j n0, getNetwork cfg (default (net_Name (ctx_Network c0)) (ef_network fg)) = Some (j, n0) ∧
        u = Some (if bool_decide (forkName = "") then Some j else None, edited_network forkName fg n0) ∧
        (forkName ≠ "" → getNetwork cfg forkName = None)
    else u = None ∧ forkName = "".
Proof.
  unfold plan_update. destruct (getContext cfg name) as [[i0 c0]|] eqn:Ec; [|done].
  pose proof (applyContext_network a fg c0) as Hn. destruct (applyContext a fg c0) as [c1 r1] eqn:Ea.
  assert (r1 = Ok tt) as -> by (unfold applyContext in Ea; by simplify_eq). assert ((applyContext a fg c0).1 = c1) as Ea1 by by rewrite Ea.
  simpl in Hn |- *. intros E. exists c0. unfold edited_context. rewrite Ea1. destruct (hasNetworkChanges fg).
  - rewrite <-Hn. destruct (bool_decide (net_Name (ctx_Network c1) = "")); [done|].
    destruct (getNetwork cfg (net_Name (ctx_Network c1))) as [[j n0]|] eqn:Ej; [|done]. unfold edited_network.
    destruct (bool_decide (forkName = "")) eqn:Ef; cbn [negb] in E.
    + simpl in E. destruct (applyNetwork fg n0) as [n1 r2] eqn:En. assert (r2 = Ok tt) as -> by (unfold applyNetwork in En; by simplify_eq).
      simpl in E. destruct (_ && _ && _); [done|]. destruct (negb _); [done|]. apply bind_ok in E as (auth & Hauth & E). simplify_eq.
      exists auth. split_and!; [done..|]. exists j, n0. split_and!; [done|done|]. intros Hf. by apply bool_decide_eq_true in Ef.
    + destruct (getNetwork cfg forkName) eqn:Eg; [done|]. simpl in E. destruct (applyNetwork fg (set_net_Name forkName n0)) as [n1 r2] eqn:En.
      assert (r2 = Ok tt) as -> by (unfold applyNetwork in En; by simplify_eq). simpl in E.
      destruct (_ && _ && _); [done|]. destruct (negb _); [done|]. apply bind_ok in E as (auth & Hauth & E). simplify_eq.
      exists auth. split_and!; [done..|]. exists j, n0. split_and!; [done|done|done].
  - destruct (bool_decide (forkName = "")) eqn:Ef; cbn [negb] in E; [|done]. simpl in E.
    destruct (_ && _ && _); [done|]. destruct (negb _); [done|]. apply bind_ok in E as (auth & Hauth & E). simplify_eq.
    exists auth. split_and!; [done..|]. by apply bool_decide_eq_true in Ef.
Qed.

Definition fork_name (fork : bool) (target name : string) : string := if fork then target +:+ "-" +:+ name else "".
Lemma fork_name_nil fork target name : fork_name fork target name = "" ↔ fork = false.
Proof.
  unfold fork_name. split; [|by intros ->]. destruct fork; [|done]. by destruct target.
Qed.

Lemma prompt_answer p fork : promptNetworkEditMode p = Ok fork → fork = true ∨ TrimSpace (pr_line p) ∈ [""; "1"].
Proof.
  unfold promptNetworkEditMode. destruct (pr_write p); [done|]. destruct (decide (TrimSpace (pr_line p) ∈ [""; "1"])) as [|Hn]; [by right|].
  destruct (pr_read p); rewrite ?(bool_decide_eq_false_2 (_ = "" ∨ _)), ?(bool_decide_eq_false_2 (_ = "")), ?(bool_decide_eq_false_2 (_ = "1")) by set_solver.
  all: case_bool_decide; [intros [= <-]; by left|done].
Qed.

(** When nobody asked and nobody agreed, a network of others is not edited in place. *)
Lemma edit_plan_consent m name fg terminal p target fork : edit_plan m name fg terminal p = Ok (target, fork) →
  ∃ c, GetContext m name = Some c ∧ target = default (net_Name (ctx_Network c)) (ef_network fg) ∧
  (fork = true → hasNetworkChanges fg = true) ∧
  (hasNetworkChanges fg = true → fork = false → networkSharedAfterContextUpdate m target name = true →
   ef_yes fg = true ∨ terminal = false ∨ TrimSpace (pr_line p) ∈ [""; "1"]).
Proof.
  unfold edit_plan. destruct (ef_forkNetwork fg) eqn:Ef; simpl.
  - destruct (given (ef_network fg)); [done|]. destruct (hasNetworkChanges fg) eqn:Eh; [|done]. simpl. rewrite andb_false_r.
    destruct (GetContext m name) as [c|]; [|done]. case_bool_decide; [done|]. intros [= <- <-]. by exists c.
  - destruct (ef_yes fg && negb (hasNetworkChanges fg)); [done|]. destruct (GetContext m name) as [c|]; [|done].
    destruct (hasNetworkChanges fg && bool_decide _) eqn:E1; [done|]. destruct (hasNetworkChanges fg) eqn:Eh; simpl.
    2:{ intros [= <- <-]. by exists c. }
    destruct (ef_yes fg); simpl; [intros [= <- <-]; exists c; split_and!; [done..|]; by left|].
    set (target' := default _ _). destruct (networkSharedAfterContextUpdate m target' name) eqn:Es; simpl.
    2:{ intros [= <- <-]. exists c. split_and!; [done..|]. intros _ _ Hs. unfold target' in *. congruence. }
    destruct terminal; simpl; [|intros [= <- <-]; exists c; split_and!; [done..|]; right; by left].
    destruct (promptNetworkEditMode p) as [answer|e|] eqn:Eq; [|done..]. intros [= <- <-]. exists c. split_and!; [done..|].
    intros _ Hf _. right; right. apply prompt_answer in Eq as [->|]; done.
Qed.

(** The effect of the update on the lookups. *)
Lemma update_effect fl m name a fg fork c m' : cfg_wf (m_cfg m) → GetContext m name = Some c →
  let target := default (net_Name (ctx_Network c)) (ef_network fg) in let forkName := fork_name fork target name in
  let edited := if fork then forkName else target in (fork = true → hasNetworkChanges fg = true) →
  UpdateContextAndNetwork fl m name forkName (Some (applyContext a fg)) (if hasNetworkChanges fg then Some (applyNetwork fg) else None) = (m', Ok tt) →
  ∃ auth, GetContext m' name = Some (set_ctx_ProviderAuthType auth (edited_context a forkName fg c)) ∧
    (∀ n, n ≠ name → GetContext m' n = GetContext m n) ∧
    (if hasNetworkChanges fg then
       (fork = true → GetNetwork m forkName = None) ∧
       (∃ parent, GetNetwork m target = Some parent ∧ GetNetwork m' edited = Some (edited_network forkName fg parent)) ∧
       ∀ n, n ≠ edited → GetNetwork m' n = GetNetwork m n
     else ∀ n, GetNetwork m' n = GetNetwork m n).
Proof.
  intros Hwf Hc target forkName edited Hfork Eu.
  apply UpdateContext_cases in Eu as [(_ & _ & ?)|(i & c' & u & Hp & Es & _)]; [done|]. apply save_fields in Es as [Es _]. simpl in Es.
  apply plan_edit in Hp as (c0 & auth & Hc0 & Hauth & -> & Hu). unfold GetContext in Hc. rewrite Hc0 in Hc. simplify_eq/=. exists auth.
  pose proof Hc0 as [Hi Hn]%find_some. set (c' := set_ctx_ProviderAuthType _ _) in *.
  assert (ctx_Name c' = ctx_Name c) as Hname.
  { unfold c', edited_context. rewrite <-(applyContext_name a fg c). destruct (applyContext a fg c).1. by case_bool_decide. }
  unfold GetContext, GetNetwork, getContext, getNetwork in *. rewrite Es. simpl. split_and!.
  - eapply by_name_inserted; [apply Hwf|done|done|congruence].
  - intros n Hne. eapply by_name_insert; [done|congruence..].
  - destruct (hasNetworkChanges fg); [|destruct Hu as [-> _]; by simpl].
    destruct Hu as (j & n0 & Hj & -> & Hfree). fold target in Hj. pose proof Hj as [Hj' Hjn]%find_some.
    assert (fork = true → list_find (λ n, net_Name n = forkName) (cfg_Networks (m_cfg m)) = None) as Hf.
    { intros ->. apply Hfree. intros Hx. by apply (fork_name_nil true target name) in Hx. }
    split; [intros Hx; by rewrite Hf|]. rewrite Hj. unfold edited, place_network. destruct fork.
    + rewrite bool_decide_eq_false_2 by (intros Hx; by apply (fork_name_nil true target name) in Hx).
      assert (net_Name (edited_network forkName fg n0) = forkName) as Hen.
      { unfold edited_network. rewrite applyNetwork_name, bool_decide_eq_false_2; [done|]. intros Hx. by apply (fork_name_nil true target name) in Hx. }
      split; [exists n0; split; [done|]|intros n Hne; apply by_name_snoc; congruence].
      apply by_name_snoced; [by apply find_none, Hf|done].
    + change forkName with "". rewrite bool_decide_eq_true_2 by done.
      assert (net_Name (edited_network "" fg n0) = target) as Hen by (unfold edited_network; by rewrite applyNetwork_name).
      split; [exists n0; split; [done|]|intros n Hne; eapply by_name_insert; [done|congruence..]].
      eapply by_name_inserted; [apply Hwf|done|done|done].
Qed.

(** After the update: the credential and the record. *)
Definition after_update (kf : key_faults) (m : Manager) (name : string) (fg : edit_flags) (changed : details) : Manager * records * result unit :=
  match ef_consoleAPIKey fg with
  | None => (m, recordContextAction (m_root m) name "edit" changed, Ok tt)
  | Some key =>
      let '(f, r) := SetConsoleAPIKey kf (m_root m) name key (m_fs m) in
      let m := set_fs f m in
      lift_mgr r m [] (
        (m, recordContextAction (m_root m) name "edit"
              (<["console-api-key" := if bool_decide (key = "") then "removed" else "updated"]> changed), Ok tt))
  end.
Lemma edit_record kf m name fg changed m' rs : changed !! "console-api-key" = None →
  after_update kf m name fg changed = (m', rs, Ok tt) →
  m_cfg m' = m_cfg m ∧ ∃ d, rs = recordContextAction (m_root m') name "edit" d ∧
    d !! "console-api-key" = (λ key, if bool_decide (key = "") then "removed" else "updated") <$> ef_consoleAPIKey fg.
Proof.
  intros Hk. unfold after_update. destruct (ef_consoleAPIKey fg) as [key|]; [|intros [= <- <-]; split; [done|]; by exists changed].
  destruct (SetConsoleAPIKey _ _ _ _ _) as [f [[]|e|]]; simpl; [|done..]. intros [= <- <-]. split; [done|].
  eexists. split; [done|]. by rewrite lookup_insert_eq.
Qed.
Lemma note_other {A} key (text : A → string) o d k : k ≠ key → note key text o d !! k = d !! k.
Proof. intros Hk. destruct o; [|done]. simpl. by rewrite lookup_insert_ne. Qed.
Lemma changes_no_key a fg : network_changes fg (context_changes a fg) !! "console-api-key" = None ∧ context_changes a fg !! "console-api-key" = None.
Proof.
  assert (context_changes a fg !! "console-api-key" = None) as H.
  { unfold context_changes. rewrite note_other by done. destruct (_ || _); rewrite ?lookup_insert_ne by done; by rewrite !note_other by done. }
  split; [|done]. unfold network_changes. by rewrite !note_other by done.
Qed.

(** a successful `akt context edit` has exactly the effect its flags ask for: the
    context carries the given fields, the network edited is its own, or a new fork of
    it when the edit forks, every other context and network is as before, a network
    other contexts share is only edited in place with --yes, without a terminal, or
    after the answer 1, and the log entry tells that the Console key changed, never
    the key. *)
Theorem edit_scope fl kf m name fg terminal p m' rs :
  cfg_wf (m_cfg m) → edit_RunE fl kf m name fg terminal p = (m', rs, Ok tt) →
  ∃ target fork c a auth, let forkName := fork_name fork target name in let edited := if fork then forkName else target in
    GetContext m name = Some c ∧ target = default (net_Name (ctx_Network c)) (ef_network fg) ∧
    preferredWorkflowAuthMethod (ef_deployVia fg) (ef_authMethod fg) = Ok a ∧
    GetContext m' name = Some (set_ctx_ProviderAuthType auth (edited_context a forkName fg c)) ∧
    (∀ n, n ≠ name → GetContext m' n = GetContext m n) ∧
    (if hasNetworkChanges fg then
       (fork = true → GetNetwork m forkName = None) ∧
       (∃ parent, GetNetwork m target = Some parent ∧ GetNetwork m' edited = Some (edited_network forkName fg parent)) ∧
       ∀ n, n ≠ edited → GetNetwork m' n = GetNetwork m n
     else ∀ n, GetNetwork m' n = GetNetwork m n) ∧
    (hasNetworkChanges fg = true → fork = false → networkSharedAfterContextUpdate m target name = true →
     ef_yes fg = true ∨ terminal = false ∨ TrimSpace (pr_line p) ∈ [""; "1"]) ∧
    ∃ d, rs = recordContextAction (m_root m') name "edit" d ∧
      d !! "console-api-key" = (λ key, if bool_decide (key = "") then "removed" else "updated") <$> ef_consoleAPIKey fg.
Proof.
  intros Hwf E. unfold edit_RunE in E. destruct (edit_plan m name fg terminal p) as [[target fork]|e|] eqn:Ep; [|done..].
  destruct (edit_plan_consent _ _ _ _ _ _ _ Ep) as (c & Hc & -> & Hfork & Hconsent). set (target := default _ _) in *.
  destruct (preferredWorkflowAuthMethod _ _) as [a|e|]; [|done..]. fold (fork_name fork target name) in E.
  destruct (UpdateContextAndNetwork _ _ _ _ _ _) as [m1 r] eqn:Eu. destruct r as [[]|e|]; simpl in E; [|done..].
  destruct (update_effect _ _ _ _ _ _ _ _ Hwf Hc Hfork Eu) as (auth & H1 & H2 & H3). fold target in H3.
  exists target, fork, c, a, auth. cbv zeta. apply edit_record in E as (Hcfg & d & Hd).
  - unfold GetContext, GetNetwork in *. rewrite Hcfg. split_and!; [done..|]. by exists d.
  - destruct (changes_no_key a fg) as [Hk1 Hk2]. case_bool_decide; rewrite ?lookup_insert_ne by done; by destruct (hasNetworkChanges fg).
Qed.

(** ** Deleting *)

(** Nothing is deleted before the user agreed. *)
Lemma delete_needs_consent fl m name yes keepData p farewell m' rs r :
  delete_RunE fl m name yes keepData p farewell = (m', rs, r) → (m', rs) ≠ (m, []) →
  yes = true ∨ pr_write p = None ∧ confirmed (TrimSpace (pr_line p)) = true.
Proof.
  intros E Hne. unfold delete_RunE in E. destruct yes; [by left|]. right. destruct (pr_write p); [by simplify_eq|]. split; [done|].
  destruct (confirmed _) eqn:Ec; [done|]. destruct (pr_read p); [case_bool_decide|]; by simplify_eq.
Qed.

(** ** Listings: structured output is a list, for contexts and networks *)
Lemma structured_lists_rows m : list_contexts Structured m = Rows (context_row m <$> ListContexts m) ∧
  list_networks Structured m = Rows (network_row m <$> ListNetworks m).
Proof. unfold list_contexts, list_networks. by destruct (ListContexts m), (ListNetworks m). Qed.
(** A list of no keyrings is a line of prose whatever the format. *)
Lemma keyring_list_prose `{Host W K} f m w : ListKeyrings m = [] → ∃ line, (list_keyrings (K := K) f m w).2 = Hint line.
Proof. intros E. unfold list_keyrings. rewrite E. by eexists. Qed.

(** Editing lets a keyring context lose its network, which creating one refuses. *)
Lemma edit_clears_network : ∃ m', (edit_RunE no_faults (MkKeyFaults None None None None) demo_manager "dev"
    (MkEditFlags false false (Some "") None None None None None None None None None None None None None None) false (MkPrompt None "" None)).1.1 = m' ∧
  (net_Name ∘ ctx_Network <$> GetContext m' "dev") = Some "" ∧ (ctx_AuthMethod <$> GetContext m' "dev") = Some "" ∧
  ∀ c e, net_Name (ctx_Network c) = "" → ctx_AuthMethod c = "" → ctx_Name c = "new" → prepare_context (m_cfg demo_manager) c ≠ Ok e.
Proof.
  eexists. split_and!; [reflexivity|vm_compute; reflexivity|vm_compute; reflexivity|]. intros c e Hn Ha Hname E. unfold prepare_context in E.
  rewrite Hname, Hn, Ha in E. vm_compute in E. discriminate.
Qed.

(** ** Examples *)
Module ContextDemo.
#[local] Existing Instance decimal_time.
#[local] Existing Instance decimal_laws.
Definition submitted : Entry := MkEntry 7 "tx" "create-deployment" "AB12" 0 0 0 42 0 0 "" "akash1abc" None 0 "" 0 "" "" "pending".
Definition node : lookup_tx := λ hash, if bool_decide (hash = ascii_of_N <$> [171; 18]%N) then Some (MkTxResponse 900 51000 0 "") else None.
Definition log_of (e : Entry) : Logger := (Log (smooth 7) fresh_log e).1.

Lemma log_of_submitted : ∃ l, Log (smooth 7) fresh_log submitted = (l, None) ∧ clean l ∧ hist (l_files l) = [submitted] ∧ (current_size l < 1000)%N.
Proof.
  destruct (Log_fits (smooth 7) fresh_log submitted) as (l & HL & Hc & Hh & Hz);
    [apply smooth_fine|apply fresh_clean|done|vm_compute; done|by eexists|vm_compute; done|].
  exists l. split_and!; [done|done|by rewrite Hh|]. rewrite Hz. vm_compute. done.
Qed.

Lemma log_shows_settled_witness : ∃ l l', Log (smooth 7) fresh_log submitted = (l, None) ∧
  view_log (smooth 8) (smooth 9) (λ _, smooth 8) (Some node) l no_filter =
  (l', Ok [set_e_Status "success" (set_e_GasUsed 51000 (set_e_Height 900 submitted))]).
Proof.
  destruct log_of_submitted as (l & HL & Hc & Hh & Hz). exists l.
  destruct (log_shows_settled node (smooth 8) (smooth 9) (λ _, smooth 8) l no_filter) as (l' & Hv & _).
  - apply smooth_fine.
  - apply smooth_fine.
  - intros _. apply smooth_fine.
  - exact Hc.
  - rewrite Hh. apply Forall_singleton. intros r E. vm_compute in E. injection E as <-. split_and!; [done|vm_compute; done|by eexists].
  - rewrite Hh. assert (revisions_size node (view no_filter [submitted]) < 1000)%N as Hr by (vm_compute; done). unfold maxLogSize. lia.
  - exists l'. split; [exact HL|]. rewrite Hv, Hh. vm_compute. reflexivity.
Defined.

Definition key_works : key_faults := MkKeyFaults None None None None.
Definition new_rpc : edit_flags := MkEditFlags true false None None None (Some "250000") None None None None None (Some "secret")
  (Some ["https://rpc.example:443"]) None None None None.
Lemma edit_scope_witness : ∃ m' rs, edit_RunE no_faults key_works demo_manager "dev" new_rpc true (MkPrompt None "" None) = (m', rs, Ok tt) ∧
  GetContext m' "prod" = GetContext demo_manager "prod" ∧ GetNetwork m' "mainnet" = GetNetwork demo_manager "mainnet" ∧
  (RPC ∘ net_Endpoints <$> GetNetwork m' "mainnet-dev") = Some ["https://rpc.example:443"].
Proof.
  destruct (edit_RunE no_faults key_works demo_manager "dev" new_rpc true (MkPrompt None "" None)) as [[m' rs] r] eqn:E.
  assert (r = Ok tt) as -> by (apply (f_equal snd) in E; vm_compute in E; done). exists m', rs. split; [done|].
  destruct (edit_scope _ _ _ _ _ _ _ _ _ demo_wf E) as (target & fork & c & a & auth & Hc & Ht & _ & _ & Ho & Hn & Hs & _).
  assert (Some (demo_context "dev") = Some c) as [= <-] by exact Hc. simpl in Ht. subst target. clear Hc.
  destruct Hn as (Hf & (parent & Hp & Hed) & Hoth). assert (Some demo_net = Some parent) as [= <-] by exact Hp.
  split; [by apply Ho|]. assert (fork = true) as ->.
  { destruct fork; [done|]. apply (f_equal (λ x, GetNetwork x.1.1 "mainnet")) in E. cbn [fst] in E.
    change (GetNetwork m' "mainnet" = Some (edited_network "" new_rpc demo_net)) in Hed. rewrite Hed in E. vm_compute in E. discriminate. }
  split; [by apply Hoth|]. change (GetNetwork m' "mainnet-dev" = Some (edited_network "mainnet-dev" new_rpc demo_net)) in Hed.
  rewrite Hed. reflexivity.
Defined.
End ContextDemo.
