(* ===== verification/Services.v ===== *)
(** * Background services (internal/events/service.go, internal/context/watcher.go)

    The event service and the configuration watcher as step relations: each step is one
    turn of the loop, or something the world does to the channels and files they read.
    The CometBFT client, the event parser, the bus and fsnotify are parameters. *)

From Stdlib Require Import Ascii.
From stdpp Require Import sorting base gmap strings pretty option numbers list relations.
From S2P Require Import Prelude GoStd Context Manager ManagerProps.

(** ** Events (events/service.go) *)
Section events.
Context {Raw Ev : Type} (ParseTypedEvent : Raw → option Ev).

(** [BlockResults]: the events of each transaction result, [None] for a nil result,
    and the events of the block itself. *)
Record block_results : Type := MkResults { br_TxsResults : list (option (list Raw)); br_FinalizeBlockEvents : list Raw }.

(** The bus: what was published, and whether it takes the next event. *)
Context (accepts : list Ev → bool) (BlockResults : Z → option block_results).

Definition parseEvent (ev : Raw) : option Ev := ParseTypedEvent ev.
Fixpoint publishEvents (bus : list Ev) (evs : list Raw) : list Ev * bool :=
  match evs with
  | [] => (bus, true)
  | ev :: evs =>
      match parseEvent ev with
      | None => publishEvents bus evs
      | Some pev => if accepts bus then publishEvents (bus ++ [pev]) evs else (bus, false)
      end
  end.
Fixpoint publish_txs (bus : list Ev) (txs : list (option (list Raw))) : list Ev * bool :=
  match txs with
  | [] => (bus, true)
  | None :: txs => publish_txs bus txs
  | Some evs :: txs => match publishEvents bus evs with (bus, true) => publish_txs bus txs | (bus, false) => (bus, false) end
  end.
Definition processBlock (bus : list Ev) (height : Z) : list Ev :=
  match BlockResults height with
  | None => bus
  | Some r => match publish_txs bus (br_TxsResults r) with
              | (bus, true) => (publishEvents bus (br_FinalizeBlockEvents r)).1
              | (bus, false) => bus
              end
  end.

(** What the subscription delivers: a new block header, or data of another type. *)
Inductive signal : Type := NewBlockHeader (height : Z) | OtherData.
(** [sv_request] is the shutdown that was asked for, with its reason. *)
Record service : Type := MkService {
  sv_queue : list signal; sv_open : bool; sv_request : option (option error); sv_bus : list Ev;
  sv_stopped : option (option error); sv_unsubscribed : bool; sv_completed : bool;
}.
Definition NewService : service := MkService [] true None [] None false false.

(** Leaving the loop runs the deferred clean-up. *)
Definition leave (s : service) (reason : option error) : service :=
  MkService (sv_queue s) (sv_open s) (sv_request s) (sv_bus s) (Some reason) true true.
Definition closed_error (subs : string) : error := Errorf "event subscription %q closed" [subs].

(** A step with the signal it delivers, if it is a delivery. *)
Inductive service_step (subs : string) : service → option signal → service → Prop :=
| run_event s sig rest : sv_stopped s = None → sv_queue s = sig :: rest →
    service_step subs s None (MkService rest (sv_open s) (sv_request s)
      (match sig with NewBlockHeader height => processBlock (sv_bus s) height | OtherData => sv_bus s end) None (sv_unsubscribed s) (sv_completed s))
| run_closed s : sv_stopped s = None → sv_queue s = [] → sv_open s = false → service_step subs s None (leave s (Some (closed_error subs)))
| run_shutdown s reason : sv_stopped s = None → sv_request s = Some reason → service_step subs s None (leave s reason)
| world_event s sig : sv_open s = true →
    service_step subs s (Some sig) (MkService (sv_queue s ++ [sig]) (sv_open s) (sv_request s) (sv_bus s) (sv_stopped s) (sv_unsubscribed s) (sv_completed s))
| world_close s : service_step subs s None (MkService (sv_queue s) false (sv_request s) (sv_bus s) (sv_stopped s) (sv_unsubscribed s) (sv_completed s))
| world_Shutdown s reason : sv_request s = None →
    service_step subs s None (MkService (sv_queue s) (sv_open s) (Some reason) (sv_bus s) (sv_stopped s) (sv_unsubscribed s) (sv_completed s)).

(** The states the service reaches, with everything its subscription delivered. *)
Inductive service_run (subs : string) : list signal → service → Prop :=
| sr_new : service_run subs [] NewService
| sr_step delivered s sig s' : service_run subs delivered s → service_step subs s sig s' → service_run subs (delivered ++ option_list sig) s'.
End events.
Arguments block_results : clear implicits. Arguments service : clear implicits.

(** ** The configuration watcher (context/watcher.go) *)

(** fsnotify's operations; the loop looks at [Write] and [Create]. *)
Inductive fs_op : Type := OpWrite | OpCreate | OpRemove | OpRename | OpChmod.
Definition relevant (op : fs_op) : bool := match op with OpWrite | OpCreate => true | _ => false end.

(** The watcher: its manager, the events fsnotify has queued, its subscribers, the
    calls of the subscribers, and whether it was told to stop and has stopped. *)
Record watcher : Type := MkWatcher {
  wa_mgr : Manager; wa_events : list fs_op; wa_subs : list nat; wa_calls : list (nat * config); wa_stop : bool; wa_done : bool;
}.
Definition NewWatcher (m : Manager) : watcher := MkWatcher m [] [] [] false false.
Definition Subscribe (fn : nat) (w : watcher) : watcher :=
  MkWatcher (wa_mgr w) (wa_events w) (wa_subs w ++ [fn]) (wa_calls w) (wa_stop w) (wa_done w).

Definition handle_event (op : fs_op) (rest : list fs_op) (w : watcher) : watcher :=
  if negb (relevant op) then MkWatcher (wa_mgr w) rest (wa_subs w) (wa_calls w) (wa_stop w) (wa_done w)
  else match Reload (wa_mgr w) with
       | (m, Ok _) => MkWatcher m rest (wa_subs w) (wa_calls w ++ ((λ fn, (fn, m_cfg m)) <$> wa_subs w)) (wa_stop w) (wa_done w)
       | (m, _) => MkWatcher m rest (wa_subs w) (wa_calls w) (wa_stop w) (wa_done w)
       end.

(** A turn of the loop, an error of fsnotify that is only reported, [Stop], and another
    process that changes the file, which fsnotify reports. *)
Inductive watcher_step : watcher → watcher → Prop :=
| loop_event w op rest : wa_done w = false → wa_events w = op :: rest → watcher_step w (handle_event op rest w)
| loop_error w : wa_done w = false → watcher_step w w
| loop_stop w : wa_done w = false → wa_stop w = true → watcher_step w (MkWatcher (wa_mgr w) (wa_events w) (wa_subs w) (wa_calls w) true true)
| world_stop w : watcher_step w (MkWatcher (wa_mgr w) (wa_events w) (wa_subs w) (wa_calls w) true (wa_done w))
| world_write w f op : relevant op = true →
    watcher_step w (MkWatcher (set_fs f (wa_mgr w)) (wa_events w ++ [op]) (wa_subs w) (wa_calls w) (wa_stop w) (wa_done w))
| world_touch w op : relevant op = false →
    watcher_step w (MkWatcher (wa_mgr w) (wa_events w ++ [op]) (wa_subs w) (wa_calls w) (wa_stop w) (wa_done w)).

(** * What the background services guarantee, by induction on their steps *)

(** ** Events *)
Section events.
Context {Raw Ev : Type} (ParseTypedEvent : Raw → option Ev) (accepts : list Ev → bool) (BlockResults : Z → option (block_results Raw)).
Context (subs : string).
Abbreviation step := (service_step ParseTypedEvent accepts BlockResults subs).

(** The reference: the typed events of a block, transactions first. *)
Definition block_events (height : Z) : list Ev :=
  match BlockResults height with
  | None => []
  | Some r => omap ParseTypedEvent (concat (omap id (br_TxsResults r)) ++ br_FinalizeBlockEvents r)
  end.
Definition signal_events (sig : signal) : list Ev := match sig with NewBlockHeader height => block_events height | OtherData => [] end.

Lemma publishEvents_all bus evs : (∀ b, accepts b = true) → publishEvents ParseTypedEvent accepts bus evs = (bus ++ omap ParseTypedEvent evs, true).
Proof.
  intros Ha. revert bus. induction evs as [|ev evs IH]; intros bus; cbn [publishEvents omap list_omap]; [by rewrite app_nil_r|].
  unfold parseEvent. destruct (ParseTypedEvent ev); [|done]. rewrite Ha, IH. by rewrite <-app_assoc.
Qed.
Lemma publish_txs_all bus txs : (∀ b, accepts b = true) →
  publish_txs ParseTypedEvent accepts bus txs = (bus ++ omap ParseTypedEvent (concat (omap id txs)), true).
Proof.
  intros Ha. revert bus. induction txs as [|[evs|] txs IH]; intros bus; cbn [publish_txs]; [by rewrite app_nil_r| |done].
  rewrite publishEvents_all, IH by done. cbn [omap list_omap concat id]. by rewrite omap_app, <-app_assoc.
Qed.
Lemma processBlock_all bus height : (∀ b, accepts b = true) → processBlock ParseTypedEvent accepts BlockResults bus height = bus ++ block_events height.
Proof.
  intros Ha. unfold processBlock, block_events. destruct (BlockResults height) as [r|]; [|by rewrite app_nil_r].
  rewrite publish_txs_all, publishEvents_all by done. simpl. by rewrite omap_app, <-app_assoc.
Qed.
(** The bus only grows, by typed events of the block. *)
Lemma publishEvents_grows bus evs : ∃ more, (publishEvents ParseTypedEvent accepts bus evs).1 = bus ++ more ∧ more `sublist_of` omap ParseTypedEvent evs.
Proof.
  revert bus. induction evs as [|ev evs IH]; intros bus; cbn [publishEvents omap list_omap]; [exists []; by rewrite app_nil_r|].
  unfold parseEvent. destruct (ParseTypedEvent ev) as [pev|]; [|apply IH]. destruct (accepts bus).
  - destruct (IH (bus ++ [pev])) as (more & -> & Hm). exists (pev :: more). rewrite <-app_assoc. split; [done|]. by apply sublist_skip.
  - exists []. rewrite app_nil_r. split; [done|]. apply sublist_nil_l.
Qed.

(** What holds in every state the service reaches. *)
Record serviced (delivered : list signal) (s : service Ev) : Prop := {
  se_bus : ∃ handled, delivered = handled ++ sv_queue s ∧
    ((∀ b, accepts b = true) → sv_bus s = concat (signal_events <$> handled));
  se_stopped : sv_stopped s ≠ None → sv_unsubscribed s = true ∧ sv_completed s = true;
  se_reason : ∀ r, sv_stopped s = Some r → sv_request s = Some r ∨ r = Some (closed_error subs);
}.
Lemma service_run_serviced delivered s : service_run ParseTypedEvent accepts BlockResults subs delivered s → serviced delivered s.
Proof.
  induction 1 as [|delivered s sig s' _ [(handled & Hd & Hb) Hst Hr] Hstep]; [split; [by exists []|done|done]|].
  inversion Hstep as [? sg rest Hn Hq|? Hn Hq Ho|? reason Hn Hq|? sg Ho|?|? reason Hq]; subst; simpl; rewrite ?app_nil_r.
  - split; simpl; [|done|done]. exists (handled ++ [sg]). rewrite Hq, <-app_assoc. split; [done|]. intros Ha. rewrite fmap_app, concat_app. simpl.
    rewrite app_nil_r, (Hb Ha). destruct sg; [|by rewrite app_nil_r]. by rewrite processBlock_all.
  - split; simpl; [by exists handled|done|]. intros r [= <-]. by right.
  - split; simpl; [by exists handled|done|]. intros r [= <-]. by left.
  - split; simpl; [|done|done]. exists handled. by rewrite <-app_assoc.
  - split; simpl; [by exists handled|done|done].
  - split; simpl; [by exists handled|done|]. intros r Hs. destruct (Hr r Hs) as [?|?]; [congruence|by right].
Qed.
Lemma stopped_stays s sig s' : service_step ParseTypedEvent accepts BlockResults subs s sig s' → sv_stopped s ≠ None →
  sv_bus s' = sv_bus s ∧ sv_stopped s' = sv_stopped s.
Proof. by inversion 1; subst; simpl. Qed.
(** A service that was asked to stop, or whose subscription closed, can always take a
    turn until it has stopped. *)
Lemma service_can_stop s : sv_stopped s = None → sv_request s ≠ None ∨ sv_open s = false →
  ∃ s', service_step ParseTypedEvent accepts BlockResults subs s None s' ∧ (length (sv_queue s') < length (sv_queue s) ∨ sv_stopped s' ≠ None).
Proof.
  intros Hn [Hr|Ho].
  - destruct (sv_request s) as [reason|] eqn:E; [|done]. exists (leave s reason). split; [by apply run_shutdown|by right].
  - destruct (sv_queue s) as [|sg rest] eqn:E.
    + exists (leave s (Some (closed_error subs))). split; [by apply run_closed|by right].
    + eexists. split; [by eapply run_event|]. left. simpl. lia.
Qed.
End events.

(** C26: whatever the order of headers, closing and shutdown requests, the event service
    handles what its subscription delivered in order, losing nothing; while the bus
    takes events, it holds exactly the typed events of the handled blocks, those of
    transactions before those of the block; once stopped the service has unsubscribed,
    its reason is the requested one or the closed subscription, and no step publishes
    any more. *)
Theorem events_in_order {Raw Ev} (ParseTypedEvent : Raw → option Ev) accepts BlockResults subs delivered s :
  service_run ParseTypedEvent accepts BlockResults subs delivered s →
  (∃ handled, delivered = handled ++ sv_queue s ∧
     ((∀ b, accepts b = true) → sv_bus s = concat (signal_events ParseTypedEvent BlockResults <$> handled))) ∧
  (sv_stopped s ≠ None → sv_unsubscribed s = true ∧ sv_completed s = true ∧
     ∀ sig s', service_step ParseTypedEvent accepts BlockResults subs s sig s' → sv_bus s' = sv_bus s ∧ sv_stopped s' = sv_stopped s) ∧
  ∀ r, sv_stopped s = Some r → sv_request s = Some r ∨ r = Some (closed_error subs).
Proof.
  intros [Hb Hst Hr]%service_run_serviced. split_and!; [done| |done]. intros Hs. destruct (Hst Hs) as [H1 H2]. split_and!; [done..|].
  intros sig s' Hstep. by eapply stopped_stays.
Qed.
Lemma events_in_order_witness : ∃ s, service_run Some (λ _, true) (λ h, Some (MkResults [Some [h; h + 1]%Z; None] [h + 2]%Z)) "akt"
    [NewBlockHeader 7; OtherData] s ∧ sv_bus s = [7; 8; 9]%Z ∧ sv_queue s = [OtherData].
Proof.
  set (results := λ h : Z, Some (MkResults [Some [h; h + 1]%Z; None] [h + 2]%Z)).
  assert (service_run Some (λ _ : list Z, true) results "akt" [NewBlockHeader 7; OtherData]
    (MkService [OtherData] true None [7; 8; 9]%Z None false false)) as Hrun.
  { eapply (sr_step _ _ _ _ [NewBlockHeader 7; OtherData] _ None); [|exact (run_event Some (λ _ : list Z, true) results _ (MkService [NewBlockHeader 7; OtherData] true None [] None false false) (NewBlockHeader 7) [OtherData] eq_refl eq_refl)].
    eapply (sr_step _ _ _ _ [NewBlockHeader 7] _ (Some OtherData)); [|exact (world_event Some (λ _ : list Z, true) results _ (MkService [NewBlockHeader 7] true None [] None false false) OtherData eq_refl)].
    eapply (sr_step _ _ _ _ [] _ (Some (NewBlockHeader 7))); [apply sr_new|exact (world_event Some (λ _ : list Z, true) results _ NewService (NewBlockHeader 7) eq_refl)]. }
  destruct (events_in_order _ _ _ _ _ _ Hrun) as [(handled & Hd & Hb) _]. eexists. split; [exact Hrun|].
  assert (handled = [NewBlockHeader 7]) as ->.
  { destruct handled as [|x [|y [|z h]]]; simplify_eq/=; done. }
  split; [exact (Hb (λ _, eq_refl))|reflexivity].
Defined.

(** ** The configuration watcher *)

(** Memory follows the file: with no relevant event waiting and the loop running, the
    manager holds what the file says, if the file can be read. *)
Record follows (w : watcher) : Prop := {
  fo_current : Forall (λ op, relevant op = false) (wa_events w) → wa_done w = false →
    ∀ cfg, LoadConfig (m_root (wa_mgr w)) (m_fs (wa_mgr w)) = Ok cfg → m_cfg (wa_mgr w) = cfg;
}.
Lemma Reload_fields m : m_root (Reload m).1 = m_root m ∧ m_fs (Reload m).1 = m_fs m.
Proof. unfold Reload. by destruct (LoadConfig _ _). Qed.
Lemma Reload_follows m cfg : LoadConfig (m_root m) (m_fs m) = Ok cfg → Reload m = (set_cfg cfg m, Ok tt).
Proof. intros E. unfold Reload. by rewrite E. Qed.
Lemma watcher_step_follows w w' : follows w → watcher_step w w' → follows w'.
Proof.
  intros [Hf] Hs. destruct Hs as [w op rest Hd He|w Hd|w Hd Hs|w|w f op Hop|w op Hop]; [|done|by split|by split| |].
  - unfold handle_event. destruct (relevant op) eqn:Eo; simpl.
    + destruct (Reload (wa_mgr w)) as [m [[]|e|]] eqn:Er; split; simpl; intros _ _ cfg Hl; pose proof (Reload_fields (wa_mgr w)) as [H1 H2];
        rewrite Er in H1, H2; simpl in H1, H2; rewrite H1, H2 in Hl; apply Reload_follows in Hl; rewrite Er in Hl; by simplify_eq.
    + split; simpl. intros Hq Hd' cfg Hl. apply Hf; [rewrite He; by constructor|done|done].
  - split; simpl. intros Hq. apply Forall_app in Hq as [_ Hq]. apply Forall_cons in Hq as [Hq _]. congruence.
  - split; simpl. intros Hq. apply Forall_app in Hq as [Hq _]. by apply Hf.
Qed.

(** Every call hands a subscriber a configuration that was read. *)
Lemma watcher_step_calls w w' : watcher_step w w' → wa_calls w' = wa_calls w ∨
  ∃ cfg, LoadConfig (m_root (wa_mgr w)) (m_fs (wa_mgr w)) = Ok cfg ∧ m_cfg (wa_mgr w') = cfg ∧ wa_calls w' = wa_calls w ++ ((λ fn, (fn, cfg)) <$> wa_subs w).
Proof.
  destruct 1 as [w op rest Hd He|w Hd|w Hd Hs|w|w f op Hop|w op Hop]; try by left. unfold handle_event. destruct (relevant op); [|by left]. simpl.
  unfold Reload. destruct (LoadConfig _ _) as [cfg|e|]; simpl; [|by left..]. right. by exists cfg.
Qed.

Lemma subscribed_mgr m subs : wa_mgr (foldr Subscribe (NewWatcher m) subs) = m.
Proof. by induction subs. Qed.

