(* ===== verification/Startup.v ===== *)
(** * From the command line to a running command (internal/cli/root.go, internal/client/context.go)

    The hook that runs before every command: configuration, wizard, keyrings, the SDK
    client context, transaction and provider defaults, gating, the action log. Cobra and
    Viper are reduced to what the hook reads: the flags with their values and whether
    they were given, and the values Viper resolves. The SDK's coins, Bech32 and URL
    parsing, and the wizard are parameters. *)

From Stdlib Require Import Ascii.
From stdpp Require Import sorting base gmap strings pretty option numbers list.
From S2P Require Import Prelude GoStd GoJson Context KeyringMgr Manager Workflow GoText ActionLog Capability McpArgs McpTools.

(** ** Transaction defaults *)
Record str_flag : Type := MkFlag { sf_value : string; sf_changed : bool }.
(** The flags a transaction command has; [None] when it does not declare one. *)
Record tx_flags : Type := MkTxFlags { tf_gas : option str_flag; tf_gasAdjustment : option str_flag; tf_dryRun : bool; tf_fees : option str_flag; tf_gasPrices : option str_flag }.
Definition set_value (v : string) (f : str_flag) : str_flag := MkFlag v (sf_changed f).
Definition with_gas (g : option str_flag) (t : tx_flags) : tx_flags := MkTxFlags g (tf_gasAdjustment t) (tf_dryRun t) (tf_fees t) (tf_gasPrices t).
Definition with_gasAdjustment (g : option str_flag) (t : tx_flags) : tx_flags := MkTxFlags (tf_gas t) g (tf_dryRun t) (tf_fees t) (tf_gasPrices t).
Definition with_fee (fees prices : str_flag) (t : tx_flags) : tx_flags := MkTxFlags (tf_gas t) (tf_gasAdjustment t) (tf_dryRun t) (Some fees) (Some prices).

(** [os.LookupEnv]. *)
Abbreviation environment := (string → option string).
(** [accepts] tells whether the flag's value takes the text: the gas adjustment is a
    number. *)
Definition setDefault (accepts : string → bool) (env : environment) (envName contextValue : string) (f : option str_flag) : option str_flag :=
  match f with
  | None => None
  | Some f =>
      if sf_changed f then Some f
      else let value := default contextValue (env envName) in
           if negb (bool_decide (value = "")) && accepts value then Some (set_value value f) else Some f
  end.

Definition choose_fee (env : environment) (rc : Context_) (fees prices : str_flag) : str_flag * str_flag :=
  match env "AKT_FEES", env "AKT_GAS_PRICES" with
  | Some envFees, envPrices =>
      if negb (bool_decide (envFees = "")) then (set_value envFees fees, set_value "" prices)
      else match envPrices with
           | Some p => (set_value "" fees, set_value p prices)
           | None => (set_value "" fees, set_value (ctx_GasPrices rc) prices)
           end
  | None, Some p => (set_value "" fees, set_value p prices)
  | None, None =>
      if negb (bool_decide (ctx_Fees rc = "")) then (set_value (ctx_Fees rc) fees, set_value "" prices)
      else if negb (bool_decide (ctx_GasPrices rc = "")) then (fees, set_value (ctx_GasPrices rc) prices)
      else (fees, prices)
  end.

(** The SDK's decimal coins: a denomination and an amount in units of 10^-18. *)
Abbreviation dec_coins := (list (string * Z)).
Class DecCoins : Type := { ParseDecCoins : string → result dec_coins; DecCoins_String : dec_coins → string }.

Section fees.
Context `{DecCoins}.

(** One coin raised to the first entry of its denomination in the floor: the coin,
    whether there is such an entry, and whether it was raised. *)
Definition raise_coin (floor : dec_coins) (c : string * Z) : (string * Z) * bool * bool :=
  match list_find (λ m, m.1 = c.1) floor with
  | None => (c, false, false)
  | Some (_, m) => if (c.2 <? m.2)%Z then ((c.1, m.2), true, true) else (c, true, false)
  end.
Definition applyGasPriceFloor (candidateRaw floorRaw : string) : result string :=
  candidate ← map_err (Wrapf "--%s: %w" ["gas-prices"]) (ParseDecCoins candidateRaw);
  floor ← map_err (Wrapf "configured network gas prices %q: %w" [floorRaw]) (ParseDecCoins floorRaw);
  let effective := raise_coin floor <$> candidate in
  if negb (existsb (λ r, r.1.2) effective) then
    failf "gas prices %q have no denomination in the selected network gas prices %q" [DecCoins_String candidate; DecCoins_String floor]
  else if negb (existsb (λ r, r.2) effective) then Ok candidateRaw
  else Ok (DecCoins_String ((λ r, r.1.1) <$> effective)).

Definition applyTransactionDefaults (is_number : string → bool) (env : environment) (rc : Context_) (t : tx_flags) : result tx_flags :=
  match tf_gas t with
  | None => Ok t
  | Some _ =>
      let t := with_gas (setDefault (λ _, true) env "AKT_GAS" (ctx_Gas rc) (tf_gas t)) t in
      let t := with_gasAdjustment (setDefault is_number env "AKT_GAS_ADJUSTMENT" (ctx_GasAdjustment rc) (tf_gasAdjustment t)) t in
      let t := if tf_dryRun t then with_gas (set_value "0" <$> tf_gas t) t else t in
      match tf_fees t, tf_gasPrices t with
      | Some fees, Some prices =>
          let '(fees, prices) := if negb (sf_changed fees) && negb (sf_changed prices) then choose_fee env rc fees prices else (fees, prices) in
          if negb (bool_decide (sf_value fees = "")) || bool_decide (sf_value prices = "") || bool_decide (ctx_GasPrices rc = "")
          then Ok (with_fee fees prices t)
          else effective ← applyGasPriceFloor (sf_value prices) (ctx_GasPrices rc); Ok (with_fee fees (set_value effective prices) t)
      | _, _ => Ok t
      end
  end.

(** *** What the client pays with (cli/chain/flags/client.go) *)
Inductive fee_option : Type := WithFees (fees : string) | WithGasPrices (prices : string) | NoFee.
Definition fee_of (parse_fees : string → result unit) (t : tx_flags) : result fee_option :=
  let fees := default "" (sf_value <$> tf_fees t) in
  if negb (bool_decide (fees = "")) then
    _ ← map_err (Wrapf "--%s: %w" ["fees"]) (parse_fees fees); Ok (WithFees fees)
  else
    let prices := default "" (sf_value <$> tf_gasPrices t) in
    if bool_decide (prices = "") then Ok NoFee
    else _ ← map_err (Wrapf "--%s: %w" ["gas-prices"]) (ParseDecCoins prices); Ok (WithGasPrices prices).
End fees.

Definition GasFlagAuto : string := "auto".
Record GasSetting : Type := MkGasSetting { gs_Simulate : bool; gs_Gas : N }.
Definition ParseGasSetting (DefaultGasLimit : N) (gasStr : string) : result GasSetting :=
  if bool_decide (gasStr = "") then Ok (MkGasSetting false DefaultGasLimit)
  else if bool_decide (gasStr = GasFlagAuto) then Ok (MkGasSetting true 0)
  else match ParseUint u64_max gasStr with
       | Ok gas => Ok (MkGasSetting false gas)
       | _ => failf "gas must be either integer or %s" [GasFlagAuto]
       end.

(** ** Provider and broadcast defaults *)
Definition applyProviderDefaults (path : list string) (rc : Context_) (auth : option str_flag) : result (option str_flag) :=
  if match path with "status" :: "provider" :: _ => true | _ => false end then Ok auth
  else match auth with
       | None => Ok None
       | Some f => if sf_changed f then Ok (Some f)
                   else a ← ResolveProviderAuthType (ctx_AuthType rc); Ok (Some (set_value a f))
       end.
Definition broadcast_modes : list string := ["sync"; "async"; "block"].
(** [mode] is what Viper resolves for defaults.broadcast-mode with the flag bound. *)
Definition applyBroadcastModeDefault (flag : option str_flag) (mode : string) : result (option str_flag) :=
  match flag with
  | None => Ok None
  | Some f => if bool_decide (mode ∈ broadcast_modes) then Ok (Some (set_value mode f))
              else failf "invalid broadcast mode: %v" [mode]
  end.

(** ** The client context (client/context.go) *)
Section client.
Context {W K : Type} `{Host W K}.
(** Bech32 parsing, endpoint normalization of the node library, and the lookup of a
    key in an open keyring. *)
Context (AccAddress : string → result string) (NormalizeEndpoint : string → string) (Key : K → string → W → W * result (option key_record)).

Inductive client_keyring : Type := NoKeyring | Lazy (d : deferred K) | Opened (k : K).
Record client : Type := MkClient {
  cl_HomeDir : string; cl_Keyring : client_keyring; cl_ChainID : string; cl_KeyringDir : string;
  cl_From : string; cl_FromName : string; cl_FromAddress : option string; cl_BroadcastMode : string; cl_NodeURI : string; cl_OutputFormat : string;
}.

(** [resolveKeyringAddress] on the keyring of the context, which may be none. *)
Definition resolve_named (kr : client_keyring) (from : string) (w : W) : W * result string :=
  match kr with
  | Opened k => let '(w, r) := Key k from w in (w, resolveKeyringAddress (Some (λ _, r, λ _, false)) from)
  | _ => (w, resolveKeyringAddress None from)
  end.

Definition buildClientContext (rc : Context_) (kr : client_keyring) (fromOverride : string) (resolveNamedAccount : bool) (w : W) : W * client * result unit :=
  let from := if bool_decide (fromOverride = "") then ctx_DefaultAccount rc else fromOverride in
  let '(w, name, addr, err) :=
    if bool_decide (from = "") then (w, "", None, Ok tt)
    else match AccAddress from with
         | Ok a => (w, "", Some a, Ok tt)
         | _ => if resolveNamedAccount then
                  match resolve_named kr from w with
                  | (w, Ok a) => (w, from, Some a, Ok tt)
                  | (w, Err e) => (w, "", None, Err e)
                  | (w, Panic) => (w, "", None, Panic)
                  end
                else (w, "", None, Ok tt)
         end in
  (w, MkClient (ctx_Root rc) kr (net_ChainID (ctx_Network rc)) (KeyringDir (ctx_Root rc) (ctx_Keyring rc)) from name addr "sync"
        (match RPC (net_Endpoints (ctx_Network rc)) with rpc :: _ => NormalizeEndpoint rpc | [] => "" end) "json", err).

Definition selected_context (m : Manager) (override : string) : option string :=
  let name := if bool_decide (override = "") then CurrentContext m else override in
  if bool_decide (name = "") then match ListContexts m with [c] => Some (ctx_Name c) | _ => None end else Some name.

(** [None] is no context. *)
Definition MustResolveAndInit (env : string → string) (m : Manager) (km : kmgr K) (contextOverride fromOverride : string) (mode : LocalIdentityMode) (w : W)
    : kmgr K * W * result (option client) :=
  match selected_context m contextOverride with
  | None => (km, w, Ok None)
  | Some name =>
      match Resolve env m name with
      | Err e => (km, w, Err e)
      | Panic => (km, w, Panic)
      | Ok rc =>
          let krName := if bool_decide (kr_Name (ctx_Keyring rc) = "") then "default" else kr_Name (ctx_Keyring rc) in
          let init km w kr named :=
            match buildClientContext rc kr fromOverride named w with
            | (w, c, Ok _) => (km, w, Ok (Some c))
            | (w, _, Err e) => (km, w, Err e)
            | (w, _, Panic) => (km, w, Panic)
            end in
          match mode with
          | LocalIdentityNone => init km w NoKeyring false
          | LocalIdentityOnDemand => init km w (Lazy (Deferred km krName)) false
          | LocalIdentityRequired =>
              match km_Get km krName w with
              | (km, w, Ok k) => init km w (Opened k) true
              | (km, w, Err e) => (km, w, Err e)
              | (km, w, Panic) => (km, w, Panic)
              end
          end
      end
  end.

(** ** The hook *)

(** What one invocation is: the command and its parents, its arguments, the flags the
    hook reads and what Viper resolves. *)
Record invocation : Type := MkInvocation {
  iv_root : Command; iv_path : list nat; iv_argv : list string; iv_args : list string; iv_bools : gmap string (option bool);
  iv_quiet : bool; iv_verbose : Z; iv_home : string; iv_context : string; iv_from : string; iv_keyringBackend : string; iv_keyringDir : string;
  iv_tx : tx_flags; iv_auth : option str_flag; iv_broadcast : option str_flag; iv_mode : string; iv_gating : string;
}.
Record ready : Type := MkReady {
  rd_mgr : Manager; rd_client : option client; rd_tree : Command; rd_tx : tx_flags; rd_auth : option str_flag; rd_broadcast : option str_flag; rd_log : option string }.
(** Set up by the wizard, so that the command does not run, or ready to run it. *)
Inductive started : Type := Bootstrapped | Ready (r : ready).

Definition noContextError (m : Manager) : error :=
  match ListContexts m with
  | [] => Errorf "no contexts configured; create one with %q and activate with %q" ["akt context create"; "akt context use"]
  | cs => Errorf "no active context; available contexts: %s" [strings_Join (ctx_Name <$> cs) ", "]
  end.

Context `{DecCoins} (is_number : string → bool) (quote : string → string).
(** [env] is [os.Getenv], [lookup] is [os.LookupEnv]; [wizard] is the function given
    to [newRootCmd]; [validate] is [ValidateTxInvocation] of a command with the offline flag; [open_log] is the failure of
    opening the action log. *)
Context (env : string → string) (lookup : environment) (userHome : result string) (wizard : string → fs → fs * result unit)
  (validate : invocation → option error) (open_log : string → option error).

(** With a resolved context: defaults of the transaction and of the provider. *)
Definition context_defaults (iv : invocation) (names : list string) (rc : Context_) : result (tx_flags * option str_flag) :=
  t ← applyTransactionDefaults is_number lookup rc (iv_tx iv);
  a ← applyProviderDefaults names rc (iv_auth iv);
  Ok (t, a).

(** From the loaded manager to the end of the hook. *)
Definition finish_startup (iv : invocation) (line : list Command) (m : Manager) (km : kmgr K) (w : W) : kmgr K * W * result started :=
  let path := CommandPath line in
  let help := isHelpInvocation line (iv_argv iv) in
  let req := match line with c :: _ => cmd_Req c | [] => "" end in
  match MustResolveAndInit env m km (iv_context iv) (iv_from iv) (localIdentityMode (iv_bools iv) path req) w with
  | (km, w, Err e) => (km, w, Err e)
  | (km, w, Panic) => (km, w, Panic)
  | (km, w, Ok resolved) =>
      (km, w,
        if match resolved with None => true | Some _ => false end && requiresContext path && negb help then Err (noContextError m)
        else
          rc ← match resolved with None => Ok None | Some _ => rc ← Resolve env m (ActiveContext m (iv_context iv)); Ok (Some rc) end;
          '(t, a) ← match rc with None => Ok (iv_tx iv, iv_auth iv) | Some rc => context_defaults iv (cmd_Name <$> line) rc end;
          b ← applyBroadcastModeDefault (iv_broadcast iv) (iv_mode iv);
          _ ← match rc with Some _ => match validate iv with Some e => Err e | None => Ok tt end | None => Ok tt end;
          tree ← match rc with
                 | None => Ok (iv_root iv)
                 | Some rc =>
                     let mode := ParseMode (gatingMode (iv_gating iv) (dfl_CommandGating (cfg_Defaults (m_cfg m)))) in
                     let set := invocationCapabilities (env "AKT_CONSOLE_API_KEY") (resolve_caps (Some rc)) (Some line) (iv_argv iv) (iv_args iv) in
                     if negb (bool_decide (mode = ModeOff)) && negb help then
                       match requirementError quote line set with Some e => Err e | None => Ok (applyCapabilityGating (iv_root iv) set mode) end
                     else Ok (applyCapabilityGating (iv_root iv) set mode)
                 end;
          let selected := ActiveContext m (iv_context iv) in
          log ← (if bool_decide (selected = "") then Ok None
                 else let path := ActionLogPath (m_root m) selected in
                      match open_log path with
                      | Some e => Err (Wrapf "open action log for context %q: %w" [selected] e)
                      | None => Ok (Some path)
                      end);
          Ok (Ready (MkReady m resolved tree t a b log)))
  end.

Definition PersistentPreRunE (iv : invocation) (f : fs) (w : W) : kmgr K * fs * W * result started :=
  let km0 := MkKmgr "" ∅ ∅ in
  match lineage (iv_root iv) (iv_path iv) [] with
  | None => (km0, f, w, Panic)
  | Some line =>
      if iv_quiet iv && (0 <? iv_verbose iv)%Z then (km0, f, w, failf "--quiet and --verbose are mutually exclusive" [])
      else match ConfigHome env userHome (iv_home iv) with
           | Err e => (km0, f, w, Err e)
           | Panic => (km0, f, w, Panic)
           | Ok root =>
               let first_run := negb (os_exists (ConfigPath root) f) && negb (isHelpInvocation line (iv_argv iv)) && requiresConfig (CommandPath line) in
               let '(f, r) := if first_run then wizard root f else (f, Ok tt) in
               match r with
               | Err e => (km0, f, w, Err e)
               | Panic => (km0, f, w, Panic)
               | Ok _ =>
                   if first_run && os_exists (ConfigPath root) f then (km0, f, w, Ok Bootstrapped)
                   else match Manager.NewManager root f with
                        | Err e => (km0, f, w, Err e)
                        | Panic => (km0, f, w, Panic)
                        | Ok m =>
                            match ValidateBackend (iv_keyringBackend iv) with
                            | Err e => (km0, f, w, Err e)
                            | Panic => (km0, f, w, Panic)
                            | Ok _ =>
                                let km := KeyringMgr.NewManager root (ApplyOverrides (cfg_Keyrings (m_cfg m)) (iv_keyringBackend iv) (iv_keyringDir iv)) in
                                let '(km, w, r) := finish_startup iv line m km w in (km, f, w, r)
                            end
                        end
               end
           end
  end.
End client.
