(* ===== verification/StartupProps.v ===== *)
(** * What the startup hook guarantees

    The economics of a transaction: where its fee comes from and the floor under its
    gas prices; and the state a command starts in. *)

From Stdlib Require Import Ascii.
From stdpp Require Import sorting base gmap strings pretty option numbers list.
From S2P Require Import Prelude GoStd GoJson Context KeyringMgr Manager Workflow GoText ActionLog Capability McpArgs McpTools Startup.

(** ** Gas prices *)

(** Decimal coins as the SDK validates them: positive amounts, denominations in strictly
    increasing order. *)
Fixpoint increasing (ds : list string) : bool :=
  match ds with
  | d :: (e :: _) as ds' => bool_decide (String.compare d e = Lt) && increasing ds'
  | _ => true
  end.
Definition coins_valid (cs : dec_coins) : bool := increasing cs.*1 && forallb (λ c, 0 <? c.2)%Z cs.
(** Parsing accepts only valid coins, and reads back what is printed of them. *)
Class DecCoinsLaws `{DecCoins} : Prop := {
  parse_valid s cs : ParseDecCoins s = Ok cs → coins_valid cs = true;
  parse_print cs : coins_valid cs = true → ParseDecCoins (DecCoins_String cs) = Ok cs;
}.

(** The least price of a denomination in a floor, zero when there is none. *)
Definition least (floor : dec_coins) (d : string) : Z := default 0%Z ((list_to_map floor : gmap string Z) !! d).
Definition lifted (floor : dec_coins) (c : string * Z) : string * Z := (c.1, Z.max c.2 (least floor c.1)).

Lemma list_find_lookup (fl : dec_coins) d :
  (λ r, r.2.2) <$> list_find (λ m, m.1 = d) fl = (list_to_map fl : gmap string Z) !! d.
Proof.
  induction fl as [|[e a] fl IH]; [done|]. cbn [list_find list_to_map foldr]. destruct (decide _) as [Hd|Hd]; simpl in Hd.
  - subst. by rewrite lookup_insert_eq.
  - rewrite lookup_insert_ne by done. rewrite <-IH. by destruct (list_find _ fl) as [[]|].
Qed.

Lemma raise_coin_spec fl c : (0 < c.2)%Z →
  (raise_coin fl c).1.1 = lifted fl c
  ∧ (raise_coin fl c).1.2 = bool_decide (c.1 ∈ fl.*1)
  ∧ ((raise_coin fl c).2 = false → lifted fl c = c).
Proof.
  intros Hc. destruct c as [d a]. unfold raise_coin, lifted, least. rewrite <-list_find_lookup. simpl in *.
  destruct (list_find _ fl) as [[i m]|] eqn:Hf; simpl.
  - apply list_find_Some in Hf as (Hi & Hd & _).
    assert (d ∈ fl.*1) as Hin. { apply list_elem_of_fmap. exists m. split; [done|]. by eapply list_elem_of_lookup_2. }
    destruct (Z.ltb_spec a m.2); simpl; rewrite bool_decide_eq_true_2 by done; split_and!; try done; try (intros; f_equal; lia); f_equal; lia.
  - rewrite bool_decide_eq_false_2; [split_and!; [f_equal; lia|done|intros _; f_equal; lia]|].
    intros (m & Hd & Hin)%list_elem_of_fmap. eapply list_find_None in Hf. rewrite Forall_forall in Hf. by eapply Hf.
Qed.

Lemma lifted_valid fl cs : coins_valid cs = true → coins_valid (lifted fl <$> cs) = true.
Proof.
  unfold coins_valid. rewrite !andb_true_iff. intros [Hi Hp].
  assert ((lifted fl <$> cs).*1 = cs.*1) as -> by by rewrite <-list_fmap_compose. split; [done|].
  rewrite forallb_forall in Hp |- *. intros c (x & Hx & Hin)%list_elem_of_In%list_elem_of_fmap. subst.
  apply list_elem_of_In in Hin. specialize (Hp _ Hin). unfold lifted. simpl. lia.
Qed.

Section floors.
Context `{DecCoinsLaws}.

(** The floor keeps the denominations, raises each price to the floor of its
    denomination, and fails exactly without a common denomination. *)
Lemma applyGasPriceFloor_spec candidate floor cs fl :
  ParseDecCoins candidate = Ok cs → ParseDecCoins floor = Ok fl →
  (Exists (λ c, c.1 ∈ fl.*1) cs ∧ ∃ p, applyGasPriceFloor candidate floor = Ok p ∧ ParseDecCoins p = Ok (lifted fl <$> cs))
  ∨ (Forall (λ c, c.1 ∉ fl.*1) cs ∧ ∃ e, applyGasPriceFloor candidate floor = Err e).
Proof.
  intros Hc Hf. unfold applyGasPriceFloor. rewrite Hc, Hf. cbn [map_err mbind result_bind]. cbv zeta.
  pose proof (parse_valid _ _ Hc) as Hv. pose proof Hv as Hpos. apply andb_true_iff in Hpos as [_ Hpos].
  assert (Forall (λ c, (0 < c.2)%Z) cs) as Hp. { rewrite forallb_forall in Hpos. apply Forall_forall. intros c Hin%list_elem_of_In. specialize (Hpos _ Hin). lia. }
  assert ((λ r, r.1.1) <$> (raise_coin fl <$> cs) = lifted fl <$> cs) as Heff.
  { rewrite <-list_fmap_compose. apply list_fmap_ext. intros i c Hi. apply raise_coin_spec. by eapply Forall_lookup_1 in Hp. }
  destruct (existsb (λ r, r.1.2) _) eqn:Hm; cbn [negb].
  - left. split.
    + apply existsb_exists in Hm as (r & (c & -> & Hin)%list_elem_of_In%list_elem_of_fmap & Hm).
      apply Exists_exists. exists c. split; [done|]. rewrite Forall_forall in Hp.
      rewrite (proj1 (proj2 (raise_coin_spec fl c (Hp _ Hin)))) in Hm. by apply bool_decide_eq_true in Hm.
    + destruct (existsb (λ r, r.2) _) eqn:Hch; cbn [negb]; eexists; (split; [done|]).
      * rewrite Heff. apply parse_print. by apply lifted_valid.
      * rewrite Hc. f_equal. rewrite <-(list_fmap_id cs) at 1. apply list_fmap_ext. intros i c Hi. symmetry.
        apply raise_coin_spec; [by eapply Forall_lookup_1 in Hp|].
        apply not_true_iff_false. intros Ht. apply not_true_iff_false in Hch. apply Hch. apply existsb_exists. eexists. split; [|exact Ht].
        apply list_elem_of_In, list_elem_of_fmap. exists c. split; [done|]. by eapply list_elem_of_lookup_2.
  - right. split; [|by eexists]. apply Forall_forall. intros c Hin Hc'. apply not_true_iff_false in Hm. apply Hm.
    apply existsb_exists. exists (raise_coin fl c). split; [apply list_elem_of_In, list_elem_of_fmap; by exists c|].
    rewrite Forall_forall in Hp. rewrite (proj1 (proj2 (raise_coin_spec fl c (Hp _ Hin)))). by apply bool_decide_eq_true.
Qed.
End floors.

(** ** The fee of a transaction *)

(** The sources of the fee below the flags, highest first: the pair of fixed fees and
    gas prices each stands for, when it applies. *)
Definition fee_sources (env : environment) (rc : Context_) : list (option (string * string)) :=
  [ fees ← env "AKT_FEES"; (if decide (fees = "") then None else Some (fees, ""));
    prices ← env "AKT_GAS_PRICES"; Some ("", prices);
    _ ← env "AKT_FEES"; Some ("", ctx_GasPrices rc);
    (if decide (ctx_Fees rc = "") then None else Some (ctx_Fees rc, "")) ].
Definition from_sources (env : environment) (rc : Context_) : string * string :=
  default ("", ctx_GasPrices rc) (head (omap id (fee_sources env rc))).

Lemma choose_fee_spec env rc f p :
  sf_value f = "" → sf_value p = "" →
  let '(f', p') := choose_fee env rc f p in
  (sf_value f', sf_value p') = from_sources env rc ∧ sf_changed f' = sf_changed f ∧ sf_changed p' = sf_changed p.
Proof.
  destruct f as [fv fc], p as [pv pc]. simpl. intros -> ->. unfold choose_fee, from_sources, fee_sources, set_value.
  destruct (env "AKT_FEES") as [ef|], (env "AKT_GAS_PRICES") as [ep|]; simpl; repeat case_bool_decide; repeat destruct (decide _); simplify_eq/=; try done.
  all: destruct (ctx_GasPrices rc); done.
Qed.
Lemma from_sources_one env rc : (from_sources env rc).1 = "" ∨ (from_sources env rc).2 = "".
Proof.
  unfold from_sources, fee_sources.
  destruct (env "AKT_FEES") as [ef|], (env "AKT_GAS_PRICES") as [ep|]; simpl; repeat destruct (decide _); simpl; auto.
Qed.

Section policy.
Context `{DecCoinsLaws}.

#[local] Arguments setDefault : simpl never.
Lemma setDefault_Some F env e v g : is_Some (setDefault F env e v (Some g)).
Proof. unfold setDefault. destruct (sf_changed g); [done|]. by destruct (_ && _). Qed.
Lemma applyTransactionDefaults_spec is_number env rc t t' f p :
  is_Some (tf_gas t) → tf_fees t = Some f → tf_gasPrices t = Some p →
  applyTransactionDefaults is_number env rc t = Ok t' →
  let '(f1, p1) := if negb (sf_changed f) && negb (sf_changed p) then choose_fee env rc f p else (f, p) in
  tf_fees t' = Some f1 ∧ (tf_dryRun t = true → sf_value <$> tf_gas t' = Some "0") ∧
  ((sf_value f1 ≠ "" ∨ sf_value p1 = "" ∨ ctx_GasPrices rc = "") ∧ tf_gasPrices t' = Some p1
   ∨ (sf_value f1 = "" ∧ sf_value p1 ≠ "" ∧ ctx_GasPrices rc ≠ "")
     ∧ ∃ p2, applyGasPriceFloor (sf_value p1) (ctx_GasPrices rc) = Ok p2 ∧ tf_gasPrices t' = Some (set_value p2 p1)).
Proof.
  intros [g Hg] Hf Hp. unfold applyTransactionDefaults. rewrite Hg. cbv zeta. destruct t as [g0 adj dry f0 p0]. simpl in *. subst.
  destruct (setDefault_Some (λ _, true) env "AKT_GAS" (ctx_Gas rc) g) as [g1 ->].
  set (adj1 := setDefault is_number _ _ _ adj). destruct (if _ && _ then _ else _) as [f1 p1] eqn:Hch.
  intros Ht. destruct dry; simpl in Ht; rewrite Hch in Ht; repeat (case_bool_decide; simpl in Ht).
  all: try (injection Ht as <-; simpl; split_and!; [done|done|left; auto]).
  all: destruct (applyGasPriceFloor _ _) as [p2|e|] eqn:Ha; simplify_eq/=; split_and!; [done|done|right; split; [done|by exists p2]].
Qed.

End policy.

(** *** A parser that satisfies the laws *)
Module FeeSample.
(** Coins are printed as the bits of their code; two texts are read as prices. *)
Fixpoint bits (p : Pos.t) : string :=
  match p with xH => "" | xO p => String "0" (bits p) | xI p => String "1" (bits p) end.
Fixpoint unbits (s : string) : option Pos.t :=
  match s with
  | "" => Some xH
  | String "0" s => xO <$> unbits s
  | String "1" s => xI <$> unbits s
  | _ => None
  end.
Lemma unbits_bits p : unbits (bits p) = Some p.
Proof. induction p as [p IH|p IH|]; simpl; by rewrite ?IH. Qed.
Definition cheap : dec_coins := [("uakt", 10)%Z; ("uusdc", 7)%Z].
Definition parse (s : string) : result dec_coins :=
  if decide (s = "0.010uakt,0.007uusdc") then Ok cheap
  else if decide (s = "0.025uakt") then Ok [("uakt", 25)%Z]
  else match unbits s ≫= decode with
       | Some cs => if coins_valid cs then Ok cs else failf "invalid decimal coin expression" []
       | None => failf "invalid decimal coin expression" []
       end.
#[local] Instance coins : DecCoins := {| ParseDecCoins := parse; DecCoins_String cs := bits (encode cs) |}.
#[local] Instance coins_laws : DecCoinsLaws.
Proof.
  split.
  - intros s cs. simpl. unfold parse, failf. repeat destruct (decide _); [by intros [= <-]..|].
    destruct (unbits s ≫= decode) as [c|]; [|done]. destruct (coins_valid c) eqn:Hv; [|done]. by intros [= <-].
  - intros cs Hv. simpl. unfold parse.
    assert (∀ c s, c ≠ "0"%char → c ≠ "1"%char → ∀ p, bits p ≠ String "0" (String c s)) as Hb.
    { intros c s H0 H1 [p|p|]; simpl; [done| |done]. intros [= Hp]. destruct p; simpl in Hp; simplify_eq. }
    rewrite decide_False by by apply Hb. rewrite decide_False by by apply Hb.
    rewrite unbits_bits. simpl. by rewrite decode_encode, Hv.
Qed.
Definition rc : Context_ := MkContext "dev" zero_network (keyring_named "default") "" "" "" [] "auto" "" "" "0.025uakt" "" "" "" "".
Definition flags : tx_flags := MkTxFlags (Some (MkFlag "auto" false)) None false (Some (MkFlag "" false)) (Some (MkFlag "" false)).
Definition vars (name : string) : option string := if decide (name = "AKT_GAS_PRICES") then Some "0.010uakt,0.007uusdc" else None.

End FeeSample.

(** ** The state a command starts in *)
Section hook.
Context {W K : Type} `{Host W K} (AccAddress : string → result string) (NormalizeEndpoint : string → string)
  (Key : K → string → W → W * result (option key_record)) `{DecCoins} (is_number : string → bool) (quote : string → string)
  (env : string → string) (lookup : environment) (userHome : result string) (wizard : string → fs → fs * result unit)
  (validate : invocation → option error) (open_log : string → option error).

#[local] Abbreviation MustResolve := (MustResolveAndInit AccAddress NormalizeEndpoint Key env).
#[local] Abbreviation finish := (finish_startup AccAddress NormalizeEndpoint Key is_number quote env lookup validate open_log).
#[local] Abbreviation hook := (PersistentPreRunE AccAddress NormalizeEndpoint Key is_number quote env lookup userHome wizard validate open_log).

(** How far a client may reach into the keyrings. *)
Definition reach (mode : LocalIdentityMode) (c : client (K := K)) : Prop :=
  match mode with
  | LocalIdentityNone => cl_Keyring c = NoKeyring
  | LocalIdentityOnDemand => ∃ d, cl_Keyring c = Lazy d ∧ d_loaded d = None
  | LocalIdentityRequired => (∃ k, cl_Keyring c = Opened k) ∧ (cl_From c ≠ "" → is_Some (cl_FromAddress c))
  end.

Lemma build_keyring rc kr from named w : cl_Keyring (buildClientContext AccAddress NormalizeEndpoint Key rc kr from named w).1.2 = kr.
Proof. unfold buildClientContext. by destruct (if bool_decide (_ = "") then (w, "", None, Ok tt) else _) as [[[? ?] ?] ?]. Qed.
Lemma build_unnamed rc kr from w :
  let r := buildClientContext AccAddress NormalizeEndpoint Key rc kr from false w in r.1.1 = w ∧ r.2 = Ok tt.
Proof. unfold buildClientContext. cbv zeta. set (x := if bool_decide (from = "") then _ else _). case_bool_decide; [done|]. by destruct (AccAddress x). Qed.
Lemma build_named rc kr from w c w' :
  buildClientContext AccAddress NormalizeEndpoint Key rc kr from true w = (w', c, Ok tt) → cl_From c ≠ "" → is_Some (cl_FromAddress c).
Proof.
  unfold buildClientContext. set (x := if bool_decide (from = "") then _ else _). case_bool_decide as Hx; [intros [= <- <-] Hn; done|].
  destruct (AccAddress x); [by intros [= <- <-]|..]; destruct (resolve_named Key kr x w) as [w1 [a|?|]]; simpl; try done; by intros [= <- <-].
Qed.

Lemma MustResolve_spec m km override from mode w km' w' r :
  MustResolve m km override from mode w = (km', w', r) →
  (mode ≠ LocalIdentityRequired → km' = km ∧ w' = w) ∧
  (∀ c, r = Ok (Some c) → reach mode c ∧ ∃ rc, Resolve env m (ActiveContext m override) = Ok rc) ∧
  (r = Ok None → ActiveContext m override = "").
Proof.
  unfold MustResolveAndInit.
  assert (selected_context m override = (if bool_decide (ActiveContext m override = "") then
     (if bool_decide (override = "" ∧ CurrentContext m = "" ∧ length (ListContexts m) = 1) then Some "" else None) else Some (ActiveContext m override))) as ->.
  { unfold selected_context, ActiveContext. destruct (decide (override = "")) as [->|Ho].
    - destruct (decide (CurrentContext m = "")) as [->|Hc].
      + simpl. destruct (ListContexts m) as [|c [|]]; simpl; [done| |done]. by destruct (decide (ctx_Name c = "")) as [->|Hn]; [|rewrite (bool_decide_eq_false_2 _ Hn)].
      + rewrite (bool_decide_eq_true_2 ("" = "") eq_refl), !(bool_decide_eq_false_2 _ Hc). done.
    - rewrite !(bool_decide_eq_false_2 _ Ho). done. }
  case_bool_decide as Ha; [case_bool_decide as Hl|].
  - (* a single context without a name *)
    destruct Hl as (-> & Hcur & _). unfold Resolve. simpl. rewrite Hcur. simpl. intros [= <- <- <-]. done.
  - intros [= <- <- <-]. done.
  - destruct (Resolve env m (ActiveContext m override)) as [rc|e|] eqn:Hr; [|by intros [= <- <- <-]..].
    cbv zeta. destruct mode.
    + pose proof (build_unnamed rc NoKeyring from w) as [Hw Ho]. pose proof (build_keyring rc NoKeyring from false w) as Hk.
      destruct (buildClientContext _ _ _ _ _ _ _ _) as [[w1 c] [[]|e|]]; simpl in *; simplify_eq.
      intros [= <- <- <-]. split_and!; [done| |done]. intros ? [= <-]. split; [done|by exists rc].
    + set (kr := Lazy _). pose proof (build_unnamed rc kr from w) as [Hw Ho]. pose proof (build_keyring rc kr from false w) as Hk.
      destruct (buildClientContext _ _ _ _ _ _ _ _) as [[w1 c] [[]|e|]]; simpl in *; simplify_eq.
      intros [= <- <- <-]. split_and!; [done| |done]. intros ? [= <-]. split; [by eexists|by exists rc].
    + destruct (km_Get _ _ _) as [[km1 w1] [k|e|]]; [|by intros [= <- <- <-]..].
      pose proof (build_keyring rc (Opened k) from true w1) as Hk. pose proof (build_named rc (Opened k) from w1) as Hn.
      destruct (buildClientContext _ _ _ _ _ _ _ _) as [[w2 c] [[]|e|]]; simpl in *; intros [= <- <- <-]; (split_and!; [done| |done]); [|done..].
      intros ? [= <-]. split; [|by exists rc]. split; [by eexists|]. by eapply Hn.
Qed.

(** What the manager, the client and the tree of a command that may run satisfy. *)
Definition admitted (iv : invocation) (line : list Command) (rd : ready (K := K)) : Prop :=
  let help := isHelpInvocation line (iv_argv iv) in
  let selected := ActiveContext (rd_mgr rd) (iv_context iv) in
  let identity := localIdentityMode (iv_bools iv) (CommandPath line) (match line with c :: _ => cmd_Req c | [] => "" end) in
  (requiresContext (CommandPath line) = true → help = false → is_Some (rd_client rd))
  ∧ (∀ c, rd_client rd = Some c → reach identity c ∧ ∃ rc, Resolve env (rd_mgr rd) selected = Ok rc
       ∧ (ParseMode (gatingMode (iv_gating iv) (dfl_CommandGating (cfg_Defaults (m_cfg (rd_mgr rd))))) = ModeOff ∨ help = true
          ∨ Forall (λ c, ¬ blocked (env "AKT_CONSOLE_API_KEY") line (iv_argv iv) (iv_args iv) rc c) line)
       ∧ context_defaults is_number lookup iv (cmd_Name <$> line) rc = Ok (rd_tx rd, rd_auth rd)
       ∧ validate iv = None)
  ∧ (rd_client rd = None → rd_tx rd = iv_tx iv ∧ rd_auth rd = iv_auth iv)
  ∧ rd_log rd = (if bool_decide (selected = "") then None else Some (ActionLogPath (m_root (rd_mgr rd)) selected)).

Lemma finish_spec iv line m km w km' w' r :
  finish iv line m km w = (km', w', r) →
  (localIdentityMode (iv_bools iv) (CommandPath line) (match line with c :: _ => cmd_Req c | [] => "" end) ≠ LocalIdentityRequired → km' = km ∧ w' = w)
  ∧ r ≠ Ok Bootstrapped ∧ ∀ rd, r = Ok (Ready rd) → rd_mgr rd = m ∧ admitted iv line rd.
Proof.
  unfold finish_startup. cbv zeta. destruct (MustResolve _ _ _ _ _ _) as [[km1 w1] r1] eqn:Hm.
  destruct (MustResolve_spec _ _ _ _ _ _ _ _ _ Hm) as (Hkeep & Hsome & Hnone).
  destruct r1 as [resolved|e|]; [|by intros [= <- <- <-]..].
  intros [[Hk Hw]%pair_equal_spec Hr]%pair_equal_spec. subst km' w' r. split; [done|].
  destruct (_ && _ && _) eqn:Hctx; [done|].
  assert (∀ selected log, (if bool_decide (selected = "") then Ok None
      else match open_log (ActionLogPath (m_root m) selected) with Some e => Err (Wrapf "open action log for context %q: %w" [selected] e) | None => Ok (Some (ActionLogPath (m_root m) selected)) end)
      = Ok log → log = (if bool_decide (selected = "") then None else Some (ActionLogPath (m_root m) selected))) as Hlog.
  { intros selected log. case_bool_decide; [by intros [= <-]|]. destruct (open_log _); [done|]. by intros [= <-]. }
  destruct resolved as [c|]; cbn [mbind result_bind].
  - destruct (Hsome c eq_refl) as (Hreach & rc & Hrc). rewrite Hrc. cbn [mbind result_bind].
    destruct (context_defaults _ _ _ _ _) as [[t a]|e|] eqn:Hd; [|done..]. cbn [mbind result_bind].
    destruct (applyBroadcastModeDefault _ _) as [b|e|]; [|done..]. cbn [mbind result_bind].
    destruct (validate iv) eqn:Hv; [done|]. cbn [mbind result_bind].
    set (set_ := invocationCapabilities _ _ _ _ _). set (mode := ParseMode _).
    destruct (if _ && _ then _ else Ok (applyCapabilityGating _ _ _)) as [tree|e|] eqn:Hgate; [|done..]. cbn [mbind result_bind].
    destruct (if bool_decide (ActiveContext m (iv_context iv) = "") then _ else _) as [log|e|] eqn:Hl; [|done..]. apply Hlog in Hl.
    split; [done|]. intros rd [= <-]. split; [done|]. unfold admitted. cbn -[blocked]. split_and!; [done| |done|done].
    intros ? [= <-]. split; [done|]. exists rc. split_and!; [done| |done|done].
    destruct (decide (mode = ModeOff)) as [Hmo|Hmo]; [by left|right]. rewrite (bool_decide_eq_false_2 _ Hmo) in Hgate.
    destruct (isHelpInvocation _ _); [by left|right]. simpl in Hgate.
    pose proof (requirementError_spec quote line set_) as Hr. destruct (requirementError _ _ _); [done|].
    eapply Forall_impl; [exact Hr|]. intros x Hx Hb. apply blocked_iff in Hb. subst set_. congruence.
  - destruct (applyBroadcastModeDefault _ _) as [b|e|]; [|done..]. cbn [mbind result_bind].
    destruct (if bool_decide (ActiveContext m (iv_context iv) = "") then _ else _) as [log|e|] eqn:Hl; [|done..]. apply Hlog in Hl.
    split; [done|]. intros rd [= <-]. split; [done|]. unfold admitted. cbn -[blocked]. split_and!; [|done|done|done].
    intros Hreq Hh. by rewrite Hreq, Hh in Hctx.
Qed.

End hook.

(** *** A query against a configured node *)
Module HookSample.
#[local] Existing Instance FeeSample.coins.
#[local] Instance opens : Host nat string := {|
  GOOS := "linux"; registered := []; probe w _ _ := (w, true); MkdirAll w _ := (w, None); sdk_New w b d := (S w, Ok d) |}.
Definition tree : Command := Cmd "akt" "" "" false [Cmd "query" "chain-query" "Queries" false [Cmd "bank" "" "Balances" false []]].
Definition sandbox : Network := MkNetwork "sandbox" "sandbox-2" (MkEndpoints ["https://rpc"] [] []) "0.025uakt" "" "".
Definition dev : Context_ := MkContext "dev" (network_named "sandbox") (keyring_named "default") "" "" "alice" [] "" "" "" "" "" "" "" "".
Definition cfg : config := with_current "dev" (with_contexts [dev] (with_networks [sandbox] DefaultConfig)).
Definition files : fs := {[ConfigPath "/akt" := NConfig (Parsed (doc_of cfg))]}.
Definition iv : invocation :=
  MkInvocation tree [0; 0] ["query"; "bank"] [] ∅ false 0 "/akt" "" "" "" "" (MkTxFlags None None false None None) None None "" "".
Definition key (k name : string) (w : nat) : nat * result (option key_record) := (w, Ok None).
Definition hook_result : kmgr string * fs * nat * result (started (K := string)) :=
  PersistentPreRunE (λ s, failf "not an address" []) id key (λ _, true) id (λ _, "") (λ _, None) (failf "no home" []) (λ _ f, (f, Ok tt)) (λ _, None) (λ _, None)
    iv files 0.
Definition started_as_alice (r : result (started (K := string))) : bool :=
  match r with
  | Ok (Ready rd) => match rd_client rd with
                     | Some c => bool_decide (cl_From c = "alice") && bool_decide (rd_log rd = Some (ActionLogPath "/akt" "dev"))
                     | None => false
                     end
  | _ => false
  end.

Lemma started_as_alice_spec r : started_as_alice r = true →
  ∃ rd c, r = Ok (Ready rd) ∧ rd_client rd = Some c ∧ cl_From c = "alice" ∧ rd_log rd = Some (ActionLogPath "/akt" "dev").
Proof.
  destruct r as [[|rd]|e|]; try done. simpl. destruct (rd_client rd) as [c|] eqn:Hc; [|done].
  intros [H1%bool_decide_eq_true H2%bool_decide_eq_true]%andb_true_iff. by exists rd, c.
Qed.
Lemma lazy_reach (c : client (K := string)) mode : mode = LocalIdentityOnDemand → reach mode c → ∃ d, cl_Keyring c = Lazy d ∧ d_loaded d = None.
Proof. by intros ->. Qed.

End HookSample.
