(* ===== verification/Faucet.v ===== *)
(** * The faucet command (internal/cli/faucet.go)

    [akt faucet] shows the faucet of the active network; with [--send] it asks it for
    funds. The URL parser of the standard library, the HTTP exchange and the account
    the client context resolves are parameters; the form encoding of the address, the
    bound on the answer and the reading of its transaction hash are modelled. What the
    command does to the outside is the list of its requests and the list of the entries
    it hands to the action log. *)

From Stdlib Require Import Ascii.
From stdpp Require Import sorting base gmap strings pretty option numbers list.
From S2P Require Import Prelude GoStd GoJson Context StoreOps Workflow ActionLog ConfigDoc GoText KeyringMgr Manager ContextCommands.

(** ** States *)
Inductive faucetState : Type := faucetStateConsoleManaged | faucetStateNoNetwork | faucetStateMainnetNoFaucet | faucetStateNoFaucetConfigured | faucetStateReady.
#[export] Instance faucetState_eq_dec : EqDecision faucetState. Proof. solve_decision. Defined.

Definition classifyFaucetState (rc : Context_) (isMainnet : bool) : faucetState :=
  if bool_decide (ctx_AuthMethod rc = AuthMethodConsoleAPI) then faucetStateConsoleManaged
  else if bool_decide (net_Name (ctx_Network rc) = "") then faucetStateNoNetwork
  else if bool_decide (net_Faucet (ctx_Network rc) = "") && isMainnet then faucetStateMainnetNoFaucet
  else if bool_decide (net_Faucet (ctx_Network rc) = "") then faucetStateNoFaucetConfigured
  else faucetStateReady.

Definition faucetStateError (rc : Context_) (state : faucetState) : option error :=
  let name := net_Name (ctx_Network rc) in let id := net_ChainID (ctx_Network rc) in
  match state with
  | faucetStateConsoleManaged => Some (Errorf "the active context %q uses a Console-managed wallet, which has no chain faucet; check the balance with 'akt console wallet balance' or add funds at https://console.akash.network" [ctx_Name rc])
  | faucetStateNoNetwork => Some (Errorf "the active context %q has no network attached, so there is no faucet; attach a test network and try again" [ctx_Name rc])
  | faucetStateMainnetNoFaucet => Some (Errorf "%s (%s) is a live network and has no faucet; acquire real AKT by transfer, or switch to a test network with 'akt context use sandbox'" [name; id])
  | faucetStateNoFaucetConfigured => Some (Errorf "network %q (%s) has no faucet configured; set one with 'akt context network edit %s --faucet <url>'" [name; id; name])
  | faucetStateReady => None
  end.

Definition isMainnetNetwork (net : Network) (mainnetChainID : string) : bool :=
  strings_Contains (ToLower (net_Name net)) "mainnet" || bool_decide (net_ChainID net = "akashnet-2")
  || (negb (bool_decide (mainnetChainID = "")) && bool_decide (net_ChainID net = mainnetChainID)).

Record faucetOutcome : Type := MkOutcome {
  fo_Network : string; fo_ChainID : string; fo_Address : string; fo_FaucetURL : string; fo_TransactionHash : string; fo_Status : string }.

(** ** The request *)

(** [url.QueryEscape]. *)
Definition unreserved (c : ascii) : bool :=
  let n := N_of_ascii c in
  ((65 <=? n) && (n <=? 90) || (97 <=? n) && (n <=? 122) || (48 <=? n) && (n <=? 57) || (n =? 45) || (n =? 95) || (n =? 46) || (n =? 126))%N.
Definition upper_hex (n : N) : ascii := ascii_of_N (if (n <? 10)%N then 48 + n else 55 + n)%N.
Definition escape_byte (c : ascii) : list ascii :=
  if unreserved c then [c]
  else if bool_decide (c = " "%char) then ["+"%char]
  else let n := N_of_ascii c in ["%"%char; upper_hex (n / 16); upper_hex (n mod 16)].
Definition QueryEscape (s : string) : string := of_bytes (mjoin (escape_byte <$> bytes_of s)).

(** A URL as [url.Parse] splits it; [u_base] is the scheme, the user and the host. *)
Record url : Type := MkUrl { u_base : string; u_Path : string; u_RawQuery : string; u_Fragment : string }.
Class Urls : Type := { url_Parse : string → result url; url_String : url → string }.

Record faucet_request : Type := MkFaucetRequest { fq_method : string; fq_url : string; fq_contentType : string; fq_body : string }.
(** The effects of a run, and how it ended. *)
Record faucet_run : Type := MkFaucetRun { fr_requests : list faucet_request; fr_entries : list Entry; fr_result : result faucetOutcome }.

Section faucet.
Context `{Urls, Lexer}.
(** [new_request] is the failure of building a request for a URL; [http_do] answers
    with a status and a body, or fails. *)
Context (new_request : string → option error) (http_do : faucet_request → result (N * string)).

Definition hash_fields : fields string := [("transactionHash", dec_string)].
(** A body that is not one JSON document leaves the hash empty. *)
Definition transactionHash (body : string) : string :=
  match json_Parse body with
  | Some j => default "" (dec_struct false hash_fields j "")
  | None => ""
  end.
(** [io.LimitReader]. *)
Definition read_limited (n : N) (body : string) : string := of_bytes (take (N.to_nat n) (bytes_of body)).

Definition submitFaucetRequest (faucetURL address : string) : list faucet_request * result string :=
  match url_Parse faucetURL with
  | Panic => ([], Panic)
  | Err e => ([], Err (Wrapf "invalid faucet URL %q: %w" [faucetURL] e))
  | Ok u =>
      let endpoint := url_String (MkUrl (u_base u) "/faucet" "" "") in
      match new_request endpoint with
      | Some e => ([], Err (Wrapf "request to faucet %q failed: %w" [faucetURL] e))
      | None =>
          let req := MkFaucetRequest "POST" endpoint "application/x-www-form-urlencoded" ("address=" +:+ QueryEscape address) in
          ([req], match http_do req with
                  | Panic => Panic
                  | Err e => Err (Wrapf "request to faucet %q failed: %w" [faucetURL] e)
                  | Ok (status, body) =>
                      let respBody := read_limited 4096 body in
                      if (status <? 200)%N || (300 <=? status)%N
                      then failf "faucet %q returned status %d: %s" [faucetURL; FormatUint status; TrimSpace respBody]
                      else Ok (transactionHash respBody)
                  end)
      end
  end.

(** [sendErr] is the text of the failure. *)
Definition recordFaucetAction (account txHash : string) (sendErr : option string) : list Entry :=
  [MkEntry 0 TypeFaucet "request" txHash 0 0 0 0 0 0 "" account None 0 "" 0 ""
     (default "" sendErr) (match sendErr with None => "success" | Some _ => "failed" end)].

(** [account] is what the client context resolves for the default account, the empty
    string when it fails; [text] is the text of an error. *)
Definition faucet_RunE (env : string → string) (mgr : option Manager) (contextFlag : option string) (mainnetChainID : string)
    (account : string) (text : error → string) (send : bool) : faucet_run :=
  let stop r := MkFaucetRun [] [] r in
  match mgr with
  | None => stop (failf "no akt configuration found; run akt to bootstrap or akt context create to set one up" [])
  | Some m =>
      match Resolve env m (SelectedContextName contextFlag env m) with
      | Err e => stop (Err e)
      | Panic => stop Panic
      | Ok rc =>
          let isMainnet := isMainnetNetwork (ctx_Network rc) mainnetChainID in
          match faucetStateError rc (classifyFaucetState rc isMainnet) with
          | Some e => stop (Err e)
          | None =>
              let address := TrimSpace account in
              let net := ctx_Network rc in
              let outcome hash status := MkOutcome (net_Name net) (net_ChainID net) address (net_Faucet net) hash status in
              if negb send then stop (Ok (outcome "" ""))
              else if isMainnet then stop (failf "refusing to auto-request funds on mainnet %q; --send is for test networks only" [net_Name net])
              else if bool_decide (address = "") then
                stop (failf "no default account resolved for context %q; set one with 'akt context edit %s --default-account <name>' or add a key, then retry" [ctx_Name rc; ctx_Name rc])
              else
                let '(sent, r) := submitFaucetRequest (net_Faucet net) address in
                match r with
                | Ok txHash => MkFaucetRun sent (recordFaucetAction address txHash None) (Ok (outcome txHash "requested"))
                | Err e => MkFaucetRun sent (recordFaucetAction address "" (Some (text e))) (Err e)
                | Panic => MkFaucetRun sent [] Panic
                end
          end
      end
  end.

(** ** Properties *)

(** An escaped string holds no byte that the form would read as a separator. *)
Lemma escape_clean s c : c ∈ mjoin (escape_byte <$> bytes_of s) → c ≠ "&"%char ∧ c ≠ "="%char ∧ c ≠ " "%char.
Proof.
  intros (l & Hc & Hl)%list_elem_of_join. apply list_elem_of_fmap in Hl as (b & -> & _).
  assert (forallb (λ b, forallb (λ c, negb (bool_decide (c = "&"%char)) && negb (bool_decide (c = "="%char)) && negb (bool_decide (c = " "%char))) (escape_byte (ascii_of_N b)))
    (N.of_nat <$> seq 0 256) = true) as Hall by by vm_compute.
  rewrite forallb_forall in Hall. specialize (Hall (N_of_ascii b)). rewrite ascii_N_embedding in Hall.
  rewrite forallb_forall in Hall. specialize (Hall ltac:(
    apply list_elem_of_In, list_elem_of_fmap; exists (N.to_nat (N_of_ascii b)); split; [lia | apply elem_of_seq; pose proof (N_ascii_bounded b); lia]) c
    (proj1 (list_elem_of_In _ _) Hc)).
  rewrite !andb_true_iff, !negb_true_iff, !bool_decide_eq_false in Hall. tauto.
Qed.

Lemma submit_cases faucetURL address sent r :
  submitFaucetRequest faucetURL address = (sent, r) →
  (sent = [] ∧ (∀ h, r ≠ Ok h)) ∨
  ∃ u req, url_Parse faucetURL = Ok u ∧ sent = [req] ∧ fq_method req = "POST"
    ∧ fq_url req = url_String (MkUrl (u_base u) "/faucet" "" "") ∧ fq_body req = "address=" +:+ QueryEscape address
    ∧ ∀ h, r = Ok h → ∃ status body, http_do req = Ok (status, body) ∧ (200 ≤ status < 300)%N ∧ h = transactionHash (read_limited 4096 body).
Proof.
  unfold submitFaucetRequest, failf. intros Hs. destruct (url_Parse faucetURL) as [u|e|] eqn:Hu; [|by left; simplify_eq..].
  destruct (new_request _); [by left; simplify_eq|].
  right. injection Hs as <- <-. eexists u, _. do 5 (split; [done|]). intros h Hr.
  cbv beta iota zeta in Hr. destruct (http_do _) as [[status body]|e|] eqn:Hd; [|done..].
  exists status, body. split; [done|].
  destruct (N.ltb_spec status 200), (N.leb_spec 300 status); cbn [orb] in Hr; [done|done|done|]. injection Hr as <-. split; [lia|done].
Qed.

End faucet.

(** *** A run on a test network *)
Module FaucetSample.
Definition sandbox : Network := MkNetwork "sandbox" "sandbox-2" (MkEndpoints ["https://rpc"] [] []) "" "" "https://faucet/?x=1".
Definition dev : Context_ := UnmarshalYAML (MkContextYAML "dev" "sandbox" "default" "keyring" "" "alice" [] "" "" "").
Definition mgr : Manager := MkManager "/akt" (with_current "dev" (with_contexts [dev] (with_networks [sandbox] DefaultConfig))) ∅.
#[local] Instance urls : Urls := {| url_Parse s := Ok (MkUrl "https://faucet" "/" "x=1" ""); url_String u := u_base u +:+ u_Path u |}.
#[local] Instance lexer : Lexer := {| json_Parse s := if bool_decide (s = "ok") then Some (JObj [("transactionHash", JStr "AB12")]) else None |}.
Definition answer (req : faucet_request) : result (N * string) := if bool_decide (fq_url req = "https://faucet/faucet") then Ok (200%N, "ok") else failf "unreachable" [].
Definition sample_run : faucet_run := faucet_RunE (λ _, None) answer (λ _, "") (Some mgr) None "akashnet-2" " akash1 " (λ _, "failed") true.

End FaucetSample.
