(* ===== verification/MonitorUI.v ===== *)
(** * The model of the monitor (internal/monitor/ui/model.go)

    The Bubble Tea model: its state, the messages it receives, the commands it returns,
    and [Update]. The widgets of the Bubbles library, the text of the table cells, the
    order in which Go ranges over a map, sorting, and fractions are parameters; so is
    the provider cache, through the interface the model uses, which the bbolt cache
    implements. [done] tells whether the context of the runtime has ended, [clock]
    gives the successive readings of the time during one update. A pointer to a state
    or to a provider that may be nil is an option. *)

From Stdlib Require Import Ascii.
From stdpp Require Import sorting base gmap strings pretty option numbers list.
From S2P Require Import Prelude GoStd GoJson Bolt Context StoreOps Workflow ConfigDoc ActionLog GoText MonitorCache Consensus.

(** ** Versions of providers (monitor/rpc/client.go) *)
Definition compareInts (a b : Z) : Z := if (a <? b)%Z then -1 else if (b <? a)%Z then 1 else 0.
Definition strings_Compare (a b : string) : Z := match String.compare a b with Lt => -1 | Eq => 0 | Gt => 1 end.
(** [strings.Cut] at a byte; the text after it is empty when there is none. *)
Definition Cut (c : ascii) (s : string) : string * string :=
  let '(before, rest) := span (λ b, negb (bool_decide (b = c))) (bytes_of s) in (of_bytes before, of_bytes (tail rest)).

Definition core_number (part : string) : option Z :=
  match ParseInt64 part with Ok n => if bool_decide (part = "") || (n <? 0)%Z then None else Some n | _ => None end.
Definition parseProviderVersion (value : string) : option (list Z * string) :=
  let value := TrimPrefix "V" (TrimPrefix "v" (TrimSpace value)) in
  let value := (Cut "+" value).1 in
  let '(core, prerelease) := Cut "-" value in
  (λ numbers, (numbers, prerelease)) <$> mapM core_number (split_on "." (bytes_of core)).

(** The digits at the end of a text, and what is before them. *)
Definition trailingVersionNumber (value : string) : option (string * Z) :=
  let '(digits, rest) := span is_digit (reverse (bytes_of value)) in
  match digits with
  | [] => None
  | _ => match ParseInt64 (of_bytes (reverse digits)) with Ok n => Some (of_bytes (reverse rest), n) | _ => None end
  end.
Definition compareProviderVersionIdentifier (a b : string) : Z :=
  match ParseInt64 a, ParseInt64 b with
  | Ok numA, Ok numB => compareInts numA numB
  | Ok _, _ => -1
  | _, Ok _ => 1
  | _, _ =>
      match trailingVersionNumber a, trailingVersionNumber b with
      | Some (prefixA, suffixA), Some (prefixB, suffixB) =>
          if bool_decide (prefixA = prefixB) then compareInts suffixA suffixB else strings_Compare a b
      | _, _ => strings_Compare a b
      end
  end.
Fixpoint compare_parts (a b : list string) : Z :=
  match a, b with
  | x :: a, y :: b => let cmp := compareProviderVersionIdentifier x y in if (cmp =? 0)%Z then compare_parts a b else cmp
  | _, _ => compareInts (Z.of_nat (length a)) (Z.of_nat (length b))
  end.
Definition compareProviderPrerelease (a b : string) : Z :=
  if bool_decide (a = "" ∧ b = "") then 0
  else if bool_decide (a = "") then 1
  else if bool_decide (b = "") then -1
  else compare_parts (split_on "." (bytes_of a)) (split_on "." (bytes_of b)).
(** A number that is missing counts as zero. *)
Fixpoint compare_core (n : nat) (a b : list Z) : Z :=
  match n with
  | O => 0
  | S n => let numA := default 0%Z (head a) in let numB := default 0%Z (head b) in
           if (numA =? numB)%Z then compare_core n (tail a) (tail b) else compareInts numA numB
  end.
Definition CompareVersions (a b : string) : Z :=
  match parseProviderVersion a, parseProviderVersion b with
  | Some (coreA, preA), Some (coreB, preB) =>
      let cmp := compare_core (max (length coreA) (length coreB)) coreA coreB in
      if (cmp =? 0)%Z then compareProviderPrerelease preA preB else cmp
  | _, _ => strings_Compare a b
  end.

(** ** Providers (monitor/rpc) *)
Record Provider : Type := MkProvider {
  pr_Owner : string; pr_HostURI : string; pr_Name : string; pr_AkashVersion : string; pr_IsOnline : bool; pr_Country : string;
  pr_CPU : N * N; pr_Mem : N * N; pr_GPU : N * N; pr_GPUModels : option (list string);
}.
(** [ProviderNodeWithGPU]; resources as available and allocatable, the GPUs by name. *)
Record Node : Type := MkNode { nd_Name : string; nd_CPU : N * N; nd_Mem : N * N; nd_GPU : N * N; nd_GPUs : list string }.

Definition isLocalhost (hostURI : string) : bool := strings_Contains hostURI "localhost" || strings_Contains hostURI "127.0.0.1".
Definition filterNonLocalProviders (l : list Provider) : list Provider := List.filter (λ p, negb (isLocalhost (pr_HostURI p))) l.

(** Sums of 64-bit words. *)
Definition add_u64 (a b : N) : N := ((a + b) mod 2 ^ 64)%N.
Definition add_pair (a b : N * N) : N * N := (add_u64 a.1 b.1, add_u64 a.2 b.2).
Definition add_node (acc : (N * N) * (N * N) * (N * N)) (n : Node) : (N * N) * (N * N) * (N * N) :=
  let '(cpu, mem, gpu) := acc in (add_pair cpu (nd_CPU n), add_pair mem (nd_Mem n), add_pair gpu (nd_GPU n)).
Definition aggregateResourcesREST (nodes : list Node) : (N * N) * (N * N) * (N * N) := foldl add_node ((0, 0), (0, 0), (0, 0))%N nodes.
Definition formatGPUModelShort (name : string) : string := name.
Definition add_model (models : list string) (gpu : string) : list string :=
  let model := formatGPUModelShort gpu in
  if negb (bool_decide (model = "")) && negb (bool_decide (model ∈ models)) then models ++ [model] else models.
Definition aggregateResourcesGRPC (nodes : list Node) : (N * N) * (N * N) * (N * N) * list string :=
  (aggregateResourcesREST nodes, foldl (λ models n, foldl add_model models (nd_GPUs n)) [] nodes).

(** ** Interfaces *)

(** [cache.ProviderStore]: the part the model calls. The times a call reads are its
    arguments. *)
Class ProviderStore (C : Type) : Type := {
  ps_HasProviders : C → bool;
  ps_GetProvider : C → string → option CachedProvider;
  ps_GetAllProviders : C → gmap string CachedProvider;
  ps_MarkProviderOnline : C → string → report → Z → Z → C;
  ps_MarkProviderOffline : C → string → Z → C;
  ps_SyncWithChain : C → list (Z * OnChainProvider) → Z → C * list string;
  ps_GetProvidersDueForCheck : C → Z → list string;
  ps_GetProvidersByPriority : C → list string;
  ps_Save : C → option error;
}.
(** The bbolt cache; saving does nothing since every change is a transaction. *)
#[export] Instance bolt_store {Tx} `{BoltOps Tx, TimeText, SortSlice} (time_binary : Z → string) : ProviderStore Tx := {|
  ps_HasProviders := HasProviders; ps_GetProvider := GetProvider; ps_GetAllProviders := GetAllProviders;
  ps_MarkProviderOnline := MarkProviderOnline; ps_MarkProviderOffline := MarkProviderOffline;
  ps_SyncWithChain := SyncWithChain time_binary; ps_GetProvidersDueForCheck := GetProvidersDueForCheck;
  ps_GetProvidersByPriority := GetProvidersByPriority; ps_Save _ := None |}.

(** A table and a viewport of the Bubbles library; a column is its width. *)
Class Widgets (T V : Type) : Type := {
  table_New : list Z → T;
  Columns : T → list Z; SetColumns : list Z → T → T; SetRows : list (list string) → T → T;
  Width : T → Z; SetWidth : Z → T → T; SetHeight : Z → T → T; Cursor : T → Z; SetCursor : Z → T → T;
  table_Update : string → T → T; UpdateViewport : T → T;
  view_New : Z → Z → V; SetContent : string → V → V; YOffset : V → Z; SetYOffset : Z → V → V; GotoTop : V → V; GotoBottom : V → V;
  ScrollLeft : Z → V → V; ScrollRight : Z → V → V; view_SetHeight : Z → V → V; view_SetWidth : Z → V → V;
}.

(** Fractions of the votes. *)
Class Fraction (F : Type) : Type := { F_zero : F; F_lt : F → F → bool }.

(** The texts of the cells and of the documents, and the width of a text on the
    terminal. *)
Class Texts (F Doc : Type) : Type := {
  lipgloss_Width : string → Z;
  formatResourceRatio : N → N → string; formatMemoryRatio : N → N → string; formatProviderGPU : Provider → string; formatNodeGPU : Node → string;
  getValidatorDisplayName : ValidatorStatus → gmap string string → string; formatPower : Z → string; share : Z → Z → string;
  renderSigningBar : list bool → Z → list Z → Z → Z → string; formatDuration : Z → string; formatNumber : Z → string; percent : F → string;
  RenderModuleParamsFromJSON : string → string → string; RenderProposalList : Doc → string; error_text : error → string;
}.

(** What Go leaves open: the order of a map, and a sort by a comparison. *)
Class Unordered : Type := { range_order : ∀ {A}, list A → list A; sort_SliceStable : ∀ {A}, (A → A → bool) → list A → list A }.

Definition GetProviderVersions `{SortSlice, Unordered} (l : list Provider) : list string :=
  let versions : gset string := list_to_set (List.filter (λ v, negb (bool_decide (v = ""))) (pr_AkashVersion <$> l)) in
  sort_Slice (λ a b, (0 <? CompareVersions a b)%Z) (range_order (elements versions)).

(** ** State *)
Inductive HubTab : Type := HubNetwork | HubProvider | HubOracleBME.
Inductive Tab : Type := TabOverview | TabValidators | TabGovernance | TabParameters.
#[export] Instance HubTab_eq_dec : EqDecision HubTab. Proof. solve_decision. Defined.
#[export] Instance Tab_eq_dec : EqDecision Tab. Proof. solve_decision. Defined.
Definition next_hub (h : HubTab) : HubTab := match h with HubNetwork => HubProvider | HubProvider => HubOracleBME | HubOracleBME => HubNetwork end.
Definition previous_hub (h : HubTab) : HubTab := match h with HubNetwork => HubOracleBME | HubProvider => HubNetwork | HubOracleBME => HubProvider end.

Definition millisecond : Z := 1000000.
Definition MaxConcurrentChecks : Z := 10.
Definition MaxBlockHistory : nat := 50.
Definition consensusReconnectBaseDelay : Z := (250 * millisecond)%Z.
Definition consensusReconnectMaxDelay : Z := (8000 * millisecond)%Z.
Definition maxOracleEvents : nat := 100.
Definition ModuleOrder : list string := ["gov"; "mint"; "staking"; "slashing"; "distribution"; "auth"; "bank"; "deployment"; "market"; "transfer"; "ibc"; "crisis"].

Record BlockValidatorVote : Type := MkVote { bv_Index : Z; bv_Address : string; bv_PubKey : string; bv_VotingPower : Z; bv_Prevoted : bool; bv_Precommited : bool }.
Definition vote_of (v : ValidatorStatus) : BlockValidatorVote :=
  MkVote (vs_Index v) (vs_Address v) (vs_PubKey v) (vs_VotingPower v) (vs_Prevoted v) (vs_Precommited v).
Record BlockRecord (F : Type) : Type := MkBlock {
  br_Height : Z; br_PrevotePercent : F; br_PrecommitPercent : F; br_Round : Z; br_Step : Z; br_Elapsed : Z; br_Timestamp : Z; br_Validators : list BlockValidatorVote }.
Arguments MkBlock {F}. Arguments br_Height {F}. Arguments br_PrevotePercent {F}. Arguments br_PrecommitPercent {F}. Arguments br_Round {F}. Arguments br_Step {F}.
Arguments br_Elapsed {F}. Arguments br_Timestamp {F}. Arguments br_Validators {F}.

Record OraclePriceEntry : Type := MkPrice { op_Denom : string; op_Price : string; op_Source : string; op_Timestamp : Z }.
Record OracleEvent : Type := MkOracleEvent { oe_Type : string; oe_Denom : string; oe_Detail : string; oe_Timestamp : Z }.
Record ModuleParams : Type := MkModuleParams { mp_RawJSON : string; mp_Error : option error }.

Section model.
(** [Doc] is the type of the documents that are only kept and shown: aggregated prices,
    proposals, the state of the BME module. *)
Context {C T V F Doc : Type} `{ProviderStore C, Widgets T V, SortSlice, Unordered, Fraction F, Texts F Doc}.

(** *** Consensus *)
Record Chain : Type := MkChain {
  ch_state : option (State (F := F) * option error);
  ch_monikers : gmap string string;
  ch_blockHistory : list (BlockRecord F);
  ch_snapshotCh : bool;
  ch_wsConnected : bool;
  ch_retryAttempt : nat;
  ch_valSignHistory : gmap Z (list bool);
  ch_proposerHistory : list Z;
  ch_pendingState : option (State (F := F));
  ch_peakHeight : Z;
  ch_peakPrevotePercent : F;
  ch_peakPrecommitPercent : F;
  ch_peakRound : Z;
  ch_peakStep : Z;
  ch_blockStartTime : Z;
  ch_lastProposerHeight : Z;
  ch_firstHeightSeen : bool;
  ch_knownProposerIndex : Z;
  ch_knownProposerAddr : string;
}.
Definition set_ch_state (v : option (State (F := F) * option error)) (r : Chain) : Chain := MkChain v (ch_monikers r) (ch_blockHistory r) (ch_snapshotCh r) (ch_wsConnected r) (ch_retryAttempt r) (ch_valSignHistory r) (ch_proposerHistory r) (ch_pendingState r) (ch_peakHeight r) (ch_peakPrevotePercent r) (ch_peakPrecommitPercent r) (ch_peakRound r) (ch_peakStep r) (ch_blockStartTime r) (ch_lastProposerHeight r) (ch_firstHeightSeen r) (ch_knownProposerIndex r) (ch_knownProposerAddr r).
Definition set_ch_monikers (v : gmap string string) (r : Chain) : Chain := MkChain (ch_state r) v (ch_blockHistory r) (ch_snapshotCh r) (ch_wsConnected r) (ch_retryAttempt r) (ch_valSignHistory r) (ch_proposerHistory r) (ch_pendingState r) (ch_peakHeight r) (ch_peakPrevotePercent r) (ch_peakPrecommitPercent r) (ch_peakRound r) (ch_peakStep r) (ch_blockStartTime r) (ch_lastProposerHeight r) (ch_firstHeightSeen r) (ch_knownProposerIndex r) (ch_knownProposerAddr r).
Definition set_ch_blockHistory (v : list (BlockRecord F)) (r : Chain) : Chain := MkChain (ch_state r) (ch_monikers r) v (ch_snapshotCh r) (ch_wsConnected r) (ch_retryAttempt r) (ch_valSignHistory r) (ch_proposerHistory r) (ch_pendingState r) (ch_peakHeight r) (ch_peakPrevotePercent r) (ch_peakPrecommitPercent r) (ch_peakRound r) (ch_peakStep r) (ch_blockStartTime r) (ch_lastProposerHeight r) (ch_firstHeightSeen r) (ch_knownProposerIndex r) (ch_knownProposerAddr r).
Definition set_ch_snapshotCh (v : bool) (r : Chain) : Chain := MkChain (ch_state r) (ch_monikers r) (ch_blockHistory r) v (ch_wsConnected r) (ch_retryAttempt r) (ch_valSignHistory r) (ch_proposerHistory r) (ch_pendingState r) (ch_peakHeight r) (ch_peakPrevotePercent r) (ch_peakPrecommitPercent r) (ch_peakRound r) (ch_peakStep r) (ch_blockStartTime r) (ch_lastProposerHeight r) (ch_firstHeightSeen r) (ch_knownProposerIndex r) (ch_knownProposerAddr r).
Definition set_ch_wsConnected (v : bool) (r : Chain) : Chain := MkChain (ch_state r) (ch_monikers r) (ch_blockHistory r) (ch_snapshotCh r) v (ch_retryAttempt r) (ch_valSignHistory r) (ch_proposerHistory r) (ch_pendingState r) (ch_peakHeight r) (ch_peakPrevotePercent r) (ch_peakPrecommitPercent r) (ch_peakRound r) (ch_peakStep r) (ch_blockStartTime r) (ch_lastProposerHeight r) (ch_firstHeightSeen r) (ch_knownProposerIndex r) (ch_knownProposerAddr r).
Definition set_ch_retryAttempt (v : nat) (r : Chain) : Chain := MkChain (ch_state r) (ch_monikers r) (ch_blockHistory r) (ch_snapshotCh r) (ch_wsConnected r) v (ch_valSignHistory r) (ch_proposerHistory r) (ch_pendingState r) (ch_peakHeight r) (ch_peakPrevotePercent r) (ch_peakPrecommitPercent r) (ch_peakRound r) (ch_peakStep r) (ch_blockStartTime r) (ch_lastProposerHeight r) (ch_firstHeightSeen r) (ch_knownProposerIndex r) (ch_knownProposerAddr r).
Definition set_ch_valSignHistory (v : gmap Z (list bool)) (r : Chain) : Chain := MkChain (ch_state r) (ch_monikers r) (ch_blockHistory r) (ch_snapshotCh r) (ch_wsConnected r) (ch_retryAttempt r) v (ch_proposerHistory r) (ch_pendingState r) (ch_peakHeight r) (ch_peakPrevotePercent r) (ch_peakPrecommitPercent r) (ch_peakRound r) (ch_peakStep r) (ch_blockStartTime r) (ch_lastProposerHeight r) (ch_firstHeightSeen r) (ch_knownProposerIndex r) (ch_knownProposerAddr r).
Definition set_ch_proposerHistory (v : list Z) (r : Chain) : Chain := MkChain (ch_state r) (ch_monikers r) (ch_blockHistory r) (ch_snapshotCh r) (ch_wsConnected r) (ch_retryAttempt r) (ch_valSignHistory r) v (ch_pendingState r) (ch_peakHeight r) (ch_peakPrevotePercent r) (ch_peakPrecommitPercent r) (ch_peakRound r) (ch_peakStep r) (ch_blockStartTime r) (ch_lastProposerHeight r) (ch_firstHeightSeen r) (ch_knownProposerIndex r) (ch_knownProposerAddr r).
Definition set_ch_pendingState (v : option (State (F := F))) (r : Chain) : Chain := MkChain (ch_state r) (ch_monikers r) (ch_blockHistory r) (ch_snapshotCh r) (ch_wsConnected r) (ch_retryAttempt r) (ch_valSignHistory r) (ch_proposerHistory r) v (ch_peakHeight r) (ch_peakPrevotePercent r) (ch_peakPrecommitPercent r) (ch_peakRound r) (ch_peakStep r) (ch_blockStartTime r) (ch_lastProposerHeight r) (ch_firstHeightSeen r) (ch_knownProposerIndex r) (ch_knownProposerAddr r).
Definition set_ch_peakHeight (v : Z) (r : Chain) : Chain := MkChain (ch_state r) (ch_monikers r) (ch_blockHistory r) (ch_snapshotCh r) (ch_wsConnected r) (ch_retryAttempt r) (ch_valSignHistory r) (ch_proposerHistory r) (ch_pendingState r) v (ch_peakPrevotePercent r) (ch_peakPrecommitPercent r) (ch_peakRound r) (ch_peakStep r) (ch_blockStartTime r) (ch_lastProposerHeight r) (ch_firstHeightSeen r) (ch_knownProposerIndex r) (ch_knownProposerAddr r).
Definition set_ch_peakPrevotePercent (v : F) (r : Chain) : Chain := MkChain (ch_state r) (ch_monikers r) (ch_blockHistory r) (ch_snapshotCh r) (ch_wsConnected r) (ch_retryAttempt r) (ch_valSignHistory r) (ch_proposerHistory r) (ch_pendingState r) (ch_peakHeight r) v (ch_peakPrecommitPercent r) (ch_peakRound r) (ch_peakStep r) (ch_blockStartTime r) (ch_lastProposerHeight r) (ch_firstHeightSeen r) (ch_knownProposerIndex r) (ch_knownProposerAddr r).
Definition set_ch_peakPrecommitPercent (v : F) (r : Chain) : Chain := MkChain (ch_state r) (ch_monikers r) (ch_blockHistory r) (ch_snapshotCh r) (ch_wsConnected r) (ch_retryAttempt r) (ch_valSignHistory r) (ch_proposerHistory r) (ch_pendingState r) (ch_peakHeight r) (ch_peakPrevotePercent r) v (ch_peakRound r) (ch_peakStep r) (ch_blockStartTime r) (ch_lastProposerHeight r) (ch_firstHeightSeen r) (ch_knownProposerIndex r) (ch_knownProposerAddr r).
Definition set_ch_peakRound (v : Z) (r : Chain) : Chain := MkChain (ch_state r) (ch_monikers r) (ch_blockHistory r) (ch_snapshotCh r) (ch_wsConnected r) (ch_retryAttempt r) (ch_valSignHistory r) (ch_proposerHistory r) (ch_pendingState r) (ch_peakHeight r) (ch_peakPrevotePercent r) (ch_peakPrecommitPercent r) v (ch_peakStep r) (ch_blockStartTime r) (ch_lastProposerHeight r) (ch_firstHeightSeen r) (ch_knownProposerIndex r) (ch_knownProposerAddr r).
Definition set_ch_peakStep (v : Z) (r : Chain) : Chain := MkChain (ch_state r) (ch_monikers r) (ch_blockHistory r) (ch_snapshotCh r) (ch_wsConnected r) (ch_retryAttempt r) (ch_valSignHistory r) (ch_proposerHistory r) (ch_pendingState r) (ch_peakHeight r) (ch_peakPrevotePercent r) (ch_peakPrecommitPercent r) (ch_peakRound r) v (ch_blockStartTime r) (ch_lastProposerHeight r) (ch_firstHeightSeen r) (ch_knownProposerIndex r) (ch_knownProposerAddr r).
Definition set_ch_blockStartTime (v : Z) (r : Chain) : Chain := MkChain (ch_state r) (ch_monikers r) (ch_blockHistory r) (ch_snapshotCh r) (ch_wsConnected r) (ch_retryAttempt r) (ch_valSignHistory r) (ch_proposerHistory r) (ch_pendingState r) (ch_peakHeight r) (ch_peakPrevotePercent r) (ch_peakPrecommitPercent r) (ch_peakRound r) (ch_peakStep r) v (ch_lastProposerHeight r) (ch_firstHeightSeen r) (ch_knownProposerIndex r) (ch_knownProposerAddr r).
Definition set_ch_lastProposerHeight (v : Z) (r : Chain) : Chain := MkChain (ch_state r) (ch_monikers r) (ch_blockHistory r) (ch_snapshotCh r) (ch_wsConnected r) (ch_retryAttempt r) (ch_valSignHistory r) (ch_proposerHistory r) (ch_pendingState r) (ch_peakHeight r) (ch_peakPrevotePercent r) (ch_peakPrecommitPercent r) (ch_peakRound r) (ch_peakStep r) (ch_blockStartTime r) v (ch_firstHeightSeen r) (ch_knownProposerIndex r) (ch_knownProposerAddr r).
Definition set_ch_firstHeightSeen (v : bool) (r : Chain) : Chain := MkChain (ch_state r) (ch_monikers r) (ch_blockHistory r) (ch_snapshotCh r) (ch_wsConnected r) (ch_retryAttempt r) (ch_valSignHistory r) (ch_proposerHistory r) (ch_pendingState r) (ch_peakHeight r) (ch_peakPrevotePercent r) (ch_peakPrecommitPercent r) (ch_peakRound r) (ch_peakStep r) (ch_blockStartTime r) (ch_lastProposerHeight r) v (ch_knownProposerIndex r) (ch_knownProposerAddr r).
Definition set_ch_knownProposerIndex (v : Z) (r : Chain) : Chain := MkChain (ch_state r) (ch_monikers r) (ch_blockHistory r) (ch_snapshotCh r) (ch_wsConnected r) (ch_retryAttempt r) (ch_valSignHistory r) (ch_proposerHistory r) (ch_pendingState r) (ch_peakHeight r) (ch_peakPrevotePercent r) (ch_peakPrecommitPercent r) (ch_peakRound r) (ch_peakStep r) (ch_blockStartTime r) (ch_lastProposerHeight r) (ch_firstHeightSeen r) v (ch_knownProposerAddr r).
Definition set_ch_knownProposerAddr (v : string) (r : Chain) : Chain := MkChain (ch_state r) (ch_monikers r) (ch_blockHistory r) (ch_snapshotCh r) (ch_wsConnected r) (ch_retryAttempt r) (ch_valSignHistory r) (ch_proposerHistory r) (ch_pendingState r) (ch_peakHeight r) (ch_peakPrevotePercent r) (ch_peakPrecommitPercent r) (ch_peakRound r) (ch_peakStep r) (ch_blockStartTime r) (ch_lastProposerHeight r) (ch_firstHeightSeen r) (ch_knownProposerIndex r) v.

(** *** Providers: the list, the loader and the detail view *)
Record ProviderList : Type := MkList {
  pl_Items : list Provider;
  pl_Versions : list string;
  pl_Version : string;
  pl_VersionIdx : Z;
}.
Definition set_pl_Items (v : list Provider) (r : ProviderList) : ProviderList := MkList v (pl_Versions r) (pl_Version r) (pl_VersionIdx r).
Definition set_pl_Versions (v : list string) (r : ProviderList) : ProviderList := MkList (pl_Items r) v (pl_Version r) (pl_VersionIdx r).
Definition set_pl_Version (v : string) (r : ProviderList) : ProviderList := MkList (pl_Items r) (pl_Versions r) v (pl_VersionIdx r).
Definition set_pl_VersionIdx (v : Z) (r : ProviderList) : ProviderList := MkList (pl_Items r) (pl_Versions r) (pl_Version r) v.
Record ProviderLoader : Type := MkLoader {
  lo_FirstRun : bool;
  lo_Loading : bool;
  lo_Total : nat;
  lo_Checked : nat;
  lo_ActiveLease : gset string;
  lo_Queue : list string;
  lo_InFlight : gset string;
  lo_LastSync : Z;
  lo_LastSaveError : option error;
}.
Definition set_lo_FirstRun (v : bool) (r : ProviderLoader) : ProviderLoader := MkLoader v (lo_Loading r) (lo_Total r) (lo_Checked r) (lo_ActiveLease r) (lo_Queue r) (lo_InFlight r) (lo_LastSync r) (lo_LastSaveError r).
Definition set_lo_Loading (v : bool) (r : ProviderLoader) : ProviderLoader := MkLoader (lo_FirstRun r) v (lo_Total r) (lo_Checked r) (lo_ActiveLease r) (lo_Queue r) (lo_InFlight r) (lo_LastSync r) (lo_LastSaveError r).
Definition set_lo_Total (v : nat) (r : ProviderLoader) : ProviderLoader := MkLoader (lo_FirstRun r) (lo_Loading r) v (lo_Checked r) (lo_ActiveLease r) (lo_Queue r) (lo_InFlight r) (lo_LastSync r) (lo_LastSaveError r).
Definition set_lo_Checked (v : nat) (r : ProviderLoader) : ProviderLoader := MkLoader (lo_FirstRun r) (lo_Loading r) (lo_Total r) v (lo_ActiveLease r) (lo_Queue r) (lo_InFlight r) (lo_LastSync r) (lo_LastSaveError r).
Definition set_lo_ActiveLease (v : gset string) (r : ProviderLoader) : ProviderLoader := MkLoader (lo_FirstRun r) (lo_Loading r) (lo_Total r) (lo_Checked r) v (lo_Queue r) (lo_InFlight r) (lo_LastSync r) (lo_LastSaveError r).
Definition set_lo_Queue (v : list string) (r : ProviderLoader) : ProviderLoader := MkLoader (lo_FirstRun r) (lo_Loading r) (lo_Total r) (lo_Checked r) (lo_ActiveLease r) v (lo_InFlight r) (lo_LastSync r) (lo_LastSaveError r).
Definition set_lo_InFlight (v : gset string) (r : ProviderLoader) : ProviderLoader := MkLoader (lo_FirstRun r) (lo_Loading r) (lo_Total r) (lo_Checked r) (lo_ActiveLease r) (lo_Queue r) v (lo_LastSync r) (lo_LastSaveError r).
Definition set_lo_LastSync (v : Z) (r : ProviderLoader) : ProviderLoader := MkLoader (lo_FirstRun r) (lo_Loading r) (lo_Total r) (lo_Checked r) (lo_ActiveLease r) (lo_Queue r) (lo_InFlight r) v (lo_LastSaveError r).
Definition set_lo_LastSaveError (v : option error) (r : ProviderLoader) : ProviderLoader := MkLoader (lo_FirstRun r) (lo_Loading r) (lo_Total r) (lo_Checked r) (lo_ActiveLease r) (lo_Queue r) (lo_InFlight r) (lo_LastSync r) v.
Record ProviderDetail : Type := MkDetail {
  de_Showing : bool;
  de_Provider : option Provider;
  de_Nodes : list Node;
  de_Loading : bool;
  de_Error : option error;
}.
Definition set_de_Showing (v : bool) (r : ProviderDetail) : ProviderDetail := MkDetail v (de_Provider r) (de_Nodes r) (de_Loading r) (de_Error r).
Definition set_de_Provider (v : option Provider) (r : ProviderDetail) : ProviderDetail := MkDetail (de_Showing r) v (de_Nodes r) (de_Loading r) (de_Error r).
Definition set_de_Nodes (v : list Node) (r : ProviderDetail) : ProviderDetail := MkDetail (de_Showing r) (de_Provider r) v (de_Loading r) (de_Error r).
Definition set_de_Loading (v : bool) (r : ProviderDetail) : ProviderDetail := MkDetail (de_Showing r) (de_Provider r) (de_Nodes r) v (de_Error r).
Definition set_de_Error (v : option error) (r : ProviderDetail) : ProviderDetail := MkDetail (de_Showing r) (de_Provider r) (de_Nodes r) (de_Loading r) v.

(** *** Oracle and BME *)
Record OracleState : Type := MkOracle {
  or_Prices : list OraclePriceEntry;
  or_Aggregated : gmap string Doc;
  or_Events : list OracleEvent;
  or_Version : string;
  or_BMEStatus : option Doc;
  or_BMELedger : option Doc;
}.
Definition set_or_Prices (v : list OraclePriceEntry) (r : OracleState) : OracleState := MkOracle v (or_Aggregated r) (or_Events r) (or_Version r) (or_BMEStatus r) (or_BMELedger r).
Definition set_or_Aggregated (v : gmap string Doc) (r : OracleState) : OracleState := MkOracle (or_Prices r) v (or_Events r) (or_Version r) (or_BMEStatus r) (or_BMELedger r).
Definition set_or_Events (v : list OracleEvent) (r : OracleState) : OracleState := MkOracle (or_Prices r) (or_Aggregated r) v (or_Version r) (or_BMEStatus r) (or_BMELedger r).
Definition set_or_Version (v : string) (r : OracleState) : OracleState := MkOracle (or_Prices r) (or_Aggregated r) (or_Events r) v (or_BMEStatus r) (or_BMELedger r).
Definition set_or_BMEStatus (v : option Doc) (r : OracleState) : OracleState := MkOracle (or_Prices r) (or_Aggregated r) (or_Events r) (or_Version r) v (or_BMELedger r).
Definition set_or_BMELedger (v : option Doc) (r : OracleState) : OracleState := MkOracle (or_Prices r) (or_Aggregated r) (or_Events r) (or_Version r) (or_BMEStatus r) v.

(** *** What is on the screen *)
Record Screen : Type := MkScreen {
  sc_width : Z;
  sc_height : Z;
  sc_hubTab : HubTab;
  sc_activeTab : Tab;
  sc_expandedBlock : Z;
  sc_expandedScroll : Z;
  sc_expandedValidators : list BlockValidatorVote;
  sc_expandedValidator : Z;
  sc_quitting : bool;
  sc_providerTable : T;
  sc_nodeTable : T;
  sc_validatorTable : T;
  sc_blockTable : T;
  sc_govModuleIdx : Z;
  sc_govModuleScroll : Z;
  sc_govModuleHeight : Z;
  sc_govProposalView : V;
  sc_govParamView : V;
}.
Definition set_sc_width (v : Z) (r : Screen) : Screen := MkScreen v (sc_height r) (sc_hubTab r) (sc_activeTab r) (sc_expandedBlock r) (sc_expandedScroll r) (sc_expandedValidators r) (sc_expandedValidator r) (sc_quitting r) (sc_providerTable r) (sc_nodeTable r) (sc_validatorTable r) (sc_blockTable r) (sc_govModuleIdx r) (sc_govModuleScroll r) (sc_govModuleHeight r) (sc_govProposalView r) (sc_govParamView r).
Definition set_sc_height (v : Z) (r : Screen) : Screen := MkScreen (sc_width r) v (sc_hubTab r) (sc_activeTab r) (sc_expandedBlock r) (sc_expandedScroll r) (sc_expandedValidators r) (sc_expandedValidator r) (sc_quitting r) (sc_providerTable r) (sc_nodeTable r) (sc_validatorTable r) (sc_blockTable r) (sc_govModuleIdx r) (sc_govModuleScroll r) (sc_govModuleHeight r) (sc_govProposalView r) (sc_govParamView r).
Definition set_sc_hubTab (v : HubTab) (r : Screen) : Screen := MkScreen (sc_width r) (sc_height r) v (sc_activeTab r) (sc_expandedBlock r) (sc_expandedScroll r) (sc_expandedValidators r) (sc_expandedValidator r) (sc_quitting r) (sc_providerTable r) (sc_nodeTable r) (sc_validatorTable r) (sc_blockTable r) (sc_govModuleIdx r) (sc_govModuleScroll r) (sc_govModuleHeight r) (sc_govProposalView r) (sc_govParamView r).
Definition set_sc_activeTab (v : Tab) (r : Screen) : Screen := MkScreen (sc_width r) (sc_height r) (sc_hubTab r) v (sc_expandedBlock r) (sc_expandedScroll r) (sc_expandedValidators r) (sc_expandedValidator r) (sc_quitting r) (sc_providerTable r) (sc_nodeTable r) (sc_validatorTable r) (sc_blockTable r) (sc_govModuleIdx r) (sc_govModuleScroll r) (sc_govModuleHeight r) (sc_govProposalView r) (sc_govParamView r).
Definition set_sc_expandedBlock (v : Z) (r : Screen) : Screen := MkScreen (sc_width r) (sc_height r) (sc_hubTab r) (sc_activeTab r) v (sc_expandedScroll r) (sc_expandedValidators r) (sc_expandedValidator r) (sc_quitting r) (sc_providerTable r) (sc_nodeTable r) (sc_validatorTable r) (sc_blockTable r) (sc_govModuleIdx r) (sc_govModuleScroll r) (sc_govModuleHeight r) (sc_govProposalView r) (sc_govParamView r).
Definition set_sc_expandedScroll (v : Z) (r : Screen) : Screen := MkScreen (sc_width r) (sc_height r) (sc_hubTab r) (sc_activeTab r) (sc_expandedBlock r) v (sc_expandedValidators r) (sc_expandedValidator r) (sc_quitting r) (sc_providerTable r) (sc_nodeTable r) (sc_validatorTable r) (sc_blockTable r) (sc_govModuleIdx r) (sc_govModuleScroll r) (sc_govModuleHeight r) (sc_govProposalView r) (sc_govParamView r).
Definition set_sc_expandedValidators (v : list BlockValidatorVote) (r : Screen) : Screen := MkScreen (sc_width r) (sc_height r) (sc_hubTab r) (sc_activeTab r) (sc_expandedBlock r) (sc_expandedScroll r) v (sc_expandedValidator r) (sc_quitting r) (sc_providerTable r) (sc_nodeTable r) (sc_validatorTable r) (sc_blockTable r) (sc_govModuleIdx r) (sc_govModuleScroll r) (sc_govModuleHeight r) (sc_govProposalView r) (sc_govParamView r).
Definition set_sc_expandedValidator (v : Z) (r : Screen) : Screen := MkScreen (sc_width r) (sc_height r) (sc_hubTab r) (sc_activeTab r) (sc_expandedBlock r) (sc_expandedScroll r) (sc_expandedValidators r) v (sc_quitting r) (sc_providerTable r) (sc_nodeTable r) (sc_validatorTable r) (sc_blockTable r) (sc_govModuleIdx r) (sc_govModuleScroll r) (sc_govModuleHeight r) (sc_govProposalView r) (sc_govParamView r).
Definition set_sc_quitting (v : bool) (r : Screen) : Screen := MkScreen (sc_width r) (sc_height r) (sc_hubTab r) (sc_activeTab r) (sc_expandedBlock r) (sc_expandedScroll r) (sc_expandedValidators r) (sc_expandedValidator r) v (sc_providerTable r) (sc_nodeTable r) (sc_validatorTable r) (sc_blockTable r) (sc_govModuleIdx r) (sc_govModuleScroll r) (sc_govModuleHeight r) (sc_govProposalView r) (sc_govParamView r).
Definition set_sc_providerTable (v : T) (r : Screen) : Screen := MkScreen (sc_width r) (sc_height r) (sc_hubTab r) (sc_activeTab r) (sc_expandedBlock r) (sc_expandedScroll r) (sc_expandedValidators r) (sc_expandedValidator r) (sc_quitting r) v (sc_nodeTable r) (sc_validatorTable r) (sc_blockTable r) (sc_govModuleIdx r) (sc_govModuleScroll r) (sc_govModuleHeight r) (sc_govProposalView r) (sc_govParamView r).
Definition set_sc_nodeTable (v : T) (r : Screen) : Screen := MkScreen (sc_width r) (sc_height r) (sc_hubTab r) (sc_activeTab r) (sc_expandedBlock r) (sc_expandedScroll r) (sc_expandedValidators r) (sc_expandedValidator r) (sc_quitting r) (sc_providerTable r) v (sc_validatorTable r) (sc_blockTable r) (sc_govModuleIdx r) (sc_govModuleScroll r) (sc_govModuleHeight r) (sc_govProposalView r) (sc_govParamView r).
Definition set_sc_validatorTable (v : T) (r : Screen) : Screen := MkScreen (sc_width r) (sc_height r) (sc_hubTab r) (sc_activeTab r) (sc_expandedBlock r) (sc_expandedScroll r) (sc_expandedValidators r) (sc_expandedValidator r) (sc_quitting r) (sc_providerTable r) (sc_nodeTable r) v (sc_blockTable r) (sc_govModuleIdx r) (sc_govModuleScroll r) (sc_govModuleHeight r) (sc_govProposalView r) (sc_govParamView r).
Definition set_sc_blockTable (v : T) (r : Screen) : Screen := MkScreen (sc_width r) (sc_height r) (sc_hubTab r) (sc_activeTab r) (sc_expandedBlock r) (sc_expandedScroll r) (sc_expandedValidators r) (sc_expandedValidator r) (sc_quitting r) (sc_providerTable r) (sc_nodeTable r) (sc_validatorTable r) v (sc_govModuleIdx r) (sc_govModuleScroll r) (sc_govModuleHeight r) (sc_govProposalView r) (sc_govParamView r).
Definition set_sc_govModuleIdx (v : Z) (r : Screen) : Screen := MkScreen (sc_width r) (sc_height r) (sc_hubTab r) (sc_activeTab r) (sc_expandedBlock r) (sc_expandedScroll r) (sc_expandedValidators r) (sc_expandedValidator r) (sc_quitting r) (sc_providerTable r) (sc_nodeTable r) (sc_validatorTable r) (sc_blockTable r) v (sc_govModuleScroll r) (sc_govModuleHeight r) (sc_govProposalView r) (sc_govParamView r).
Definition set_sc_govModuleScroll (v : Z) (r : Screen) : Screen := MkScreen (sc_width r) (sc_height r) (sc_hubTab r) (sc_activeTab r) (sc_expandedBlock r) (sc_expandedScroll r) (sc_expandedValidators r) (sc_expandedValidator r) (sc_quitting r) (sc_providerTable r) (sc_nodeTable r) (sc_validatorTable r) (sc_blockTable r) (sc_govModuleIdx r) v (sc_govModuleHeight r) (sc_govProposalView r) (sc_govParamView r).
Definition set_sc_govModuleHeight (v : Z) (r : Screen) : Screen := MkScreen (sc_width r) (sc_height r) (sc_hubTab r) (sc_activeTab r) (sc_expandedBlock r) (sc_expandedScroll r) (sc_expandedValidators r) (sc_expandedValidator r) (sc_quitting r) (sc_providerTable r) (sc_nodeTable r) (sc_validatorTable r) (sc_blockTable r) (sc_govModuleIdx r) (sc_govModuleScroll r) v (sc_govProposalView r) (sc_govParamView r).
Definition set_sc_govProposalView (v : V) (r : Screen) : Screen := MkScreen (sc_width r) (sc_height r) (sc_hubTab r) (sc_activeTab r) (sc_expandedBlock r) (sc_expandedScroll r) (sc_expandedValidators r) (sc_expandedValidator r) (sc_quitting r) (sc_providerTable r) (sc_nodeTable r) (sc_validatorTable r) (sc_blockTable r) (sc_govModuleIdx r) (sc_govModuleScroll r) (sc_govModuleHeight r) v (sc_govParamView r).
Definition set_sc_govParamView (v : V) (r : Screen) : Screen := MkScreen (sc_width r) (sc_height r) (sc_hubTab r) (sc_activeTab r) (sc_expandedBlock r) (sc_expandedScroll r) (sc_expandedValidators r) (sc_expandedValidator r) (sc_quitting r) (sc_providerTable r) (sc_nodeTable r) (sc_validatorTable r) (sc_blockTable r) (sc_govModuleIdx r) (sc_govModuleScroll r) (sc_govModuleHeight r) (sc_govProposalView r) v.

Record Model : Type := MkModel {
  mo_cache : C;
  mo_embedded : bool;
  mo_chain : Chain;
  mo_screen : Screen;
  mo_providers : ProviderList;
  mo_loader : ProviderLoader;
  mo_detail : ProviderDetail;
  mo_detailRequestID : N;
  mo_governanceProposals : option Doc;
  mo_governanceProposalsErr : option error;
  mo_governanceParams : option (gmap string (option ModuleParams));
  mo_subscriber : bool;
  mo_oracle : OracleState;
}.
Definition set_mo_cache (v : C) (r : Model) : Model := MkModel v (mo_embedded r) (mo_chain r) (mo_screen r) (mo_providers r) (mo_loader r) (mo_detail r) (mo_detailRequestID r) (mo_governanceProposals r) (mo_governanceProposalsErr r) (mo_governanceParams r) (mo_subscriber r) (mo_oracle r).
Definition set_mo_embedded (v : bool) (r : Model) : Model := MkModel (mo_cache r) v (mo_chain r) (mo_screen r) (mo_providers r) (mo_loader r) (mo_detail r) (mo_detailRequestID r) (mo_governanceProposals r) (mo_governanceProposalsErr r) (mo_governanceParams r) (mo_subscriber r) (mo_oracle r).
Definition set_mo_chain (v : Chain) (r : Model) : Model := MkModel (mo_cache r) (mo_embedded r) v (mo_screen r) (mo_providers r) (mo_loader r) (mo_detail r) (mo_detailRequestID r) (mo_governanceProposals r) (mo_governanceProposalsErr r) (mo_governanceParams r) (mo_subscriber r) (mo_oracle r).
Definition set_mo_screen (v : Screen) (r : Model) : Model := MkModel (mo_cache r) (mo_embedded r) (mo_chain r) v (mo_providers r) (mo_loader r) (mo_detail r) (mo_detailRequestID r) (mo_governanceProposals r) (mo_governanceProposalsErr r) (mo_governanceParams r) (mo_subscriber r) (mo_oracle r).
Definition set_mo_providers (v : ProviderList) (r : Model) : Model := MkModel (mo_cache r) (mo_embedded r) (mo_chain r) (mo_screen r) v (mo_loader r) (mo_detail r) (mo_detailRequestID r) (mo_governanceProposals r) (mo_governanceProposalsErr r) (mo_governanceParams r) (mo_subscriber r) (mo_oracle r).
Definition set_mo_loader (v : ProviderLoader) (r : Model) : Model := MkModel (mo_cache r) (mo_embedded r) (mo_chain r) (mo_screen r) (mo_providers r) v (mo_detail r) (mo_detailRequestID r) (mo_governanceProposals r) (mo_governanceProposalsErr r) (mo_governanceParams r) (mo_subscriber r) (mo_oracle r).
Definition set_mo_detail (v : ProviderDetail) (r : Model) : Model := MkModel (mo_cache r) (mo_embedded r) (mo_chain r) (mo_screen r) (mo_providers r) (mo_loader r) v (mo_detailRequestID r) (mo_governanceProposals r) (mo_governanceProposalsErr r) (mo_governanceParams r) (mo_subscriber r) (mo_oracle r).
Definition set_mo_detailRequestID (v : N) (r : Model) : Model := MkModel (mo_cache r) (mo_embedded r) (mo_chain r) (mo_screen r) (mo_providers r) (mo_loader r) (mo_detail r) v (mo_governanceProposals r) (mo_governanceProposalsErr r) (mo_governanceParams r) (mo_subscriber r) (mo_oracle r).
Definition set_mo_governanceProposals (v : option Doc) (r : Model) : Model := MkModel (mo_cache r) (mo_embedded r) (mo_chain r) (mo_screen r) (mo_providers r) (mo_loader r) (mo_detail r) (mo_detailRequestID r) v (mo_governanceProposalsErr r) (mo_governanceParams r) (mo_subscriber r) (mo_oracle r).
Definition set_mo_governanceProposalsErr (v : option error) (r : Model) : Model := MkModel (mo_cache r) (mo_embedded r) (mo_chain r) (mo_screen r) (mo_providers r) (mo_loader r) (mo_detail r) (mo_detailRequestID r) (mo_governanceProposals r) v (mo_governanceParams r) (mo_subscriber r) (mo_oracle r).
Definition set_mo_governanceParams (v : option (gmap string (option ModuleParams))) (r : Model) : Model := MkModel (mo_cache r) (mo_embedded r) (mo_chain r) (mo_screen r) (mo_providers r) (mo_loader r) (mo_detail r) (mo_detailRequestID r) (mo_governanceProposals r) (mo_governanceProposalsErr r) v (mo_subscriber r) (mo_oracle r).
Definition set_mo_subscriber (v : bool) (r : Model) : Model := MkModel (mo_cache r) (mo_embedded r) (mo_chain r) (mo_screen r) (mo_providers r) (mo_loader r) (mo_detail r) (mo_detailRequestID r) (mo_governanceProposals r) (mo_governanceProposalsErr r) (mo_governanceParams r) v (mo_oracle r).
Definition set_mo_oracle (v : OracleState) (r : Model) : Model := MkModel (mo_cache r) (mo_embedded r) (mo_chain r) (mo_screen r) (mo_providers r) (mo_loader r) (mo_detail r) (mo_detailRequestID r) (mo_governanceProposals r) (mo_governanceProposalsErr r) (mo_governanceParams r) (mo_subscriber r) v.

(** ** Messages and commands *)
Inductive bus_event : Type :=
| EventPriceData (denom price source : string) (ts : Z)
| EventAggregatedPrice (denom twap : string) (ev : Doc)
| EventPriceStaleWarning (denom : string)
| EventPriceStaled (denom : string)
| EventPriceRecovered (denom : string)
| EventOther.

(** The result of checking a provider; [ck_online] is its report when it is online. *)
Record checked_msg : Type := MkCheckedMsg { ck_owner : string; ck_err : option error; ck_online : option report }.
Record oracle_answer : Type := MkOracleAnswer { oa_Version : string; oa_Aggregated : list (string * Doc); oa_Prices : option (list OraclePriceEntry) }.

Inductive msg : Type :=
| KeyPressMsg (key : string)
| WindowSizeMsg (width height : Z)
| renderTickMsg | providerCheckTickMsg | chainSyncTickMsg | cacheSaveTickMsg | governanceProposalsTickMsg | governanceParamsTickMsg
| busEventMsg (ev : option bus_event)                          (* [None]: the channel is closed *)
| wsConnectedMsg
| consensusSnapshotMsg (snapshot : option (option (State (F := F)))) (* [None]: the channel is closed *)
| consensusReconnectMsg
| stateErrMsg (err : error) (canceled : bool)
| monikersMsg (r : result (gmap string string))
| initialSigningMsg (r : result (gset string * list Validator))
| proposerMsg (r : result (Z * Z * string))
| chainSyncMsg (r : result (gset string))
| providerCheckedMsg (c : checked_msg)
| providerDetailMsg (hostURI : string) (requestID : N) (r : result (list Node))
| governanceProposalsMsg (r : result Doc)
| governanceParamsMsg (r : result (gmap string (option ModuleParams)))
| oracleStateMsg (r : option oracle_answer)
| bmeStateMsg (r : option (option Doc * option Doc)).

(** A tick is a command that waits and then delivers its message; those of the oracle
    and of the BME module wait and then fetch. *)
Inductive cmd : Type :=
| connectWebSocket | waitForSnapshot_ | reconnectAfter (delay : Z)
| renderTick | providerCheckTick | chainSyncTick | cacheSaveTick | governanceProposalSyncTick | governanceSyncTick
| fetchOracleState | oracleSyncTick | fetchBMEState | bmeSyncTick | waitForBusEvent_
| fetchMonikers | fetchInitialSigning | fetchProposer | fetchGovernanceProposals | fetchGovernanceParams
| loadFromCache_then_syncChain | syncChain
| checkProvider (owner : string) | fetchProviderDetail (hostURI : string) (requestID : N)
| Back | Quit.

(** ** Tables *)

Definition on_screen (f : Screen → Screen) (m : Model) : Model := set_mo_screen (f (mo_screen m)) m.
Definition on_chain_view (f : Chain → Chain) (m : Model) : Model := set_mo_chain (f (mo_chain m)) m.
Definition on_providers (f : ProviderList → ProviderList) (m : Model) : Model := set_mo_providers (f (mo_providers m)) m.
Definition on_loader (f : ProviderLoader → ProviderLoader) (m : Model) : Model := set_mo_loader (f (mo_loader m)) m.
Definition on_detail (f : ProviderDetail → ProviderDetail) (m : Model) : Model := set_mo_detail (f (mo_detail m)) m.
Definition on_oracle (f : OracleState → OracleState) (m : Model) : Model := set_mo_oracle (f (mo_oracle m)) m.
Definition on_providerTable (f : T → T) : Model → Model := on_screen (λ s, set_sc_providerTable (f (sc_providerTable s)) s).
Definition on_nodeTable (f : T → T) : Model → Model := on_screen (λ s, set_sc_nodeTable (f (sc_nodeTable s)) s).
Definition on_validatorTable (f : T → T) : Model → Model := on_screen (λ s, set_sc_validatorTable (f (sc_validatorTable s)) s).
Definition on_blockTable (f : T → T) : Model → Model := on_screen (λ s, set_sc_blockTable (f (sc_blockTable s)) s).
Definition on_govParamView (f : V → V) : Model → Model := on_screen (λ s, set_sc_govParamView (f (sc_govParamView s)) s).
Definition on_govProposalView (f : V → V) : Model → Model := on_screen (λ s, set_sc_govProposalView (f (sc_govProposalView s)) s).

Definition setTableWidth (width : Z) (t : T) : T := SetWidth (Z.max width (foldl Z.add 0%Z (Columns t))) t.
Definition grow_columns (columns : list Z) (row : list string) : list Z :=
  imap (λ i w, match row !! i with Some cell => Z.max w (lipgloss_Width cell + 2) | None => w end) columns.
Definition setTableRows (rows : list (list string)) (t : T) : T :=
  let t := SetRows rows (SetColumns (foldl grow_columns (Columns t) rows) t) in setTableWidth (Width t) t.

Definition getFilteredProviders (m : Model) : list Provider :=
  let providers := filterNonLocalProviders (pl_Items (mo_providers m)) in
  if bool_decide (pl_Version (mo_providers m) = "") then providers
  else List.filter (λ p, bool_decide (pr_AkashVersion p = pl_Version (mo_providers m))) providers.

Definition provider_row (i : nat) (p : Provider) : list string :=
  [FormatInt (Z.of_nat i + 1); pr_HostURI p; pr_AkashVersion p; formatResourceRatio ((pr_CPU p).1 / 1000)%N ((pr_CPU p).2 / 1000)%N; formatMemoryRatio (pr_Mem p).1 (pr_Mem p).2;
   formatProviderGPU p; if bool_decide (pr_Country p = "") then "--" else pr_Country p].
Definition rebuildProviderTableRows (m : Model) : Model :=
  on_providerTable (setTableRows (imap provider_row (getFilteredProviders m))) m.

Definition clear_rows (t : T) : T := UpdateViewport (SetRows [] t).
Definition validator_row (m : Model) (total blocksW : Z) (v : ValidatorStatus) : list string :=
  let pct := if (0 <? total)%Z then share (vs_VotingPower v) total else "" in
  [FormatInt (vs_Index v); getValidatorDisplayName v (ch_monikers (mo_chain m)); formatPower (vs_VotingPower v) +:+ " " +:+ pct;
   renderSigningBar (default [] (ch_valSignHistory (mo_chain m) !! vs_Index v)) (vs_Index v) (ch_proposerHistory (mo_chain m)) (-1) blocksW].
Definition rebuildValidatorTableRows (m : Model) : Model :=
  match ch_state (mo_chain m) with
  | Some (st, _) =>
      match st_Validators st with
      | [] => on_validatorTable clear_rows m
      | vs => on_validatorTable (setTableRows (validator_row m (st_TotalVotingPower st) (Z.max (sc_width (mo_screen m) - 5 - 28 - 18 - 7) 20) <$> vs)) m
      end
  | None => on_validatorTable clear_rows m
  end.

Definition block_row (isCurrent : bool) (height : Z) (pv pc : F) (elapsed round step : Z) : list string :=
  [(if isCurrent then "* " else "  ") +:+ formatNumber height; percent pv; percent pc;
   if (0 <? elapsed)%Z || isCurrent then formatDuration elapsed else "-"; FormatInt round +:+ "/" +:+ FormatInt step].
Definition rebuildBlockTableRows (m : Model) : Model :=
  let current := match ch_state (mo_chain m) with
                 | Some (st, _) => if (0 <? st_Height st)%Z
                                   then [block_row true (st_Height st) (st_PrevotePercent st) (st_PrecommitPercent st) (Z.max (st_Elapsed st) 0) (st_Round st) (st_Step st)]
                                   else []
                 | None => []
                 end in
  let history := (λ r, block_row false (br_Height r) (br_PrevotePercent r) (br_PrecommitPercent r) (br_Elapsed r) (br_Round r) (br_Step r)) <$> ch_blockHistory (mo_chain m) in
  match (current ++ history)%list with
  | [] => on_blockTable clear_rows m
  | rows => on_blockTable (setTableRows rows) m
  end.

Definition node_row (i : nat) (n : Node) : list string :=
  [if bool_decide (nd_Name n = "") then "node-" +:+ FormatInt (Z.of_nat i + 1) else nd_Name n;
   formatResourceRatio ((nd_CPU n).1 / 1000)%N ((nd_CPU n).2 / 1000)%N; formatMemoryRatio (nd_Mem n).1 (nd_Mem n).2; formatNodeGPU n].
Definition rebuildNodeTableRows (m : Model) : Model :=
  match de_Nodes (mo_detail m) with
  | [] => on_nodeTable clear_rows m
  | nodes => on_nodeTable (setTableRows (imap node_row nodes)) m
  end.

Definition updateGovParamView (m : Model) : Model :=
  let idx := sc_govModuleIdx (mo_screen m) in
  let content :=
    match mo_governanceParams m with
    | None => ""
    | Some modules =>
        if (idx <? 0)%Z then ""
        else match ModuleOrder !! Z.to_nat idx with
             | None => ""
             | Some name =>
                 match default None (modules !! name) with
                 | None => "(no data)"
                 | Some mp => match mp_Error mp with
                              | Some e => "Error: " +:+ error_text e
                              | None => RenderModuleParamsFromJSON name (mp_RawJSON mp)
                              end
                 end
             end
    end in
  on_govParamView (SetContent content) m.

Definition overviewOverhead : Z := 10.
Definition providerListOverhead : Z := 25.
Definition nodeListOverhead : Z := 14.
Definition minVisibleNodes : Z := 3.
Definition minVisibleProviders : Z := 5.
Definition governanceOverhead : Z := 13.
Definition modules_count : Z := Z.of_nat (length ModuleOrder).

(** Go's division truncates; the heights here are positive. *)
Definition resizeComponents (m : Model) : Model :=
  let s := mo_screen m in
  let resize rows t := UpdateViewport (setTableWidth (sc_width s) (SetHeight rows t)) in
  let validatorRows := Z.max (sc_height s - 14) 5 in
  let validatorRows := if (0 <=? sc_expandedValidator s)%Z then Z.max (validatorRows ÷ 2) 3 else validatorRows in
  let blockRows := Z.max (sc_height s - overviewOverhead) 3 in
  let blockRows := if (0 <=? sc_expandedBlock s)%Z then Z.max (blockRows ÷ 3) 2 else blockRows in
  let govHeight := let h := (sc_height s - governanceOverhead)%Z in if (h <? 5)%Z then 5%Z else h in
  let top := Z.max 0 (modules_count - govHeight) in
  on_screen (λ s,
    MkScreen (sc_width s) (sc_height s) (sc_hubTab s) (sc_activeTab s) (sc_expandedBlock s) (sc_expandedScroll s) (sc_expandedValidators s) (sc_expandedValidator s) (sc_quitting s)
      (resize (Z.max (sc_height s - providerListOverhead) minVisibleProviders) (sc_providerTable s))
      (resize (Z.max (sc_height s - nodeListOverhead) minVisibleNodes) (sc_nodeTable s))
      (resize validatorRows (sc_validatorTable s)) (resize blockRows (sc_blockTable s))
      (sc_govModuleIdx s) (if (top <? sc_govModuleScroll s)%Z then top else sc_govModuleScroll s) govHeight
      (view_SetWidth (sc_width s) (view_SetHeight govHeight (sc_govProposalView s)))
      (view_SetWidth (sc_width s - 22) (view_SetHeight govHeight (sc_govParamView s)))) m.

(** ** Consensus *)

(** The proposer that was last fetched, on the state that is shown. *)
Definition with_proposer (index : Z) (addr : string) (st : State (F := F)) : State (F := F) :=
  MkState (st_Height st) (st_Round st) (st_Step st) (st_StartTime st) (st_Elapsed st) addr index (st_TotalValidators st) (st_TotalVotingPower st)
    (st_PrevoteCount st) (st_PrevotePower st) (st_PrevotePercent st) (st_PrevoteBitArray st)
    (st_PrecommitCount st) (st_PrecommitPower st) (st_PrecommitPercent st) (st_PrecommitBitArray st)
    (imap (λ i v, MkStatus (vs_Index v) (vs_Address v) (vs_PubKey v) (vs_VotingPower v) (vs_Prevoted v) (vs_Precommited v) (bool_decide (Z.of_nat i = index))) (st_Validators st)).
Definition applyProposerToState (c : Chain) : Chain :=
  match ch_state c with
  | Some (st, err) => if (ch_knownProposerIndex c <? 0)%Z then c else set_ch_state (Some (with_proposer (ch_knownProposerIndex c) (ch_knownProposerAddr c) st, err)) c
  | None => c
  end.

Definition maxSignHistory : nat := 50.
Definition sign (h : gmap Z (list bool)) (v : ValidatorStatus) : gmap Z (list bool) :=
  <[vs_Index v := take maxSignHistory (vs_Precommited v :: default [] (h !! vs_Index v))]> h.
Definition reset_peaks (c : Chain) : Chain :=
  set_ch_blockStartTime 0 (set_ch_peakStep 0 (set_ch_peakRound 0 (set_ch_peakPrecommitPercent F_zero (set_ch_peakPrevotePercent F_zero c)))).
(** The block that is complete: its votes, its record, its proposer. *)
Definition record_block (now : Z) (c : Chain) : Chain :=
  let elapsed := if (ch_blockStartTime c =? 0)%Z then 0%Z else time_Sub now (ch_blockStartTime c) in
  let validators := match ch_state c with Some (st, _) => st_Validators st | None => [] end in
  let rec := MkBlock (ch_peakHeight c) (ch_peakPrevotePercent c) (ch_peakPrecommitPercent c) (ch_peakRound c) (ch_peakStep c) elapsed now (vote_of <$> validators) in
  set_ch_proposerHistory (take maxSignHistory (ch_knownProposerIndex c :: ch_proposerHistory c))
    (set_ch_blockHistory (take MaxBlockHistory (rec :: ch_blockHistory c))
      (set_ch_valSignHistory (foldl sign (ch_valSignHistory c) validators) c)).
Definition track_peaks (st : State (F := F)) (c : Chain) : Chain :=
  let peak new old := if F_lt old new then new else old in
  let c := set_ch_peakHeight (st_Height st) c in
  let c := set_ch_peakPrevotePercent (peak (st_PrevotePercent st) (ch_peakPrevotePercent c)) c in
  let c := set_ch_peakPrecommitPercent (peak (st_PrecommitPercent st) (ch_peakPrecommitPercent c)) c in
  let c := set_ch_peakStep (st_Step st) (set_ch_peakRound (st_Round st) c) in
  if (ch_blockStartTime c =? 0)%Z then set_ch_blockStartTime (st_StartTime st) c else c.

(** [handleStateMsg] without an error. *)
Definition handleStateMsgInPlace (now : Z) (st : State (F := F)) (m : Model) : Model :=
  let c := mo_chain m in
  let new_height := (0 <? ch_peakHeight c)%Z && (ch_peakHeight c <? st_Height st)%Z in
  if new_height && negb (ch_firstHeightSeen c) then
    set_mo_chain (applyProposerToState (set_ch_state (Some (st, None)) (set_ch_peakHeight (st_Height st) (reset_peaks (set_ch_firstHeightSeen true c))))) m
  else
    let c := if new_height then reset_peaks (record_block now c) else c in
    let c := applyProposerToState (set_ch_state (Some (st, None)) (track_peaks st c)) in
    rebuildBlockTableRows (rebuildValidatorTableRows (set_mo_chain c m)).

Definition zero_state : State (F := F) := MkState 0 0 0 0 0 "" 0 0 0 0 0 F_zero "" 0 0 F_zero "" [].

Fixpoint double_delay (n : nat) (delay : Z) : Z :=
  match n with
  | O => delay
  | S n => if (consensusReconnectMaxDelay ÷ 2 <=? delay)%Z then consensusReconnectMaxDelay else double_delay n (delay * 2)
  end.
Definition scheduleConsensusReconnect (done : bool) (m : Model) : Model * list cmd :=
  if done then (m, [])
  else let n := ch_retryAttempt (mo_chain m) in
       (on_chain_view (set_ch_retryAttempt (if (n <? 64)%nat then S n else n)) m, [reconnectAfter (double_delay n consensusReconnectBaseDelay)]).
(** [handleStateMsg] with an error. *)
Definition handleStateErr (done : bool) (err : error) (canceled : bool) (m : Model) : Model * list cmd :=
  let st := match ch_state (mo_chain m) with Some (st, _) => st | None => zero_state end in
  let m := on_chain_view (set_ch_state (Some (st, Some err))) m in
  if canceled then (m, []) else scheduleConsensusReconnect done m.
Definition waitForSnapshot (m : Model) : list cmd := if ch_snapshotCh (mo_chain m) then [waitForSnapshot_] else [].

(** [strings.ToUpper] of the hexadecimal text of an address. *)
Definition ToUpper (s : string) : string := of_bytes (upper_byte <$> bytes_of s).
Definition seedSigningHistory (signers : gset string) (validators : list Validator) (c : Chain) : Chain :=
  if bool_decide (ch_valSignHistory c = ∅) then
    set_ch_valSignHistory (list_to_map (imap (λ i v, (Z.of_nat i, [bool_decide (ToUpper (va_Address v) ∈ signers)])) validators)) c
  else c.

(** ** Providers *)
Definition reconcileProviderVersionSelection (l : ProviderList) : ProviderList :=
  match pl_Versions l with
  | [] => set_pl_VersionIdx 0 (set_pl_Version "" l)
  | first :: _ =>
      match list_find (λ v, v = pl_Version l) (pl_Versions l) with
      | Some (index, _) => set_pl_VersionIdx (Z.of_nat index) l
      | None => set_pl_VersionIdx 0 (set_pl_Version first l)
      end
  end.

Definition provider_less (selected : string) (a b : Provider) : bool :=
  let aSelected := bool_decide (pr_AkashVersion a = selected) in
  let bSelected := bool_decide (pr_AkashVersion b = selected) in
  if negb (eqb aSelected bSelected) then aSelected
  else let cmp := CompareVersions (pr_AkashVersion a) (pr_AkashVersion b) in
       if (cmp =? 0)%Z then bool_decide (String.compare (pr_HostURI a) (pr_HostURI b) = Lt) else (0 <? cmp)%Z.
Definition sortProviders (l : ProviderList) : ProviderList := set_pl_Items (sort_SliceStable (provider_less (pl_Version l)) (pl_Items l)) l.

Definition listed (p : CachedProvider) : bool :=
  cp_IsOnline p && negb (isLocalhost (cp_HostURI p)) && negb (bool_decide (cp_Version p = "" ∨ cp_Version p = "unknown")).
Definition provider_of (owner : string) (p : CachedProvider) : Provider :=
  MkProvider owner (cp_HostURI p) (cp_Name p) (cp_Version p) (cp_IsOnline p) (cp_Country p)
    (cp_CPUAvailable p, cp_CPUTotal p) (cp_MemAvailable p, cp_MemTotal p) (cp_GPUAvailable p, cp_GPUTotal p) (cp_GPUModels p).
(** Of the providers of one URI the one seen last. *)
Definition keep_latest (byURI : gmap string (Provider * Z)) (op : string * CachedProvider) : gmap string (Provider * Z) :=
  let '(owner, p) := op in
  if negb (listed p) then byURI
  else match byURI !! cp_HostURI p with
       | Some (_, seen) => if (seen <? cp_LastSeenOnline p)%Z then <[cp_HostURI p := (provider_of owner p, cp_LastSeenOnline p)]> byURI else byURI
       | None => <[cp_HostURI p := (provider_of owner p, cp_LastSeenOnline p)]> byURI
       end.
Definition rebuildProviderList (m : Model) : Model :=
  let byURI := foldl keep_latest ∅ (range_order (map_to_list (ps_GetAllProviders (mo_cache m)))) in
  let items := sort_SliceStable (provider_less (pl_Version (mo_providers m))) (fst <$> range_order (map_to_list byURI).*2) in
  rebuildProviderTableRows
    (on_providers (λ l, reconcileProviderVersionSelection (set_pl_Versions (GetProviderVersions items) (set_pl_Items items l))) m).

(** A list that is not the selection; the index before it wraps around. *)
Definition select_version (step : Z → Z → Z) (m : Model) : Model :=
  match pl_Versions (mo_providers m) with
  | [] => m
  | versions =>
      let l := reconcileProviderVersionSelection (mo_providers m) in
      let idx := step (pl_VersionIdx l) (Z.of_nat (length versions)) in
      let l := set_pl_Version (default "" (versions !! Z.to_nat idx)) (set_pl_VersionIdx idx l) in
      rebuildProviderTableRows (on_providers sortProviders (on_providerTable (SetCursor 0) (set_mo_providers l m)))
  end.
Definition selectPreviousVersion : Model → Model := select_version (λ idx n, if (idx - 1 <? 0)%Z then n - 1 else idx - 1)%Z.
Definition selectNextVersion : Model → Model := select_version (λ idx n, (idx + 1) mod n)%Z.

Definition buildProviderQueue (activeLeaseProviders : gset string) (m : Model) : Model :=
  let all := ps_GetProvidersByPriority (mo_cache m) in
  let queue := if lo_FirstRun (mo_loader m) && negb (bool_decide (activeLeaseProviders = ∅))
               then (filter (λ o, o ∈ activeLeaseProviders) all ++ filter (λ o, o ∉ activeLeaseProviders) all)%list
               else all in
  on_loader (λ l, set_lo_Loading (match queue with [] => false | _ => true end) (set_lo_Checked 0 (set_lo_Total (length queue)
    (set_lo_Queue queue (set_lo_ActiveLease activeLeaseProviders l))))) m.

(** The first owners of the queue that are not being checked, at most [n]. *)
Fixpoint pick (n : nat) (inFlight : gset string) (queue : list string) : list string * gset string :=
  match queue with
  | [] => ([], inFlight)
  | owner :: queue =>
      match n with
      | O => ([], inFlight)
      | S n' => if decide (owner ∈ inFlight) then pick n inFlight queue
                else let '(picked, inFlight) := pick n' ({[owner]} ∪ inFlight) queue in (owner :: picked, inFlight)
      end
  end.
Definition dispatchProviderChecks (done : bool) (m : Model) : Model * list cmd :=
  if done then (m, [])
  else let available := (MaxConcurrentChecks - Z.of_nat (size (lo_InFlight (mo_loader m))))%Z in
       if (available <=? 0)%Z then (m, [])
       else let '(picked, inFlight) := pick (Z.to_nat available) (lo_InFlight (mo_loader m)) (lo_Queue (mo_loader m)) in
            (on_loader (set_lo_InFlight inFlight) m, checkProvider <$> picked).

Fixpoint removeFromQueue (owner : string) (queue : list string) : list string :=
  match queue with
  | [] => []
  | o :: queue => if decide (o = owner) then queue else o :: removeFromQueue owner queue
  end.

Definition handleChainSyncMsg (done : bool) (now : Z) (r : result (gset string)) (m : Model) : Model * list cmd :=
  match r with
  | Ok active => dispatchProviderChecks done (rebuildProviderList (buildProviderQueue active (on_loader (set_lo_LastSync now) m)))
  | _ => (m, [])
  end.

Definition idle (l : ProviderLoader) : bool := match lo_Queue l with [] => bool_decide (lo_InFlight l = ∅) | _ => false end.
Definition handleProviderCheckedMsg (done : bool) (clock : nat → Z) (c : checked_msg) (m : Model) : Model :=
  let m := on_loader (λ l, set_lo_Queue (removeFromQueue (ck_owner c) (lo_Queue l)) (set_lo_InFlight (lo_InFlight l ∖ {[ck_owner c]}) l)) m in
  if bool_decide (is_Some (ck_err c)) || done then
    if idle (mo_loader m) then on_loader (set_lo_Loading false) m else m
  else
    let m := on_loader (λ l, set_lo_Checked (S (lo_Checked l)) l) m in
    let m := set_mo_cache (match ck_online c with
                           | Some r => ps_MarkProviderOnline (mo_cache m) (ck_owner c) r (clock 0) (clock 1)
                           | None => ps_MarkProviderOffline (mo_cache m) (ck_owner c) (clock 0)
                           end) m in
    let m := rebuildProviderList m in
    if idle (mo_loader m)
    then on_loader (λ l, set_lo_Queue (ps_GetProvidersDueForCheck (mo_cache m) (clock 2)) (set_lo_FirstRun false (set_lo_Loading false l))) m
    else m.

Definition saveCache (m : Model) : Model :=
  match ps_Save (mo_cache m) with Some e => on_loader (set_lo_LastSaveError (Some e)) m | None => m end.

(** *** The detail view *)
Definition enterProviderDetail (m : Model) : Model * list cmd :=
  let idx := Cursor (sc_providerTable (mo_screen m)) in
  match (if (idx <? 0)%Z then None else getFilteredProviders m !! Z.to_nat idx) with
  | None => (m, [])
  | Some provider =>
      let id := ((mo_detailRequestID m + 1) mod 2 ^ 64)%N in
      (set_mo_detailRequestID id (set_mo_detail (MkDetail true (Some provider) [] true None) m), [fetchProviderDetail (pr_HostURI provider) id])
  end.
Definition handleProviderDetailMsg (hostURI : string) (requestID : N) (r : result (list Node)) (m : Model) : Model :=
  match de_Provider (mo_detail m) with
  | Some p =>
      if de_Showing (mo_detail m) && bool_decide (pr_HostURI p = hostURI) && bool_decide (mo_detailRequestID m = requestID) then
        let m := on_detail (set_de_Loading false) m in
        match r with
        | Ok nodes => rebuildNodeTableRows (on_detail (set_de_Nodes nodes) m)
        | Err e => on_detail (set_de_Error (Some e)) m
        | Panic => m
        end
      else m
  | None => m
  end.
Definition leave_detail (m : Model) : Model := on_nodeTable (SetCursor 0) (set_mo_detail (MkDetail false None [] false None) m).

(** ** Oracle, BME and governance *)
Definition prependOracleEvent (typ denom detail : string) (ts : Z) (o : OracleState) : OracleState :=
  set_or_Events (take maxOracleEvents (MkOracleEvent typ denom detail ts :: or_Events o)) o.
Definition on_bus_event (now : Z) (ev : bus_event) (o : OracleState) : OracleState :=
  match ev with
  | EventPriceData denom price source ts =>
      prependOracleEvent "price" denom price now (set_or_Prices (take maxOracleEvents (MkPrice denom price source ts :: or_Prices o)) o)
  | EventAggregatedPrice denom twap doc => prependOracleEvent "aggregated" denom twap now (set_or_Aggregated (<[denom := doc]> (or_Aggregated o)) o)
  | EventPriceStaleWarning denom => prependOracleEvent "stale_warning" denom "" now o
  | EventPriceStaled denom => prependOracleEvent "staled" denom "" now o
  | EventPriceRecovered denom => prependOracleEvent "recovered" denom "" now o
  | EventOther => o
  end.
Definition waitForBusEvent (m : Model) : list cmd := if mo_subscriber m then [waitForBusEvent_] else [].
Definition handleBusEvent (now : Z) (ev : option bus_event) (m : Model) : Model * list cmd :=
  match ev with
  | None => (set_mo_subscriber false m, [])
  | Some ev => let m := on_oracle (on_bus_event now ev) m in (m, waitForBusEvent m)
  end.
Definition handleOracleStateMsg (r : option oracle_answer) (m : Model) : Model * list cmd :=
  (match r with
   | None => m
   | Some a => on_oracle (λ o,
       let o := if bool_decide (oa_Version a = "") then o else set_or_Version (oa_Version a) o in
       let o := set_or_Aggregated (list_to_map (oa_Aggregated a) ∪ or_Aggregated o) o in
       match or_Prices o, oa_Prices a with
       | [], Some prices => set_or_Prices (take maxOracleEvents prices) o
       | _, _ => o
       end) m
   end, [oracleSyncTick]).
Definition handleBMEStateMsg (r : option (option Doc * option Doc)) (m : Model) : Model * list cmd :=
  (match r with
   | None => m
   | Some (status, ledger) => on_oracle (λ o,
       let o := match status with Some _ => set_or_BMEStatus status o | None => o end in
       match ledger with Some _ => set_or_BMELedger ledger o | None => o end) m
   end, [bmeSyncTick]).
Definition handleGovernanceParamsMsg (r : result (gmap string (option ModuleParams))) (m : Model) : Model :=
  match r with Ok params => updateGovParamView (set_mo_governanceParams (Some params) m) | _ => m end.
Definition handleGovernanceProposalsMsg (r : result Doc) (m : Model) : Model :=
  match r with
  | Ok proposals => on_govProposalView (SetContent (RenderProposalList proposals)) (set_mo_governanceProposals (Some proposals) (set_mo_governanceProposalsErr None m))
  | Err e => set_mo_governanceProposalsErr (Some e) m
  | Panic => m
  end.

(** ** Keys *)
Definition vote_snapshot (m : Model) (cursor : Z) (old : list BlockValidatorVote) : list BlockValidatorVote :=
  if (cursor =? 0)%Z && bool_decide (is_Some (ch_state (mo_chain m)))
  then match ch_state (mo_chain m) with Some (st, _) => vote_of <$> st_Validators st | None => old end
  else if (0 <? cursor)%Z then match ch_blockHistory (mo_chain m) !! Z.to_nat (cursor - 1) with Some r => br_Validators r | None => old end
  else old.
Definition collapse_block (s : Screen) : Screen := set_sc_expandedValidators [] (set_sc_expandedScroll 0 (set_sc_expandedBlock (-1) s)).
Definition toggleBlockExpansion (m : Model) : Model :=
  let cursor := Cursor (sc_blockTable (mo_screen m)) in
  resizeComponents (on_screen (λ s,
    if (sc_expandedBlock s =? cursor)%Z then collapse_block s
    else set_sc_expandedValidators (vote_snapshot m cursor (sc_expandedValidators s)) (set_sc_expandedScroll 0 (set_sc_expandedBlock cursor s))) m).
Definition toggleValidatorExpansion (m : Model) : Model :=
  let cursor := Cursor (sc_validatorTable (mo_screen m)) in
  resizeComponents (on_screen (λ s, set_sc_expandedValidator (if (sc_expandedValidator s =? cursor)%Z then -1 else cursor)%Z s) m).
Definition resetScrollForTab (m : Model) : Model := on_blockTable (SetCursor 0) (on_validatorTable (SetCursor 0) m).

Definition quit (m : Model) : Model * list cmd := (saveCache (on_screen (set_sc_quitting true) m), [Quit]).
(** The key q: an embedded monitor goes back to its parent. *)
Definition leave (m : Model) : Model * list cmd := if mo_embedded m then (m, [Back]) else quit m.
Definition one_of (keys : list string) (key : string) : bool := bool_decide (key ∈ keys).

Definition hub_tab (m : Model) : HubTab := sc_hubTab (mo_screen m).
Definition in_tab (t : Tab) (m : Model) : bool := bool_decide (hub_tab m = HubNetwork ∧ sc_activeTab (mo_screen m) = t).
Definition in_provider (m : Model) : bool := bool_decide (hub_tab m = HubProvider).

Definition refresh_key (m : Model) : list cmd :=
  if in_provider m then [syncChain]
  else match sc_activeTab (mo_screen m) with
       | TabGovernance => [fetchGovernanceProposals]
       | TabParameters => [fetchGovernanceParams]
       | _ => []
       end.
Definition digit_key (t : Tab) (m : Model) : Model :=
  match hub_tab m with
  | HubNetwork =>
      let m := on_screen (set_sc_activeTab t) m in
      match t with
      | TabValidators => on_screen (set_sc_expandedValidator (-1)) (on_validatorTable (SetCursor 0) m)
      | _ => m
      end
  | _ => m
  end.
Definition move_module (idx scroll : Z) (m : Model) : Model :=
  updateGovParamView (on_screen (λ s, set_sc_govModuleScroll scroll (set_sc_govModuleIdx idx s)) m).
Definition up_key (key : string) (m : Model) : Model :=
  let s := mo_screen m in
  if in_provider m then on_providerTable (table_Update key) m
  else if in_tab TabGovernance m then on_govProposalView (λ v, SetYOffset (YOffset v - 1) v) m
  else if in_tab TabParameters m then
    if (0 <? sc_govModuleIdx s)%Z
    then let idx := (sc_govModuleIdx s - 1)%Z in move_module idx (if (idx <? sc_govModuleScroll s)%Z then idx else sc_govModuleScroll s) m
    else m
  else if in_tab TabOverview m then
    if (0 <=? sc_expandedBlock s)%Z
    then if (0 <? sc_expandedScroll s)%Z then on_screen (set_sc_expandedScroll (sc_expandedScroll s - 1)) m else m
    else on_blockTable (table_Update key) m
  else if in_tab TabValidators m then
    if (sc_expandedValidator s <? 0)%Z then on_validatorTable (table_Update key) m else m
  else m.
Definition down_key (key : string) (m : Model) : Model :=
  let s := mo_screen m in
  if in_provider m then on_providerTable (table_Update key) m
  else if in_tab TabGovernance m then on_govProposalView (λ v, SetYOffset (YOffset v + 1) v) m
  else if in_tab TabParameters m then
    if (sc_govModuleIdx s <? modules_count - 1)%Z
    then let idx := (sc_govModuleIdx s + 1)%Z in
         move_module idx (if (sc_govModuleScroll s + sc_govModuleHeight s <=? idx)%Z then idx - sc_govModuleHeight s + 1 else sc_govModuleScroll s)%Z m
    else m
  else if in_tab TabOverview m then
    if (0 <=? sc_expandedBlock s)%Z then on_screen (set_sc_expandedScroll (sc_expandedScroll s + 1)) m else on_blockTable (table_Update key) m
  else if in_tab TabValidators m then
    if (sc_expandedValidator s <? 0)%Z then on_validatorTable (table_Update key) m else m
  else m.
Definition home_key (key : string) (m : Model) : Model :=
  if in_provider m then on_providerTable (table_Update key) m
  else if in_tab TabGovernance m then on_govProposalView GotoTop m
  else if in_tab TabParameters m then move_module 0 0 m
  else if in_tab TabOverview m then on_blockTable (SetCursor 0) m
  else if in_tab TabValidators m then on_validatorTable (table_Update key) m
  else m.
Definition end_key (key : string) (m : Model) : Model :=
  if in_provider m then on_providerTable (table_Update key) m
  else if in_tab TabGovernance m then on_govProposalView GotoBottom m
  else if in_tab TabParameters m then
    let idx := (modules_count - 1)%Z in move_module idx (Z.max 0 (idx - sc_govModuleHeight (mo_screen m) + 1)) m
  else if in_tab TabOverview m then on_blockTable (table_Update key) m
  else if in_tab TabValidators m then on_validatorTable (table_Update key) m
  else m.
Definition left_key (m : Model) : Model :=
  let s := mo_screen m in
  if in_provider m then selectPreviousVersion m
  else if in_tab TabOverview m && (0 <=? sc_expandedBlock s)%Z then on_screen collapse_block m
  else if in_tab TabValidators m && (0 <=? sc_expandedValidator s)%Z then on_screen (set_sc_expandedValidator (-1)) m
  else if in_tab TabGovernance m then on_govProposalView (ScrollLeft 4) m
  else if in_tab TabParameters m then on_govParamView (λ v, if (0 <? YOffset v)%Z then SetYOffset (YOffset v - 1) v else v) m
  else m.
Definition right_key (m : Model) : Model :=
  if in_provider m then selectNextVersion m
  else if in_tab TabGovernance m then on_govProposalView (ScrollRight 4) m
  else if in_tab TabParameters m then on_govParamView (λ v, SetYOffset (YOffset v + 1) v) m
  else m.
Definition enter_key (m : Model) : Model * list cmd :=
  if in_provider m then enterProviderDetail m
  else if in_tab TabOverview m then (toggleBlockExpansion m, [])
  else if in_tab TabValidators m then (toggleValidatorExpansion m, [])
  else (m, []).
Definition esc_key (m : Model) : Model * list cmd :=
  let s := mo_screen m in
  if in_tab TabOverview m && (0 <=? sc_expandedBlock s)%Z then (on_screen collapse_block m, [])
  else if in_tab TabValidators m && (0 <=? sc_expandedValidator s)%Z then (on_screen (set_sc_expandedValidator (-1)) m, [])
  else (m, if mo_embedded m then [Back] else []).

(** [handleKeyMsg] outside the detail view. *)
Definition handle_key (key : string) (m : Model) : Model * list cmd :=
  if one_of ["ctrl+c"] key then quit m
  else if one_of ["q"] key then leave m
  else if one_of ["r"] key then (m, refresh_key m)
  else if one_of ["1"] key then (digit_key TabOverview m, [])
  else if one_of ["2"] key then (digit_key TabValidators m, [])
  else if one_of ["3"] key then (digit_key TabGovernance m, [])
  else if one_of ["4"] key then (digit_key TabParameters m, [])
  else if one_of ["tab"] key then (resetScrollForTab (on_screen (λ s, set_sc_hubTab (next_hub (sc_hubTab s)) s) m), [])
  else if one_of ["shift+tab"] key then (resetScrollForTab (on_screen (λ s, set_sc_hubTab (previous_hub (sc_hubTab s)) s) m), [])
  else if one_of ["up"; "k"] key then (up_key key m, [])
  else if one_of ["down"; "j"] key then (down_key key m, [])
  else if one_of ["home"; "g"] key then (home_key key m, [])
  else if one_of ["end"; "G"] key then (end_key key m, [])
  else if one_of ["left"; "h"] key then (left_key m, [])
  else if one_of ["right"; "l"] key then (right_key m, [])
  else if one_of ["enter"] key then enter_key m
  else if one_of ["esc"; "backspace"] key then esc_key m
  else (m, []).
Definition handleDetailViewKeys (key : string) (m : Model) : Model * list cmd :=
  if one_of ["ctrl+c"] key then quit m
  else if one_of ["q"] key then leave m
  else if one_of ["esc"; "backspace"] key then (leave_detail m, [])
  else if one_of ["up"; "k"; "down"; "j"; "home"; "g"; "end"; "G"] key then (on_nodeTable (table_Update key) m, [])
  else if one_of ["tab"; "shift+tab"] key then handle_key key (leave_detail m)
  else (m, []).
Definition handleKeyMsg (key : string) (m : Model) : Model * list cmd :=
  if de_Showing (mo_detail m) then handleDetailViewKeys key m else handle_key key m.

(** ** Update *)
Definition after_tick (done : bool) (cmds : list cmd) : list cmd := if done then [] else cmds.
Definition on_render_tick (clock : nat → Z) (m : Model) : Model * list cmd :=
  let m := match ch_pendingState (mo_chain m) with
           | Some st => on_chain_view (set_ch_pendingState None) (handleStateMsgInPlace (clock 0) st m)
           | None => m
           end in
  (m, match ch_state (mo_chain m) with
      | Some (st, _) => if (ch_lastProposerHeight (mo_chain m) <? st_Height st)%Z then [renderTick; fetchProposer] else [renderTick]
      | None => [renderTick]
      end).
Definition on_snapshot (done : bool) (clock : nat → Z) (snapshot : option (option (State (F := F)))) (m : Model) : Model * list cmd :=
  match snapshot with
  | None => scheduleConsensusReconnect done (on_chain_view (λ c, set_ch_snapshotCh false (set_ch_wsConnected false c)) m)
  | Some None => (m, waitForSnapshot m)
  | Some (Some st) =>
      let m := match ch_pendingState (mo_chain m) with
               | Some pending => if (st_Height pending <? st_Height st)%Z then handleStateMsgInPlace (clock 0) pending m else m
               | None => m
               end in
      let m := on_chain_view (set_ch_pendingState (Some st)) m in
      (m, waitForSnapshot m)
  end.
Definition Update (done : bool) (clock : nat → Z) (message : msg) (m : Model) : Model * list cmd :=
  match message with
  | KeyPressMsg key => handleKeyMsg key m
  | WindowSizeMsg width height => (resizeComponents (on_screen (λ s, set_sc_height height (set_sc_width width s)) m), [])
  | renderTickMsg => on_render_tick clock m
  | wsConnectedMsg =>
      let m := on_chain_view (λ c, set_ch_state (option_map (λ s, (s.1, None)) (ch_state c)) (set_ch_retryAttempt 0 (set_ch_wsConnected true (set_ch_snapshotCh true c)))) m in
      (m, waitForSnapshot m)
  | consensusSnapshotMsg snapshot => on_snapshot done clock snapshot m
  | consensusReconnectMsg => (m, after_tick done [connectWebSocket])
  | providerCheckTickMsg => if done then (m, []) else let '(m, cmds) := dispatchProviderChecks done m in (m, cmds ++ [providerCheckTick])
  | chainSyncTickMsg => (m, after_tick done [syncChain; chainSyncTick])
  | cacheSaveTickMsg => if done then (m, []) else (saveCache m, [cacheSaveTick])
  | governanceProposalsTickMsg => (m, after_tick done [fetchGovernanceProposals; governanceProposalSyncTick])
  | governanceParamsTickMsg => (m, after_tick done [fetchGovernanceParams; governanceSyncTick])
  | stateErrMsg err canceled => handleStateErr done err canceled m
  | monikersMsg r => (match r with Ok monikers => rebuildValidatorTableRows (on_chain_view (set_ch_monikers monikers) m) | _ => m end, [])
  | initialSigningMsg r =>
      (match r with
       | Ok (signers, validators) => if bool_decide (signers = ∅) then m else on_chain_view (seedSigningHistory signers validators) m
       | _ => m
       end, [])
  | proposerMsg r =>
      (match r with
       | Ok (height, index, addr) =>
           on_chain_view (λ c, applyProposerToState (set_ch_lastProposerHeight height (set_ch_knownProposerAddr addr (set_ch_knownProposerIndex index c)))) m
       | _ => m
       end, [])
  | chainSyncMsg r => handleChainSyncMsg done (clock 0) r m
  | providerCheckedMsg c => (handleProviderCheckedMsg done clock c m, [])
  | providerDetailMsg hostURI requestID r => (handleProviderDetailMsg hostURI requestID r m, [])
  | governanceProposalsMsg r => (handleGovernanceProposalsMsg r m, [])
  | governanceParamsMsg r => (handleGovernanceParamsMsg r m, [])
  | oracleStateMsg r => handleOracleStateMsg r m
  | bmeStateMsg r => handleBMEStateMsg r m
  | busEventMsg ev => handleBusEvent (clock 0) ev m
  end.

(** ** The start *)
Definition initial_hub (dashboard : string) : HubTab :=
  if bool_decide (dashboard = "provider") then HubProvider
  else if bool_decide (dashboard ∈ ["oracle"; "bme"; "oracle-bme"]) then HubOracleBME
  else HubNetwork.
(** [subscribed]: there is a bus, and it took the subscription. *)
Definition NewModel (cache : C) (monikers : gmap string string) (embedded : bool) (dashboard : string) (subscribed : bool) : Model :=
  resizeComponents (MkModel cache embedded
    (MkChain None monikers [] false false 0 ∅ [] None 0 F_zero F_zero 0 0 0 0 false (-1) "")
    (MkScreen 80 24 (initial_hub dashboard) TabOverview (-1) 0 [] (-1) false
      (table_New [4; 36; 14; 12; 12; 18; 4]%Z) (table_New [20; 14; 16; 30]%Z) (table_New [5; 28; 18; 40]%Z) (table_New [14; 8; 8; 9; 6]%Z) 0 0 20 (view_New 80 20) (view_New 60 20))
    (MkList [] [] "" 0) (MkLoader (negb (ps_HasProviders cache)) false 0 0 ∅ [] ∅ 0 None) (MkDetail false None [] false None) 0
    None None None subscribed (MkOracle [] ∅ [] "" None None)).
Definition Init (m : Model) : list cmd :=
  [connectWebSocket; fetchMonikers; fetchInitialSigning; fetchProposer; fetchGovernanceProposals; fetchGovernanceParams; fetchOracleState; fetchBMEState;
   renderTick; governanceProposalSyncTick; governanceSyncTick; loadFromCache_then_syncChain; providerCheckTick; chainSyncTick; cacheSaveTick] ++ waitForBusEvent m.

(** ** Commands that ask providers and the chain

    [ctx_err i] is the error of the context at its [i]-th reading in a command. *)
Definition check_provider (grpc : string → result (list Node)) (rest : string → result (list Node)) (version : string → result string)
    (ctx_err : nat → option error) (m : Model) (owner : string) : checked_msg :=
  let fail e := MkCheckedMsg owner (Some e) None in
  match ctx_err 0 with
  | Some e => fail e
  | None =>
      match ps_GetProvider (mo_cache m) owner with
      | None => MkCheckedMsg owner None None
      | Some p =>
          let version := match version (cp_HostURI p) with Ok v => v | _ => "unknown" end in
          match grpc (cp_HostURI p) with
          | Ok nodes =>
              let '(cpu, mem, gpu, models) := aggregateResourcesGRPC nodes in
              match ctx_err 1 with
              | Some e => fail e
              | None => MkCheckedMsg owner None (Some (MkReport version cpu mem gpu (match models with [] => None | _ => Some models end)))
              end
          | _ =>
              match ctx_err 1 with
              | Some e => fail e
              | None =>
                  match rest (cp_HostURI p) with
                  | Ok nodes =>
                      let '(cpu, mem, gpu) := aggregateResourcesREST nodes in
                      match ctx_err 2 with
                      | Some e => fail e
                      | None => MkCheckedMsg owner None (Some (MkReport version cpu mem gpu None))
                      end
                  | _ => match ctx_err 2 with Some e => fail e | None => MkCheckedMsg owner None None end
                  end
              end
          end
      end
  end.

Definition fetchProviders (seed chain : result (list OnChainProvider)) (ctx_err : option error) (m : Model) : result (list OnChainProvider) :=
  if lo_FirstRun (mo_loader m) && negb (ps_HasProviders (mo_cache m)) then
    match seed with
    | Ok l => Ok l
    | _ => match ctx_err with Some e => Err e | None => chain end
    end
  else chain.
(** The message of a synchronization, and the cache it leaves; [clock] gives the time of
    each provider and of the end. *)
Definition sync_chain (seed chain : result (list OnChainProvider)) (active : result (gset string)) (ctx_err : nat → option error) (clock : nat → Z) (m : Model)
    : C * result (gset string) :=
  let c := mo_cache m in
  match ctx_err 0 with
  | Some e => (c, Err e)
  | None =>
      match fetchProviders seed chain (ctx_err 1) m with
      | Err e => (c, Err e)
      | Panic => (c, Panic)
      | Ok providers =>
          match (match active with Ok a => Ok a | Panic => Panic | Err _ => match ctx_err 2 with Some e => Err e | None => Ok ∅ end end) with
          | Err e => (c, Err e)
          | Panic => (c, Panic)
          | Ok a => match ctx_err 3 with
                    | Some e => (c, Err e)
                    | None => ((ps_SyncWithChain c (imap (λ i p, (clock i, p)) providers) (clock (length providers))).1, Ok a)
                    end
          end
      end
  end.

(** ** Running

    Bubble Tea runs the commands that are pending, in any order, and hands the message
    of each to [Update]. [yields] tells what a command may deliver: a message or none,
    the model with the cache it leaves, and the commands that follow it in a sequence.
    A command of the task group delivers nothing once the group has stopped. *)
Definition is_task (c : cmd) : bool :=
  match c with
  | renderTick | providerCheckTick | chainSyncTick | cacheSaveTick | governanceProposalSyncTick | governanceSyncTick | loadFromCache_then_syncChain | Back | Quit => false
  | _ => true
  end.
Inductive yields (done stopped : bool) (m : Model) : cmd → option msg → Model → list cmd → Prop :=
| task_refused c : stopped = true → is_task c = true → yields done stopped m c None m []
| connected : yields done stopped m connectWebSocket (Some wsConnectedMsg) m []
| connect_failed err canceled : (canceled = true → done = true) → yields done stopped m connectWebSocket (Some (stateErrMsg err canceled)) m []
| snapshot_received snapshot : yields done stopped m waitForSnapshot_ (Some (consensusSnapshotMsg snapshot)) m []
| delay_over delay : yields done stopped m (reconnectAfter delay) (Some consensusReconnectMsg) m []
| delay_cut delay : done = true → yields done stopped m (reconnectAfter delay) None m []
| render_ticked : yields done stopped m renderTick (Some renderTickMsg) m []
| check_ticked : yields done stopped m providerCheckTick (Some providerCheckTickMsg) m []
| sync_ticked : yields done stopped m chainSyncTick (Some chainSyncTickMsg) m []
| save_ticked : yields done stopped m cacheSaveTick (Some cacheSaveTickMsg) m []
| proposals_ticked : yields done stopped m governanceProposalSyncTick (Some governanceProposalsTickMsg) m []
| params_ticked : yields done stopped m governanceSyncTick (Some governanceParamsTickMsg) m []
| oracle_fetched r : yields done stopped m fetchOracleState (Some (oracleStateMsg r)) m []
| oracle_ticked r : yields done stopped m oracleSyncTick (Some (oracleStateMsg r)) m []
| bme_fetched r : yields done stopped m fetchBMEState (Some (bmeStateMsg r)) m []
| bme_ticked r : yields done stopped m bmeSyncTick (Some (bmeStateMsg r)) m []
| bus_received ev : yields done stopped m waitForBusEvent_ (Some (busEventMsg ev)) m []
| monikers_fetched r : yields done stopped m fetchMonikers (Some (monikersMsg r)) m []
| signing_fetched r : yields done stopped m fetchInitialSigning (Some (initialSigningMsg r)) m []
| proposer_fetched r : yields done stopped m fetchProposer (Some (proposerMsg r)) m []
| proposals_fetched r : yields done stopped m fetchGovernanceProposals (Some (governanceProposalsMsg r)) m []
| params_fetched r : yields done stopped m fetchGovernanceParams (Some (governanceParamsMsg r)) m []
| cache_loaded : yields done stopped m loadFromCache_then_syncChain (Some (chainSyncMsg (Ok ∅))) m [syncChain]
| chain_synced seed chain active ctx_err clock cache r : sync_chain seed chain active ctx_err clock m = (cache, r) →
    yields done stopped m syncChain (Some (chainSyncMsg r)) (set_mo_cache cache m) []
| provider_checked owner grpc rest version ctx_err :
    yields done stopped m (checkProvider owner) (Some (providerCheckedMsg (check_provider grpc rest version ctx_err m owner))) m []
| detail_fetched hostURI requestID r : yields done stopped m (fetchProviderDetail hostURI requestID) (Some (providerDetailMsg hostURI requestID r)) m []
| went_back : yields done stopped m Back None m [].

(** The running program: the commands that are pending, whether its context has ended,
    its task group has stopped and its loop is over. *)
Record program : Type := MkProgram { pg_model : Model; pg_pending : list cmd; pg_done : bool; pg_stopped : bool; pg_over : bool }.
Definition start (m : Model) : program := MkProgram m (Init m) false false false.

Inductive program_step : program → program → Prop :=
| deliver p l1 c l2 message m rest clock : pg_over p = false → pg_pending p = l1 ++ c :: l2 →
    yields (pg_done p) (pg_stopped p) (pg_model p) c (Some message) m rest →
    program_step p (MkProgram (Update (pg_done p) clock message m).1 (l1 ++ l2 ++ rest ++ (Update (pg_done p) clock message m).2) (pg_done p) (pg_stopped p) false)
| nothing p l1 c l2 m rest : pg_pending p = l1 ++ c :: l2 → yields (pg_done p) (pg_stopped p) (pg_model p) c None m rest →
    program_step p (MkProgram m (l1 ++ l2 ++ rest) (pg_done p) (pg_stopped p) (pg_over p))
| press p key clock : pg_over p = false →
    program_step p (MkProgram (Update (pg_done p) clock (KeyPressMsg key) (pg_model p)).1 (pg_pending p ++ (Update (pg_done p) clock (KeyPressMsg key) (pg_model p)).2) (pg_done p) (pg_stopped p) false)
| resize p width height clock : pg_over p = false →
    program_step p (MkProgram (Update (pg_done p) clock (WindowSizeMsg width height) (pg_model p)).1 (pg_pending p) (pg_done p) (pg_stopped p) false)
| quit_loop p l1 l2 : pg_pending p = l1 ++ Quit :: l2 → program_step p (MkProgram (pg_model p) (l1 ++ l2) (pg_done p) (pg_stopped p) true)
| cancel p : program_step p (MkProgram (pg_model p) (pg_pending p) true (pg_stopped p) (pg_over p))
| stop p : program_step p (MkProgram (pg_model p) (pg_pending p) (pg_done p) true (pg_over p)).

Inductive running : program → Prop :=
| run_start cache monikers embedded dashboard subscribed : running (start (NewModel cache monikers embedded dashboard subscribed))
| run_step p p' : running p → program_step p p' → running p'.
End model.
