(* ===== verification/MonitorUIProps.v ===== *)
(** * What the running monitor guarantees

    Each background loop of the monitor runs once, provider checks do not overlap and
    are bounded, the histories are bounded and in order; and two things it does not
    guarantee: requests for the proposer are not bounded, and the comparison of versions
    is not an order. *)

From Stdlib Require Import Ascii.
From stdpp Require Import sorting base gmap strings pretty option numbers list.
From S2P Require Import Prelude GoStd GoJson Bolt Context StoreOps Workflow ConfigDoc ActionLog GoText MonitorCache Consensus MonitorUI.

Section props.
Context {C T V F Doc : Type} `{ProviderStore C, Widgets T V, SortSlice, Unordered, Fraction F, Texts F Doc}.
#[local] Abbreviation Model := (Model (C:=C) (T:=T) (V:=V) (F:=F) (Doc:=Doc)).
#[local] Abbreviation msg := (msg (F:=F) (Doc:=Doc)).
#[local] Abbreviation program := (program (C:=C) (T:=T) (V:=V) (F:=F) (Doc:=Doc)).
Implicit Types (m : Model) (message : msg) (p : program).

(** ** What the handlers leave alone

    The connection, the subscription and the checks in flight. *)
Definition conn (c : Chain (F:=F)) : bool * bool := (ch_snapshotCh c, ch_wsConnected c).
Definition core m : bool * bool * bool * gset string := (conn (mo_chain m), mo_subscriber m, lo_InFlight (mo_loader m)).

Lemma conn_applyProposerToState c : conn (applyProposerToState c) = conn c.
Proof. unfold applyProposerToState. destruct (ch_state c) as [[s e]|]; [|done]. by destruct (_ <? _)%Z. Qed.
Lemma conn_set_state x c : conn (set_ch_state x c) = conn c.
Proof. done. Qed.
Lemma conn_track_peaks st c : conn (track_peaks st c) = conn c.
Proof. unfold track_peaks. cbv zeta. by destruct (_ =? _)%Z. Qed.
Lemma core_screen f m : core (on_screen f m) = core m.
Proof. done. Qed.
Lemma core_rebuildProviderTableRows m : core (rebuildProviderTableRows m) = core m.
Proof. done. Qed.
Lemma core_rebuildValidatorTableRows m : core (rebuildValidatorTableRows m) = core m.
Proof. unfold rebuildValidatorTableRows. destruct (ch_state _) as [[st e]|]; [|done]. by destruct (st_Validators st). Qed.
Lemma core_rebuildBlockTableRows m : core (rebuildBlockTableRows m) = core m.
Proof. unfold rebuildBlockTableRows. by destruct (_ ++ _)%list. Qed.
Lemma core_rebuildNodeTableRows m : core (rebuildNodeTableRows m) = core m.
Proof. unfold rebuildNodeTableRows. by destruct (de_Nodes _). Qed.
Lemma core_rebuildProviderList m : core (rebuildProviderList m) = core m.
Proof. done. Qed.
Lemma core_select_version step m : core (select_version step m) = core m.
Proof. unfold select_version. by destruct (pl_Versions _). Qed.
Lemma core_saveCache m : core (saveCache m) = core m.
Proof. unfold saveCache. by destruct (ps_Save _). Qed.
Lemma core_handleStateMsgInPlace now st m : core (handleStateMsgInPlace now st m) = core m.
Proof.
  unfold handleStateMsgInPlace. set (fresh := _ && (_ <? _)%Z). destruct (fresh && _).
  - unfold core. cbn [mo_chain mo_subscriber mo_loader set_mo_chain]. by rewrite conn_applyProposerToState.
  - rewrite core_rebuildBlockTableRows, core_rebuildValidatorTableRows. unfold core. cbn [mo_chain mo_subscriber mo_loader set_mo_chain].
    rewrite conn_applyProposerToState. rewrite conn_set_state, conn_track_peaks. by destruct fresh.
Qed.

Lemma core_handle_key key m : core (handle_key key m).1 = core m.
Proof.
  unfold handle_key.
  repeat match goal with |- context [one_of ?l key] => destruct (one_of l key); [try done|] end; [..|done].
  - unfold quit. cbn [fst]. by rewrite core_saveCache.
  - unfold leave, quit. destruct (mo_embedded m); [done|]. cbn [fst]. by rewrite core_saveCache.
  - unfold digit_key. by destruct (hub_tab m).
  - unfold digit_key. by destruct (hub_tab m).
  - unfold digit_key. by destruct (hub_tab m).
  - unfold digit_key. by destruct (hub_tab m).
  - unfold up_key. by repeat case_match.
  - unfold down_key. by repeat case_match.
  - unfold home_key. by repeat case_match.
  - unfold end_key. by repeat case_match.
  - unfold left_key. repeat case_match; try done. apply core_select_version.
  - unfold right_key. repeat case_match; try done. apply core_select_version.
  - unfold enter_key, enterProviderDetail. by repeat case_match; simplify_eq.
  - unfold esc_key. by repeat case_match.
Qed.
Lemma core_handleKeyMsg key m : core (handleKeyMsg key m).1 = core m.
Proof.
  unfold handleKeyMsg, handleDetailViewKeys. destruct (de_Showing _); [|apply core_handle_key].
  repeat match goal with |- context [one_of ?l key] => destruct (one_of l key); [try done|] end; [..|done].
  - unfold quit. cbn [fst]. by rewrite core_saveCache.
  - unfold leave, quit. destruct (mo_embedded m); [done|]. cbn [fst]. by rewrite core_saveCache.
  - by rewrite core_handle_key.
Qed.

Lemma core_dispatch done m :
  conn (mo_chain (dispatchProviderChecks done m).1) = conn (mo_chain m) ∧ mo_subscriber (dispatchProviderChecks done m).1 = mo_subscriber m.
Proof.
  unfold dispatchProviderChecks. destruct done; [done|]. cbv zeta. destruct (_ <=? _)%Z; [done|]. by destruct (pick _ _ _).
Qed.
Lemma core_handleChainSyncMsg done now r m :
  conn (mo_chain (handleChainSyncMsg done now r m).1) = conn (mo_chain m) ∧ mo_subscriber (handleChainSyncMsg done now r m).1 = mo_subscriber m.
Proof.
  unfold handleChainSyncMsg. destruct r as [a| |]; [|done..].
  destruct (core_dispatch done (rebuildProviderList (buildProviderQueue a (on_loader (set_lo_LastSync now) m)))) as [-> ->].
  unfold buildProviderQueue. by destruct (_ && _).
Qed.
Lemma core_handleProviderCheckedMsg done clock c m :
  core (handleProviderCheckedMsg done clock c m) = (conn (mo_chain m), mo_subscriber m, lo_InFlight (mo_loader m) ∖ {[ck_owner c]}).
Proof.
  unfold handleProviderCheckedMsg. cbv zeta. destruct (_ || done); [by destruct (idle _)|].
  by destruct (ck_online c); destruct (idle _).
Qed.
Lemma core_handleProviderDetailMsg h id r m : core (handleProviderDetailMsg h id r m) = core m.
Proof.
  unfold handleProviderDetailMsg. destruct (de_Provider _); [|done]. destruct (_ && _ && _); [|done]. destruct r; [|done..]. by rewrite core_rebuildNodeTableRows.
Qed.
Lemma core_schedule done m : core (scheduleConsensusReconnect done m).1 = core m.
Proof. unfold scheduleConsensusReconnect. by destruct done. Qed.
Lemma core_handleStateErr done err canceled m : core (handleStateErr done err canceled m).1 = core m.
Proof. unfold handleStateErr. destruct canceled; [done|]. by rewrite core_schedule. Qed.
Lemma core_on_render_tick clock m : core (on_render_tick clock m).1 = core m.
Proof. unfold on_render_tick. destruct (ch_pendingState _); [|done]. apply (core_handleStateMsgInPlace (clock 0)). Qed.
Lemma core_on_snapshot done clock st m : core (on_snapshot done clock (Some st) m).1 = core m.
Proof.
  unfold on_snapshot. destruct st as [st|]; [|done]. destruct (ch_pendingState _) as [pd|]; [|done].
  destruct (_ <? _)%Z; [|done]. apply (core_handleStateMsgInPlace (clock 0)).
Qed.

(** The messages that change the core. *)
Definition moves_core message : bool :=
  match message with
  | wsConnectedMsg | consensusSnapshotMsg None | busEventMsg None | providerCheckedMsg _ | providerCheckTickMsg | chainSyncMsg _ => true
  | _ => false
  end.
Lemma Update_core done clock message m : moves_core message = false → core (Update done clock message m).1 = core m.
Proof.
  destruct message; try done; intros Hm; cbn [Update].
  - apply core_handleKeyMsg.
  - apply core_on_render_tick.
  - destruct done; [done|]. apply core_saveCache.
  - by destruct ev.
  - destruct snapshot as [st|]; [|done]. apply core_on_snapshot.
  - apply core_handleStateErr.
  - destruct r; [|done..]. cbn [fst]. by rewrite core_rebuildValidatorTableRows.
  - destruct r as [[sg vs]|?|]; [|done..]. cbn [fst]. case_bool_decide; [done|]. unfold core, conn, on_chain_view, seedSigningHistory. cbn. by case_bool_decide.
  - destruct r as [[[h i] ad]|?|]; [|done..]. cbn [fst]. unfold core, on_chain_view. cbn [mo_chain mo_subscriber mo_loader set_mo_chain]. by rewrite conn_applyProposerToState.
  - apply core_handleProviderDetailMsg.
  - by destruct r.
  - by destruct r.
  - by destruct r.
  - by destruct r as [[]|].
Qed.
Lemma Update_conn done clock message m :
  conn (mo_chain (Update done clock message m).1)
  = match message with wsConnectedMsg => (true, true) | consensusSnapshotMsg None => (false, false) | _ => conn (mo_chain m) end.
Proof.
  destruct (moves_core message) eqn:Hm.
  - destruct message as [| | | | | | | |ev| |[st|]| | | | | |r|c| | | | |]; try done; cbn [Update].
    + destruct done; [done|]. destruct (core_dispatch false m) as [Hc _]. by destruct (dispatchProviderChecks false m).
    + by destruct ev.
    + unfold on_snapshot, scheduleConsensusReconnect. by destruct done.
    + by destruct (core_handleChainSyncMsg done (clock 0) r m).
    + exact (f_equal (λ x, x.1.1) (core_handleProviderCheckedMsg done clock c m)).
  - pose proof (Update_core done clock message m Hm) as Hc. apply (f_equal (λ x, x.1.1)) in Hc. cbn [core fst] in Hc. rewrite Hc.
    by destruct message as [| | | | | | | | | |[st|]| | | | | | | | | | | |].
Qed.
Lemma Update_subscriber done clock message m :
  mo_subscriber (Update done clock message m).1 = match message with busEventMsg None => false | _ => mo_subscriber m end.
Proof.
  destruct (moves_core message) eqn:Hm.
  - destruct message as [| | | | | | | |[ev|]| |[st|]| | | | | |r|c| | | | |]; try done; cbn [Update].
    + destruct done; [done|]. destruct (core_dispatch false m) as [_ Hc]. by destruct (dispatchProviderChecks false m).
    + unfold on_snapshot, scheduleConsensusReconnect. by destruct done.
    + by destruct (core_handleChainSyncMsg done (clock 0) r m).
    + exact (f_equal (λ x, x.1.2) (core_handleProviderCheckedMsg done clock c m)).
  - pose proof (Update_core done clock message m Hm) as Hc. apply (f_equal (λ x, x.1.2)) in Hc. cbn [core fst snd] in Hc. rewrite Hc.
    by destruct message as [| | | | | | | |[ev|]| | | | | | | | | | | | | |].
Qed.

(** ** Loops *)
Inductive loop : Type := Consensus | Render | Checks | ChainSync | CacheSave | Proposals | Params | Oracle | BME | Bus.
#[local] Instance loop_eq_dec : EqDecision loop. Proof. solve_decision. Defined.
Definition loop_of (c : cmd) : option loop :=
  match c with
  | connectWebSocket | waitForSnapshot_ | reconnectAfter _ => Some Consensus
  | renderTick => Some Render
  | providerCheckTick => Some Checks
  | chainSyncTick => Some ChainSync
  | cacheSaveTick => Some CacheSave
  | governanceProposalSyncTick => Some Proposals
  | governanceSyncTick => Some Params
  | fetchOracleState | oracleSyncTick => Some Oracle
  | fetchBMEState | bmeSyncTick => Some BME
  | waitForBusEvent_ => Some Bus
  | _ => None
  end.
Definition loop_of_msg message : option loop :=
  match message with
  | wsConnectedMsg | consensusSnapshotMsg _ | consensusReconnectMsg | stateErrMsg _ _ => Some Consensus
  | renderTickMsg => Some Render
  | providerCheckTickMsg => Some Checks
  | chainSyncTickMsg => Some ChainSync
  | cacheSaveTickMsg => Some CacheSave
  | governanceProposalsTickMsg => Some Proposals
  | governanceParamsTickMsg => Some Params
  | oracleStateMsg _ => Some Oracle
  | bmeStateMsg _ => Some BME
  | busEventMsg _ => Some Bus
  | _ => None
  end.
Definition count (L : loop) (l : list cmd) : nat := length (filter (λ c, loop_of c = Some L) l).
Definition one (b : bool) : nat := if b then 1 else 0.

Lemma count_app L l k : count L (l ++ k) = count L l + count L k.
Proof. unfold count. by rewrite filter_app, length_app. Qed.
Lemma count_cons L c l : count L (c :: l) = one (bool_decide (loop_of c = Some L)) + count L l.
Proof. unfold count. rewrite filter_cons. case_bool_decide; [by rewrite decide_True|by rewrite decide_False]. Qed.
Lemma count_quiet L l : Forall (λ c, loop_of c = None) l → count L l = 0.
Proof. intros Hl. induction Hl as [|c l Hc _ IH]; [done|]. rewrite count_cons, IH, Hc. done. Qed.

(** The provider a command checks. *)
Definition owner_of (c : cmd) : option string := match c with checkProvider owner => Some owner | _ => None end.
Definition plain (c : cmd) : Prop := loop_of c = None ∧ owner_of c = None.
Lemma keys_plain key m : Forall plain (handleKeyMsg key m).2.
Proof.
  assert (∀ m, Forall plain (quit m).2) as Hq by (intros; by repeat constructor).
  assert (∀ m, Forall plain (leave m).2) as Hl.
  { intros m'. unfold leave. destruct (mo_embedded m'); [by repeat constructor|apply Hq]. }
  assert (∀ m, Forall plain (handle_key key m).2) as Hk.
  { intros m'. unfold handle_key.
    repeat match goal with |- context [one_of ?l key] => destruct (one_of l key); [auto; try by constructor|] end; [..|by constructor].
    - unfold refresh_key. repeat case_match; by repeat constructor.
    - unfold enter_key, enterProviderDetail. repeat case_match; by repeat constructor.
    - unfold esc_key. repeat case_match; by repeat constructor. }
  unfold handleKeyMsg, handleDetailViewKeys. destruct (de_Showing _); [|apply Hk].
  repeat match goal with |- context [one_of ?l key] => destruct (one_of l key); [auto; try by constructor|] end. by constructor.
Qed.
Lemma keys_quiet key m : Forall (λ c, loop_of c = None) (handleKeyMsg key m).2.
Proof. eapply Forall_impl; [apply keys_plain|]. by intros c []. Qed.
Lemma dispatch_quiet done m : Forall (λ c, loop_of c = None) (dispatchProviderChecks done m).2.
Proof.
  unfold dispatchProviderChecks. destruct done; [constructor|]. cbv zeta. destruct (_ <=? _)%Z; [constructor|].
  destruct (pick _ _ _) as [l s]. cbn [snd]. apply Forall_fmap, Forall_true. done.
Qed.

(** A message of a loop leaves one command of that loop among commands of none: always,
    unless the context has ended, the connection or the bus is gone, or connecting was
    cancelled. *)
Definition rearms message m : Prop :=
  match message with
  | consensusSnapshotMsg (Some _) => ch_snapshotCh (mo_chain m) = true
  | stateErrMsg _ canceled => canceled = false
  | busEventMsg None => False
  | busEventMsg (Some _) => mo_subscriber m = true
  | _ => True
  end.
Definition rearmed done message m (cmds : list cmd) : Prop :=
  ∃ pre k post, cmds = pre ++ k ++ post ∧ Forall (λ c, loop_of c = None) pre ∧ Forall (λ c, loop_of c = None) post
    ∧ (k = [] ∨ ∃ c, k = [c] ∧ loop_of c = loop_of_msg message)
    ∧ (done = false → loop_of_msg message ≠ None → rearms message m → k ≠ []).
Lemma rearmed_quiet done message m cmds : loop_of_msg message = None → Forall (λ c, loop_of c = None) cmds → rearmed done message m cmds.
Proof. intros Hn Hq. exists cmds, [], []. rewrite app_nil_r. split_and!; [done..|by left|done]. Qed.
Lemma rearmed_last done message m pre c : Forall (λ c, loop_of c = None) pre → loop_of c = loop_of_msg message → rearmed done message m (pre ++ [c]).
Proof. intros Hq Hc. exists pre, [c], []. split_and!; [done..|right; by exists c|done]. Qed.
Lemma rearmed_first done message m c post : Forall (λ c, loop_of c = None) post → loop_of c = loop_of_msg message → rearmed done message m (c :: post).
Proof. intros Hq Hc. exists [], [c], post. split_and!; [done..|right; by exists c|done]. Qed.
Lemma rearmed_none done message m : (done = false → loop_of_msg message ≠ None → rearms message m → False) → rearmed done message m [].
Proof. intros Hn. exists [], [], []. split_and!; [done..|by left|]. intros; by destruct Hn. Qed.

Lemma rearmed_schedule done message m m' :
  loop_of_msg message = Some Consensus → rearmed done message m (scheduleConsensusReconnect done m').2.
Proof. intros Hl. unfold scheduleConsensusReconnect. destruct done; [by apply rearmed_none|]. cbn [snd]. by apply (rearmed_last _ _ _ []). Qed.

Lemma on_snapshot_cmds done clock st m : (on_snapshot done clock (Some st) m).2 = waitForSnapshot m.
Proof.
  pose proof (core_on_snapshot done clock st m) as Hc. apply (f_equal (λ x, x.1.1.1)) in Hc. cbn [core conn fst] in Hc.
  unfold waitForSnapshot. rewrite <-Hc. by destruct st as [st|].
Qed.

Lemma Update_rearms done clock message m : rearmed done message m (Update done clock message m).2.
Proof.
  destruct message; cbn [Update].
  - apply rearmed_quiet; [done|]. apply keys_quiet.
  - by apply rearmed_quiet.
  - unfold on_render_tick. cbn [snd]. destruct (ch_state _) as [[st e]|]; [destruct (_ <? _)%Z|]; apply rearmed_first; by repeat constructor.
  - destruct done; [by apply rearmed_none|]. pose proof (dispatch_quiet false m) as Hq. destruct (dispatchProviderChecks false m) as [m' cmds].
    by apply rearmed_last.
  - destruct done; [by apply rearmed_none|]. apply (rearmed_last _ _ _ [syncChain]); by repeat constructor.
  - destruct done; [by apply rearmed_none|]. by apply rearmed_first.
  - destruct done; [by apply rearmed_none|]. apply (rearmed_last _ _ _ [fetchGovernanceProposals]); by repeat constructor.
  - destruct done; [by apply rearmed_none|]. apply (rearmed_last _ _ _ [fetchGovernanceParams]); by repeat constructor.
  - destruct ev as [ev|]; [|by apply rearmed_none]. unfold handleBusEvent, waitForBusEvent. cbn [snd mo_subscriber on_oracle set_mo_oracle].
    destruct (mo_subscriber m) eqn:Hs; [by apply rearmed_first|]. apply rearmed_none. cbn. congruence.
  - by apply rearmed_first.
  - destruct snapshot as [st|]; [|by apply rearmed_schedule].
    rewrite on_snapshot_cmds. unfold waitForSnapshot. destruct (ch_snapshotCh (mo_chain m)) eqn:Hs; [by apply rearmed_first|]. apply rearmed_none. cbn. congruence.
  - destruct done; [by apply rearmed_none|]. by apply rearmed_first.
  - unfold handleStateErr. destruct canceled; [by apply rearmed_none|]. by apply rearmed_schedule.
  - by apply rearmed_quiet.
  - by apply rearmed_quiet.
  - by apply rearmed_quiet.
  - apply rearmed_quiet; [done|]. unfold handleChainSyncMsg. destruct r; [|constructor..]. apply dispatch_quiet.
  - by apply rearmed_quiet.
  - by apply rearmed_quiet.
  - by apply rearmed_quiet.
  - by apply rearmed_quiet.
  - by apply rearmed_first.
  - by apply rearmed_first.
Qed.

Lemma rearmed_count done message m cmds L : rearmed done message m cmds →
  count L cmds ≤ one (bool_decide (loop_of_msg message = Some L))
  ∧ (done = false → loop_of_msg message = Some L → rearms message m → count L cmds = 1).
Proof.
  intros (pre & k & post & -> & Hpre & Hpost & Hk & Hne). rewrite !count_app, (count_quiet _ _ Hpre), (count_quiet _ _ Hpost).
  destruct Hk as [->|(c & -> & Hc)].
  - split; [cbn; lia|]. intros Hd HL Hr. by destruct Hne; [|rewrite HL|..].
  - rewrite count_cons, Hc. cbn [count filter list_filter length]. split; [cbn; lia|]. intros _ HL _. rewrite bool_decide_eq_true_2 by done. done.
Qed.
Lemma rearmed_elem done message m cmds c : rearmed done message m cmds → c ∈ cmds → loop_of c = None ∨ loop_of c = loop_of_msg message.
Proof.
  intros (pre & k & post & -> & Hpre & Hpost & Hk & _). rewrite !elem_of_app. rewrite Forall_forall in Hpre, Hpost.
  destruct Hk as [->|(c' & -> & Hc')]; rewrite ?list_elem_of_singleton; intros [Hc|[Hc|Hc]]; subst; auto. by apply elem_of_nil in Hc.
Qed.

(** A command delivers a message of its own loop; only a sequence has a command after
    it, of no loop. *)
Lemma yields_loop done stopped m c message m' rest :
  yields done stopped m c (Some message) m' rest →
  loop_of_msg message = loop_of c ∧ core m' = core m ∧ Forall (λ c, loop_of c = None) rest
  ∧ (∀ err, message = stateErrMsg err true → done = true) ∧ (c = waitForSnapshot_ ↔ ∃ s, message = consensusSnapshotMsg s)
  ∧ (c = waitForBusEvent_ ↔ ∃ ev, message = busEventMsg ev).
Proof.
  intros Hy. remember (Some message) as o eqn:Ho. destruct Hy; simplify_eq; split_and!; try done; try naive_solver; by repeat constructor.
Qed.
Lemma yields_nothing done stopped m c m' rest :
  yields done stopped m c None m' rest → core m' = core m ∧ rest = [] ∧ (loop_of c = None ∨ done = true ∨ stopped = true).
Proof. intros Hy. remember None as o eqn:Ho. destruct Hy; simplify_eq; auto. Qed.
Lemma wait_from done clock message m : waitForSnapshot_ ∈ (Update done clock message m).2 → message = wsConnectedMsg ∨ ∃ st, message = consensusSnapshotMsg (Some st).
Proof.
  intros Hw. destruct (rearmed_elem _ _ _ _ _ (Update_rearms done clock message m) Hw) as [Hn|Hn]; [done|]. cbn in Hn.
  destruct message; try done; cbn [Update] in Hw; auto.
  - destruct snapshot as [st|]; [eauto|]. unfold on_snapshot, scheduleConsensusReconnect in Hw. destruct done; cbn in Hw; set_solver.
  - destruct done; cbn in Hw; set_solver.
  - unfold handleStateErr, scheduleConsensusReconnect in Hw. destruct canceled, done; cbn in Hw; set_solver.
Qed.
Lemma bus_from done clock message m : waitForBusEvent_ ∈ (Update done clock message m).2 → ∃ ev, message = busEventMsg (Some ev).
Proof.
  intros Hw. destruct (rearmed_elem _ _ _ _ _ (Update_rearms done clock message m) Hw) as [Hn|Hn]; [done|]. cbn in Hn.
  destruct message; try done. destruct ev as [ev|]; [eauto|]. cbn in Hw. set_solver.
Qed.

Definition live p : Prop := pg_done p = false ∧ pg_stopped p = false ∧ pg_over p = false.
Record loops_inv p : Prop := {
  li_once L : count L (pg_pending p) ≤ 1;
  li_wait : waitForSnapshot_ ∈ pg_pending p → conn (mo_chain (pg_model p)) = (true, true);
  li_bus : waitForBusEvent_ ∈ pg_pending p → mo_subscriber (pg_model p) = true;
  li_live L : live p → (L = Bus → mo_subscriber (pg_model p) = true) → count L (pg_pending p) = 1;
  li_connected : live p → ch_wsConnected (mo_chain (pg_model p)) = true → waitForSnapshot_ ∈ pg_pending p;
}.

Lemma count_mid L l1 c l2 : count L (l1 ++ c :: l2) = one (bool_decide (loop_of c = Some L)) + count L (l1 ++ l2).
Proof. rewrite !count_app, count_cons. lia. Qed.
Lemma count_elem L c l : c ∈ l → loop_of c = Some L → 1 ≤ count L l.
Proof. intros (l1 & l2 & ->)%list_elem_of_split Hc. rewrite count_mid, Hc, bool_decide_eq_true_2 by done. cbn. lia. Qed.

(** *** One delivery *)
Section deliver.
Context (p : program) (l1 l2 rest : list cmd) (c : cmd) (message : msg) (m : Model) (clock : nat → Z).
Hypothesis (Hinv : loops_inv p) (Hover : pg_over p = false) (Hpend : pg_pending p = l1 ++ c :: l2)
  (Hy : yields (pg_done p) (pg_stopped p) (pg_model p) c (Some message) m rest).
#[local] Abbreviation u := (Update (pg_done p) clock message m).
#[local] Abbreviation pending' := (l1 ++ l2 ++ rest ++ u.2).

Lemma deliver_loop : loop_of_msg message = loop_of c.
Proof. by destruct (yields_loop _ _ _ _ _ _ _ Hy). Qed.
Lemma deliver_conn : conn (mo_chain m) = conn (mo_chain (pg_model p)).
Proof. destruct (yields_loop _ _ _ _ _ _ _ Hy) as (_ & Hc & _). exact (f_equal (λ x, x.1.1) Hc). Qed.
Lemma deliver_subscriber : mo_subscriber m = mo_subscriber (pg_model p).
Proof. destruct (yields_loop _ _ _ _ _ _ _ Hy) as (_ & Hc & _). exact (f_equal (λ x, x.1.2) Hc). Qed.
Lemma deliver_pending c' : c' ∈ l1 ++ l2 → c' ∈ pg_pending p.
Proof. rewrite Hpend. set_solver. Qed.
Lemma deliver_own : c ∈ pg_pending p.
Proof. rewrite Hpend. set_solver. Qed.
Lemma deliver_old L : count L (pg_pending p) = one (bool_decide (loop_of c = Some L)) + count L (l1 ++ l2).
Proof. by rewrite Hpend, count_mid. Qed.
Lemma deliver_count L : count L pending' = count L (l1 ++ l2) + count L u.2.
Proof. destruct (yields_loop _ _ _ _ _ _ _ Hy) as (_ & _ & Hr & _). rewrite !count_app, (count_quiet _ _ Hr). lia. Qed.
Lemma deliver_elem c' : c' ∈ pending' → loop_of c' ≠ None → c' ∈ l1 ++ l2 ∨ c' ∈ u.2.
Proof.
  destruct (yields_loop _ _ _ _ _ _ _ Hy) as (_ & _ & Hr & _). rewrite Forall_forall in Hr. rewrite !elem_of_app. naive_solver.
Qed.
Lemma deliver_elem_iff c' : c' ∈ l1 ++ l2 ∨ c' ∈ u.2 → c' ∈ pending'.
Proof. rewrite !elem_of_app. tauto. Qed.
(** The message of a command is not of a loop that has another command. *)
Lemma deliver_other c' L : c' ∈ l1 ++ l2 → loop_of c' = Some L → loop_of_msg message ≠ Some L.
Proof.
  intros Hin Hl Hm. pose proof (li_once _ Hinv L) as Ho. pose proof (count_elem L c' _ Hin Hl).
  rewrite deliver_old, bool_decide_eq_true_2 in Ho by (by rewrite <-deliver_loop). cbn in Ho. lia.
Qed.
Lemma deliver_wait s : message = consensusSnapshotMsg s → conn (mo_chain m) = (true, true).
Proof.
  intros Hm. destruct (yields_loop _ _ _ _ _ _ _ Hy) as (_ & _ & _ & _ & Hw & _). rewrite deliver_conn. apply (li_wait _ Hinv).
  rewrite <-(proj2 Hw) by eauto. apply deliver_own.
Qed.
Lemma deliver_bus ev : message = busEventMsg ev → mo_subscriber m = true.
Proof.
  intros Hm. destruct (yields_loop _ _ _ _ _ _ _ Hy) as (_ & _ & _ & _ & _ & Hw). rewrite deliver_subscriber. apply (li_bus _ Hinv).
  rewrite <-(proj2 Hw) by eauto. apply deliver_own.
Qed.

Lemma deliver_once L : count L pending' ≤ 1.
Proof.
  rewrite deliver_count. pose proof (li_once _ Hinv L) as Ho. rewrite deliver_old in Ho.
  pose proof (proj1 (rearmed_count _ _ _ _ L (Update_rearms (pg_done p) clock message m))) as Hr. rewrite deliver_loop in Hr. lia.
Qed.
Lemma deliver_li_wait : waitForSnapshot_ ∈ pending' → conn (mo_chain u.1) = (true, true).
Proof.
  intros [Hw|Hw]%deliver_elem; [| |done]; rewrite Update_conn.
  - pose proof (deliver_other _ _ Hw eq_refl) as Hn. rewrite deliver_conn, (li_wait _ Hinv (deliver_pending _ Hw)).
    by destruct message as [| | | | | | | | | |[st|]| | | | | | | | | | | |].
  - destruct (wait_from _ _ _ _ Hw) as [Hm|[st Hm]]; rewrite Hm; [done|]. by eapply deliver_wait.
Qed.
Lemma deliver_li_bus : waitForBusEvent_ ∈ pending' → mo_subscriber u.1 = true.
Proof.
  intros [Hw|Hw]%deliver_elem; [| |done]; rewrite Update_subscriber.
  - pose proof (deliver_other _ _ Hw eq_refl) as Hn. rewrite deliver_subscriber, (li_bus _ Hinv (deliver_pending _ Hw)).
    by destruct message as [| | | | | | | |[ev|]| | | | | | | | | | | | | |].
  - destruct (bus_from _ _ _ _ Hw) as [ev Hm]. rewrite Hm. by eapply deliver_bus.
Qed.
Lemma deliver_rearms : pg_done p = false → (loop_of c = Some Bus → mo_subscriber u.1 = true) → rearms message m.
Proof.
  intros Hd HB. rewrite <-deliver_loop, Update_subscriber in HB. destruct (yields_loop _ _ _ _ _ _ _ Hy) as (_ & _ & _ & Hcancel & _).
  pose proof deliver_bus as Hdb. pose proof deliver_wait as Hdw.
  destruct message as [| | | | | | | |[ev|]| |[st|]| |err canceled| | | | | | | | | |]; try done; cbn.
  - by eapply Hdb.
  - by specialize (HB eq_refl).
  - by injection (Hdw (Some st) eq_refl).
  - destruct canceled; [|done]. specialize (Hcancel err eq_refl). congruence.
Qed.
Lemma deliver_li_live L : live p → (L = Bus → mo_subscriber u.1 = true) → count L pending' = 1.
Proof.
  intros Hlp HB. rewrite deliver_count. pose proof (rearmed_count _ _ _ _ L (Update_rearms (pg_done p) clock message m)) as [Hle Hre].
  rewrite deliver_loop in Hle, Hre. destruct (decide (loop_of c = Some L)) as [Hl|Hl].
  - pose proof (li_once _ Hinv L) as Ho. rewrite deliver_old, bool_decide_eq_true_2 in Ho by done. cbn in Ho.
    rewrite Hre; [lia|apply Hlp|done|]. apply deliver_rearms; [apply Hlp|]. intros Hb. apply HB. congruence.
  - rewrite bool_decide_eq_false_2 in Hle by done. pose proof (li_live _ Hinv L Hlp) as Ho.
    rewrite deliver_old, bool_decide_eq_false_2 in Ho by done. cbn in Ho, Hle. rewrite Ho; [lia|]. intros ->.
    specialize (HB eq_refl). rewrite Update_subscriber in HB. rewrite <-deliver_subscriber.
    by destruct message as [| | | | | | | |[ev|]| | | | | | | | | | | | | |].
Qed.
Lemma deliver_li_connected : live p → ch_wsConnected (mo_chain u.1) = true → waitForSnapshot_ ∈ pending'.
Proof.
  intros Hlp Hws. assert ((conn (mo_chain u.1)).2 = true) as Hcu by done. clear Hws. rewrite Update_conn in Hcu.
  apply deliver_elem_iff. destruct (yields_loop _ _ _ _ _ _ _ Hy) as (_ & _ & _ & _ & Hcw & _).
  assert (c ≠ waitForSnapshot_ → (conn (mo_chain m)).2 = true → waitForSnapshot_ ∈ l1 ++ l2) as Hstay.
  { intros Hne Hm. rewrite deliver_conn in Hm. pose proof (li_connected _ Hinv Hlp Hm) as Hw. rewrite Hpend in Hw. set_solver. }
  pose proof deliver_wait as Hdw. destruct message as [| | | | | | | | | |[st|]| | | | | | | | | | | |]; try (left; apply Hstay; [|exact Hcu]; rewrite Hcw; by intros []).
  - right. cbn. set_solver.
  - right. cbn [Update]. rewrite on_snapshot_cmds. unfold waitForSnapshot. injection (Hdw (Some st) eq_refl) as -> _. set_solver.
  - done.
Qed.
End deliver.

(** The invariant depends on the core, the pending commands of loops, and liveness. *)
Lemma loops_weaken p p' :
  loops_inv p → core (pg_model p') = core (pg_model p) → (∀ L, count L (pg_pending p') ≤ count L (pg_pending p)) →
  (∀ c, loop_of c ≠ None → c ∈ pg_pending p' → c ∈ pg_pending p) →
  (live p' → live p ∧ ∀ c, loop_of c ≠ None → c ∈ pg_pending p → c ∈ pg_pending p') →
  (live p' → ∀ L, count L (pg_pending p') = count L (pg_pending p)) → loops_inv p'.
Proof.
  intros [Ho Hw Hb Hl Hc] Hcore Hle Hin Hlive Hcnt.
  assert (conn (mo_chain (pg_model p')) = conn (mo_chain (pg_model p))) as E1 by exact (f_equal (λ x, x.1.1) Hcore).
  assert (mo_subscriber (pg_model p') = mo_subscriber (pg_model p)) as E2 by exact (f_equal (λ x, x.1.2) Hcore).
  split.
  - intros L. specialize (Ho L). specialize (Hle L). lia.
  - intros Hx. rewrite E1. by apply Hw, Hin.
  - intros Hx. rewrite E2. by apply Hb, Hin.
  - intros L HL HB. rewrite Hcnt by done. apply Hl; [by apply Hlive|]. by rewrite <-E2.
  - intros HL Hws. destruct (Hlive HL) as [HL' Hback]. apply Hback; [done|]. apply Hc; [done|].
    exact (eq_trans (eq_sym (f_equal snd E1)) Hws).
Qed.

Lemma loops_step p p' : loops_inv p → program_step p p' → loops_inv p'.
Proof.
  intros Hinv Hs. destruct Hs as [p l1 c l2 message m rest clock Ho Hp Hy|p l1 c l2 m rest Hp Hy|p key clock Ho|p w h clock Ho|p l1 l2 Hp|p|p].
  - split; cbn [pg_model pg_pending].
    + eapply deliver_once; eauto.
    + eapply deliver_li_wait; eauto.
    + eapply deliver_li_bus; eauto.
    + intros L (Hd & Hst & _). eapply deliver_li_live; [eauto..|]. by split_and!.
    + intros (Hd & Hst & _). eapply deliver_li_connected; [eauto..|]. by split_and!.
  - destruct (yields_nothing _ _ _ _ _ _ Hy) as (Hc & -> & Hl). eapply loops_weaken; [exact Hinv|done|..]; cbn [pg_pending]; rewrite ?Hp, ?app_nil_r.
    + intros L. rewrite count_mid. lia.
    + intros c' _. set_solver.
    + intros (Hd & Hst & Hov). destruct Hl as [Hl|[Hl|Hl]]; [|by rewrite Hl in Hd|by rewrite Hl in Hst]. split; [done|].
      intros c' Hn. rewrite !elem_of_app, elem_of_cons. naive_solver.
    + intros (Hd & Hst & Hov) L. destruct Hl as [Hl|[Hl|Hl]]; [|by rewrite Hl in Hd|by rewrite Hl in Hst]. rewrite count_mid, Hl. done.
  - pose proof (keys_quiet key (pg_model p)) as Hq. pose proof (Forall_forall (λ c, loop_of c = None) (handleKeyMsg key (pg_model p)).2) as Hf.
    eapply loops_weaken; [exact Hinv|by apply Update_core|..]; cbn [pg_pending Update].
    + intros L. rewrite count_app, (count_quiet _ _ Hq). lia.
    + intros c Hn [Hc|Hc]%elem_of_app; [done|]. by destruct Hn; apply Hf.
    + intros (Hd & Hst & _). split; [by split_and!|]. intros c _ Hc. apply elem_of_app. by left.
    + intros _ L. rewrite count_app, (count_quiet _ _ Hq). lia.
  - eapply loops_weaken; [exact Hinv|by apply Update_core|done|done| |done]. intros (Hd & Hst & _). split; [by split_and!|done].
  - eapply loops_weaken; [exact Hinv|done|..]; cbn [pg_pending]; rewrite ?Hp.
    + intros L. rewrite count_mid. lia.
    + intros c' _. set_solver.
    + by intros (_ & _ & ?).
    + by intros (_ & _ & ?).
  - eapply loops_weaken; [exact Hinv|done|done|done|by intros (? & _)..].
  - eapply loops_weaken; [exact Hinv|done|done|done|by intros (_ & ? & _)..].
Qed.
Lemma loops_start cache monikers embedded dashboard subscribed : loops_inv (start (NewModel cache monikers embedded dashboard subscribed)).
Proof.
  set (m0 := NewModel cache monikers embedded dashboard subscribed).
  assert (pg_pending (start m0) = Init m0) as E by done. unfold Init, waitForBusEvent in E.
  assert (mo_subscriber m0 = subscribed) as E0 by done. rewrite E0 in E.
  split; rewrite ?E.
  - intros L. destruct subscribed, L; vm_compute; lia.
  - intros Hw. exfalso. destruct subscribed; cbn in Hw; set_solver.
  - intros Hw. destruct subscribed; [done|]. cbn in Hw. set_solver.
  - intros L _ HB. destruct subscribed, L; try done. by specialize (HB eq_refl).
  - done.
Qed.
Lemma running_loops p : running p → loops_inv p.
Proof. induction 1 as [|p p' _ IH Hs]; [apply loops_start|]. by eapply loops_step. Qed.

(** C16: Every background loop of the monitor runs once. In any state that the running
    program reaches, whatever the commands deliver, in whatever order, and whatever the
    user presses, at most one command of each loop is pending: the consensus stream
    (connecting, waiting for a snapshot, waiting to reconnect), the ticks that render,
    check providers, synchronize with the chain, save the cache and refresh the
    governance views, the oracle and BME queries, and the event bus. And until the
    context ends, the task group stops or the program quits none of them dies: exactly
    one is pending, that of the bus as long as the subscription lasts. A monitor that
    shows itself connected is waiting for the next snapshot, and one that waits has its
    channel. *)
Theorem background_loops_single p (Hrun : running p) :
  (∀ L, count L (pg_pending p) ≤ 1)
  ∧ (live p → ∀ L, (L = Bus → mo_subscriber (pg_model p) = true) → count L (pg_pending p) = 1)
  ∧ (live p → ch_wsConnected (mo_chain (pg_model p)) = true ↔ waitForSnapshot_ ∈ pg_pending p)
  ∧ (waitForSnapshot_ ∈ pg_pending p → ch_snapshotCh (mo_chain (pg_model p)) = true).
Proof.
  destruct (running_loops p Hrun) as [Ho Hw Hb Hl Hc]. split_and!; [done| |..].
  - intros HL L HB. by apply Hl.
  - intros HL. split; [by apply Hc|]. intros Hx%Hw. exact (f_equal snd Hx).
  - intros Hx%Hw. exact (f_equal fst Hx).
Qed.

(** ** Provider checks *)
Lemma pick_spec n inFlight queue picked inFlight' : pick n inFlight queue = (picked, inFlight') →
  NoDup picked ∧ (∀ o, o ∈ picked → o ∉ inFlight ∧ o ∈ queue) ∧ inFlight' = list_to_set picked ∪ inFlight ∧ length picked ≤ n
  ∧ (length picked < n → ∀ o, o ∈ queue → o ∈ inFlight').
Proof.
  revert n inFlight picked inFlight'. induction queue as [|owner queue IH]; intros n inFlight picked inFlight'; cbn [pick].
  - intros [= <- <-]. split_and!; [constructor|set_solver..|cbn; lia|set_solver].
  - destruct n as [|n]; [intros [= <- <-]; split_and!; [constructor|set_solver..|cbn; lia|cbn; lia]|].
    destruct (decide (owner ∈ inFlight)) as [Hi|Hi].
    + intros Hp. destruct (IH _ _ _ _ Hp) as (Hnd & Hin & -> & Hle & Hall). split_and!; [done|set_solver|done|done|set_solver].
    + destruct (pick n _ queue) as [picked0 inFlight0] eqn:Hp. intros [= <- <-]. destruct (IH _ _ _ _ Hp) as (Hnd & Hin & -> & Hle & Hall).
      split_and!; [constructor; [|done]; set_solver|set_solver|set_solver|cbn; lia|].
      intros Hlt o. cbn in Hlt. specialize (Hall ltac:(lia) o). set_solver.
Qed.

Definition owners (l : list cmd) : list string := omap owner_of l.
Lemma owners_app l k : owners (l ++ k) = owners l ++ owners k.
Proof. apply omap_app. Qed.
Lemma owners_plain l : Forall plain l → owners l = [].
Proof. induction 1 as [|c l [_ Hc] _ IH]; [done|]. cbn. by rewrite Hc. Qed.
Lemma owners_checks l : owners (checkProvider <$> l) = l.
Proof. induction l as [|o l IH]; [done|]. cbn. by f_equal. Qed.

(** [cmds] start checks of new providers, which are added to [base]. *)
Definition starts (base : gset string) (cmds : list cmd) (inFlight : gset string) : Prop :=
  NoDup (owners cmds) ∧ (∀ o, o ∈ owners cmds → o ∉ base) ∧ inFlight = list_to_set (owners cmds) ∪ base
  ∧ ((Z.of_nat (size base) ≤ MaxConcurrentChecks)%Z → (Z.of_nat (size inFlight) ≤ MaxConcurrentChecks)%Z).
Lemma starts_none base cmds : owners cmds = [] → starts base cmds base.
Proof. intros E. unfold starts. rewrite E. split_and!; [constructor|set_solver|set_solver|done]. Qed.
Lemma dispatch_starts done m : starts (lo_InFlight (mo_loader m)) (dispatchProviderChecks done m).2 (lo_InFlight (mo_loader (dispatchProviderChecks done m).1)).
Proof.
  unfold dispatchProviderChecks. destruct done; [by apply starts_none|]. cbv zeta. destruct (Z.leb_spec (MaxConcurrentChecks - Z.of_nat (size (lo_InFlight (mo_loader m)))) 0) as [Hle|Hgt]; [by apply starts_none|].
  destruct (pick _ _ _) as [picked inFlight] eqn:Hp. destruct (pick_spec _ _ _ _ _ Hp) as (Hnd & Hin & -> & Hlen & _).
  unfold starts. cbn [fst snd mo_loader on_loader set_mo_loader lo_InFlight set_lo_InFlight]. rewrite owners_checks. split_and!; [done|naive_solver|done|].
  intros Hs. rewrite size_union by set_solver. rewrite size_list_to_set by done. lia.
Qed.

Definition base_of message m : gset string := match message with providerCheckedMsg c => lo_InFlight (mo_loader m) ∖ {[ck_owner c]} | _ => lo_InFlight (mo_loader m) end.
Lemma schedule_owners done m : owners (scheduleConsensusReconnect done m).2 = [].
Proof. unfold scheduleConsensusReconnect. by destruct done. Qed.
Lemma Update_starts done clock message m : starts (base_of message m) (Update done clock message m).2 (lo_InFlight (mo_loader (Update done clock message m).1)).
Proof.
  destruct (moves_core message) eqn:Hmv.
  - destruct message as [| | | | | | | |ev| |[st|]| | | | | |r|c| | | | |]; try done; cbn [Update base_of].
    + destruct done; [by apply starts_none|]. pose proof (dispatch_starts false m) as Hd. destruct (dispatchProviderChecks false m) as [m' cmds].
      cbn [fst snd] in *. unfold starts in *. by rewrite owners_app, app_nil_r.
    + destruct ev; [done|]. by apply starts_none.
    + by apply starts_none.
    + cbn [on_snapshot]. set (m' := on_chain_view _ m).
      assert (lo_InFlight (mo_loader (scheduleConsensusReconnect done m').1) = lo_InFlight (mo_loader m)) as -> by exact (f_equal snd (core_schedule done m')).
      apply starts_none, schedule_owners.
    + unfold handleChainSyncMsg. destruct r as [a| |]; [|by apply starts_none..].
      pose proof (dispatch_starts done (rebuildProviderList (buildProviderQueue a (on_loader (set_lo_LastSync (clock 0)) m)))) as Hd.
      assert (lo_InFlight (mo_loader (rebuildProviderList (buildProviderQueue a (on_loader (set_lo_LastSync (clock 0)) m)))) = lo_InFlight (mo_loader m)) as E.
      { unfold buildProviderQueue. by destruct (_ && _). }
      by rewrite E in Hd.
    + cbn [fst snd].
      assert (lo_InFlight (mo_loader (handleProviderCheckedMsg done clock c m)) = lo_InFlight (mo_loader m) ∖ {[ck_owner c]}) as ->
        by exact (f_equal snd (core_handleProviderCheckedMsg done clock c m)).
      by apply starts_none.
  - assert (base_of message m = lo_InFlight (mo_loader m)) as -> by by destruct message.
    pose proof (f_equal snd (Update_core done clock message m Hmv)) as Hc. cbn [core snd] in Hc. rewrite Hc. apply starts_none. clear Hc.
    destruct message; cbn [Update]; try done.
    + apply owners_plain, keys_plain.
    + unfold on_render_tick. cbn [snd]. by repeat case_match.
    + by destruct done.
    + by destruct done.
    + by destruct done.
    + by destruct done.
    + destruct ev as [ev|]; [|done]. unfold handleBusEvent, waitForBusEvent. cbn [snd]. by case_match.
    + destruct snapshot as [st|]; [|done]. rewrite on_snapshot_cmds. unfold waitForSnapshot. by case_match.
    + by destruct done.
    + unfold handleStateErr. destruct canceled; [done|]. apply schedule_owners.
Qed.

Record checks_inv p : Prop := {
  ci_once : NoDup (owners (pg_pending p));
  ci_known o : o ∈ owners (pg_pending p) → o ∈ lo_InFlight (mo_loader (pg_model p));
  ci_bound : (Z.of_nat (size (lo_InFlight (mo_loader (pg_model p)))) ≤ MaxConcurrentChecks)%Z;
  ci_exact o : pg_stopped p = false → o ∈ lo_InFlight (mo_loader (pg_model p)) → o ∈ owners (pg_pending p);
}.

Lemma yields_owner done stopped m c message m' rest : yields done stopped m c (Some message) m' rest →
  base_of message m' = lo_InFlight (mo_loader m) ∖ list_to_set (option_list (owner_of c)) ∧ owners rest = [].
Proof.
  intros Hy. destruct (yields_loop _ _ _ _ _ _ _ Hy) as (_ & Hc & _). apply (f_equal snd) in Hc. cbn [core snd] in Hc.
  remember (Some message) as o eqn:Ho. destruct Hy; simplify_eq; cbn [base_of owner_of option_list]; rewrite ?Hc; try (split; [set_solver|done]).
  split; [|done]. unfold check_provider. repeat case_match; set_solver.
Qed.
Lemma yields_nothing_owner done stopped m c m' rest : yields done stopped m c None m' rest → owner_of c = None ∨ stopped = true.
Proof. intros Hy. remember None as o eqn:Ho. destruct Hy; simplify_eq; auto. Qed.

Lemma owners_mid l1 c l2 : owners (l1 ++ c :: l2) = owners l1 ++ option_list (owner_of c) ++ owners l2.
Proof. rewrite owners_app. by cbn; destruct (owner_of c). Qed.

(** Commands that start new checks, beside those that go on. *)
Lemma checks_starts (go cmds : list cmd) (base inFlight : gset string) :
  starts base cmds inFlight → NoDup (owners go) → (∀ o, o ∈ owners go → o ∈ base) →
  NoDup (owners (go ++ cmds)) ∧ ∀ o, o ∈ owners (go ++ cmds) → o ∈ inFlight.
Proof.
  intros (Hnd & Hnew & -> & _) Hgo Hin. rewrite owners_app. split; [|set_solver].
  apply NoDup_app. split_and!; [done| |done]. intros o Ho Ho'. by apply (Hnew o), Hin.
Qed.
Lemma checks_step p p' : checks_inv p → program_step p p' → checks_inv p'.
Proof.
  intros [Ho Hk Hb He] Hs. destruct Hs as [p l1 c l2 message m rest clock Hov Hp Hy|p l1 c l2 m rest Hp Hy|p key clock Hov|p w h clock Hov|p l1 l2 Hp|p|p].
  - destruct (yields_owner _ _ _ _ _ _ _ Hy) as [Hbase Hrest]. pose proof (Update_starts (pg_done p) clock message m) as Hst. rewrite Hbase in Hst.
    rewrite Hp, owners_mid in Ho, Hk. setoid_rewrite Hp in He. setoid_rewrite owners_mid in He.
    set (u := Update _ _ _ _) in *. assert (owners (l1 ++ l2 ++ rest) = owners l1 ++ owners l2) as Hgo by (rewrite !owners_app, Hrest, app_nil_r; done).
    apply NoDup_app in Ho as (Hn1 & Hd1 & (Hn2 & Hd2 & Hn3)%NoDup_app).
    assert (l1 ++ l2 ++ rest ++ u.2 = (l1 ++ l2 ++ rest) ++ u.2) as Happ by by rewrite <-!app_assoc.
    destruct (checks_starts (l1 ++ l2 ++ rest) u.2 _ _ Hst) as [Hnd Hin]; rewrite ?Hgo.
    { apply NoDup_app. split_and!; [done|set_solver|done]. }
    { intros o Hoo. rewrite elem_of_difference. split; [set_solver|]. rewrite elem_of_list_to_set. set_solver. }
    split; cbn [pg_model pg_pending pg_stopped]; rewrite ?Happ; [done|done| |].
    + apply Hst. etrans; [|exact Hb]. apply inj_le, subseteq_size. set_solver.
    + intros o Hstp Hoo. destruct Hst as (_ & _ & Hu & _). rewrite Hu in Hoo. rewrite owners_app, Hgo. specialize (He o Hstp). set_solver.
  - pose proof (yields_nothing _ _ _ _ _ _ Hy) as (Hc & -> & _). pose proof (yields_nothing_owner _ _ _ _ _ _ Hy) as Hn.
    assert (lo_InFlight (mo_loader m) = lo_InFlight (mo_loader (pg_model p))) as Hc' by exact (f_equal snd Hc).
    rewrite Hp, owners_mid in Ho, Hk. setoid_rewrite Hp in He. setoid_rewrite owners_mid in He.
    split; cbn [pg_model pg_pending pg_stopped]; rewrite ?Hc', ?app_nil_r, ?owners_app.
    + apply NoDup_app in Ho as (Hn1 & Hd1 & (Hn2 & Hd2 & Hn3)%NoDup_app). apply NoDup_app. split_and!; [done|set_solver|done].
    + set_solver.
    + done.
    + intros o Hstp Hoo. destruct Hn as [Hn|Hn]; [|congruence]. specialize (He o Hstp Hoo). rewrite Hn in He. done.
  - pose proof (f_equal snd (Update_core (pg_done p) clock (KeyPressMsg key) (pg_model p) eq_refl)) as Hc. cbn [core snd] in Hc.
    split; cbn [pg_model pg_pending pg_stopped]; rewrite ?Hc, ?owners_app; cbn [Update]; rewrite ?(owners_plain _ (keys_plain key (pg_model p))), ?app_nil_r; try done.
  - split; cbn [pg_model pg_pending pg_stopped]; done.
  - rewrite Hp, owners_mid in Ho, Hk. setoid_rewrite Hp in He. setoid_rewrite owners_mid in He.
    split; cbn [pg_model pg_pending pg_stopped]; rewrite ?owners_app; try done.
  - split; done.
  - split; [done..|]. done.
Qed.
Lemma running_checks p : running p → checks_inv p.
Proof.
  induction 1 as [cache monikers embedded dashboard subscribed|p p' _ IH Hs]; [|by eapply checks_step].
  set (m0 := NewModel cache monikers embedded dashboard subscribed).
  assert (owners (pg_pending (start m0)) = []) as E by by destruct subscribed.
  split; rewrite ?E; [constructor|set_solver|cbn; rewrite size_empty; done|]. intros o _ Ho. by apply elem_of_empty in Ho.
Qed.

(** C17: Checks of providers do not overlap. In any state that the running monitor
    reaches at most ten providers are marked as being checked; no two checks of one
    provider are pending, and each pending check is of a marked provider; until the
    task group stops every mark belongs to a pending check, so that a provider is never
    left marked without an answer to come. A dispatch starts checks only of providers
    in the queue that are not marked, and leaves none of them out while there is room. *)
Theorem checks_never_overlap p (Hrun : running p) :
  (Z.of_nat (size (lo_InFlight (mo_loader (pg_model p)))) ≤ MaxConcurrentChecks)%Z
  ∧ NoDup (owners (pg_pending p))
  ∧ (∀ o, o ∈ owners (pg_pending p) → o ∈ lo_InFlight (mo_loader (pg_model p)))
  ∧ (pg_stopped p = false → list_to_set (owners (pg_pending p)) = lo_InFlight (mo_loader (pg_model p)))
  ∧ ∀ m' cmds, dispatchProviderChecks false (pg_model p) = (m', cmds) →
      (∀ o, o ∈ owners cmds → o ∈ lo_Queue (mo_loader (pg_model p)) ∧ o ∉ lo_InFlight (mo_loader (pg_model p)))
      ∧ ((Z.of_nat (size (lo_InFlight (mo_loader m'))) < MaxConcurrentChecks)%Z →
         ∀ o, o ∈ lo_Queue (mo_loader (pg_model p)) → o ∈ lo_InFlight (mo_loader m')).
Proof.
  destruct (running_checks p Hrun) as [Ho Hk Hb He]. split_and!; [done..| |].
  - intros Hs. apply set_eq. intros o. rewrite elem_of_list_to_set. split; [apply Hk|by apply He].
  - intros m' cmds. unfold dispatchProviderChecks. cbv zeta. set (busy := lo_InFlight (mo_loader (pg_model p))) in *.
    destruct (Z.leb_spec (MaxConcurrentChecks - Z.of_nat (size busy)) 0) as [Hle|Hgt].
    { intros [= <- <-]. split; [set_solver|]. fold busy. lia. }
    destruct (pick _ _ _) as [picked inFlight] eqn:Hp. destruct (pick_spec _ _ _ _ _ Hp) as (Hnd & Hin & Hf & Hlen & Hall).
    intros [= <- <-]. rewrite owners_checks. split; [naive_solver|]. cbn [mo_loader on_loader set_mo_loader lo_InFlight set_lo_InFlight].
    intros Hlt. apply Hall. rewrite Hf, size_union, size_list_to_set in Hlt by (done || set_solver). lia.
Qed.

(** ** The history of blocks *)

(** The last state delivered for each height, newest first. *)
Definition latest (acc : list (State (F:=F))) (st : State (F:=F)) : list (State (F:=F)) :=
  match acc with
  | s :: acc' => if (st_Height s <? st_Height st)%Z then st :: acc else st :: acc'
  | [] => [st]
  end.
Definition lasts (sts : list (State (F:=F))) : list (State (F:=F)) := foldl latest [] sts.
(** The model after states, each applied at a time. *)
Definition shown (m : Model) (sts : list (Z * State (F:=F))) : Model := foldl (λ m ts, handleStateMsgInPlace ts.1 ts.2 m) m sts.
Definition rising (sts : list (State (F:=F))) : Prop := Forall (λ st, (0 < st_Height st)%Z) sts ∧ StronglySorted Z.le (st_Height <$> sts).

(** A record is of a state: its height and the votes of its validators. *)
Definition record_of (st : State (F:=F)) (r : BlockRecord F) : Prop :=
  br_Height r = st_Height st ∧ br_Validators r = vote_of <$> st_Validators st.

Record follows_states (c : Chain (F:=F)) (acc : list (State (F:=F))) : Prop := {
  fs_state : match acc with
             | [] => ch_peakHeight c = 0%Z
             | st :: _ => ch_peakHeight c = st_Height st ∧ (0 < st_Height st)%Z ∧ ∃ st' e, ch_state c = Some (st', e) ∧ vote_of <$> st_Validators st' = vote_of <$> st_Validators st
             end;
  fs_first : ch_firstHeightSeen c = bool_decide (2 ≤ length acc);
  fs_history : Forall2 record_of (take MaxBlockHistory (removelast (tail acc))) (ch_blockHistory c);
}.

Lemma vote_of_proposer (c : Chain (F:=F)) : ∀ (st : State (F:=F)) e (st' : State (F:=F)), ch_state c = Some (st, e) → vote_of <$> st_Validators st = vote_of <$> st_Validators st' →
  ∃ st'' e', ch_state (applyProposerToState c) = Some (st'', e') ∧ vote_of <$> st_Validators st'' = vote_of <$> st_Validators st'.
Proof.
  intros st e st' Hc Hv. unfold applyProposerToState. rewrite Hc. destruct (_ <? _)%Z; [by eexists _, _|].
  eexists _, _. split; [done|]. rewrite <-Hv. cbn [with_proposer st_Validators].
  apply list_eq. intros i. rewrite !list_lookup_fmap, list_lookup_imap. by destruct (st_Validators st !! i).
Qed.
Lemma chain_of_shown now st m : mo_chain (handleStateMsgInPlace now st m) =
  let c := mo_chain m in
  let new_height := (0 <? ch_peakHeight c)%Z && (ch_peakHeight c <? st_Height st)%Z in
  if new_height && negb (ch_firstHeightSeen c)
  then applyProposerToState (set_ch_state (Some (st, None)) (set_ch_peakHeight (st_Height st) (reset_peaks (set_ch_firstHeightSeen true c))))
  else applyProposerToState (set_ch_state (Some (st, None)) (track_peaks st (if new_height then reset_peaks (record_block now c) else c))).
Proof.
  unfold handleStateMsgInPlace. cbv zeta. destruct (_ && negb _); [done|]. unfold rebuildBlockTableRows, rebuildValidatorTableRows.
  set (m' := set_mo_chain _ m). destruct (ch_state (mo_chain m')) as [[s e]|]; [destruct (st_Validators s)|]; by destruct (_ ++ _)%list.
Qed.
Lemma applyProposer_height (c : Chain (F:=F)) : ch_peakHeight (applyProposerToState c) = ch_peakHeight c.
Proof. unfold applyProposerToState. destruct (ch_state c) as [[s e]|]; [|done]. by destruct (_ <? _)%Z. Qed.
Lemma applyProposer_first (c : Chain (F:=F)) : ch_firstHeightSeen (applyProposerToState c) = ch_firstHeightSeen c.
Proof. unfold applyProposerToState. destruct (ch_state c) as [[s e]|]; [|done]. by destruct (_ <? _)%Z. Qed.
Lemma applyProposer_history (c : Chain (F:=F)) : ch_blockHistory (applyProposerToState c) = ch_blockHistory c.
Proof. unfold applyProposerToState. destruct (ch_state c) as [[s e]|]; [|done]. by destruct (_ <? _)%Z. Qed.
Lemma track_height st (c : Chain (F:=F)) : ch_peakHeight (track_peaks st c) = st_Height st.
Proof. unfold track_peaks. cbv zeta. by destruct (_ =? _)%Z. Qed.
Lemma track_first st (c : Chain (F:=F)) : ch_firstHeightSeen (track_peaks st c) = ch_firstHeightSeen c.
Proof. unfold track_peaks. cbv zeta. by destruct (_ =? _)%Z. Qed.
Lemma track_history st (c : Chain (F:=F)) : ch_blockHistory (track_peaks st c) = ch_blockHistory c.
Proof. unfold track_peaks. cbv zeta. by destruct (_ =? _)%Z. Qed.
Lemma recorded_first now (c : Chain (F:=F)) : ch_firstHeightSeen (reset_peaks (record_block now c)) = ch_firstHeightSeen c.
Proof. done. Qed.
Definition first_change (st : State (F:=F)) (c : Chain (F:=F)) : Chain (F:=F) := set_ch_peakHeight (st_Height st) (reset_peaks (set_ch_firstHeightSeen true c)).
Lemma first_change_height st c : ch_peakHeight (first_change st c) = st_Height st.
Proof. done. Qed.
Lemma first_change_first st c : ch_firstHeightSeen (first_change st c) = true.
Proof. done. Qed.
Lemma first_change_history st c : ch_blockHistory (first_change st c) = ch_blockHistory c.
Proof. done. Qed.
Lemma recorded_history now (c : Chain (F:=F)) st e : ch_state c = Some (st, e) → ∃ r, br_Height r = ch_peakHeight c ∧ br_Validators r = vote_of <$> st_Validators st
  ∧ ch_blockHistory (reset_peaks (record_block now c)) = take MaxBlockHistory (r :: ch_blockHistory c).
Proof. intros Hs. unfold record_block. rewrite Hs. eexists. split_and!; [| |done]; done. Qed.

Lemma records_cons st l r (h : list (BlockRecord F)) :
  record_of st r → Forall2 record_of (take MaxBlockHistory l) h → Forall2 record_of (take MaxBlockHistory (st :: l)) (take MaxBlockHistory (r :: h)).
Proof.
  intros Hr Hl. change MaxBlockHistory with (S 49) in *. cbn [take]. constructor; [done|].
  apply (Forall2_take _ _ _ 49) in Hl. by rewrite take_take in Hl.
Qed.
(** The state before the proposer is put on it: what the three cases of a delivery do. *)
Lemma next_chain now st (c : Chain (F:=F)) acc :
  follows_states c acc → (0 < st_Height st)%Z → match acc with s :: _ => (st_Height s ≤ st_Height st)%Z | [] => True end →
  let fresh := (0 <? ch_peakHeight c)%Z && (ch_peakHeight c <? st_Height st)%Z in
  let c' := if fresh && negb (ch_firstHeightSeen c) then first_change st c
            else track_peaks st (if fresh then reset_peaks (record_block now c) else c) in
  ch_peakHeight c' = st_Height st ∧ ch_firstHeightSeen c' = bool_decide (2 ≤ length (latest acc st))
  ∧ Forall2 record_of (take MaxBlockHistory (removelast (tail (latest acc st)))) (ch_blockHistory c').
Proof.
  intros [Hs Hf Hh] Hpos Hle. cbv zeta.
  destruct acc as [|s acc]; cbn [latest] in *.
  - rewrite Hs. cbn [Z.ltb Z.compare andb]. by rewrite track_height, track_first, track_history, Hf.
  - destruct Hs as (Hp & Hps & st' & e & Hst & Hv). rewrite Hp, (proj2 (Z.ltb_lt _ _) Hps). cbn [andb].
    destruct (Z.ltb_spec (st_Height s) (st_Height st)) as [Hlt|Hge]; cbn [andb].
    + rewrite Hf. destruct acc as [|s2 acc].
      { rewrite (bool_decide_eq_false_2 (2 ≤ length [s])) by (cbn; lia). cbn [negb]. rewrite first_change_height, first_change_first, first_change_history. done. }
      rewrite bool_decide_eq_true_2 by (cbn; lia). cbn [negb].
      destruct (recorded_history now c _ _ Hst) as (r & Hr1 & Hr2 & Hr3). rewrite track_height, track_first, track_history, recorded_first, Hr3, Hf.
      rewrite !bool_decide_eq_true_2 by (cbn; lia). split_and!; [done..|].
      apply (records_cons s (removelast (s2 :: acc))); [|exact Hh]. split; [by rewrite Hr1|by rewrite Hr2].
    + by rewrite track_height, track_first, track_history, Hf.
Qed.
(** One more state, of the same height or of a higher one. *)
Lemma follows_next now st m acc :
  follows_states (mo_chain m) acc → (0 < st_Height st)%Z → match acc with s :: _ => (st_Height s ≤ st_Height st)%Z | [] => True end →
  follows_states (mo_chain (handleStateMsgInPlace now st m)) (latest acc st).
Proof.
  intros Hfs Hpos Hle. destruct (next_chain now st _ _ Hfs Hpos Hle) as (Hp' & Hf' & Hh'). rewrite chain_of_shown. cbv zeta in *.
  set (c := mo_chain m) in *. set (fresh := (0 <? ch_peakHeight c)%Z && _) in *. set (c' := if fresh && _ then _ else track_peaks _ _) in *.
  assert (∀ X, X = applyProposerToState (set_ch_state (Some (st, None)) c') → follows_states X (latest acc st)) as Hgo;
    [|apply Hgo; subst c'; by destruct (fresh && _)].
  intros X ->.
  split.
  - destruct (latest acc st) as [|s0 l] eqn:Hl; [by destruct acc as [|? ?]; cbn in Hl; [|case_match]|].
    assert (s0 = st) as -> by (destruct acc as [|? ?]; cbn in Hl; [congruence|]; case_match; congruence).
    rewrite applyProposer_height. split; [exact Hp'|split; [done|]]. by eapply vote_of_proposer.
  - rewrite applyProposer_first. exact Hf'.
  - rewrite applyProposer_history. exact Hh'.
Qed.

Lemma lasts_snoc sts st : lasts (sts ++ [st]) = latest (lasts sts) st.
Proof. unfold lasts. by rewrite foldl_app. Qed.
Lemma lasts_head sts st : ∃ acc, lasts (sts ++ [st]) = st :: acc.
Proof. rewrite lasts_snoc. destruct (lasts sts) as [|s acc]; cbn; [by eexists|]. destruct (_ <? _)%Z; by eexists. Qed.
Lemma follows_fresh (cache : C) monikers embedded dashboard subscribed :
  follows_states (mo_chain (NewModel cache monikers embedded dashboard subscribed : Model)) [].
Proof. split; [done|done|]. constructor. Qed.
Lemma follows_shown m sts :
  follows_states (mo_chain m) [] → rising sts.*2 → follows_states (mo_chain (shown m sts)) (lasts sts.*2).
Proof.
  intros Hm. induction sts as [|[now st] sts IH] using rev_ind; [done|]. unfold shown. rewrite foldl_app, fmap_app. cbn [foldl fmap list_fmap fst snd].
  intros [Hpos Hsort]. apply Forall_app in Hpos as [Hpos Hst]. rewrite Forall_singleton in Hst. rewrite lasts_snoc. rewrite fmap_app in Hsort.
  apply follows_next; [apply IH|done|].
  - split; [done|]. by eapply StronglySorted_app_1_l.
  - destruct (lasts sts.*2) as [|s acc] eqn:Hl; [done|]. destruct sts as [|[t s'] sts _] using rev_ind; [by cbn in Hl|].
    rewrite fmap_app in Hl. destruct (lasts_head sts.*2 s') as [acc' Hh]. cbn in Hl. rewrite Hh in Hl. injection Hl as -> _.
    rewrite fmap_app, fmap_app in Hsort. cbn in Hsort.
    eapply (StronglySorted_app_1_elem_of Z.le); [exact Hsort|set_solver..].
Qed.

(** The history of blocks is exact. After any states of positive heights that do
    not decrease, applied to a new monitor, the history holds, newest first, one record
    for each height that was completed, except the first, which was seen from the
    middle: its height, and the votes of every validator in the last state delivered
    for it. At most the fifty newest are kept; the height that is still open is not
    among them. *)
Theorem history_exact (cache : C) monikers embedded dashboard subscribed sts (Hrise : rising sts.*2) :
  Forall2 record_of (take 50 (removelast (tail (lasts sts.*2))))
    (ch_blockHistory (mo_chain (shown (NewModel cache monikers embedded dashboard subscribed) sts))).
Proof. apply (follows_shown _ _ (follows_fresh _ _ _ _ _) Hrise). Qed.

(** ** Reconnecting *)

(** The delay doubles with each attempt from a quarter of a second up to eight. *)
Lemma double_delay_spec n : double_delay n consensusReconnectBaseDelay = Z.min (250 * millisecond * 2 ^ Z.of_nat n) (8000 * millisecond).
Proof.
  assert (∀ n k, (k ≤ 5)%nat → double_delay n (250 * millisecond * 2 ^ Z.of_nat k) = Z.min (250 * millisecond * 2 ^ Z.of_nat (n + k)) (8000 * millisecond)) as Hk.
  { clear n. induction n as [|n IH]; intros k Hk; cbn [double_delay Nat.add].
    - rewrite Z.min_l; [done|]. do 6 (destruct k as [|k]; [vm_compute; congruence|]). lia.
    - destruct (decide (k ≤ 3)) as [Hle|Hgt].
      + rewrite (proj2 (Z.leb_gt _ _)) by (do 4 (destruct k as [|k]; [vm_compute; congruence|]); lia).
        replace (250 * millisecond * 2 ^ Z.of_nat k * 2)%Z with (250 * millisecond * 2 ^ Z.of_nat (S k))%Z by (rewrite Nat2Z.inj_succ, Z.pow_succ_r; lia).
        rewrite IH by lia. by rewrite Nat.add_succ_r.
      + rewrite (proj2 (Z.leb_le _ _)) by (do 6 (destruct k as [|k]; [vm_compute; congruence || lia|]); lia).
        rewrite Z.min_r; [done|]. transitivity (250 * millisecond * 2 ^ 5)%Z; [vm_compute; congruence|]. apply Z.mul_le_mono_nonneg_l; [vm_compute; congruence|]. apply Z.pow_le_mono_r; lia. }
  specialize (Hk n 0 ltac:(lia)). rewrite Nat.add_0_r in Hk. exact Hk.
Qed.

(** ** What is not guaranteed *)

(** While the proposer of a height has not been fetched, every tick asks for it again. *)
Lemma tick_asks p l1 l2 st e : pg_over p = false → pg_pending p = l1 ++ renderTick :: l2 →
  ch_pendingState (mo_chain (pg_model p)) = None → ch_state (mo_chain (pg_model p)) = Some (st, e) → (ch_lastProposerHeight (mo_chain (pg_model p)) < st_Height st)%Z →
  program_step p (MkProgram (pg_model p) (l1 ++ l2 ++ [renderTick; fetchProposer]) (pg_done p) (pg_stopped p) false).
Proof.
  intros Ho Hp Hn Hs Hlt. pose proof (deliver p l1 renderTick l2 renderTickMsg (pg_model p) [] (λ _, 0%Z) Ho Hp (render_ticked _ _ _)) as Hst.
  cbn [Update] in Hst. unfold on_render_tick in Hst. rewrite Hn, Hs, (proj2 (Z.ltb_lt _ _) Hlt) in Hst. exact Hst.
Qed.

Definition asks (c : cmd) : bool := match c with fetchProposer => true | _ => false end.
Definition asked (l : list cmd) : nat := length (List.filter asks l).
Lemma asked_app l k : asked (l ++ k) = asked l + asked k.
Proof. unfold asked. by rewrite List.filter_app, length_app. Qed.

Lemma asked_cons c l : asked (c :: l) = (if asks c then 1 else 0) + asked l.
Proof. unfold asked. cbn. by destruct (asks c). Qed.

(** A program whose proposer is not known yet. *)
Record unknown_proposer p : Prop := {
  up_running : running p; up_live : live p; up_pending : ch_pendingState (mo_chain (pg_model p)) = None;
  up_state : ∃ st e, ch_state (mo_chain (pg_model p)) = Some (st, e) ∧ (ch_lastProposerHeight (mo_chain (pg_model p)) < st_Height st)%Z;
}.
Lemma loop_pending p L : running p → live p → L ≠ Bus → ∃ l1 c l2, pg_pending p = l1 ++ c :: l2 ∧ loop_of c = Some L.
Proof.
  intros Hr Hl HB. pose proof (li_live _ (running_loops p Hr) L Hl ltac:(done)) as Hc. unfold count in Hc.
  destruct (filter _ (pg_pending p)) as [|c l] eqn:Hf; [done|].
  assert (c ∈ filter (λ c, loop_of c = Some L) (pg_pending p)) as [Hc1 Hc2]%list_elem_of_filter by (rewrite Hf; set_solver).
  apply list_elem_of_split in Hc2 as (l1 & l2 & Hp). by exists l1, c, l2.
Qed.
Lemma ask_again p : unknown_proposer p → ∃ p', unknown_proposer p' ∧ asked (pg_pending p') = S (asked (pg_pending p)).
Proof.
  intros [Hr Hl Hn (st & e & Hs & Hlt)]. destruct (loop_pending p Render Hr Hl ltac:(done)) as (l1 & c & l2 & Hp & Hc).
  assert (c = renderTick) as -> by by destruct c. pose proof (tick_asks p l1 l2 st e (proj2 (proj2 Hl)) Hp Hn Hs Hlt) as Hstep.
  eexists. split; [split; cbn [pg_model]|].
  - by eapply run_step.
  - destruct Hl as (? & ? & ?). by split_and!.
  - done.
  - by exists st, e.
  - cbn [pg_pending]. rewrite Hp, !asked_app, !asked_cons. change (asked []) with 0. cbn [asks]. lia.
Qed.

Definition height_one : State (F:=F) := MkState 1 0 0 0 0 "" 0 0 0 0 0 F_zero "" 0 0 F_zero "" [].
Lemma applyProposer_state (c : Chain (F:=F)) st e : ch_state c = Some (st, e) →
  ∃ st', ch_state (applyProposerToState c) = Some (st', e) ∧ st_Height st' = st_Height st.
Proof. intros Hs. unfold applyProposerToState. rewrite Hs. destruct (_ <? _)%Z; [by exists st|]. by eexists. Qed.
Lemma applyProposer_last (c : Chain (F:=F)) : ch_lastProposerHeight (applyProposerToState c) = ch_lastProposerHeight c.
Proof. unfold applyProposerToState. destruct (ch_state c) as [[st e]|]; [|done]. by destruct (_ <? _)%Z. Qed.
Lemma set_state_last v (c : Chain (F:=F)) : ch_lastProposerHeight (set_ch_state v c) = ch_lastProposerHeight c.
Proof. done. Qed.
Lemma track_last st (c : Chain (F:=F)) : ch_lastProposerHeight (track_peaks st c) = ch_lastProposerHeight c.
Proof. unfold track_peaks. cbv zeta. by destruct (_ =? _)%Z. Qed.
Lemma shown_height_one now m : ch_peakHeight (mo_chain m) = 0%Z → ch_lastProposerHeight (mo_chain m) = 0%Z →
  ∃ st e, ch_state (mo_chain (handleStateMsgInPlace now height_one m)) = Some (st, e) ∧ (ch_lastProposerHeight (mo_chain (handleStateMsgInPlace now height_one m)) < st_Height st)%Z.
Proof.
  intros Hp Hl. rewrite chain_of_shown. cbv zeta. rewrite Hp. cbn [Z.ltb Z.compare andb].
  destruct (applyProposer_state (set_ch_state (Some (height_one, None)) (track_peaks height_one (mo_chain m))) height_one None eq_refl) as (st & Hs & Hh).
  exists st, None. rewrite applyProposer_last, set_state_last, track_last, Hl, Hh. done.
Qed.

Lemma tick_shows clock m st : ch_pendingState (mo_chain m) = Some st →
  mo_chain (on_render_tick clock m).1 = set_ch_pendingState None (mo_chain (handleStateMsgInPlace (clock 0) st m)).
Proof. intros Hp. unfold on_render_tick. rewrite Hp. by destruct (ch_state _) as [[? ?]|]. Qed.
Lemma set_pending_state v (c : Chain (F:=F)) : ch_state (set_ch_pendingState v c) = ch_state c ∧ ch_lastProposerHeight (set_ch_pendingState v c) = ch_lastProposerHeight c
  ∧ ch_pendingState (set_ch_pendingState v c) = v.
Proof. done. Qed.
Lemma shown_unknown p : running p → live p → ch_pendingState (mo_chain (pg_model p)) = Some height_one →
  ch_peakHeight (mo_chain (pg_model p)) = 0%Z → ch_lastProposerHeight (mo_chain (pg_model p)) = 0%Z → ∃ p', unknown_proposer p'.
Proof.
  intros Hr Hl Hs Hp Hh. destruct (loop_pending p Render Hr Hl ltac:(done)) as (l1 & c & l2 & Hpe & Hc). assert (c = renderTick) as -> by by destruct c.
  pose proof (deliver p l1 renderTick l2 renderTickMsg (pg_model p) [] (λ _, 0%Z) (proj2 (proj2 Hl)) Hpe (render_ticked _ _ _)) as Hst. cbn [Update] in Hst.
  pose proof (tick_shows (λ _, 0%Z) (pg_model p) height_one Hs) as Ht. set (m := (on_render_tick _ _).1) in *.
  set (ch := mo_chain (handleStateMsgInPlace _ _ _)) in Ht. destruct (set_pending_state None ch) as (Hc1 & Hc2 & Hc3).
  eexists. split; [by eapply run_step|by destruct Hl as (? & ? & ?)|cbn [pg_model]..].
  - by rewrite Ht, Hc3.
  - rewrite Ht, Hc1, Hc2. by apply shown_height_one.
Qed.

Lemma start_unknown (cache : C) : ∃ p, unknown_proposer p.
Proof.
  set (m0 := NewModel cache ∅ false "" false : Model). set (p0 := start m0). assert (running p0) as H0r by apply run_start. assert (live p0) as H0l by done.
  destruct (loop_pending p0 Consensus H0r H0l ltac:(done)) as (l1 & c & l2 & Hp0 & Hc0).
  assert (c = connectWebSocket) as ->.
  { assert (c ∈ pg_pending p0) as Hin by (rewrite Hp0; set_solver). cbn in Hin. set_unfold in Hin. destruct_or? Hin; subst; done. }
  pose proof (deliver p0 l1 connectWebSocket l2 wsConnectedMsg m0 [] (λ _, 0%Z) eq_refl Hp0 (connected _ _ _)) as Hs1.
  set (p1 := MkProgram _ _ _ _ _) in Hs1. assert (running p1) as H1r by by eapply run_step. assert (live p1) as H1l by done.
  assert (waitForSnapshot_ ∈ pg_pending p1) as (k1 & k2 & Hp1)%list_elem_of_split by by apply (li_connected _ (running_loops _ H1r)).
  pose proof (deliver p1 k1 waitForSnapshot_ k2 (consensusSnapshotMsg (Some (Some height_one))) (pg_model p1) [] (λ _, 0%Z) eq_refl Hp1 (snapshot_received _ _ _ _)) as Hs2.
  set (p2 := MkProgram _ _ _ _ _) in Hs2. assert (running p2) as H2r by by eapply run_step. assert (live p2) as H2l by done.
  by apply (shown_unknown p2).
Qed.

End props.

(** The comparison of versions is not an order: each of these is newer than the next,
    and the last is newer than the first. *)
Lemma versions_cycle : CompareVersions "1.10.0" "1.9.0" = 1%Z ∧ CompareVersions "1.9.0" "1.2.x" = 1%Z ∧ CompareVersions "1.2.x" "1.10.0" = 1%Z.
Proof. by vm_compute. Qed.
Lemma versions_examples :
  CompareVersions "v0.6.10" "0.6.9" = 1%Z ∧ CompareVersions "0.6.10-rc2" "0.6.10-rc10" = (-1)%Z ∧ CompareVersions "0.6.10-rc1" "0.6.10" = (-1)%Z ∧ CompareVersions "v1.0" "1.0.0+build" = 0%Z.
Proof. by vm_compute. Qed.

(** ** A small monitor *)
Module MonitorSample.
Definition store : Type := gmap string CachedProvider.
#[export] Instance sample_store : ProviderStore store := {|
  ps_HasProviders c := negb (bool_decide (c = ∅)); ps_GetProvider c o := c !! o; ps_GetAllProviders c := c;
  ps_MarkProviderOnline c o r seen checked := alter (online r seen checked) o c; ps_MarkProviderOffline c o checked := alter (offline checked) o c;
  ps_SyncWithChain c l now := (foldl (λ c tp, <[oc_Owner tp.2 := new_provider tp.1 tp.2]> c) c l, (λ tp, oc_Owner tp.2) <$> l);
  ps_GetProvidersDueForCheck c now := []; ps_GetProvidersByPriority c := (map_to_list c).*1; ps_Save c := None |}.
#[export] Instance sample_widgets : Widgets Z Z := {|
  table_New _ := 0%Z; Columns _ := []; SetColumns _ t := t; SetRows _ t := t; Width _ := 80%Z; SetWidth _ t := t; SetHeight _ t := t; Cursor t := t; SetCursor c _ := c;
  table_Update _ t := t; UpdateViewport t := t; view_New _ _ := 0%Z; SetContent _ v := v; YOffset v := v; SetYOffset y _ := y; GotoTop _ := 0%Z; GotoBottom v := v;
  ScrollLeft _ v := v; ScrollRight _ v := v; view_SetHeight _ v := v; view_SetWidth _ v := v |}.
#[export] Instance sample_sort : SortSlice := λ A _ l, l.
#[export] Instance sample_order : Unordered := {| range_order _ l := l; sort_SliceStable _ _ l := l |}.
#[export] Instance sample_fraction : Fraction N := {| F_zero := 0%N; F_lt := N.ltb |}.
#[export] Instance sample_texts : Texts N string := {|
  lipgloss_Width _ := 0%Z; formatResourceRatio _ _ := ""; formatMemoryRatio _ _ := ""; formatProviderGPU _ := ""; formatNodeGPU _ := "";
  getValidatorDisplayName _ _ := ""; formatPower _ := ""; share _ _ := ""; renderSigningBar _ _ _ _ _ := ""; formatDuration _ := ""; formatNumber _ := ""; percent _ := "";
  RenderModuleParamsFromJSON _ s := s; RenderProposalList s := s; error_text _ := "" |}.
Definition sample_cache : store := {["akash1a" := zero_provider; "akash1b" := zero_provider]}.
Definition sample_model : Model (C:=store) (T:=Z) (V:=Z) (F:=N) (Doc:=string) := NewModel sample_cache ∅ false "provider" true.
Definition sample_start : program (C:=store) (T:=Z) (V:=Z) (F:=N) (Doc:=string) := start sample_model.
Definition loaded : program (C:=store) (T:=Z) (V:=Z) (F:=N) (Doc:=string) :=
  let u := Update false (λ _, 0%Z) (chainSyncMsg (Ok ∅)) sample_model in
  MkProgram u.1 (take 11 (Init sample_model) ++ drop 12 (Init sample_model) ++ [syncChain] ++ u.2) false false false.
Lemma loaded_running : running loaded.
Proof.
  eapply run_step; [apply run_start|].
  apply (deliver sample_start (take 11 (Init sample_model)) loadFromCache_then_syncChain (drop 12 (Init sample_model)) (chainSyncMsg (Ok ∅)) sample_model [syncChain] (λ _, 0%Z) eq_refl eq_refl).
  apply cache_loaded.
Qed.

Lemma background_loops_single_witness : running loaded ∧ ∀ L, count L (pg_pending loaded) = 1.
Proof. split; [apply loaded_running|]. intros L. by apply (background_loops_single loaded loaded_running). Defined.
Lemma checks_never_overlap_witness : running loaded ∧ owners (pg_pending loaded) = ["akash1a"; "akash1b"]
  ∧ list_to_set (owners (pg_pending loaded)) = lo_InFlight (mo_loader (pg_model loaded)).
Proof.
  split; [apply loaded_running|]. split; [by vm_compute|]. destruct (checks_never_overlap loaded loaded_running) as (_ & _ & _ & He & _). by apply He.
Defined.

Definition vote (i : Z) (b : bool) : ValidatorStatus := MkStatus i "" "" 1 b b false.
Definition at_height (h : Z) (b : bool) : State (F:=N) := MkState h 0 0 0 0 "" 0 0 0 0 0 0%N "" 0 0 0%N "" [vote 0 b; vote 1 true].
Definition delivered : list (Z * State (F:=N)) := [(1, at_height 7 true); (2, at_height 8 false); (3, at_height 8 true); (4, at_height 9 false)]%Z.
Lemma delivered_rising : rising delivered.*2.
Proof. split; [repeat constructor|]. repeat constructor; cbn; lia. Qed.
Lemma history_exact_witness : ∃ r, ch_blockHistory (mo_chain (shown sample_model delivered)) = [r] ∧ br_Height r = 8%Z ∧ bv_Precommited <$> br_Validators r = [true; true].
Proof.
  pose proof (history_exact sample_cache ∅ false "provider" true delivered delivered_rising) as Hh.
  apply Forall2_cons_inv_l in Hh as (r & l & [Hr1 Hr2] & Hn & Heq). apply Forall2_nil_inv_l in Hn as ->.
  exists r. split; [exact Heq|]. split; [exact Hr1|]. by rewrite Hr2.
Defined.
End MonitorSample.
