(* ===== verification/ConsensusStream.v ===== *)
(** * The stream of consensus states (internal/monitor/rpc: client.go, websocket.go)

    The monitor follows the votes of a height over a WebSocket: [consensusTracker] adds
    them up, [consumeConsensusConnection] feeds it from one connection and
    [SubscribeConsensusState] reconnects. The node's HTTP endpoints give the set of
    validators of a height, the commit of a block and the names of the validators.

    What a node answers during one call is a function of the URL; a message is the tree
    of its JSON text. Fractions are those of MonitorUI, with [ratio] for the division of
    two integers as floating-point numbers. Loops over pages take fuel, [None] is a loop
    that is still asking. *)

From Stdlib Require Import Ascii.
From stdpp Require Import sorting base gmap strings pretty option numbers list.
From S2P Require Import Prelude GoStd GoJson Bolt Context StoreOps Workflow ConfigDoc ActionLog GoText WorkflowParams Faucet MonitorCache Consensus MonitorUI.

(** ** Reading JSON *)

(** A member that is decoded and not used. *)
Definition checked {A B} (zero : B) (dec : decoder B) : decoder A := λ j a, _ ← dec j zero; Some a.
Definition dec_int32 : decoder Z := λ j z,
  z' ← dec_int64 j z; if ((- 2 ^ 31 <=? z') && (z' <=? 2 ^ 31 - 1))%Z then Some z' else None.
Definition dec_raw : decoder (option json) := λ j _, Some (Some j).

(** [fmt.Sscanf(s, "%d", &n)]: spaces, a sign, digits; what follows is not read. *)
Definition Sscanf_d (s : string) : result Z :=
  let spaces := List.filter (λ r, negb (bool_decide (r = [ascii_of_N 10]))) space_runes in
  let l := trim_left spaces (length (bytes_of s)) (bytes_of s) in
  match l with
  | [] => Err (Sentinel "unexpected EOF")
  | c :: t =>
      if bool_decide (c = ascii_of_N 10) then failf "unexpected newline" []
      else
        let '(sign, rest) := if bool_decide (c = "+"%char ∨ c = "-"%char) then ([c], t) else ([], l) in
        match span is_digit rest with
        | ([], []) => Err (Sentinel "unexpected EOF")
        | ([], _) => failf "expected integer" []
        | (digits, _) => ParseInt64 (of_bytes (sign ++ digits))
        end
  end.

(** ** Requests *)
Inductive http_answer : Type :=
| NoRequest (err : error)
| NoAnswer (err : error)
| Response (status : N) (body : result bytes).

(** What every query of the client does with an answer. *)
Definition read_answer {A} (what_request what_fetch what_status what_body what_parse : string) (dec : decoder A) (zero : A) (answer : http_answer) : result A :=
  match answer with
  | NoRequest err => Err (Wrapf what_request [] err)
  | NoAnswer err => Err (Wrapf what_fetch [] err)
  | Response status body =>
      if negb (status =? 200)%N then failf what_status [FormatUint status]
      else
        body ← map_err (Wrapf what_body []) body;
        map_err (Wrapf what_parse []) (Unmarshal dec body zero)
  end.

(** ** The set of validators *)
Definition set_va_Address v (r : Validator) : Validator := MkValidator v (va_PubKey r) (va_VotingPower r).
Definition set_va_PubKey v (r : Validator) : Validator := MkValidator (va_Address r) v (va_VotingPower r).
Definition set_va_VotingPower v (r : Validator) : Validator := MkValidator (va_Address r) (va_PubKey r) v.
Definition pub_key_fields : fields string := [("type", checked "" dec_string); ("value", dec_string)].
Definition validator_fields : fields Validator := [
  ("address", field va_Address set_va_Address dec_string);
  ("pub_key", field va_PubKey set_va_PubKey (dec_struct false pub_key_fields));
  ("voting_power", field va_VotingPower set_va_VotingPower dec_string);
  ("proposer_priority", checked "" dec_string)].
Definition dec_validator : decoder Validator := dec_struct false validator_fields.

Record ValidatorsResult : Type := MkValidatorsResult { vr_BlockHeight : string; vr_Validators : option (list Validator); vr_Total : string }.
Definition set_vr_BlockHeight v (r : ValidatorsResult) : ValidatorsResult := MkValidatorsResult v (vr_Validators r) (vr_Total r).
Definition set_vr_Validators v (r : ValidatorsResult) : ValidatorsResult := MkValidatorsResult (vr_BlockHeight r) v (vr_Total r).
Definition set_vr_Total v (r : ValidatorsResult) : ValidatorsResult := MkValidatorsResult (vr_BlockHeight r) (vr_Validators r) v.
Definition validators_result_fields : fields ValidatorsResult := [
  ("block_height", field vr_BlockHeight set_vr_BlockHeight dec_string);
  ("validators", field vr_Validators set_vr_Validators (dec_slice (MkValidator "" "" "") dec_validator));
  ("count", checked "" dec_string);
  ("total", field vr_Total set_vr_Total dec_string)].
Definition dec_validators_response : decoder ValidatorsResult := dec_struct false [
  ("jsonrpc", checked "" dec_string); ("id", checked 0%Z dec_int64); ("result", dec_struct false validators_result_fields)].

Definition trim_slashes (s : string) : string := of_bytes (reverse (span (λ c, bool_decide (c = "/"%char)) (reverse (bytes_of s))).2).

Section client.
Context (rpcEndpoint restEndpoint : string).

(** [url.Values.Encode] sorts by name. *)
Definition validators_url (page perPage height : Z) : string :=
  trim_slashes rpcEndpoint +:+ "/validators?" +:+ (if (0 <? height)%Z then "height=" +:+ FormatInt height +:+ "&" else "")
  +:+ "page=" +:+ FormatInt page +:+ "&per_page=" +:+ FormatInt perPage.

Definition fetchValidatorsPageAtHeight (get : string → http_answer) (page perPage height : Z) : result (list Validator * Z) :=
  r ← read_answer "failed to create request: %w" "failed to fetch validators: %w" "unexpected status code: %d" "failed to read response body: %w"
        "failed to parse validators: %w" dec_validators_response (MkValidatorsResult "" None "") (get (validators_url page perPage height));
  _ ← (if (0 <? height)%Z
       then if bool_decide (ParseInt64 (vr_BlockHeight r) = Ok height) then Ok tt
            else failf "validator response height %q does not match requested height %d" [vr_BlockHeight r; FormatInt height]
       else Ok tt);
  total ← map_err (Wrapf "failed to parse total validators: %w" []) (Sscanf_d (vr_Total r));
  Ok (default [] (vr_Validators r), total).

Fixpoint fetch_pages (get : string → http_answer) (height : Z) (fuel : nat) (page : Z) (all : list Validator) : option (result (list Validator)) :=
  match fuel with
  | O => None
  | S fuel =>
      match fetchValidatorsPageAtHeight get page 100 height with
      | Panic => Some Panic
      | Err e => Some (Err e)
      | Ok (validators, total) =>
          let all := all ++ validators in
          if (total <=? Z.of_nat (length all))%Z || bool_decide (validators = []) then Some (Ok all)
          else fetch_pages get height fuel (page + 1) all
      end
  end.
Definition fetchValidatorsForHeight (fuel : nat) (get : string → http_answer) (height : Z) : option (result (list Validator)) := fetch_pages get height fuel 1 [].

Definition positive_height (height : Z) : option error :=
  if (height <=? 0)%Z then Some (Errorf "validator height must be positive, got %d" [FormatInt height]) else None.
Definition GetValidatorsAtHeight (fuel : nat) (get : string → http_answer) (height : Z) : option (result (list Validator)) :=
  match positive_height height with Some e => Some (Err e) | None => fetchValidatorsForHeight fuel get height end.

(** The validators the client keeps: the last set that was read in full. *)
Record Client : Type := MkClient { cl_validators : list Validator; cl_validatorsLoaded : bool }.
Definition NewClient : Client := MkClient [] false.
Definition keep_validators (r : option (result (list Validator))) (c : Client) : Client * option (result (list Validator)) :=
  match r with Some (Ok vs) => (MkClient vs true, r) | _ => (c, r) end.
Definition GetValidators (fuel : nat) (get : string → http_answer) (c : Client) : Client * option (result (list Validator)) :=
  if cl_validatorsLoaded c then (c, Some (Ok (cl_validators c))) else keep_validators (fetchValidatorsForHeight fuel get 0) c.
Definition refreshValidators (fuel : nat) (get : string → http_answer) (c : Client) : Client * option (result (list Validator)) :=
  keep_validators (fetchValidatorsForHeight fuel get 0) c.
Definition refreshValidatorsAtHeight (fuel : nat) (get : string → http_answer) (height : Z) (c : Client) : Client * option (result (list Validator)) :=
  match positive_height height with
  | Some e => (c, Some (Err e))
  | None => keep_validators (fetchValidatorsForHeight fuel get height) c
  end.

(** ** The commit of a block *)
Record CommitSignature : Type := MkSignature { cs_BlockIDFlag : Z; cs_ValidatorAddress : string }.
Definition dec_signature : decoder CommitSignature := dec_struct false [
  ("block_id_flag", field cs_BlockIDFlag (λ v r, MkSignature v (cs_ValidatorAddress r)) dec_int64);
  ("validator_address", field cs_ValidatorAddress (λ v r, MkSignature (cs_BlockIDFlag r) v) dec_string)].
Definition dec_commit : decoder (string * option (list CommitSignature)) := dec_struct false [
  ("height", field fst (λ v r, (v, r.2)) dec_string);
  ("signatures", field snd (λ v r, (r.1, v)) (dec_slice (MkSignature 0 "") dec_signature))].
Definition dec_signed_header : decoder (string * option (list CommitSignature)) := dec_struct false [
  ("header", checked "" (dec_struct false [("height", dec_string)])); ("commit", dec_commit)].
Definition dec_commit_response : decoder (string * option (list CommitSignature)) := dec_struct false [
  ("jsonrpc", checked "" dec_string); ("id", checked 0%Z dec_int64); ("result", dec_struct false [("signed_header", dec_signed_header)])].

Definition signers_of (l : list CommitSignature) : gset string :=
  list_to_set (omap (λ sig, if (cs_BlockIDFlag sig =? 2)%Z && negb (bool_decide (cs_ValidatorAddress sig = "")) then Some (ToUpper (cs_ValidatorAddress sig)) else None) l).
Definition fetchCommit (get : string → http_answer) (height : string) : result (Z * gset string) :=
  r ← read_answer "failed to create commit request: %w" "failed to fetch commit: %w" "commit returned status %d" "failed to read commit response: %w"
        "failed to parse commit: %w" dec_commit_response ("", None)
        (get (rpcEndpoint +:+ "/commit" +:+ (if bool_decide (height = "") then "" else "?height=" +:+ height)));
  Ok (atoi r.1, signers_of (default [] r.2)).
(** The second request is answered by [get']. *)
Definition GetLatestCommit (get get' : string → http_answer) : result (Z * gset string) :=
  '(tipHeight, _) ← fetchCommit get "";
  if (1 <? tipHeight)%Z then fetchCommit get' (FormatInt (tipHeight - 1)) else fetchCommit get' "".

(** ** The names of the validators *)
Record lcd_validator : Type := MkLcdValidator { lv_Moniker : string; lv_Key : string }.
Definition dec_lcd_validator : decoder lcd_validator := dec_struct false [
  ("description", field lv_Moniker (λ v r, MkLcdValidator v (lv_Key r)) (dec_struct false [("moniker", dec_string)]));
  ("consensus_pubkey", field lv_Key (λ v r, MkLcdValidator (lv_Moniker r) v) (dec_struct false [("@type", checked "" dec_string); ("key", dec_string)]))].
Definition dec_lcd_response : decoder (option (list lcd_validator) * string) := dec_struct false [
  ("validators", field fst (λ v r, (v, r.2)) (dec_slice (MkLcdValidator "" "") dec_lcd_validator));
  ("pagination", field snd (λ v r, (r.1, v)) (dec_struct false [("next_key", dec_string); ("total", checked "" dec_string)]))].

Definition monikers_url (nextKey : string) : string :=
  restEndpoint +:+ "/cosmos/staking/v1beta1/validators?pagination.limit=100" +:+ (if bool_decide (nextKey = "") then "" else "&pagination.key=" +:+ QueryEscape nextKey).
Definition add_moniker (m : gmap string string) (v : lcd_validator) : gmap string string :=
  if negb (bool_decide (lv_Key v = "")) && negb (bool_decide (lv_Moniker v = "")) then <[lv_Key v := lv_Moniker v]> m else m.
Definition fetchMonikersPage (get : string → http_answer) (nextKey : string) : result (gmap string string * string) :=
  r ← read_answer "failed to create request: %w" "failed to fetch validators from LCD: %w" "LCD returned status %d" "failed to read LCD response: %w"
        "failed to parse LCD validators: %w" dec_lcd_response (None, "") (get (monikers_url nextKey));
  Ok (foldl add_moniker ∅ (default [] r.1), r.2).
Fixpoint moniker_pages (get : string → http_answer) (fuel : nat) (nextKey : string) (monikers : gmap string string) : option (result (gmap string string)) :=
  match fuel with
  | O => None
  | S fuel =>
      match fetchMonikersPage get nextKey with
      | Panic => Some Panic
      | Err e => Some (Err e)
      | Ok (page, newNextKey) =>
          let monikers := page ∪ monikers in
          if bool_decide (newNextKey = "") then Some (Ok monikers) else moniker_pages get fuel newNextKey monikers
      end
  end.
Definition GetValidatorMonikers (fuel : nat) (get : string → http_answer) : option (result (gmap string string)) := moniker_pages get fuel "" ∅.

(** ** Messages of the socket *)
Record ws_error : Type := MkWsError { we_Code : Z; we_Message : string; we_Data : string }.
Definition dec_ws_error : decoder ws_error := dec_struct false [
  ("code", field we_Code (λ v r, MkWsError v (we_Message r) (we_Data r)) dec_int64);
  ("message", field we_Message (λ v r, MkWsError (we_Code r) v (we_Data r)) dec_string);
  ("data", field we_Data (λ v r, MkWsError (we_Code r) (we_Message r) v) dec_string)].
Record consensusWSResponse : Type := MkWsResponse { ws_ID : Z; ws_Result : option json; ws_Error : option ws_error }.
Definition dec_ws_response : decoder consensusWSResponse := dec_struct false [
  ("id", field ws_ID (λ v r, MkWsResponse v (ws_Result r) (ws_Error r)) dec_int64);
  ("result", field ws_Result (λ v r, MkWsResponse (ws_ID r) v (ws_Error r)) dec_raw);
  ("error", field ws_Error (λ v r, MkWsResponse (ws_ID r) (ws_Result r) v) (dec_ptr (MkWsError 0 "" "") dec_ws_error))].

(** The query and the data of an event; [None] is a result that is no object. *)
Definition event_fields : fields (string * option json) := [
  ("query", field fst (λ v r, (v, r.2)) dec_string); ("data", field snd (λ v r, (r.1, v)) dec_raw)].
Definition read_event (raw : json) : option (string * option json) := dec_struct false event_fields raw ("", None).

Definition isConsensusSubscriptionAck (result : option json) : bool := match result with Some (JObj []) => true | _ => false end.
Definition isConsensusEventResult (result : option json) : bool :=
  match result ≫= read_event with
  | Some (query, Some data) => negb (bool_decide (query = "")) && match data with JNull => false | _ => true end
  | _ => false
  end.

Definition nonnegative_height (height : string) : option Z :=
  match ParseInt64 height with Ok h => if (h <? 0)%Z then None else Some h | _ => None end.
Definition height_of_vote : decoder string := dec_struct false [("value", dec_struct false [("Vote", dec_struct false [("height", dec_string)])])].
Definition height_of_step : decoder string := dec_struct false [("value", dec_struct false [("height", dec_string)])].
Definition consensusMessageHeight (raw : json) : option Z :=
  match read_event raw with
  | Some (query, Some data) =>
      height ← (if strings_Contains query "Vote" then height_of_vote data ""
                else if strings_Contains query "NewRoundStep" then height_of_step data "" else None);
      nonnegative_height height
  | _ => None
  end.

(** ** The tracker *)
Context {F : Type} `{Fraction F} (ratio : Z → Z → F).

Record consensusTracker : Type := MkTracker {
  tr_validators : list Validator; tr_validatorPowers : gmap Z Z; tr_totalPower : Z;
  tr_initialized : bool; tr_height : Z; tr_round : Z; tr_step : Z; tr_startTime : Z;
  tr_proposerAddr : string; tr_proposerIndex : Z;
  tr_prevoted : gset Z; tr_precommited : gset Z; tr_pvPower : Z; tr_pcPower : Z;
}.
Definition power (v : Validator) : Z := atoi (va_VotingPower v).
Definition newConsensusTracker (validators : list Validator) : consensusTracker :=
  MkTracker validators (list_to_map (imap (λ i v, (Z.of_nat i, power v)) validators)) (foldl (λ total v, wrap_i64 (total + power v)) 0%Z validators)
    false 0 0 0 0 "" (-1) ∅ ∅ 0 0.

Definition resetForRound (now : Z) (height round : Z) (t : consensusTracker) : consensusTracker :=
  MkTracker (tr_validators t) (tr_validatorPowers t) (tr_totalPower t) true height round 0 now (tr_proposerAddr t) (tr_proposerIndex t) ∅ ∅ 0 0.
Definition advanceTo (now : Z) (height round : Z) (t : consensusTracker) : option consensusTracker :=
  if tr_initialized t && ((height <? tr_height t) || (height =? tr_height t) && (round <? tr_round t))%Z then None
  else if tr_initialized t && ((height =? tr_height t) && (round =? tr_round t))%Z then Some t
  else Some (resetForRound now height round t).

Definition buildState (now : Z) (t : consensusTracker) : State (F := F) :=
  let percent p := if (0 <? tr_totalPower t)%Z then ratio p (tr_totalPower t) else F_zero in
  MkState (tr_height t) (tr_round t) (tr_step t) (tr_startTime t) (time_Sub now (tr_startTime t)) (tr_proposerAddr t) (tr_proposerIndex t)
    (length (tr_validators t)) (tr_totalPower t)
    (size (tr_prevoted t)) (tr_pvPower t) (percent (tr_pvPower t))
    (of_bytes (imap (λ i _, if bool_decide (Z.of_nat i ∈ tr_prevoted t) then "x"%char else "_"%char) (tr_validators t)))
    (size (tr_precommited t)) (tr_pcPower t) (percent (tr_pcPower t)) ""
    (imap (λ i v, MkStatus (Z.of_nat i) (va_Address v) (va_PubKey v) (power v) (bool_decide (Z.of_nat i ∈ tr_prevoted t)) (bool_decide (Z.of_nat i ∈ tr_precommited t))
                    (Z.of_nat i =? tr_proposerIndex t)%Z) (tr_validators t)).

Record vote : Type := MkVote { vt_Type : Z; vt_Height : string; vt_Round : Z; vt_ValidatorIndex : Z }.
Definition vote_fields : fields vote := [
  ("type", field vt_Type (λ v r, MkVote v (vt_Height r) (vt_Round r) (vt_ValidatorIndex r)) dec_int64);
  ("height", field vt_Height (λ v r, MkVote (vt_Type r) v (vt_Round r) (vt_ValidatorIndex r)) dec_string);
  ("round", field vt_Round (λ v r, MkVote (vt_Type r) (vt_Height r) v (vt_ValidatorIndex r)) dec_int64);
  ("validator_index", field vt_ValidatorIndex (λ v r, MkVote (vt_Type r) (vt_Height r) (vt_Round r) v) dec_int64)].
Definition dec_vote_event : decoder vote := dec_struct false [
  ("type", checked "" dec_string); ("value", dec_struct false [("Vote", dec_struct false vote_fields)])].
(** A vote that can be counted: its kind, height, round and validator. *)
Definition read_vote (validators : nat) (data : json) : option (Z * Z * Z * Z) :=
  vote ← dec_vote_event data (MkVote 0 "" 0 0);
  height ← nonnegative_height (vt_Height vote);
  if (vt_Round vote <? 0)%Z || (vt_ValidatorIndex vote <? 0)%Z || (Z.of_nat validators <=? vt_ValidatorIndex vote)%Z
     || negb ((vt_Type vote =? 1)%Z || (vt_Type vote =? 2)%Z) then None
  else Some (vt_Type vote, height, vt_Round vote, vt_ValidatorIndex vote).
Definition count_vote (type index : Z) (t : consensusTracker) : consensusTracker :=
  let p := default 0%Z (tr_validatorPowers t !! index) in
  if (type =? 1)%Z then
    if bool_decide (index ∈ tr_prevoted t) then t
    else MkTracker (tr_validators t) (tr_validatorPowers t) (tr_totalPower t) (tr_initialized t) (tr_height t) (tr_round t) (tr_step t) (tr_startTime t)
           (tr_proposerAddr t) (tr_proposerIndex t) ({[index]} ∪ tr_prevoted t) (tr_precommited t) (wrap_i64 (tr_pvPower t + p)) (tr_pcPower t)
  else
    if bool_decide (index ∈ tr_precommited t) then t
    else MkTracker (tr_validators t) (tr_validatorPowers t) (tr_totalPower t) (tr_initialized t) (tr_height t) (tr_round t) (tr_step t) (tr_startTime t)
           (tr_proposerAddr t) (tr_proposerIndex t) (tr_prevoted t) ({[index]} ∪ tr_precommited t) (tr_pvPower t) (wrap_i64 (tr_pcPower t + p)).
(** [start] is the time a new round is entered, [now] the time the state is built. *)
Definition handleVoteEvent (start now : Z) (data : json) (t : consensusTracker) : option (consensusTracker * State (F := F)) :=
  '(type, height, round, index) ← read_vote (length (tr_validators t)) data;
  t ← advanceTo start height round t;
  let t := count_vote type index t in
  Some (t, buildState now t).

Record round_step : Type := MkStep { rp_Height : string; rp_Round : Z; rp_Step : Z }.
Definition step_fields : fields round_step := [
  ("height", field rp_Height (λ v r, MkStep v (rp_Round r) (rp_Step r)) dec_string);
  ("round", field rp_Round (λ v r, MkStep (rp_Height r) v (rp_Step r)) dec_int32);
  ("step", field rp_Step (λ v r, MkStep (rp_Height r) (rp_Round r) v) dec_int32)].
Definition dec_step_event : decoder round_step := dec_struct false [
  ("type", checked "" dec_string); ("value", dec_struct false step_fields)].
Definition read_step (data : json) : option (Z * Z * Z) :=
  s ← dec_step_event data (MkStep "" 0 0);
  height ← nonnegative_height (rp_Height s);
  if (rp_Round s <? 0)%Z || (rp_Step s <? 0)%Z then None else Some (height, rp_Round s, rp_Step s).
Definition set_tr_step (v : Z) (t : consensusTracker) : consensusTracker :=
  MkTracker (tr_validators t) (tr_validatorPowers t) (tr_totalPower t) (tr_initialized t) (tr_height t) (tr_round t) v (tr_startTime t)
    (tr_proposerAddr t) (tr_proposerIndex t) (tr_prevoted t) (tr_precommited t) (tr_pvPower t) (tr_pcPower t).
Definition handleNewRoundStepEvent (start now : Z) (data : json) (t : consensusTracker) : option (consensusTracker * State (F := F)) :=
  '(height, round, step) ← read_step data;
  if tr_initialized t && ((height =? tr_height t) && (round =? tr_round t) && (step <? tr_step t))%Z then None
  else
    t ← advanceTo start height round t;
    let t := set_tr_step step t in
    Some (t, buildState now t).

(** An object without members as data counts as none, with or without blanks in its
    text: decoding it gives no height. *)
Definition handleMessage (start now : Z) (raw : json) (t : consensusTracker) : option (consensusTracker * State (F := F)) :=
  match read_event raw with
  | Some (query, Some data) =>
      if match data with JObj [] => true | _ => false end then None
      else if strings_Contains query "Vote" then handleVoteEvent start now data t
      else if strings_Contains query "NewRoundStep" then handleNewRoundStepEvent start now data t
      else None
  | _ => None
  end.

(** ** One connection *)

(** What surrounds the handling of one message: the node's answers, the times, and
    whether the context ends while the state is handed over. *)
Record surroundings : Type := MkSurroundings { su_get : string → http_answer; su_start : Z; su_now : Z; su_cancelled : bool }.
Inductive ending : Type :=
| Waiting                        (* for the next message *)
| Asking                         (* for pages of validators *)
| TransportFailed (err : error)  (* consensusTransportError *)
| Failed (err : error)
| Cancelled.                     (* ctx.Err() *)

(** The tracker for a message: a new one for a height that is not known. *)
Definition tracker_for (fuel : nat) (get : string → http_answer) (raw : json) (c : Client) (t : consensusTracker) : Client * (consensusTracker + ending) :=
  match consensusMessageHeight raw with
  | Some height =>
      if negb (tr_initialized t) || (tr_height t <? height)%Z then
        match refreshValidatorsAtHeight fuel get height c with
        | (c, Some (Ok validators)) => (c, inl (newConsensusTracker validators))
        | (c, Some (Err err)) => (c, inr (Failed err))
        | (c, _) => (c, inr Asking)
        end
      else (c, inl t)
  | None => (c, inl t)
  end.
Fixpoint consume (fuel : nat) (its : list surroundings) (buffered : list consensusWSResponse) (reads : list (result consensusWSResponse)) (c : Client) (t : consensusTracker)
  : Client * list (State (F := F)) * ending :=
  match its with
  | [] => (c, [], Waiting)
  | s :: its =>
      let handle resp buffered reads :=
        match ws_Error resp with
        | Some e => (c, [], Failed (Errorf "consensus subscription failed: RPC error %d: %s" [FormatInt (we_Code e); we_Message e]))
        | None =>
            match ws_Result resp with
            | None => consume fuel its buffered reads c t
            | Some raw =>
                match tracker_for fuel (su_get s) raw c t with
                | (c, inr e) => (c, [], e)
                | (c, inl t) =>
                    match handleMessage (su_start s) (su_now s) raw t with
                    | None => consume fuel its buffered reads c t
                    | Some (t, st) =>
                        if su_cancelled s then (c, [], Cancelled)
                        else let '(c, sts, e) := consume fuel its buffered reads c t in (c, st :: sts, e)
                    end
                end
            end
        end in
      match buffered with
      | resp :: buffered => handle resp buffered reads
      | [] => match reads with
              | Ok resp :: reads => handle resp [] reads
              | Err err :: _ => (c, [], TransportFailed err)
              | _ => (c, [], Waiting)
              end
      end
  end.
Definition consumeConsensusConnection (fuel : nat) (its : list surroundings) (validators : list Validator) (buffered : list consensusWSResponse)
  (reads : list (result consensusWSResponse)) (c : Client) : Client * list (State (F := F)) * ending :=
  consume fuel its buffered reads c (newConsensusTracker validators).

(** ** Subscribing *)
Definition queries : list (string * string) := [("Vote", "tm.event='Vote'"); ("NewRoundStep", "tm.event='NewRoundStep'")].
Definition subscription_name (id : Z) : option string := if (id =? 1)%Z then Some "Vote" else if (id =? 2)%Z then Some "NewRoundStep" else None.
Definition enc_request (id : Z) (query : string) : json :=
  JObj [("jsonrpc", enc_string "2.0"); ("id", enc_int id); ("method", enc_string "subscribe"); ("params", JObj [("query", enc_string query)])].

(** Reads until both are acknowledged; also what is left to read. *)
Fixpoint await_acks (reads : list (result consensusWSResponse)) (pending : gset Z) (buffered : list consensusWSResponse)
  : option (result (list consensusWSResponse * list (result consensusWSResponse))) :=
  if bool_decide (pending = ∅) then Some (Ok (buffered, reads))
  else match reads with
  | [] => None
  | Panic :: _ => Some Panic
  | Err err :: _ => Some (Err (Wrapf "await subscription acknowledgement: %w" [] err))
  | Ok response :: reads =>
      match subscription_name (ws_ID response) with
      | None => Some (failf "subscription acknowledgement has unexpected response id %d" [FormatInt (ws_ID response)])
      | Some name =>
          match ws_Error response with
          | Some e => Some (failf "subscribe to %s events: RPC error %d: %s"
              [name; FormatInt (we_Code e); we_Message e +:+ (if bool_decide (we_Data e = "") then "" else ": " +:+ we_Data e)])
          | None =>
              if isConsensusSubscriptionAck (ws_Result response) then
                if bool_decide (ws_ID response ∈ pending) then await_acks reads (pending ∖ {[ws_ID response]}) buffered
                else Some (failf "subscribe to %s events: duplicate acknowledgement" [name])
              else if isConsensusEventResult (ws_Result response) then await_acks reads pending (buffered ++ [response])
              else Some (failf "subscribe to %s events: malformed acknowledgement" [name])
          end
      end
  end.

(** The calls on the socket: setting the deadlines, the two writes, and the reads. *)
Record socket : Type := MkSocket { so_writeDeadline : option error; so_readDeadline : option error; so_writes : option error * option error; so_reads : list (result consensusWSResponse) }.
Definition subscribeConsensusEvents (ws : socket) : option (result (list consensusWSResponse * list (result consensusWSResponse))) :=
  match so_writeDeadline ws, so_readDeadline ws, so_writes ws with
  | Some err, _, _ => Some (Err (Wrapf "set subscription write deadline: %w" [] err))
  | _, Some err, _ => Some (Err (Wrapf "set subscription read deadline: %w" [] err))
  | _, _, (Some err, _) => Some (Err (Wrapf "subscribe to %s events: %w" ["Vote"] err))
  | _, _, (_, Some err) => Some (Err (Wrapf "subscribe to %s events: %w" ["NewRoundStep"] err))
  | _, _, _ => await_acks (so_reads ws) {[1; 2]}%Z []
  end.

(** ** The subscription *)
Context {U : Type} (url_Parse : string → result U) (scheme path : U → string) (url_with : string → string → U → string).
Definition consensusWebSocketURL (endpoint : string) : result string :=
  parsed ← url_Parse endpoint;
  scheme' ← (if bool_decide (scheme parsed = "http") then Ok "ws"
             else if bool_decide (scheme parsed = "https") then Ok "wss"
             else if bool_decide (scheme parsed = "ws" ∨ scheme parsed = "wss") then Ok (scheme parsed)
             else failf "unsupported RPC scheme %q" [scheme parsed]);
  Ok (url_with scheme' (trim_slashes (path parsed) +:+ "/websocket") parsed).

(** One attempt: the dial, the set of validators, the subscription, [setupCtx.Err()],
    then what surrounds the messages, [ctx.Err()] when the connection is over, and
    whether the pause before the next attempt ended by its timer. *)
Record attempt : Type := MkAttempt {
  at_dial : result socket; at_get : string → http_answer; at_setupErr : option error; at_its : list surroundings; at_done : bool; at_waited : bool }.
Definition openConsensusConnection (fuel : nat) (a : attempt) (c : Client)
  : Client * option (result (list Validator * list consensusWSResponse * list (result consensusWSResponse))) :=
  match at_dial a with
  | Panic => (c, Some Panic)
  | Err err => (c, Some (Err (Wrapf "websocket connect to %s: %w" [rpcEndpoint] err)))
  | Ok ws =>
      match refreshValidators fuel (at_get a) c with
      | (c, None) => (c, None)
      | (c, Some Panic) => (c, Some Panic)
      | (c, Some (Err err)) => (c, Some (Err (Wrapf "load validators: %w" [] err)))
      | (c, Some (Ok validators)) =>
          (c, match subscribeConsensusEvents ws with
              | None => None
              | Some (Ok (buffered, reads)) => Some (Ok (validators, buffered, reads))
              | Some (Err err) => Some (Err match at_setupErr a with Some e => Wrapf "subscribe to consensus events: %w" [] e | None => err end)
              | Some Panic => Some Panic
              end)
      end
  end.
(** The goroutine: the states it delivers, and whether it has closed its channels. *)
Fixpoint produce (fuel : nat) (attempts : list attempt) (c : Client) : Client * list (State (F := F)) * bool :=
  match attempts with
  | [] => (c, [], false)
  | a :: attempts =>
      match openConsensusConnection fuel a c with
      | (c, None) => (c, [], false)
      | (c, Some (Ok (validators, buffered, reads))) =>
          let '(c, sts, e) := consumeConsensusConnection fuel (at_its a) validators buffered reads c in
          match e with
          | Waiting | Asking => (c, sts, false)
          | TransportFailed _ =>
              if at_done a || negb (at_waited a) then (c, sts, true)
              else let '(c, sts', closed) := produce fuel attempts c in (c, sts ++ sts', closed)
          | Failed _ | Cancelled => (c, sts, true)
          end
      | (c, Some _) => (c, [], true)
      end
  end.
(** The first attempt is made by the caller, whose error it is. *)
Definition SubscribeConsensusState (fuel : nat) (attempts : list attempt) (c : Client) : option (result (Client * list (State (F := F)) * bool)) :=
  match consensusWebSocketURL rpcEndpoint with
  | Panic => Some Panic
  | Err err => Some (Err (Wrapf "create websocket client: %w" [] err))
  | Ok _ =>
      match attempts with
      | [] => None
      | a :: _ =>
          match (openConsensusConnection fuel a c).2 with
          | None => None
          | Some Panic => Some Panic
          | Some (Err err) => Some (Err err)
          | Some (Ok _) => Some (Ok (produce fuel attempts c))
          end
      end
  end.
End client.

(** ** Tasks that may outlive the program (internal/monitor/ui/runtime_tasks.go)

    The tasks that run, by number, those whose producer was adopted, and how far
    [StopAndWait] is. A task is entered under the lock while the group is not stopped;
    a producer is adopted by a task that runs. *)
Module RuntimeTasks.
Inductive waiter : Type := not_called | waiting | returned.
Record RuntimeTaskGroup : Type := MkGroup { gr_running : gset nat; gr_producers : gset nat; gr_stopped : bool; gr_waiter : waiter }.
Definition NewRuntimeTaskGroup : RuntimeTaskGroup := MkGroup ∅ ∅ false not_called.
(** The counter of the wait group. *)
Definition tasks (g : RuntimeTaskGroup) : nat := size (gr_running g) + size (gr_producers g).
Inductive group_step : RuntimeTaskGroup → RuntimeTaskGroup → Prop :=
| run_enters g i : gr_stopped g = false → i ∉ gr_running g → group_step g (MkGroup ({[i]} ∪ gr_running g) (gr_producers g) (gr_stopped g) (gr_waiter g))
| run_refused g : gr_stopped g = true → group_step g g
| run_leaves g i : i ∈ gr_running g → group_step g (MkGroup (gr_running g ∖ {[i]}) (gr_producers g) (gr_stopped g) (gr_waiter g))
| adopt g i p : i ∈ gr_running g → p ∉ gr_producers g → group_step g (MkGroup (gr_running g) ({[p]} ∪ gr_producers g) (gr_stopped g) (gr_waiter g))
| producer_done g p : p ∈ gr_producers g → group_step g (MkGroup (gr_running g) (gr_producers g ∖ {[p]}) (gr_stopped g) (gr_waiter g))
| StopAndWait g : gr_waiter g = not_called → group_step g (MkGroup (gr_running g) (gr_producers g) true waiting)
| wait_returns g : gr_waiter g = waiting → tasks g = 0 → group_step g (MkGroup (gr_running g) (gr_producers g) (gr_stopped g) returned).
End RuntimeTasks.
