(* ===== verification/ConsensusStreamProps.v ===== *)
(** * Properties of the stream of consensus states

    What a connection delivers is a function of the set of events received, not of their
    order; the states it delivers do not go back; and the history the monitor keeps from
    them records the votes of each block. *)

From Stdlib Require Import Ascii.
From stdpp Require Import sorting base gmap strings pretty option numbers list.
From S2P Require Import Prelude GoStd GoJson Bolt Context StoreOps Workflow ConfigDoc ActionLog GoText WorkflowParams Faucet MonitorCache Consensus MonitorUI MonitorUIProps ConsensusStream.

(** ** Decoding into a smaller struct *)

(** A decoder of fewer fields follows one of more. *)
Definition step_field {A} (fs : fields A) (k : string) (v : json) (a a' : A) : Prop :=
  match find_field k fs with Some d => d v a = Some a' | None => a' = a end.
Definition follows_fields {A B} (R : A → B → Prop) (fs : fields A) (gs : fields B) : Prop :=
  ∀ k v a a' b, R a b → step_field fs k v a a' → ∃ b', step_field gs k v b b' ∧ R a' b'.
Lemma dec_members_sim {A B} (R : A → B → Prop) fs gs kvs : follows_fields R fs gs → ∀ a a' b, R a b →
  dec_members false fs kvs a = Some a' → ∃ b', dec_members false gs kvs b = Some b' ∧ R a' b'.
Proof.
  intros Hf. induction kvs as [|[k v] kvs IH]; intros a a' b HR; cbn [dec_members]; [intros [= <-]; by eexists|].
  intros Hd. assert (∃ a1, step_field fs k v a a1 ∧ dec_members false fs kvs a1 = Some a') as (a1 & H1 & H2).
  { unfold step_field. destruct (find_field k fs) as [d|]; [|by eexists]. apply bind_Some in Hd as (a1 & ? & ?). by eexists. }
  destruct (Hf k v a a1 b HR H1) as (b1 & Hb1 & HR1). unfold step_field in Hb1.
  destruct (find_field k gs) as [d|]; [rewrite Hb1; cbn [mbind option_bind]|subst b1]; by eapply IH.
Qed.
Lemma dec_struct_sim {A B} (R : A → B → Prop) fs gs j : follows_fields R fs gs → ∀ a a' b, R a b →
  dec_struct false fs j a = Some a' → ∃ b', dec_struct false gs j b = Some b' ∧ R a' b'.
Proof.
  intros Hf a a' b HR. destruct j; cbn [dec_struct]; try discriminate; [intros [= <-]; by eexists|]. by eapply dec_members_sim.
Qed.

(** When no two names fold to the same, folding finds the field. *)
Definition folded (n : string) : list ascii := fold_name (bytes_of n).
Lemma find_by_exact {A} (fs : fields A) k d : find_by String.eqb k fs = Some d → k ∈ fs.*1.
Proof. induction fs as [|[n e] fs IH]; cbn [find_by]; [done|]. destruct (String.eqb_spec n k) as [<-|?]; set_solver. Qed.
Lemma find_field_folded {A} (fs : fields A) k : NoDup (folded <$> fs.*1) → find_field k fs = find_by name_folds_to k fs.
Proof.
  intros Hnd. unfold find_field. destruct (find_by String.eqb k fs) as [d|] eqn:Hd; [|done]. symmetry.
  induction fs as [|[n e] fs IH]; cbn [find_by] in *; [done|]. change (NoDup (folded n :: (folded <$> fs.*1))) in Hnd. apply NoDup_cons in Hnd as [Hn Hnd].
  destruct (String.eqb_spec n k) as [<-|Hne]; [unfold name_folds_to; by rewrite bool_decide_eq_true_2|].
  unfold name_folds_to at 1. rewrite bool_decide_eq_false_2; [by apply IH|]. intros Hf. apply Hn. apply find_by_exact in Hd.
  change (folded n = folded k) in Hf. rewrite Hf. by apply list_elem_of_fmap_2.
Qed.
Lemma fold_clash a b k : folded a ≠ folded b → name_folds_to a k = true → name_folds_to b k = false.
Proof. intros Hne Ha%bool_decide_eq_true_1. apply bool_decide_eq_false_2. unfold folded in Hne. congruence. Qed.
(** Which field a member is for. *)
Ltac by_member k :=
  unfold step_field; rewrite !find_field_folded by (apply (bool_decide_unpack _); by vm_compute); cbn [find_by];
  repeat match goal with
  | |- context [name_folds_to ?n k] =>
      let Hn := fresh in destruct (name_folds_to n k) eqn:Hn;
      [repeat match goal with |- context [name_folds_to ?m k] => rewrite (fold_clash n m k ltac:(by vm_compute) Hn) end|]
  end.
Lemma field_Some {A B} (get : A → B) set dec j a a' : field get set dec j a = Some a' → ∃ b, dec j (get a) = Some b ∧ a' = set b a.
Proof. unfold field. intros (b & ? & [= <-])%bind_Some. by eexists. Qed.
Lemma checked_Some {A B} (zero : B) dec j (a a' : A) : checked zero dec j a = Some a' → a' = a.
Proof. unfold checked. by intros (b & ? & [= <-])%bind_Some. Qed.

Lemma vote_follows : follows_fields (λ v h, vt_Height v = h) vote_fields [("height", dec_string)].
Proof.
  intros k v a a' b <-. unfold vote_fields. by_member k; intros Hd; [apply field_Some in Hd as (x & Hx & ->)..|subst a'; by eexists]; eexists; (split; [first [exact Hx|reflexivity]|]); done.
Qed.
Lemma step_follows : follows_fields (λ v h, rp_Height v = h) step_fields [("height", dec_string)].
Proof.
  intros k v a a' b <-. unfold step_fields. by_member k; intros Hd; [apply field_Some in Hd as (x & Hx & ->)..|subst a'; by eexists]; eexists; (split; [first [exact Hx|reflexivity]|]); done.
Qed.
Lemma value_follows {A B} (R : A → B → Prop) (d : decoder A) (d' : decoder B) :
  (∀ j a a' b, R a b → d j a = Some a' → ∃ b', d' j b = Some b' ∧ R a' b') →
  follows_fields R [("type", checked "" dec_string); ("value", d)] [("value", d')].
Proof.
  intros Hd k v a a' b HR. by_member k; intros Hs; [|by eapply Hd|subst; by eexists]. apply checked_Some in Hs as ->. by eexists.
Qed.
Lemma vote_field_follows {A B} (R : A → B → Prop) (d : decoder A) (d' : decoder B) :
  (∀ j a a' b, R a b → d j a = Some a' → ∃ b', d' j b = Some b' ∧ R a' b') → follows_fields R [("Vote", d)] [("Vote", d')].
Proof. intros Hd k v a a' b HR. by_member k; intros Hs; [by eapply Hd|subst; by eexists]. Qed.

Lemma vote_event_height data v : dec_vote_event data (MkVote 0 "" 0 0) = Some v → height_of_vote data "" = Some (vt_Height v).
Proof.
  intros Hd. destruct (dec_struct_sim (λ v h, vt_Height v = h) _ [("value", dec_struct false [("Vote", dec_struct false [("height", dec_string)])])] data
    (value_follows _ _ _ (λ j a a' b, dec_struct_sim _ _ _ j (vote_field_follows _ _ _ (λ j a a' b, dec_struct_sim _ _ _ j vote_follows a a' b)) a a' b)) (MkVote 0 "" 0 0) v "" eq_refl Hd) as (h & Hh & <-).
  exact Hh.
Qed.
Lemma step_event_height data v : dec_step_event data (MkStep "" 0 0) = Some v → height_of_step data "" = Some (rp_Height v).
Proof.
  intros Hd. destruct (dec_struct_sim (λ v h, rp_Height v = h) _ [("value", dec_struct false [("height", dec_string)])] data
    (value_follows _ _ _ (λ j a a' b, dec_struct_sim _ _ _ j step_follows a a' b)) (MkStep "" 0 0) v "" eq_refl Hd) as (h & Hh & <-).
  exact Hh.
Qed.

Section stream.
Context {F : Type} `{Fraction F} (ratio : Z → Z → F) (rpcEndpoint : string).
Abbreviation State := (State (F := F)).

(** ** Events *)

(** What a message says, for a set of so many validators. *)
Inductive event : Type :=
| Voted (type height round index : Z)
| Stepped (height round step : Z).
Definition ev_height (e : event) : Z := match e with Voted _ h _ _ => h | Stepped h _ _ => h end.
Definition ev_round (e : event) : Z := match e with Voted _ _ r _ => r | Stepped _ r _ => r end.
Definition event_of (validators : nat) (raw : json) : option event :=
  match read_event raw with
  | Some (query, Some data) =>
      if match data with JObj [] => true | _ => false end then None
      else if strings_Contains query "Vote" then (λ v, Voted v.1.1.1 v.1.1.2 v.1.2 v.2) <$> read_vote validators data
      else if strings_Contains query "NewRoundStep" then (λ s, Stepped s.1.1 s.1.2 s.2) <$> read_step data
      else None
  | _ => None
  end.

Lemma read_vote_spec n data type h r i : read_vote n data = Some (type, h, r, i) →
  (∃ v, dec_vote_event data (MkVote 0 "" 0 0) = Some v ∧ nonnegative_height (vt_Height v) = Some h)
  ∧ (0 ≤ i < Z.of_nat n)%Z ∧ (type = 1 ∨ type = 2)%Z ∧ (0 ≤ r)%Z.
Proof.
  unfold read_vote. intros (v & Hv & Hb)%bind_Some. apply bind_Some in Hb as (h' & Hh & Hb). case_match eqn:Hc; [done|]. injection Hb as <- <- <- <-.
  split; [by eexists|]. lia.
Qed.
Lemma read_step_spec data h r s : read_step data = Some (h, r, s) →
  (∃ v, dec_step_event data (MkStep "" 0 0) = Some v ∧ nonnegative_height (rp_Height v) = Some h) ∧ (0 ≤ r)%Z ∧ (0 ≤ s)%Z.
Proof.
  unfold read_step. intros (v & Hv & Hb)%bind_Some. apply bind_Some in Hb as (h' & Hh & Hb). case_match eqn:Hc; [done|]. injection Hb as <- <- <-.
  split; [by eexists|]. lia.
Qed.
(** The height read ahead is that of the event. *)
Lemma event_height n raw e : event_of n raw = Some e → consensusMessageHeight raw = Some (ev_height e).
Proof.
  unfold event_of, consensusMessageHeight. destruct (read_event raw) as [[query [data|]]|]; [|done..]. case_match; [done|].
  destruct (strings_Contains query "Vote"); [|destruct (strings_Contains query "NewRoundStep"); [|done]].
  - intros ([[[type h] r] i] & Hv & ->)%fmap_Some. apply read_vote_spec in Hv as ((v & Hv & Hh) & _). by rewrite (vote_event_height _ _ Hv).
  - intros ([[h r] s] & Hs & ->)%fmap_Some. apply read_step_spec in Hs as ((v & Hv & Hh) & _). by rewrite (step_event_height _ _ Hv).
Qed.
Lemma event_range n raw type h r i : event_of n raw = Some (Voted type h r i) → (0 ≤ i < Z.of_nat n)%Z ∧ (type = 1 ∨ type = 2)%Z.
Proof.
  unfold event_of. destruct (read_event raw) as [[query [data|]]|]; [|done..]. case_match; [done|].
  destruct (strings_Contains query "Vote"); [|destruct (strings_Contains query "NewRoundStep"); [|done]].
  - intros ([[[? ?] ?] ?] & Hv & [= -> -> -> ->])%fmap_Some. apply read_vote_spec in Hv as (_ & ? & ? & _). done.
  - by intros ([[? ?] ?] & _ & ?)%fmap_Some.
Qed.

(** What an event does to a tracker. *)
Definition entered (start : Z) (e : event) (t : consensusTracker) : option consensusTracker :=
  match e with
  | Voted type h r i => count_vote type i <$> advanceTo start h r t
  | Stepped h r s =>
      if tr_initialized t && ((h =? tr_height t) && (r =? tr_round t) && (s <? tr_step t))%Z then None else set_tr_step s <$> advanceTo start h r t
  end.
Lemma handleMessage_entered start now raw t :
  handleMessage ratio start now raw t = (e ← event_of (length (tr_validators t)) raw; t ← entered start e t; Some (t, buildState ratio now t)).
Proof.
  unfold handleMessage, event_of. destruct (read_event raw) as [[query [data|]]|]; [|done..]. case_match; [done|].
  destruct (strings_Contains query "Vote"); [|destruct (strings_Contains query "NewRoundStep"); [|done]].
  - unfold handleVoteEvent. destruct (read_vote _ data) as [[[[type h] r] i]|]; [|done]. cbn. by destruct (advanceTo start h r t).
  - unfold handleNewRoundStepEvent. destruct (read_step data) as [[[h r] s]|]; [|done]. cbn. destruct (_ && _); [done|]. by destruct (advanceTo start h r t).
Qed.

(** ** The sums of a tracker *)
Definition zsum (l : list Z) : Z := foldr Z.add 0%Z l.
(** The weight of the validators of a set of indices. *)
Definition weight (w : Validator → Z) (X : gset Z) (vs : list Validator) : Z := zsum (imap (λ i v, if bool_decide (Z.of_nat i ∈ X) then w v else 0%Z) vs).

Lemma zsum_imap_add {A} (f g : nat → A → Z) l : zsum (imap (λ i a, f i a + g i a)%Z l) = (zsum (imap f l) + zsum (imap g l))%Z.
Proof.
  revert f g. induction l as [|a l IH]; intros f g; [done|]. rewrite !imap_cons. specialize (IH (f ∘ S) (g ∘ S)). unfold zsum, compose in *. cbn [foldr]. lia.
Qed.
Lemma zsum_at (w : Validator → Z) j (vs : list Validator) : zsum (imap (λ i v, if bool_decide (i = j) then w v else 0%Z) vs) = default 0%Z (w <$> vs !! j).
Proof.
  revert j. induction vs as [|v vs IH]; intros j; [done|]. rewrite imap_cons. unfold zsum in *. cbn [foldr]. destruct j as [|j].
  - rewrite bool_decide_eq_true_2 by done. cbn. rewrite (imap_ext _ (λ _ _, 0%Z)) by (intros; cbn; by rewrite bool_decide_eq_false_2).
    assert (∀ l : list Validator, foldr Z.add 0%Z (imap (λ _ _, 0%Z) l) = 0%Z) as Hz; [|rewrite Hz; lia].
    intros l. induction l as [|? l IHl]; [done|]. rewrite imap_cons. cbn [foldr]. exact IHl.
  - rewrite bool_decide_eq_false_2 by done. cbn [lookup list_lookup]. rewrite <-IH, Z.add_0_l. f_equal. apply imap_ext. intros i v' _. cbn.
    destruct (decide (i = j)) as [->|Hne]; [by rewrite !bool_decide_eq_true_2|]. rewrite !bool_decide_eq_false_2 by congruence. done.
Qed.
Lemma weight_empty w vs : weight w ∅ vs = 0%Z.
Proof.
  unfold weight. rewrite (imap_ext _ (λ _ _, 0%Z)) by (intros; by rewrite bool_decide_eq_false_2 by set_solver).
  induction vs as [|v vs IH]; [done|]. rewrite imap_cons. unfold zsum in *. cbn [foldr]. exact IH.
Qed.
Lemma weight_insert w X vs (j : nat) v : Z.of_nat j ∉ X → vs !! j = Some v → weight w ({[Z.of_nat j]} ∪ X) vs = (weight w X vs + w v)%Z.
Proof.
  intros Hj Hv. unfold weight.
  rewrite (imap_ext _ (λ i v, (if bool_decide (Z.of_nat i ∈ X) then w v else 0) + (if bool_decide (i = j) then w v else 0))%Z).
  - rewrite zsum_imap_add, zsum_at, Hv. done.
  - intros i v' _. destruct (decide (i = j)) as [->|Hne].
    + rewrite (bool_decide_eq_true_2 (_ ∈ _ ∪ _)), bool_decide_eq_false_2, bool_decide_eq_true_2 by set_solver. lia.
    + rewrite (bool_decide_eq_false_2 (i = j)), Z.add_0_r by done.
      rewrite (bool_decide_ext (Z.of_nat i ∈ {[Z.of_nat j]} ∪ X) (Z.of_nat i ∈ X)); [done|]. set_unfold. split; [intros [?|?]; [lia|done]|auto].
Qed.
Lemma wrap_add_l a b : wrap_i64 (wrap_i64 a + b) = wrap_i64 (a + b).
Proof.
  unfold wrap_i64. replace ((a + 2 ^ 63) mod 2 ^ 64 - 2 ^ 63 + b + 2 ^ 63)%Z with ((a + 2 ^ 63) mod 2 ^ 64 + b)%Z by lia.
  rewrite Zplus_mod_idemp_l. do 2 f_equal. lia.
Qed.
Lemma total_wraps vs : foldl (λ total v, wrap_i64 (total + power v)) 0%Z vs = wrap_i64 (zsum (power <$> vs)).
Proof.
  assert (∀ a, foldl (λ total v, wrap_i64 (total + power v)) (wrap_i64 a) vs = wrap_i64 (a + zsum (power <$> vs))) as Hg; [|exact (Hg 0%Z)].
  induction vs as [|v vs IH]; intros a; cbn [foldl]; [cbn; by rewrite Z.add_0_r|]. rewrite wrap_add_l, IH. f_equal. cbn [fmap list_fmap]. unfold zsum. cbn [foldr]. lia.
Qed.

(** A set of votes adds up: it is of the validators, its size is their number and its
    power the sum of theirs, modulo 2^64. *)
Record adds_up (vs : list Validator) (X : gset Z) (p : Z) : Prop := {
  au_range : ∀ i, i ∈ X → (0 ≤ i < Z.of_nat (length vs))%Z;
  au_size : Z.of_nat (size X) = weight (λ _, 1%Z) X vs;
  au_power : p = wrap_i64 (weight power X vs);
}.
Record tracker_wf (t : consensusTracker) : Prop := {
  tw_powers : ∀ i v, tr_validators t !! i = Some v → tr_validatorPowers t !! Z.of_nat i = Some (power v);
  tw_total : tr_totalPower t = wrap_i64 (zsum (power <$> tr_validators t));
  tw_proposer : tr_proposerIndex t = (-1)%Z;
  tw_prevoted : adds_up (tr_validators t) (tr_prevoted t) (tr_pvPower t);
  tw_precommited : adds_up (tr_validators t) (tr_precommited t) (tr_pcPower t);
}.
Lemma adds_up_empty vs : adds_up vs ∅ 0.
Proof. split; [set_solver|by rewrite size_empty, weight_empty|by rewrite weight_empty]. Qed.
Lemma adds_up_insert vs X p i v : adds_up vs X p → (0 ≤ i)%Z → i ∉ X → vs !! Z.to_nat i = Some v → adds_up vs ({[i]} ∪ X) (wrap_i64 (p + power v)).
Proof.
  intros [Hr Hs Hp] Hi Hn Hv. rewrite <-(Z2Nat.id i Hi) in *. rewrite Nat2Z.id in Hv. set (j := Z.to_nat i) in *. split.
  - intros k [->%elem_of_singleton|Hk]%elem_of_union; [|by apply Hr]. apply lookup_lt_Some in Hv. lia.
  - rewrite size_union, size_singleton by set_solver. rewrite (weight_insert _ _ _ _ _ Hn Hv). cbv beta. rewrite Nat2Z.inj_add, Hs. apply Z.add_comm.
  - rewrite (weight_insert _ _ _ _ _ Hn Hv), Hp. apply wrap_add_l.
Qed.
Lemma new_tracker_wf vs : tracker_wf (newConsensusTracker vs).
Proof.
  split; [|apply total_wraps|done|apply adds_up_empty..]. intros i v Hv. cbn [tr_validatorPowers newConsensusTracker]. apply elem_of_list_to_map_1.
  - rewrite fmap_imap. apply NoDup_alt. intros a b x Ha Hb. rewrite list_lookup_imap in Ha, Hb. cbn in *.
    apply fmap_Some in Ha as (? & _ & ->). apply fmap_Some in Hb as (? & _ & Hab). cbn in Hab. by apply Nat2Z.inj.
  - apply elem_of_lookup_imap. by exists i, v.
Qed.
Lemma count_vote_wf type i t : tracker_wf t → (0 ≤ i < Z.of_nat (length (tr_validators t)))%Z → tracker_wf (count_vote type i t).
Proof.
  intros Hwf Hi. destruct Hwf as [Hp Ht Ho Hv Hc]. destruct (lookup_lt_is_Some_2 (tr_validators t) (Z.to_nat i)) as [v Hl]; [lia|].
  pose proof (Hp _ _ Hl) as Hpow. rewrite Z2Nat.id in Hpow by lia. unfold count_vote. rewrite Hpow. cbn [default from_option].
  destruct (type =? 1)%Z; (case_bool_decide; [done|]); (split; [done..| |]); cbn; try done; (eapply adds_up_insert; [done|lia|done|done]).
Qed.
Lemma advanceTo_wf start h r t t' : tracker_wf t → advanceTo start h r t = Some t' → tracker_wf t' ∧ tr_validators t' = tr_validators t.
Proof.
  intros Hwf. unfold advanceTo. destruct (_ && (_ || _)); [done|]. destruct (_ && _); intros [= <-]; [done|]. split; [|done].
  destruct Hwf. split; [done..|apply adds_up_empty|apply adds_up_empty].
Qed.
Lemma entered_wf start n raw e t t' : tracker_wf t → event_of n raw = Some e → n = length (tr_validators t) → entered start e t = Some t' →
  tracker_wf t' ∧ tr_validators t' = tr_validators t.
Proof.
  intros Hwf He -> Hen. destruct e as [type h r i|h r s]; cbn [entered] in Hen.
  - apply event_range in He as (Hi & _). apply fmap_Some in Hen as (t1 & H1 & ->). apply advanceTo_wf in H1 as (? & Hv); [|done]. rewrite <-Hv in Hi.
    split; [by apply count_vote_wf|]. unfold count_vote. destruct (type =? 1)%Z; by case_bool_decide.
  - case_match; [done|]. apply fmap_Some in Hen as (t1 & H1 & ->). apply advanceTo_wf in H1 as ([] & ?); [|done]. by split.
Qed.

(** ** What a tracker knows *)

(** The events before a place, a height and a round. *)
Definition up_to (h r : Z) (e : event) : Prop := (ev_height e < h ∨ ev_height e = h ∧ ev_round e ≤ r)%Z.
Definition before (h r : Z) (e : event) : Prop := (ev_height e < h ∨ ev_height e = h ∧ ev_round e < r)%Z.
Record counts (es : list event) (t : consensusTracker) : Prop := {
  ct_initialized : tr_initialized t = true;
  ct_latest : ∀ e, e ∈ es → up_to (tr_height t) (tr_round t) e;
  ct_prevoted : ∀ i, i ∈ tr_prevoted t ↔ Voted 1 (tr_height t) (tr_round t) i ∈ es;
  ct_precommited : ∀ i, i ∈ tr_precommited t ↔ Voted 2 (tr_height t) (tr_round t) i ∈ es;
}.
(** A tracker knows a list of events: it is at the latest place of any, and has counted
    the votes cast there. *)
Definition tracks (es : list event) (t : consensusTracker) : Prop :=
  counts es t ∧ ∃ e, e ∈ es ∧ ev_height e = tr_height t ∧ ev_round e = tr_round t.

Definition put (e : event) (t : consensusTracker) : consensusTracker :=
  match e with Voted type _ _ i => count_vote type i t | Stepped _ _ s => set_tr_step s t end.
Definition votes_known (e : event) : Prop := match e with Voted type _ _ _ => type = 1%Z ∨ type = 2%Z | _ => True end.
Lemma put_place e t : tr_height (put e t) = tr_height t ∧ tr_round (put e t) = tr_round t ∧ tr_initialized (put e t) = tr_initialized t.
Proof. destruct e; cbn; [|done]. unfold count_vote. destruct (_ =? _)%Z; by case_bool_decide. Qed.
Lemma put_prevoted e t i : i ∈ tr_prevoted (put e t) ↔ i ∈ tr_prevoted t ∨ ∃ h r, e = Voted 1 h r i.
Proof.
  destruct e as [type h r j|]; cbn [put]; [|cbn; naive_solver]. unfold count_vote. destruct (Z.eqb_spec type 1) as [->|Hne]; case_bool_decide; cbn [tr_prevoted]; set_solver.
Qed.
Lemma put_precommited e t i : votes_known e → i ∈ tr_precommited (put e t) ↔ i ∈ tr_precommited t ∨ ∃ h r, e = Voted 2 h r i.
Proof.
  destruct e as [type h r j|]; cbn [put votes_known]; [|cbn; naive_solver]. intros Ht. unfold count_vote.
  destruct (Z.eqb_spec type 1) as [->|Hne]; [case_bool_decide; cbn [tr_precommited]; naive_solver|]. destruct Ht as [?| ->]; [done|].
  case_bool_decide; cbn [tr_precommited]; set_solver.
Qed.
Lemma counts_put es e t : votes_known e → counts es t → ev_height e = tr_height t → ev_round e = tr_round t → tracks (es ++ [e]) (put e t).
Proof.
  intros Hk [Hi Hl Hp Hc] Hh Hr. destruct (put_place e t) as (P1 & P2 & P3). split; [|exists e; rewrite P1, P2; set_solver].
  split; rewrite ?P1, ?P2, ?P3; [done| | |].
  - intros e' [He| ->%list_elem_of_singleton]%elem_of_app; [by apply Hl|]. unfold up_to. lia.
  - intros i. rewrite put_prevoted, Hp, elem_of_app, list_elem_of_singleton. split; [|naive_solver].
    intros [?|(h & r & ->)]; [by left|right]. cbn in Hh, Hr. by subst.
  - intros i. rewrite put_precommited, Hc, elem_of_app, list_elem_of_singleton by done. split; [|naive_solver].
    intros [?|(h & r & ->)]; [by left|right]. cbn in Hh, Hr. by subst.
Qed.
Lemma counts_reset start es h r t : (∀ e, e ∈ es → before h r e) → counts es (resetForRound start h r t).
Proof.
  intros Hb. split; cbn; [done| | |].
  - intros e He. specialize (Hb e He). unfold before, up_to in *. lia.
  - intros i. split; [set_solver|]. intros He%Hb. unfold before in He. cbn in He. lia.
  - intros i. split; [set_solver|]. intros He%Hb. unfold before in He. cbn in He. lia.
Qed.
(** An event of an earlier place changes nothing, nor does a step that goes back. *)
Lemma tracks_skip es e t : tracks es t → up_to (tr_height t) (tr_round t) e →
  (ev_height e = tr_height t ∧ ev_round e = tr_round t → ∃ s, e = Stepped (tr_height t) (tr_round t) s) → tracks (es ++ [e]) t.
Proof.
  intros [[Hi Hl Hp Hc] (e0 & He0 & Hh & Hr)] Hu Hs. split; [|exists e0; set_solver].
  assert (∀ type i, Voted type (tr_height t) (tr_round t) i ∈ es ++ [e] ↔ Voted type (tr_height t) (tr_round t) i ∈ es) as Hv.
  { intros type i. rewrite elem_of_app, list_elem_of_singleton. split; [|by left]. intros [?|<-]; [done|]. destruct (Hs ltac:(done)) as [s ?]. done. }
  split; [done| |intros i; by rewrite Hv|intros i; by rewrite Hv].
  intros e' [He| ->%list_elem_of_singleton]%elem_of_app; [by apply Hl|done].
Qed.

Lemma entered_spec start e t : entered start e t =
  if tr_initialized t && ((ev_height e <? tr_height t) || (ev_height e =? tr_height t) && (ev_round e <? tr_round t))%Z then None
  else if tr_initialized t && ((ev_height e =? tr_height t) && (ev_round e =? tr_round t))%Z
  then match e with Stepped _ _ s => if (s <? tr_step t)%Z then None else Some (put e t) | _ => Some (put e t) end
  else Some (put e (resetForRound start (ev_height e) (ev_round e) t)).
Proof.
  destruct e as [type h r i|h r s]; cbn [entered ev_height ev_round put]; unfold advanceTo.
  - destruct (tr_initialized t); cbn [andb]; [|done]. destruct (_ || _); [done|]. by destruct (_ && _).
  - destruct (tr_initialized t); cbn [andb]; [|done].
    destruct (Z.ltb_spec h (tr_height t)), (Z.eqb_spec h (tr_height t)), (Z.ltb_spec r (tr_round t)), (Z.eqb_spec r (tr_round t)), (Z.ltb_spec s (tr_step t)); cbn; try done; lia.
Qed.

(** One more event, for a tracker that knows the ones before. *)
Lemma tracks_next start es e t : votes_known e → tracks es t → tracks (es ++ [e]) (default t (entered start e t)).
Proof.
  intros Hk Ht. rewrite entered_spec. pose proof Ht as [[Hi Hl Hp Hc] _]. rewrite Hi. cbn [andb].
  destruct ((ev_height e <? tr_height t) || (ev_height e =? tr_height t) && (ev_round e <? tr_round t))%Z eqn:H1; cbn [default from_option]; [apply tracks_skip; [done|unfold up_to; lia|lia]|].
  destruct ((ev_height e =? tr_height t) && (ev_round e =? tr_round t))%Z eqn:H2.
  - assert (ev_height e = tr_height t ∧ ev_round e = tr_round t) as [Hh Hr] by lia.
    assert (tracks (es ++ [e]) (put e t)) as Hput by (by apply counts_put; [|apply Ht|..]).
    destruct e as [|h r s]; [exact Hput|]. destruct (s <? tr_step t)%Z; [|exact Hput]. cbn [default from_option] in *. cbn in Hh, Hr. subst h r.
    apply tracks_skip; [done|unfold up_to; cbn; lia|intros _; by exists s].
  - cbn [default from_option]. apply counts_put; [done|apply counts_reset|done..]. intros e' He'%Hl. unfold up_to, before in *. lia.
Qed.
(** The first event of a height, for a new tracker. *)
Lemma tracks_first start es e t : votes_known e → tr_initialized t = false → (∀ e', e' ∈ es → (ev_height e' < ev_height e)%Z) →
  ∃ t', entered start e t = Some t' ∧ tracks (es ++ [e]) t' ∧ tr_height t' = ev_height e.
Proof.
  intros Hk Hi Hb. rewrite entered_spec, Hi. cbn [andb]. eexists. split; [done|]. split; [|apply put_place].
  apply counts_put; [done|apply counts_reset|done..]. intros e' He'. unfold before. left. by apply Hb.
Qed.

(** ** One connection *)
#[local] Instance event_eq_dec : EqDecision event.
Proof. solve_decision. Defined.
Context (fuel : nat) (vals : Z → list Validator).

(** What a message says: an event of the height it is for, read with its validators. *)
Definition said (resp : consensusWSResponse) : option event :=
  raw ← ws_Result resp; h ← consensusMessageHeight raw; event_of (length (vals h)) raw.
(** A message that gives a height is an event of it. *)
Definition readable (resp : consensusWSResponse) : Prop := ∀ raw h, ws_Result resp = Some raw → consensusMessageHeight raw = Some h → is_Some (said resp).
(** Whenever the node gives the validators of a height, it gives the same. *)
Definition settled (its : list surroundings) : Prop :=
  ∀ s h vs, s ∈ its → fetchValidatorsForHeight rpcEndpoint fuel (su_get s) h = Some (Ok vs) → vs = vals h.

Definition knows (es : list event) (t : consensusTracker) : Prop :=
  if tr_initialized t then tracks es t ∧ tracker_wf t ∧ tr_validators t = vals (tr_height t) ∧ (0 < tr_height t)%Z else es = [].
Definition place (t : consensusTracker) : Z * Z := if tr_initialized t then (tr_height t, tr_round t) else (0%Z, 0%Z).
Definition place_le (a b : Z * Z) : Prop := (a.1 < b.1 ∨ a.1 = b.1 ∧ a.2 ≤ b.2)%Z.
#[local] Instance place_le_trans : Transitive place_le.
Proof. intros [] [] []. unfold place_le. cbn. lia. Qed.

Lemma said_Some resp e : said resp = Some e → ∃ raw, ws_Result resp = Some raw ∧ consensusMessageHeight raw = Some (ev_height e) ∧ event_of (length (vals (ev_height e))) raw = Some e.
Proof. unfold said. intros (raw & Hr & (h & Hh & He)%bind_Some)%bind_Some. exists raw. pose proof (event_height _ _ _ He) as Hh'. rewrite Hh' in Hh. injection Hh as <-. done. Qed.
Lemma event_votes n raw e : event_of n raw = Some e → votes_known e.
Proof. destruct e; [|done]. by intros [_ ?]%event_range. Qed.
Lemma event_round_nonneg n raw e : event_of n raw = Some e → (0 ≤ ev_round e)%Z.
Proof.
  unfold event_of. destruct (read_event raw) as [[query [data|]]|]; [|done..]. case_match; [done|].
  destruct (strings_Contains query "Vote"); [|destruct (strings_Contains query "NewRoundStep"); [|done]].
  - intros ([[[? ?] ?] ?] & Hv & ->)%fmap_Some. by apply read_vote_spec in Hv as (_ & _ & _ & ?).
  - intros ([[? ?] ?] & Hv & ->)%fmap_Some. by apply read_step_spec in Hv as (_ & ? & _).
Qed.
(** An older event is not taken, whatever the number of validators. *)
Lemma older_ignored start now raw t h : tr_initialized t = true → consensusMessageHeight raw = Some h → (h < tr_height t)%Z → handleMessage ratio start now raw t = None.
Proof.
  intros Hi Hh Hlt. rewrite handleMessage_entered. destruct (event_of _ raw) as [e|] eqn:He; [|done]. cbn [mbind option_bind].
  apply event_height in He. rewrite Hh in He. injection He as He. rewrite entered_spec, Hi. cbn [andb].
  rewrite (proj2 (Z.ltb_lt (ev_height e) _)) by lia. done.
Qed.
Lemma entered_place start e t t' : entered start e t = Some t' → tr_initialized t' = true ∧ tr_height t' = ev_height e ∧ tr_round t' = ev_round e
  ∧ (tr_initialized t = true → place_le (tr_height t, tr_round t) (tr_height t', tr_round t')).
Proof.
  rewrite entered_spec. destruct (tr_initialized t && ((_ <? _) || _))%Z eqn:H1; [done|]. destruct (tr_initialized t && (_ && _))%Z eqn:H2.
  - intros Hp. assert (t' = put e t) as -> by (destruct e; [congruence|case_match; congruence]). destruct (put_place e t) as (-> & -> & ->).
    unfold place_le. cbn. split_and!; [|lia..]. by destruct (tr_initialized t).
  - intros [= <-]. destruct (put_place e (resetForRound start (ev_height e) (ev_round e) t)) as (-> & -> & ->). cbn. split_and!; [done..|].
    intros Hi. rewrite Hi in H1, H2. cbn in H1, H2. unfold place_le. cbn. lia.
Qed.
(** An event that needs a new tracker is taken by it. *)
Lemma new_tracker_takes start now raw es e t : event_of (length (vals (ev_height e))) raw = Some e → knows es t → (0 < ev_height e)%Z →
  negb (tr_initialized t) || (tr_height t <? ev_height e)%Z = true →
  ∃ t2, handleMessage ratio start now raw (newConsensusTracker (vals (ev_height e))) = Some (t2, buildState ratio now t2)
    ∧ knows (es ++ [e]) t2 ∧ tr_initialized t2 = true ∧ place_le (place t) (place t2) ∧ ev_height e = tr_height t2.
Proof.
  intros He Hk Hpos Hnew. destruct (tracks_first start es e (newConsensusTracker (vals (ev_height e))) (event_votes _ _ _ He) eq_refl) as (t2 & Hen & Htr & Hh2).
  { intros e' He'. unfold knows in Hk. destruct (tr_initialized t) eqn:Hi; [|subst es; set_solver]. cbn in Hnew. destruct Hk as ([[_ Hl _ _] _] & _).
    apply Hl in He'. unfold up_to in He'. lia. }
  exists t2. rewrite handleMessage_entered. change (length (tr_validators (newConsensusTracker (vals (ev_height e))))) with (length (vals (ev_height e))).
  rewrite He. cbn [mbind option_bind]. rewrite Hen. cbn [mbind option_bind].
  destruct (entered_wf _ _ _ _ _ _ (new_tracker_wf _) He eq_refl Hen) as [Hwf Hvals]. destruct (entered_place _ _ _ _ Hen) as (Hi2 & Hph & Hpr & _).
  split_and!; [done| |done| |done].
  - unfold knows. rewrite Hi2. split_and!; [done|done| |by rewrite Hph]. rewrite Hvals, Hph. done.
  - unfold place. rewrite Hi2, Hph, Hpr. unfold place_le. pose proof (event_round_nonneg _ _ _ He). destruct (tr_initialized t); cbn in *; lia.
Qed.
(** Any other event is taken by the tracker there is, or leaves it as it was. *)
Lemma same_tracker_takes start now raw es e t : event_of (length (vals (ev_height e))) raw = Some e → knows es t → negb (tr_initialized t) || (tr_height t <? ev_height e)%Z = false →
  match handleMessage ratio start now raw t with
  | Some (t2, st) => knows (es ++ [e]) t2 ∧ tr_initialized t2 = true ∧ st = buildState ratio now t2 ∧ place_le (place t) (place t2) ∧ ev_height e = tr_height t2
  | None => knows (es ++ [e]) t
  end.
Proof.
  intros He Hk Hnew. apply orb_false_iff in Hnew as [Hi%negb_false_iff Hle]. unfold knows in Hk. rewrite Hi in Hk. destruct Hk as (Htr & Hwf & Hvals & Hpos).
  pose proof (tracks_next start es e t (event_votes _ _ _ He) Htr) as Hnext.
  destruct (Z.ltb_spec (ev_height e) (tr_height t)) as [Hlt|Hge].
  { rewrite (older_ignored _ _ _ _ (ev_height e)) by (done || by eapply event_height). unfold knows. rewrite Hi. split_and!; try done.
    rewrite entered_spec, Hi, (proj2 (Z.ltb_lt _ _) Hlt) in Hnext. exact Hnext. }
  assert (ev_height e = tr_height t) as Heq by lia. rewrite handleMessage_entered, Hvals, <-Heq, He. cbn [mbind option_bind].
  destruct (entered start e t) as [t2|] eqn:Hen; cbn [default from_option mbind option_bind] in *.
  - rewrite Heq, <-Hvals in He. destruct (entered_wf _ _ _ _ _ _ Hwf He eq_refl Hen) as [Hwf2 Hvals2]. destruct (entered_place _ _ _ _ Hen) as (Hi2 & Hph & Hpr & Hpl).
    split_and!; [|done..| |lia].
    + unfold knows. rewrite Hi2. split_and!; [done|done| |lia]. by rewrite Hvals2, Hvals, Hph, Heq.
    + unfold place. rewrite Hi, Hi2. by apply Hpl.
  - unfold knows. rewrite Hi. done.
Qed.
(** One message: either the tracker takes it, and shows what it has become, or it is
    left as it was. *)
Lemma message_step s its resp raw es c c1 t t1 :
  settled (s :: its) → readable resp → ws_Result resp = Some raw → knows es t →
  tracker_for rpcEndpoint fuel (su_get s) raw c t = (c1, inl t1) →
  match handleMessage ratio (su_start s) (su_now s) raw t1 with
  | Some (t2, st) => knows (es ++ option_list (said resp)) t2 ∧ tr_initialized t2 = true ∧ st = buildState ratio (su_now s) t2 ∧ place_le (place t) (place t2)
      ∧ ∃ e, said resp = Some e ∧ ev_height e = tr_height t2
  | None => t1 = t ∧ knows (es ++ option_list (said resp)) t
  end.
Proof.
  intros Hset Hread Hraw Hk Ht. destruct (said resp) as [e|] eqn:Hs.
  2:{ assert (consensusMessageHeight raw = None) as Hn.
      { destruct (consensusMessageHeight raw) as [h|] eqn:Hh; [|done]. destruct (Hread raw h Hraw Hh) as [e He]. congruence. }
      unfold tracker_for in Ht. rewrite Hn in Ht. injection Ht as <- <-. rewrite handleMessage_entered.
      destruct (event_of _ raw) as [e|] eqn:He; [apply event_height in He; congruence|]. cbn. by rewrite app_nil_r. }
  apply said_Some in Hs as (raw' & Hraw' & Hh & He). rewrite Hraw in Hraw'. injection Hraw' as <-. cbn [option_list].
  unfold tracker_for in Ht. rewrite Hh in Ht. destruct (negb (tr_initialized t) || (tr_height t <? ev_height e)%Z) eqn:Hnew.
  - destruct (refreshValidatorsAtHeight _ _ _ _ _) as [c2 [[vs| |]|]] eqn:Href; try discriminate. injection Ht as <- <-.
    assert (vs = vals (ev_height e) ∧ (0 < ev_height e)%Z) as [-> Hpos].
    { unfold refreshValidatorsAtHeight, positive_height in Href. destruct (Z.leb_spec (ev_height e) 0); [done|]. split; [|lia]. unfold keep_validators in Href.
      destruct (fetchValidatorsForHeight _ _ _ _) as [[l| |]|] eqn:Hf; try discriminate. injection Href as _ ->. eapply Hset; [apply list_elem_of_here|exact Hf]. }
    destruct (new_tracker_takes (su_start s) (su_now s) raw es e t He Hk Hpos Hnew) as (t2 & -> & Hk2 & Hi2 & Hpl & Hh2). split_and!; [done..|by exists e].
  - injection Ht as <- <-. pose proof (same_tracker_takes (su_start s) (su_now s) raw es e t He Hk Hnew) as Hst.
    destruct (handleMessage _ _ _ _ _) as [[t2 st]|]; [|done]. destruct Hst as (? & ? & ? & ? & ?). split_and!; [done..|by exists e].
Qed.

(** What was read before the socket failed. *)
Fixpoint oks (reads : list (result consensusWSResponse)) : list consensusWSResponse :=
  match reads with Ok r :: reads => r :: oks reads | _ => [] end.
Definition over (e : ending) : Prop := match e with Waiting | TransportFailed _ => True | _ => False end.
(** The messages of a connection, in the order they are handled. *)
Definition received (its : list surroundings) (buffered : list consensusWSResponse) (reads : list (result consensusWSResponse)) : list consensusWSResponse :=
  take (length its) (buffered ++ oks reads).
Definition state_place (st : State) : Z * Z := (st_Height st, st_Round st).
Lemma state_place_of now t : tr_initialized t = true → state_place (buildState ratio now t) = place t.
Proof. intros Hi. unfold place. by rewrite Hi. Qed.

(** The state [o] shown last is that of the tracker. *)
Definition shows (o : option State) (t : consensusTracker) : Prop :=
  if tr_initialized t then ∃ now, o = Some (buildState ratio now t) else o = None.
(** The next message, and what is left. *)
Definition next_message (buffered : list consensusWSResponse) (reads : list (result consensusWSResponse))
  : option (consensusWSResponse * list consensusWSResponse * list (result consensusWSResponse)) :=
  match buffered, reads with
  | resp :: buffered, _ => Some (resp, buffered, reads)
  | [], Ok resp :: reads => Some (resp, [], reads)
  | _, _ => None
  end.
Definition handle (s : surroundings) (its : list surroundings) (resp : consensusWSResponse) buffered reads (c : Client) (t : consensusTracker) : Client * list State * ending :=
  match ws_Error resp with
  | Some e => (c, [], Failed (Errorf "consensus subscription failed: RPC error %d: %s" [FormatInt (we_Code e); we_Message e]))
  | None =>
      match ws_Result resp with
      | None => consume rpcEndpoint ratio fuel its buffered reads c t
      | Some raw =>
          match tracker_for rpcEndpoint fuel (su_get s) raw c t with
          | (c, inr e) => (c, [], e)
          | (c, inl t) =>
              match handleMessage ratio (su_start s) (su_now s) raw t with
              | None => consume rpcEndpoint ratio fuel its buffered reads c t
              | Some (t, st) =>
                  if su_cancelled s then (c, [], Cancelled)
                  else let '(c, sts, e) := consume rpcEndpoint ratio fuel its buffered reads c t in (c, st :: sts, e)
              end
          end
      end
  end.
Lemma consume_next s its buffered reads c t c' sts e : consume rpcEndpoint ratio fuel (s :: its) buffered reads c t = (c', sts, e) →
  match next_message buffered reads with
  | Some (resp, buffered', reads') => handle s its resp buffered' reads' c t = (c', sts, e)
      ∧ buffered ++ oks reads = resp :: (buffered' ++ oks reads') ∧ received (s :: its) buffered reads = resp :: received its buffered' reads'
  | None => sts = [] ∧ received (s :: its) buffered reads = []
  end.
Proof. destruct buffered as [|resp buffered]; [destruct reads as [|[resp|err|] reads]|]; cbn [consume next_message]; try (intros [= <- <- <-]); done. Qed.


(** ** What a state describes *)

(** The validators of a height with the votes that some events cast in a round of it. *)
Definition statuses (es : list event) (h r : Z) : list ValidatorStatus :=
  imap (λ i v, MkStatus (Z.of_nat i) (va_Address v) (va_PubKey v) (power v) (bool_decide (Voted 1 h r (Z.of_nat i) ∈ es)) (bool_decide (Voted 2 h r (Z.of_nat i) ∈ es)) false) (vals h).
Definition power_sum (l : list ValidatorStatus) : Z := zsum (vs_VotingPower <$> l).
(** A state describes a list of events: it is at the latest place of any, its validators
    are those of the height, each with the votes that it cast there, and the counts and
    powers are those of the validators that voted. *)
Record describes (es : list event) (st : State) : Prop := {
  ds_latest : ∀ e, e ∈ es → up_to (st_Height st) (st_Round st) e;
  ds_here : ∃ e, e ∈ es ∧ ev_height e = st_Height st ∧ ev_round e = st_Round st;
  ds_validators : st_Validators st = statuses es (st_Height st) (st_Round st);
  ds_total : st_TotalValidators st = length (vals (st_Height st)) ∧ st_TotalVotingPower st = wrap_i64 (power_sum (st_Validators st));
  ds_prevotes : st_PrevoteCount st = length (List.filter vs_Prevoted (st_Validators st)) ∧ st_PrevotePower st = wrap_i64 (power_sum (List.filter vs_Prevoted (st_Validators st)));
  ds_precommits : st_PrecommitCount st = length (List.filter vs_Precommited (st_Validators st)) ∧ st_PrecommitPower st = wrap_i64 (power_sum (List.filter vs_Precommited (st_Validators st)));
}.

Lemma zsum_app a b : zsum (a ++ b) = (zsum a + zsum b)%Z.
Proof. unfold zsum. induction a; cbn in *; lia. Qed.
(** The weight of a set as the sum over the validators that are marked. *)
Lemma weight_marked (w : ValidatorStatus → Z) (mark : ValidatorStatus → bool) (f : nat → Validator → ValidatorStatus) (w' : Validator → Z) X vs :
  (∀ i v, w (f i v) = w' v) → (∀ i v, mark (f i v) = bool_decide (Z.of_nat i ∈ X)) →
  zsum (w <$> List.filter mark (imap f vs)) = weight w' X vs.
Proof.
  intros Hw Hm. unfold weight. induction vs as [|v vs IH] using rev_ind; [done|].
  rewrite !imap_app, List.filter_app, fmap_app, !zsum_app, IH. f_equal. cbn. rewrite Hm. case_bool_decide; cbn; by rewrite ?Hw.
Qed.
Lemma length_zsum {A} (l : list A) : Z.of_nat (length l) = zsum ((λ _, 1%Z) <$> l).
Proof. unfold zsum. induction l; cbn in *; lia. Qed.
Lemma marked_adds_up (mark : ValidatorStatus → bool) (f : nat → Validator → ValidatorStatus) vs X p :
  adds_up vs X p → (∀ i v, vs_VotingPower (f i v) = power v) → (∀ i v, mark (f i v) = bool_decide (Z.of_nat i ∈ X)) →
  size X = length (List.filter mark (imap f vs)) ∧ p = wrap_i64 (power_sum (List.filter mark (imap f vs))).
Proof.
  intros [_ Hs Hp] Hw Hm. split.
  - apply Nat2Z.inj. rewrite Hs, length_zsum. symmetry. by apply weight_marked.
  - rewrite Hp. f_equal. symmetry. by apply weight_marked.
Qed.
Lemma knows_describes es t now : knows es t → tr_initialized t = true → describes es (buildState ratio now t).
Proof.
  intros Hk Hi. unfold knows in Hk. rewrite Hi in Hk. destruct Hk as ([[_ Hl Hp Hc] Hh] & [_ Ht Ho Hpv Hpc] & Hv & _).
  assert (st_Validators (buildState ratio now t) = statuses es (tr_height t) (tr_round t)) as Hst.
  { cbn [buildState st_Validators]. unfold statuses. rewrite Hv. apply imap_ext. intros i v _. cbn. f_equal; [by apply bool_decide_ext..|]. rewrite Ho. apply Z.eqb_neq. lia. }
  split; [exact Hl|exact Hh|exact Hst|..].
  - rewrite Hst. cbn [buildState st_TotalValidators st_Height st_TotalVotingPower]. unfold power_sum, statuses. rewrite <-Hv, Ht. split; [done|].
    by rewrite fmap_imap, <-imap_const.
  - apply (marked_adds_up vs_Prevoted _ _ _ _ Hpv); done.
  - apply (marked_adds_up vs_Precommited _ _ _ _ Hpc); done.
Qed.
(** The first state to come is of the event after those that [t] knows. *)
Definition comes_next (t : consensusTracker) (es : list event) (sts : list State) : Prop :=
  ∀ st, head sts = Some st → ∃ pre ev rest, es = pre ++ ev :: rest ∧ knows pre t ∧ ev_height ev = st_Height st.
(** Each state describes the events up to the one that brings the next state. *)
Definition each_describes (es : list event) (sts : list State) : Prop :=
  ∀ k st, sts !! k = Some st → (0 < st_Height st)%Z ∧ ∃ pre, pre `prefix_of` es ∧ describes pre st
    ∧ ∀ st', sts !! S k = Some st' → ∃ ev rest, es = pre ++ ev :: rest ∧ ev_height ev = st_Height st'.
Definition delivers (t : consensusTracker) (es : list event) (o : option State) (sts : list State) (e : ending) : Prop :=
  StronglySorted place_le (place t :: (state_place <$> sts)) ∧ comes_next t es sts ∧ each_describes es sts
  ∧ (over e → ∃ t', knows es t' ∧ shows (last (option_list o ++ sts)) t').
Lemma delivers_nothing t es o e : (over e → knows es t ∧ shows o t) → delivers t es o [] e.
Proof. intros Hk. split_and!; [repeat constructor|done|done|]. intros Ho. exists t. rewrite app_nil_r. destruct o; by apply Hk. Qed.
Lemma delivers_more t t2 es es1 ev now o sts e : tr_initialized t2 = true → knows es1 t → knows (es1 ++ [ev]) t2 → (es1 ++ [ev]) `prefix_of` es → ev_height ev = tr_height t2 →
  place_le (place t) (place t2) → delivers t2 es (Some (buildState ratio now t2)) sts e → delivers t es o (buildState ratio now t2 :: sts) e.
Proof.
  intros Hi Hk1 Hk2 Hpre Hev Hle (Hs & Hn & Hd & Ht). split_and!.
  - rewrite fmap_cons, state_place_of by done. constructor; [done|]. apply StronglySorted_inv in Hs as [_ Hs]. constructor; [done|].
    eapply Forall_impl; [exact Hs|]. intros p Hp'. by transitivity (place t2).
  - intros st [= <-]. destruct Hpre as [rest ->]. exists es1, ev, rest. rewrite <-app_assoc. done.
  - intros [|k] st; [|apply Hd]. intros [= <-]. split; [unfold knows in Hk2; rewrite Hi in Hk2; apply Hk2|]. destruct sts as [|st' sts].
    + exists (es1 ++ [ev]). split_and!; [done|by apply knows_describes|done].
    + destruct (Hn st' eq_refl) as (pre & ev' & rest & -> & Hkp & He). exists pre. split_and!; [by eexists|by apply knows_describes|]. intros ? [= <-]. by exists ev', rest.
  - intros Ho. destruct (Ht Ho) as (t' & Hk & Hsh). exists t'. split; [done|]. destruct o; exact Hsh.
Qed.

Lemma consume_knows its : ∀ buffered reads es c t o c' sts e,
  settled its → Forall readable (buffered ++ oks reads) → knows es t → shows o t →
  consume rpcEndpoint ratio fuel its buffered reads c t = (c', sts, e) →
  delivers t (es ++ omap said (received its buffered reads)) o sts e.
Proof.
  induction its as [|s its IH]; intros buffered reads es c t o c' sts e Hset Hread Hk Ho Hc.
  { injection Hc as <- <- <-. cbn. rewrite app_nil_r. by apply delivers_nothing. }
  apply consume_next in Hc. destruct (next_message buffered reads) as [[[resp b] r]|].
  2:{ destruct Hc as [-> ->]. cbn. rewrite app_nil_r. by apply delivers_nothing. }
  destruct Hc as (Hc & Heq & ->). rewrite Heq in Hread. apply Forall_cons in Hread as [Hresp Hread].
  assert (settled its) as Hset' by (intros ????; eapply Hset; set_solver). unfold handle in Hc.
  destruct (ws_Error resp) as [err|]; [injection Hc as <- <- <-; by apply delivers_nothing|].
  destruct (ws_Result resp) as [raw|] eqn:Hraw.
  2:{ assert (said resp = None) as Hn by (unfold said; by rewrite Hraw). cbn [omap list_omap]. rewrite Hn. by eapply IH. }
  destruct (tracker_for _ _ _ _ _ _) as [c1 [t1|e1]] eqn:Ht.
  2:{ injection Hc as <- <- <-. apply delivers_nothing. unfold tracker_for in Ht. repeat (case_match; try discriminate); injection Ht as <- <-; by intros []. }
  pose proof (message_step s its resp raw es c c1 t t1 Hset Hresp Hraw Hk Ht) as Hstep.
  assert (omap said (resp :: received its b r) = option_list (said resp) ++ omap said (received its b r)) as -> by (cbn; by destruct (said resp)).
  rewrite app_assoc. destruct (handleMessage _ _ _ raw t1) as [[t2 st]|].
  - destruct Hstep as (Hk2 & Hi2 & -> & Hle & ev & Hsd & Hev). rewrite Hsd in *. cbn [option_list] in *. destruct (su_cancelled s).
    { injection Hc as <- <- <-. by apply delivers_nothing. }
    destruct (consume _ _ _ _ _ _ _ _) as [[c2 sts2] e2] eqn:Hc2. injection Hc as <- <- <-.
    eapply delivers_more; [done|exact Hk|exact Hk2|by apply prefix_app_r|done|done|].
    eapply IH; [done|done|exact Hk2| |exact Hc2]. unfold shows. rewrite Hi2. by eexists.
  - destruct Hstep as [-> Hk2]. by eapply IH.
Qed.
Lemma fresh_knows vs : knows [] (newConsensusTracker vs).
Proof. done. Qed.
Lemma connection_delivers its validators buffered reads c c' sts e : settled its → Forall readable (buffered ++ oks reads) →
  consumeConsensusConnection rpcEndpoint ratio fuel its validators buffered reads c = (c', sts, e) →
  StronglySorted place_le (state_place <$> sts) ∧ each_describes (omap said (received its buffered reads)) sts
  ∧ (over e → match last sts with Some st => describes (omap said (received its buffered reads)) st | None => omap said (received its buffered reads) = [] end).
Proof.
  intros Hset Hread Hc. destruct (consume_knows its buffered reads [] c _ None c' sts e Hset Hread (fresh_knows validators) eq_refl Hc) as (Hs & _ & Hp & Hd).
  split; [by apply StronglySorted_inv in Hs as [? _]|]. split; [done|]. intros Ho. destruct (Hd Ho) as (t & Hk & Hsh). change (shows (last sts) t) in Hsh. unfold shows in Hsh.
  destruct (tr_initialized t) eqn:Hi; [destruct Hsh as [now Hsh]; rewrite Hsh; by apply knows_describes|]. rewrite Hsh. unfold knows in Hk. by rewrite Hi in Hk.
Qed.

(** C10: One connection delivers exactly the votes that were cast. Whatever messages a
    connection receives, the states it delivers are of positive heights and never go
    back in height and round. Each describes the events received before the one that
    brings the next state, and while the connection lasts, or when its socket has
    failed, the last one describes all of them: it is at the latest height and round of
    any, lists the validators of that height, each marked with a prevote or a precommit
    if and only if an event with that vote of its index at that height and round was
    received, and shows their number and their power, modulo 2^64. Without an event
    there is no state. Every message that names a height must be an event of it, and
    the node must give one set of validators for a height. *)
Theorem stream_exact its validators buffered reads c c' sts e
  (Hsettled : settled its) (Hreadable : Forall readable (buffered ++ oks reads))
  (Hrun : consumeConsensusConnection rpcEndpoint ratio fuel its validators buffered reads c = (c', sts, e)) :
  StronglySorted place_le (state_place <$> sts) ∧ each_describes (omap said (received its buffered reads)) sts
  ∧ (over e → match last sts with Some st => describes (omap said (received its buffered reads)) st | None => omap said (received its buffered reads) = [] end).
Proof. by eapply connection_delivers. Qed.

(** C30: The order of the messages, and how often one is repeated, do not matter: two
    connections that have received the same events end with states of the same height
    and round, the same validators with the same votes, and the same counts and powers. *)
Theorem stream_order_irrelevant its1 its2 vs1 vs2 b1 b2 r1 r2 c1 c2 c1' c2' sts1 sts2 e1 e2 st1 st2
  (Hset1 : settled its1) (Hset2 : settled its2) (Hread1 : Forall readable (b1 ++ oks r1)) (Hread2 : Forall readable (b2 ++ oks r2))
  (Hrun1 : consumeConsensusConnection rpcEndpoint ratio fuel its1 vs1 b1 r1 c1 = (c1', sts1, e1)) (Hrun2 : consumeConsensusConnection rpcEndpoint ratio fuel its2 vs2 b2 r2 c2 = (c2', sts2, e2))
  (Hover1 : over e1) (Hover2 : over e2)
  (Hsame : ∀ ev, ev ∈ omap said (received its1 b1 r1) ↔ ev ∈ omap said (received its2 b2 r2)) (Hlast1 : last sts1 = Some st1) (Hlast2 : last sts2 = Some st2) :
  st_Height st1 = st_Height st2 ∧ st_Round st1 = st_Round st2 ∧ st_Validators st1 = st_Validators st2 ∧ st_TotalVotingPower st1 = st_TotalVotingPower st2
  ∧ st_PrevoteCount st1 = st_PrevoteCount st2 ∧ st_PrevotePower st1 = st_PrevotePower st2 ∧ st_PrecommitCount st1 = st_PrecommitCount st2 ∧ st_PrecommitPower st1 = st_PrecommitPower st2.
Proof.
  destruct (connection_delivers _ _ _ _ _ _ _ _ Hset1 Hread1 Hrun1) as (_ & _ & Hd1). destruct (connection_delivers _ _ _ _ _ _ _ _ Hset2 Hread2 Hrun2) as (_ & _ & Hd2).
  specialize (Hd1 Hover1). specialize (Hd2 Hover2). rewrite Hlast1 in Hd1. rewrite Hlast2 in Hd2. destruct Hd1 as [Hl1 (x1 & Hx1 & Hh1 & Hr1) Hv1 [_ Ht1] [Hc1 Hp1] [Hcc1 Hpp1]].
  destruct Hd2 as [Hl2 (x2 & Hx2 & Hh2 & Hr2) Hv2 [_ Ht2] [Hc2 Hp2] [Hcc2 Hpp2]].
  assert (st_Height st1 = st_Height st2 ∧ st_Round st1 = st_Round st2) as [Hh Hr].
  { apply Hsame, Hl2 in Hx1. apply Hsame, Hl1 in Hx2. unfold up_to in *. lia. }
  assert (st_Validators st1 = st_Validators st2) as Hv.
  { rewrite Hv1, Hv2, Hh, Hr. unfold statuses. apply imap_ext. intros i v _. cbn. f_equal; apply bool_decide_ext, Hsame. }
  rewrite Ht1, Ht2, Hc1, Hc2, Hp1, Hp2, Hcc1, Hcc2, Hpp1, Hpp2, Hv. done.
Qed.

(** The powers that are shown stay within the total. When no validator of the height
    has a negative power and their sum is below 2^63, the last state of a connection
    shows powers of the prevotes and of the precommits between zero and the total
    voting power, which is the sum of all, and no more votes than validators. *)
Theorem vote_power_bounded its validators buffered reads c c' sts e st
  (Hsettled : settled its) (Hreadable : Forall readable (buffered ++ oks reads))
  (Hrun : consumeConsensusConnection rpcEndpoint ratio fuel its validators buffered reads c = (c', sts, e)) (Hover : over e) (Hlast : last sts = Some st)
  (Hpos : ∀ v, v ∈ vals (st_Height st) → (0 ≤ power v)%Z) (Hsum : (zsum (power <$> vals (st_Height st)) < 2 ^ 63)%Z) :
  st_TotalVotingPower st = zsum (power <$> vals (st_Height st))
  ∧ (0 ≤ st_PrevotePower st ≤ st_TotalVotingPower st)%Z ∧ (0 ≤ st_PrecommitPower st ≤ st_TotalVotingPower st)%Z
  ∧ st_PrevoteCount st ≤ st_TotalValidators st ∧ st_PrecommitCount st ≤ st_TotalValidators st.
Proof.
  destruct (connection_delivers _ _ _ _ _ _ _ _ Hsettled Hreadable Hrun) as (_ & _ & Hd). specialize (Hd Hover). rewrite Hlast in Hd.
  destruct Hd as [_ _ Hv [Hn Ht] [Hc Hp] [Hcc Hpp]].
  assert (power_sum (st_Validators st) = zsum (power <$> vals (st_Height st))) as Hs.
  { rewrite Hv. unfold power_sum, statuses. by rewrite fmap_imap, <-imap_const. }
  assert (∀ s, s ∈ st_Validators st → (0 ≤ vs_VotingPower s)%Z) as Hs0.
  { rewrite Hv. unfold statuses. intros s (i & v & -> & Hi)%elem_of_lookup_imap_1. cbn. apply Hpos. by eapply list_elem_of_lookup_2. }
  assert (∀ mark, (0 ≤ power_sum (List.filter mark (st_Validators st)) ≤ power_sum (st_Validators st))%Z ∧ length (List.filter mark (st_Validators st)) ≤ length (vals (st_Height st))) as Hm.
  { intros mark. replace (length (vals (st_Height st))) with (length (st_Validators st)) by (rewrite Hv; apply length_imap). unfold power_sum. clear -Hs0.
    induction (st_Validators st) as [|s l IH]; [cbn; lia|]. specialize (IH ltac:(set_solver)). pose proof (Hs0 s ltac:(set_solver)) as H0.
    cbn [List.filter fmap list_fmap length] in *. unfold zsum in *. destruct (mark s); cbn in *; lia. }
  pose proof (Hm vs_Prevoted) as [H1 H2]. pose proof (Hm vs_Precommited) as [H3 H4]. rewrite <-Hs in Hsum |- *.
  assert (∀ z, (0 ≤ z ≤ power_sum (st_Validators st))%Z → wrap_i64 z = z) as Hw by (intros z Hz; apply wrap_i64_id; unfold in_i64, i64_min, i64_max; lia).
  rewrite Ht, Hc, Hp, Hcc, Hpp, Hn, !Hw by lia. lia.
Qed.
End stream.

(** ** The set of validators *)
Definition print_validator (v : Validator) : json :=
  JObj [("address", JStr (va_Address v)); ("pub_key", JObj [("type", JStr "tendermint/PubKeyEd25519"); ("value", JStr (va_PubKey v))]);
        ("voting_power", JStr (va_VotingPower v)); ("proposer_priority", JStr "0")].
(** The answer of a node to a page of a set. *)
Definition print_page (height : Z) (all : list Validator) (page : Z) : json :=
  let l := take 100 (drop (100 * Z.to_nat (page - 1)) all) in
  JObj [("jsonrpc", JStr "2.0"); ("id", JNum "-1");
        ("result", JObj [("block_height", JStr (FormatInt height)); ("validators", JArr (print_validator <$> l));
                         ("count", JStr (FormatInt (Z.of_nat (length l)))); ("total", JStr (FormatInt (Z.of_nat (length all))))])].
Lemma read_validators l : mapM (λ j, dec_validator j (MkValidator "" "" "")) (print_validator <$> l) = Some l.
Proof. induction l as [|[a k p] l IH]; [done|]. rewrite fmap_cons. cbn [mapM]. rewrite IH. vm_compute. done. Qed.
Lemma no_space_digit c l : is_digit c = true → first_space (List.filter (λ r, negb (bool_decide (r = [ascii_of_N 10]))) space_runes) (c :: l) = None.
Proof. destruct c as [[] [] [] [] [] [] [] []]; vm_compute; done. Qed.
Lemma digit_plain c : is_digit c = true → bool_decide (c = ascii_of_N 10) = false ∧ bool_decide (c = "+"%char ∨ c = "-"%char) = false.
Proof. destruct c as [[] [] [] [] [] [] [] []]; vm_compute; done. Qed.
Lemma scan_number (n : nat) : in_i64 (Z.of_nat n) = true → Sscanf_d (FormatInt (Z.of_nat n)) = Ok (Z.of_nat n).
Proof.
  intros Hn. assert (FormatInt (Z.of_nat n) = FormatUint (N.of_nat n)) as Hk by (unfold FormatInt, FormatUint; by destruct n).
  unfold Sscanf_d. cbv zeta. pose proof (digits_of (N.of_nat n)) as Hd. pose proof (digits_nonempty (N.of_nat n)) as Hne. rewrite <-Hk in Hd, Hne.
  pose proof (of_bytes_of (FormatInt (Z.of_nat n))) as Hof. destruct (bytes_of (FormatInt (Z.of_nat n))) as [|c l]; [done|]. apply Forall_cons in Hd as [Hc Hl].
  cbn [length trim_left]. rewrite no_space_digit by done. destruct (digit_plain c Hc) as [-> ->].
  assert (span is_digit (c :: l) = (c :: l, [])) as -> by (rewrite <-(app_nil_r (c :: l)) at 1; by apply span_app; [constructor|]).
  rewrite app_nil_l, Hof. by apply ParseInt64_FormatInt.
Qed.

(** A node that serves a set: every page of it is answered. *)
Definition serves (rpcEndpoint : string) (get : string → http_answer) (height : Z) (all : list Validator) : Prop :=
  ∀ page, (1 ≤ page)%Z → get (validators_url rpcEndpoint page 100 height) = Response 200 (Ok (Text (print_page height all page))).
Lemma page_served rpcEndpoint get height all page : serves rpcEndpoint get height all → (1 ≤ page)%Z → in_i64 height = true → in_i64 (Z.of_nat (length all)) = true →
  fetchValidatorsPageAtHeight rpcEndpoint get page 100 height = Ok (take 100 (drop (100 * Z.to_nat (page - 1)) all), Z.of_nat (length all)).
Proof.
  intros Hs Hp Hh Ha. unfold fetchValidatorsPageAtHeight. rewrite Hs by done. unfold read_answer. cbn [N.eqb Pos.eqb negb map_err mbind result_bind Unmarshal].
  set (l := take 100 _). assert (dec_validators_response (print_page height all page) (MkValidatorsResult "" None "") =
    Some (MkValidatorsResult (FormatInt height) (Some l) (FormatInt (Z.of_nat (length all))))) as ->.
  { unfold print_page. cbv zeta. fold l. pose proof (read_validators l) as Hr. revert Hr. generalize (print_validator <$> l). intros js Hr.
    generalize (FormatInt height), (FormatInt (Z.of_nat (length l))), (FormatInt (Z.of_nat (length all))). intros h c t.
    assert (dec_slice (MkValidator "" "" "") dec_validator (JArr js) None = Some (Some l)) as Hd by (cbn [dec_slice]; by rewrite Hr).
    remember (dec_slice (MkValidator "" "" "") dec_validator) as d eqn:Ed. revert Hd. unfold dec_validators_response, validators_result_fields. rewrite <-Ed. clear Hr Ed.
    intros Hd. clearbody l. vm_compute. by rewrite Hd. }
  cbn [map_err mbind result_bind vr_BlockHeight vr_Validators vr_Total default from_option].
  rewrite ParseInt64_FormatInt, bool_decide_eq_true_2, scan_number by done. by destruct (0 <? height)%Z.
Qed.
Lemma pages_served rpcEndpoint get height all : serves rpcEndpoint get height all → in_i64 height = true → in_i64 (Z.of_nat (length all)) = true →
  ∀ fuel k, length all < 100 * k + 100 * fuel → 100 * k ≤ length all → fetch_pages rpcEndpoint get height fuel (Z.of_nat k + 1) (take (100 * k) all) = Some (Ok all).
Proof.
  intros Hs Hh Ha. induction fuel as [|fuel IH]; intros k Hf Hk; [lia|]. cbn [fetch_pages]. rewrite (page_served _ _ _ all) by (done || lia).
  replace (Z.to_nat (Z.of_nat k + 1 - 1)) with k by lia. rewrite take_take_drop.
  destruct (decide (length all ≤ 100 * k + 100)) as [Hle|Hgt].
  - rewrite take_ge by lia. by rewrite (proj2 (Z.leb_le _ _)) by lia.
  - rewrite (proj2 (Z.leb_gt _ _)) by (rewrite length_take; lia). rewrite bool_decide_eq_false_2; cbn [orb].
    + replace (Z.of_nat k + 1 + 1)%Z with (Z.of_nat (S k) + 1)%Z by lia. replace (100 * k + 100) with (100 * S k) by lia. apply IH; lia.
    + intros Hn. apply (f_equal length) in Hn. rewrite length_take, length_drop in Hn. cbn [length] in Hn. lia.
Qed.

(** A page that the node says is of a height. *)
Definition page_of_height (rpcEndpoint : string) (get : string → http_answer) (height page : Z) (l : list Validator) : Prop :=
  ∃ body r, get (validators_url rpcEndpoint page 100 height) = Response 200 (Ok body)
    ∧ Unmarshal dec_validators_response body (MkValidatorsResult "" None "") = Ok r ∧ ParseInt64 (vr_BlockHeight r) = Ok height ∧ l = default [] (vr_Validators r).
Lemma page_height rpcEndpoint get height page l total : (0 < height)%Z → fetchValidatorsPageAtHeight rpcEndpoint get page 100 height = Ok (l, total) →
  page_of_height rpcEndpoint get height page l.
Proof.
  intros Hpos. unfold fetchValidatorsPageAtHeight. rewrite (proj2 (Z.ltb_lt _ _) Hpos). intros (r & Hr & Hb)%bind_ok. apply bind_ok in Hb as (u & Hu & Hb). apply bind_ok in Hb as (n & _ & [= <- <-]).
  case_bool_decide as Hh; [|done]. unfold read_answer in Hr. destruct (get _) as [| |status body] eqn:Hg; [done..|]. destruct (negb (status =? 200)%N) eqn:Hst; [done|].
  apply negb_false_iff, N.eqb_eq in Hst as ->. apply bind_ok in Hr as (b & Hb & Hr). apply map_err_ok in Hb as ->. apply map_err_ok in Hr. by exists b, r.
Qed.
Lemma pages_of_height rpcEndpoint get height : (0 < height)%Z → ∀ fuel page all vs, fetch_pages rpcEndpoint get height fuel page all = Some (Ok vs) →
  ∃ pages, vs = all ++ mjoin pages ∧ ∀ i l, pages !! i = Some l → page_of_height rpcEndpoint get height (page + Z.of_nat i) l.
Proof.
  intros Hpos. induction fuel as [|fuel IH]; intros page all vs; cbn [fetch_pages]; [done|].
  destruct (fetchValidatorsPageAtHeight _ _ _ _ _) as [[l total]| |] eqn:Hf; [|done..]. apply page_height in Hf; [|done]. destruct (_ || _).
  - intros [= <-]. exists [l]. split; [cbn; by rewrite app_nil_r|]. intros [|i] l'; [intros [= <-]; by rewrite Z.add_0_r|done].
  - intros (pages & -> & Hp)%IH. exists (l :: pages). split; [cbn; by rewrite app_assoc|]. intros [|i] l'; [intros [= <-]; by rewrite Z.add_0_r|].
    intros Hl%Hp. by replace (page + Z.of_nat (S i))%Z with (page + 1 + Z.of_nat i)%Z by lia.
Qed.

(** The client reads the whole set of validators of a height, and keeps it. From a
    node that serves the set, of any size, in pages of a hundred, it gets exactly the
    set, in order, within a number of requests given by its size; and whatever it
    accepts for a height is the concatenation of consecutive pages that the node says
    are of that height, which is positive. *)
Theorem validators_of_height rpcEndpoint fuel get height c :
  (∀ all, serves rpcEndpoint get height all → in_i64 height = true → (0 < height)%Z → in_i64 (Z.of_nat (length all)) = true → length all < 100 * fuel →
     refreshValidatorsAtHeight rpcEndpoint fuel get height c = (MkClient all true, Some (Ok all)))
  ∧ ∀ vs c', refreshValidatorsAtHeight rpcEndpoint fuel get height c = (c', Some (Ok vs)) → c' = MkClient vs true ∧ (0 < height)%Z ∧
      ∃ pages, vs = mjoin pages ∧ ∀ i l, pages !! i = Some l → page_of_height rpcEndpoint get height (1 + Z.of_nat i) l.
Proof.
  unfold refreshValidatorsAtHeight, positive_height, keep_validators, fetchValidatorsForHeight. split.
  - intros all Hs Hh Hpos Ha Hf. rewrite (proj2 (Z.leb_gt _ _)) by done.
    pose proof (pages_served _ _ _ _ Hs Hh Ha fuel 0 ltac:(lia) ltac:(lia)) as Hp. rewrite Nat.mul_0_r, take_0 in Hp. change (Z.of_nat 0 + 1)%Z with 1%Z in Hp. by rewrite Hp.
  - intros vs c'. destruct (Z.leb_spec height 0); [done|]. destruct (fetch_pages _ _ _ _ _ _) as [[l| |]|] eqn:Hf; try done. intros [= <- <-].
    apply pages_of_height in Hf as (pages & -> & Hp); [|lia]. split_and!; [done|done|]. by exists pages.
Qed.

(** ** Subscribing *)
Definition is_ack (r : consensusWSResponse) : bool := isConsensusSubscriptionAck (ws_Result r).
Lemma await_acks_ok : ∀ reads pending buffered buffered' rest, await_acks reads pending buffered = Some (Ok (buffered', rest)) →
  ∃ consumed, reads = (Ok <$> consumed) ++ rest ∧ buffered' = buffered ++ List.filter (λ r, negb (is_ack r)) consumed
    ∧ (∀ i, i ∈ pending ↔ i ∈ ws_ID <$> List.filter is_ack consumed) ∧ NoDup (ws_ID <$> List.filter is_ack consumed)
    ∧ Forall (λ r, ws_Error r = None ∧ is_Some (subscription_name (ws_ID r)) ∧ (is_ack r = false → isConsensusEventResult (ws_Result r) = true)) consumed.
Proof.
  induction reads as [|r reads IH]; intros pending buffered buffered' rest; cbn [await_acks]; (case_bool_decide as Hp; [subst pending; intros [= <- <-]; exists []; cbn; rewrite app_nil_r; split_and!; [done|done|set_solver|constructor|constructor]|]); [done|].
  destruct r as [r| |]; [|done..]. destruct (subscription_name (ws_ID r)) as [name|] eqn:Hn; [|done]. destruct (ws_Error r) eqn:He; [done|].
  destruct (isConsensusSubscriptionAck (ws_Result r)) eqn:Ha.
  - case_bool_decide as Hin; [|done]. intros (consumed & -> & -> & Hi & Hnd & Hf)%IH. exists (r :: consumed).
    change (is_ack r = true) in Ha. cbn [List.filter]. rewrite Ha. cbn [negb]. rewrite !fmap_cons. split_and!; [done|done| | |].
    + intros i. rewrite elem_of_cons, <-Hi. destruct (decide (i = ws_ID r)); set_solver.
    + constructor; [|done]. rewrite <-Hi. set_solver.
    + constructor; [|done]. rewrite Ha. naive_solver.
  - destruct (isConsensusEventResult (ws_Result r)) eqn:Hev; [|done]. intros (consumed & -> & -> & Hi & Hnd & Hf)%IH. exists (r :: consumed).
    change (is_ack r = false) in Ha. cbn [List.filter]. rewrite Ha. cbn [negb]. split_and!; [done|by rewrite <-app_assoc|done|done|]. constructor; [|done]. naive_solver.
Qed.

(** C31: No event is lost while a connection is set up. When subscribing succeeds, each of
    the two subscriptions was acknowledged exactly once, without an error, and what the
    connection will handle, the events kept aside and then what is still to be read, is
    every message read from the socket, in order, but for those two acknowledgements. *)
Theorem subscription_loses_nothing ws buffered rest (Hok : subscribeConsensusEvents ws = Some (Ok (buffered, rest))) :
  ∃ consumed, so_reads ws = (Ok <$> consumed) ++ rest
    ∧ buffered ++ oks rest = List.filter (λ r, negb (is_ack r)) consumed ++ oks rest
    ∧ ws_ID <$> List.filter is_ack consumed ≡ₚ [1; 2]%Z
    ∧ Forall (λ r, ws_Error r = None) consumed ∧ Forall (λ r, isConsensusEventResult (ws_Result r) = true) buffered.
Proof.
  unfold subscribeConsensusEvents in Hok. destruct (so_writeDeadline ws), (so_readDeadline ws), (so_writes ws) as [[] []]; try discriminate.
  apply await_acks_ok in Hok as (consumed & Hr & -> & Hi & Hnd & Hf). exists consumed. rewrite app_nil_l. split_and!; [done|done| | |].
  - apply NoDup_Permutation; [done|apply (bool_decide_unpack _); by vm_compute|]. intros i. rewrite <-Hi. set_solver.
  - eapply Forall_impl; [exact Hf|]. naive_solver.
  - clear -Hf. induction Hf as [|r l (_ & _ & Hr) _ IH]; cbn [List.filter]; [constructor|]. destruct (is_ack r); [done|]. constructor; [by apply Hr|done].
Qed.

(** ** From the stream to the history *)
Section history.
Context {C T V F Doc : Type} `{ProviderStore C, Widgets T V, SortSlice, Unordered, Fraction F, Texts F Doc}.
Abbreviation Model := (Model (C := C) (T := T) (V := V) (F := F) (Doc := Doc)).
Abbreviation State := (State (F := F)).

(** The monitor as snapshots arrive ([Some]) and the display ticks ([None]), each at a
    time. *)
Definition watch (m : Model) (input : Z * option State) : Model :=
  (Update false (λ _, input.1) (match input.2 with Some st => consensusSnapshotMsg (Some (Some st)) | None => renderTickMsg end) m).1.
Definition watched (m : Model) (inputs : list (Z * option State)) : Model := foldl watch m inputs.
Definition snapshots (inputs : list (Z * option State)) : list State := omap snd inputs.

(** The chain has seen these states, the last of which may still be pending. *)
Definition seen (c : Chain (F := F)) (sts : list State) : Prop :=
  ∃ acc, follows_states c acc ∧
  match ch_pendingState c with
  | None => acc = lasts sts
  | Some p => last sts = Some p ∧ latest acc p = lasts sts ∧ match acc with s :: _ => (st_Height s ≤ st_Height p)%Z | [] => True end
  end.
Lemma follows_pending v (c : Chain (F := F)) acc : follows_states c acc → follows_states (set_ch_pendingState v c) acc.
Proof. intros [Hs Hf Hh]. by split. Qed.
Lemma watch_tick now m : mo_chain (watch m (now, None)) =
  match ch_pendingState (mo_chain m) with Some st => set_ch_pendingState None (mo_chain (handleStateMsgInPlace now st m)) | None => mo_chain m end.
Proof. unfold watch. cbn [fst snd Update]. destruct (ch_pendingState (mo_chain m)) as [st|] eqn:Hp; [by rewrite (tick_shows _ _ st)|]. unfold on_render_tick. by rewrite Hp. Qed.
Lemma watch_snapshot now st m : mo_chain (watch m (now, Some st)) =
  set_ch_pendingState (Some st) match ch_pendingState (mo_chain m) with
                                | Some p => if (st_Height p <? st_Height st)%Z then mo_chain (handleStateMsgInPlace now p m) else mo_chain m
                                | None => mo_chain m
                                end.
Proof. unfold watch. cbn [fst snd Update]. unfold on_snapshot. cbv zeta. destruct (ch_pendingState (mo_chain m)) as [p|]; [|done]. by destruct (_ <? _)%Z. Qed.
Lemma latest_same (acc : list State) p st : match acc with s :: _ => (st_Height s ≤ st_Height p)%Z | [] => True end → st_Height p = st_Height st → latest (latest acc p) st = latest acc st.
Proof.
  intros Hle Heq. destruct acc as [|s acc]; cbn; [by rewrite (proj2 (Z.ltb_ge _ _)) by lia|]. destruct (Z.ltb_spec (st_Height s) (st_Height p)); cbn.
  - rewrite (proj2 (Z.ltb_ge _ _)), (proj2 (Z.ltb_lt _ _)) by lia. done.
  - rewrite !(proj2 (Z.ltb_ge _ _)) by lia. done.
Qed.
Lemma rising_snoc (sts : list State) st : rising (sts ++ [st]) → rising sts ∧ (0 < st_Height st)%Z ∧ ∀ s, s ∈ sts → (st_Height s ≤ st_Height st)%Z.
Proof.
  intros [Hp Hs]. apply Forall_app in Hp as [Hp Hst]. rewrite fmap_app in Hs. split_and!; [split; [done|by eapply StronglySorted_app_1_l]|by rewrite Forall_singleton in Hst|].
  intros s Hin. eapply (StronglySorted_app_1_elem_of Z.le); [exact Hs|by apply list_elem_of_fmap_2|set_solver].
Qed.
Lemma lasts_elem (sts : list State) s : s ∈ lasts sts → s ∈ sts.
Proof.
  induction sts as [|st sts IH] using rev_ind; [done|]. rewrite lasts_snoc. unfold latest. destruct (lasts sts) as [|x acc]; [set_solver|]. destruct (_ <? _)%Z; set_solver.
Qed.
Lemma seen_shown now (m : Model) sts p : seen (mo_chain m) sts → ch_pendingState (mo_chain m) = Some p → (0 < st_Height p)%Z →
  follows_states (mo_chain (handleStateMsgInPlace now p m)) (lasts sts).
Proof. intros (acc & Hf & Hp) Hpend Hpos. rewrite Hpend in Hp. destruct Hp as (_ & <- & Hle). by apply follows_next. Qed.
Lemma seen_tick now (m : Model) sts : seen (mo_chain m) sts → rising sts → seen (mo_chain (watch m (now, None))) sts ∧ ch_pendingState (mo_chain (watch m (now, None))) = None.
Proof.
  intros Hs Hr. rewrite watch_tick. destruct (ch_pendingState (mo_chain m)) as [p|] eqn:Hp; [|done]. split; [|done].
  exists (lasts sts). split; [|done]. apply follows_pending. apply seen_shown; [done|done|]. destruct Hs as (acc & _ & Hs). rewrite Hp in Hs. destruct Hs as (Hl & _).
  destruct Hr as [Hr _]. rewrite Forall_forall in Hr. apply Hr. by apply last_Some_elem_of.
Qed.
Lemma seen_snapshot now (m : Model) sts st : seen (mo_chain m) sts → rising (sts ++ [st]) → seen (mo_chain (watch m (now, Some st))) (sts ++ [st]).
Proof.
  intros Hs (Hr & Hpos & Hle)%rising_snoc. rewrite watch_snapshot. pose proof Hs as (acc & Hf & Hp). destruct (ch_pendingState (mo_chain m)) as [p|] eqn:Hpend.
  - destruct Hp as (Hl & Hlat & Hacc). assert (p ∈ sts) as Hin by by apply last_Some_elem_of. pose proof (Hle p Hin) as Hple.
    destruct (Z.ltb_spec (st_Height p) (st_Height st)) as [Hlt|Hge].
    + exists (lasts sts). split; [apply follows_pending, seen_shown; [done..|]|].
      { destruct Hr as [Hr _]. rewrite Forall_forall in Hr. by apply Hr. }
      cbn [ch_pendingState set_ch_pendingState]. split; [by rewrite last_snoc|]. split; [by rewrite lasts_snoc|].
      destruct (lasts sts) as [|s l] eqn:Hls; [done|]. apply Hle, lasts_elem. rewrite Hls. set_solver.
    + exists acc. split; [by apply follows_pending|]. cbn [ch_pendingState set_ch_pendingState]. split; [by rewrite last_snoc|].
      split; [rewrite lasts_snoc, <-Hlat; symmetry; apply latest_same; [done|lia]|]. destruct acc; [done|lia].
  - subst acc. exists (lasts sts). split; [by apply follows_pending|]. cbn [ch_pendingState set_ch_pendingState]. split; [by rewrite last_snoc|]. split; [by rewrite lasts_snoc|].
    destruct (lasts sts) as [|s l] eqn:Hls; [done|]. apply Hle, lasts_elem. rewrite Hls. set_solver.
Qed.
Lemma watched_seen (m : Model) inputs : seen (mo_chain m) [] → rising (snapshots inputs) → seen (mo_chain (watched m inputs)) (snapshots inputs).
Proof.
  intros Hm. induction inputs as [|[now [st|]] inputs IH] using rev_ind; [done|..]; unfold watched, snapshots in *; rewrite foldl_app, omap_app; cbn [foldl omap list_omap snd].
  - intros Hr. apply seen_snapshot; [|done]. apply IH. by apply rising_snoc in Hr as [? _].
  - rewrite app_nil_r. intros Hr. apply seen_tick; [by apply IH|done].
Qed.
Lemma seen_fresh (cache : C) monikers embedded dashboard subscribed : seen (mo_chain (NewModel cache monikers embedded dashboard subscribed : Model)) [].
Proof. exists []. split; [apply follows_fresh|done]. Qed.
Lemma places_rising (sts : list State) : StronglySorted place_le (state_place <$> sts) → Forall (λ st, (0 < st_Height st)%Z) sts → rising sts.
Proof.
  intros Hs Hp. split; [done|]. clear Hp. induction sts as [|st sts IH]; [constructor|]. rewrite !fmap_cons in *. apply StronglySorted_inv in Hs as [Hs Hf]. constructor; [by apply IH|].
  rewrite !Forall_fmap in *. eapply Forall_impl; [exact Hf|]. intros s Hle. unfold place_le in Hle. cbn in *. lia.
Qed.
Lemma rising_prefix (sts sts' : list State) : sts `prefix_of` sts' → rising sts' → rising sts.
Proof. intros [k ->] [Hp Hs]. apply Forall_app in Hp as [Hp _]. rewrite fmap_app in Hs. split; [done|]. by eapply StronglySorted_app_1_l. Qed.
(** The last state of a height that is over is followed by one of a greater height. *)
Lemma lasts_followed (sts : list State) s : s ∈ tail (lasts sts) → ∃ k s', sts !! k = Some s ∧ sts !! S k = Some s' ∧ (st_Height s < st_Height s')%Z.
Proof.
  induction sts as [|st sts IH] using rev_ind; [by intros ?%elem_of_nil|]. rewrite lasts_snoc.
  assert (s ∈ tail (lasts sts) → ∃ k s', (sts ++ [st]) !! k = Some s ∧ (sts ++ [st]) !! S k = Some s' ∧ (st_Height s < st_Height s')%Z) as Hold.
  { intros (k & s' & Hk & Hk' & Hlt)%IH. exists k, s'. split_and!; [by apply lookup_app_l_Some..|done]. }
  destruct sts as [|x sts _] using rev_ind; [by intros ?%elem_of_nil|]. destruct (lasts_head sts x) as [acc Hacc]. rewrite Hacc in *. cbn [latest tail] in *.
  destruct (Z.ltb_spec (st_Height x) (st_Height st)); [|exact Hold]. intros [->|Hin]%elem_of_cons; [|by apply Hold]. exists (length sts), st. split_and!; [| |done].
  - rewrite <-app_assoc, lookup_app_r, Nat.sub_diag by lia. done.
  - rewrite lookup_app_r by (rewrite length_app; cbn; lia). rewrite length_app. cbn [length]. by replace (S (length sts) - (length sts + 1)) with 0 by lia.
Qed.
Lemma elem_of_removelast {A} (l : list A) x : x ∈ removelast l → x ∈ l.
Proof. induction l as [|a [|b l] IH]; [done|set_solver|]. change (removelast (a :: b :: l)) with (a :: removelast (b :: l)). set_solver. Qed.
Lemma records_of_list (P : State → Prop) l (h : list (BlockRecord F)) : Forall2 record_of l h → Forall P l → ∀ r, r ∈ h → ∃ st, P st ∧ record_of st r.
Proof. intros Hrs Hl r Hr. apply list_elem_of_lookup_1 in Hr as [i Hi]. destruct (Forall2_lookup_r _ _ _ _ _ Hrs Hi) as (st & Hst & Hrec). exists st. split; [|done]. by eapply Forall_lookup_1. Qed.

(** C9: From the socket to the screen. A new monitor that is given the states of a
    connection, or the first of them, with ticks of the display at any moments between
    them and one at the end, keeps a history with one record for each height that was
    completed, except the first, the fifty newest at most. The record of a height holds,
    for every validator of the height, a prevote and a precommit if and only if that
    vote of it, in the last round of the height for which there was an event, was
    received before the first event of a greater height. *)
Theorem history_of_stream (ratio : Z → Z → F) rpcEndpoint fuel vals its validators buffered reads c c' sts e (cache : C) monikers embedded dashboard subscribed inputs now
  (Hsettled : settled rpcEndpoint fuel vals its) (Hreadable : Forall (readable vals) (buffered ++ oks reads))
  (Hrun : consumeConsensusConnection rpcEndpoint ratio fuel its validators buffered reads c = (c', sts, e)) (Hgiven : snapshots inputs `prefix_of` sts) :
  let history := ch_blockHistory (mo_chain (watch (watched (NewModel cache monikers embedded dashboard subscribed : Model) inputs) (now, None))) in
  Forall2 record_of (take 50 (removelast (tail (lasts (snapshots inputs))))) history
  ∧ ∀ r, r ∈ history → ∃ pre next rest round, omap (said vals) (received its buffered reads) = pre ++ next :: rest ∧ (br_Height r < ev_height next)%Z
      ∧ (∀ ev, ev ∈ pre → up_to (br_Height r) round ev) ∧ (∃ ev, ev ∈ pre ∧ ev_height ev = br_Height r ∧ ev_round ev = round)
      ∧ br_Validators r = vote_of <$> statuses vals pre (br_Height r) round.
Proof.
  intros history. destruct (connection_delivers ratio rpcEndpoint fuel vals _ _ _ _ _ _ _ _ Hsettled Hreadable Hrun) as (Hs & Hp & _).
  assert (rising (snapshots inputs)) as Hr.
  { eapply rising_prefix; [exact Hgiven|]. apply places_rising; [done|]. apply Forall_forall. intros st [k Hk]%list_elem_of_lookup_1. by apply Hp in Hk as [? _]. }
  destruct (seen_tick now _ _ (watched_seen _ _ (seen_fresh cache monikers embedded dashboard subscribed) Hr) Hr) as [(acc & [_ _ Hh] & Hacc) Hpend].
  rewrite Hpend in Hacc. subst acc. split; [exact Hh|]. intros r Hin.
  destruct (records_of_list (λ st, st ∈ tail (lasts (snapshots inputs))) _ _ Hh) with (r := r) as (st & Hst & Hrh & Hrv).
  { apply Forall_forall. intros st Hst. apply elem_of_take in Hst as (i & Hst%list_elem_of_lookup_2 & _). by apply elem_of_removelast. }
  { done. }
  apply lasts_followed in Hst as (k & st' & Hk & Hk' & Hlt). destruct (Hp k st) as (_ & pre & _ & [Hl Hhere Hv _ _ _] & Hnext); [by eapply prefix_lookup_Some|].
  destruct (Hnext st') as (ev & rest & -> & Hev); [by eapply prefix_lookup_Some|].
  exists pre, ev, rest, (st_Round st). rewrite Hrh, Hrv, Hv. split_and!; [done|lia|done..].
Qed.
End history.

(** ** Stopping *)
Module Drain.
Import RuntimeTasks.
Inductive reachable_group : RuntimeTaskGroup → Prop :=
| group_new : reachable_group NewRuntimeTaskGroup
| group_next g g' : reachable_group g → group_step g g' → reachable_group g'.
Record group_inv (g : RuntimeTaskGroup) : Prop := {
  gi_called : gr_waiter g ≠ not_called → gr_stopped g = true;
  gi_returned : gr_waiter g = returned → gr_running g = ∅ ∧ gr_producers g = ∅;
}.
Lemma group_invariant g : reachable_group g → group_inv g.
Proof.
  induction 1 as [|g g' _ [Hc Hr] Hs]; [by split|].
  destruct Hs as [g i Hst Hi|g Hst|g i Hi|g i p Hi Hp|g p Hp|g Hw|g Hw Ht]; (split; cbn [gr_waiter gr_stopped gr_running gr_producers]); try done; intros Hret.
  - rewrite Hc in Hst by congruence. done.
  - destruct (Hr Hret) as [He ?]. set_solver.
  - destruct (Hr Hret) as [He ?]. set_solver.
  - destruct (Hr Hret) as [? He]. set_solver.
  - apply Hc. congruence.
  - unfold tasks in Ht. split; apply leibniz_equiv, size_empty_inv; lia.
Qed.

(** Once [StopAndWait] has returned, no task runs and no producer that was adopted
    is still at work, however tasks were entered, left and adopted before and after;
    the resources they use can be closed. *)
Theorem stopped_is_drained g (Hreach : reachable_group g) (Hret : gr_waiter g = returned) : gr_running g = ∅ ∧ gr_producers g = ∅ ∧ gr_stopped g = true.
Proof. destruct (group_invariant g Hreach) as [Hc Hr]. destruct (Hr Hret). split_and!; [done|done|]. apply Hc. congruence. Qed.
Lemma stopped_is_drained_witness : ∃ g, gr_waiter g = returned ∧ gr_running g = ∅ ∧ gr_producers g = ∅.
Proof.
  set (g1 := MkGroup {[0]} ∅ false not_called). set (g2 := MkGroup {[0]} {[7]} false not_called). set (g3 := MkGroup {[0]} {[7]} true waiting).
  set (g4 := MkGroup ∅ {[7]} true waiting). set (g5 := MkGroup ∅ ∅ true waiting). set (g6 := MkGroup ∅ ∅ true returned).
  assert (reachable_group g6) as Hg.
  { apply (group_next g5); [apply (group_next g4); [apply (group_next g3); [apply (group_next g2); [apply (group_next g1); [apply (group_next NewRuntimeTaskGroup); [constructor|]|]|]|]|]|].
    - exact (run_enters NewRuntimeTaskGroup 0 eq_refl ltac:(set_solver)).
    - exact (adopt g1 0 7 ltac:(set_solver) ltac:(set_solver)).
    - exact (StopAndWait g2 eq_refl).
    - exact (run_leaves g3 0 ltac:(set_solver)).
    - exact (producer_done g4 7 ltac:(set_solver)).
    - exact (wait_returns g5 eq_refl eq_refl). }
  destruct (stopped_is_drained g6 Hg eq_refl) as (H1 & H2 & _). exists g6. done.
Defined.
End Drain.

(** ** A small node *)
Module StreamSample.
Import MonitorSample.
Definition pair_of_validators : list Validator := [MkValidator "AA" "a2V5QQ==" "10"; MkValidator "BB" "a2V5Qg==" "30"].
Definition rpc : string := "http://node:26657".
(** The node has one set for every height, and says which it was asked for. *)
Definition node_get (u : string) : http_answer :=
  let height := (if strings_Contains u "height=8&" then 8 else if strings_Contains u "height=9&" then 9 else if strings_Contains u "height=10&" then 10 else 7)%Z in
  Response 200 (Ok (Text (print_page height pair_of_validators 1))).
Definition event_message (query : string) (value : list (string * json)) : consensusWSResponse :=
  MkWsResponse 1 (Some (JObj [("query", JStr query); ("data", JObj [("type", JStr "event"); ("value", JObj value)])])) None.
Definition vote_message (type height round index : Z) : consensusWSResponse :=
  event_message "tm.event='Vote'" [("Vote", JObj [("type", JNum (FormatInt type)); ("height", JStr (FormatInt height)); ("round", JNum (FormatInt round)); ("validator_index", JNum (FormatInt index))])].
Definition step_message (height round step : Z) : consensusWSResponse :=
  event_message "tm.event='NewRoundStep'" [("height", JStr (FormatInt height)); ("round", JNum (FormatInt round)); ("step", JNum (FormatInt step))].
Definition surrounding : surroundings := MkSurroundings node_get 5 6 false.
Definition vals : Z → list Validator := λ _, pair_of_validators.
Definition whole (a b : Z) : N := Z.to_N a.

Lemma node_settled n : settled rpc 2 vals (replicate n surrounding).
Proof.
  intros s h vs Hs Hf. apply elem_of_replicate in Hs as [-> _]. revert Hf. unfold fetchValidatorsForHeight. cbn [fetch_pages]. unfold fetchValidatorsPageAtHeight.
  cbn [su_get surrounding]. unfold node_get. generalize (validators_url rpc 1 100 h). intros u.
  destruct (strings_Contains u "height=8&"), (strings_Contains u "height=9&"), (strings_Contains u "height=10&");
    (match goal with |- context [read_answer ?a ?b ?c ?d ?e ?f ?g ?x] => let r := eval vm_compute in (read_answer a b c d e f g x) in change (read_answer a b c d e f g x) with r end);
    cbn [mbind result_bind]; (destruct (0 <? h)%Z; [case_bool_decide|]); by intros [= <-].
Qed.
Lemma all_readable l : forallb (λ m, bool_decide (is_Some (said vals m))) l = true → Forall (readable vals) l.
Proof. intros Hl. apply Forall_forall. intros m Hm raw h _ _. apply list_elem_of_In in Hm. rewrite List.forallb_forall in Hl. apply Hl in Hm. by apply bool_decide_eq_true_1 in Hm. Qed.

Definition early : list consensusWSResponse := [step_message 7 0 1].
Definition later : list consensusWSResponse := [vote_message 1 8 0 0; vote_message 2 8 0 1; step_message 9 0 1].
Definition outcome := consumeConsensusConnection rpc whole 2 (replicate 5 surrounding) [] early (Ok <$> later) NewClient.
Definition delivered_states : list (State (F := N)) := outcome.1.2.
Lemma outcome_eq : outcome = (MkClient pair_of_validators true, delivered_states, Waiting).
Proof. by vm_compute. Qed.
Lemma sample_readable : Forall (readable vals) (early ++ oks (Ok <$> later)).
Proof. apply all_readable. by vm_compute. Qed.

Lemma stream_exact_witness : st_Height <$> delivered_states = [7; 8; 8; 9]%Z ∧ StronglySorted place_le (state_place <$> delivered_states)
  ∧ ∃ st, last delivered_states = Some st ∧ describes vals (omap (said vals) (received (replicate 5 surrounding) early (Ok <$> later))) st.
Proof.
  split; [by vm_compute|].
  destruct (stream_exact whole rpc 2 vals (replicate 5 surrounding) [] early (Ok <$> later) NewClient _ delivered_states Waiting (node_settled 5) sample_readable outcome_eq) as (Hs & _ & Hl).
  split; [exact Hs|]. specialize (Hl I). destruct (last delivered_states) as [st|] eqn:Hst; [by exists st|]. by vm_compute in Hst.
Defined.

(** The two votes the other way round, and one of them twice. *)
Definition swapped : list consensusWSResponse := [vote_message 2 8 0 1; vote_message 1 8 0 0; vote_message 2 8 0 1].
Definition outcome_of (l : list consensusWSResponse) := consumeConsensusConnection rpc whole 2 (replicate 6 surrounding) [] [] (Ok <$> l) NewClient.
Definition in_order : list consensusWSResponse := [vote_message 1 8 0 0; vote_message 2 8 0 1].
Lemma stream_order_irrelevant_witness : ∃ st1 st2, last (outcome_of in_order).1.2 = Some st1 ∧ last (outcome_of swapped).1.2 = Some st2 ∧ st_Validators st1 = st_Validators st2.
Proof.
  destruct (last (outcome_of in_order).1.2) as [st1|] eqn:H1; [|by vm_compute in H1]. destruct (last (outcome_of swapped).1.2) as [st2|] eqn:H2; [|by vm_compute in H2].
  exists st1, st2. split_and!; [done|done|].
  apply (stream_order_irrelevant whole rpc 2 vals (replicate 6 surrounding) (replicate 6 surrounding) [] [] [] [] (Ok <$> in_order) (Ok <$> swapped) NewClient NewClient
    (MkClient pair_of_validators true) (MkClient pair_of_validators true) (outcome_of in_order).1.2 (outcome_of swapped).1.2 Waiting Waiting st1 st2);
    [apply node_settled|apply node_settled|apply all_readable; by vm_compute|apply all_readable; by vm_compute|by vm_compute|by vm_compute|done|done| |done|done].
  intros ev.
  assert (omap (said vals) (received (replicate 6 surrounding) [] (Ok <$> in_order)) = [Voted 1 8 0 0; Voted 2 8 0 1]) as -> by by vm_compute.
  assert (omap (said vals) (received (replicate 6 surrounding) [] (Ok <$> swapped)) = [Voted 2 8 0 1; Voted 1 8 0 0; Voted 2 8 0 1]) as -> by by vm_compute.
  rewrite !elem_of_cons, !elem_of_nil. tauto.
Defined.

Lemma vote_power_bounded_witness : ∃ st, last (outcome_of in_order).1.2 = Some st ∧ st_PrevotePower st = 10%Z ∧ (st_PrevotePower st ≤ st_TotalVotingPower st)%Z.
Proof.
  destruct (last (outcome_of in_order).1.2) as [st|] eqn:Hst; [|by vm_compute in Hst]. exists st. split_and!; [done|by vm_compute in Hst; injection Hst as <-|].
  apply (vote_power_bounded whole rpc 2 vals (replicate 6 surrounding) [] [] (Ok <$> in_order) NewClient (MkClient pair_of_validators true) (outcome_of in_order).1.2 Waiting st);
    [apply node_settled|apply all_readable; by vm_compute|by vm_compute|done|done| |by vm_compute].
  intros v Hv. unfold vals, pair_of_validators in Hv. rewrite !elem_of_cons, elem_of_nil in Hv. destruct Hv as [->|[->|[]]]; by vm_compute.
Defined.

Definition handshake : list (result consensusWSResponse) := [Ok (vote_message 1 7 0 0); Ok (MkWsResponse 2 (Some (JObj [])) None); Ok (step_message 7 0 3); Ok (MkWsResponse 1 (Some (JObj [])) None); Ok (vote_message 1 7 0 1)].
Lemma subscription_loses_nothing_witness : ∃ buffered rest consumed, subscribeConsensusEvents (MkSocket None None (None, None) handshake) = Some (Ok (buffered, rest))
  ∧ handshake = (Ok <$> consumed) ++ rest ∧ ws_ID <$> List.filter is_ack consumed ≡ₚ [1; 2]%Z.
Proof.
  eexists _, _. destruct (subscription_loses_nothing (MkSocket None None (None, None) handshake) [vote_message 1 7 0 0; step_message 7 0 3] [Ok (vote_message 1 7 0 1)] ltac:(by vm_compute))
    as (consumed & Hr & _ & Ha & _). exists consumed. split; [by vm_compute|]. split; [exact Hr|exact Ha].
Defined.

(** The documentation of the tracker says that a delayed message cannot rewind it. A
    message of a greater height that is not an event of it replaces the tracker, and
    the next message of any height is accepted. *)
Lemma malformed_message_rewinds :
  st_Height <$> (consumeConsensusConnection rpc whole 2 (replicate 4 surrounding) [] [step_message 9 0 1; vote_message 1 10 0 99; step_message 8 0 1] [] NewClient).1.2 = [9; 8]%Z.
Proof. by vm_compute. Qed.

Definition screen_inputs : list (Z * option (State (F := N))) := (λ st, (1%Z, Some st)) <$> delivered_states.
Lemma history_of_stream_witness : ∃ r, ch_blockHistory (mo_chain (watch (watched sample_model screen_inputs) (2%Z, None))) = [r] ∧ br_Height r = 8%Z
  ∧ (λ v, (bv_Prevoted v, bv_Precommited v)) <$> br_Validators r = [(true, false); (false, true)].
Proof.
  assert (snapshots screen_inputs = delivered_states) as Hsn by by vm_compute.
  destruct (history_of_stream whole rpc 2 vals (replicate 5 surrounding) [] early (Ok <$> later) NewClient _ delivered_states Waiting sample_cache ∅ false "provider" true screen_inputs 2
    (node_settled 5) sample_readable outcome_eq ltac:(by rewrite Hsn)) as [Hh _].
  rewrite Hsn in Hh. assert (∃ st, take 50 (removelast (tail (lasts delivered_states))) = [st] ∧ st_Height st = 8%Z
    ∧ (λ v, (vs_Prevoted v, vs_Precommited v)) <$> st_Validators st = [(true, false); (false, true)]) as (st & Hst & Hst8 & Hv).
  { eexists. split; [by vm_compute|]. split; by vm_compute. }
  rewrite Hst in Hh. apply Forall2_cons_inv_l in Hh as (r & l & [Hr1 Hr2] & Hn & Heq). apply Forall2_nil_inv_l in Hn as ->.
  exists r. split; [exact Heq|]. split; [by rewrite Hr1|]. rewrite Hr2, <-Hv. by rewrite <-list_fmap_compose.
Defined.
End StreamSample.
